(* ===== verification/_CoqProject ===== *)
-Q . S2P
Overview.v
Prelude.v
Codes.v
Wire.v
Names.v
Buffer.v
Fwd.v
Algos.v
Kdf.v
Session.v
Samples.v
MsgFilter.v
Transport.v
Channels.v
Send.v
ChannelMsgs.v
ConnSafe.v
ConnSpec.v
ChannelIO.v
KexInit.v
KexKeys.v
KexAgree.v
Frames.v
UserSig.v
Ossh.v
Composite.v
OsshKey.v
CertMan.v
HostKey.v
UserAuth.v
UserAuthSpec.v
KexDh.v
KexDhSpec.v
KexServe.v
KexGroup.v
Input.v
Agent.v
AgentSpec.v
UserAuthClient.v
ClientSpec.v
Receive.v
ReceiveSpec.v
Terminal.v
Handshake.v
AuthSafe.v
SftpPath.v
