(* ===== verification/Overview.v ===== *)
(** * wolfSSH

    A model of the wolfSSH library's protocol core (src/src/internal.c, src/src/ssh.c,
    src/src/agent.c, src/src/ossh.c, src/src/certman.c), the paths of its SFTP sessions
    (src/src/wolfsftp.c), and what makes them correct.

    ** The program

    wolfSSH is an SSH library over wolfCrypt. A session ([WOLFSSH]) is a transport (a
    packet buffer for each direction, ciphers, MACs and the key exchange that renews
    them), an authentication, and a connection layer that multiplexes channels with
    flow control over it. The application drives the session through the calls of
    ssh.c and is called back for I/O, for the verdicts on users and for requests on
    channels. One message comes in at a time: it is filtered by the state of the
    session ([IsMessageAllowed]), dispatched to its handler, and answered through the
    senders, which all build a packet in the output buffer and flush it.

    ** How it is modelled

    Stateful code is a function of the state monad [ST S A] of Prelude: it returns a
    value ([Ok]), an error code ([Err]), or undefined behaviour ([UB]), and the state
    survives each of them, as C's assignments survive an error return. [M] is the
    monad over [WOLFSSH] (Session). The [if (ret == WS_SUCCESS)] chains of the source
    are sequences of binds; [code] and [ret_code] turn outcomes into [int] codes and
    back where the source goes on after a failure. A message being parsed is a list of
    bytes with an index ([parse]). A [word32] is an integer with the wrap-around
    written out ([+w], [-w]). Structs are records with update notation; pointers to
    channels are locations in a store, so that aliasing and freed channels are seen.
    Memory can run out: each allocation takes its outcome from [mallocs].

    Outside code is a parameter: wolfCrypt's ciphers ([Crypto]), hashes ([Hashes]) and
    keys and key agreements ([PubKeys], [SignKeys], [HostKeys], [KeyExchange], [AgentKeys],
    [ClientKeys]), with laws on sizes and results ([CryptoSizes], [CipherLaws], [HashLaws],
    [HashTotal], [SignLaws], [MpLaws]); wolfSSL's certificate store and parser
    ([CertManager], [CertLaws]); the terminal ([Tty]); the system's files ([FileSystem]); and the application's callbacks,
    arbitrary functions on the session held by the context [CTX]. Contracts on the
    callbacks ([Callbacks], [Network], [AgentSocket], [QuietSends], [QuietAuth],
    [QuietKeyCheck], [Bystanders]) say that they leave the library's own state alone, and
    are assumed only where a theorem needs them.

    ** The files

    - Prelude: integers, bytes, the monad, its weakest preconditions, record updates.
    - Codes: the constants of error.h, internal.h and ssh.h.
    - Wire: the readers and writers of fields (GetUint32, GetStringRef, ... and
      misc.c), each a [parser] with its bounds and its round trip ([Codec]).
    - Names: NameToId, IdToName, name lists and their matching (GetNameListRaw,
      MatchIdLists, CheckAlgoList, BuildNameList).
    - Buffer: BufferInit, GrowBuffer, ShrinkBuffer, PrependBuffer-style moves.
    - Fwd: the table of remote forwards (ssh.c).
    - Algos: the parameters of algorithms; a negotiated suite is consistent.
    - Kdf: GenerateKey and CreateMpint.
    - Session: the session, its channels, the context; SshInit. Samples: a context and
      sessions for the examples.
    - MsgFilter: IsMessageAllowed; HighwaterCheck.
    - Transport: PreparePacket, BundlePacket, SendPacketFlush, the ciphers and MACs.
    - Channels: the list of channels (ChannelNew, ChannelFind, ChannelRemove, ...).
    - Send: the senders and the windows of channels.
    - ChannelMsgs: the handlers of global requests and channel messages. ConnSafe: no
      undefined behaviour in them on any message. ConnSpec: what they do.
    - ChannelIO: the API's reads and writes on channels (ssh.c).
    - KexInit: SendKexInit and DoKexInit. KexKeys: groups, GenerateKeys, taking keys
      into use. KexAgree: both ends negotiate the same.
    - UserSig: the signature checks of public key authentication, wolfSSH_RsaVerify.
    - Ossh: OpenSSH certificates (ossh.c).
    - OsshKey: OpenSSH key files (ossh.c).
    - Composite: composite signatures of ML-DSA and a traditional key.
    - CertMan: the certificate manager (certman.c) and the chains of a peer.
    - HostKey: the host key's blob and its signature. KexDh: the key agreements and the
      messages that carry them. KexDhSpec, KexServe: what a reply proves to the client,
      and signs for the server. KexGroup: the group of a group exchange.
    - UserAuth: user authentication on the server. Frames: what a run leaves alone.
      UserAuthSpec: who is let in.
    - Input: the receiving half of a connection (ReceiveData, GetInputLine,
      GetInputData) and the exchange of versions (DoProtoId, SendProtoId).
    - Agent: the agent's messages, identities and signatures, and the client's relay to
      it (agent.c). AgentSpec: what asking it for a signature promises.
    - UserAuthClient: user authentication on the client (DoUserAuthFailure,
      DoUserAuthInfoRequest, SendUserAuthRequest). ClientSpec: what the client sends the
      server takes.
    - Receive: DoReceive, DoPacket and the dispatch to the handlers of all the files
      above. ReceiveSpec: what one end seals the other receives.
    - Terminal: the client's terminal (CreateMode, SendChannelTerminalRequest).
    - Handshake: wolfSSH_accept and wolfSSH_connect as switches that fall through their
      cases, and wolfSSH_worker, wolfSSH_stream_read, wolfSSH_shutdown (ssh.c). AuthSafe:
      who gets past wolfSSH_accept.
    - SftpPath: the paths of an SFTP session (wolfSSH_RealPath, GetAndCleanPath, the calls
      that set its root and its directory).

    ** What is shown

    - Authentication: when the server's handshake succeeds, the peer has been let in
      under the user name it gave, by a verdict on one of its messages (accept_lets_in):
      every handler the filter admits leaves the authentication alone but those of its
      own messages. A client is authenticated only by a message whose verdict lets it
      in under the session's user name (authenticated_by_verdict); over a whole run
      failures are bounded and the name fixed (auth_run_safe); a password's verdicts are
      carried out (DoUserAuthRequestPassword_spec); a signature covers RFC 4252's bytes
      (signature_covers_request); certificates parse and print back
      (OsshCertParse_spec), unknown critical options are refused
      (OsshCertCheckOptions_spec). A chain of X.509 certificates is accepted only below
      a root, whatever chains came before (ParseCertChainVerify_sound). Composite
      signatures need both halves (VerifyMlDsaComposite_iff) and those made verify
      (composite_sign_verify). What the client's public key request signs is what the
      server checks, and is accepted (client_request_accepted); prompts nobody asked for
      are refused (unasked_prompts_refused); the agent's signature is the one asked for
      and fits its room (AGENT_SignRequest_spec). Key files are read as they were
      written (GetOpenSshKey_spec).
    - Key exchange: the two ends of an exchange agree on every algorithm
      (kexinit_agree) and then on every key, RFC 4253's (both_ends_same_keys,
      GenerateKey_spec). The client derives keys only after it verified the host key's
      signature of everything exchanged (DoKexDhReply_verified), what it verifies is
      what the server signed (both_ends_agree, SendKexDhReply_signs), a group is used
      only if it is safe (DoKexDhGexGroup_checked), and K never outlives the exchange
      (secret_wiped); strict key exchange and the order of
      messages (strict_kex_allow_list, expected_message_only, no_connection_before_auth).
    - Transport: a sent payload is in the output as one well-formed sealed packet
      (send_payload_spec), flushing writes the stream in order under any partial sends
      (SendPacketFlush_spec), AEAD nonces do not repeat (aead_nonces_distinct), MACs
      are checked (VerifyMac_spec). A sealed packet is received whole, in whatever pieces
      it comes, and handed to the filter and the handlers (packet_received). Input takes a fixed amount of the stream, in any
      pieces the network gives (GetInputData_spec); a version line is taken and judged
      as RFC 4253 has it (DoProtoId_spec).
    - Connection: no message of a peer gives undefined behaviour
      (connection_messages_safe); windows, marks and the order of data are kept
      (SendChannelData_spec, ChannelCreditWindow_spec, DoChannelData_spec, reads_spec), and
      reading opens the window again (read_reopens_window).
    - SFTP: a path is resolved to what its names spell (wolfSSH_RealPath_spec), and a path
      that comes out of a request is inside the root of the session, with no link on the
      way (GetAndCleanPath_confined).

    ** Bounds and fuel

    [io_fuel] bounds the calls of the send and receive callbacks in one flush or one
    receive, the messages one step of a handshake waits for, and the turns of
    [wolfSSH_accept]; running out is [UB], and the theorems that exclude [UB] ask for as
    much fuel as bytes pending and retries (Transport, Input, ReceiveSpec).
    accept_lets_in holds whatever the fuel: it is about the calls that succeed, and a
    peer that never authenticates can keep the source waiting for ever. The other loops
    are bounded by the length of what they read.

    ** The build that is modelled

    The features of the protocol core on (certificates, OpenSSH certificates, keyboard
    interactive, forwarding, agent, terminal, ML-DSA and ML-KEM), SCP and SFTP off, so
    that [wolfSSH_accept] is not diverted into them (SftpPath stands by itself: it is built
    with SFTP, on a POSIX system with symbolic links), SHA-1
    compiled but disabled by default, no "none" authentication, no "none" cipher, not
    Windows, Nucleus or MQX, no TPM, no FIPS KDF, no small-stack option.

    ** Liberties

    Logging is left out. Arguments that the source checks against NULL are objects,
    but where NULL has a meaning. Handlers read their payload from index 0 and their
    final index is left out. Reads return copies of the bytes. The cipher structs are
    bytes, empty when cleared. Uninitialised memory reads as zeros. The C int of
    BuildNameList is unbounded. The hash ids of SHA-2 are taken as known to
    wc_HashGetOID. A hash that fails to finish leaves the session's H as it was. [credit_all] walks the channels listed at its start.

    ** Not modelled

    SCP, and SFTP but for its paths: messages around calls on files, whose meaning is the
    file system's.
    Key generation (calls of wolfCrypt), keys in a Windows certificate store or a TPM,
    sockets, logging, the escape sequences of a Windows console, releasing a session's
    memory, the applications' processes and the examples (system calls). *)
