(* ===== verification/Prelude.v ===== *)
(** Shared foundations: C integers and byte arrays, the outcome type and the
    state monad the C functions are translated into, record update, and the
    generic lemmas and tactics the components use. *)

From Stdlib Require Export ZArith Lia String Ascii.
From stdpp Require Export base list gmap option.

#[global] Open Scope Z_scope.
#[global] Open Scope stdpp_scope.

(** ** C integers *)

(** [word32] arithmetic is arithmetic modulo 2^32 on [Z]. *)
Definition wrap32 (z : Z) : Z := z mod 2 ^ 32.

(** [byte] arithmetic is arithmetic modulo 2^8 on [Z]. *)
Definition wrap8 (z : Z) : Z := z mod 2 ^ 8.

Definition UINT32_MAX : Z := 2 ^ 32 - 1.

Declare Scope word_scope.
Delimit Scope word_scope with word.
Notation "a +w b" := (wrap32 (a + b)) (at level 50, left associativity).
Notation "a -w b" := (wrap32 (a - b)) (at level 50, left associativity).

(** [z] is the value of a [word32] / a [byte] object. *)
Definition is_word32 (z : Z) : Prop := 0 <= z < 2 ^ 32.
Definition is_byte (z : Z) : Prop := 0 <= z < 2 ^ 8.

Lemma wrap32_small z : 0 <= z < 2 ^ 32 -> wrap32 z = z.
Proof. apply Z.mod_small. Qed.

Lemma wrap32_range z : 0 <= wrap32 z < 2 ^ 32.
Proof. apply Z.mod_pos_bound. lia. Qed.

Lemma wrap8_small z : 0 <= z < 2 ^ 8 -> wrap8 z = z.
Proof. apply Z.mod_small. Qed.

Lemma wrap8_range z : 0 <= wrap8 z < 2 ^ 8.
Proof. apply Z.mod_pos_bound. lia. Qed.

(** The C truth value of an [int]. *)
Definition truthy (z : Z) : bool := negb (z =? 0).
Definition b2z (b : bool) : Z := if b then 1 else 0.

(** ** Byte arrays *)

Abbreviation bytes := (list Z).

Definition str (s : string) : bytes :=
  map (fun c => Z.of_N (N_of_ascii c)) (list_ascii_of_string s).

(** Length of an array as a C size. *)
Definition blen {A} (l : list A) : Z := Z.of_nat (length l).

(** [slice b i n]: the [n] bytes from index [i]. *)
Definition slice (b : bytes) (i n : Z) : bytes :=
  take (Z.to_nat n) (drop (Z.to_nat i) b).

(** [b[i]], undefined outside the array. *)
Definition rd (b : bytes) (i : Z) : option Z :=
  if i <? 0 then None else b !! Z.to_nat i.

(** [memcpy (b + i, d, length d)], undefined when it leaves the array. *)
Definition wr (b : bytes) (i : Z) (d : bytes) : option bytes :=
  if (0 <=? i) && (i + blen d <=? blen b)
  then Some (take (Z.to_nat i) b ++ d ++ drop (Z.to_nat i + length d) b)
  else None.

Definition zeros (n : Z) : bytes := replicate (Z.to_nat n) 0.

(** The C string held in a NUL terminated array: what [strlen] and [strcmp]
    see of it. *)
Fixpoint cstr (b : bytes) : bytes :=
  match b with
  | [] => []
  | c :: r => if c =? 0 then [] else c :: cstr r
  end.

(** [memcmp(a, b, n) == 0] on arrays of [n] bytes, and [strcmp == 0] on C
    strings. *)
Fixpoint bytes_eqb (a b : bytes) : bool :=
  match a, b with
  | [], [] => true
  | x :: a', y :: b' => (x =? y) && bytes_eqb a' b'
  | _, _ => false
  end.

Definition strcmp_eq (a b : bytes) : bool := bytes_eqb (cstr a) (cstr b).

Lemma bytes_eqb_spec a b : bytes_eqb a b = true <-> a = b.
Proof.
  revert b; induction a as [|x a IH]; destruct b as [|y b]; cbn; try (split; congruence).
  rewrite andb_true_iff, Z.eqb_eq, IH. split; [intros [-> ->]|intros [= -> ->]]; auto.
Qed.

Lemma bytes_eqb_refl a : bytes_eqb a a = true.
Proof. by apply bytes_eqb_spec. Qed.

Lemma bytes_eqb_sym a b : bytes_eqb a b = bytes_eqb b a.
Proof.
  apply eq_true_iff_eq. rewrite !bytes_eqb_spec. split; congruence.
Qed.

Lemma blen_nonneg {A} (l : list A) : 0 <= blen l.
Proof. unfold blen. lia. Qed.

Lemma blen_app {A} (a b : list A) : blen (a ++ b) = blen a + blen b.
Proof. unfold blen. rewrite length_app. lia. Qed.

Lemma blen_cons {A} (x : A) l : blen (x :: l) = 1 + blen l.
Proof. unfold blen. cbn. lia. Qed.

Lemma blen_nil {A} : blen (@nil A) = 0.
Proof. reflexivity. Qed.

Lemma blen_slice b i n :
  0 <= i -> 0 <= n -> i + n <= blen b -> blen (slice b i n) = n.
Proof. unfold blen, slice. rewrite length_take, length_drop. lia. Qed.

Lemma blen_zeros n : 0 <= n -> blen (zeros n) = n.
Proof. unfold blen, zeros. rewrite length_replicate. lia. Qed.

Lemma blen_wr b i d b' : wr b i d = Some b' -> blen b' = blen b.
Proof.
  unfold wr. destruct (_ && _) eqn:E; [|done]. intros [= <-].
  apply andb_true_iff in E as [E1%Z.leb_le E2%Z.leb_le].
  revert E2. unfold blen. rewrite !length_app, length_take, length_drop. lia.
Qed.

Lemma wr_some b i d : 0 <= i -> i + blen d <= blen b -> is_Some (wr b i d).
Proof.
  intros. unfold wr. rewrite (proj2 (Z.leb_le 0 i)), (proj2 (Z.leb_le _ _)) by lia. eauto.
Qed.

Lemma rd_some b i : 0 <= i < blen b -> is_Some (rd b i).
Proof.
  unfold rd, blen. intros. destruct (Z.ltb_spec i 0); [lia|].
  apply lookup_lt_is_Some. lia.
Qed.

Lemma rd_none b i : 0 <= i -> rd b i = None -> blen b <= i.
Proof.
  unfold rd, blen. destruct (Z.ltb_spec i 0); [lia|].
  intros ? Hn%lookup_ge_None. lia.
Qed.

Lemma slice_zero b i : slice b i 0 = [].
Proof. done. Qed.

Lemma slice_full b : slice b 0 (blen b) = b.
Proof. unfold slice, blen. rewrite Nat2Z.id. cbn. by rewrite drop_0, take_ge. Qed.

Lemma slice_app_here p s r : slice (p ++ s ++ r) (blen p) (blen s) = s.
Proof.
  unfold slice, blen. rewrite !Nat2Z.id, drop_app_length, take_app_length. done.
Qed.

(** Writing over the middle of a concatenation. *)
Lemma wr_app a x c d :
  length d = length x -> wr (a ++ x ++ c) (blen a) d = Some (a ++ d ++ c).
Proof.
  intros Hl. unfold wr. rewrite !blen_app.
  pose proof (blen_nonneg a). pose proof (blen_nonneg c).
  assert (blen d = blen x) as -> by (unfold blen; congruence).
  rewrite (proj2 (Z.leb_le 0 _)), (proj2 (Z.leb_le _ _)) by lia. cbn [andb].
  unfold blen. rewrite Nat2Z.id, take_app_length. do 2 f_equal.
  rewrite drop_app_ge by lia. replace (length a + length d - length a)%nat with (length d) by lia.
  rewrite Hl, drop_app_length. done.
Qed.

Lemma length_blen {A B} (a : list A) (b : list B) : length a = length b <-> blen a = blen b.
Proof. unfold blen. lia. Qed.

(** Splitting an array at an index. *)
Lemma slice_split b i : 0 <= i <= blen b -> b = slice b 0 i ++ drop (Z.to_nat i) b.
Proof. intros. unfold slice. rewrite drop_0. by rewrite take_drop. Qed.

(** A read inside the first component of a concatenation, or past it. *)
Lemma rd_app_l p s i : i < blen p -> rd (p ++ s) i = rd p i.
Proof.
  unfold rd, blen. intros. destruct (Z.ltb_spec i 0); [done|].
  apply lookup_app_l. lia.
Qed.

Lemma rd_app_r p s i : 0 <= i -> rd (p ++ s) (blen p + i) = rd s i.
Proof.
  unfold rd, blen. intros.
  destruct (Z.ltb_spec i 0), (Z.ltb_spec (Z.of_nat (length p) + i) 0); try lia.
  rewrite lookup_app_r by lia. f_equal. lia.
Qed.

Lemma cstr_no_nul b : Forall (fun c => c <> 0) (cstr b).
Proof.
  induction b as [|c b IH]; cbn; [constructor|].
  destruct (Z.eqb_spec c 0); constructor; auto.
Qed.

Lemma cstr_id b : Forall (fun c => c <> 0) b -> cstr b = b.
Proof.
  induction 1 as [|c b H _ IH]; [done|]. cbn. destruct (Z.eqb_spec c 0); [done|]. by rewrite IH.
Qed.

Lemma cstr_idemp b : cstr (cstr b) = cstr b.
Proof. apply cstr_id, cstr_no_nul. Qed.

Create Rewrite HintDb blen.
#[export] Hint Rewrite @blen_app @blen_cons @blen_nil : blen.

(** Unlinking the first occurrence of an element. *)
Fixpoint remove_first {A} `{EqDecision A} (x : A) (l : list A) : list A :=
  match l with
  | [] => []
  | y :: r => if decide (y = x) then r else y :: remove_first x r
  end.

Section RemoveFirst.
Context {A : Type} `{EqDecision A}.
Implicit Types (x y : A) (l : list A).

Lemma remove_first_sub x y l : y ∈ remove_first x l -> y ∈ l.
Proof.
  induction l as [|z l IH]; cbn; [done|]. case_decide; rewrite !elem_of_cons; [auto|].
  intros [?|?]; auto.
Qed.

Lemma elem_of_remove_first x y l : NoDup l -> y ∈ remove_first x l <-> y ∈ l /\ y <> x.
Proof.
  induction 1 as [|z l Hz _ IH]; cbn; [rewrite elem_of_nil; tauto|].
  case_decide as E; rewrite !elem_of_cons, ?IH; subst.
  2: { split; [intros [->|[? ?]]; split; auto|intros [[->|?] ?]; auto]. }
  split; [intros Hy; split; [by right|by intros ->]|by intros [[?|?] ?]].
Qed.

Lemma NoDup_remove_first x l : NoDup l -> NoDup (remove_first x l).
Proof.
  induction 1 as [|z l Hz Hl IH]; cbn; [constructor|]. case_decide; [done|].
  constructor; [|done]. by intros ?%remove_first_sub.
Qed.

Lemma length_remove_first x l : x ∈ l -> S (length (remove_first x l)) = length l.
Proof.
  induction l as [|z l IH]; [by intros ?%elem_of_nil|]. cbn. case_decide as E; [done|].
  rewrite elem_of_cons. intros [?|Hx]; [congruence|]. cbn. by rewrite IH.
Qed.

Lemma remove_first_app x l1 l2 : x ∉ l1 -> remove_first x (l1 ++ l2) = l1 ++ remove_first x l2.
Proof.
  induction l1 as [|z l1 IH]; [done|]. rewrite elem_of_cons. intros Hx. cbn.
  rewrite decide_False by (intros ->; tauto). rewrite IH; tauto.
Qed.
End RemoveFirst.

(** Arithmetic with division and remainder by constants. *)
Ltac zdiv := Z.to_euclidean_division_equations; lia.

(** ** Outcomes and the state monad *)

(** What a C function that reports errors by its return code does: it
    succeeds with its outputs, returns a code other than [WS_SUCCESS], or has
    undefined behaviour (an access outside an object or to a freed one). *)
Inductive res (A : Type) : Type :=
| Ok (a : A)
| Err (e : Z)
| UB.
Arguments Ok {A} _.
Arguments Err {A} _.
Arguments UB {A}.

(** Computations over a state [S]: the state survives an error return, as
    every assignment made before it does in C. *)
Definition ST (S A : Type) : Type := S -> res A * S.

#[export] Instance ST_ret S : MRet (ST S) := fun A a s => (Ok a, s).
#[export] Instance ST_bind S : MBind (ST S) := fun A B k m s =>
  match m s with
  | (Ok a, s') => k a s'
  | (Err e, s') => (Err e, s')
  | (UB, s') => (UB, s')
  end.

Definition get {S} : ST S S := fun s => (Ok s, s).
Definition gets {S A} (f : S -> A) : ST S A := fun s => (Ok (f s), s).
Definition modify {S} (f : S -> S) : ST S unit := fun s => (Ok tt, f s).
Definition fail {S A} (e : Z) : ST S A := fun s => (Err e, s).
Definition ub {S A} : ST S A := fun s => (UB, s).
Definition when {S} (c : bool) (m : ST S unit) : ST S unit :=
  if c then m else mret tt.

(** [if (c) ret = e;] followed by the rest of a [ret == WS_SUCCESS] chain. *)
Definition guard_err {S} (c : bool) (e : Z) : ST S unit :=
  if c then fail e else mret tt.

(** An access that is undefined behaviour when there is no object. *)
Definition deref {S A} (o : option A) : ST S A :=
  match o with Some a => mret a | None => ub end.

(** The return code of a computation as an [int], [0] being [WS_SUCCESS]. *)
Definition code {S A} (m : ST S A) : ST S Z := fun s =>
  match m s with
  | (Ok _, s') => (Ok 0, s')
  | (Err e, s') => (Ok e, s')
  | (UB, s') => (UB, s')
  end.

(** The outcome of a pure function as a statement. *)
Definition lift_res {S A} (r : res A) : ST S A := fun s => (r, s).

(** Return an [int] code from a computation whose code is the result. *)
Definition ret_code {S} (c : Z) : ST S unit := if c =? 0 then mret tt else fail c.

(** A computation whose failures are codes other than 0: C's [ret] tells them
    from success. *)
Definition fails_nonzero {S A} (m : ST S A) : Prop := forall s s', m s <> (Err 0, s').

Lemma ST_bind_ok {S A B} (m : ST S A) (k : A -> ST S B) s a s' :
  m s = (Ok a, s') -> (m ≫= k) s = k a s'.
Proof. unfold mbind, ST_bind. by intros ->. Qed.

Lemma code_ok {S A} (m : ST S A) s a s' : m s = (Ok a, s') -> code m s = (Ok 0, s').
Proof. unfold code. by intros ->. Qed.

Lemma code_err {S A} (m : ST S A) s e s' : m s = (Err e, s') -> code m s = (Ok e, s').
Proof. unfold code. by intros ->. Qed.

Lemma ST_bind_err {S A B} (m : ST S A) (k : A -> ST S B) s e s' :
  m s = (Err e, s') -> (m ≫= k) s = (Err e, s').
Proof. unfold mbind, ST_bind. by intros ->. Qed.

Lemma ST_bind_inv {S A B} (m : ST S A) (k : A -> ST S B) s b s' :
  (m ≫= k) s = (Ok b, s') -> exists a s1, m s = (Ok a, s1) /\ k a s1 = (Ok b, s').
Proof. unfold mbind, ST_bind. destruct (m s) as [[] ?]; naive_solver. Qed.

(** [for] over the nodes of a list, and the search for the first node with a
    property. *)
Fixpoint for_each {S A} (l : list A) (f : A -> ST S unit) : ST S unit :=
  match l with
  | [] => mret tt
  | x :: r => f x;; for_each r f
  end.

Fixpoint find_first {S A} (l : list A) (p : A -> ST S bool) : ST S (option A) :=
  match l with
  | [] => mret None
  | x :: r => b ← p x; if (b : bool) then mret (Some x) else find_first r p
  end.

Fixpoint find_last {S A} (l : list A) (p : A -> ST S bool) (last : option A) : ST S (option A) :=
  match l with
  | [] => mret last
  | x :: r => b ← p x; find_last r p (if (b : bool) then Some x else last)
  end.

(** The search with a test that only reads the state. *)
Lemma find_first_pure {S A} (l : list A) (p : A -> ST S bool) (f : A -> bool) s :
  (forall x, x ∈ l -> p x s = (Ok (f x), s)) -> find_first l p s = (Ok (List.find f l), s).
Proof.
  induction l as [|x l IH]; intros Hp; [done|]. cbn.
  erewrite ST_bind_ok by (apply Hp; left). destruct (f x); [done|].
  apply IH. intros y Hy. apply Hp. by right.
Qed.

Lemma for_each_inv {S A} (P : S -> Prop) (l : list A) (f : A -> ST S unit) s :
  P s -> (forall x s, x ∈ l -> P s -> exists s', f x s = (Ok tt, s') /\ P s') ->
  exists s', for_each l f s = (Ok tt, s') /\ P s'.
Proof.
  revert s. induction l as [|x l IH]; intros s Hs Hf; [by exists s|]. cbn.
  destruct (Hf x s ltac:(left) Hs) as (s1&E&H1). erewrite ST_bind_ok by exact E.
  apply IH; [done|]. intros y t Hy. apply Hf. by right.
Qed.

(** Running a computation one statement at a time. *)
Section StRules.
Context {S A B : Type}.
Implicit Types (s : S) (c : bool).

Lemma st_get (k : S -> ST S B) s : (get ≫= k) s = k s s.
Proof. done. Qed.
Lemma st_gets (f : S -> A) (k : A -> ST S B) s : (gets f ≫= k) s = k (f s) s.
Proof. done. Qed.
Lemma st_modify (f : S -> S) (k : unit -> ST S B) s : (modify f ≫= k) s = k tt (f s).
Proof. done. Qed.
Lemma st_ret (a : A) (k : A -> ST S B) s : ((mret a : ST S A) ≫= k) s = k a s.
Proof. done. Qed.
Lemma st_fail e (k : A -> ST S B) s : (fail e ≫= k) s = (Err e, s).
Proof. done. Qed.
Lemma st_ub (k : A -> ST S B) s : (ub ≫= k) s = (UB, s).
Proof. done. Qed.
Lemma st_guard c e (k : unit -> ST S B) s :
  (guard_err c e ≫= k) s = if c then (Err e, s) else k tt s.
Proof. by destruct c. Qed.
Lemma st_when c (m : ST S unit) (k : unit -> ST S B) s :
  (when c m ≫= k) s = if c then (m ≫= k) s else k tt s.
Proof. by destruct c. Qed.
Lemma st_if c (m n : ST S A) (k : A -> ST S B) s :
  ((if c then m else n) ≫= k) s = if c then (m ≫= k) s else (n ≫= k) s.
Proof. by destruct c. Qed.
Lemma st_branch c (m n : ST S A) s : (if c then m else n) s = if c then m s else n s.
Proof. by destruct c. Qed.
Lemma st_deref a (k : A -> ST S B) s : (deref (Some a) ≫= k) s = k a s.
Proof. done. Qed.
Lemma st_lift_ok (a : A) (k : A -> ST S B) s : (lift_res (Ok a) ≫= k) s = k a s.
Proof. done. Qed.
Lemma st_lift_err e (k : A -> ST S B) s : (lift_res (Err e) ≫= k) s = (Err e, s).
Proof. done. Qed.
Lemma st_lift_end (r : res A) s : (lift_res r : ST S A) s = (r, s).
Proof. done. Qed.
Lemma st_ret_end (a : A) s : (mret a : ST S A) s = (Ok a, s).
Proof. done. Qed.
Lemma st_fail_end e s : (fail e : ST S A) s = (Err e, s).
Proof. done. Qed.
Lemma st_modify_end (f : S -> S) s : modify f s = (Ok tt, f s).
Proof. done. Qed.
Lemma st_assoc {C} (m : ST S A) (k : A -> ST S B) (h : B -> ST S C) s :
  ((m ≫= k) ≫= h) s = (m ≫= fun a => k a ≫= h) s.
Proof. unfold mbind, ST_bind. by destruct (m s) as [[] ?]. Qed.
End StRules.

Create Rewrite HintDb st.
#[export] Hint Rewrite @st_get @st_gets @st_modify @st_ret @st_fail @st_ub @st_guard @st_when
  @st_if @st_branch @st_deref @st_assoc @st_lift_ok @st_lift_err @st_lift_end @st_ret_end @st_fail_end @st_modify_end : st.

Ltac run := autorewrite with st; cbv beta.

(** *** Failures are not 0 *)

Lemma nz_bind {S A B}  (m : ST S A) (k : A -> ST S B) :
  fails_nonzero m -> (forall a, fails_nonzero (k a)) -> fails_nonzero (m ≫= k).
Proof.
  intros Hm Hk s s'. unfold mbind, ST_bind. pose proof (Hm s) as Hs.
  destruct (m s) as [[a|e|] s1]; [apply Hk| |done]. intros [= -> ->]. by apply (Hs s').
Qed.
Lemma nz_get {S A} (k : S -> ST S A) : (forall s, fails_nonzero (k s)) -> fails_nonzero (get ≫= k).
Proof. intros Hk s s'. exact (Hk s s s'). Qed.
Lemma nz_ret {S A} (a : A) : fails_nonzero (mret a : ST S A).
Proof. done. Qed.
Lemma nz_modify {S} (f : S -> S) : fails_nonzero (modify f).
Proof. done. Qed.
Lemma nz_fail {S A} e : e <> 0 -> fails_nonzero (fail e : ST S A).
Proof. intros He s s' [= ]. done. Qed.
Lemma nz_ub {S A} : fails_nonzero (ub : ST S A).
Proof. done. Qed.
Lemma nz_guard {S} c e : e <> 0 -> fails_nonzero (guard_err c e : ST S unit).
Proof. intros He. destruct c; [by apply nz_fail|done]. Qed.
Lemma nz_deref {S A} (o : option A) : fails_nonzero (deref o : ST S A).
Proof. by destruct o. Qed.
Lemma nz_lift {S A} (r : res A) : r <> Err 0 -> fails_nonzero (lift_res r : ST S A).
Proof. intros Hr s s' [= ?]. done. Qed.
Lemma nz_if {S A} (c : bool) (m m' : ST S A) :
  fails_nonzero m -> fails_nonzero m' -> fails_nonzero (if c then m else m').
Proof. by destruct c. Qed.
Lemma nz_code {S A} (m : ST S A) : fails_nonzero (code m).
Proof. intros s s'. unfold code. by destruct (m s) as [[] ?]. Qed.
Lemma nz_ret_code {S} c : fails_nonzero (ret_code c : ST S unit).
Proof. unfold ret_code. destruct (Z.eqb_spec c 0); [done|by apply nz_fail]. Qed.

Create HintDb nonzero.
#[export] Hint Resolve nz_bind nz_get nz_ret nz_modify nz_ub nz_deref nz_if nz_code nz_ret_code : nonzero.
#[export] Hint Extern 2 (fails_nonzero (fail _)) => apply nz_fail; discriminate : nonzero.
#[export] Hint Extern 2 (fails_nonzero (guard_err _ _)) => apply nz_guard; discriminate : nonzero.

(** ** Weakest preconditions *)

(** [wp m Q s]: from [s], [m] has no undefined behaviour, and [Q] holds of its
    value or its error code, and of the state it leaves. *)
Definition wp {S A} (m : ST S A) (Q : A + Z -> S -> Prop) (s : S) : Prop :=
  match m s with
  | (Ok a, s') => Q (inl a) s'
  | (Err e, s') => Q (inr e) s'
  | (UB, _) => False
  end.

Section Wp.
Context {S : Type}.
Lemma wp_mono {A} (m : ST S A) (Q Q' : A + Z -> S -> Prop) s :
  wp m Q s -> (forall r s', Q r s' -> Q' r s') -> wp m Q' s.
Proof. unfold wp. intros Hm HQ. destruct (m s) as [[a|e|] s']; auto. Qed.
Lemma wp_bind {A B} (m : ST S A) (k : A -> ST S B) Q s :
  wp m (fun r s' => match r with inl a => wp (k a) Q s' | inr e => Q (inr e) s' end) s ->
  wp (m ≫= k) Q s.
Proof. unfold wp, mbind, ST_bind. by destruct (m s) as [[a|e|] s']. Qed.
Lemma wp_ret {A} (a : A) Q s : Q (inl a) s -> wp (mret a : ST S A) Q s.
Proof. done. Qed.
Lemma wp_fail {A} e Q s : Q (inr e) s -> wp (fail e : ST S A) Q s.
Proof. done. Qed.
Lemma wp_get Q (s : S) : Q (inl s) s -> wp get Q s.
Proof. done. Qed.
Lemma wp_modify (f : S -> S) Q s : Q (inl tt) (f s) -> wp (modify f) Q s.
Proof. done. Qed.
Lemma wp_guard c e Q (s : S) :
  (c = true -> Q (inr e) s) -> (c = false -> Q (inl tt) s) -> wp (guard_err c e) Q s.
Proof. destruct c; intros Ht Hf; [by apply Ht|by apply Hf]. Qed.
Lemma wp_if {A} (c : bool) (m m' : ST S A) Q s :
  (c = true -> wp m Q s) -> (c = false -> wp m' Q s) -> wp (if c then m else m') Q s.
Proof. destruct c; auto. Qed.
Lemma wp_when (c : bool) (m : ST S unit) Q s :
  (c = true -> wp m Q s) -> (c = false -> Q (inl tt) s) -> wp (when c m) Q s.
Proof. destruct c; intros Ht Hf; [by apply Ht|by apply Hf]. Qed.
Lemma wp_code {A} (m : ST S A) Q s :
  wp m (fun r s' => Q (inl (match r with inl _ => 0 | inr e => e end)) s') s -> wp (code m) Q s.
Proof. unfold wp, code. by destruct (m s) as [[a|e|] s']. Qed.
Lemma wp_ret_code c Q (s : S) :
  (c = 0 -> Q (inl tt) s) -> (c <> 0 -> Q (inr c) s) -> wp (ret_code c) Q s.
Proof. unfold ret_code. intros H0 H1. destruct (Z.eqb_spec c 0); [by apply H0|by apply H1]. Qed.
Lemma wp_deref {A} (o : option A) a Q (s : S) : o = Some a -> Q (inl a) s -> wp (deref o) Q s.
Proof. by intros ->. Qed.
Lemma wp_run {A} (m : ST S A) Q s r s' :
  m s = (r, s') -> match r with Ok a => Q (inl a) s' | Err e => Q (inr e) s' | UB => False end -> wp m Q s.
Proof. unfold wp. by intros ->. Qed.
End Wp.

(** One step on the head of the program. *)
Ltac wp_step :=
  lazymatch goal with
  | |- wp (_ ≫= _) _ _ => apply wp_bind
  | |- wp (mret _) _ _ => apply wp_ret
  | |- wp (fail _) _ _ => apply wp_fail
  | |- wp get _ _ => apply wp_get
  | |- wp (modify _) _ _ => apply wp_modify
  | |- wp (guard_err _ _) _ _ => apply wp_guard; intros ?
  | |- wp (if _ then _ else _) _ _ => apply wp_if; intros ?
  | |- wp (when _ _) _ _ => apply wp_when; intros ?
  | |- wp (code _) _ _ => apply wp_code
  | |- wp (ret_code _) _ _ => apply wp_ret_code; intros ?
  end; cbv beta iota.

(** ** Reading *)

(** [m] returns from [s] and changes nothing. *)
Definition reads {S A} (m : ST S A) (s : S) : Prop := exists a, m s = (Ok a, s).

Section Reads.
Context {S : Type}.
Lemma reads_ret {A} (a : A) (s : S) : reads (mret a) s.
Proof. by exists a. Qed.
Lemma reads_bind {A B} (m : ST S A) (k : A -> ST S B) s :
  reads m s -> (forall a, m s = (Ok a, s) -> reads (k a) s) -> reads (m ≫= k) s.
Proof.
  intros [a E] Hk. destruct (Hk a E) as [b Eb]. exists b. by erewrite ST_bind_ok by exact E.
Qed.
Lemma reads_get {B} (k : S -> ST S B) s : reads (k s) s -> reads (get ≫= k) s.
Proof. intros [b E]. by exists b. Qed.
Lemma reads_if {A} (c : bool) (m m' : ST S A) s :
  (c = true -> reads m s) -> (c = false -> reads m' s) -> reads (if c then m else m') s.
Proof. destruct c; auto. Qed.
Lemma reads_find_first {A} (l : list A) (p : A -> ST S bool) s :
  (forall x, x ∈ l -> reads (p x) s) -> reads (find_first l p) s.
Proof.
  induction l as [|x l IH]; intros Hp; [apply reads_ret|]. cbn.
  apply reads_bind; [apply Hp; set_solver|]. intros [] _; [apply reads_ret|]. apply IH. set_solver.
Qed.
Lemma reads_find_last {A} (l : list A) (p : A -> ST S bool) o s :
  (forall x, x ∈ l -> reads (p x) s) -> reads (find_last l p o) s.
Proof.
  revert o. induction l as [|x l IH]; intros o Hp; [apply reads_ret|]. cbn.
  apply reads_bind; [apply Hp; set_solver|]. intros b _. apply IH. set_solver.
Qed.
(** What [find_first] and [find_last] return is of the list. *)
Lemma find_first_in {A} (l : list A) (p : A -> ST S bool) s x s' :
  find_first l p s = (Ok (Some x), s') -> x ∈ l.
Proof.
  revert s. induction l as [|y l IH]; intros s; [done|]. cbn. unfold mbind, ST_bind.
  destruct (p y s) as [[[]|e|] s1]; [| |done..].
  - intros [= -> ->]. set_solver.
  - intros E. apply IH in E. set_solver.
Qed.
End Reads.

(** ** Record update *)

(** [eta] rebuilds a record from its fields; each record type declares it
    once. The update of one field is found from it by abstracting the
    projection, so that no setter is written by hand. *)
Class Eta (R : Type) := eta : R -> R.

Class FieldSet {R A : Type} (proj : R -> A) := field_set : (A -> A) -> R -> R.

Ltac derive_field_set :=
  match goal with
  | |- @FieldSet ?R ?A ?proj =>
    let h := constr:(_ : Eta R) in
    let e := eval hnf in h in
    let f := fresh "f" in
    let r := fresh "r" in
    red; intros f r;
    let b := eval cbv beta in (e r) in
    let b := eval pattern (proj r) in b in
    match b with
    | ?g _ => let t := eval cbv beta in (g (f (proj r))) in exact t
    end
  end.

#[export] Hint Extern 1 (FieldSet _) => derive_field_set : typeclass_instances.

Notation "r <| p := v |>" := (field_set (proj := p) (fun _ => v) r)
  (at level 1, left associativity, p at level 9).
Notation "r <| p ::= f |>" := (field_set (proj := p) f r)
  (at level 1, left associativity, p at level 9).
Notation "r <| p ; q := v |>" :=
  (field_set (proj := p) (field_set (proj := q) (fun _ => v)) r)
  (at level 1, left associativity, p at level 9, q at level 9).
Notation "r <| p ; q ::= f |>" :=
  (field_set (proj := p) (field_set (proj := q) f) r)
  (at level 1, left associativity, p at level 9, q at level 9).
