(* ===== verification/Codes.v ===== *)
(** The constants of the source: algorithm and name identifiers, message
    numbers, return codes, protocol states and sizes, under their source
    names.  The build modelled is described in the root file. *)

From S2P Require Import Prelude.

(** *** Algorithm and name identifiers (the first enum of internal.h) *)

Inductive AlgoId : Type :=
| ID_NONE
| ID_AES128_CBC
| ID_AES192_CBC
| ID_AES256_CBC
| ID_AES128_CTR
| ID_AES192_CTR
| ID_AES256_CTR
| ID_AES128_GCM
| ID_AES192_GCM
| ID_AES256_GCM
| ID_HMAC_SHA1
| ID_HMAC_SHA1_96
| ID_HMAC_SHA2_256
| ID_HMAC_SHA2_512
| ID_DH_GROUP1_SHA1
| ID_DH_GROUP14_SHA1
| ID_DH_GROUP14_SHA256
| ID_DH_GROUP16_SHA512
| ID_DH_GEX_SHA256
| ID_ECDH_SHA2_NISTP256
| ID_ECDH_SHA2_NISTP384
| ID_ECDH_SHA2_NISTP521
| ID_NISTP256_MLKEM768_SHA256
| ID_NISTP384_MLKEM1024_SHA384
| ID_CURVE25519_MLKEM768_SHA256
| ID_CURVE25519_SHA256
| ID_CURVE25519_SHA256_LIBSSH
| ID_EXT_INFO_S
| ID_EXT_INFO_C
| ID_EXT_STRICT_KEX_S
| ID_EXT_STRICT_KEX_C
| ID_EXT_PRE_STRICT_KEX_S
| ID_EXT_PRE_STRICT_KEX_C
| ID_SSH_RSA
| ID_RSA_SHA2_256
| ID_RSA_SHA2_512
| ID_ECDSA_SHA2_NISTP256
| ID_ECDSA_SHA2_NISTP384
| ID_ECDSA_SHA2_NISTP521
| ID_ED25519
| ID_MLDSA44
| ID_MLDSA65
| ID_MLDSA87
| ID_MLDSA44_ES256
| ID_MLDSA65_ES256
| ID_MLDSA87_ES384
| ID_MLDSA44_ED25519
| ID_MLDSA65_ED25519
| ID_MLDSA87_ED448
| ID_X509V3_SSH_RSA
| ID_X509V3_ECDSA_SHA2_NISTP256
| ID_X509V3_ECDSA_SHA2_NISTP384
| ID_X509V3_ECDSA_SHA2_NISTP521
| ID_X509V3_MLDSA44
| ID_X509V3_MLDSA65
| ID_X509V3_MLDSA87
| ID_OSSH_CERT_RSA
| ID_OSSH_CERT_ECDSA_SHA2_NISTP256
| ID_OSSH_CERT_ECDSA_SHA2_NISTP384
| ID_OSSH_CERT_ECDSA_SHA2_NISTP521
| ID_OSSH_CERT_ED25519
| ID_SERVICE_USERAUTH
| ID_SERVICE_CONNECTION
| ID_USERAUTH_PASSWORD
| ID_USERAUTH_PUBLICKEY
| ID_USERAUTH_KEYBOARD
| ID_CHANTYPE_SESSION
| ID_CHANTYPE_TCPIP_FORWARD
| ID_CHANTYPE_TCPIP_DIRECT
| ID_CHANTYPE_AUTH_AGENT
| ID_GLOBREQ_TCPIP_FWD
| ID_GLOBREQ_TCPIP_FWD_CANCEL
| ID_EXTINFO_SERVER_SIG_ALGS
| ID_CURVE_NISTP256
| ID_CURVE_NISTP384
| ID_CURVE_NISTP521
| ID_UNKNOWN.

(** The position of an identifier in the enum, its value as a [byte]. *)
Definition AlgoId_code (i : AlgoId) : Z :=
  match i with
  | ID_NONE => 0
  | ID_AES128_CBC => 1
  | ID_AES192_CBC => 2
  | ID_AES256_CBC => 3
  | ID_AES128_CTR => 4
  | ID_AES192_CTR => 5
  | ID_AES256_CTR => 6
  | ID_AES128_GCM => 7
  | ID_AES192_GCM => 8
  | ID_AES256_GCM => 9
  | ID_HMAC_SHA1 => 10
  | ID_HMAC_SHA1_96 => 11
  | ID_HMAC_SHA2_256 => 12
  | ID_HMAC_SHA2_512 => 13
  | ID_DH_GROUP1_SHA1 => 14
  | ID_DH_GROUP14_SHA1 => 15
  | ID_DH_GROUP14_SHA256 => 16
  | ID_DH_GROUP16_SHA512 => 17
  | ID_DH_GEX_SHA256 => 18
  | ID_ECDH_SHA2_NISTP256 => 19
  | ID_ECDH_SHA2_NISTP384 => 20
  | ID_ECDH_SHA2_NISTP521 => 21
  | ID_NISTP256_MLKEM768_SHA256 => 22
  | ID_NISTP384_MLKEM1024_SHA384 => 23
  | ID_CURVE25519_MLKEM768_SHA256 => 24
  | ID_CURVE25519_SHA256 => 25
  | ID_CURVE25519_SHA256_LIBSSH => 26
  | ID_EXT_INFO_S => 27
  | ID_EXT_INFO_C => 28
  | ID_EXT_STRICT_KEX_S => 29
  | ID_EXT_STRICT_KEX_C => 30
  | ID_EXT_PRE_STRICT_KEX_S => 31
  | ID_EXT_PRE_STRICT_KEX_C => 32
  | ID_SSH_RSA => 33
  | ID_RSA_SHA2_256 => 34
  | ID_RSA_SHA2_512 => 35
  | ID_ECDSA_SHA2_NISTP256 => 36
  | ID_ECDSA_SHA2_NISTP384 => 37
  | ID_ECDSA_SHA2_NISTP521 => 38
  | ID_ED25519 => 39
  | ID_MLDSA44 => 40
  | ID_MLDSA65 => 41
  | ID_MLDSA87 => 42
  | ID_MLDSA44_ES256 => 43
  | ID_MLDSA65_ES256 => 44
  | ID_MLDSA87_ES384 => 45
  | ID_MLDSA44_ED25519 => 46
  | ID_MLDSA65_ED25519 => 47
  | ID_MLDSA87_ED448 => 48
  | ID_X509V3_SSH_RSA => 49
  | ID_X509V3_ECDSA_SHA2_NISTP256 => 50
  | ID_X509V3_ECDSA_SHA2_NISTP384 => 51
  | ID_X509V3_ECDSA_SHA2_NISTP521 => 52
  | ID_X509V3_MLDSA44 => 53
  | ID_X509V3_MLDSA65 => 54
  | ID_X509V3_MLDSA87 => 55
  | ID_OSSH_CERT_RSA => 56
  | ID_OSSH_CERT_ECDSA_SHA2_NISTP256 => 57
  | ID_OSSH_CERT_ECDSA_SHA2_NISTP384 => 58
  | ID_OSSH_CERT_ECDSA_SHA2_NISTP521 => 59
  | ID_OSSH_CERT_ED25519 => 60
  | ID_SERVICE_USERAUTH => 61
  | ID_SERVICE_CONNECTION => 62
  | ID_USERAUTH_PASSWORD => 63
  | ID_USERAUTH_PUBLICKEY => 64
  | ID_USERAUTH_KEYBOARD => 65
  | ID_CHANTYPE_SESSION => 66
  | ID_CHANTYPE_TCPIP_FORWARD => 67
  | ID_CHANTYPE_TCPIP_DIRECT => 68
  | ID_CHANTYPE_AUTH_AGENT => 69
  | ID_GLOBREQ_TCPIP_FWD => 70
  | ID_GLOBREQ_TCPIP_FWD_CANCEL => 71
  | ID_EXTINFO_SERVER_SIG_ALGS => 72
  | ID_CURVE_NISTP256 => 73
  | ID_CURVE_NISTP384 => 74
  | ID_CURVE_NISTP521 => 75
  | ID_UNKNOWN => 76
  end.

Definition all_ids : list AlgoId :=
  [ID_NONE;
   ID_AES128_CBC;
   ID_AES192_CBC;
   ID_AES256_CBC;
   ID_AES128_CTR;
   ID_AES192_CTR;
   ID_AES256_CTR;
   ID_AES128_GCM;
   ID_AES192_GCM;
   ID_AES256_GCM;
   ID_HMAC_SHA1;
   ID_HMAC_SHA1_96;
   ID_HMAC_SHA2_256;
   ID_HMAC_SHA2_512;
   ID_DH_GROUP1_SHA1;
   ID_DH_GROUP14_SHA1;
   ID_DH_GROUP14_SHA256;
   ID_DH_GROUP16_SHA512;
   ID_DH_GEX_SHA256;
   ID_ECDH_SHA2_NISTP256;
   ID_ECDH_SHA2_NISTP384;
   ID_ECDH_SHA2_NISTP521;
   ID_NISTP256_MLKEM768_SHA256;
   ID_NISTP384_MLKEM1024_SHA384;
   ID_CURVE25519_MLKEM768_SHA256;
   ID_CURVE25519_SHA256;
   ID_CURVE25519_SHA256_LIBSSH;
   ID_EXT_INFO_S;
   ID_EXT_INFO_C;
   ID_EXT_STRICT_KEX_S;
   ID_EXT_STRICT_KEX_C;
   ID_EXT_PRE_STRICT_KEX_S;
   ID_EXT_PRE_STRICT_KEX_C;
   ID_SSH_RSA;
   ID_RSA_SHA2_256;
   ID_RSA_SHA2_512;
   ID_ECDSA_SHA2_NISTP256;
   ID_ECDSA_SHA2_NISTP384;
   ID_ECDSA_SHA2_NISTP521;
   ID_ED25519;
   ID_MLDSA44;
   ID_MLDSA65;
   ID_MLDSA87;
   ID_MLDSA44_ES256;
   ID_MLDSA65_ES256;
   ID_MLDSA87_ES384;
   ID_MLDSA44_ED25519;
   ID_MLDSA65_ED25519;
   ID_MLDSA87_ED448;
   ID_X509V3_SSH_RSA;
   ID_X509V3_ECDSA_SHA2_NISTP256;
   ID_X509V3_ECDSA_SHA2_NISTP384;
   ID_X509V3_ECDSA_SHA2_NISTP521;
   ID_X509V3_MLDSA44;
   ID_X509V3_MLDSA65;
   ID_X509V3_MLDSA87;
   ID_OSSH_CERT_RSA;
   ID_OSSH_CERT_ECDSA_SHA2_NISTP256;
   ID_OSSH_CERT_ECDSA_SHA2_NISTP384;
   ID_OSSH_CERT_ECDSA_SHA2_NISTP521;
   ID_OSSH_CERT_ED25519;
   ID_SERVICE_USERAUTH;
   ID_SERVICE_CONNECTION;
   ID_USERAUTH_PASSWORD;
   ID_USERAUTH_PUBLICKEY;
   ID_USERAUTH_KEYBOARD;
   ID_CHANTYPE_SESSION;
   ID_CHANTYPE_TCPIP_FORWARD;
   ID_CHANTYPE_TCPIP_DIRECT;
   ID_CHANTYPE_AUTH_AGENT;
   ID_GLOBREQ_TCPIP_FWD;
   ID_GLOBREQ_TCPIP_FWD_CANCEL;
   ID_EXTINFO_SERVER_SIG_ALGS;
   ID_CURVE_NISTP256;
   ID_CURVE_NISTP384;
   ID_CURVE_NISTP521;
   ID_UNKNOWN].

Lemma all_ids_code i : all_ids !! Z.to_nat (AlgoId_code i) = Some i.
Proof. by destruct i. Qed.

Lemma AlgoId_code_inj i j : AlgoId_code i = AlgoId_code j -> i = j.
Proof.
  intros H. pose proof (all_ids_code i) as Hi. rewrite H, all_ids_code in Hi. by simplify_eq.
Qed.

(** Comparison of identifiers, the [==] of the source. *)
Definition id_eqb (i j : AlgoId) : bool := AlgoId_code i =? AlgoId_code j.

Lemma id_eqb_spec i j : id_eqb i j = true <-> i = j.
Proof.
  unfold id_eqb. rewrite Z.eqb_eq. split; [apply AlgoId_code_inj|congruence].
Qed.

Lemma id_eqb_refl i : id_eqb i i = true.
Proof. by apply id_eqb_spec. Qed.

#[export] Instance AlgoId_eq_dec : EqDecision AlgoId.
Proof.
  intros i j. destruct (decide (AlgoId_code i = AlgoId_code j)) as [H|H].
  - left. by apply AlgoId_code_inj.
  - right. congruence.
Defined.

(** The categories of the name table. *)
Inductive NameIdType : Type := TYPE_KEX | TYPE_KEY | TYPE_CIPHER | TYPE_MAC | TYPE_OTHER.

#[export] Instance NameIdType_eq_dec : EqDecision NameIdType.
Proof. solve_decision. Defined.

(** *** ChannelOpenFailReasons *)
Definition OPEN_OK : Z := 0.
Definition OPEN_ADMINISTRATIVELY_PROHIBITED : Z := 1.
Definition OPEN_UNKNOWN_CHANNEL_TYPE : Z := 3.
Definition OPEN_RESOURCE_SHORTAGE : Z := 4.

(** *** Server progress *)
Definition ACCEPT_BEGIN : Z := 0.
Definition ACCEPT_SERVER_VERSION_SENT : Z := 1.
Definition ACCEPT_CLIENT_VERSION_DONE : Z := 2.
Definition ACCEPT_SERVER_KEXINIT_SENT : Z := 3.
Definition ACCEPT_KEYED : Z := 4.
Definition ACCEPT_CLIENT_USERAUTH_REQUEST_DONE : Z := 5.
Definition ACCEPT_SERVER_USERAUTH_ACCEPT_SENT : Z := 6.
Definition ACCEPT_CLIENT_USERAUTH_DONE : Z := 7.
Definition ACCEPT_SERVER_USERAUTH_SENT : Z := 8.
Definition ACCEPT_SERVER_CHANNEL_ACCEPT_SENT : Z := 9.
Definition ACCEPT_CLIENT_SESSION_ESTABLISHED : Z := 10.

(** *** Client progress *)
Definition CONNECT_BEGIN : Z := 0.
Definition CONNECT_CLIENT_VERSION_SENT : Z := 1.
Definition CONNECT_SERVER_VERSION_DONE : Z := 2.
Definition CONNECT_CLIENT_KEXINIT_SENT : Z := 3.
Definition CONNECT_SERVER_KEXINIT_DONE : Z := 4.
Definition CONNECT_CLIENT_KEXDH_INIT_SENT : Z := 5.
Definition CONNECT_KEYED : Z := 6.
Definition CONNECT_CLIENT_USERAUTH_REQUEST_SENT : Z := 7.
Definition CONNECT_SERVER_USERAUTH_REQUEST_DONE : Z := 8.
Definition CONNECT_CLIENT_USERAUTH_SENT : Z := 9.
Definition CONNECT_SERVER_USERAUTH_ACCEPT_DONE : Z := 10.
Definition CONNECT_CLIENT_CHANNEL_OPEN_SESSION_SENT : Z := 11.
Definition CONNECT_SERVER_CHANNEL_OPEN_SESSION_DONE : Z := 12.
Definition CONNECT_CLIENT_CHANNEL_AGENT_REQUEST_SENT : Z := 13.
Definition CONNECT_CLIENT_CHANNEL_TERMINAL_REQUEST_SENT : Z := 14.
Definition CONNECT_CLIENT_CHANNEL_REQUEST_SENT : Z := 15.
Definition CONNECT_SERVER_CHANNEL_REQUEST_DONE : Z := 16.

(** *** What the client side has done *)
Definition CLIENT_BEGIN : Z := 0.
Definition CLIENT_VERSION_DONE : Z := 1.
Definition CLIENT_KEXINIT_DONE : Z := 2.
Definition CLIENT_KEXDH_INIT_DONE : Z := 3.
Definition CLIENT_USERAUTH_REQUEST_DONE : Z := 4.
Definition CLIENT_USERAUTH_DONE : Z := 5.
Definition CLIENT_CHANNEL_OPEN_DONE : Z := 6.
Definition CLIENT_DONE : Z := 7.

(** *** What the server side has done *)
Definition SERVER_BEGIN : Z := 0.
Definition SERVER_VERSION_DONE : Z := 1.
Definition SERVER_KEXINIT_DONE : Z := 2.
Definition SERVER_USERAUTH_REQUEST_DONE : Z := 3.
Definition SERVER_USERAUTH_ACCEPT_DONE : Z := 4.
Definition SERVER_CHANNEL_OPEN_DONE : Z := 5.
Definition SERVER_DONE : Z := 6.

(** *** ProcessReplyStates *)
Definition PROCESS_INIT : Z := 0.
Definition PROCESS_PACKET_LENGTH : Z := 1.
Definition PROCESS_PACKET_FINISH : Z := 2.
Definition PROCESS_PACKET : Z := 3.
Definition PROCESS_DISCARD : Z := 4.

(** *** Message numbers *)
Definition MSGID_NONE : Z := 0.
Definition MSGID_DISCONNECT : Z := 1.
Definition MSGID_IGNORE : Z := 2.
Definition MSGID_UNIMPLEMENTED : Z := 3.
Definition MSGID_DEBUG : Z := 4.
Definition MSGID_SERVICE_REQUEST : Z := 5.
Definition MSGID_SERVICE_ACCEPT : Z := 6.
Definition MSGID_EXT_INFO : Z := 7.
Definition MSGID_KEXINIT : Z := 20.
Definition MSGID_NEWKEYS : Z := 21.
Definition MSGID_KEXDH_INIT : Z := 30.
Definition MSGID_KEXECDH_INIT : Z := 30.
Definition MSGID_KEXKEM_INIT : Z := 30.
Definition MSGID_KEXDH_REPLY : Z := 31.
Definition MSGID_KEXKEM_REPLY : Z := 31.
Definition MSGID_KEXDH_GEX_GROUP : Z := 31.
Definition MSGID_KEXDH_GEX_INIT : Z := 32.
Definition MSGID_KEXDH_GEX_REPLY : Z := 33.
Definition MSGID_KEXDH_GEX_REQUEST : Z := 34.
Definition MSGID_USERAUTH_REQUEST : Z := 50.
Definition MSGID_USERAUTH_FAILURE : Z := 51.
Definition MSGID_USERAUTH_SUCCESS : Z := 52.
Definition MSGID_USERAUTH_BANNER : Z := 53.
Definition MSGID_USERAUTH_PK_OK : Z := 60.
Definition MSGID_USERAUTH_INFO_REQUEST : Z := 60.
Definition MSGID_USERAUTH_INFO_RESPONSE : Z := 61.
Definition MSGID_GLOBAL_REQUEST : Z := 80.
Definition MSGID_REQUEST_SUCCESS : Z := 81.
Definition MSGID_REQUEST_FAILURE : Z := 82.
Definition MSGID_CHANNEL_OPEN : Z := 90.
Definition MSGID_CHANNEL_OPEN_CONF : Z := 91.
Definition MSGID_CHANNEL_OPEN_FAIL : Z := 92.
Definition MSGID_CHANNEL_WINDOW_ADJUST : Z := 93.
Definition MSGID_CHANNEL_DATA : Z := 94.
Definition MSGID_CHANNEL_EXTENDED_DATA : Z := 95.
Definition MSGID_CHANNEL_EOF : Z := 96.
Definition MSGID_CHANNEL_CLOSE : Z := 97.
Definition MSGID_CHANNEL_REQUEST : Z := 98.
Definition MSGID_CHANNEL_SUCCESS : Z := 99.
Definition MSGID_CHANNEL_FAILURE : Z := 100.

(** *** Message number ranges *)
Definition MSGIDLIMIT_TRANS_MIN : Z := 1.
Definition MSGIDLIMIT_TRANS_GEN_MIN : Z := 1.
Definition MSGIDLIMIT_TRANS_GEN_MAX : Z := 19.
Definition MSGIDLIMIT_TRANS_ALGO_MIN : Z := 20.
Definition MSGIDLIMIT_TRANS_KEX_MIN : Z := 30.
Definition MSGIDLIMIT_TRANS_KEX_MAX : Z := 49.
Definition MSGIDLIMIT_TRANS_MAX : Z := 49.
Definition MSGIDLIMIT_AUTH_MIN : Z := 50.
Definition MSGIDLIMIT_AUTH_MAX : Z := 79.
Definition MSGIDLIMIT_CONN_MIN : Z := 80.

(** *** TerminalModes *)
Definition WOLFSSH_TTY_OP_END : Z := 0.
Definition WOLFSSH_VINTR : Z := 1.
Definition WOLFSSH_VQUIT : Z := 2.
Definition WOLFSSH_VERASE : Z := 3.
Definition WOLFSSH_VKILL : Z := 4.
Definition WOLFSSH_VEOF : Z := 5.
Definition WOLFSSH_VEOL : Z := 6.
Definition WOLFSSH_VEOL2 : Z := 7.
Definition WOLFSSH_VSTART : Z := 8.
Definition WOLFSSH_VSTOP : Z := 9.
Definition WOLFSSH_VSUSP : Z := 10.
Definition WOLFSSH_VREPRINT : Z := 12.
Definition WOLFSSH_VWERASE : Z := 13.
Definition WOLFSSH_VLNEXT : Z := 14.
Definition WOLFSSH_VDISCARD : Z := 18.
Definition WOLFSSH_IGNPAR : Z := 30.
Definition WOLFSSH_PARMRK : Z := 31.
Definition WOLFSSH_INPCK : Z := 32.
Definition WOLFSSH_ISTRIP : Z := 33.
Definition WOLFSSH_INLCR : Z := 34.
Definition WOLFSSH_IGNCR : Z := 35.
Definition WOLFSSH_ICRNL : Z := 36.
Definition WOLFSSH_IUCLC : Z := 37.
Definition WOLFSSH_IXON : Z := 38.
Definition WOLFSSH_IXANY : Z := 39.
Definition WOLFSSH_IXOFF : Z := 40.
Definition WOLFSSH_IMAXBEL : Z := 41.
Definition WOLFSSH_IUTF8 : Z := 42.
Definition WOLFSSH_ISIG : Z := 50.
Definition WOLFSSH_ICANON : Z := 51.
Definition WOLFSSH_XCASE : Z := 52.
Definition WOLFSSH_ECHO : Z := 53.
Definition WOLFSSH_ECHOE : Z := 54.
Definition WOLFSSH_ECHOK : Z := 55.
Definition WOLFSSH_ECHONL : Z := 56.
Definition WOLFSSH_NOFLSH : Z := 57.
Definition WOLFSSH_TOSTOP : Z := 58.
Definition WOLFSSH_IEXTEN : Z := 59.
Definition WOLFSSH_ECHOCTL : Z := 60.
Definition WOLFSSH_ECHOKE : Z := 61.
Definition WOLFSSH_PENDIN : Z := 62.
Definition WOLFSSH_OPOST : Z := 70.
Definition WOLFSSH_OLCUC : Z := 71.
Definition WOLFSSH_ONLCR : Z := 72.
Definition WOLFSSH_OCRNL : Z := 73.
Definition WOLFSSH_ONOCR : Z := 74.
Definition WOLFSSH_ONLRET : Z := 75.
Definition WOLFSSH_CS7 : Z := 90.
Definition WOLFSSH_CS8 : Z := 91.
Definition WOLFSSH_PARENB : Z := 92.
Definition WOLFSSH_PARODD : Z := 93.
Definition WOLFSSH_TTY_OP_ISPEED : Z := 128.
Definition WOLFSSH_TTY_OP_OSPEED : Z := 129.

(** *** enum *)
Definition WOLFSSH_SESSION_SHELL : Z := 1.
Definition WOLFSSH_SESSION_EXEC : Z := 2.
Definition WOLFSSH_SESSION_SUBSYSTEM : Z := 3.
Definition WOLFSSH_SESSION_TERMINAL : Z := 4.

(** *** WS_FwdCbAction *)
Definition WOLFSSH_FWD_LOCAL_SETUP : Z := 0.
Definition WOLFSSH_FWD_LOCAL_CLEANUP : Z := 1.
Definition WOLFSSH_FWD_REMOTE_SETUP : Z := 2.
Definition WOLFSSH_FWD_REMOTE_CLEANUP : Z := 3.
Definition WOLFSSH_FWD_CHANNEL_ID : Z := 4.

(** *** WS_FwdCbError *)
Definition WS_FWD_SUCCESS : Z := 0.

(** *** WS_FwdRemoteMatch *)
Definition WOLFSSH_FWD_MATCH_PORT : Z := 1.
Definition WOLFSSH_FWD_MATCH_OFF : Z := 2.

(** *** WS_ReqCbResult *)
Definition WOLFSSH_REQ_ACCEPT : Z := 1.
Definition WOLFSSH_REQ_REJECT : Z := 2.

(** *** WS_HighwaterSide *)
Definition WOLFSSH_HWSIDE_TRANSMIT : Z := 0.
Definition WOLFSSH_HWSIDE_RECEIVE : Z := 1.

(** *** WS_EndpointTypes *)
Definition WOLFSSH_ENDPOINT_SERVER : Z := 0.
Definition WOLFSSH_ENDPOINT_CLIENT : Z := 1.

(** *** WS_UserAuthResults *)
Definition WOLFSSH_USERAUTH_SUCCESS : Z := 0.
Definition WOLFSSH_USERAUTH_FAILURE : Z := 1.
Definition WOLFSSH_USERAUTH_REJECTED : Z := 5.
Definition WOLFSSH_USERAUTH_PARTIAL_SUCCESS : Z := 7.
Definition WOLFSSH_USERAUTH_SUCCESS_ANOTHER : Z := 8.
Definition WOLFSSH_USERAUTH_WOULD_BLOCK : Z := 9.

(** *** WS_DisconnectReasonCodes *)
Definition WOLFSSH_DISCONNECT_PROTOCOL_ERROR : Z := 2.
Definition WOLFSSH_DISCONNECT_KEY_EXCHANGE_FAILED : Z := 3.
Definition WOLFSSH_DISCONNECT_SERVICE_NOT_AVAILABLE : Z := 7.
Definition WOLFSSH_DISCONNECT_HOST_KEY_NOT_VERIFIABLE : Z := 9.
Definition WOLFSSH_DISCONNECT_NO_MORE_AUTH_METHODS_AVAILABLE : Z := 14.

(** *** Return codes (error.h) *)
Definition WS_SUCCESS : Z := 0.
Definition WS_FATAL_ERROR : Z := (-1001).
Definition WS_ERROR : Z := (-1001).
Definition WS_BAD_ARGUMENT : Z := (-1002).
Definition WS_MEMORY_E : Z := (-1003).
Definition WS_BUFFER_E : Z := (-1004).
Definition WS_PARSE_E : Z := (-1005).
Definition WS_OVERFLOW_E : Z := (-1007).
Definition WS_BAD_USAGE : Z := (-1008).
Definition WS_SOCKET_ERROR_E : Z := (-1009).
Definition WS_WANT_READ : Z := (-1010).
Definition WS_WANT_WRITE : Z := (-1011).
Definition WS_RECV_OVERFLOW_E : Z := (-1012).
Definition WS_VERSION_E : Z := (-1013).
Definition WS_SEND_OOB_READ_E : Z := (-1014).
Definition WS_INPUT_CASE_E : Z := (-1015).
Definition WS_UNIMPLEMENTED_E : Z := (-1017).
Definition WS_RSA_E : Z := (-1018).
Definition WS_BAD_FILE_E : Z := (-1019).
Definition WS_INVALID_ALGO_ID : Z := (-1020).
Definition WS_DECRYPT_E : Z := (-1021).
Definition WS_ENCRYPT_E : Z := (-1022).
Definition WS_VERIFY_MAC_E : Z := (-1023).
Definition WS_RESOURCE_E : Z := (-1025).
Definition WS_INVALID_CHANID : Z := (-1027).
Definition WS_CRYPTO_FAILED : Z := (-1029).
Definition WS_INVALID_STATE_E : Z := (-1030).
Definition WS_EOF : Z := (-1031).
Definition WS_INVALID_PRIME_CURVE : Z := (-1032).
Definition WS_ECC_E : Z := (-1033).
Definition WS_CHANOPEN_FAILED : Z := (-1034).
Definition WS_REKEYING : Z := (-1035).
Definition WS_CHANNEL_CLOSED : Z := (-1036).
Definition WS_INVALID_PATH_E : Z := (-1037).
Definition WS_MATCH_KEX_ALGO_E : Z := (-1050).
Definition WS_MATCH_KEY_ALGO_E : Z := (-1051).
Definition WS_MATCH_ENC_ALGO_E : Z := (-1052).
Definition WS_MATCH_MAC_ALGO_E : Z := (-1053).
Definition WS_PERMISSIONS : Z := (-1054).
Definition WS_CHAN_RXD : Z := (-1057).
Definition WS_PUBKEY_REJECTED_E : Z := (-1066).
Definition WS_EXTDATA : Z := (-1067).
Definition WS_USER_AUTH_E : Z := (-1068).
Definition WS_CHANNEL_NOT_CONF : Z := (-1071).
Definition WS_WINDOW_FULL : Z := (-1073).
Definition WS_DH_SIZE_E : Z := (-1075).
Definition WS_AGENT_NULL_E : Z := (-1077).
Definition WS_AGENT_NO_KEY_E : Z := (-1078).
Definition WS_AGENT_CXN_FAIL : Z := (-1079).
Definition WS_CERT_NO_SIGNER_E : Z := (-1081).
Definition WS_CERT_EXPIRED_E : Z := (-1082).
Definition WS_CERT_REVOKED_E : Z := (-1083).
Definition WS_CERT_SIG_CONFIRM_E : Z := (-1084).
Definition WS_CERT_OTHER_E : Z := (-1085).
Definition WS_CERT_PROFILE_E : Z := (-1086).
Definition WS_CERT_KEY_SIZE_E : Z := (-1087).
Definition WS_KEY_AUTH_MAGIC_E : Z := (-1090).
Definition WS_KEY_CHECK_VAL_E : Z := (-1091).
Definition WS_KEY_FORMAT_E : Z := (-1092).
Definition WS_SFTP_NOT_FILE_E : Z := (-1093).
Definition WS_MSGID_NOT_ALLOWED_E : Z := (-1094).
Definition WS_ED25519_E : Z := (-1095).
Definition WS_AUTH_PENDING : Z := (-1096).
Definition WS_DISCONNECT : Z := (-1098).
Definition WS_MLDSA_E : Z := (-1099).
Definition WS_ED448_E : Z := (-1100).
Definition WS_CERT_KEY_USAGE_E : Z := (-1101).

(** *** I/O callback results (error.h) *)
Definition WS_CBIO_ERR_GENERAL : Z := (-1).
Definition WS_CBIO_ERR_WANT_READ : Z := (-2).
Definition WS_CBIO_ERR_WANT_WRITE : Z := (-2).
Definition WS_CBIO_ERR_CONN_RST : Z := (-3).
Definition WS_CBIO_ERR_ISR : Z := (-4).
Definition WS_CBIO_ERR_CONN_CLOSE : Z := (-5).
Definition WS_CBIO_ERR_TIMEOUT : Z := (-6).

(** *** WS_AGENT_MessageIds *)
Definition MSGID_AGENT_FAILURE : Z := 5.
Definition MSGID_AGENT_SUCCESS : Z := 6.
Definition MSGID_AGENT_REQUEST_IDENTITIES : Z := 11.
Definition MSGID_AGENT_IDENTITIES_ANSWER : Z := 12.
Definition MSGID_AGENT_SIGN_REQUEST : Z := 13.
Definition MSGID_AGENT_SIGN_RESPONSE : Z := 14.
Definition MSGID_AGENT_ADD_IDENTITY : Z := 17.
Definition MSGID_AGENT_REMOVE_IDENTITY : Z := 18.
Definition MSGID_AGENT_REMOVE_ALL_IDENTITIES : Z := 19.
Definition MSGID_AGENT_LOCK : Z := 22.
Definition MSGID_AGENT_UNLOCK : Z := 23.

(** *** AgentStates *)
Definition AGENT_STATE_INIT : Z := 0.
Definition AGENT_STATE_CONNECTED : Z := 2.
Definition AGENT_STATE_DONE : Z := 4.

(** *** WS_AgentCbAction *)
Definition WOLFSSH_AGENT_LOCAL_SETUP : Z := 0.
Definition WOLFSSH_AGENT_LOCAL_CLEANUP : Z := 1.

(** *** WS_AgentCbError *)
Definition WS_AGENT_SUCCESS : Z := 0.

(** *** WS_PacketTypes *)
Definition WOLFSSH_FTP_OPEN : Z := 3.
Definition WOLFSSH_FTP_CLOSE : Z := 4.
Definition WOLFSSH_FTP_READ : Z := 5.
Definition WOLFSSH_FTP_WRITE : Z := 6.
Definition WOLFSSH_FTP_LSTAT : Z := 7.
Definition WOLFSSH_FTP_FSTAT : Z := 8.
Definition WOLFSSH_FTP_SETSTAT : Z := 9.
Definition WOLFSSH_FTP_FSETSTAT : Z := 10.
Definition WOLFSSH_FTP_OPENDIR : Z := 11.
Definition WOLFSSH_FTP_READDIR : Z := 12.
Definition WOLFSSH_FTP_REMOVE : Z := 13.
Definition WOLFSSH_FTP_MKDIR : Z := 14.
Definition WOLFSSH_FTP_RMDIR : Z := 15.
Definition WOLFSSH_FTP_REALPATH : Z := 16.
Definition WOLFSSH_FTP_STAT : Z := 17.
Definition WOLFSSH_FTP_RENAME : Z := 18.
Definition WOLFSSH_FTP_STATUS : Z := 101.
Definition WOLFSSH_FTP_HANDLE : Z := 102.
Definition WOLFSSH_FTP_DATA : Z := 103.
Definition WOLFSSH_FTP_NAME : Z := 104.
Definition WOLFSSH_FTP_ATTRS : Z := 105.

(** *** WS_SFTPStatus *)
Definition WOLFSSH_FTP_OK : Z := 0.
Definition WOLFSSH_FTP_EOF : Z := 1.
Definition WOLFSSH_FTP_NOFILE : Z := 2.
Definition WOLFSSH_FTP_PERMISSION : Z := 3.
Definition WOLFSSH_FTP_FAILURE : Z := 4.
Definition WOLFSSH_FTP_UNSUPPORTED : Z := 8.

(** *** enum *)
Definition WOLFSSH_SFTP_HEADER : Z := 9.
Definition WOLFSSH_MAX_HANDLE : Z := 256.

(** *** Sizes and limits *)
Definition WOLFSSH_MAX_NAMESZ : Z := 32.
Definition WOLFSSH_MAX_CHN_NAMESZ : Z := 4096.
Definition MIN_RSA_SIG_SZ : Z := 2.
Definition MIN_BLOCK_SZ : Z := 8.
Definition COOKIE_SZ : Z := 16.
Definition PAD_LENGTH_SZ : Z := 1.
Definition MIN_PAD_LENGTH : Z := 4.
Definition BOOLEAN_SZ : Z := 1.
Definition MSG_ID_SZ : Z := 1.
Definition SHA1_96_SZ : Z := 12.
Definition UINT32_SZ : Z := 4.
Definition SSH_PROTO_SZ : Z := 8.
Definition SSH_PROTO_EOL_SZ : Z := 2.
Definition TERMINAL_MODE_SZ : Z := 5.
Definition TERMINAL_MODES_MAX_SZ : Z := 4096.
Definition TERMINAL_WIDTH_DEFAULT : Z := 80.
Definition TERMINAL_HEIGHT_DEFAULT : Z := 24.
Definition TERMINAL_DIMENSION_MAX : Z := 65535.
Definition AEAD_IMP_IV_SZ : Z := 4.
Definition AEAD_EXP_IV_SZ : Z := 8.
Definition DEFAULT_NEXT_CHANNEL : Z := 0.

(** *** Derived sizes and limits *)
Definition MAX_PACKET_SZ : Z := 35000.

(** *** Sizes and limits *)
Definition WOLFSSH_MAX_NAMELIST_SZ : Z := 4096.
Definition WOLFSSH_MAX_NAMELIST_CNT : Z := 64.
Definition WOLFSSH_MAX_ALGO_NAME_SZ : Z := 64.
Definition WOLFSSH_DEFAULT_GEXDH_MIN : Z := 2048.
Definition WOLFSSH_RSA_MIN_KEY_BITS : Z := 2048.
Definition WOLFSSH_DEFAULT_GEXDH_PREFERRED : Z := 3072.
Definition WOLFSSH_DEFAULT_GEXDH_MAX : Z := 8192.
Definition WOLFSSH_DH_GEX_MIN_BITS : Z := 2048.

(** *** Derived sizes and limits *)
Definition KEX_F_SIZE : Z := 1700.
Definition MAX_KEX_KEY_SZ : Z := 3168.

(** *** Sizes and limits *)
Definition WOLFSSH_MR_ROUNDS : Z := 8.
Definition WOLFSSH_KEY_QUANTITY_REQ : Z := 1.
Definition WOLFSSH_MAX_BANNER_LINES : Z := 10.
Definition WOLFSSH_PROTOID_LIMIT : Z := 255.
Definition WOLFSSH_PEER_IS_KEYING : Z := 1.
Definition WOLFSSH_SELF_IS_KEYING : Z := 2.
Definition WOLFSSH_MAX_SFTP_HANDLES : Z := 64.
Definition WOLFSSH_MAX_FWD_REPLIES : Z := 1024.
Definition ECDSA_ASN_SIG_SZ : Z := 256.
Definition TRAD_TYPE_ECC : Z := 1.
Definition TRAD_TYPE_ED25519 : Z := 2.
Definition TRAD_TYPE_ED448 : Z := 3.
Definition COMPOSITE_MAX_LABEL_SZ : Z := 33.
Definition ECC_P256_COORD_SZ : Z := 32.
Definition ECC_P384_COORD_SZ : Z := 48.
Definition WS_MSG_SEND : Z := 1.
Definition WS_MSG_RECV : Z := 2.
Definition WS_CHANNEL_ID_SELF : Z := 0.
Definition WS_CHANNEL_ID_PEER : Z := 1.
Definition WS_FWD_PORT_CHECK : Z := 1024.
Definition WOLFSSH_USERAUTH_PASSWORD : Z := 1.
Definition WOLFSSH_USERAUTH_PUBLICKEY : Z := 2.
Definition WOLFSSH_USERAUTH_KEYBOARD : Z := 4.
Definition WOLFSSH_USERAUTH_KEYBOARD_SETUP : Z := 16.
Definition WOLFSSH_MAX_FILENAME : Z := 256.
Definition WOLFSSH_EXT_DATA_STDERR : Z := 1.
Definition AGENT_SIGN_RSA_SHA2_256 : Z := 2.
Definition AGENT_SIGN_RSA_SHA2_512 : Z := 4.
Definition WOLFSSH_OSSH_CERT_TYPE_USER : Z := 1.
Definition WOLFSSH_FILEATRB_SIZE : Z := 1.
Definition WOLFSSH_FILEATRB_UIDGID : Z := 2.
Definition WOLFSSH_FILEATRB_PERM : Z := 4.
Definition WOLFSSH_FILEATRB_TIME : Z := 8.
Definition WOLFSSH_FILEATRB_EXT : Z := 2147483648.
Definition WOLFSSH_FXF_READ : Z := 1.
Definition WOLFSSH_FXF_WRITE : Z := 2.
Definition WOLFSSH_FXF_APPEND : Z := 4.
Definition WOLFSSH_FXF_CREAT : Z := 8.
Definition WOLFSSH_FXF_TRUNC : Z := 16.
Definition WOLFSSH_FXF_EXCL : Z := 32.
Definition FILEATRB_PER_MASK_TYPE : Z := 258048.
Definition FILEATRB_PER_FILE : Z := 32768.
Definition FILEATRB_PER_LINK : Z := 40960.
Definition FILEATRB_PER_DIR : Z := 16384.
Definition FILEATRB_PER_MASK_PERM : Z := 511.
Definition WOLFSSH_MAX_SFTP_RW : Z := 32768.
Definition WOLFSSH_MAX_SFTP_RECV : Z := 32768.
Definition WOLFSSH_MAX_SFTP_READDIR : Z := 100.

(** *** Derived sizes and limits *)
Definition STATIC_BUFFER_LEN : Z := 16.
Definition LENGTH_SZ : Z := UINT32_SZ.
Definition SSH_PROTO_MIN : Z := SSH_PROTO_SZ + 1 + SSH_PROTO_EOL_SZ.
Definition AEAD_NONCE_SZ : Z := AEAD_IMP_IV_SZ + AEAD_EXP_IV_SZ.
Definition MAX_HMAC_SZ : Z := 64.
Definition CHANNEL_EXTENDED_DATA_STDERR : Z := WOLFSSH_EXT_DATA_STDERR.
Definition WOLFSSH_KEXINIT_ID_LIST_MAX : Z := 32.
Definition WOLFSSH_MAX_PROMPTS : Z := 64.
Definition WOLFSSH_MAX_PROMPT_SZ : Z := 1024.
Definition WOLFSSH_MAX_PASSPHRASE_SZ : Z := 256.
Definition WOLFSSH_AGENT_MAX_MSG_SZ : Z := 262144.
Definition WOLFSSH_AGENT_RELAY_CHUNK_SZ : Z := 512.
Definition WOLFSSH_HANDLE_ID_SZ : Z := UINT32_SZ * 2.
Definition WOLFSSH_MAX_FILE_OFFSET : Z := 0x7FFFFFFFFFFFFFFF.
Definition WS_DATE_SIZE : Z := 13.
Definition WOLFSSH_MAX_SFTP_PACKET : Z := WOLFSSH_MAX_SFTP_RW + WOLFSSH_MAX_SFTP_RECV.

Create HintDb consts.
#[export] Hint Unfold
  OPEN_OK
  OPEN_ADMINISTRATIVELY_PROHIBITED
  OPEN_UNKNOWN_CHANNEL_TYPE
  OPEN_RESOURCE_SHORTAGE
  ACCEPT_BEGIN
  ACCEPT_SERVER_VERSION_SENT
  ACCEPT_CLIENT_VERSION_DONE
  ACCEPT_SERVER_KEXINIT_SENT
  ACCEPT_KEYED
  ACCEPT_CLIENT_USERAUTH_REQUEST_DONE
  ACCEPT_SERVER_USERAUTH_ACCEPT_SENT
  ACCEPT_CLIENT_USERAUTH_DONE
  ACCEPT_SERVER_USERAUTH_SENT
  ACCEPT_SERVER_CHANNEL_ACCEPT_SENT
  ACCEPT_CLIENT_SESSION_ESTABLISHED
  CONNECT_BEGIN
  CONNECT_CLIENT_VERSION_SENT
  CONNECT_SERVER_VERSION_DONE
  CONNECT_CLIENT_KEXINIT_SENT
  CONNECT_SERVER_KEXINIT_DONE
  CONNECT_CLIENT_KEXDH_INIT_SENT
  CONNECT_KEYED
  CONNECT_CLIENT_USERAUTH_REQUEST_SENT
  CONNECT_SERVER_USERAUTH_REQUEST_DONE
  CONNECT_CLIENT_USERAUTH_SENT
  CONNECT_SERVER_USERAUTH_ACCEPT_DONE
  CONNECT_CLIENT_CHANNEL_OPEN_SESSION_SENT
  CONNECT_SERVER_CHANNEL_OPEN_SESSION_DONE
  CONNECT_CLIENT_CHANNEL_AGENT_REQUEST_SENT
  CONNECT_CLIENT_CHANNEL_TERMINAL_REQUEST_SENT
  CONNECT_CLIENT_CHANNEL_REQUEST_SENT
  CONNECT_SERVER_CHANNEL_REQUEST_DONE
  CLIENT_BEGIN
  CLIENT_VERSION_DONE
  CLIENT_KEXINIT_DONE
  CLIENT_KEXDH_INIT_DONE
  CLIENT_USERAUTH_REQUEST_DONE
  CLIENT_USERAUTH_DONE
  CLIENT_CHANNEL_OPEN_DONE
  CLIENT_DONE
  SERVER_BEGIN
  SERVER_VERSION_DONE
  SERVER_KEXINIT_DONE
  SERVER_USERAUTH_REQUEST_DONE
  SERVER_USERAUTH_ACCEPT_DONE
  SERVER_CHANNEL_OPEN_DONE
  SERVER_DONE
  PROCESS_INIT
  PROCESS_PACKET_LENGTH
  PROCESS_PACKET_FINISH
  PROCESS_PACKET
  PROCESS_DISCARD
  MSGID_NONE
  MSGID_DISCONNECT
  MSGID_IGNORE
  MSGID_UNIMPLEMENTED
  MSGID_DEBUG
  MSGID_SERVICE_REQUEST
  MSGID_SERVICE_ACCEPT
  MSGID_EXT_INFO
  MSGID_KEXINIT
  MSGID_NEWKEYS
  MSGID_KEXDH_INIT
  MSGID_KEXECDH_INIT
  MSGID_KEXKEM_INIT
  MSGID_KEXDH_REPLY
  MSGID_KEXKEM_REPLY
  MSGID_KEXDH_GEX_GROUP
  MSGID_KEXDH_GEX_INIT
  MSGID_KEXDH_GEX_REPLY
  MSGID_KEXDH_GEX_REQUEST
  MSGID_USERAUTH_REQUEST
  MSGID_USERAUTH_FAILURE
  MSGID_USERAUTH_SUCCESS
  MSGID_USERAUTH_BANNER
  MSGID_USERAUTH_PK_OK
  MSGID_USERAUTH_INFO_REQUEST
  MSGID_USERAUTH_INFO_RESPONSE
  MSGID_GLOBAL_REQUEST
  MSGID_REQUEST_SUCCESS
  MSGID_REQUEST_FAILURE
  MSGID_CHANNEL_OPEN
  MSGID_CHANNEL_OPEN_CONF
  MSGID_CHANNEL_OPEN_FAIL
  MSGID_CHANNEL_WINDOW_ADJUST
  MSGID_CHANNEL_DATA
  MSGID_CHANNEL_EXTENDED_DATA
  MSGID_CHANNEL_EOF
  MSGID_CHANNEL_CLOSE
  MSGID_CHANNEL_REQUEST
  MSGID_CHANNEL_SUCCESS
  MSGID_CHANNEL_FAILURE
  MSGIDLIMIT_TRANS_MIN
  MSGIDLIMIT_TRANS_GEN_MIN
  MSGIDLIMIT_TRANS_GEN_MAX
  MSGIDLIMIT_TRANS_ALGO_MIN
  MSGIDLIMIT_TRANS_KEX_MIN
  MSGIDLIMIT_TRANS_KEX_MAX
  MSGIDLIMIT_TRANS_MAX
  MSGIDLIMIT_AUTH_MIN
  MSGIDLIMIT_AUTH_MAX
  MSGIDLIMIT_CONN_MIN
  WOLFSSH_TTY_OP_END
  WOLFSSH_VINTR
  WOLFSSH_VQUIT
  WOLFSSH_VERASE
  WOLFSSH_VKILL
  WOLFSSH_VEOF
  WOLFSSH_VEOL
  WOLFSSH_VEOL2
  WOLFSSH_VSTART
  WOLFSSH_VSTOP
  WOLFSSH_VSUSP
  WOLFSSH_VREPRINT
  WOLFSSH_VWERASE
  WOLFSSH_VLNEXT
  WOLFSSH_VDISCARD
  WOLFSSH_IGNPAR
  WOLFSSH_PARMRK
  WOLFSSH_INPCK
  WOLFSSH_ISTRIP
  WOLFSSH_INLCR
  WOLFSSH_IGNCR
  WOLFSSH_ICRNL
  WOLFSSH_IUCLC
  WOLFSSH_IXON
  WOLFSSH_IXANY
  WOLFSSH_IXOFF
  WOLFSSH_IMAXBEL
  WOLFSSH_IUTF8
  WOLFSSH_ISIG
  WOLFSSH_ICANON
  WOLFSSH_XCASE
  WOLFSSH_ECHO
  WOLFSSH_ECHOE
  WOLFSSH_ECHOK
  WOLFSSH_ECHONL
  WOLFSSH_NOFLSH
  WOLFSSH_TOSTOP
  WOLFSSH_IEXTEN
  WOLFSSH_ECHOCTL
  WOLFSSH_ECHOKE
  WOLFSSH_PENDIN
  WOLFSSH_OPOST
  WOLFSSH_OLCUC
  WOLFSSH_ONLCR
  WOLFSSH_OCRNL
  WOLFSSH_ONOCR
  WOLFSSH_ONLRET
  WOLFSSH_CS7
  WOLFSSH_CS8
  WOLFSSH_PARENB
  WOLFSSH_PARODD
  WOLFSSH_TTY_OP_ISPEED
  WOLFSSH_TTY_OP_OSPEED
  WOLFSSH_SESSION_SHELL
  WOLFSSH_SESSION_EXEC
  WOLFSSH_SESSION_SUBSYSTEM
  WOLFSSH_SESSION_TERMINAL
  WOLFSSH_FWD_LOCAL_SETUP
  WOLFSSH_FWD_LOCAL_CLEANUP
  WOLFSSH_FWD_REMOTE_SETUP
  WOLFSSH_FWD_REMOTE_CLEANUP
  WOLFSSH_FWD_CHANNEL_ID
  WS_FWD_SUCCESS
  WOLFSSH_FWD_MATCH_PORT
  WOLFSSH_FWD_MATCH_OFF
  WOLFSSH_REQ_ACCEPT
  WOLFSSH_REQ_REJECT
  WOLFSSH_HWSIDE_TRANSMIT
  WOLFSSH_HWSIDE_RECEIVE
  WOLFSSH_ENDPOINT_SERVER
  WOLFSSH_ENDPOINT_CLIENT
  WOLFSSH_USERAUTH_SUCCESS
  WOLFSSH_USERAUTH_FAILURE
  WOLFSSH_USERAUTH_REJECTED
  WOLFSSH_USERAUTH_PARTIAL_SUCCESS
  WOLFSSH_USERAUTH_SUCCESS_ANOTHER
  WOLFSSH_USERAUTH_WOULD_BLOCK
  WOLFSSH_DISCONNECT_PROTOCOL_ERROR
  WOLFSSH_DISCONNECT_KEY_EXCHANGE_FAILED
  WOLFSSH_DISCONNECT_SERVICE_NOT_AVAILABLE
  WOLFSSH_DISCONNECT_HOST_KEY_NOT_VERIFIABLE
  WOLFSSH_DISCONNECT_NO_MORE_AUTH_METHODS_AVAILABLE
  WS_SUCCESS
  WS_FATAL_ERROR
  WS_ERROR
  WS_BAD_ARGUMENT
  WS_MEMORY_E
  WS_BUFFER_E
  WS_PARSE_E
  WS_OVERFLOW_E
  WS_BAD_USAGE
  WS_SOCKET_ERROR_E
  WS_WANT_READ
  WS_WANT_WRITE
  WS_RECV_OVERFLOW_E
  WS_VERSION_E
  WS_SEND_OOB_READ_E
  WS_INPUT_CASE_E
  WS_UNIMPLEMENTED_E
  WS_RSA_E
  WS_BAD_FILE_E
  WS_INVALID_ALGO_ID
  WS_DECRYPT_E
  WS_ENCRYPT_E
  WS_VERIFY_MAC_E
  WS_RESOURCE_E
  WS_INVALID_CHANID
  WS_CRYPTO_FAILED
  WS_INVALID_STATE_E
  WS_EOF
  WS_INVALID_PRIME_CURVE
  WS_ECC_E
  WS_CHANOPEN_FAILED
  WS_REKEYING
  WS_CHANNEL_CLOSED
  WS_INVALID_PATH_E
  WS_MATCH_KEX_ALGO_E
  WS_MATCH_KEY_ALGO_E
  WS_MATCH_ENC_ALGO_E
  WS_MATCH_MAC_ALGO_E
  WS_PERMISSIONS
  WS_CHAN_RXD
  WS_PUBKEY_REJECTED_E
  WS_EXTDATA
  WS_USER_AUTH_E
  WS_CHANNEL_NOT_CONF
  WS_WINDOW_FULL
  WS_DH_SIZE_E
  WS_AGENT_NULL_E
  WS_AGENT_NO_KEY_E
  WS_AGENT_CXN_FAIL
  WS_CERT_NO_SIGNER_E
  WS_CERT_EXPIRED_E
  WS_CERT_REVOKED_E
  WS_CERT_SIG_CONFIRM_E
  WS_CERT_OTHER_E
  WS_CERT_PROFILE_E
  WS_CERT_KEY_SIZE_E
  WS_KEY_AUTH_MAGIC_E
  WS_KEY_CHECK_VAL_E
  WS_KEY_FORMAT_E
  WS_SFTP_NOT_FILE_E
  WS_MSGID_NOT_ALLOWED_E
  WS_ED25519_E
  WS_AUTH_PENDING
  WS_DISCONNECT
  WS_MLDSA_E
  WS_ED448_E
  WS_CERT_KEY_USAGE_E
  WS_CBIO_ERR_GENERAL
  WS_CBIO_ERR_WANT_READ
  WS_CBIO_ERR_WANT_WRITE
  WS_CBIO_ERR_CONN_RST
  WS_CBIO_ERR_ISR
  WS_CBIO_ERR_CONN_CLOSE
  WS_CBIO_ERR_TIMEOUT
  MSGID_AGENT_FAILURE
  MSGID_AGENT_SUCCESS
  MSGID_AGENT_REQUEST_IDENTITIES
  MSGID_AGENT_IDENTITIES_ANSWER
  MSGID_AGENT_SIGN_REQUEST
  MSGID_AGENT_SIGN_RESPONSE
  MSGID_AGENT_ADD_IDENTITY
  MSGID_AGENT_REMOVE_IDENTITY
  MSGID_AGENT_REMOVE_ALL_IDENTITIES
  MSGID_AGENT_LOCK
  MSGID_AGENT_UNLOCK
  AGENT_STATE_INIT
  AGENT_STATE_CONNECTED
  AGENT_STATE_DONE
  WOLFSSH_AGENT_LOCAL_SETUP
  WOLFSSH_AGENT_LOCAL_CLEANUP
  WS_AGENT_SUCCESS
  WOLFSSH_FTP_OPEN
  WOLFSSH_FTP_CLOSE
  WOLFSSH_FTP_READ
  WOLFSSH_FTP_WRITE
  WOLFSSH_FTP_LSTAT
  WOLFSSH_FTP_FSTAT
  WOLFSSH_FTP_SETSTAT
  WOLFSSH_FTP_FSETSTAT
  WOLFSSH_FTP_OPENDIR
  WOLFSSH_FTP_READDIR
  WOLFSSH_FTP_REMOVE
  WOLFSSH_FTP_MKDIR
  WOLFSSH_FTP_RMDIR
  WOLFSSH_FTP_REALPATH
  WOLFSSH_FTP_STAT
  WOLFSSH_FTP_RENAME
  WOLFSSH_FTP_STATUS
  WOLFSSH_FTP_HANDLE
  WOLFSSH_FTP_DATA
  WOLFSSH_FTP_NAME
  WOLFSSH_FTP_ATTRS
  WOLFSSH_FTP_OK
  WOLFSSH_FTP_EOF
  WOLFSSH_FTP_NOFILE
  WOLFSSH_FTP_PERMISSION
  WOLFSSH_FTP_FAILURE
  WOLFSSH_FTP_UNSUPPORTED
  WOLFSSH_SFTP_HEADER
  WOLFSSH_MAX_HANDLE
  WOLFSSH_MAX_NAMESZ
  WOLFSSH_MAX_CHN_NAMESZ
  MIN_RSA_SIG_SZ
  MIN_BLOCK_SZ
  COOKIE_SZ
  PAD_LENGTH_SZ
  MIN_PAD_LENGTH
  BOOLEAN_SZ
  MSG_ID_SZ
  SHA1_96_SZ
  UINT32_SZ
  SSH_PROTO_SZ
  SSH_PROTO_EOL_SZ
  TERMINAL_MODE_SZ
  TERMINAL_MODES_MAX_SZ
  TERMINAL_WIDTH_DEFAULT
  TERMINAL_HEIGHT_DEFAULT
  TERMINAL_DIMENSION_MAX
  AEAD_IMP_IV_SZ
  AEAD_EXP_IV_SZ
  DEFAULT_NEXT_CHANNEL
  MAX_PACKET_SZ
  WOLFSSH_MAX_NAMELIST_SZ
  WOLFSSH_MAX_NAMELIST_CNT
  WOLFSSH_MAX_ALGO_NAME_SZ
  WOLFSSH_DEFAULT_GEXDH_MIN
  WOLFSSH_RSA_MIN_KEY_BITS
  WOLFSSH_DEFAULT_GEXDH_PREFERRED
  WOLFSSH_DEFAULT_GEXDH_MAX
  WOLFSSH_DH_GEX_MIN_BITS
  KEX_F_SIZE
  MAX_KEX_KEY_SZ
  WOLFSSH_MR_ROUNDS
  WOLFSSH_KEY_QUANTITY_REQ
  WOLFSSH_MAX_BANNER_LINES
  WOLFSSH_PROTOID_LIMIT
  WOLFSSH_PEER_IS_KEYING
  WOLFSSH_SELF_IS_KEYING
  WOLFSSH_MAX_SFTP_HANDLES
  WOLFSSH_MAX_FWD_REPLIES
  ECDSA_ASN_SIG_SZ
  TRAD_TYPE_ECC
  TRAD_TYPE_ED25519
  TRAD_TYPE_ED448
  COMPOSITE_MAX_LABEL_SZ
  ECC_P256_COORD_SZ
  ECC_P384_COORD_SZ
  WS_MSG_SEND
  WS_MSG_RECV
  WS_CHANNEL_ID_SELF
  WS_CHANNEL_ID_PEER
  WS_FWD_PORT_CHECK
  WOLFSSH_USERAUTH_PASSWORD
  WOLFSSH_USERAUTH_PUBLICKEY
  WOLFSSH_USERAUTH_KEYBOARD
  WOLFSSH_USERAUTH_KEYBOARD_SETUP
  WOLFSSH_MAX_FILENAME
  WOLFSSH_EXT_DATA_STDERR
  AGENT_SIGN_RSA_SHA2_256
  AGENT_SIGN_RSA_SHA2_512
  WOLFSSH_OSSH_CERT_TYPE_USER
  WOLFSSH_FILEATRB_SIZE
  WOLFSSH_FILEATRB_UIDGID
  WOLFSSH_FILEATRB_PERM
  WOLFSSH_FILEATRB_TIME
  WOLFSSH_FILEATRB_EXT
  WOLFSSH_FXF_READ
  WOLFSSH_FXF_WRITE
  WOLFSSH_FXF_APPEND
  WOLFSSH_FXF_CREAT
  WOLFSSH_FXF_TRUNC
  WOLFSSH_FXF_EXCL
  FILEATRB_PER_MASK_TYPE
  FILEATRB_PER_FILE
  FILEATRB_PER_LINK
  FILEATRB_PER_DIR
  FILEATRB_PER_MASK_PERM
  WOLFSSH_MAX_SFTP_RW
  WOLFSSH_MAX_SFTP_RECV
  WOLFSSH_MAX_SFTP_READDIR
  STATIC_BUFFER_LEN
  LENGTH_SZ
  SSH_PROTO_MIN
  AEAD_NONCE_SZ
  MAX_HMAC_SZ
  CHANNEL_EXTENDED_DATA_STDERR
  WOLFSSH_KEXINIT_ID_LIST_MAX
  WOLFSSH_MAX_PROMPTS
  WOLFSSH_MAX_PROMPT_SZ
  WOLFSSH_MAX_PASSPHRASE_SZ
  WOLFSSH_AGENT_MAX_MSG_SZ
  WOLFSSH_AGENT_RELAY_CHUNK_SZ
  WOLFSSH_HANDLE_ID_SZ
  WOLFSSH_MAX_FILE_OFFSET
  WS_DATE_SIZE
  WOLFSSH_MAX_SFTP_PACKET
  is_word32 is_byte UINT32_MAX : consts.

(** Linear arithmetic over the constants of the source and C integers. *)
Ltac clia := repeat autounfold with consts in *; lia.
