(* ===== verification/Wire.v ===== *)
(** Byte order conversion (misc.c) and the primitives that read SSH data types
    out of a message (internal.c, [GetBoolean] to [GetStringRef]).

    A reader works on the message [buf], its declared length [len] and the
    index [*idx], which is the state; every read of [buf] outside the array is
    undefined behaviour, so a reader that cannot return [UB] stays inside the
    message. *)

From S2P Require Import Prelude Codes.

(** ** misc.c *)

Definition min (a b : Z) : Z := if b <? a then b else a.

(** [ato32(c, &u32)]: [c] is the array from the pointer on. *)
Definition ato32 (c : bytes) : option Z :=
  match c with
  | c0 :: c1 :: c2 :: c3 :: _ =>
    let v := Z.lor 0 (Z.land c0 0xFF) in
    let v := wrap32 (Z.shiftl v 8) in
    let v := Z.lor v (Z.land c1 0xFF) in
    let v := wrap32 (Z.shiftl v 8) in
    let v := Z.lor v (Z.land c2 0xFF) in
    let v := wrap32 (Z.shiftl v 8) in
    Some (Z.lor v (Z.land c3 0xFF))
  | _ => None
  end.

Definition c32toa (u32 : Z) : bytes :=
  [ Z.land (Z.shiftr u32 24) 0xff;
    Z.land (Z.shiftr u32 16) 0xff;
    Z.land (Z.shiftr u32 8) 0xff;
    Z.land u32 0xff ].

(** [ConstantCompare(a, b, length)]: 0 exactly on equal arrays; [None] when
    either array is shorter than [length]. *)
Fixpoint ConstantCompare_loop (a b : bytes) (length : nat) (compareSum : Z) : option Z :=
  match length with
  | O => Some compareSum
  | S n =>
    match a, b with
    | x :: a', y :: b' => ConstantCompare_loop a' b' n (Z.lor compareSum (Z.lxor x y))
    | _, _ => None
    end
  end.
Definition ConstantCompare (a b : bytes) (length : Z) : option Z :=
  ConstantCompare_loop a b (Z.to_nat length) 0.

(** ** Readers *)

Definition parser (A : Type) : Type := bytes -> Z -> ST Z A.

Definition put_idx (i : Z) : ST Z unit := modify (fun _ => i).

Definition GetBoolean : parser Z := fun buf len =>
  idx ← get;
  if idx <? len then
    b ← deref (rd buf idx);
    put_idx (idx +w BOOLEAN_SZ);;
    mret (b2z (truthy b))
  else fail WS_BUFFER_E.

Definition GetUint32 : parser Z := fun buf len =>
  idx ← get;
  if (idx <? len) && (UINT32_SZ <=? len -w idx) then
    v ← deref (ato32 (drop (Z.to_nat idx) buf));
    put_idx (idx +w UINT32_SZ);;
    mret v
  else fail WS_BUFFER_E.

Definition GetUint64 : parser Z := fun buf len =>
  hi ← GetUint32 buf len;
  lo ← GetUint32 buf len;
  mret (Z.lor (Z.shiftl hi 32) lo).

Definition GetSize : parser Z := fun buf len =>
  v ← GetUint32 buf len;
  idx ← get;
  if len -w idx <? v then fail WS_BUFFER_E else mret v.

Definition GetSkip : parser unit := fun buf len =>
  sz ← GetSize buf len;
  idx ← get;
  put_idx (idx +w sz).

(** Size and pointer of a string; the pointer of an empty one is NULL. *)
Definition GetStringRef : parser (Z * option bytes) := fun buf len =>
  strSz ← GetUint32 buf len;
  idx ← get;
  if (idx <=? len) && (strSz <=? len -w idx) then
    if truthy strSz then
      put_idx (idx +w strSz);;
      mret (strSz, Some (slice buf idx strSz))
    else mret (strSz, None)
  else fail WS_BUFFER_E.

Definition GetMpint : parser (Z * option bytes) := fun buf len =>
  '(mpintSz, mpint) ← GetStringRef buf len;
  if 0 <? mpintSz then
    b ← deref (p ← mpint; rd p 0);
    if truthy (Z.land b 0x80) then fail WS_PARSE_E else mret (mpintSz, mpint)
  else mret (mpintSz, mpint).

(** The bytes of a string pointer: none when it is NULL. *)
Definition ref_bytes (r : option bytes) : bytes := default [] r.

(** [GetString(s, &sSz, ...)] with a buffer of [sSz] bytes: the bytes stored
    before the terminator, as many as fit. *)
Definition GetString (sSz : Z) : parser bytes := fun buf len =>
  guard_err (sSz =? 0) WS_BUFFER_E;;
  '(strSz, s) ← GetStringRef buf len;
  let sSz' := if sSz <=? strSz then sSz - 1 else strSz in
  mret (if truthy strSz then slice (ref_bytes s) 0 sSz' else []).

(** [GetStringAlloc(heap, &s, &sSz, ...)]; [mem] is whether the allocation
    succeeds. *)
Definition GetStringAlloc (mem : bool) : parser bytes := fun buf len =>
  '(strSz, s) ← GetStringRef buf len;
  guard_err (negb mem) WS_MEMORY_E;;
  mret (if 0 <? strSz then ref_bytes s else []).

(** ** Byte order *)

(** The comparison tells equal prefixes from different ones, whatever the
    arrays hold. *)
Lemma ConstantCompare_iff a b n :
  0 <= n <= blen a -> n <= blen b ->
  exists c, ConstantCompare a b n = Some c /\ (c = 0 <-> slice a 0 n = slice b 0 n).
Proof.
  intros Ha Hb. unfold ConstantCompare, slice, blen in *. cbn [Z.to_nat]. rewrite !drop_0.
  assert (Z.to_nat n <= length a)%nat as Ha' by lia.
  assert (Z.to_nat n <= length b)%nat as Hb' by lia.
  clear Ha Hb. revert Ha' Hb'. generalize (Z.to_nat n) as m. intros m Ha Hb.
  assert (forall s, exists c, ConstantCompare_loop a b m s = Some c /\
    (c = 0 <-> s = 0 /\ take m a = take m b)) as H.
  2: { destruct (H 0) as (c&?&Hc). exists c. rewrite Hc. tauto. }
  revert a b Ha Hb. induction m as [|m IH]; intros [|x a] [|y b] Ha Hb s; cbn in *; try lia;
    try (eexists; split; [done|]; tauto).
  destruct (IH a b ltac:(lia) ltac:(lia) (Z.lor s (Z.lxor x y))) as (c&?&Hc).
  exists c. split; [done|]. rewrite Hc, Z.lor_eq_0_iff, Z.lxor_eq_0_iff.
  split; [intros [[? ->] ->]; done|intros [? [= -> ->]]; done].
Qed.

Lemma land_255 z : Z.land z 0xff = z mod 256.
Proof. change 0xff with (Z.ones 8). by rewrite Z.land_ones by lia. Qed.

Lemma shiftr_div z n : 0 <= n -> Z.shiftr z n = z / 2 ^ n.
Proof. intros. by rewrite Z.shiftr_div_pow2 by lia. Qed.

Lemma div_pow_split z n m : 0 <= m <= n -> z / 2 ^ n = z / 2 ^ m / 2 ^ (n - m).
Proof.
  intros. rewrite Z.div_div, <- Z.pow_add_r by lia. do 2 f_equal. lia.
Qed.

Lemma land_shift8 v c : 0 <= c < 256 -> Z.land (Z.shiftl v 8) c = 0.
Proof.
  intros Hc. rewrite <- (Z.mod_small c (2 ^ 8)), <- Z.land_ones by lia.
  apply Z.bits_inj'; intros n Hn. rewrite !Z.land_spec, Z.bits_0.
  destruct (Z.lt_ge_cases n 8).
  - by rewrite Z.shiftl_spec_low by lia.
  - by rewrite Z.ones_spec_high, !andb_false_r by lia.
Qed.

Lemma lor_shift8 v c : 0 <= c < 256 -> Z.lor (Z.shiftl v 8) c = v * 256 + c.
Proof.
  intros Hc. rewrite <- Z.lxor_lor, <- Z.add_nocarry_lxor by (by apply land_shift8).
  rewrite Z.shiftl_mul_pow2 by lia. lia.
Qed.

Lemma ato32_step v c :
  0 <= v < 2 ^ 24 -> is_byte c ->
  Z.lor (wrap32 (Z.shiftl v 8)) (Z.land c 0xFF) = v * 256 + c.
Proof.
  unfold is_byte. intros Hv Hc. rewrite land_255, (Z.mod_small c 256), wrap32_small by
    (rewrite ?Z.shiftl_mul_pow2 by lia; lia).
  by apply lor_shift8.
Qed.

(** The value [ato32] computes, as a number. *)
Lemma ato32_value c0 c1 c2 c3 r :
  Forall is_byte [c0; c1; c2; c3] ->
  ato32 (c0 :: c1 :: c2 :: c3 :: r)
  = Some (c0 * 2 ^ 24 + c1 * 2 ^ 16 + c2 * 2 ^ 8 + c3).
Proof.
  rewrite !Forall_cons_iff. intros (H0 & H1 & H2 & H3 & _). unfold is_byte in *.
  unfold ato32. f_equal. rewrite Z.lor_0_l, (land_255 c0), (Z.mod_small c0 256) by lia.
  rewrite (ato32_step c0 c1), (ato32_step _ c2), (ato32_step _ c3) by (unfold is_byte; lia).
  lia.
Qed.

Lemma c32toa_bytes u : Forall is_byte (c32toa u).
Proof.
  unfold c32toa. rewrite !Forall_cons_iff. unfold is_byte. rewrite !land_255.
  repeat split; try (apply Z.mod_pos_bound; lia); constructor.
Qed.

Lemma c32toa_length u : blen (c32toa u) = UINT32_SZ.
Proof. done. Qed.

Lemma ato32_c32toa_app u r : is_word32 u -> ato32 (c32toa u ++ r) = Some u.
Proof.
  intros Hu. unfold is_word32 in Hu. pose proof (c32toa_bytes u) as Hb.
  unfold c32toa in *. cbn [app]. rewrite ato32_value by done. f_equal.
  rewrite !land_255, !shiftr_div by lia.
  rewrite (div_pow_split u 24 16), (div_pow_split u 16 8) by lia.
  change (2 ^ (24 - 16)) with 256. change (2 ^ (16 - 8)) with 256. change (2 ^ 8) with 256.
  Z.to_euclidean_division_equations. lia.
Qed.

Lemma c32toa_of_bytes c0 c1 c2 c3 :
  Forall is_byte [c0; c1; c2; c3] ->
  c32toa (c0 * 2 ^ 24 + c1 * 2 ^ 16 + c2 * 2 ^ 8 + c3) = [c0; c1; c2; c3].
Proof.
  rewrite !Forall_cons_iff. intros (H0 & H1 & H2 & H3 & _). unfold is_byte in *.
  unfold c32toa. rewrite !land_255, !shiftr_div by lia.
  repeat f_equal; Z.to_euclidean_division_equations; lia.
Qed.

Lemma ato32_range c v : Forall is_byte c -> ato32 c = Some v -> is_word32 v.
Proof.
  intros Hc H. destruct c as [|c0 [|c1 [|c2 [|c3 r]]]]; try done.
  rewrite ato32_value in H.
  - injection H as <-. rewrite !Forall_cons_iff in Hc. unfold is_byte, is_word32 in *. lia.
  - rewrite !Forall_cons_iff in Hc |- *. repeat split; try constructor; apply Hc.
Qed.

(** ** What every reader guarantees *)

(** A message a handler is given: [len] bytes of the input buffer. *)
Record msg_ok (buf : bytes) (len : Z) : Prop := {
  msg_len : is_word32 len;
  msg_room : len <= blen buf;
  msg_bytes : Forall is_byte buf
}.

(** A reader stays inside the message: no undefined behaviour, the index never
    moves back, and on success it is still within the message. *)
Class SafeReader {A} (p : parser A) : Prop :=
  reader_safe : forall buf len idx, msg_ok buf len -> is_word32 idx ->
    match p buf len idx with
    | (Ok _, i) => idx <= i <= len
    | (Err _, i) => idx <= i < 2 ^ 32
    | (UB, _) => False
    end.

Lemma GetUint32_spec buf len idx :
  msg_ok buf len -> is_word32 idx ->
  (idx + UINT32_SZ <= len /\
   exists v, is_word32 v /\ ato32 (drop (Z.to_nat idx) buf) = Some v /\
     GetUint32 buf len idx = (Ok v, idx + UINT32_SZ))
  \/ (len < idx + UINT32_SZ /\ GetUint32 buf len idx = (Err WS_BUFFER_E, idx)).
Proof.
  intros [Hl Hr Hb] Hi. unfold is_word32, UINT32_SZ in *.
  unfold GetUint32, get, mbind, ST_bind.
  destruct (Z.ltb_spec idx len); cbn [andb]; [|right; split; [lia|done]].
  rewrite wrap32_small by lia.
  destruct (Z.leb_spec UINT32_SZ (len - idx)); unfold UINT32_SZ in *;
    [|right; split; [lia|done]].
  left. split; [lia|].
  assert (exists v, ato32 (drop (Z.to_nat idx) buf) = Some v) as [v Hv].
  { assert (4 <= length (drop (Z.to_nat idx) buf))%nat.
    { rewrite length_drop. unfold blen in *. lia. }
    destruct (drop (Z.to_nat idx) buf) as [|c0 [|c1 [|c2 [|c3 r]]]]; cbn in *; try lia.
    eexists; done. }
  exists v. split; [|split; [done|]].
  - eapply ato32_range; [|done]. by apply Forall_drop.
  - rewrite Hv. cbn. by rewrite wrap32_small by (unfold UINT32_SZ; lia).
Qed.

#[export] Instance GetUint32_safe : SafeReader GetUint32.
Proof.
  intros buf len idx Hm Hi.
  destruct (GetUint32_spec buf len idx Hm Hi) as [(?&v&?&?&->)|[? ->]];
    clia.
Qed.

#[export] Instance GetBoolean_safe : SafeReader GetBoolean.
Proof.
  intros buf len idx [Hl Hr Hb] Hi. unfold is_word32 in *.
  unfold GetBoolean, get, mbind, ST_bind.
  destruct (Z.ltb_spec idx len); [|cbn; lia].
  destruct (rd_some buf idx) as [b ->]; [lia|]. cbn.
  rewrite wrap32_small; unfold BOOLEAN_SZ; lia.
Qed.

Lemma GetSize_spec buf len idx :
  msg_ok buf len -> is_word32 idx ->
  (exists v, is_word32 v /\ idx + UINT32_SZ + v <= len /\
     GetSize buf len idx = (Ok v, idx + UINT32_SZ))
  \/ (exists i, idx <= i < 2 ^ 32 /\ GetSize buf len idx = (Err WS_BUFFER_E, i)).
Proof.
  intros Hm Hi. pose proof (msg_len _ _ Hm).
  unfold GetSize, mbind, ST_bind, get.
  destruct (GetUint32_spec buf len idx Hm Hi) as [(Hle&v&Hv&_&->)|[Hlt ->]].
  - rewrite wrap32_small by clia.
    destruct (Z.ltb_spec (len - (idx + UINT32_SZ)) v).
    + right. exists (idx + UINT32_SZ). split; [clia|done].
    + left. exists v. split; [done|]. split; [lia|done].
  - right. exists idx. split; [clia|done].
Qed.

Lemma GetStringRef_spec buf len idx :
  msg_ok buf len -> is_word32 idx ->
  (exists sz, is_word32 sz /\ idx + UINT32_SZ + sz <= len /\
     ato32 (drop (Z.to_nat idx) buf) = Some sz /\
     GetStringRef buf len idx =
       (Ok (sz, if sz =? 0 then None else Some (slice buf (idx + UINT32_SZ) sz)),
        idx + UINT32_SZ + sz))
  \/ (exists i, idx <= i < 2 ^ 32 /\ GetStringRef buf len idx = (Err WS_BUFFER_E, i)).
Proof.
  intros Hm Hi. pose proof (msg_len _ _ Hm).
  unfold GetStringRef, mbind, ST_bind, get.
  destruct (GetUint32_spec buf len idx Hm Hi) as [(Hle&v&Hv&Ha&->)|[Hlt ->]].
  - destruct (Z.leb_spec (idx + UINT32_SZ) len); [|lia].
    rewrite wrap32_small by clia. cbn [andb].
    destruct (Z.leb_spec v (len - (idx + UINT32_SZ))).
    + left. exists v. repeat (split; [done || lia|]). unfold truthy.
      destruct (Z.eqb_spec v 0) as [->|]; cbn.
      * by rewrite Z.add_0_r.
      * rewrite wrap32_small by clia. done.
    + right. exists (idx + UINT32_SZ). split; [clia|done].
  - right. exists idx. split; [clia|done].
Qed.

#[export] Instance GetSize_safe : SafeReader GetSize.
Proof.
  intros buf len idx Hm Hi.
  destruct (GetSize_spec buf len idx Hm Hi) as [(v&?&?&->)|(i&?&->)];
    clia.
Qed.

#[export] Instance GetStringRef_safe : SafeReader GetStringRef.
Proof.
  intros buf len idx Hm Hi.
  destruct (GetStringRef_spec buf len idx Hm Hi) as [(v&?&?&?&->)|(i&?&->)];
    clia.
Qed.

(** Readers in sequence are as safe as their parts. *)
Lemma safe_bind {A B} (p : parser A) (k : A -> parser B) :
  SafeReader p -> (forall a, SafeReader (k a)) ->
  SafeReader (fun buf len => p buf len ≫= fun a => k a buf len).
Proof.
  intros Hp Hk buf len idx Hm Hi. unfold mbind, ST_bind.
  pose proof (Hp buf len idx Hm Hi) as H.
  destruct (p buf len idx) as [[a|e|] i]; try done.
  assert (is_word32 i) as Hi'.
  { pose proof (msg_len _ _ Hm). clia. }
  pose proof (Hk a buf len i Hm Hi') as H'.
  destruct (k a buf len i) as [[]]; try done; lia.
Qed.


#[export] Instance GetUint64_safe : SafeReader GetUint64.
Proof.
  intros buf len idx Hm Hi. unfold GetUint64, mbind, ST_bind.
  pose proof (reader_safe (p := GetUint32) buf len idx Hm Hi) as H.
  destruct (GetUint32 buf len idx) as [[a|e|] i]; try done.
  assert (is_word32 i) as Hi' by (pose proof (msg_len _ _ Hm); clia).
  pose proof (reader_safe (p := GetUint32) buf len i Hm Hi') as H'.
  destruct (GetUint32 buf len i) as [[b|e|] j]; cbn; try done; lia.
Qed.

#[export] Instance GetSkip_safe : SafeReader GetSkip.
Proof.
  intros buf len idx Hm Hi. unfold GetSkip, mbind, ST_bind, get.
  pose proof (msg_len _ _ Hm).
  destruct (GetSize_spec buf len idx Hm Hi) as [(v&?&?&->)|(i&?&->)]; [|done].
  cbn. rewrite wrap32_small; clia.
Qed.

#[export] Instance GetMpint_safe : SafeReader GetMpint.
Proof.
  intros buf len idx Hm Hi. pose proof (msg_len _ _ Hm).
  unfold GetMpint, mbind, ST_bind.
  destruct (GetStringRef_spec buf len idx Hm Hi) as [(v&Hv&Hle&_&->)|(i&?&->)]; [|done].
  unfold is_word32, UINT32_SZ in *.
  destruct (Z.eqb_spec v 0) as [->|Hv0]; [cbn; lia|].
  destruct (Z.ltb_spec 0 v); [|lia].
  assert (blen (slice buf (idx + 4) v) = v).
  { apply blen_slice; try lia. pose proof (msg_room _ _ Hm). lia. }
  destruct (rd_some (slice buf (idx + 4) v) 0) as [b Hb]; [lia|].
  cbn [option_bind mbind]. rewrite Hb. cbn. destruct (truthy _); cbn; lia.
Qed.

#[export] Instance GetString_safe sSz : SafeReader (GetString sSz).
Proof.
  intros buf len idx Hm Hi. unfold GetString, guard_err, mbind, ST_bind.
  pose proof (msg_len _ _ Hm). pose proof (reader_safe (p := GetStringRef) buf len idx Hm Hi) as H'.
  destruct (sSz =? 0); [cbn; clia|]. cbn -[GetStringRef].
  destruct (GetStringRef buf len idx) as [[[]| |] ?]; cbn; done.
Qed.

#[export] Instance GetStringAlloc_safe mem : SafeReader (GetStringAlloc mem).
Proof.
  intros buf len idx Hm Hi. unfold GetStringAlloc, guard_err, mbind, ST_bind.
  pose proof (msg_len _ _ Hm). pose proof (reader_safe (p := GetStringRef) buf len idx Hm Hi) as H'.
  destruct (GetStringRef buf len idx) as [[[]| |] ?]; cbn; try done.
  destruct mem; cbn; [done|]. clia.
Qed.

(** ** Encodings *)

(** A data type of the wire: how it is written, and the reader that must get
    it back at any place of any message that holds it. *)
Class Codec {A : Type} (encode : A -> bytes) (encodable : A -> Prop) (reader : parser A) : Prop :=
  codec_read : forall a before after len,
    encodable a ->
    blen before + blen (encode a) <= len ->
    is_word32 len ->
    reader (before ++ encode a ++ after) len (blen before)
    = (Ok a, blen before + blen (encode a)).

Definition encode_bool (b : Z) : bytes := [b2z (truthy b)].
Definition encode_uint64 (v : Z) : bytes := c32toa (Z.shiftr v 32) ++ c32toa (Z.land v (Z.ones 32)).
Definition encode_string (s : bytes) : bytes := c32toa (blen s) ++ s.

Lemma drop_before (before r : bytes) : drop (Z.to_nat (blen before)) (before ++ r) = r.
Proof. unfold blen. by rewrite Nat2Z.id, drop_app_length. Qed.

#[export] Instance Codec_uint32 : Codec c32toa is_word32 GetUint32.
Proof.
  intros v p s len Hv Hlen Hl. rewrite c32toa_length in *. pose proof (blen_nonneg p).
  unfold GetUint32, mbind, ST_bind, get.
  destruct (Z.ltb_spec (blen p) len); [|clia].
  rewrite wrap32_small by clia. cbn [andb].
  destruct (Z.leb_spec UINT32_SZ (len - blen p)); [|clia].
  rewrite drop_before, ato32_c32toa_app by done. cbn.
  by rewrite wrap32_small by clia.
Qed.

#[export] Instance Codec_bool : Codec encode_bool (fun b => b = 0 \/ b = 1) GetBoolean.
Proof.
  intros v p s len Hv Hlen Hl. change (blen (encode_bool v)) with 1 in *.
  pose proof (blen_nonneg p). unfold GetBoolean, mbind, ST_bind, get, encode_bool.
  destruct (Z.ltb_spec (blen p) len); [|clia].
  replace (blen p) with (blen p + 0) at 1 by lia.
  rewrite rd_app_r by lia. cbn. rewrite wrap32_small by clia.
  by destruct Hv as [-> | ->].
Qed.

(** The pointer [GetStringRef] returns for a string it finds. *)
Definition string_ref (s : bytes) : option bytes :=
  if blen s =? 0 then None else Some s.

Lemma ref_bytes_string_ref s : ref_bytes (string_ref s) = s.
Proof.
  unfold string_ref. destruct (Z.eqb_spec (blen s) 0) as [H|]; [|done].
  destruct s; [done|]. unfold blen in H. cbn in H. lia.
Qed.

Lemma blen_encode_string s : blen (encode_string s) = UINT32_SZ + blen s.
Proof. unfold encode_string. by rewrite blen_app, c32toa_length. Qed.

Lemma GetStringRef_encoded s p r len :
  blen p + blen (encode_string s) <= len -> is_word32 len ->
  GetStringRef (p ++ encode_string s ++ r) len (blen p)
  = (Ok (blen s, string_ref s), blen p + blen (encode_string s)).
Proof.
  intros Hlen Hl. rewrite blen_encode_string in *.
  pose proof (blen_nonneg p). pose proof (blen_nonneg s).
  unfold GetStringRef, encode_string. rewrite <- app_assoc.
  erewrite ST_bind_ok by (apply (codec_read (reader := GetUint32)); [clia| |done];
    rewrite c32toa_length; clia).
  rewrite c32toa_length. unfold mbind, ST_bind, get.
  destruct (Z.leb_spec (blen p + UINT32_SZ) len); [|clia].
  rewrite wrap32_small by clia. cbn [andb].
  destruct (Z.leb_spec (blen s) (len - (blen p + UINT32_SZ))); [|clia].
  unfold truthy, string_ref. destruct (Z.eqb_spec (blen s) 0) as [E|E]; cbn [negb].
  - rewrite E. unfold mret, ST_ret. done.
  - rewrite wrap32_small by clia. unfold put_idx, modify, mret, ST_ret.
    f_equal; [|lia]. do 3 f_equal.
    rewrite app_assoc. replace (blen p + UINT32_SZ) with (blen (p ++ c32toa (blen s))).
    + apply slice_app_here.
    + by rewrite blen_app, c32toa_length.
Qed.

#[export] Instance Codec_string :
  Codec encode_string (fun s => is_word32 (blen s)) (GetStringAlloc true).
Proof.
  intros s p r len Hs Hlen Hl. unfold GetStringAlloc.
  erewrite ST_bind_ok by (by apply GetStringRef_encoded).
  unfold guard_err. cbn. destruct (Z.ltb_spec 0 (blen s)).
  - by rewrite ref_bytes_string_ref.
  - destruct s; [done|]. unfold blen in *. cbn in *. lia.
Qed.

(** Two values one after the other. *)
Definition GetPair {A B} (p : parser A) (q : parser B) : parser (A * B) := fun buf len =>
  a ← p buf len; b ← q buf len; mret (a, b).

#[export] Instance Codec_pair {A B} (ea : A -> bytes) (eb : B -> bytes) Pa Pb ra rb :
  Codec ea Pa ra -> Codec eb Pb rb ->
  Codec (fun '(a, b) => ea a ++ eb b) (fun '(a, b) => Pa a /\ Pb b) (GetPair ra rb).
Proof.
  intros Ha Hb [a b] p r len [HPa HPb] Hlen Hl. rewrite blen_app in *.
  pose proof (blen_nonneg (eb b)). unfold GetPair. rewrite <- app_assoc.
  erewrite ST_bind_ok by (apply Ha; [done|lia|done]).
  rewrite app_assoc. rewrite <- (blen_app p).
  erewrite ST_bind_ok by (apply Hb; [done|rewrite blen_app; lia|done]).
  unfold mret, ST_ret. rewrite blen_app. f_equal. lia.
Qed.
