(* ===== verification/Names.v ===== *)
(** Algorithm names (internal.c, [NameIdMap] to [CheckAlgoList],
    [GetNameListRaw], [MatchIdLists], [BuildNameList]): the name table, the
    validation of configured lists, the decoding and building of name-lists
    and the choice of a common algorithm. *)

From S2P Require Import Prelude Codes Wire.

(** ** The name table *)

Definition NameIdMap : list (AlgoId * NameIdType * bytes) :=
  [(ID_NONE, TYPE_OTHER, str "none");
   (ID_AES128_CBC, TYPE_CIPHER, str "aes128-cbc");
   (ID_AES192_CBC, TYPE_CIPHER, str "aes192-cbc");
   (ID_AES256_CBC, TYPE_CIPHER, str "aes256-cbc");
   (ID_AES128_CTR, TYPE_CIPHER, str "aes128-ctr");
   (ID_AES192_CTR, TYPE_CIPHER, str "aes192-ctr");
   (ID_AES256_CTR, TYPE_CIPHER, str "aes256-ctr");
   (ID_AES128_GCM, TYPE_CIPHER, str "aes128-gcm@openssh.com");
   (ID_AES192_GCM, TYPE_CIPHER, str "aes192-gcm@openssh.com");
   (ID_AES256_GCM, TYPE_CIPHER, str "aes256-gcm@openssh.com");
   (ID_HMAC_SHA1, TYPE_MAC, str "hmac-sha1");
   (ID_HMAC_SHA1_96, TYPE_MAC, str "hmac-sha1-96");
   (ID_HMAC_SHA2_256, TYPE_MAC, str "hmac-sha2-256");
   (ID_HMAC_SHA2_512, TYPE_MAC, str "hmac-sha2-512");
   (ID_DH_GROUP1_SHA1, TYPE_KEX, str "diffie-hellman-group1-sha1");
   (ID_DH_GROUP14_SHA1, TYPE_KEX, str "diffie-hellman-group14-sha1");
   (ID_DH_GROUP14_SHA256, TYPE_KEX, str "diffie-hellman-group14-sha256");
   (ID_DH_GROUP16_SHA512, TYPE_KEX, str "diffie-hellman-group16-sha512");
   (ID_DH_GEX_SHA256, TYPE_KEX, str "diffie-hellman-group-exchange-sha256");
   (ID_ECDH_SHA2_NISTP256, TYPE_KEX, str "ecdh-sha2-nistp256");
   (ID_ECDH_SHA2_NISTP384, TYPE_KEX, str "ecdh-sha2-nistp384");
   (ID_ECDH_SHA2_NISTP521, TYPE_KEX, str "ecdh-sha2-nistp521");
   (ID_NISTP256_MLKEM768_SHA256, TYPE_KEX, str "mlkem768nistp256-sha256");
   (ID_NISTP384_MLKEM1024_SHA384, TYPE_KEX, str "mlkem1024nistp384-sha384");
   (ID_CURVE25519_MLKEM768_SHA256, TYPE_KEX, str "mlkem768x25519-sha256");
   (ID_CURVE25519_SHA256, TYPE_KEX, str "curve25519-sha256");
   (ID_CURVE25519_SHA256_LIBSSH, TYPE_KEX, str "curve25519-sha256@libssh.org");
   (ID_EXT_INFO_S, TYPE_OTHER, str "ext-info-s");
   (ID_EXT_INFO_C, TYPE_OTHER, str "ext-info-c");
   (ID_EXT_STRICT_KEX_S, TYPE_OTHER, str "kex-strict-s");
   (ID_EXT_STRICT_KEX_C, TYPE_OTHER, str "kex-strict-c");
   (ID_EXT_PRE_STRICT_KEX_S, TYPE_OTHER, str "kex-strict-s-v00@openssh.com");
   (ID_EXT_PRE_STRICT_KEX_C, TYPE_OTHER, str "kex-strict-c-v00@openssh.com");
   (ID_SSH_RSA, TYPE_KEY, str "ssh-rsa");
   (ID_RSA_SHA2_256, TYPE_KEY, str "rsa-sha2-256");
   (ID_RSA_SHA2_512, TYPE_KEY, str "rsa-sha2-512");
   (ID_ECDSA_SHA2_NISTP256, TYPE_KEY, str "ecdsa-sha2-nistp256");
   (ID_ECDSA_SHA2_NISTP384, TYPE_KEY, str "ecdsa-sha2-nistp384");
   (ID_ECDSA_SHA2_NISTP521, TYPE_KEY, str "ecdsa-sha2-nistp521");
   (ID_ED25519, TYPE_KEY, str "ssh-ed25519");
   (ID_MLDSA44, TYPE_KEY, str "ssh-mldsa-44");
   (ID_MLDSA44_ES256, TYPE_KEY, str "ssh-mldsa44-es256@wolfssl.com");
   (ID_MLDSA65_ES256, TYPE_KEY, str "ssh-mldsa65-es256@wolfssl.com");
   (ID_MLDSA87_ES384, TYPE_KEY, str "ssh-mldsa87-es384@wolfssl.com");
   (ID_MLDSA44_ED25519, TYPE_KEY, str "ssh-mldsa44-ed25519@openssh.com");
   (ID_MLDSA65_ED25519, TYPE_KEY, str "ssh-mldsa65-ed25519@wolfssl.com");
   (ID_MLDSA87_ED448, TYPE_KEY, str "ssh-mldsa87-ed448@wolfssl.com");
   (ID_MLDSA65, TYPE_KEY, str "ssh-mldsa-65");
   (ID_MLDSA87, TYPE_KEY, str "ssh-mldsa-87");
   (ID_X509V3_MLDSA44, TYPE_KEY, str "x509v3-ssh-mldsa-44");
   (ID_X509V3_MLDSA65, TYPE_KEY, str "x509v3-ssh-mldsa-65");
   (ID_X509V3_MLDSA87, TYPE_KEY, str "x509v3-ssh-mldsa-87");
   (ID_X509V3_SSH_RSA, TYPE_KEY, str "x509v3-ssh-rsa");
   (ID_X509V3_ECDSA_SHA2_NISTP256, TYPE_KEY, str "x509v3-ecdsa-sha2-nistp256");
   (ID_X509V3_ECDSA_SHA2_NISTP384, TYPE_KEY, str "x509v3-ecdsa-sha2-nistp384");
   (ID_X509V3_ECDSA_SHA2_NISTP521, TYPE_KEY, str "x509v3-ecdsa-sha2-nistp521");
   (ID_OSSH_CERT_RSA, TYPE_KEY, str "ssh-rsa-cert-v01@openssh.com");
   (ID_OSSH_CERT_RSA, TYPE_KEY, str "rsa-sha2-256-cert-v01@openssh.com");
   (ID_OSSH_CERT_RSA, TYPE_KEY, str "rsa-sha2-512-cert-v01@openssh.com");
   (ID_OSSH_CERT_ECDSA_SHA2_NISTP256, TYPE_KEY, str "ecdsa-sha2-nistp256-cert-v01@openssh.com");
   (ID_OSSH_CERT_ECDSA_SHA2_NISTP384, TYPE_KEY, str "ecdsa-sha2-nistp384-cert-v01@openssh.com");
   (ID_OSSH_CERT_ECDSA_SHA2_NISTP521, TYPE_KEY, str "ecdsa-sha2-nistp521-cert-v01@openssh.com");
   (ID_OSSH_CERT_ED25519, TYPE_KEY, str "ssh-ed25519-cert-v01@openssh.com");
   (ID_SERVICE_USERAUTH, TYPE_OTHER, str "ssh-userauth");
   (ID_SERVICE_CONNECTION, TYPE_OTHER, str "ssh-connection");
   (ID_USERAUTH_PASSWORD, TYPE_OTHER, str "password");
   (ID_USERAUTH_PUBLICKEY, TYPE_OTHER, str "publickey");
   (ID_USERAUTH_KEYBOARD, TYPE_OTHER, str "keyboard-interactive");
   (ID_CHANTYPE_SESSION, TYPE_OTHER, str "session");
   (ID_CHANTYPE_TCPIP_FORWARD, TYPE_OTHER, str "forwarded-tcpip");
   (ID_CHANTYPE_TCPIP_DIRECT, TYPE_OTHER, str "direct-tcpip");
   (ID_CHANTYPE_AUTH_AGENT, TYPE_OTHER, str "auth-agent@openssh.com");
   (ID_GLOBREQ_TCPIP_FWD, TYPE_OTHER, str "tcpip-forward");
   (ID_GLOBREQ_TCPIP_FWD_CANCEL, TYPE_OTHER, str "cancel-tcpip-forward");
   (ID_EXTINFO_SERVER_SIG_ALGS, TYPE_OTHER, str "server-sig-algs");
   (ID_CURVE_NISTP256, TYPE_OTHER, str "nistp256");
   (ID_CURVE_NISTP384, TYPE_OTHER, str "nistp384");
   (ID_CURVE_NISTP521, TYPE_OTHER, str "nistp521")].

(** [NameToIdType(name, nameSz, &type)]: [name] is the [nameSz] bytes, [None]
    a NULL pointer; the type is only assigned on a match. *)
Fixpoint NameToIdType_loop (name : bytes) (map : list (AlgoId * NameIdType * bytes))
    : AlgoId * option NameIdType :=
  match map with
  | [] => (ID_UNKNOWN, None)
  | (id, ty, n) :: map' =>
    if bytes_eqb name n then (id, Some ty) else NameToIdType_loop name map'
  end.

Definition NameToIdType (name : option bytes) : AlgoId * option NameIdType :=
  match name with
  | None => (ID_UNKNOWN, None)
  | Some n => NameToIdType_loop n NameIdMap
  end.

Definition NameToId (name : bytes) : AlgoId := fst (NameToIdType (Some name)).

Fixpoint IdToName_loop (id : AlgoId) (map : list (AlgoId * NameIdType * bytes)) : bytes :=
  match map with
  | [] => str "unknown"
  | (i, _, n) :: map' => if id_eqb i id then n else IdToName_loop id map'
  end.

Definition IdToName (id : AlgoId) : bytes := IdToName_loop id NameIdMap.

(** [NameByIndexType(type, &idx)]: the next name of the category from [*idx]
    on, NULL at the end, and the new [*idx]. *)
Fixpoint NameByIndexType_loop (type : NameIdType) (i : Z)
    (map : list (AlgoId * NameIdType * bytes)) : option bytes * Z :=
  match map with
  | [] => (None, i + 1)
  | (_, ty, n) :: map' =>
    if decide (ty = type) then (Some n, i + 1) else NameByIndexType_loop type (i + 1) map'
  end.

Definition NameByIndexType (type : NameIdType) (idx : Z) : option bytes * Z :=
  let mapSz := blen NameIdMap in
  if idx <? mapSz
  then NameByIndexType_loop type idx (drop (Z.to_nat idx) NameIdMap)
  else (None, idx + 1).

(** ** Validation of a configured list *)

Definition comma : Z := 44.

(** The characters of one name: printable, no space, at most one '@' and that
    one with text on both sides. *)
Fixpoint name_chars_ok (name : bytes) (j nameSz atCount : Z) : bool :=
  match name with
  | [] => true
  | c :: name' =>
    if (c <=? 0x20) || (0x7F <=? c) then false
    else if c =? 64 then
      let atCount := atCount + 1 in
      if (1 <? atCount) || (j =? 0) || (j =? nameSz - 1) then false
      else name_chars_ok name' (j + 1) nameSz atCount
    else name_chars_ok name' (j + 1) nameSz atCount
  end.

(** One element of the list, ended at index [i] by a comma or ([last]) by the
    end of the list: the new count of usable names, or [None] to reject. *)
Definition CheckAlgoList_name (type : NameIdType) (name : bytes) (i : Z) (last : bool)
    (usableCount : Z) : option Z :=
  if blen name =? 0 then
    if negb last || (i =? 0) then None else Some usableCount
  else if WOLFSSH_MAX_ALGO_NAME_SZ <? blen name then None
  else if negb (name_chars_ok name 0 (blen name) 0) then None
  else
    let '(id, tokenType) := NameToIdType (Some name) in
    if id_eqb id ID_NONE then None
    else if negb (id_eqb id ID_UNKNOWN) then
      if decide (default TYPE_OTHER tokenType = type)
      then Some (usableCount + 1) else None
    else Some usableCount.

Fixpoint CheckAlgoList_loop (type : NameIdType) (rest : bytes) (i : Z) (name : bytes)
    (usableCount : Z) : option Z :=
  match rest with
  | [] => CheckAlgoList_name type name i true usableCount
  | c :: rest' =>
    if c =? comma then
      match CheckAlgoList_name type name i false usableCount with
      | None => None
      | Some u => CheckAlgoList_loop type rest' (i + 1) [] u
      end
    else CheckAlgoList_loop type rest' (i + 1) (name ++ [c]) usableCount
  end.

Definition CheckAlgoList (list : option bytes) (type : NameIdType) : Z :=
  match list with
  | None => WS_INVALID_ALGO_ID
  | Some l =>
    match CheckAlgoList_loop type (cstr l) 0 [] 0 with
    | None => WS_INVALID_ALGO_ID
    | Some usableCount => if usableCount =? 0 then WS_INVALID_ALGO_ID else WS_SUCCESS
    end
  end.

(** [AlgoListSz]: the length of a list without one trailing comma. *)
Definition AlgoListSz (algoList : option bytes) : Z :=
  match algoList with
  | None => 0
  | Some l =>
    let algoListSz := blen (cstr l) in
    if (0 <? algoListSz) && bool_decide (rd (cstr l) (algoListSz - 1) = Some comma)
    then algoListSz - 1 else algoListSz
  end.

(** ** Decoding a name-list *)

Inductive gnl_step : Type :=
| GnlStop
| GnlBad
| GnlNext (tokenCount : Z) (idList : list AlgoId).

(** One element: the empty one ends the list, unknown names are skipped except
    as the first id. [idListSz] is the capacity. *)
Definition GetNameListRaw_name (idListSz : Z) (name : bytes) (tokenCount : Z)
    (idList : list AlgoId) : gnl_step :=
  if blen name =? 0 then GnlStop
  else if WOLFSSH_MAX_NAMELIST_CNT <? tokenCount + 1 then GnlBad
  else
    let id := NameToId name in
    if negb (id_eqb id ID_UNKNOWN) || (blen idList =? 0) then
      if idListSz <=? blen idList then GnlBad
      else GnlNext (tokenCount + 1) (idList ++ [id])
    else GnlNext (tokenCount + 1) idList.

Fixpoint GetNameListRaw_loop (idListSz : Z) (rest name : bytes) (tokenCount : Z)
    (idList : list AlgoId) : res (list AlgoId) :=
  match rest with
  | [] =>
    match GetNameListRaw_name idListSz name tokenCount idList with
    | GnlStop => Ok idList
    | GnlBad => Err WS_BUFFER_E
    | GnlNext _ ids => Ok ids
    end
  | c :: rest' =>
    if c =? comma then
      match GetNameListRaw_name idListSz name tokenCount idList with
      | GnlStop => Ok idList
      | GnlBad => Err WS_BUFFER_E
      | GnlNext n ids => GetNameListRaw_loop idListSz rest' [] n ids
      end
    else GetNameListRaw_loop idListSz rest' (name ++ [c]) tokenCount idList
  end.

(** [GetNameListRaw(idList, &idListSz, nameList, nameListSz)]: the ids stored
    in a list of capacity [idListSz]. *)
Definition GetNameListRaw (idListSz : Z) (nameList : option bytes) (nameListSz : Z)
    : res (list AlgoId) :=
  match nameList with
  | None => if 0 <? nameListSz then Err WS_BAD_ARGUMENT else
      GetNameListRaw_loop idListSz [] [] 0 []
  | Some l =>
    if WOLFSSH_MAX_NAMELIST_SZ <? nameListSz then Err WS_BUFFER_E
    else GetNameListRaw_loop idListSz (slice l 0 nameListSz) [] 0 []
  end.

Definition GetNameList (idListSz : Z) : parser (list AlgoId) := fun buf len =>
  guard_err (len =? 0) WS_BAD_ARGUMENT;;
  '(nameListSz, nameList) ← GetStringRef buf len;
  lift_res (GetNameListRaw idListSz nameList nameListSz).

(** ** Choosing an algorithm *)

Fixpoint MatchIdLists_loop (client server : list AlgoId) : AlgoId :=
  match client with
  | [] => ID_UNKNOWN
  | l :: client' =>
    if existsb (id_eqb l) server then l else MatchIdLists_loop client' server
  end.

(** The first list walked is the client's: on a client the two arguments are
    swapped. *)
Definition MatchIdLists (side : Z) (lhs rhs : list AlgoId) : AlgoId :=
  let '(lhs, rhs) :=
    if side =? WOLFSSH_ENDPOINT_CLIENT then (rhs, lhs) else (lhs, rhs) in
  if (0 <? blen lhs) && (0 <? blen rhs) then MatchIdLists_loop lhs rhs
  else ID_UNKNOWN.

(** ** Building a name-list *)

(** The [do] loop of [BuildNameList]: [out] is what has been written, [idx] its
    length; with a NULL [buf] ([bufSz = None]) only the length is counted. *)
Fixpoint BuildNameList_loop (bufSz : option Z) (src : list AlgoId) (idx : Z) (out : bytes)
    : Z * bytes :=
  match src with
  | [] => (idx, out)
  | id :: src' =>
    let name := IdToName id in
    let nameSz := blen name in
    match bufSz with
    | Some sz =>
      if sz <? nameSz + 1 + idx then (WS_BUFFER_E, out)
      else
        let out := out ++ name ++ [if 0 <? blen src' then comma else 0] in
        BuildNameList_loop bufSz src' (idx + nameSz + 1) out
    | None => BuildNameList_loop bufSz src' (idx + (nameSz + 1)) out
    end
  end.

(** The return value and the bytes written to [buf]. *)
Definition BuildNameList (bufSz : option Z) (src : list AlgoId) : Z * bytes :=
  if blen src =? 0 then
    (0, match bufSz with Some sz => if 0 <? sz then [0] else [] | None => [] end)
  else
    let '(idx, out) := BuildNameList_loop bufSz src 0 [] in
    (idx - 1, out).

(** ** The table *)

Definition entry_name (e : AlgoId * NameIdType * bytes) : bytes := snd e.
Definition entry_id (e : AlgoId * NameIdType * bytes) : AlgoId := fst (fst e).

Lemma table_lookup_all :
  forallb (fun '(id, ty, n) =>
    let '(id', ty') := NameToIdType (Some n) in
    id_eqb id id' && bool_decide (ty' = Some ty)) NameIdMap = true.
Proof. by vm_compute. Qed.

Lemma NameToIdType_entry id ty n :
  (id, ty, n) ∈ NameIdMap -> NameToIdType (Some n) = (id, Some ty).
Proof.
  intros Hin%list_elem_of_In.
  pose proof (proj1 (forallb_forall _ _) table_lookup_all _ Hin) as H. cbn beta iota in H.
  destruct (NameToIdType (Some n)) as [id' ty'].
  apply andb_true_iff in H as [->%id_eqb_spec ->%bool_decide_eq_true]. done.
Qed.

Lemma NameToIdType_loop_elem name map id ty :
  NameToIdType_loop name map = (id, Some ty) -> (id, ty, name) ∈ map.
Proof.
  induction map as [|[[i t] n] map IH]; cbn; [congruence|].
  destruct (bytes_eqb name n) eqn:E.
  - apply bytes_eqb_spec in E as ->. intros [= -> ->]. constructor.
  - intros H. constructor. by apply IH.
Qed.

Lemma NameToIdType_loop_none name map :
  (NameToIdType_loop name map).2 = None -> (NameToIdType_loop name map).1 = ID_UNKNOWN.
Proof.
  induction map as [|[[i t] n] map IH]; cbn; [done|]. by destruct (bytes_eqb name n).
Qed.

(** Looking a name up finds its row, and nothing else is found. *)
Lemma NameToIdType_iff name id ty :
  NameToIdType (Some name) = (id, Some ty) <-> (id, ty, name) ∈ NameIdMap.
Proof.
  split; [apply NameToIdType_loop_elem|apply NameToIdType_entry].
Qed.

Definition id_named (id : AlgoId) : bool := existsb (fun e => id_eqb (entry_id e) id) NameIdMap.

Lemma IdToName_back_all :
  forallb (fun id => negb (id_named id) || id_eqb (NameToId (IdToName id)) id) all_ids = true.
Proof. by vm_compute. Qed.

Lemma elem_of_all_ids id : id ∈ all_ids.
Proof. eapply list_elem_of_lookup_2, all_ids_code. Qed.

Lemma NameToId_IdToName id : id_named id = true -> NameToId (IdToName id) = id.
Proof.
  intros Hn.
  pose proof (proj1 (forallb_forall _ _) IdToName_back_all id
    (proj1 (list_elem_of_In _ _) (elem_of_all_ids id))) as H.
  cbv beta in H. rewrite Hn in H. by apply id_eqb_spec.
Qed.

(** What the builder relies on: every name printed is short, non-empty and
    free of commas, whatever the id. *)
Definition name_ok (n : bytes) : bool :=
  (1 <=? blen n) && (blen n <=? 64) && forallb (fun c => negb (c =? comma)) n.

Lemma IdToName_ok_all : forallb (fun id => name_ok (IdToName id)) all_ids = true.
Proof. by vm_compute. Qed.

Lemma IdToName_ok id : name_ok (IdToName id) = true.
Proof.
  apply (proj1 (forallb_forall _ _) IdToName_ok_all), list_elem_of_In, elem_of_all_ids.
Qed.

(** ** Comma separated lists *)

Fixpoint split_loop (rest name : bytes) : list bytes :=
  match rest with
  | [] => [name]
  | c :: rest' => if c =? comma then name :: split_loop rest' [] else split_loop rest' (name ++ [c])
  end.
Definition split_commas (s : bytes) : list bytes := split_loop s [].

Fixpoint names_until_empty (toks : list bytes) : list bytes :=
  match toks with
  | [] => []
  | t :: ts => if blen t =? 0 then [] else t :: names_until_empty ts
  end.

(** The ids a list of names stands for: the known ones, and the first one
    whatever it is. *)
Fixpoint name_ids (first : bool) (names : list bytes) : list AlgoId :=
  match names with
  | [] => []
  | t :: ts =>
    if negb (id_eqb (NameToId t) ID_UNKNOWN) || first
    then NameToId t :: name_ids false ts else name_ids false ts
  end.

Lemma split_loop_nonempty rest name : split_loop rest name <> [].
Proof. revert name; induction rest as [|c r IH]; intros; cbn; [done|]. by destruct (_ =? _). Qed.

Lemma split_loop_app_comma a b name :
  split_loop (a ++ comma :: b) name = split_loop a name ++ split_loop b [].
Proof.
  revert name; induction a as [|c a IH]; intros; cbn; [done|].
  destruct (c =? comma); cbn; by rewrite IH.
Qed.

Lemma split_loop_no_comma a name :
  Forall (fun c => c <> comma) a -> split_loop a name = [name ++ a].
Proof.
  intros H. revert name. induction H as [|c a Hc _ IH]; intros; cbn; [by rewrite app_nil_r|].
  destruct (Z.eqb_spec c comma); [done|]. rewrite IH. by rewrite <- app_assoc.
Qed.

Lemma names_until_empty_all toks :
  Forall (fun t => blen t <> 0) toks -> names_until_empty toks = toks.
Proof.
  induction 1 as [|t ts Ht _ IH]; cbn; [done|]. destruct (Z.eqb_spec (blen t) 0); [done|]. by rewrite IH.
Qed.

(** The decoder on the elements of the list. *)
Fixpoint decode_tokens (cap : Z) (toks : list bytes) (tokenCount : Z) (ids : list AlgoId)
    : res (list AlgoId) :=
  match toks with
  | [] => Ok ids
  | t :: ts =>
    match GetNameListRaw_name cap t tokenCount ids with
    | GnlStop => Ok ids
    | GnlBad => Err WS_BUFFER_E
    | GnlNext n ids => decode_tokens cap ts n ids
    end
  end.

Lemma GetNameListRaw_loop_tokens cap rest name n ids :
  GetNameListRaw_loop cap rest name n ids = decode_tokens cap (split_loop rest name) n ids.
Proof.
  revert name n ids; induction rest as [|c r IH]; intros; cbn.
  - by destruct (GetNameListRaw_name cap name n ids).
  - destruct (c =? comma); [|apply IH]. cbn.
    destruct (GetNameListRaw_name cap name n ids); [done|done|apply IH].
Qed.

Lemma decode_tokens_spec cap toks n ids :
  0 <= n <= WOLFSSH_MAX_NAMELIST_CNT -> blen ids <= cap -> (ids = [] -> n = 0) ->
  decode_tokens cap toks n ids =
    let names := names_until_empty toks in
    let new := name_ids (blen ids =? 0) names in
    if (WOLFSSH_MAX_NAMELIST_CNT <? n + blen names) || (cap <? blen ids + blen new)
    then Err WS_BUFFER_E else Ok (ids ++ new).
Proof.
  revert n ids; induction toks as [|t ts IH]; intros n ids Hn Hc Hz; cbn zeta; cbn [decode_tokens names_until_empty].
  { cbn [name_ids]. rewrite app_nil_r, (@blen_nil bytes), (@blen_nil AlgoId).
    destruct (Z.ltb_spec WOLFSSH_MAX_NAMELIST_CNT (n + 0)), (Z.ltb_spec cap (blen ids + 0)); cbn; try lia; done. }
  unfold GetNameListRaw_name. pose proof (blen_nonneg ids).
  destruct (Z.eqb_spec (blen t) 0).
  { cbn [name_ids]. rewrite app_nil_r, (@blen_nil bytes), (@blen_nil AlgoId).
    destruct (Z.ltb_spec WOLFSSH_MAX_NAMELIST_CNT (n + 0)), (Z.ltb_spec cap (blen ids + 0)); cbn; try lia; done. }
  rewrite blen_cons. cbn [name_ids].
  pose proof (blen_nonneg (names_until_empty ts)).
  destruct (Z.ltb_spec WOLFSSH_MAX_NAMELIST_CNT (n + 1)).
  { destruct (Z.ltb_spec WOLFSSH_MAX_NAMELIST_CNT (n + (1 + blen (names_until_empty ts)))); [done|lia]. }
  destruct (negb (id_eqb (NameToId t) ID_UNKNOWN) || (blen ids =? 0)) eqn:E.
  - rewrite blen_cons. pose proof (blen_nonneg (name_ids false (names_until_empty ts))).
    destruct (Z.leb_spec cap (blen ids)).
    { rewrite orb_comm. destruct (Z.ltb_spec cap (blen ids + (1 + blen (name_ids false (names_until_empty ts))))); [done|lia]. }
    rewrite IH by (rewrite ?blen_app, ?blen_cons, ?blen_nil; try lia; by destruct ids).
    cbn zeta. rewrite blen_app, blen_cons, blen_nil.
    destruct (Z.eqb_spec (blen ids + (1 + 0)) 0); [lia|].
    rewrite <- app_assoc, <- !Z.add_assoc. done.
  - apply orb_false_iff in E as [_ E].
    rewrite IH by (lia || (intros ->; done)). cbn zeta. rewrite E, <- Z.add_assoc. done.
Qed.

Fixpoint join_commas (names : list bytes) : bytes :=
  match names with
  | [] => []
  | [n] => n
  | n :: ns => n ++ comma :: join_commas ns
  end.

Definition no_comma (n : bytes) : Prop := Forall (fun c => c <> comma) n.

Lemma split_join names :
  names <> [] -> Forall no_comma names -> split_commas (join_commas names) = names.
Proof.
  intros Hne H. induction H as [|n ns Hn Hns IH]; [done|].
  unfold split_commas in *. destruct ns as [|m ns].
  - cbn [join_commas]. by rewrite split_loop_no_comma.
  - change (join_commas (n :: m :: ns)) with (n ++ comma :: join_commas (m :: ns)).
    rewrite split_loop_app_comma, split_loop_no_comma by done. cbn [app]. by rewrite IH.
Qed.

Lemma split_join_comma names :
  names <> [] -> Forall no_comma names ->
  split_commas (join_commas names ++ [comma]) = names ++ [[]].
Proof.
  intros Hne H. unfold split_commas. rewrite split_loop_app_comma. cbn.
  f_equal. by apply split_join.
Qed.

Lemma split_loop_join rest name : join_commas (split_loop rest name) = name ++ rest.
Proof.
  revert name; induction rest as [|c r IH]; intros; cbn; [by rewrite app_nil_r|].
  destruct (Z.eqb_spec c comma) as [->|].
  - specialize (IH []). pose proof (split_loop_nonempty r []). cbn.
    destruct (split_loop r []); [done|]. by rewrite IH.
  - rewrite IH. by rewrite <- app_assoc.
Qed.

Lemma split_loop_no_commas rest name :
  no_comma name -> Forall no_comma (split_loop rest name).
Proof.
  revert name; induction rest as [|c r IH]; intros name H; cbn; [by constructor|].
  destruct (Z.eqb_spec c comma).
  - constructor; [done|]. apply IH. constructor.
  - apply IH. apply Forall_app; split; [done|]. by repeat constructor.
Qed.

Lemma name_ok_facts n : name_ok n = true -> 1 <= blen n <= 64 /\ no_comma n.
Proof.
  unfold name_ok. rewrite !andb_true_iff, !Z.leb_le, forallb_forall. intros [[H1 H2] H3].
  split; [lia|]. apply Forall_forall. intros x Hx.
  specialize (H3 x Hx). by destruct (Z.eqb_spec x comma).
Qed.

(** ** A configured list that is accepted *)

(** RFC 4251 section 6: printable US-ASCII and no whitespace; at most one '@',
    with text on both sides. *)
Definition printable (n : bytes) : Prop := Forall (fun c => 0x20 < c < 0x7F) n.
Definition at_sign : Z := 64.
Definition at_ok (n : bytes) : Prop :=
  at_sign ∉ n \/
  exists a b, n = (a ++ at_sign :: b) /\ a <> [] /\ b <> [] /\ (at_sign ∉ a) /\ (at_sign ∉ b).

(** A name the list may hold, and one it can be used for. *)
Definition acceptable (type : NameIdType) (n : bytes) : Prop :=
  1 <= blen n <= WOLFSSH_MAX_ALGO_NAME_SZ /\ printable n /\ at_ok n /\
  match NameToIdType (Some n) with
  | (ID_NONE, _) => False
  | (ID_UNKNOWN, _) => True
  | (_, ty) => ty = Some type
  end.
Definition usable (n : bytes) : Prop := NameToId n <> ID_UNKNOWN.

Lemma name_chars_ok_spec n j sz k :
  0 <= j -> sz = j + blen n -> 0 <= k ->
  name_chars_ok n j sz k = true <->
  printable n /\
  (at_sign ∉ n \/
   exists a b, n = (a ++ at_sign :: b) /\ k = 0 /\ (0 < j + blen a) /\ b <> [] /\
     (at_sign ∉ a) /\ (at_sign ∉ b)).
Proof.
  revert j k; induction n as [|c n IH]; intros j k Hj Hsz Hk; cbn [name_chars_ok].
  { split; [|done]. split; [constructor|]. left. apply not_elem_of_nil. }
  rewrite blen_cons in Hsz. pose proof (blen_nonneg n) as Hn0. unfold printable.
  rewrite Forall_cons_iff. destruct (Z.leb_spec c 0x20); cbn [orb]; [split; [done|lia]|].
  destruct (Z.leb_spec 0x7F c); [split; [done|lia]|].
  destruct (Z.eqb_spec c 64) as [->|Hc].
  - destruct (Z.ltb_spec 1 (k + 1)); cbn [orb].
    { split; [done|]. intros [_ [Hx|(a&b&_&?&_)]]; [|lia]. exfalso. apply Hx. constructor. }
    destruct (Z.eqb_spec j 0); cbn [orb].
    { split; [done|]. intros [_ [Hx|(a&b&E&?&Ha&_&Hna&_)]]; [exfalso; apply Hx; constructor|].
      destruct a as [|x a]; [change (0 < j + 0) in Ha; lia|]. injection E as <- _. exfalso. apply Hna. constructor. }
    destruct (Z.eqb_spec j (sz - 1)).
    { split; [done|]. intros [_ [Hx|(a&b&E&?&Ha&Hb&Hna&_)]]; [exfalso; apply Hx; constructor|].
      assert (n = []) as -> by (destruct n; [done|]; rewrite blen_cons in *; pose proof (blen_nonneg n); lia).
      destruct a; [|injection E; intros E' _; by destruct a]. injection E as <-. done. }
    rewrite IH by lia. unfold printable. split.
    + intros [Hp [Hx|(a&b&_&?&_)]]; [|lia]. split; [split; [lia|done]|]. right.
      exists [], n. repeat split; try done; try apply not_elem_of_nil; [lia|change (0 < j + 0); lia|].
      intros ->. change (blen (@nil Z)) with 0 in *. lia.
    + intros [[_ Hp] [Hx|(a&b&E&_&_&_&Hna&Hnb)]]; [exfalso; apply Hx; constructor|].
      destruct a as [|x a]; [injection E as ->; split; [done|by left]|].
      injection E as <- _. exfalso. apply Hna. constructor.
  - rewrite IH by lia. unfold printable. split.
    + intros [Hp H']. split; [split; [lia|done]|]. destruct H' as [Hx|(a&b&->&?&Ha&Hb&Hna&Hnb)].
      * left. apply not_elem_of_cons. split; [unfold at_sign; congruence|done].
      * right. exists (c :: a), b. rewrite blen_cons. repeat split; try done; [lia|].
        apply not_elem_of_cons. split; [unfold at_sign; congruence|done].
    + intros [[_ Hp] H']. split; [done|]. destruct H' as [Hx|(a&b&E&?&Ha&Hb&Hna&Hnb)].
      * left. intros Hy. apply Hx. by constructor.
      * right. destruct a as [|x a]; [injection E; unfold at_sign; congruence|].
        injection E as <- ->. rewrite blen_cons in Ha. exists a, b. repeat split; try done; [lia|].
        intros Hy. apply Hna. by constructor.
Qed.

Lemma name_chars_ok_iff n :
  name_chars_ok n 0 (blen n) 0 = true <-> printable n /\ at_ok n.
Proof.
  rewrite name_chars_ok_spec by lia. unfold at_ok. split; intros [Hp [Hx|(a&b&H)]]; split; auto; right; exists a, b.
  - destruct H as (->&_&Ha&Hb&?&?). repeat split; try done. intros ->. change (blen (@nil Z)) with 0 in Ha. lia.
  - destruct H as (->&Ha&Hb&?&?). repeat split; try done. destruct a; [done|].
    rewrite blen_cons. pose proof (blen_nonneg a). lia.
Qed.

Definition usableb (n : bytes) : bool := negb (id_eqb (NameToId n) ID_UNKNOWN).

Lemma CheckAlgoList_name_spec type n i last u :
  n <> [] ->
  (acceptable type n /\ CheckAlgoList_name type n i last u = Some (u + b2z (usableb n)))
  \/ (~ acceptable type n /\ CheckAlgoList_name type n i last u = None).
Proof.
  intros Hne. unfold CheckAlgoList_name, acceptable, usableb, NameToId.
  assert (1 <= blen n) as H1 by (destruct n; [done|]; rewrite blen_cons; pose proof (blen_nonneg n); lia).
  destruct (Z.eqb_spec (blen n) 0); [lia|].
  destruct (Z.ltb_spec WOLFSSH_MAX_ALGO_NAME_SZ (blen n)); [right; split; [intros [? _]; lia|done]|].
  destruct (name_chars_ok n 0 (blen n) 0) eqn:Ec; cbn [negb].
  2: { right; split; [|done]. intros (_&Hp&Ha&_).
       rewrite (proj2 (name_chars_ok_iff n)) in Ec; done. }
  apply name_chars_ok_iff in Ec as [Hp Ha].
  destruct (NameToIdType (Some n)) as [id ty] eqn:Et. cbn [fst].
  assert (ty = None -> id = ID_UNKNOWN) as Hty.
  { intros ->. change (NameToIdType (Some n)) with (NameToIdType_loop n NameIdMap) in Et.
    pose proof (NameToIdType_loop_none n NameIdMap) as Hl. rewrite Et in Hl. by apply Hl. }
  destruct (id_eqb id ID_NONE) eqn:E1.
  { apply id_eqb_spec in E1 as ->. right; split; [|done]. by intros (_&_&_&?). }
  destruct (id_eqb id ID_UNKNOWN) eqn:E2; cbn [negb b2z].
  { apply id_eqb_spec in E2 as ->. left. rewrite Z.add_0_r. repeat split; done. }
  destruct ty as [ty|]; [|rewrite Hty in E2 by done; done]. change (default TYPE_OTHER (Some ty)) with ty.
  destruct (decide (ty = type)) as [->|Hd].
  - left. repeat split; try done. by destruct id.
  - right. split; [|done]. intros (_&_&_&Hm). destruct id; try done; congruence.
Qed.

(** What the loop over a configured list accepts, on its elements. *)
Fixpoint check_tokens (type : NameIdType) (toks : list bytes) (u : Z) : option Z :=
  match toks with
  | [] => None
  | [t] => CheckAlgoList_name type t 1 true u
  | t :: ts =>
    match CheckAlgoList_name type t 1 false u with
    | None => None
    | Some u => check_tokens type ts u
    end
  end.

Lemma CheckAlgoList_name_index type n i last u :
  0 < i \/ (0 <= i /\ last = false) ->
  CheckAlgoList_name type n i last u = CheckAlgoList_name type n 1 last u.
Proof.
  intros H. unfold CheckAlgoList_name.
  destruct H as [H|[H ->]]; [|done]. by destruct (Z.eqb_spec i 0); [lia|].
Qed.

Lemma CheckAlgoList_loop_tokens type rest i name u :
  0 < i \/ (i = 0 /\ rest <> []) ->
  CheckAlgoList_loop type rest i name u = check_tokens type (split_loop rest name) u.
Proof.
  revert i name u; induction rest as [|c r IH]; intros i name u Hi; cbn [CheckAlgoList_loop split_loop].
  - cbn. apply CheckAlgoList_name_index. destruct Hi as [|[_ ?]]; [by left|done].
  - destruct (c =? comma); [|apply IH; lia].
    rewrite CheckAlgoList_name_index by (destruct Hi as [|[-> _]]; [left|right]; lia || done).
    pose proof (split_loop_nonempty r []). cbn [check_tokens].
    destruct (CheckAlgoList_name type name 1 false u) as [u'|]; [|by destruct (split_loop r [])].
    rewrite IH by lia. by destruct (split_loop r []).
Qed.

(** The names of a list: its elements but an empty last one. *)
Fixpoint drop_empty_last (toks : list bytes) : list bytes :=
  match toks with
  | [] => []
  | t :: ts =>
    match ts with
    | [] => if blen t =? 0 then [] else [t]
    | _ => t :: drop_empty_last ts
    end
  end.
Definition list_names (l : bytes) : list bytes := drop_empty_last (split_commas l).

Fixpoint usable_count (names : list bytes) : Z :=
  match names with
  | [] => 0
  | n :: ns => b2z (usableb n) + usable_count ns
  end.

Lemma blen_zero_iff {A} (l : list A) : blen l = 0 <-> l = [].
Proof. destruct l; [done|]. rewrite blen_cons. pose proof (blen_nonneg l). split; [lia|done]. Qed.

Lemma check_tokens_spec type toks u :
  toks <> [] ->
  let names := drop_empty_last toks in
  (Forall (fun n => n <> [] /\ acceptable type n) names /\
     check_tokens type toks u = Some (u + usable_count names))
  \/ (~ Forall (fun n => n <> [] /\ acceptable type n) names /\ check_tokens type toks u = None).
Proof.
  revert u; induction toks as [|t ts IH]; intros u Hne; [done|]. cbn zeta.
  destruct (decide (t = [])) as [->|Ht].
  { destruct ts as [|t2 ts].
    - left. split; [constructor|]. change (Some u = Some (u + 0)). f_equal. lia.
    - right. split; [|done]. cbn. rewrite Forall_cons_iff. by intros [[? _] _]. }
  assert (blen t =? 0 = false) as Hb by (apply Z.eqb_neq; by rewrite blen_zero_iff).
  destruct ts as [|t2 ts].
  - cbn [check_tokens drop_empty_last]. rewrite Hb.
    destruct (CheckAlgoList_name_spec type t 1 true u Ht) as [[Ha ->]|[Ha ->]].
    + left. split; [apply list.Forall_singleton; done|]. cbn [usable_count]. f_equal. lia.
    + right. split; [|done]. rewrite Forall_cons_iff. by intros [[_ ?] _].
  - change (drop_empty_last (t :: t2 :: ts)) with (t :: drop_empty_last (t2 :: ts)).
    rewrite Forall_cons_iff.
    change (check_tokens type (t :: t2 :: ts) u) with
      (match CheckAlgoList_name type t 1 false u with None => None | Some u => check_tokens type (t2 :: ts) u end).
    destruct (CheckAlgoList_name_spec type t 1 false u Ht) as [[Ha ->]|[Ha ->]].
    + destruct (IH (u + b2z (usableb t))) as [[Hf ->]|[Hf ->]]; [done| |].
      * left. split; [done|]. cbn [usable_count]. f_equal. lia.
      * right. split; [|done]. by intros [_ ?].
    + right. split; [|done]. by intros [[_ ?] _].
Qed.

Lemma usable_count_nonneg names : 0 <= usable_count names.
Proof. induction names as [|m ns IH]; cbn [usable_count]; [lia|]. destruct (usableb m); cbn; lia. Qed.

Lemma usable_count_pos names : 0 < usable_count names <-> Exists usable names.
Proof.
  induction names as [|n ns IH]; cbn [usable_count].
  - split; [lia|]. intros H; inversion H.
  - pose proof (usable_count_nonneg ns). rewrite Exists_cons, <- IH. unfold usable, usableb.
    destruct (id_eqb (NameToId n) ID_UNKNOWN) eqn:E; cbn [negb b2z].
    + apply id_eqb_spec in E. split; [intros; right; lia|intros [?|?]; [done|lia]].
    + split; [|lia]. intros _. left. intros Hx. apply id_eqb_spec in Hx. congruence.
Qed.

Lemma CheckAlgoList_iff (l : bytes) (type : NameIdType) :
  CheckAlgoList (Some l) type = WS_SUCCESS <->
  cstr l <> [] /\
  Forall (fun n => n <> [] /\ acceptable type n) (list_names (cstr l)) /\
  Exists usable (list_names (cstr l)).
Proof.
  unfold CheckAlgoList, list_names. destruct (decide (cstr l = [])) as [E|E].
  { rewrite E. cbn. split; [done|]. by intros [? _]. }
  rewrite CheckAlgoList_loop_tokens by (right; done).
  destruct (check_tokens_spec type (split_commas (cstr l)) 0) as [[Hf Hc]|[Hf Hc]];
    [apply split_loop_nonempty| |]; unfold split_commas in Hc; rewrite Hc.
  - rewrite Z.add_0_l, <- usable_count_pos. pose proof (usable_count_nonneg (drop_empty_last (split_commas (cstr l)))).
    unfold split_commas in *.
    destruct (Z.eqb_spec (usable_count (drop_empty_last (split_loop (cstr l) []))) 0).
    + split; [done|]. intros (_&_&?). lia.
    + split; [|done]. intros _. repeat split; try done. lia.
  - split; [done|]. by intros (_&?&_).
Qed.

(** the setter check accepts exactly the lists that are valid names of the
    category or names unknown to the library, separated by commas, with at most
    one trailing comma, at least one of them usable. *)
Theorem CheckAlgoList_accepts (l : bytes) (type : NameIdType) :
  CheckAlgoList (Some l) type = WS_SUCCESS <->
  cstr l <> [] /\
  Forall (fun n => n <> [] /\ acceptable type n) (list_names (cstr l)) /\
  Exists usable (list_names (cstr l)).
Proof. apply CheckAlgoList_iff. Qed.

(** ** Decoding *)

Lemma GetNameListRaw_decode cap l sz :
  0 <= cap -> sz <= WOLFSSH_MAX_NAMELIST_SZ ->
  let names := names_until_empty (split_commas (slice l 0 sz)) in
  GetNameListRaw cap (Some l) sz =
    if (WOLFSSH_MAX_NAMELIST_CNT <? blen names) || (cap <? blen (name_ids true names))
    then Err WS_BUFFER_E else Ok (name_ids true names).
Proof.
  intros Hc Hs. unfold GetNameListRaw. destruct (Z.ltb_spec WOLFSSH_MAX_NAMELIST_SZ sz); [lia|].
  rewrite GetNameListRaw_loop_tokens, decode_tokens_spec by (clia || done). done.
Qed.

(** on every message [GetNameListRaw] computes the reference decoding: the
    names up to the first empty element, at most 64 of them in at most 4096
    bytes, unknown ones dropped except the first, or [WS_BUFFER_E] when a limit
    or the capacity is exceeded. *)
Theorem GetNameListRaw_spec (cap : Z) (l : bytes) (sz : Z) :
  0 <= cap -> 0 <= sz <= blen l ->
  let names := names_until_empty (split_commas (slice l 0 sz)) in
  GetNameListRaw cap (Some l) sz =
    if (WOLFSSH_MAX_NAMELIST_SZ <? sz) || (WOLFSSH_MAX_NAMELIST_CNT <? blen names)
       || (cap <? blen (name_ids true names))
    then Err WS_BUFFER_E else Ok (name_ids true names).
Proof.
  intros Hc Hs names. destruct (Z.ltb_spec WOLFSSH_MAX_NAMELIST_SZ sz); cbn [orb].
  - unfold GetNameListRaw. by destruct (Z.ltb_spec WOLFSSH_MAX_NAMELIST_SZ sz); [|lia].
  - by apply GetNameListRaw_decode.
Qed.

Example GetNameListRaw_spec_witness :
  GetNameListRaw 4 (Some (str "foo,aes128-ctr,bar,,aes256-ctr")) 30
  = Ok [ID_UNKNOWN; ID_AES128_CTR].
Proof.
  etransitivity; [apply (GetNameListRaw_spec 4 (str "foo,aes128-ctr,bar,,aes256-ctr") 30)|];
    [lia|split; [lia|vm_compute; discriminate]|vm_compute; reflexivity].
Defined.

Lemma name_ids_length first names : blen (name_ids first names) <= blen names.
Proof.
  revert first; induction names as [|n ns IH]; intros; cbn [name_ids]; [done|].
  rewrite blen_cons. pose proof (IH false). destruct (_ || _); rewrite ?blen_cons; lia.
Qed.

Lemma split_loop_snoc_comma a name :
  split_loop (a ++ [comma]) name = split_loop a name ++ [[]].
Proof. by rewrite split_loop_app_comma. Qed.

Lemma drop_empty_last_snoc toks :
  toks <> [] -> drop_empty_last (toks ++ [[]]) = toks.
Proof.
  induction toks as [|t ts IH]; [done|]. intros _. destruct ts as [|t2 ts]; [done|].
  change (t :: drop_empty_last ((t2 :: ts) ++ [[]]) = t :: t2 :: ts). by rewrite IH.
Qed.

Lemma drop_empty_last_id toks :
  Forall (fun n => n <> []) toks -> drop_empty_last toks = toks.
Proof.
  induction 1 as [|t ts Ht Hts IH]; [done|]. destruct ts as [|t2 ts].
  - cbn [drop_empty_last]. by destruct (Z.eqb_spec (blen t) 0) as [?%blen_zero_iff|].
  - change (t :: drop_empty_last (t2 :: ts) = t :: t2 :: ts). by rewrite IH.
Qed.

Lemma drop_empty_last_cases toks :
  drop_empty_last toks = toks \/ exists ts, toks = ts ++ [[]] /\ drop_empty_last toks = ts.
Proof.
  induction toks as [|t ts IH]; [by left|]. destruct ts as [|t2 ts].
  - cbn [drop_empty_last]. destruct (Z.eqb_spec (blen t) 0) as [->%blen_zero_iff|]; [right; by exists []|by left].
  - change (drop_empty_last (t :: t2 :: ts)) with (t :: drop_empty_last (t2 :: ts)).
    destruct IH as [->|(us&E&Hd)]; [by left|]. right. exists (t :: us).
    rewrite Hd, E. done.
Qed.

(** The elements up to [AlgoListSz] are the names of the list. *)
Lemma AlgoListSz_names l :
  Forall (fun n => n <> []) (list_names (cstr l)) -> cstr l <> [] ->
  split_commas (slice (cstr l) 0 (AlgoListSz (Some l))) = list_names (cstr l).
Proof.
  intros Hn Hne. unfold AlgoListSz, list_names in *. set (c := cstr l) in *.
  destruct (exists_last Hne) as (a&x&Ea).
  assert (rd c (blen c - 1) = Some x) as Hx.
  { rewrite Ea, blen_app, blen_cons, blen_nil. replace (blen a + (1 + 0) - 1) with (blen a + 0) by lia.
    by rewrite rd_app_r. }
  assert (0 < blen c) by (rewrite Ea, blen_app, blen_cons; pose proof (blen_nonneg a); cbn -[Z.add]; change (blen (@nil Z)) with 0; lia).
  destruct (Z.ltb_spec 0 (blen c)); [|lia]. cbn [andb]. rewrite Hx.
  case_bool_decide as Hd.
  - injection Hd as ->. replace (slice c 0 (blen c - 1)) with a.
    2: { rewrite Ea, blen_app. change (blen [comma]) with 1.
         replace (blen a + 1 - 1) with (blen a) by lia. symmetry. exact (slice_app_here [] a [comma]). }
    rewrite Ea. unfold split_commas. rewrite split_loop_snoc_comma.
    symmetry. apply drop_empty_last_snoc, split_loop_nonempty.
  - rewrite slice_full. destruct (drop_empty_last_cases (split_commas c)) as [E|(ts&E&_)]; [by rewrite E|].
    exfalso. apply Hd. f_equal.
    pose proof (split_loop_join c []) as Hj. unfold split_commas in E. rewrite E in Hj. cbn [app] in Hj.
    destruct ts as [|t ts]; [rewrite <- Hj in Hne; done|].
    rewrite Ea in Hj. assert (exists b, join_commas ((t :: ts) ++ [[]]) = b ++ [comma]) as [b Hb].
    { clear. revert t; induction ts as [|u ts IH]; intros; [by exists t|].
      destruct (IH u) as [b Hb]. exists (t ++ comma :: b).
      change (t ++ comma :: join_commas ((u :: ts) ++ [[]]) = (t ++ comma :: b) ++ [comma]).
      rewrite Hb. by rewrite <- app_assoc. }
    rewrite Hb in Hj. apply app_inj_tail in Hj. by destruct Hj.
Qed.

(** a list the setter check accepts is decoded whole: no name of it is lost
    to the rule that an empty element ends a list (internal.c, the contract
    above [GetNameListRaw]). *)
Theorem accepted_list_decoded_whole (l : bytes) (type : NameIdType) (cap : Z) :
  CheckAlgoList (Some l) type = WS_SUCCESS ->
  AlgoListSz (Some l) <= WOLFSSH_MAX_NAMELIST_SZ ->
  blen (list_names (cstr l)) <= WOLFSSH_MAX_NAMELIST_CNT <= cap ->
  GetNameListRaw cap (Some (cstr l)) (AlgoListSz (Some l))
    = Ok (name_ids true (list_names (cstr l)))
  /\ exists id, id ∈ name_ids true (list_names (cstr l)) /\ id <> ID_UNKNOWN.
Proof.
  intros (Hne&Hf&Hu)%CheckAlgoList_iff Hs Hc.
  assert (Forall (fun n => n <> []) (list_names (cstr l))) as Hn
    by (eapply Forall_impl; [|exact Hf]; intros ? [? _]; done).
  split.
  - rewrite GetNameListRaw_decode by (done || clia). rewrite AlgoListSz_names by done.
    rewrite names_until_empty_all by (eapply Forall_impl; [|exact Hn]; intros ? ?; cbn; by rewrite blen_zero_iff).
    pose proof (name_ids_length true (list_names (cstr l))).
    destruct (Z.ltb_spec WOLFSSH_MAX_NAMELIST_CNT (blen (list_names (cstr l)))); [lia|].
    destruct (Z.ltb_spec cap (blen (name_ids true (list_names (cstr l))))); [lia|]. done.
  - clear - Hu. generalize true. induction Hu as [n ns Hn|n ns Hn IH]; intros b; cbn [name_ids].
    + exists (NameToId n). split; [|done]. unfold usable in Hn.
      destruct (id_eqb (NameToId n) ID_UNKNOWN) eqn:E; [by apply id_eqb_spec in E|]. cbn. constructor.
    + destruct (IH false) as (i&Hi&?). exists i. split; [|done]. destruct (_ || _); [by constructor|done].
Qed.

Example accepted_list_decoded_whole_witness :
  CheckAlgoList (Some (str "aes128-ctr,my@cipher,aes256-ctr,")) TYPE_CIPHER = WS_SUCCESS /\
  GetNameListRaw 64 (Some (cstr (str "aes128-ctr,my@cipher,aes256-ctr,")))
    (AlgoListSz (Some (str "aes128-ctr,my@cipher,aes256-ctr,"))) = Ok [ID_AES128_CTR; ID_AES256_CTR].
Proof.
  split; [vm_compute; reflexivity|].
  etransitivity; [apply (accepted_list_decoded_whole _ TYPE_CIPHER 64)|]; vm_compute; try split; congruence.
Defined.

(** ** Choosing an algorithm *)

Lemma existsb_id id ids : existsb (id_eqb id) ids = true <-> id ∈ ids.
Proof.
  rewrite existsb_exists. split.
  - intros (x&Hx&->%id_eqb_spec). by apply list_elem_of_In.
  - intros Hx%list_elem_of_In. exists id. split; [done|apply id_eqb_refl].
Qed.

Lemma MatchIdLists_loop_spec client server :
  (MatchIdLists_loop client server = ID_UNKNOWN /\ Forall (fun x => x ∉ server) client)
  \/ exists a b, client = (a ++ MatchIdLists_loop client server :: b) /\
       MatchIdLists_loop client server ∈ server /\ Forall (fun x => x ∉ server) a.
Proof.
  induction client as [|l client IH]; cbn; [left; split; [done|constructor]|].
  destruct (existsb (id_eqb l) server) eqn:E.
  - right. exists [], client. split; [done|]. split; [by apply existsb_id|constructor].
  - assert (l ∉ server) as Hl by (rewrite <- existsb_id; congruence).
    destruct IH as [[-> Hf]|(a&b&Ec&Hin&Hf)].
    + left. split; [done|]. by constructor.
    + right. exists (l :: a), b. split; [cbn; congruence|]. split; [done|by constructor].
Qed.

(** negotiation (RFC 4253 section 7.1). On either endpoint, with the peer's
    list first and the local one second, [MatchIdLists] gives the first
    algorithm of the client's list that is also in the server's, and
    [ID_UNKNOWN] when there is none; so the two endpoints agree. *)
Theorem MatchIdLists_negotiates (client server : list AlgoId) :
  let id := MatchIdLists WOLFSSH_ENDPOINT_SERVER client server in
  MatchIdLists WOLFSSH_ENDPOINT_CLIENT server client = id /\
  ((id = ID_UNKNOWN /\ Forall (fun x => x ∉ server) client)
   \/ exists a b, client = (a ++ id :: b) /\ id ∈ server /\ Forall (fun x => x ∉ server) a).
Proof.
  cbn zeta. unfold MatchIdLists. cbn. split; [done|].
  destruct client as [|c client]; [left; split; [done|constructor]|].
  destruct server as [|s server].
  { left. rewrite andb_comm. cbn. split; [done|]. apply Forall_forall. intros ? _. apply not_elem_of_nil. }
  rewrite !blen_cons. pose proof (blen_nonneg client). pose proof (blen_nonneg server).
  destruct (Z.ltb_spec 0 (1 + blen client)), (Z.ltb_spec 0 (1 + blen server)); try lia. cbn [andb].
  apply MatchIdLists_loop_spec.
Qed.

(** ** Building *)

Lemma join_commas_cons n ns :
  ns <> [] -> join_commas (n :: ns) = n ++ comma :: join_commas ns.
Proof. by destruct ns. Qed.

Lemma BuildNameList_loop_spec sz src idx out :
  src <> [] -> blen out = idx ->
  let text := join_commas (map IdToName src) in
  (idx + blen text + 1 <= sz /\
     BuildNameList_loop (Some sz) src idx out = (idx + blen text + 1, out ++ text ++ [0]))
  \/ (sz < idx + blen text + 1 /\ exists o, BuildNameList_loop (Some sz) src idx out = (WS_BUFFER_E, o) /\ blen o <= Z.max idx sz).
Proof.
  revert idx out; induction src as [|id src IH]; intros idx out Hne Ho; [done|]. cbn zeta.
  cbn [BuildNameList_loop map].
  destruct (decide (src = [])) as [->|Hs].
  - cbn [map join_commas BuildNameList_loop]. change (blen (@nil AlgoId)) with 0. change (0 <? 0) with false. cbn iota.
    destruct (Z.ltb_spec sz (blen (IdToName id) + 1 + idx)).
    + right. split; [lia|]. eexists; split; [done|lia].
    + left. split; [lia|]. f_equal; lia.
  - rewrite join_commas_cons by (by destruct src). rewrite !blen_app, !blen_cons.
    assert (0 < blen src) by (destruct src; [done|]; rewrite blen_cons; pose proof (blen_nonneg src); lia).
    destruct (Z.ltb_spec 0 (blen src)); [|lia].
    destruct (Z.ltb_spec sz (blen (IdToName id) + 1 + idx)).
    { right. pose proof (blen_nonneg (join_commas (map IdToName src))).
      split; [lia|]. eexists; split; [done|lia]. }
    edestruct (IH (idx + blen (IdToName id) + 1) (out ++ IdToName id ++ [comma]) Hs) as [[Hle ->]|[Hlt (o&->&Hol)]].
    { rewrite !blen_app. change (blen [comma]) with 1. lia. }
    + left. split; [lia|]. f_equal; [lia|]. by rewrite <- !app_assoc.
    + right. split; [lia|]. exists o. split; [done|]. pose proof (blen_nonneg (IdToName id)). lia.
Qed.

(** a name-list built from ids that have a name is NUL terminated at the
    returned length and is decoded back to the same ids. *)
Theorem BuildNameList_roundtrip (sz : Z) (src : list AlgoId) (n : Z) (buf : bytes) :
  src <> [] -> forallb id_named src = true ->
  blen src <= WOLFSSH_MAX_NAMELIST_CNT ->
  BuildNameList (Some sz) src = (n, buf) -> 0 <= n <= WOLFSSH_MAX_NAMELIST_SZ ->
  blen buf = n + 1 /\ rd buf n = Some 0 /\ blen buf <= sz /\
  GetNameListRaw (blen src) (Some buf) n = Ok src.
Proof.
  intros Hne Hk Hc Hb Hn. unfold BuildNameList in Hb.
  destruct (Z.eqb_spec (blen src) 0) as [?%blen_zero_iff|]; [done|].
  destruct (BuildNameList_loop_spec sz src 0 [] Hne eq_refl) as [[Hle E]|[_ (o&E&_)]];
    rewrite E in Hb; injection Hb as <- <-; [|exfalso; clia].
  set (text := join_commas (map IdToName src)) in *. rewrite blen_app. change (blen [0]) with 1.
  split; [cbn; lia|]. split.
  { replace (0 + blen text + 1 - 1) with (blen text + 0) by lia. cbn [app]. by rewrite rd_app_r. }
  split; [change (blen text + 1 <= sz); lia|].
  replace (0 + blen text + 1 - 1) with (blen text) in Hn by lia.
  replace (0 + blen text + 1 - 1) with (blen text) by lia.
  rewrite GetNameListRaw_decode by (pose proof (blen_nonneg src); lia).
  assert (slice (text ++ [0]) 0 (blen text) = text) as -> by exact (slice_app_here [] text [0]).
  unfold text. rewrite split_join, names_until_empty_all.
  - replace (name_ids true (map IdToName src)) with src.
    + assert (blen (map IdToName src) = blen src) as -> by (unfold blen; by rewrite length_map).
      rewrite (proj2 (Z.ltb_ge _ _)), (proj2 (Z.ltb_ge _ _)) by lia. done.
    + clear -Hk. generalize true. induction src as [|id src IH]; intros b; [done|].
      cbn [forallb] in Hk. apply andb_true_iff in Hk as [Hi Hk]. cbn [map name_ids].
      rewrite NameToId_IdToName by done. rewrite <- IH by done.
      destruct (id_eqb id ID_UNKNOWN) eqn:E; [|done]. by apply id_eqb_spec in E as ->.
  - apply Forall_map, Forall_forall. intros id _. destruct (name_ok_facts _ (IdToName_ok id)). cbv beta. lia.
  - by destruct src.
  - apply Forall_map, Forall_forall. intros id _. apply (name_ok_facts _ (IdToName_ok id)).
Qed.

Example BuildNameList_roundtrip_witness :
  GetNameListRaw 2 (Some (BuildNameList (Some 40) [ID_AES128_GCM; ID_AES256_CTR]).2) 33
  = Ok [ID_AES128_GCM; ID_AES256_CTR].
Proof.
  refine (proj2 (proj2 (proj2 (BuildNameList_roundtrip 40 [ID_AES128_GCM; ID_AES256_CTR] 33 _ _ _ _ _ _))));
    vm_compute; done.
Defined.

(** on a buffer that is too small the builder does not return
    [WS_BUFFER_E], as its comment says, but the code below it,
    [WS_PARSE_E]; nothing is written past the end of the buffer. *)
Theorem BuildNameList_overflow (sz : Z) (src : list AlgoId) :
  src <> [] -> 0 <= sz < blen (join_commas (map IdToName src)) + 1 ->
  (BuildNameList (Some sz) src).1 = WS_PARSE_E /\
  blen (BuildNameList (Some sz) src).2 <= sz.
Proof.
  intros Hne Hs. unfold BuildNameList.
  destruct (Z.eqb_spec (blen src) 0) as [?%blen_zero_iff|]; [done|].
  destruct (BuildNameList_loop_spec sz src 0 [] Hne eq_refl) as [[Hle E]|[_ (o&E&Ho)]]; [lia|].
  rewrite E. cbn [fst snd]. split; [done|lia].
Qed.

Example BuildNameList_overflow_witness :
  (BuildNameList (Some 15) [ID_AES128_CTR; ID_AES256_CTR]).1 = -1005.
Proof.
  refine (proj1 (BuildNameList_overflow 15 [ID_AES128_CTR; ID_AES256_CTR] _ _)); vm_compute; [|split]; congruence.
Defined.
