(* ===== verification/Buffer.v ===== *)
(** The growable byte buffer behind every stream of a session (internal.c,
    [BufferInit], [GrowBuffer], [ShrinkBuffer], [AppendBuffer]).

    The pointer [buffer] always is [staticBuffer] or an allocation, told apart
    by [dynamicFlag]; the record keeps both arrays and [buffer] selects the one
    pointed to, so that the aliasing with [staticBuffer] is the code's. The
    outcome of an allocation is the argument [mem]. *)

From S2P Require Import Prelude Codes.

Record WOLFSSH_BUFFER := mkBuffer {
  b_length : Z;            (* total buffer length used *)
  b_idx : Z;               (* part of the length already consumed *)
  bufferSz : Z;
  dynBuffer : bytes;     (* the allocation, when there is one *)
  staticBuffer : bytes;
  dynamicFlag : bool
}.
#[export] Instance eta_buffer : Eta WOLFSSH_BUFFER := fun b =>
  mkBuffer (b_length b) (b_idx b) (bufferSz b) (dynBuffer b) (staticBuffer b) (dynamicFlag b).

Definition buffer (b : WOLFSSH_BUFFER) : bytes :=
  if dynamicFlag b then dynBuffer b else staticBuffer b.

Definition set_buffer (d : bytes) (b : WOLFSSH_BUFFER) : WOLFSSH_BUFFER :=
  if dynamicFlag b then b <| dynBuffer := d |> else b <| staticBuffer := d |>.

(** [memcpy(buf->buffer + i, d, size of d)]. *)
Definition buffer_write (i : Z) (d : bytes) : ST WOLFSSH_BUFFER unit :=
  b ← get;
  d' ← deref (wr (buffer b) i d);
  modify (set_buffer d').

(** [n] bytes from [buf->buffer + i]. *)
Definition buffer_read (i n : Z) : ST WOLFSSH_BUFFER bytes :=
  b ← get;
  if (0 <=? i) && (0 <=? n) && (i + n <=? blen (buffer b))
  then mret (slice (buffer b) i n) else ub.

Definition BufferInit (mem : bool) (size : Z) : res WOLFSSH_BUFFER :=
  let size := if size <=? STATIC_BUFFER_LEN then STATIC_BUFFER_LEN else size in
  if STATIC_BUFFER_LEN <? size then
    if negb mem then Err WS_MEMORY_E
    else Ok (mkBuffer 0 0 size (zeros size) (zeros STATIC_BUFFER_LEN) true)
  else Ok (mkBuffer 0 0 size [] (zeros STATIC_BUFFER_LEN) false).

(** The end of [GrowBuffer] when it has allocated: the old contents are wiped,
    and freed when they were an allocation. *)
Definition grown (newBuffer : bytes) (newSz : Z) (b : WOLFSSH_BUFFER) : WOLFSSH_BUFFER :=
  let b := if negb (dynamicFlag b)
           then b <| staticBuffer := zeros STATIC_BUFFER_LEN |> <| dynamicFlag := true |>
           else b in
  b <| dynBuffer := newBuffer |> <| bufferSz := newSz |>
    <| b_length := b_length b -w b_idx b |> <| b_idx := 0 |>.

Definition GrowBuffer (mem : bool) (sz : Z) : ST WOLFSSH_BUFFER unit :=
  buf ← get;
  let newSz := sz +w b_length buf -w b_idx buf in
  if bufferSz buf <? newSz then
    guard_err (negb mem) WS_MEMORY_E;;
    newBuffer ←
      (if 0 <? b_length buf then
         d ← buffer_read (b_idx buf) (b_length buf -w b_idx buf);
         deref (wr (zeros newSz) 0 d)
       else mret (zeros newSz));
    modify (grown newBuffer newSz)
  else if 0 <? b_length buf then
    let usedSz := b_length buf -w b_idx buf in
    d ← buffer_read (b_idx buf) usedSz;
    buffer_write 0 d;;
    buffer_write usedSz (zeros (b_idx buf));;
    modify (fun b => b <| b_length := usedSz |> <| b_idx := 0 |>)
  else mret tt.

(** [memcpy] between two parts of the static buffer that overlap is undefined
    behaviour. *)
Definition ShrinkBuffer (forcedFree : bool) : ST WOLFSSH_BUFFER unit :=
  buf ← get;
  let usedSz := b_length buf -w b_idx buf in
  if negb forcedFree && (STATIC_BUFFER_LEN <? usedSz) then mret tt
  else
    (if negb forcedFree && truthy usedSz then
       d ← buffer_read (b_idx buf) usedSz;
       if negb (dynamicFlag buf) && (b_idx buf <? usedSz) then ub
       else
         s ← deref (wr (staticBuffer buf) 0 d);
         modify (fun b => b <| staticBuffer := s |>)
     else mret tt);;
    modify (fun b =>
      let b := if dynamicFlag b then b <| dynBuffer := [] |> else b in
      let b := if forcedFree then b <| staticBuffer := zeros STATIC_BUFFER_LEN |> else b in
      b <| dynamicFlag := false |> <| bufferSz := STATIC_BUFFER_LEN |>
        <| b_length := if forcedFree then 0 else usedSz |> <| b_idx := 0 |>).

Definition AppendBuffer (mem : bool) (data : bytes) : ST WOLFSSH_BUFFER unit :=
  buf ← get;
  let dataSz := blen data in
  let usedSz := b_length buf -w b_idx buf in
  guard_err (UINT32_MAX -w usedSz <? dataSz) WS_OVERFLOW_E;;
  let needSz := usedSz +w dataSz in
  let growSz :=
    if bufferSz buf <? needSz then
      let targetSz :=
        if (bufferSz buf <=? UINT32_MAX / 2) && (needSz <? wrap32 (bufferSz buf * 2))
        then wrap32 (bufferSz buf * 2) else needSz in
      targetSz -w usedSz
    else dataSz in
  GrowBuffer mem growSz;;
  b ← get;
  buffer_write (b_length b) data;;
  modify (fun b => b <| b_length ::= (fun l => l +w dataSz) |>).

(** ** Well-formedness and contents *)

Record buffer_ok (b : WOLFSSH_BUFFER) : Prop := {
  ok_idx : 0 <= b_idx b <= b_length b;
  ok_length : b_length b <= bufferSz b;
  ok_size : blen (buffer b) = bufferSz b;
  ok_word : bufferSz b < 2 ^ 32;
  ok_static : blen (staticBuffer b) = STATIC_BUFFER_LEN
}.

(** The bytes received and not yet consumed: what the buffer means. *)
Definition unread (b : WOLFSSH_BUFFER) : bytes :=
  slice (buffer b) (b_idx b) (b_length b - b_idx b).

(** How many more bytes fit. *)
Definition room (b : WOLFSSH_BUFFER) : Z := bufferSz b - b_length b.

Lemma used_small b : buffer_ok b -> b_length b -w b_idx b = b_length b - b_idx b.
Proof. intros []. apply wrap32_small. lia. Qed.

Lemma unread_length b : buffer_ok b -> blen (unread b) = b_length b - b_idx b.
Proof. intros []. apply blen_slice; lia. Qed.

Lemma buffer_read_ok i n b :
  0 <= i -> 0 <= n -> i + n <= blen (buffer b) ->
  buffer_read i n b = (Ok (slice (buffer b) i n), b).
Proof.
  intros. unfold buffer_read, mbind, ST_bind, get.
  destruct (Z.leb_spec 0 i), (Z.leb_spec 0 n), (Z.leb_spec (i + n) (blen (buffer b))); try lia. done.
Qed.

Lemma wr_eq b i d :
  0 <= i -> i + blen d <= blen b ->
  wr b i d = Some (take (Z.to_nat i) b ++ d ++ drop (Z.to_nat i + length d) b).
Proof.
  intros. unfold wr. by rewrite (proj2 (Z.leb_le 0 i)), (proj2 (Z.leb_le _ _)) by lia.
Qed.

Lemma buffer_set_buffer d b : buffer (set_buffer d b) = d.
Proof. unfold buffer, set_buffer. destruct (dynamicFlag b) eqn:E; cbn; by rewrite ?E. Qed.

Lemma set_buffer_fields d b :
  b_length (set_buffer d b) = b_length b /\ b_idx (set_buffer d b) = b_idx b /\
  bufferSz (set_buffer d b) = bufferSz b /\ dynamicFlag (set_buffer d b) = dynamicFlag b.
Proof. unfold set_buffer. destruct (dynamicFlag b) eqn:E; cbn; auto. Qed.

Lemma buffer_write_ok i d b :
  0 <= i -> i + blen d <= blen (buffer b) ->
  exists a, wr (buffer b) i d = Some a /\ buffer_write i d b = (Ok tt, set_buffer a b).
Proof.
  intros Hi Hl. destruct (wr_some (buffer b) i d Hi Hl) as [a Ha].
  exists a. split; [done|]. unfold buffer_write, mbind, ST_bind, get. by rewrite Ha.
Qed.

Lemma blen_zeros' n : 0 <= n -> blen (zeros n) = n.
Proof. apply blen_zeros. Qed.

(** Reading back a prefix that was just written. *)
Lemma slice_wr_prefix (a d : bytes) i :
  0 <= i -> i + blen d <= blen a -> forall a', wr a i d = Some a' ->
  slice a' 0 i = slice a 0 i /\ slice a' i (blen d) = d /\
  slice a' 0 (i + blen d) = slice a 0 i ++ d.
Proof.
  intros Hi Hl a' Hw. rewrite wr_eq in Hw by done. injection Hw as <-.
  assert (length (take (Z.to_nat i) a) = Z.to_nat i) as Ht
    by (rewrite length_take; unfold blen in *; lia).
  unfold slice. rewrite !drop_0. repeat split.
  - by rewrite take_app_le, take_take by lia; rewrite Nat.min_id.
  - rewrite drop_app_ge by lia. rewrite Ht, Nat.sub_diag, drop_0.
    unfold blen. rewrite Nat2Z.id. by rewrite take_app_length.
  - rewrite Z2Nat.inj_add by (pose proof (blen_nonneg d); lia).
    rewrite take_app_add' by done. f_equal. unfold blen. rewrite Nat2Z.id. by rewrite take_app_length.
Qed.



(** The part of an array from [i] up to the end of what was just written. *)
Lemma slice_wr_suffix (a d : bytes) i j a' :
  0 <= i <= j -> j + blen d <= blen a -> wr a j d = Some a' ->
  slice a' i (j - i + blen d) = slice a i (j - i) ++ d.
Proof.
  intros Hi Hl Hw. rewrite wr_eq in Hw by lia. injection Hw as <-.
  assert (length (take (Z.to_nat j) a) = Z.to_nat j) as Ht
    by (rewrite length_take; unfold blen in *; lia).
  unfold slice. rewrite drop_app_le by lia.
  rewrite take_app_ge by (rewrite length_drop, Ht; pose proof (blen_nonneg d); lia).
  rewrite length_drop, Ht.
  replace (Z.to_nat (j - i + blen d) - (Z.to_nat j - Z.to_nat i))%nat with (length d)
    by (unfold blen; lia).
  rewrite take_app_length. f_equal. rewrite skipn_firstn_comm. f_equal. lia.
Qed.

(** What a successful [GrowBuffer] guarantees, by whichever way through it. *)
Definition grow_post (sz : Z) (b b' : WOLFSSH_BUFFER) : Prop :=
  buffer_ok b' /\ unread b' = unread b /\ sz <= room b' /\ bufferSz b <= bufferSz b' /\
  b_idx b' = 0 /\ (dynamicFlag b = true -> dynamicFlag b' = true).

Lemma grown_ok nb sz b :
  buffer_ok b -> 0 <= sz -> sz + (b_length b - b_idx b) < 2 ^ 32 ->
  let newSz := sz + (b_length b - b_idx b) in
  bufferSz b < newSz -> blen nb = newSz -> slice nb 0 (b_length b - b_idx b) = unread b ->
  grow_post sz b (grown nb newSz b).
Proof.
  intros Hok Hsz Hfit newSz Hlt Hn Hs. pose proof Hok as []. pose proof (used_small b Hok) as Hu.
  unfold grow_post, grown. destruct (dynamicFlag b) eqn:Ed; cbn -[wrap32 zeros]; rewrite Hu.
  all: split; [split; unfold buffer; cbn -[zeros]; rewrite ?Ed; try lia; try done; by apply blen_zeros|].
  all: split; [unfold unread, buffer in *; cbn; rewrite ?Ed, Z.sub_0_r; rewrite Ed in *; exact Hs|].
  all: unfold room; cbn; repeat split; try lia; auto.
Qed.

(** Moving the unread bytes to the front in place. *)
Lemma compact_ok b :
  buffer_ok b ->
  exists b', (buffer_write 0 (unread b);;
              buffer_write (b_length b - b_idx b) (zeros (b_idx b));;
              modify (fun b0 => b0 <| b_length := b_length b - b_idx b |> <| b_idx := 0 |>)) b
             = (Ok tt, b') /\ bufferSz b' = bufferSz b /\
             forall sz, sz + (b_length b - b_idx b) <= bufferSz b -> grow_post sz b b'.
Proof.
  intros Hok. pose proof Hok as []. pose proof (unread_length b Hok) as Hul.
  destruct (buffer_write_ok 0 (unread b) b) as (a1&Hw1&E1); [lia|lia|]. rewrite (ST_bind_ok _ _ _ _ _ E1).
  destruct (set_buffer_fields a1 b) as (F1&F2&F3&F4).
  assert (blen a1 = blen (buffer b)) as Ha1 by (by rewrite (blen_wr _ _ _ _ Hw1)).
  destruct (buffer_write_ok (b_length b - b_idx b) (zeros (b_idx b)) (set_buffer a1 b)) as (a2&Hw2&E2);
    [lia|rewrite buffer_set_buffer, blen_zeros by lia; lia|]. rewrite (ST_bind_ok _ _ _ _ _ E2).
  rewrite buffer_set_buffer in Hw2.
  assert (blen a2 = blen a1) as Ha2 by (by rewrite (blen_wr _ _ _ _ Hw2)).
  destruct (set_buffer_fields a2 (set_buffer a1 b)) as (G1&G2&G3&G4).
  assert (slice a2 0 (b_length b - b_idx b) = unread b) as Hs.
  { destruct (slice_wr_prefix a1 (zeros (b_idx b)) (b_length b - b_idx b)) with (a' := a2) as (->&_&_);
      [lia|rewrite blen_zeros by lia; lia|done|].
    destruct (slice_wr_prefix (buffer b) (unread b) 0) with (a' := a1) as (_&Hs&_); [lia|lia|done|]. congruence. }
  pose proof (buffer_set_buffer a2 (set_buffer a1 b)) as Hb2.
  remember (set_buffer a2 (set_buffer a1 b)) as b2.
  assert (blen (staticBuffer b2) = STATIC_BUFFER_LEN) as Hst.
  { subst b2. unfold set_buffer at 1. rewrite F4. unfold set_buffer.
    revert ok_size0 Ha1 Ha2. unfold buffer. destruct (dynamicFlag b) eqn:Ed; cbn; [done|]. congruence. }
  assert (buffer (b2 <| b_length := b_length b - b_idx b |> <| b_idx := 0 |>) = a2) as Hbuf by exact Hb2.
  eexists. split; [done|]. split; [cbn; congruence|]. intros sz Hsz.
  unfold grow_post, unread, room. rewrite Hbuf. cbn. rewrite Z.sub_0_r, Hs.
  split; [split; cbn; rewrite ?Hbuf; try done; lia|]. repeat split; try lia; try congruence; auto.
Qed.

Lemma grow_size sz b :
  buffer_ok b -> 0 <= sz -> sz + (b_length b - b_idx b) < 2 ^ 32 ->
  sz +w b_length b -w b_idx b = sz + (b_length b - b_idx b).
Proof.
  intros [] ??. unfold wrap32. rewrite Zminus_mod_idemp_l, Z.mod_small by lia. lia.
Qed.

Lemma GrowBuffer_ok (mem : bool) (sz : Z) (b : WOLFSSH_BUFFER) :
  buffer_ok b -> 0 <= sz -> sz + (b_length b - b_idx b) < 2 ^ 32 ->
  match GrowBuffer mem sz b with
  | (Ok _, b') => grow_post sz b b'
  | (Err e, b') => mem = false /\ e = WS_MEMORY_E /\ b' = b
  | (UB, _) => False
  end.
Proof.
  intros Hok Hsz Hfit. pose proof Hok as []. pose proof (used_small b Hok) as Hu.
  pose proof (unread_length b Hok). unfold GrowBuffer. run. rewrite grow_size, Hu by done.
  destruct (Z.ltb_spec (bufferSz b) (sz + (b_length b - b_idx b))).
  - destruct mem; cbn [negb]; [|done]. run. set (newSz := sz + (b_length b - b_idx b)) in *.
    destruct (Z.ltb_spec 0 (b_length b)).
    + erewrite ST_bind_ok by (apply buffer_read_ok; lia). fold (unread b).
      destruct (wr_some (zeros newSz) 0 (unread b)) as [nb Hw]; [lia|rewrite blen_zeros by lia; lia|].
      rewrite Hw. run. apply grown_ok; try done; [rewrite (blen_wr _ _ _ _ Hw); apply blen_zeros; lia|].
      destruct (slice_wr_prefix (zeros newSz) (unread b) 0 ltac:(lia) ltac:(rewrite blen_zeros by lia; lia) nb Hw) as (_&Hs&_).
      congruence.
    + apply grown_ok; try done; [apply blen_zeros; lia|]. unfold unread. by replace (b_length b - b_idx b) with 0 by lia.
  - destruct (Z.ltb_spec 0 (b_length b)).
    2: { cbn. split; [done|]. unfold room. repeat split; try lia; auto. }
    erewrite ST_bind_ok by (apply buffer_read_ok; lia). fold (unread b).
    destruct (compact_ok b Hok) as (b'&->&_&Hp). apply Hp. lia.
Qed.

(** growing. With memory, [GrowBuffer] succeeds, the unread bytes move to the
    front unchanged and [sz] more bytes fit; without, it changes nothing. *)
Theorem GrowBuffer_spec (mem : bool) (sz : Z) (b : WOLFSSH_BUFFER) :
  buffer_ok b -> 0 <= sz -> sz + blen (unread b) < 2 ^ 32 ->
  match GrowBuffer mem sz b with
  | (Ok _, b') => buffer_ok b' /\ unread b' = unread b /\ sz <= room b' /\ bufferSz b <= bufferSz b'
  | (Err e, b') => mem = false /\ e = WS_MEMORY_E /\ b' = b
  | (UB, _) => False
  end.
Proof.
  intros Hok Hs Hf. rewrite unread_length in Hf by done.
  pose proof (GrowBuffer_ok mem sz b Hok Hs Hf) as H.
  destruct (GrowBuffer mem sz b) as [[[]| |] b']; [|done|done].
  destruct H as (?&?&?&?&_). done.
Qed.

Lemma buffer_ok_example : buffer_ok (mkBuffer 5 2 20 (zeros 2 ++ [7; 8; 9] ++ zeros 15) (zeros 16) true).
Proof. split; vm_compute; intuition congruence. Qed.

Example GrowBuffer_spec_witness :
  let b := mkBuffer 5 2 20 (zeros 2 ++ [7; 8; 9] ++ zeros 15) (zeros 16) true in
  match GrowBuffer true 40 b with (Ok _, b') => unread b' = [7; 8; 9] | _ => False end.
Proof.
  cbv zeta. generalize (GrowBuffer_spec true 40 _ buffer_ok_example).
  destruct (GrowBuffer true 40 _) as [[[]|e|] b'] eqn:E; intros H.
  - destruct H as (_&U&_); [lia|vm_compute; reflexivity|]. rewrite U. vm_compute. reflexivity.
  - destruct H as [? _]; [lia|vm_compute; reflexivity|discriminate].
  - apply H; [lia|vm_compute; reflexivity].
Defined.

Lemma slice_prefix_wr a d a' : wr a 0 d = Some a' -> blen d <= blen a -> slice a' 0 (blen d) = d.
Proof.
  intros Hw Hd. by destruct (slice_wr_prefix a d 0 ltac:(lia) ltac:(lia) a' Hw) as (_&?&_).
Qed.

Lemma ShrinkBuffer_ok (forcedFree : bool) (b : WOLFSSH_BUFFER) :
  buffer_ok b ->
  (dynamicFlag b = true \/ b_length b - b_idx b <= b_idx b \/ forcedFree = true) ->
  exists b', ShrinkBuffer forcedFree b = (Ok tt, b') /\ buffer_ok b' /\
    if forcedFree then unread b' = [] /\ dynamicFlag b' = false /\
                       buffer b' = zeros STATIC_BUFFER_LEN
    else unread b' = unread b /\
         (if STATIC_BUFFER_LEN <? b_length b - b_idx b then b' = b
          else dynamicFlag b' = false /\ b_idx b' = 0).
Proof.
  intros Hok Hsafe. pose proof Hok as []. pose proof (used_small b Hok) as Hu.
  pose proof (unread_length b Hok) as Hl. unfold ShrinkBuffer. run. rewrite Hu.
  destruct forcedFree; cbn [negb andb].
  { eexists. split; [done|]. destruct (dynamicFlag b); cbn; (split; [split; cbn; try lia; done|]); done. }
  destruct (Z.ltb_spec STATIC_BUFFER_LEN (b_length b - b_idx b)); [by eexists|].
  unfold truthy. destruct (Z.eqb_spec (b_length b - b_idx b) 0) as [Hz|Hz]; cbn [negb]; run.
  { eexists. split; [done|]. unfold unread. rewrite Hz.
    destruct (dynamicFlag b) eqn:Ed; (split; [split; cbn -[zeros]; try lia; done|]); done. }
  erewrite ST_bind_ok by (apply buffer_read_ok; lia). fold (unread b). run.
  rewrite (proj2 (andb_false_iff _ _)).
  2: { destruct Hsafe as [->|[Hs|?]]; [by left| |done]. right. apply Z.ltb_ge. lia. }
  destruct (wr_some (staticBuffer b) 0 (unread b)) as [a Hw]; [lia|lia|]. rewrite Hw. run.
  eexists. split; [done|].
  pose proof (blen_wr _ _ _ _ Hw) as Ha. pose proof (slice_prefix_wr _ _ _ Hw ltac:(lia)) as Hs.
  rewrite Hl in Hs. unfold unread at 1.
  destruct (dynamicFlag b) eqn:Ed; cbn -[zeros unread]; rewrite ?Ed; cbn -[zeros unread]; rewrite ?Z.sub_0_r;
    (split; [split; unfold buffer; cbn -[zeros]; rewrite ?Ed; clia|]); by rewrite ?Hs.
Qed.

(** shrinking. Freed or moved to the static buffer, the unread bytes are kept
    unless the caller forces the free, and more than 16 of them stop it; the
    array a forced free leaves holds only zeros. The move has no undefined
    behaviour when the bytes come from an allocation or do not overlap. *)
Theorem ShrinkBuffer_spec (forcedFree : bool) (b : WOLFSSH_BUFFER) :
  buffer_ok b ->
  (dynamicFlag b = true \/ b_length b - b_idx b <= b_idx b \/ forcedFree = true) ->
  exists b', ShrinkBuffer forcedFree b = (Ok tt, b') /\ buffer_ok b' /\
    if forcedFree then unread b' = [] /\ dynamicFlag b' = false /\
                       buffer b' = zeros STATIC_BUFFER_LEN
    else unread b' = unread b /\
         (if STATIC_BUFFER_LEN <? b_length b - b_idx b then b' = b
          else dynamicFlag b' = false /\ b_idx b' = 0).
Proof. apply ShrinkBuffer_ok. Qed.

Example ShrinkBuffer_spec_witness :
  exists b', ShrinkBuffer false (mkBuffer 5 2 20 (zeros 2 ++ [7; 8; 9] ++ zeros 15) (zeros 16) true) = (Ok tt, b')
    /\ unread b' = [7; 8; 9] /\ dynamicFlag b' = false.
Proof.
  destruct (ShrinkBuffer_spec false (mkBuffer 5 2 20 (zeros 2 ++ [7; 8; 9] ++ zeros 15) (zeros 16) true))
    as (b'&E&_&U&D&_); [split; vm_compute; intuition congruence|by left|].
  exists b'. split; [exact E|]. split; [exact U|exact D].
Defined.

Lemma append_grow_size b dataSz :
  buffer_ok b -> 0 <= dataSz -> dataSz <= UINT32_MAX -w (b_length b -w b_idx b) ->
  let usedSz := b_length b -w b_idx b in
  let growSz :=
    if bufferSz b <? usedSz +w dataSz then
      (if (bufferSz b <=? UINT32_MAX / 2) && (usedSz +w dataSz <? wrap32 (bufferSz b * 2))
       then wrap32 (bufferSz b * 2) else usedSz +w dataSz) -w usedSz
    else dataSz in
  dataSz <= growSz /\ growSz + (b_length b - b_idx b) < 2 ^ 32.
Proof.
  intros Hok H0 Hd. pose proof Hok as []. rewrite (used_small b Hok) in *. unfold UINT32_MAX in *.
  rewrite wrap32_small in Hd by lia. cbv zeta. rewrite (wrap32_small (b_length b - b_idx b + dataSz)) by lia.
  destruct (Z.ltb_spec (bufferSz b) (b_length b - b_idx b + dataSz)); [|lia].
  destruct (Z.leb_spec (bufferSz b) ((2 ^ 32 - 1) / 2)) as [Hh|]; cbn [andb].
  - assert (bufferSz b * 2 < 2 ^ 32) by (change ((2 ^ 32 - 1) / 2) with (2 ^ 31 - 1) in Hh; lia).
    rewrite (wrap32_small (bufferSz b * 2)) by lia.
    destruct (Z.ltb_spec (b_length b - b_idx b + dataSz) (bufferSz b * 2)); rewrite wrap32_small by lia; lia.
  - rewrite wrap32_small by lia. lia.
Qed.

Lemma AppendBuffer_ok (mem : bool) (data : bytes) (b : WOLFSSH_BUFFER) :
  buffer_ok b -> blen data < 2 ^ 32 ->
  match AppendBuffer mem data b with
  | (Ok _, b') => buffer_ok b' /\ unread b' = unread b ++ data
  | (Err e, b') => b' = b /\
      (e = WS_OVERFLOW_E /\ 2 ^ 32 <= blen (unread b) + blen data \/ e = WS_MEMORY_E /\ mem = false)
  | (UB, _) => False
  end.
Proof.
  intros Hok Hd. pose proof Hok as []. pose proof (unread_length b Hok) as Hl.
  pose proof (blen_nonneg data). unfold AppendBuffer. run.
  destruct (Z.ltb_spec (UINT32_MAX -w (b_length b -w b_idx b)) (blen data)) as [Hov|Hfit].
  { split; [done|]. left. split; [done|]. rewrite Hl. rewrite (used_small b Hok) in Hov.
    unfold UINT32_MAX in Hov. rewrite wrap32_small in Hov by lia. lia. }
  destruct (append_grow_size b (blen data) Hok ltac:(lia) Hfit) as [Hg1 Hg2].
  set (growSz := if bufferSz b <? _ then _ else _) in *.
  pose proof (GrowBuffer_ok mem growSz b Hok ltac:(lia) Hg2) as HG.
  unfold mbind at 1, ST_bind at 1.
  destruct (GrowBuffer mem growSz b) as [[[]|e|] b1]; [|destruct HG as (->&->&->); auto|done].
  destruct HG as (Hok1&Hun&Hroom&_). run. pose proof Hok1 as []. pose proof (unread_length b1 Hok1).
  unfold room in Hroom.
  destruct (buffer_write_ok (b_length b1) data b1) as (a&Hw&E); [lia|lia|].
  rewrite (ST_bind_ok _ _ _ _ _ E). unfold modify.
  destruct (set_buffer_fields a b1) as (F1&F2&F3&F4).
  assert (b_length (set_buffer a b1) +w blen data = b_length b1 + blen data) as Hlen
    by (rewrite F1; apply wrap32_small; lia).
  pose proof (blen_wr _ _ _ _ Hw) as Ha.
  remember (set_buffer a b1) as b2.
  assert (buffer (b2 <| b_length ::= (fun l => l +w blen data) |>) = a) as Hbuf
    by (rewrite <- (buffer_set_buffer a b1); subst b2; done).
  split.
  - split; cbn -[wrap32]; rewrite ?Hbuf, ?Hlen; try lia.
    subst b2. unfold set_buffer in *. revert Ha. unfold buffer. destruct (dynamicFlag b1) eqn:Ed; cbn; congruence.
  - unfold unread at 1. rewrite Hbuf. cbn -[wrap32]. rewrite Hlen, F2, <- Hun. unfold unread.
    replace (b_length b1 + blen data - b_idx b1) with (b_length b1 - b_idx b1 + blen data) by lia.
    apply slice_wr_suffix; [lia|lia|exact Hw].
Qed.

(** Appending. [AppendBuffer] leaves exactly the unread bytes followed by the
    data, never writes outside the array, and on an error (the size would not
    fit 32 bits, or no memory) leaves the buffer as it was. *)
Theorem AppendBuffer_spec (mem : bool) (data : bytes) (b : WOLFSSH_BUFFER) :
  buffer_ok b -> blen data < 2 ^ 32 ->
  match AppendBuffer mem data b with
  | (Ok _, b') => buffer_ok b' /\ unread b' = unread b ++ data
  | (Err e, b') => b' = b /\
      (e = WS_OVERFLOW_E /\ 2 ^ 32 <= blen (unread b) + blen data \/ e = WS_MEMORY_E /\ mem = false)
  | (UB, _) => False
  end.
Proof. apply AppendBuffer_ok. Qed.

Example AppendBuffer_spec_witness :
  let b := mkBuffer 5 2 20 (zeros 2 ++ [7; 8; 9] ++ zeros 15) (zeros 16) true in
  match AppendBuffer true [1; 2] b with (Ok _, b') => unread b' = [7; 8; 9; 1; 2] | _ => False end.
Proof.
  cbv zeta. generalize (AppendBuffer_spec true [1; 2] _ buffer_ok_example).
  destruct (AppendBuffer true [1; 2] _) as [[[]|e|] b'] eqn:E; intros H.
  - destruct H as (_&U); [vm_compute; reflexivity|]. rewrite U. vm_compute. reflexivity.
  - vm_compute in E. discriminate.
  - apply H. vm_compute; reflexivity.
Defined.
