(* ===== verification/Fwd.v ===== *)
(** Remote port forwarding on the client (internal.c, [FwdRemoteAddrIsWild] to
    [FwdRemoteFreeList]): which forwards this client asked for, the queue of
    requests the peer still owes a reply, and the requests inside their own
    send, whose callbacks may reenter the library.

    The objects live in stores indexed by location, so that several pointers to
    one object share it and a read of a freed one is undefined behaviour. A
    linked list is the list of the locations reached from its head; the names
    [bindAddr] of a slot still in its send window are the caller's. *)

From S2P Require Import Prelude Codes Wire.

Definition loc : Type := positive.

Record WOLFSSH_FWD_REMOTE := mkRemote {
  bindAddr : bytes;
  bindPort : Z;
  portPending : bool;
  confirmed : bool
}.
#[export] Instance eta_remote : Eta WOLFSSH_FWD_REMOTE := fun r =>
  mkRemote (bindAddr r) (bindPort r) (portPending r) (confirmed r).

Record WOLFSSH_FWD_REPLY := mkReply {
  r_entry : option loc;
  r_bindAddr : option bytes;
  r_bindPort : Z;
  r_port : Z;
  r_isCancel : bool;
  uncommitted : bool;
  answered : bool;
  r_success : bool
}.
#[export] Instance eta_reply : Eta WOLFSSH_FWD_REPLY := fun r =>
  mkReply (r_entry r) (r_bindAddr r) (r_bindPort r) (r_port r) (r_isCancel r)
    (uncommitted r) (answered r) (r_success r).

Record WOLFSSH_FWD_PENDING := mkPending {
  p_entry : option loc;
  p_found : option loc;
  p_reply : option loc;
  p_isCancel : bool
}.
#[export] Instance eta_pending : Eta WOLFSSH_FWD_PENDING := fun r =>
  mkPending (p_entry r) (p_found r) (p_reply r) (p_isCancel r).
Definition zero_pending : WOLFSSH_FWD_PENDING := mkPending None None None false.

(** The fields of [WOLFSSH] the forwards are kept in, and the objects they
    reach. [fwdNext] is the next location an allocation returns. *)
Record FwdState := mkFwd {
  remotes : gmap loc WOLFSSH_FWD_REMOTE;
  replies : gmap loc WOLFSSH_FWD_REPLY;
  pendings : gmap loc WOLFSSH_FWD_PENDING;
  fwdRemoteList : list loc;
  fwdReplyQueue : list loc;      (* from fwdReplyHead *)
  fwdReplyTail : option loc;
  fwdPendingList : list loc;     (* from fwdPendingHead *)
  fwdReplyCount : Z;
  fwdRemoteMatch : Z;
  fwdNext : loc
}.
#[export] Instance eta_fwd : Eta FwdState := fun s =>
  mkFwd (remotes s) (replies s) (pendings s) (fwdRemoteList s) (fwdReplyQueue s)
    (fwdReplyTail s) (fwdPendingList s) (fwdReplyCount s) (fwdRemoteMatch s) (fwdNext s).

Definition fwd_init : FwdState := mkFwd ∅ ∅ ∅ [] [] None [] 0 0 1%positive.

(** Loads and stores through a pointer. *)
Definition ld_remote (l : loc) : ST FwdState WOLFSSH_FWD_REMOTE :=
  s ← get; deref (remotes s !! l).
Definition ld_reply (l : loc) : ST FwdState WOLFSSH_FWD_REPLY :=
  s ← get; deref (replies s !! l).
Definition ld_pending (l : loc) : ST FwdState WOLFSSH_FWD_PENDING :=
  s ← get; deref (pendings s !! l).
Definition st_remote (l : loc) (f : WOLFSSH_FWD_REMOTE -> WOLFSSH_FWD_REMOTE) : ST FwdState unit :=
  r ← ld_remote l; modify (fun s => s <| remotes ::= <[l := f r]> |>).
Definition st_reply (l : loc) (f : WOLFSSH_FWD_REPLY -> WOLFSSH_FWD_REPLY) : ST FwdState unit :=
  r ← ld_reply l; modify (fun s => s <| replies ::= <[l := f r]> |>).
Definition st_pending (l : loc) (f : WOLFSSH_FWD_PENDING -> WOLFSSH_FWD_PENDING) : ST FwdState unit :=
  r ← ld_pending l; modify (fun s => s <| pendings ::= <[l := f r]> |>).

Definition new_loc : ST FwdState loc :=
  s ← get; modify (fun s => s <| fwdNext ::= Pos.succ |>);; mret (fwdNext s).

Definition is_loc (o : option loc) (l : loc) : bool := bool_decide (o = Some l).

(** [t->next = r] with [r->next == NULL], on the chain from the head. *)
Fixpoint link_after (t r : loc) (l : list loc) : list loc :=
  match l with
  | [] => []
  | y :: l' => if decide (y = t) then [y; r] else y :: link_after t r l'
  end.

(** ** Bind addresses *)

Definition wild : list bytes :=
  [str "*"; str "0.0.0.0"; str "::"; str "::0"; str "0:0:0:0:0:0:0:0"; str "::ffff:0.0.0.0"].

Definition FwdRemoteAddrIsWild (addr : bytes) : bool :=
  bytes_eqb (cstr addr) [] || existsb (fun w => strcmp_eq addr w) wild.

(** ** Scans of the queues *)

Definition FwdReplyVoid (entry : loc) : ST FwdState unit :=
  s ← get;
  for_each (fwdReplyQueue s) (fun reply =>
    r ← ld_reply reply;
    when (is_loc (r_entry r) entry) (st_reply reply (fun r => r <| r_entry := None |>))).

Definition FwdReplyRebind (from to : loc) : ST FwdState unit :=
  s ← get;
  for_each (fwdReplyQueue s) (fun reply =>
    r ← ld_reply reply;
    when (is_loc (r_entry r) from) (st_reply reply (fun r => r <| r_entry := Some to |>))).

Definition FwdPendingPush (pend : loc) : ST FwdState unit :=
  ld_pending pend;;
  modify (fun s => s <| fwdPendingList ::= cons pend |>).

Definition FwdPendingPop (pend : loc) : ST FwdState unit :=
  s ← get;
  for_each (fwdPendingList s) (fun cur => ld_pending cur;; mret tt);;
  modify (fun s => s <| fwdPendingList ::= remove_first pend |>).

Definition FwdPendingVoid (entry : loc) : ST FwdState unit :=
  s ← get;
  for_each (fwdPendingList s) (fun pend =>
    p ← ld_pending pend;
    when (is_loc (p_entry p) entry) (st_pending pend (fun p => p <| p_entry := None |>));;
    p ← ld_pending pend;
    when (is_loc (p_found p) entry) (st_pending pend (fun p => p <| p_found := None |>))).

Definition FwdPendingRebind (from to : loc) : ST FwdState unit :=
  s ← get;
  for_each (fwdPendingList s) (fun pend =>
    p ← ld_pending pend;
    when (is_loc (p_found p) from) (st_pending pend (fun p => p <| p_found := Some to |>))).

(** A forward found by its bind: one with no port yet is not found. *)
Definition names_bind (bindAddr' : bytes) (bindPort' : Z) (r : WOLFSSH_FWD_REMOTE) : bool :=
  negb (portPending r) && (bindPort r =? bindPort') && strcmp_eq (bindAddr r) bindAddr'.

Definition FwdPendingFind (bindAddr' : bytes) (bindPort' : Z) : ST FwdState (option loc) :=
  s ← get;
  pend ← find_first (fwdPendingList s) (fun pend =>
    p ← ld_pending pend;
    match p_entry p with
    | None => mret false
    | Some e => r ← ld_remote e; mret (names_bind bindAddr' bindPort' r)
    end);
  match pend with
  | None => mret None
  | Some pend => p ← ld_pending pend; mret (p_entry p)
  end.

Definition FwdPendingHasCancel (entry : loc) : ST FwdState bool :=
  s ← get;
  pend ← find_first (fwdPendingList s) (fun pend =>
    p ← ld_pending pend; mret (p_isCancel p && is_loc (p_found p) entry));
  mret (bool_decide (pend <> None)).

Definition FwdRemoteUnlink (entry : loc) : ST FwdState unit :=
  s ← get;
  for_each (fwdRemoteList s) (fun cur => ld_remote cur;; mret tt);;
  modify (fun s => s <| fwdRemoteList ::= remove_first entry |>);;
  FwdReplyVoid entry;;
  FwdPendingVoid entry;;
  ld_remote entry;;
  modify (fun s => s <| remotes ::= delete entry |>).

Definition FwdReplyNames (reply : WOLFSSH_FWD_REPLY) (entry : loc) : ST FwdState bool :=
  if is_loc (r_entry reply) entry then mret true
  else match r_bindAddr reply with
  | None => mret false
  | Some a =>
    if negb (uncommitted reply) then mret false
    else e ← ld_remote entry; mret (names_bind a (r_bindPort reply) e)
  end.

(** The newest slot that names [entry]: the last one of the queue. *)
Definition FwdReplyNewest (entry : loc) : ST FwdState (option loc) :=
  s ← get;
  find_last (fwdReplyQueue s) (fun cur => r ← ld_reply cur; FwdReplyNames r entry) None.

Definition FwdReplyHasSetup (entry : loc) : ST FwdState bool :=
  s ← get;
  r ← find_first (fwdReplyQueue s) (fun cur =>
    r ← ld_reply cur;
    if negb (r_isCancel r) then FwdReplyNames r entry else mret false);
  mret (bool_decide (r <> None)).

Definition FwdRemoteFind (bindAddr' : bytes) (bindPort' : Z) : ST FwdState (option loc) :=
  s ← get;
  find_first (fwdRemoteList s) (fun cur => r ← ld_remote cur; mret (names_bind bindAddr' bindPort' r)).

(** ** Applying an answer *)

(** The peer named a port another registration already stands for. *)
Definition FwdRemoteSettle_dup (entry dup : loc) : ST FwdState unit :=
  d ← ld_remote dup;
  e ← ld_remote entry;
  if bool_decide (dup = entry) || portPending d || negb (bindPort d =? bindPort e)
     || negb (strcmp_eq (bindAddr d) (bindAddr e))
  then mret tt
  else
    FwdReplyRebind dup entry;;
    FwdPendingRebind dup entry;;
    FwdRemoteUnlink dup.

Definition FwdRemoteSettle (entry : option loc) (isCancel success : bool) (port : Z)
    : ST FwdState unit :=
  match entry with
  | None => mret tt
  | Some entry =>
    e ← ld_remote entry;
    if isCancel then
      if negb success then
        if negb (confirmed e) then
          setup ← FwdReplyHasSetup entry;
          when (negb setup) (FwdRemoteUnlink entry)
        else mret tt
      else
        setup ← FwdReplyHasSetup entry;
        if (setup : bool) then st_remote entry (fun e => e <| confirmed := false |>)
        else FwdRemoteUnlink entry
    else if negb success then
      if negb (confirmed e) then
        newest ← FwdReplyNewest entry;
        when (bool_decide (newest = None)) (FwdRemoteUnlink entry)
      else mret tt
    else if portPending e then
      if (port =? 0) || (65535 <? port) then FwdRemoteUnlink entry
      else
        st_remote entry (fun e => e <| bindPort := port |>);;
        st_remote entry (fun e => e <| portPending := false |>);;
        s ← get;
        for_each (fwdRemoteList s) (FwdRemoteSettle_dup entry);;
        st_remote entry (fun e => e <| confirmed := true |>)
    else st_remote entry (fun e => e <| confirmed := true |>)
  end.

(** ** Slots of the reply queue *)

Definition FwdReplyNew (mem : bool) (isCancel : bool) (bindAddr' : option bytes) (bindPort' : Z)
    : ST FwdState (option loc) :=
  if negb mem then mret None
  else
    reply ← new_loc;
    modify (fun s => s <| replies ::=
      <[reply := mkReply None bindAddr' bindPort' 0 isCancel true false false]> |>);;
    s ← get;
    match fwdReplyTail s with
    | None => modify (fun s => s <| fwdReplyQueue := [reply] |>)
    | Some tail =>
      ld_reply tail;;
      modify (fun s => s <| fwdReplyQueue ::= link_after tail reply |>)
    end;;
    modify (fun s => s <| fwdReplyTail := Some reply |> <| fwdReplyCount ::= (fun c => c +w 1) |>);;
    mret (Some reply).

(** The node before the first [x] of a list. *)
Fixpoint prev_of (x : loc) (prev : option loc) (l : list loc) : option (option loc) :=
  match l with
  | [] => None
  | y :: r => if decide (y = x) then Some prev else prev_of x (Some y) r
  end.

Definition FwdReplyUnqueue (reply : loc) : ST FwdState unit :=
  s ← get;
  for_each (fwdReplyQueue s) (fun cur => ld_reply cur;; mret tt);;
  match prev_of reply None (fwdReplyQueue s) with
  | None => mret tt
  | Some prev =>
    modify (fun s => s <| fwdReplyQueue ::= remove_first reply |>
      <| fwdReplyTail ::= (fun t => if is_loc t reply then prev else t) |>
      <| fwdReplyCount ::= (fun c => c -w 1) |>);;
    modify (fun s => s <| replies ::= delete reply |>)
  end.

(** ** Before and after the send *)

(** [FwdRemotePrepare(ssh, bindAddr, bindPort, wantReply, isCancel, pend)];
    [mem] are the outcomes of its three allocations. *)
Definition FwdRemotePrepare (mem : bool * bool * bool) (addr : bytes) (port : Z)
    (wantReply isCancel : bool) (pend : loc) : ST FwdState unit :=
  let '(memEntry, memAddr, memReply) := mem in
  st_pending pend (fun _ => zero_pending);;
  s ← get;
  guard_err (wantReply && (WOLFSSH_MAX_FWD_REPLIES <=? fwdReplyCount s)) WS_RESOURCE_E;;
  st_pending pend (fun p => p <| p_isCancel := isCancel |>);;
  found ← FwdRemoteFind addr port;
  found ← match found with
          | None => FwdPendingFind addr port
          | Some _ => mret found
          end;
  entry ← (if isCancel || bool_decide (found <> None) then mret (None : option loc)
           else if negb memEntry || negb memAddr then
             st_pending pend (fun _ => zero_pending);; fail WS_MEMORY_E
           else
             entry ← new_loc;
             modify (fun s => s <| remotes ::=
               <[entry := mkRemote (cstr addr) port (port =? 0) false]> |>);;
             st_pending pend (fun p => p <| p_entry := Some entry |>);;
             mret (Some entry));
  (if wantReply then
     reply ← FwdReplyNew memReply isCancel (Some addr) port;
     match reply with
     | None =>
       match entry with
       | Some entry => modify (fun s => s <| remotes ::= delete entry |>)
       | None => mret tt
       end;;
       st_pending pend (fun _ => zero_pending);;
       fail WS_MEMORY_E
     | Some _ => st_pending pend (fun p => p <| p_reply := reply |>)
     end
   else mret tt);;
  st_pending pend (fun p => p <| p_found := found |>);;
  FwdPendingPush pend.

Definition FwdReplyPrepare (mem : bool) (pend : loc) : ST FwdState unit :=
  st_pending pend (fun _ => zero_pending);;
  s ← get;
  guard_err (WOLFSSH_MAX_FWD_REPLIES <=? fwdReplyCount s) WS_RESOURCE_E;;
  reply ← FwdReplyNew mem false None 0;
  guard_err (bool_decide (reply = None)) WS_MEMORY_E;;
  st_pending pend (fun p => p <| p_reply := reply |>);;
  FwdPendingPush pend.

Definition FwdPendingCommit (pend : loc) : ST FwdState unit :=
  FwdPendingPop pend;;
  p ← ld_pending pend;
  let target := match p_entry p with Some _ => p_entry p | None => p_found p end in
  target ← match p_entry p with
    | None => mret target
    | Some entry =>
      e ← ld_remote entry;
      if negb (portPending e) then
        dup ← FwdRemoteFind (bindAddr e) (bindPort e);
        match dup with
        | None => mret target
        | Some dup =>
          FwdReplyRebind entry dup;;
          FwdRemoteUnlink entry;;
          st_pending pend (fun p => p <| p_entry := None |>);;
          mret (Some dup)
        end
      else mret target
    end;
  p ← ld_pending pend;
  match p_entry p with
  | Some entry =>
    s ← get;
    for_each (fwdRemoteList s) (fun cur => ld_remote cur;; mret tt);;
    modify (fun s => s <| fwdRemoteList ::= (fun l => l ++ [entry]) |>)
  | None => mret tt
  end;;
  match p_reply p with
  | Some reply =>
    r ← ld_reply reply;
    if answered r then
      FwdRemoteSettle target (r_isCancel r) (r_success r) (r_port r);;
      ld_reply reply;;
      modify (fun s => s <| replies ::= delete reply |>)
    else
      st_reply reply (fun r => r <| r_entry := target |> <| r_bindAddr := None |>
                                 <| uncommitted := false |>)
  | None =>
    match target with
    | None => mret tt
    | Some t =>
      if p_isCancel p then FwdRemoteUnlink t
      else FwdReplyVoid t;; st_remote t (fun e => e <| confirmed := true |>)
    end
  end;;
  st_pending pend (fun _ => zero_pending).

Definition FwdPendingDiscard (pend : loc) : ST FwdState unit :=
  FwdPendingPop pend;;
  p ← ld_pending pend;
  match p_entry p with
  | Some entry => FwdRemoteUnlink entry
  | None => mret tt
  end;;
  match p_reply p with
  | Some reply =>
    r ← ld_reply reply;
    if answered r then modify (fun s => s <| replies ::= delete reply |>)
    else FwdReplyUnqueue reply
  | None => mret tt
  end;;
  st_pending pend (fun _ => zero_pending).

(** ** Matching an inbound open *)

Definition FwdRemoteAddrMatch (entry : WOLFSSH_FWD_REMOTE) (addr : bytes) (port : Z)
    : ST FwdState bool :=
  s ← get;
  mret (if portPending entry || negb (bindPort entry =? port) then false
        else (fwdRemoteMatch s =? WOLFSSH_FWD_MATCH_PORT) || FwdRemoteAddrIsWild (bindAddr entry)
             || strcmp_eq (bindAddr entry) addr).

(** Whether the newest request naming a forward is a cancel. *)
Definition cancelled (entry : loc) : ST FwdState (bool * option loc) :=
  newest ← FwdReplyNewest entry;
  c ← match newest with
      | None => mret false
      | Some n => r ← ld_reply n; mret (r_isCancel r)
      end;
  if (c : bool) then mret (true, newest)
  else h ← FwdPendingHasCancel entry; mret (h, newest).

Definition FwdRemoteMatch (addr : option bytes) (port : Z) : ST FwdState bool :=
  match addr with
  | None => mret false
  | Some addr =>
    s ← get;
    if fwdRemoteMatch s =? WOLFSSH_FWD_MATCH_OFF then mret true
    else
      cur ← find_first (fwdRemoteList s) (fun cur =>
        e ← ld_remote cur;
        m ← FwdRemoteAddrMatch e addr port;
        if negb m then mret false
        else
          '(c, newest) ← cancelled cur;
          if (c : bool) then mret false
          else if negb (confirmed e) && bool_decide (newest = None) then mret false
          else mret true);
      match cur with
      | Some _ => mret true
      | None =>
        pend ← find_first (fwdPendingList s) (fun pend =>
          p ← ld_pending pend;
          match p_entry p with
          | None => mret false
          | Some entry =>
            e ← ld_remote entry;
            m ← FwdRemoteAddrMatch e addr port;
            if negb m then mret false
            else
              '(c, _) ← cancelled entry;
              if (c : bool) then mret false
              else match p_reply p with
                   | None => mret true
                   | Some reply => r ← ld_reply reply; mret (negb (answered r && negb (r_success r)))
                   end
          end);
        mret (bool_decide (pend <> None))
      end
  end.

(** ** Replies *)

Definition reply_port (success : bool) (buf : option bytes) (len : Z) : ST FwdState (option Z) :=
  match buf with
  | Some b => if success && (UINT32_SZ <=? len) then v ← deref (ato32 b); mret (Some v) else mret None
  | None => mret None
  end.

Definition FwdRemoteReply (success : bool) (buf : option bytes) (len : Z) : ST FwdState unit :=
  s ← get;
  match fwdReplyQueue s with
  | [] => mret tt
  | reply :: rest =>
    r ← ld_reply reply;
    modify (fun s => s <| fwdReplyQueue := rest |>
      <| fwdReplyTail ::= (fun t => if bool_decide (rest = []) then None else t) |>
      <| fwdReplyCount ::= (fun c => c -w 1) |>);;
    if uncommitted r then
      st_reply reply (fun r => r <| answered := true |> <| r_success := success |>);;
      port ← reply_port success buf len;
      match port with
      | Some v => st_reply reply (fun r => r <| r_port := v |>)
      | None => mret tt
      end
    else
      port ← reply_port success buf len;
      modify (fun s => s <| replies ::= delete reply |>);;
      FwdRemoteSettle (r_entry r) (r_isCancel r) success (default 0 port)
  end.

Definition FwdRemoteFreeList : ST FwdState unit :=
  s ← get;
  for_each (fwdRemoteList s) (fun cur => ld_remote cur;; modify (fun s => s <| remotes ::= delete cur |>));;
  modify (fun s => s <| fwdRemoteList := [] |>);;
  for_each (fwdReplyQueue s) (fun cur => ld_reply cur;; modify (fun s => s <| replies ::= delete cur |>));;
  modify (fun s => s <| fwdReplyQueue := [] |> <| fwdReplyTail := None |> <| fwdReplyCount := 0 |>).

(** ** Looking a forward up reads only live objects *)

(** What every list of the forwards reaches is live. *)
Record fwd_live (f : FwdState) : Prop := {
  fl_remotes : forall l, l ∈ fwdRemoteList f -> is_Some (remotes f !! l);
  fl_replies : forall l, l ∈ fwdReplyQueue f -> is_Some (replies f !! l);
  fl_pendings : forall l, l ∈ fwdPendingList f -> exists p, pendings f !! l = Some p /\
    (forall e, p_entry p = Some e -> is_Some (remotes f !! e)) /\
    (forall r, p_reply p = Some r -> is_Some (replies f !! r))
}.

Lemma fwd_init_live : fwd_live fwd_init.
Proof. split; intros l Hl; by apply elem_of_nil in Hl. Qed.

Lemma reads_remote l f : is_Some (remotes f !! l) -> reads (ld_remote l) f.
Proof. intros [r E]. exists r. unfold ld_remote. rewrite st_get, E. done. Qed.

Lemma reads_reply l f : is_Some (replies f !! l) -> reads (ld_reply l) f.
Proof. intros [r E]. exists r. unfold ld_reply. rewrite st_get, E. done. Qed.

Lemma ld_pending_run l p f : pendings f !! l = Some p -> ld_pending l f = (Ok p, f).
Proof. intros E. unfold ld_pending. rewrite st_get, E. done. Qed.

Lemma reads_names r entry f : is_Some (remotes f !! entry) -> reads (FwdReplyNames r entry) f.
Proof.
  intros He. unfold FwdReplyNames. apply reads_if; [intros _; apply reads_ret|intros _].
  destruct (r_bindAddr r); [|apply reads_ret]. apply reads_if; [intros _; apply reads_ret|intros _].
  apply reads_bind; [by apply reads_remote|]. intros e _. apply reads_ret.
Qed.

Lemma reads_newest entry f : fwd_live f -> is_Some (remotes f !! entry) -> reads (FwdReplyNewest entry) f.
Proof.
  intros Hf He. unfold FwdReplyNewest. apply reads_get, reads_find_last. intros x Hx.
  apply reads_bind; [by apply reads_reply, fl_replies|]. intros r _. by apply reads_names.
Qed.

Lemma find_last_in {S A} (l : list A) (p : A -> ST S bool) o s x s' :
  find_last l p o s = (Ok (Some x), s') -> x ∈ l \/ o = Some x.
Proof.
  revert s o. induction l as [|y l IH]; intros s o; [intros [= ->]; by right|]. cbn. unfold mbind, ST_bind.
  destruct (p y s) as [[b|e|] s1]; [|done..]. intros E. apply IH in E as [E|E]; [left; set_solver|].
  destruct b; [|by right]. injection E as ->. left. set_solver.
Qed.

Lemma reads_cancelled entry f : fwd_live f -> is_Some (remotes f !! entry) -> reads (cancelled entry) f.
Proof.
  intros Hf He. unfold cancelled. apply reads_bind; [by apply reads_newest|]. intros newest Hn.
  apply reads_bind.
  - destruct newest as [n|]; [|apply reads_ret]. apply reads_bind; [|intros r _; apply reads_ret].
    apply reads_reply, fl_replies; [done|]. unfold FwdReplyNewest in Hn. rewrite st_get in Hn.
    by apply find_last_in in Hn as [|].
  - intros c _. apply reads_if; [intros _; apply reads_ret|intros _].
    apply reads_bind; [|intros h _; apply reads_ret].
    unfold FwdPendingHasCancel. apply reads_get, reads_bind; [|intros o _; apply reads_ret].
    apply reads_find_first. intros x Hx. destruct (fl_pendings _ Hf x Hx) as (p&Hp&_).
    apply reads_bind; [exists p; by apply ld_pending_run|]. intros q _. apply reads_ret.
Qed.

(** Matching an inbound open against the forwards changes nothing. *)
Lemma reads_match addr port f : fwd_live f -> reads (FwdRemoteMatch addr port) f.
Proof.
  intros Hf. unfold FwdRemoteMatch. destruct addr as [addr|]; [|apply reads_ret].
  apply reads_get, reads_if; [intros _; apply reads_ret|intros _].
  assert (forall e, reads (FwdRemoteAddrMatch e addr port) f) as Hm.
  { intros e. unfold FwdRemoteAddrMatch. apply reads_get, reads_ret. }
  apply reads_bind.
  - apply reads_find_first. intros x Hx.
    apply reads_bind; [by apply reads_remote, fl_remotes|]. intros e _.
    apply reads_bind; [apply Hm|]. intros m _. apply reads_if; [intros _; apply reads_ret|intros _].
    apply reads_bind; [by apply reads_cancelled, fl_remotes|]. intros [c n] _.
    apply reads_if; [intros _; apply reads_ret|intros _]. apply reads_if; intros _; apply reads_ret.
  - intros [x|] _; [apply reads_ret|]. apply reads_bind; [|intros o _; apply reads_ret].
    apply reads_find_first. intros x Hx. destruct (fl_pendings _ Hf x Hx) as (p&Hp&He&Hr).
    apply reads_bind; [exists p; by apply ld_pending_run|]. intros p' E.
    rewrite (ld_pending_run _ _ _ Hp) in E. injection E as <-.
    destruct (p_entry p) as [entry|]; [|apply reads_ret].
    apply reads_bind; [by apply reads_remote, He|]. intros e _.
    apply reads_bind; [apply Hm|]. intros m _. apply reads_if; [intros _; apply reads_ret|intros _].
    apply reads_bind; [by apply reads_cancelled, He|]. intros [c n] _.
    apply reads_if; [intros _; apply reads_ret|intros _]. destruct (p_reply p) as [r|]; [|apply reads_ret].
    apply reads_bind; [by apply reads_reply, Hr|]. intros r' _. apply reads_ret.
Qed.
