(* ===== verification/Algos.v ===== *)
(** What the library knows about each algorithm id (internal.c, [BlockSzForId]
    to [SetPeerAlgoIds]): block, key and MAC sizes, hashes and curves, the client
    host key list, and the parameters a key exchange settles on.

    The enumerators of wolfCrypt that these functions only pass on are the
    constructors of inductive types; its size constants have the values of the
    standards (AES, SHA). *)

From S2P Require Import Prelude Codes Names.

Inductive wc_HashType : Type :=
| WC_HASH_TYPE_NONE
| WC_HASH_TYPE_SHA
| WC_HASH_TYPE_SHA256
| WC_HASH_TYPE_SHA384
| WC_HASH_TYPE_SHA512.

Inductive ecc_curve_id : Type :=
| ECC_CURVE_INVALID
| ECC_SECP256R1
| ECC_SECP384R1
| ECC_SECP521R1
| ECC_X25519.

Definition AES_BLOCK_SIZE : Z := 16.
Definition AES_128_KEY_SIZE : Z := 16.
Definition AES_192_KEY_SIZE : Z := 24.
Definition AES_256_KEY_SIZE : Z := 32.
Definition WC_SHA_DIGEST_SIZE : Z := 20.
Definition WC_SHA256_DIGEST_SIZE : Z := 32.
Definition WC_SHA512_DIGEST_SIZE : Z := 64.

Definition BlockSzForId (id : AlgoId) : Z :=
  match id with
  | ID_NONE => MIN_BLOCK_SZ
  | ID_AES128_CBC | ID_AES192_CBC | ID_AES256_CBC => AES_BLOCK_SIZE
  | ID_AES128_CTR | ID_AES192_CTR | ID_AES256_CTR => AES_BLOCK_SIZE
  | ID_AES128_GCM | ID_AES192_GCM | ID_AES256_GCM => AES_BLOCK_SIZE
  | _ => 0
  end.

Definition MacSzForId (id : AlgoId) : Z :=
  match id with
  | ID_HMAC_SHA1 => WC_SHA_DIGEST_SIZE
  | ID_HMAC_SHA1_96 => SHA1_96_SZ
  | ID_HMAC_SHA2_256 => WC_SHA256_DIGEST_SIZE
  | ID_HMAC_SHA2_512 => WC_SHA512_DIGEST_SIZE
  | _ => 0
  end.

Definition KeySzForId (id : AlgoId) : Z :=
  match id with
  | ID_HMAC_SHA1 => WC_SHA_DIGEST_SIZE
  | ID_HMAC_SHA1_96 => WC_SHA_DIGEST_SIZE
  | ID_HMAC_SHA2_256 => WC_SHA256_DIGEST_SIZE
  | ID_HMAC_SHA2_512 => WC_SHA512_DIGEST_SIZE
  | ID_AES128_CBC => AES_128_KEY_SIZE
  | ID_AES192_CBC => AES_192_KEY_SIZE
  | ID_AES256_CBC => AES_256_KEY_SIZE
  | ID_AES128_CTR => AES_128_KEY_SIZE
  | ID_AES192_CTR => AES_192_KEY_SIZE
  | ID_AES256_CTR => AES_256_KEY_SIZE
  | ID_AES128_GCM => AES_128_KEY_SIZE
  | ID_AES192_GCM => AES_192_KEY_SIZE
  | ID_AES256_GCM => AES_256_KEY_SIZE
  | _ => 0
  end.

Definition HashForId (id : AlgoId) : wc_HashType :=
  match id with
  | ID_DH_GROUP1_SHA1 => WC_HASH_TYPE_SHA
  | ID_DH_GROUP14_SHA1 => WC_HASH_TYPE_SHA
  | ID_SSH_RSA | ID_X509V3_SSH_RSA => WC_HASH_TYPE_SHA
  | ID_DH_GROUP14_SHA256 => WC_HASH_TYPE_SHA256
  | ID_DH_GEX_SHA256 => WC_HASH_TYPE_SHA256
  | ID_ECDH_SHA2_NISTP256 => WC_HASH_TYPE_SHA256
  | ID_ECDSA_SHA2_NISTP256 | ID_X509V3_ECDSA_SHA2_NISTP256
  | ID_OSSH_CERT_ECDSA_SHA2_NISTP256 => WC_HASH_TYPE_SHA256
  | ID_NISTP256_MLKEM768_SHA256 => WC_HASH_TYPE_SHA256
  | ID_CURVE25519_MLKEM768_SHA256 => WC_HASH_TYPE_SHA256
  | ID_CURVE25519_SHA256 | ID_CURVE25519_SHA256_LIBSSH => WC_HASH_TYPE_SHA256
  | ID_RSA_SHA2_256 => WC_HASH_TYPE_SHA256
  | ID_ED25519 | ID_OSSH_CERT_ED25519 => WC_HASH_TYPE_SHA512
  | ID_MLDSA44 | ID_X509V3_MLDSA44 => WC_HASH_TYPE_NONE
  | ID_MLDSA65 | ID_X509V3_MLDSA65 => WC_HASH_TYPE_NONE
  | ID_MLDSA87 | ID_X509V3_MLDSA87 => WC_HASH_TYPE_NONE
  | ID_ECDH_SHA2_NISTP384 => WC_HASH_TYPE_SHA384
  | ID_NISTP384_MLKEM1024_SHA384 => WC_HASH_TYPE_SHA384
  | ID_ECDSA_SHA2_NISTP384 | ID_X509V3_ECDSA_SHA2_NISTP384
  | ID_OSSH_CERT_ECDSA_SHA2_NISTP384 => WC_HASH_TYPE_SHA384
  | ID_ECDH_SHA2_NISTP521 => WC_HASH_TYPE_SHA512
  | ID_ECDSA_SHA2_NISTP521 | ID_X509V3_ECDSA_SHA2_NISTP521
  | ID_OSSH_CERT_ECDSA_SHA2_NISTP521 => WC_HASH_TYPE_SHA512
  | ID_DH_GROUP16_SHA512 => WC_HASH_TYPE_SHA512
  | ID_RSA_SHA2_512 => WC_HASH_TYPE_SHA512
  | _ => WC_HASH_TYPE_NONE
  end.

Definition wcPrimeForId (id : AlgoId) : ecc_curve_id :=
  match id with
  | ID_NISTP256_MLKEM768_SHA256 => ECC_SECP256R1
  | ID_ECDH_SHA2_NISTP256 => ECC_SECP256R1
  | ID_ECDSA_SHA2_NISTP256 => ECC_SECP256R1
  | ID_X509V3_ECDSA_SHA2_NISTP256 => ECC_SECP256R1
  | ID_ECDH_SHA2_NISTP384 => ECC_SECP384R1
  | ID_NISTP384_MLKEM1024_SHA384 => ECC_SECP384R1
  | ID_ECDSA_SHA2_NISTP384 => ECC_SECP384R1
  | ID_X509V3_ECDSA_SHA2_NISTP384 => ECC_SECP384R1
  | ID_CURVE25519_MLKEM768_SHA256 => ECC_X25519
  | ID_CURVE25519_SHA256 | ID_CURVE25519_SHA256_LIBSSH => ECC_X25519
  | ID_ECDH_SHA2_NISTP521 => ECC_SECP521R1
  | ID_ECDSA_SHA2_NISTP521 => ECC_SECP521R1
  | ID_X509V3_ECDSA_SHA2_NISTP521 => ECC_SECP521R1
  | _ => ECC_CURVE_INVALID
  end.

Definition PrimeNameForId (id : AlgoId) : bytes :=
  match id with
  | ID_ECDSA_SHA2_NISTP256 => str "nistp256"
  | ID_ECDSA_SHA2_NISTP384 => str "nistp384"
  | ID_ECDSA_SHA2_NISTP521 => str "nistp521"
  | ID_ED25519 => str "ed25519"
  | _ => str "unknown"
  end.

Definition AeadModeForId (id : AlgoId) : bool :=
  match id with
  | ID_AES128_GCM | ID_AES192_GCM | ID_AES256_GCM => true
  | _ => false
  end.

(** The client's host key algorithms, in its order of preference. *)
Definition cannedKeyAlgoClient : list AlgoId := [
  ID_X509V3_MLDSA87; ID_X509V3_MLDSA65; ID_X509V3_MLDSA44;
  ID_X509V3_ECDSA_SHA2_NISTP521; ID_X509V3_ECDSA_SHA2_NISTP384; ID_X509V3_ECDSA_SHA2_NISTP256;
  ID_MLDSA87_ED448; ID_MLDSA87_ES384; ID_MLDSA65_ED25519; ID_MLDSA65_ES256;
  ID_MLDSA44_ED25519; ID_MLDSA44_ES256; ID_MLDSA87; ID_MLDSA65; ID_MLDSA44;
  ID_OSSH_CERT_ECDSA_SHA2_NISTP521; ID_OSSH_CERT_ECDSA_SHA2_NISTP384;
  ID_OSSH_CERT_ECDSA_SHA2_NISTP256; ID_OSSH_CERT_ED25519; ID_OSSH_CERT_RSA;
  ID_ECDSA_SHA2_NISTP521; ID_ECDSA_SHA2_NISTP384; ID_ECDSA_SHA2_NISTP256; ID_ED25519;
  ID_RSA_SHA2_512; ID_RSA_SHA2_256
].

(** ** The parameters of a key exchange *)

Record Keys := mkKeys {
  iv : bytes;
  ivSz : Z;
  encKey : bytes;
  encKeySz : Z;
  macKey : bytes;
  macKeySz : Z
}.
#[export] Instance eta_keys : Eta Keys := fun k =>
  mkKeys (iv k) (ivSz k) (encKey k) (encKeySz k) (macKey k) (macKeySz k).

Record HandshakeInfo := mkHs {
  expectMsgId : Z;
  hs_kexId : AlgoId;
  hs_encryptId : AlgoId;
  hs_macId : AlgoId;
  hs_aeadMode : bool;
  hs_blockSz : Z;
  hs_macSz : Z;
  hs_keys : Keys;
  hs_peerEncryptId : AlgoId;
  hs_peerMacId : AlgoId;
  hs_peerAeadMode : bool;
  hs_peerBlockSz : Z;
  hs_peerMacSz : Z;
  hs_peerKeys : Keys;
  kexHashId : wc_HashType;
  pubKeyId : AlgoId;
  bannerLines : Z;
  kexHash : bytes;          (* wc_HashAlg *)
  hs_e : bytes;             (* e[0 .. eSz) *)
  hs_x : bytes;             (* x[0 .. xSz) *)
  kexInit : option bytes;
  dhGexMinSz : Z;
  dhGexPreferredSz : Z;
  dhGexMaxSz : Z;
  primeGroup : option bytes;
  generator : option bytes;
  ignoreNextKexMsg : bool;
  useDh : bool;
  useEcdh : bool;
  useCurve25519 : bool;
  useMlKem : bool;
  privKey : bytes           (* DhKey, ecc_key, curve25519_key *)
}.
#[export] Instance eta_hs : Eta HandshakeInfo := fun h =>
  mkHs (expectMsgId h) (hs_kexId h) (hs_encryptId h) (hs_macId h) (hs_aeadMode h)
    (hs_blockSz h) (hs_macSz h) (hs_keys h) (hs_peerEncryptId h) (hs_peerMacId h)
    (hs_peerAeadMode h) (hs_peerBlockSz h) (hs_peerMacSz h) (hs_peerKeys h)
    (kexHashId h) (pubKeyId h) (bannerLines h) (kexHash h) (hs_e h) (hs_x h) (kexInit h)
    (dhGexMinSz h) (dhGexPreferredSz h) (dhGexMaxSz h) (primeGroup h) (generator h)
    (ignoreNextKexMsg h) (useDh h) (useEcdh h) (useCurve25519 h) (useMlKem h) (privKey h).

Definition zero_keys : Keys := mkKeys (zeros 16) 0 (zeros 32) 0 (zeros MAX_HMAC_SZ) 0.

Definition HandshakeInfoNew (mem : bool) : option HandshakeInfo :=
  if negb mem then None
  else Some (mkHs 0 ID_NONE ID_NONE ID_NONE false MIN_BLOCK_SZ 0 zero_keys
               ID_NONE ID_NONE false MIN_BLOCK_SZ 0 zero_keys
               WC_HASH_TYPE_NONE ID_NONE 0 [] (zeros (MAX_KEX_KEY_SZ + 1)) (zeros (MAX_KEX_KEY_SZ + 1))
               None WOLFSSH_DEFAULT_GEXDH_MIN WOLFSSH_DEFAULT_GEXDH_PREFERRED
               WOLFSSH_DEFAULT_GEXDH_MAX None None false false false false false []).

Definition SetLocalAlgoIds (encId : AlgoId) (aeadMode : bool) (macId : AlgoId)
    (hs : HandshakeInfo) : HandshakeInfo :=
  let blkSz := BlockSzForId encId in
  let hs := hs <| hs_encryptId := encId |> <| hs_aeadMode := aeadMode |> <| hs_blockSz := blkSz |>
               <| hs_keys; encKeySz := KeySzForId encId |> in
  if negb aeadMode then
    hs <| hs_keys; ivSz := blkSz |> <| hs_macId := macId |> <| hs_macSz := MacSzForId macId |>
       <| hs_keys; macKeySz := KeySzForId macId |>
  else
    hs <| hs_keys; ivSz := AEAD_NONCE_SZ |> <| hs_macId := ID_NONE |> <| hs_macSz := blkSz |>
       <| hs_keys; macKeySz := 0 |>.

Definition SetPeerAlgoIds (encId : AlgoId) (aeadMode : bool) (macId : AlgoId)
    (hs : HandshakeInfo) : HandshakeInfo :=
  let blkSz := BlockSzForId encId in
  let hs := hs <| hs_peerEncryptId := encId |> <| hs_peerAeadMode := aeadMode |>
               <| hs_peerBlockSz := blkSz |> <| hs_peerKeys; encKeySz := KeySzForId encId |> in
  if negb aeadMode then
    hs <| hs_peerKeys; ivSz := blkSz |> <| hs_peerMacId := macId |>
       <| hs_peerMacSz := MacSzForId macId |> <| hs_peerKeys; macKeySz := KeySzForId macId |>
  else
    hs <| hs_peerKeys; ivSz := AEAD_NONCE_SZ |> <| hs_peerMacId := ID_NONE |>
       <| hs_peerMacSz := blkSz |> <| hs_peerKeys; macKeySz := 0 |>.

Definition IsKexMatchError (ret : Z) : bool :=
  (ret =? WS_MATCH_KEX_ALGO_E) || (ret =? WS_MATCH_KEY_ALGO_E)
  || (ret =? WS_MATCH_ENC_ALGO_E) || (ret =? WS_MATCH_MAC_ALGO_E).

(** ** Coherence *)

(** The parameters of one direction that a negotiated cipher and MAC lead to:
    what the packet code relies on. *)
Record suite_ok (encId : AlgoId) (aead : bool) (macId : AlgoId) (blkSz macSz : Z) (k : Keys) : Prop := {
  so_block : blkSz = BlockSzForId encId /\ (blkSz = MIN_BLOCK_SZ \/ blkSz = AES_BLOCK_SIZE);
  so_mac : 0 <= macSz <= MAX_HMAC_SZ;
  so_mac_for : aead = false -> macSz = MacSzForId macId /\ (0 < macSz \/ macId = ID_NONE);
  so_mac_none : aead = true -> macId = ID_NONE /\ macSz = AES_BLOCK_SIZE;
  so_iv : 0 <= ivSz k <= AES_BLOCK_SIZE;
  so_enc_key : 0 <= encKeySz k <= AES_256_KEY_SIZE;
  so_mac_key : 0 <= macKeySz k <= MAX_HMAC_SZ;
  so_aead : aead = AeadModeForId encId
}.

(** A cipher and a MAC the negotiation can settle on. *)
Definition is_cipher (id : AlgoId) : Prop := exists n, (id, TYPE_CIPHER, n) ∈ NameIdMap.
Definition is_mac (id : AlgoId) : Prop := exists n, (id, TYPE_MAC, n) ∈ NameIdMap.

Definition table_check (ty : NameIdType) (p : AlgoId -> bool) : bool :=
  forallb (fun '(i, t, _) => negb (bool_decide (t = ty)) || p i) NameIdMap.

Lemma table_check_elim ty p id n :
  table_check ty p = true -> (id, ty, n) ∈ NameIdMap -> p id = true.
Proof.
  intros H Hin%list_elem_of_In. pose proof (proj1 (forallb_forall _ _) H _ Hin) as Hp.
  cbn in Hp. by rewrite bool_decide_eq_true_2 in Hp by done.
Qed.

Lemma cipher_sizes id :
  is_cipher id ->
  BlockSzForId id = AES_BLOCK_SIZE /\ 0 < KeySzForId id <= AES_256_KEY_SIZE.
Proof.
  intros [n Hin].
  assert (table_check TYPE_CIPHER (fun id => (BlockSzForId id =? AES_BLOCK_SIZE)
    && (0 <? KeySzForId id) && (KeySzForId id <=? AES_256_KEY_SIZE)) = true) as H by (vm_compute; done).
  apply (table_check_elim _ _ _ _ H) in Hin.
  rewrite !andb_true_iff, Z.eqb_eq, Z.ltb_lt, Z.leb_le in Hin. tauto.
Qed.

Lemma mac_sizes id :
  is_mac id -> 0 < MacSzForId id <= KeySzForId id /\ KeySzForId id <= MAX_HMAC_SZ.
Proof.
  intros [n Hin].
  assert (table_check TYPE_MAC (fun id => (0 <? MacSzForId id) && (MacSzForId id <=? KeySzForId id)
    && (KeySzForId id <=? MAX_HMAC_SZ)) = true) as H by (vm_compute; done).
  apply (table_check_elim _ _ _ _ H) in Hin.
  rewrite !andb_true_iff, Z.ltb_lt, !Z.leb_le in Hin. tauto.
Qed.

(** C33: whatever cipher and MAC of the name table are negotiated for a
    direction, the sizes the key exchange installs fit the arrays of [Keys], the
    block size is never 0, and an AEAD cipher gets no separate MAC. *)
Theorem negotiated_suite_ok (encId macId : AlgoId) (hs : HandshakeInfo) :
  is_cipher encId -> is_mac macId ->
  let l := SetLocalAlgoIds encId (AeadModeForId encId) macId hs in
  let p := SetPeerAlgoIds encId (AeadModeForId encId) macId hs in
  suite_ok (hs_encryptId l) (hs_aeadMode l) (hs_macId l) (hs_blockSz l) (hs_macSz l) (hs_keys l) /\
  suite_ok (hs_peerEncryptId p) (hs_peerAeadMode p) (hs_peerMacId p) (hs_peerBlockSz p)
    (hs_peerMacSz p) (hs_peerKeys p) /\
  hs_encryptId l = encId /\ hs_peerEncryptId p = encId.
Proof.
  intros [Hb Hk]%cipher_sizes Hm%mac_sizes.
  unfold SetLocalAlgoIds, SetPeerAlgoIds.
  destruct (AeadModeForId encId) eqn:Ea; cbn -[BlockSzForId KeySzForId MacSzForId];
    rewrite ?Hb; repeat split; cbn -[BlockSzForId KeySzForId MacSzForId];
    rewrite ?Hb; try (by auto); try clia; try done; unfold AES_BLOCK_SIZE, AES_256_KEY_SIZE in *; try clia.
Qed.

Example negotiated_suite_ok_witness :
  exists hs, HandshakeInfoNew true = Some hs /\
  hs_macSz (SetLocalAlgoIds ID_AES256_GCM true ID_HMAC_SHA2_256 hs) = 16 /\
  suite_ok ID_AES256_GCM true ID_NONE 16 16 (hs_keys (SetLocalAlgoIds ID_AES256_GCM true ID_HMAC_SHA2_256 hs)).
Proof.
  eexists. split; [reflexivity|]. split; [reflexivity|].
  refine (proj1 (negotiated_suite_ok ID_AES256_GCM ID_HMAC_SHA2_256 _ _ _)).
  - exists (str "aes256-gcm@openssh.com"). apply list_elem_of_In. vm_compute. tauto.
  - exists (str "hmac-sha2-256"). apply list_elem_of_In. vm_compute. tauto.
Defined.
