(* ===== verification/Kdf.v ===== *)
(** Multiple precision integers and the derivation of keys (internal.c,
    [HashUpdate], [HashMpintHeader], [CreateMpint] and [GenerateKey]), with the
    reference they implement: the [mpint] of RFC 4251 section 5 and the key
    derivation of RFC 4253 section 7.2. *)

From S2P Require Import Prelude Codes Wire Names Buffer Algos.

(** ** Hash functions *)

(** The hash interface of wolfCrypt; the bytes are the contents of a
    [wc_HashAlg]. *)
Class Hashes := {
  wc_HashGetDigestSize : wc_HashType -> Z;
  wc_HashInit : wc_HashType -> res bytes;
  wc_HashUpdate : wc_HashType -> bytes -> bytes -> res bytes;
  wc_HashFinal : wc_HashType -> bytes -> res bytes
}.

(** The size of a digest, 0 for no hash. *)
Definition DigestSz (h : wc_HashType) : Z :=
  match h with
  | WC_HASH_TYPE_SHA => 20
  | WC_HASH_TYPE_SHA256 => 32
  | WC_HASH_TYPE_SHA384 => 48
  | WC_HASH_TYPE_SHA512 => 64
  | WC_HASH_TYPE_NONE => 0
  end.

(** What a hash library promises: the digest is a function of the bytes fed,
    however they were split, and has the size of its algorithm. *)
Class HashLaws `{Hashes} := {
  digest : wc_HashType -> bytes -> bytes;
  (* a context of type [t] that has been fed [m] *)
  holds : wc_HashType -> bytes -> bytes -> Prop;
  digest_size t m : blen (digest t m) = DigestSz t;
  GetDigestSize t : t <> WC_HASH_TYPE_NONE -> wc_HashGetDigestSize t = DigestSz t;
  GetDigestSize_none : wc_HashGetDigestSize WC_HASH_TYPE_NONE <= 0;
  init_holds t st : wc_HashInit t = Ok st -> holds t st [];
  update_holds t st m d st' : holds t st m -> wc_HashUpdate t st d = Ok st' -> holds t st' (m ++ d);
  final_digest t st m d : holds t st m -> wc_HashFinal t st = Ok d -> d = digest t m;
  init_def t : wc_HashInit t <> UB /\ wc_HashInit t <> Err 0;
  update_def t st m d : holds t st m -> wc_HashUpdate t st d <> UB /\ wc_HashUpdate t st d <> Err 0;
  final_def t st m : holds t st m -> wc_HashFinal t st <> UB /\ wc_HashFinal t st <> Err 0
}.

(** A library whose hash functions do not fail (software hashes do not). *)
Class HashTotal `{HashLaws} : Prop := {
  init_total t : t <> WC_HASH_TYPE_NONE -> exists st, wc_HashInit t = Ok st;
  update_total t st m d : holds t st m -> exists st', wc_HashUpdate t st d = Ok st';
  final_total t st m : holds t st m -> exists d, wc_HashFinal t st = Ok d
}.

(** ** The operations *)

Section Operations.
Context `{Hashes}.

Definition HashUpdate (type : wc_HashType) (data : bytes) : ST bytes unit := fun hash =>
  match wc_HashUpdate type hash data with
  | Ok hash' => (Ok tt, hash')
  | Err e => (Err e, hash)
  | UB => (UB, hash)
  end.

Definition HashMpintHeader (type : wc_HashType) (sz : Z) (pad : Z) : ST bytes unit :=
  let pad := Z.land pad 1 in
  let hdr := c32toa (sz +w pad) ++ [0] in
  HashUpdate type (slice hdr 0 (LENGTH_SZ + pad)).

(** [CreateMpint(buf, &sz, &pad)]: [buf] holds the [sz] bytes; what it holds
    afterwards, and the pad. *)
Fixpoint leading_zeros (buf : bytes) : nat :=
  match buf with
  | b :: r => if b =? 0 then S (leading_zeros r) else O
  | [] => O
  end.

Definition CreateMpint (buf : bytes) : bytes * Z :=
  let i := leading_zeros buf in
  if Nat.eqb i (length buf) then ([], 0)
  else
    let top := Z.shiftr (nth i buf 0) 7 in
    let back := Z.land top (b2z (0 <? Z.of_nat i)) in
    let i := (i - Z.to_nat back)%nat in
    (drop i buf, Z.lxor top back).

(** One hash over K, as an mpint, and the parts that follow it: what
    [GenerateKey] repeats for every block. *)
Definition hash_block (hashId : wc_HashType) (kSz kPad : Z) (parts : list bytes) : res bytes :=
  match wc_HashInit hashId with
  | Ok hash =>
    match (HashMpintHeader hashId kSz kPad;; for_each parts (HashUpdate hashId)) hash with
    | (Ok _, hash) => wc_HashFinal hashId hash
    | (Err e, _) => Err e
    | (UB, _) => UB
    end
  | Err e => Err e
  | UB => UB
  end.

(** [WMEMCPY(key + i, d, blen d)]. *)
Definition put_key (i : Z) (d : bytes) : ST bytes unit :=
  key ← get; key' ← deref (wr key i d); modify (fun _ => key').

Fixpoint GenerateKey_loop (hashId : wc_HashType) (kPad : Z) (k h : bytes) (digestSz : Z)
    (blocks : nat) (runningKeySz : Z) : ST bytes Z :=
  match blocks with
  | O => mret runningKeySz
  | S n =>
    key ← get;
    d ← lift_res (hash_block hashId (blen k) kPad [k; h; slice key 0 runningKeySz]);
    put_key runningKeySz d;;
    GenerateKey_loop hashId kPad k h digestSz n (runningKeySz +w digestSz)
  end.

(** The state is the array [key] points at. *)
Definition GenerateKey (hashId : wc_HashType) (keyId keySz : Z) (k h sessionId : bytes)
    (doKeyPad : bool) : ST bytes unit :=
  if (keySz =? 0) || (blen k =? 0) || (blen h =? 0) || (blen sessionId =? 0)
  then fail WS_BAD_ARGUMENT
  else
    let digestSz := wc_HashGetDigestSize hashId in
    if digestSz <=? 0 then fail WS_BAD_ARGUMENT
    else
      let kPad := Z.land (b2z doKeyPad) (Z.shiftr (nth 0 k 0) 7) in
      let blocks := keySz / digestSz in
      let remainder := keySz mod digestSz in
      let first := hash_block hashId (blen k) kPad [k; h; [keyId]; sessionId] in
      ret ← code (
        if blocks =? 0 then
          when (0 <? remainder) (
            lastBlock ← lift_res first;
            put_key 0 (slice lastBlock 0 remainder))
        else
          d ← lift_res first;
          put_key 0 d;;
          runningKeySz ← GenerateKey_loop hashId kPad k h digestSz (Z.to_nat (blocks - 1)) digestSz;
          when (0 <? remainder) (
            key ← get;
            lastBlock ← lift_res (hash_block hashId (blen k) kPad [k; h; slice key 0 runningKeySz]);
            put_key runningKeySz (slice lastBlock 0 remainder)));
      if ret =? 0 then mret tt else fail WS_CRYPTO_FAILED.
End Operations.

(** ** The mpint of RFC 4251 *)

(** The number a big-endian array stands for. *)
Fixpoint be_value_from (acc : Z) (b : bytes) : Z :=
  match b with
  | [] => acc
  | x :: r => be_value_from (256 * acc + x) r
  end.
Definition be_value (b : bytes) : Z := be_value_from 0 b.

(** The shortest array whose first bit, the sign, is clear. *)
Definition canonical (b : bytes) : Prop :=
  match b with
  | [] => True
  | x :: r => x < 128 /\ (x = 0 -> match r with [] => False | y :: _ => 128 <= y end)
  end.

Lemma be_value_from_app acc b : be_value_from acc b = acc * 256 ^ blen b + be_value b.
Proof.
  unfold be_value. revert acc. induction b as [|x r IH]; intros acc; cbn [be_value_from].
  { rewrite blen_nil. lia. }
  rewrite IH, (IH (256 * 0 + x)), blen_cons, Z.pow_add_r by (pose proof (blen_nonneg r); lia).
  rewrite Z.pow_1_r. ring.
Qed.

Lemma be_value_cons x r : be_value (x :: r) = x * 256 ^ blen r + be_value r.
Proof. unfold be_value. cbn [be_value_from]. rewrite be_value_from_app. unfold be_value. f_equal. Qed.

Lemma be_value_range b : Forall is_byte b -> 0 <= be_value b < 256 ^ blen b.
Proof.
  induction 1 as [|x r Hx _ IH]; [done|]. unfold is_byte in Hx.
  rewrite be_value_cons, blen_cons, Z.pow_add_r by (pose proof (blen_nonneg r); lia). nia.
Qed.

Lemma be_value_zeros b : be_value (drop (leading_zeros b) b) = be_value b.
Proof.
  induction b as [|x r IH]; [done|]. cbn [leading_zeros]. destruct (Z.eqb_spec x 0) as [->|]; [|done].
  cbn [drop]. rewrite IH, be_value_cons. lia.
Qed.

Lemma be_value_lead0 b : be_value (0 :: b) = be_value b.
Proof. rewrite be_value_cons. lia. Qed.

(** The first byte that is not zero, and the zeros before it. *)
Lemma leading_zeros_spec b :
  leading_zeros b <> length b ->
  exists x r, drop (leading_zeros b) b = x :: r /\ x <> 0 /\ nth (leading_zeros b) b 0 = x /\
    ((0 < leading_zeros b)%nat -> drop (leading_zeros b - 1) b = 0 :: x :: r).
Proof.
  induction b as [|x r IH]; [done|]. cbn [leading_zeros length]. destruct (Z.eqb_spec x 0) as [->|Hx].
  2: { intros _. exists x, r. repeat split; [done..|lia]. }
  intros Hn. destruct IH as (y&t&E&Hy&En&Ed); [congruence|]. exists y, t. cbn [drop nth].
  repeat split; [done..|]. intros _. replace (S (leading_zeros r) - 1)%nat with (leading_zeros r) by lia.
  destruct (leading_zeros r) eqn:El; [rewrite drop_0 in E |- *; by rewrite E|].
  cbn [drop]. rewrite <- Ed by lia. do 2 f_equal. lia.
Qed.

Lemma leading_zeros_all b : leading_zeros b = length b -> be_value b = 0.
Proof. intros E. rewrite <- be_value_zeros, E, drop_all. done. Qed.

Lemma byte_top x : is_byte x -> Z.shiftr x 7 = if x <? 128 then 0 else 1.
Proof. unfold is_byte. rewrite Z.shiftr_div_pow2 by lia. destruct (Z.ltb_spec x 128); zdiv. Qed.

(** What [CreateMpint] leaves, with its pad in front. *)
Definition mpint_bytes (r : bytes * Z) : bytes := if r.2 =? 0 then r.1 else 0 :: r.1.

Lemma CreateMpint_run b :
  Forall is_byte b ->
  let r := CreateMpint b in
  canonical (mpint_bytes r) /\ be_value (mpint_bytes r) = be_value b /\ (r.2 = 0 \/ r.2 = 1) /\
  Forall is_byte r.1 /\ (exists n, r.1 = drop n b) /\ (r.2 = Z.shiftr (nth 0 r.1 0) 7) /\
  (r.2 = 1 -> r.1 = b).
Proof.
  intros Hb. unfold CreateMpint. set (i := leading_zeros b). cbv zeta.
  destruct (Nat.eqb_spec i (length b)) as [E|E].
  { unfold mpint_bytes. cbn. rewrite (leading_zeros_all _ E). repeat split; auto.
    exists (length b). by rewrite drop_all. all: done. }
  destruct (leading_zeros_spec b E) as (x&r&Ed&Hx&En&Ed1). fold i in Ed, En, Ed1. rewrite En.
  assert (Forall is_byte (x :: r)) as Hxr by (rewrite <- Ed; by apply Forall_drop).
  assert (is_byte x) as Hx' by (by inversion Hxr). pose proof Hx' as Hx2. unfold is_byte in Hx2.
  pose proof (be_value_zeros b) as Hv. fold i in Hv. rewrite Ed in Hv.
  rewrite (byte_top x Hx'). destruct (Z.ltb_spec x 128) as [Hs|Hs].
  { rewrite Z.land_0_l. cbn [Z.lxor Z.to_nat]. rewrite Nat.sub_0_r, Ed. unfold mpint_bytes. cbn [fst snd Z.eqb].
    repeat split; [lia..|done|by left|done|by exists i| |done].
    cbn [nth]. rewrite byte_top by done. by rewrite (proj2 (Z.ltb_lt x 128)) by lia. }
  destruct (Z.ltb_spec 0 (Z.of_nat i)) as [Hi|Hi];
    [change (Z.land 1 (b2z true)) with 1|change (Z.land 1 (b2z false)) with 0];
    [change (Z.lxor 1 1) with 0; change (Z.to_nat 1) with 1%nat|change (Z.lxor 1 0) with 1; change (Z.to_nat 0) with 0%nat].
  - rewrite Ed1 by lia. unfold mpint_bytes. cbn [fst snd Z.eqb].
    repeat split; [lia..|by rewrite be_value_lead0|by left| |by exists (i - 1)%nat; rewrite Ed1 by lia|done].
    constructor; [unfold is_byte; lia|done].
  - rewrite Nat.sub_0_r, Ed. unfold mpint_bytes. cbn [fst snd Z.eqb].
    assert (i = 0%nat) as Ei by lia.
    repeat split; [lia|by rewrite be_value_lead0|by right|done|by exists i| |intros _; by rewrite <- Ed, Ei, drop_0].
    cbn [nth]. rewrite byte_top by done. by rewrite (proj2 (Z.ltb_ge x 128)) by lia.
Qed.

(** A number has one shortest array. *)
Lemma canonical_leading b : Forall is_byte b -> canonical b -> b <> [] -> 256 ^ (blen b - 1) <= 2 * be_value b.
Proof.
  intros Hb Hc Hn. destruct b as [|x r]; [done|]. cbn in Hc. destruct Hc as [H1 H2].
  inversion_clear Hb as [|? ? Hx Hr]. unfold is_byte in Hx.
  rewrite be_value_cons, blen_cons. replace (1 + blen r - 1) with (blen r) by lia.
  pose proof (be_value_range r Hr). destruct (Z.eq_dec x 0) as [->|]; [|nia].
  specialize (H2 eq_refl). destruct r as [|y r]; [done|]. inversion_clear Hr as [|? ? Hy Hr'].
  rewrite be_value_cons, blen_cons, Z.pow_add_r by (pose proof (blen_nonneg r); lia).
  pose proof (be_value_range r Hr'). nia.
Qed.

Lemma canonical_upper b : Forall is_byte b -> canonical b -> 2 * be_value b < 256 ^ blen b.
Proof.
  intros Hb Hc. destruct b as [|x r]; [done|]. destruct Hc as [H1 _].
  inversion_clear Hb as [|? ? Hx Hr]. unfold is_byte in Hx. pose proof (be_value_range r Hr).
  rewrite be_value_cons, blen_cons, Z.pow_add_r by (pose proof (blen_nonneg r); lia). nia.
Qed.

Lemma be_value_inj a b :
  Forall is_byte a -> Forall is_byte b -> length a = length b -> be_value a = be_value b -> a = b.
Proof.
  intros Ha. revert b. induction Ha as [|x r Hx Hr IH]; intros [|y t] Hb Hl Hv; try done.
  inversion_clear Hb as [|? ? Hy Ht]. rewrite !be_value_cons in Hv. cbn in Hl.
  assert (blen r = blen t) as El by (unfold blen; lia). rewrite El in Hv.
  pose proof (be_value_range r Hr) as Br. rewrite El in Br. pose proof (be_value_range t Ht).
  assert (x = y) as -> by nia. f_equal. apply IH; [done|lia|lia].
Qed.

Lemma canonical_unique a b :
  Forall is_byte a -> Forall is_byte b -> canonical a -> canonical b -> be_value a = be_value b -> a = b.
Proof.
  assert (forall a b, Forall is_byte a -> Forall is_byte b -> canonical a -> canonical b ->
    be_value a = be_value b -> blen a <= blen b) as Hle.
  { clear. intros a b Ha Hb Hca Hcb Hv. destruct a as [|x r]; [apply blen_nonneg|].
    pose proof (canonical_leading (x :: r) Ha Hca ltac:(done)). pose proof (canonical_upper b Hb Hcb).
    apply Z.nlt_ge. intros Hlt. pose proof (blen_nonneg b).
    assert (256 ^ blen b <= 256 ^ (blen (x :: r) - 1)) by (apply Z.pow_le_mono_r; lia). lia. }
  intros Ha Hb Hca Hcb Hv. apply be_value_inj; try done.
  pose proof (Hle a b Ha Hb Hca Hcb Hv). pose proof (Hle b a Hb Ha Hcb Hca (eq_sym Hv)). unfold blen in *. lia.
Qed.

(** [CreateMpint] leaves the unique shortest big-endian array, sign bit
    clear, of the number it is given: its bytes with the pad in front are
    canonical and have the same value, and every canonical array of that value is
    the same; what it leaves is a suffix of the buffer, so nothing is written past
    its end; and the pad is the top bit of the first byte left, which is what
    [GenerateKey] recomputes. *)
Theorem CreateMpint_spec (b : bytes) :
  Forall is_byte b ->
  let r := CreateMpint b in
  canonical (mpint_bytes r) /\ be_value (mpint_bytes r) = be_value b /\
  (forall c, Forall is_byte c -> canonical c -> be_value c = be_value b -> c = mpint_bytes r) /\
  (exists n, r.1 = drop n b) /\ r.2 = Z.shiftr (nth 0 r.1 0) 7 /\
  CreateMpint r.1 = r.
Proof.
  intros Hb r. destruct (CreateMpint_run b Hb) as (Hc&Hv&Hp&Hr&Hd&Ht&Hw). fold r in Hc, Hv, Hp, Hr, Hd, Ht, Hw.
  assert (forall r, Forall is_byte r.1 -> Forall is_byte (mpint_bytes r)) as Hbytes.
  { intros q Hq. unfold mpint_bytes. destruct (_ =? 0); [done|]. constructor; [unfold is_byte; lia|done]. }
  split; [done|]. split; [done|]. split.
  { intros c Hcb Hcc Hcv. apply canonical_unique; auto. lia. }
  split; [done|]. split; [done|].
  destruct (CreateMpint_run r.1 Hr) as (Hc'&Hv'&Hp'&Hr'&Hd'&Ht'&Hw').
  set (q := CreateMpint r.1) in *.
  assert (be_value r.1 = be_value (mpint_bytes r)) as Ev.
  { unfold mpint_bytes. destruct (_ =? 0); [done|]. by rewrite be_value_lead0. }
  assert (mpint_bytes q = mpint_bytes r) as Em by (apply canonical_unique; auto; lia).
  unfold mpint_bytes in Em.
  destruct q as [qb qp], r as [rb rp]; cbn [fst snd] in *.
  destruct Hp as [->| ->], Hp' as [->| ->]; cbn in Em.
  - congruence.
  - exfalso. subst rb. specialize (Hw' eq_refl). apply (f_equal length) in Hw'. cbn in Hw'. lia.
  - exfalso. subst qb. destruct Hd' as [n Hn]. apply (f_equal length) in Hn. rewrite length_drop in Hn. cbn in Hn. lia.
  - congruence.
Qed.

(** ** The key derivation of RFC 4253 *)

(** [K1 || ... || Kn] with [K1 = HASH(K || H || X || session_id)] and
    [Kn = HASH(K || H || K1 || ... || Kn-1)]. *)
Fixpoint kdf_stream (HASH : bytes -> bytes) (K H X session_id : bytes) (n : nat) : bytes :=
  match n with
  | O => []
  | S m =>
    let prev := kdf_stream HASH K H X session_id m in
    prev ++ HASH (K ++ H ++ match m with O => X ++ session_id | S _ => prev end)
  end.

(** The first [len] bytes of the stream, for a hash of [hashLen] bytes. *)
Definition rfc4253_key (HASH : bytes -> bytes) (hashLen : Z) (K H X session_id : bytes) (len : Z) : bytes :=
  slice (kdf_stream HASH K H X session_id (Z.to_nat ((len + hashLen - 1) / hashLen))) 0 len.

(** K as it enters the hash: the string of the mpint's bytes. *)
Definition mpint_string (k : bytes) (pad : Z) : bytes :=
  let m := mpint_bytes (k, pad) in c32toa (wrap32 (blen m)) ++ m.

Section Derivation.
Context `{HashLaws}.

Lemma blen_stream t K h X sid n :
  blen (kdf_stream (digest t) K h X sid n) = Z.of_nat n * DigestSz t.
Proof.
  induction n as [|n IH]; [done|]. cbn [kdf_stream]. rewrite blen_app, digest_size, IH. lia.
Qed.

Lemma updates_run t parts st m :
  holds t st m ->
  match for_each parts (HashUpdate t) st with
  | (Ok _, st') => holds t st' (m ++ concat parts)
  | (Err e, _) => e <> 0 /\ ~ HashTotal
  | (UB, _) => False
  end.
Proof.
  revert st m. induction parts as [|p parts IH]; intros st m Hst; cbn; [by rewrite app_nil_r|].
  unfold mbind, ST_bind, HashUpdate at 1.
  pose proof (update_def t st m p Hst) as [Hu He]. destruct (wc_HashUpdate t st p) as [st'|e|] eqn:E; [| |done].
  - rewrite app_assoc. apply IH. by eapply update_holds.
  - split; [congruence|]. intros HT. destruct (update_total t st m p Hst). congruence.
Qed.

Lemma hash_block_run t k pad parts :
  t <> WC_HASH_TYPE_NONE -> pad = 0 \/ pad = 1 ->
  match hash_block t (blen k) pad (k :: parts) with
  | Ok d => d = digest t (mpint_string k pad ++ concat parts)
  | Err e => e <> 0 /\ ~ HashTotal
  | UB => False
  end.
Proof.
  intros Ht Hp. unfold hash_block.
  pose proof (init_def t) as [Hu He]. destruct (wc_HashInit t) as [st|e|] eqn:Ei; [| |done].
  2: { split; [congruence|]. intros HT. destruct (init_total t Ht). congruence. }
  pose proof (updates_run t (slice (c32toa (blen k +w pad) ++ [0]) 0 (LENGTH_SZ + pad) :: k :: parts) st []
    (init_holds _ _ Ei)) as Hrun.
  assert (HashMpintHeader t (blen k) pad =
    HashUpdate t (slice (c32toa (blen k +w pad) ++ [0]) 0 (LENGTH_SZ + pad))) as ->.
  { unfold HashMpintHeader. by destruct Hp as [->| ->]. }
  cbn [for_each] in Hrun |- *.
  match goal with |- context [let (_, _) := ?m st in _] =>
    change (let (r, st') := m st in match r with
      | Ok _ => holds t st' ([] ++ concat (slice (c32toa (blen k +w pad) ++ [0]) 0 (LENGTH_SZ + pad) :: k :: parts))
      | Err e => e <> 0 /\ ~ HashTotal
      | UB => False end) in Hrun;
    destruct (m st) as [[[]|e|] st']; [|done..] end.
  pose proof (final_def t st' _ Hrun) as [Hfu Hfe].
  destruct (wc_HashFinal t st') as [d|e|] eqn:Ef; [| |done].
  2: { split; [congruence|]. intros HT. destruct (final_total t st' _ Hrun). congruence. }
  rewrite (final_digest _ _ _ _ Hrun Ef). f_equal. cbn [concat app]. rewrite app_assoc. f_equal.
  unfold mpint_string, mpint_bytes. destruct Hp as [->| ->]; cbn [fst snd Z.eqb].
  - by rewrite Z.add_0_r.
  - rewrite blen_cons, Z.add_comm. done.
Qed.

(** Copying into the array. *)
Lemma put_key_run i d key :
  0 <= i -> i + blen d <= blen key ->
  exists key', put_key i d key = (Ok tt, key') /\ blen key' = blen key /\
    (forall n, n <= i -> slice key' 0 n = slice key 0 n) /\
    slice key' 0 (i + blen d) = slice key 0 i ++ d /\
    drop (Z.to_nat (i + blen d)) key' = drop (Z.to_nat (i + blen d)) key.
Proof.
  intros Hi Hl. destruct (wr_some key i d Hi Hl) as [key' E]. exists key'.
  split; [unfold put_key, mbind, ST_bind, get; by rewrite E|].
  split; [by eapply blen_wr|].
  unfold wr in E. destruct (_ && _); [|done]. injection E as <-.
  pose proof (blen_nonneg d). unfold blen, slice in *. rewrite !drop_0.
  assert (length (take (Z.to_nat i) key) = Z.to_nat i) as El by (rewrite length_take; lia).
  split; [|split].
  - intros n Hn. rewrite take_app_le by lia. by rewrite take_take, Nat.min_l by lia.
  - rewrite take_app_ge by lia. f_equal. rewrite El.
    replace (Z.to_nat (i + Z.of_nat (length d)) - Z.to_nat i)%nat with (length d) by lia.
    by rewrite take_app_length.
  - rewrite app_assoc. replace (Z.to_nat (i + Z.of_nat (length d))) with (Z.to_nat i + length d)%nat by lia.
    apply drop_app_length'. rewrite length_app. lia.
Qed.

Lemma kdf_prefix t K h X sid n m :
  (n <= m)%nat ->
  slice (kdf_stream (digest t) K h X sid m) 0 (Z.of_nat n * DigestSz t) = kdf_stream (digest t) K h X sid n.
Proof.
  intros Hn. induction Hn as [|m Hn IH].
  - rewrite <- (blen_stream t K h X sid n). apply slice_full.
  - etransitivity; [|exact IH]. unfold slice. rewrite !drop_0. cbn [kdf_stream].
    assert (0 <= DigestSz t) by (rewrite <- (digest_size t []); apply blen_nonneg).
    rewrite take_app_le; [done|]. pose proof (blen_stream t K h X sid m) as Hl. unfold blen in Hl. nia.
Qed.

Lemma kdf_next t K h X sid n :
  kdf_stream (digest t) K h X sid (S (S n)) =
  kdf_stream (digest t) K h X sid (S n) ++ digest t (K ++ h ++ kdf_stream (digest t) K h X sid (S n)).
Proof. done. Qed.

(** A block, hashed or failed. *)
Lemma wp_hash {A} t k pad parts (f : bytes -> ST bytes A) Q key :
  t <> WC_HASH_TYPE_NONE -> pad = 0 \/ pad = 1 ->
  (forall e, e <> 0 -> ~ HashTotal -> Q (inr e) key) ->
  (blen (digest t (mpint_string k pad ++ concat parts)) = DigestSz t ->
   wp (f (digest t (mpint_string k pad ++ concat parts))) Q key) ->
  wp (lift_res (hash_block t (blen k) pad (k :: parts)) ≫= f) Q key.
Proof.
  intros Ht Hp He Hf. apply wp_bind. pose proof (hash_block_run t k pad parts Ht Hp) as Hb.
  destruct (hash_block _ _ _ _) as [d|e|]; unfold wp at 1, lift_res; [| |done].
  - subst d. apply Hf, digest_size.
  - destruct Hb as [Hz HT]. by apply He.
Qed.

(** Copying a block, as a step. *)
Lemma wp_put_key i d Q key :
  0 <= i -> i + blen d <= blen key ->
  (forall key', blen key' = blen key -> (forall n, n <= i -> slice key' 0 n = slice key 0 n) ->
    slice key' 0 (i + blen d) = slice key 0 i ++ d ->
    drop (Z.to_nat (i + blen d)) key' = drop (Z.to_nat (i + blen d)) key -> Q (inl tt) key') ->
  wp (put_key i d) Q key.
Proof.
  intros Hi Hl HQ. destruct (put_key_run i d key Hi Hl) as (key'&E&H1&H2&H3&H4).
  eapply wp_run; [exact E|]. by apply HQ.
Qed.

Lemma drop_le {A} (n m : nat) (a b : list A) : (n <= m)%nat -> drop n a = drop n b -> drop m a = drop m b.
Proof. intros Hle E. replace m with (n + (m - n))%nat by lia. by rewrite <- !drop_drop, E. Qed.

Lemma GenerateKey_loop_run t pad k h X sid m key n :
  t <> WC_HASH_TYPE_NONE -> pad = 0 \/ pad = 1 -> 0 < DigestSz t ->
  (Z.of_nat (S m) + Z.of_nat n) * DigestSz t <= blen key -> blen key < 2 ^ 32 ->
  let K := mpint_string k pad in
  slice key 0 (Z.of_nat (S m) * DigestSz t) = kdf_stream (digest t) K h X sid (S m) ->
  let hi := (Z.of_nat (S m) + Z.of_nat n) * DigestSz t in
  wp (GenerateKey_loop t pad k h (DigestSz t) n (Z.of_nat (S m) * DigestSz t)) (fun r key' =>
    blen key' = blen key /\ drop (Z.to_nat hi) key' = drop (Z.to_nat hi) key /\
    match r with
    | inl run => run = hi /\ slice key' 0 hi = kdf_stream (digest t) K h X sid (S m + n)
    | inr e => e <> 0 /\ ~ HashTotal
    end) key.
Proof.
  intros Ht Hp Hd Hl Hb K. revert m key Hl Hb. induction n as [|n IH]; intros m key Hl Hb Hk; cbv zeta.
  { apply wp_ret. rewrite Nat.add_0_r, Z.add_0_r. auto. }
  cbn [GenerateKey_loop]. apply wp_bind, wp_get. apply wp_hash; [done..|by auto|].
  unfold concat. rewrite app_nil_r, Hk. fold K. intros Ed. apply wp_bind, wp_put_key; [lia|rewrite Ed; nia|].
  rewrite Ed. intros key' El _ Es Edr. rewrite wrap32_small by nia.
  replace (Z.of_nat (S m) * DigestSz t + DigestSz t) with (Z.of_nat (S (S m)) * DigestSz t) in * by lia.
  eapply wp_mono; [apply (IH (S m)); [rewrite El; lia|by rewrite El|by rewrite kdf_next, Es, Hk]|].
  cbv beta zeta.
  replace (Z.of_nat (S m) + Z.of_nat (S n)) with (Z.of_nat (S (S m)) + Z.of_nat n) by lia.
  replace (S m + S n)%nat with (S (S m) + n)%nat by lia.
  intros r key2 (H1&H2&H3). split; [congruence|]. split; [|done]. rewrite H2.
  eapply drop_le; [|exact Edr]. nia.
Qed.

Lemma DigestSz_pos t : t <> WC_HASH_TYPE_NONE -> 0 < DigestSz t <= 64.
Proof. by destruct t; cbn. Qed.

Lemma key_pad_01 k doKeyPad :
  Forall is_byte k -> let p := Z.land (b2z doKeyPad) (Z.shiftr (nth 0 k 0) 7) in p = 0 \/ p = 1.
Proof.
  intros Hk. destruct doKeyPad; [|by left].
  assert (is_byte (nth 0 k 0)) as Hb by (destruct k; [unfold is_byte; cbn; lia|by inversion Hk]).
  cbv zeta. rewrite (byte_top _ Hb). destruct (_ <? _); [by left|by right].
Qed.

Lemma slice_slice b n m : 0 <= n <= m -> slice (slice b 0 m) 0 n = slice b 0 n.
Proof. intros. unfold slice. rewrite !drop_0, take_take. f_equal. lia. Qed.

Lemma slice_app_l a b n : n <= blen a -> slice (a ++ b) 0 n = slice a 0 n.
Proof. intros. unfold slice, blen in *. rewrite !drop_0. by rewrite take_app_le by lia. Qed.

Lemma slice_all b n : blen b <= n -> slice b 0 n = b.
Proof. intros. unfold slice, blen in *. rewrite drop_0. by rewrite take_ge by lia. Qed.

Lemma div_split a d : 0 < d -> 0 <= a -> a = a / d * d + a mod d /\ 0 <= a mod d < d /\ 0 <= a / d.
Proof.
  intros Hd Ha. pose proof (Z.div_mod a d ltac:(lia)). pose proof (Z.mod_pos_bound a d Hd).
  pose proof (Z.div_pos a d Ha Hd). lia.
Qed.

Lemma ceil_div a d : 0 < d -> 0 <= a -> (a + d - 1) / d = a / d + (if a mod d =? 0 then 0 else 1).
Proof.
  intros Hd Ha. destruct (div_split a d Hd Ha) as (Hq&Hr&_).
  symmetry. destruct (Z.eqb_spec (a mod d) 0) as [E|E].
  - apply (Z.div_unique_pos _ _ _ (d - 1)); lia.
  - apply (Z.div_unique_pos _ _ _ (a mod d - 1)); lia.
Qed.

(** The key is the whole blocks of the stream and the start of the next one. *)
Lemma rfc_key_split t K h X sid keySz :
  0 < DigestSz t -> 0 < keySz ->
  let blocks := keySz / DigestSz t in
  let prev := kdf_stream (digest t) K h [X] sid (Z.to_nat blocks) in
  rfc4253_key (digest t) (DigestSz t) K h [X] sid keySz =
  prev ++ slice (digest t (K ++ h ++ if blocks =? 0 then X :: sid else prev)) 0 (keySz mod DigestSz t).
Proof.
  intros Hd Hz blocks prev. set (rem := keySz mod DigestSz t).
  assert (keySz = blocks * DigestSz t + rem /\ 0 <= rem < DigestSz t /\ 0 <= blocks) as (Hq&Hr&Hb)
    by (apply div_split; lia).
  pose proof (blen_stream t K h [X] sid (Z.to_nat blocks)) as Hs. fold prev in Hs. rewrite Z2Nat.id in Hs by done.
  unfold rfc4253_key. rewrite ceil_div by lia. fold rem blocks. set (n := Z.to_nat (blocks + _)).
  destruct (Z.eq_dec rem 0) as [E0|E0].
  - rewrite E0, slice_zero, app_nil_r. replace n with (Z.to_nat blocks) by (unfold n; rewrite E0; f_equal; cbn; lia).
    apply slice_all. fold prev. lia.
  - replace n with (S (Z.to_nat blocks)) by (unfold n; rewrite (proj2 (Z.eqb_neq _ _) E0); lia).
    cbn [kdf_stream]. fold prev. unfold slice. rewrite !drop_0. unfold blen in Hs.
    rewrite take_app_ge by lia. f_equal. f_equal; [lia|]. do 3 f_equal.
    destruct (Z.eqb_spec blocks 0) as [->|]; [done|]. destruct (Z.to_nat blocks) eqn:En; [lia|]. done.
Qed.

(** Either every block is written and the key is the start of the stream, or a
    hash call failed. *)
Lemma GenerateKey_run t X keySz k h sid doKeyPad key :
  t <> WC_HASH_TYPE_NONE -> Forall is_byte k -> k <> [] -> h <> [] -> sid <> [] ->
  0 < keySz <= blen key -> blen key < 2 ^ 32 ->
  let p := Z.land (b2z doKeyPad) (Z.shiftr (nth 0 k 0) 7) in
  wp (GenerateKey t X keySz k h sid doKeyPad) (fun r key' =>
    blen key' = blen key /\ drop (Z.to_nat keySz) key' = drop (Z.to_nat keySz) key /\
    match r with
    | inl _ => slice key' 0 keySz = rfc4253_key (digest t) (DigestSz t) (mpint_string k p) h [X] sid keySz
    | inr e => e = WS_CRYPTO_FAILED /\ ~ HashTotal
    end) key.
Proof.
  intros Ht Hkb Hk Hh Hs Hz Hl p. pose proof (key_pad_01 k doKeyPad Hkb) as Hp. fold p in Hp.
  pose proof (DigestSz_pos t Ht) as Hd.
  assert (forall b : bytes, b <> [] -> (blen b =? 0) = false) as Hne.
  { intros [|x b] Hb; [done|]. rewrite blen_cons. apply Z.eqb_neq. pose proof (blen_nonneg b). lia. }
  unfold GenerateKey. rewrite !Hne, (proj2 (Z.eqb_neq keySz 0)) by (done || lia). cbn [orb].
  rewrite GetDigestSize by done. rewrite (proj2 (Z.leb_gt _ _)) by lia. fold p.
  rewrite rfc_key_split by lia. set (blocks := keySz / DigestSz t). set (rem := keySz mod DigestSz t).
  set (K := mpint_string k p).
  assert (keySz = blocks * DigestSz t + rem /\ 0 <= rem < DigestSz t /\ 0 <= blocks) as (Hq&Hr&Hbl)
    by (apply div_split; lia).
  assert (forall e key', e <> 0 -> ~ HashTotal -> blen key' = blen key ->
    drop (Z.to_nat keySz) key' = drop (Z.to_nat keySz) key ->
    wp (if e =? 0 then mret tt else fail WS_CRYPTO_FAILED) (fun r key' =>
      blen key' = blen key /\ drop (Z.to_nat keySz) key' = drop (Z.to_nat keySz) key /\
      match r with
      | inl _ => slice key' 0 keySz = kdf_stream (digest t) K h [X] sid (Z.to_nat blocks) ++
          slice (digest t (K ++ h ++ if blocks =? 0 then X :: sid
            else kdf_stream (digest t) K h [X] sid (Z.to_nat blocks))) 0 rem
      | inr e => e = WS_CRYPTO_FAILED /\ ~ HashTotal
      end) key') as Herr.
  { intros e key' He HT Hlen Hdr. rewrite (proj2 (Z.eqb_neq _ _) He). by apply wp_fail. }
  apply wp_bind, wp_code. destruct (Z.eqb_spec blocks 0) as [E0|E0].
  - rewrite (proj2 (Z.ltb_lt 0 rem)) by lia. cbn [when]. apply wp_hash; [done..|by auto|].
    unfold concat. rewrite app_nil_r. fold K. intros Ed. set (d := slice _ 0 rem).
    assert (blen d = rem) as Ed' by (apply blen_slice; lia).
    apply wp_put_key; [lia..|]. rewrite Ed', Z.add_0_l. intros key' El _ Es Edr. apply wp_ret.
    replace keySz with rem by lia. rewrite Es, E0. auto.
  - apply wp_hash; [done..|by auto|]. unfold concat. rewrite app_nil_r. fold K. intros Ed.
    apply wp_bind, wp_put_key; [lia|nia|]. rewrite Ed, Z.add_0_l. intros key1 El _ Es Edr. apply wp_bind.
    pose proof (GenerateKey_loop_run t p k h [X] sid 0 key1 (Z.to_nat (blocks - 1)) Ht Hp ltac:(lia)) as HL.
    change (Z.of_nat 1) with 1 in HL. rewrite Z.mul_1_l, Z2Nat.id in HL by lia.
    replace (1 + (blocks - 1)) with blocks in HL by lia.
    eapply wp_mono; [apply HL; [rewrite El; lia|by rewrite El|by rewrite Es]|].
    clear HL. cbv beta zeta. intros r key2 (L2&D2&H2).
    assert (drop (Z.to_nat (blocks * DigestSz t)) key2 = drop (Z.to_nat (blocks * DigestSz t)) key) as D3
      by (rewrite D2; eapply drop_le; [|exact Edr]; nia).
    assert (drop (Z.to_nat keySz) key2 = drop (Z.to_nat keySz) key) as D4 by (eapply drop_le; [|exact D3]; lia).
    destruct r as [run|e]; [|by apply Herr; [tauto|tauto|congruence|]].
    destruct H2 as [-> S2]. replace (1 + Z.to_nat (blocks - 1))%nat with (Z.to_nat blocks) in S2 by lia.
    fold K in S2. destruct (Z.ltb_spec 0 rem) as [Hpos|Hpos]; cbn [when].
    2: { apply wp_ret, wp_ret. replace rem with 0 by lia. rewrite slice_zero, app_nil_r.
      split; [congruence|]. split; [done|]. by replace keySz with (blocks * DigestSz t) by lia. }
    apply wp_bind, wp_get. apply wp_hash; [done..| |].
    { intros e He HT. apply Herr; auto. congruence. }
    unfold concat. rewrite app_nil_r, S2. fold K. intros Ed1. set (d1 := slice _ 0 rem).
    assert (blen d1 = rem) as Ed1' by (apply blen_slice; lia).
    apply wp_put_key; [nia|lia|]. rewrite Ed1', <- Hq. intros key3 L3 _ S3 D5. apply wp_ret.
    rewrite S3, S2, D5. split; [congruence|]. done.
Qed.
End Derivation.

(** C18: for a hash that meets its laws, [GenerateKey] fills the first [keySz]
    bytes of the array with the key RFC 4253 section 7.2 defines for its letter,
    whatever the number of hash blocks that takes, and leaves the bytes after them
    alone; it never leaves the array, and the only other outcome is
    [WS_CRYPTO_FAILED], when a hash call failed. *)
Theorem GenerateKey_spec `{HashLaws} (t : wc_HashType) (X keySz : Z) (k h sid key : bytes) (doKeyPad : bool) :
  t <> WC_HASH_TYPE_NONE -> Forall is_byte k -> k <> [] -> h <> [] -> sid <> [] ->
  0 < keySz <= blen key -> blen key < 2 ^ 32 ->
  let p := Z.land (b2z doKeyPad) (Z.shiftr (nth 0 k 0) 7) in
  match GenerateKey t X keySz k h sid doKeyPad key with
  | (Ok _, key') =>
    key' = rfc4253_key (digest t) (DigestSz t) (mpint_string k p) h [X] sid keySz ++ drop (Z.to_nat keySz) key
  | (Err e, _) => e = WS_CRYPTO_FAILED /\ ~ HashTotal
  | (UB, _) => False
  end.
Proof.
  intros Ht Hkb Hk Hh Hs Hz Hl p.
  pose proof (GenerateKey_run t X keySz k h sid doKeyPad key Ht Hkb Hk Hh Hs Hz Hl) as Hw. unfold wp in Hw.
  destruct (GenerateKey _ _ _ _ _ _ _ _) as [[[]|e|] key']; [|tauto|done].
  destruct Hw as (El&Ed&Es). fold p in Es. rewrite <- Es, <- Ed. apply slice_split. lia.
Qed.

(** ** A hash to evaluate with *)

(** The checksum of what it is fed, counted up to the size of the digest. *)
Definition toy_digest (t : wc_HashType) (m : bytes) : bytes :=
  map (fun i => (fold_right (fun x a => 3 * a + x) 7 m + Z.of_nat i) mod 256) (seq 0 (Z.to_nat (DigestSz t))).

#[export] Instance toy_hashes : Hashes := {|
  wc_HashGetDigestSize := DigestSz;
  wc_HashInit t := if DigestSz t =? 0 then Err WS_BAD_ARGUMENT else Ok [];
  wc_HashUpdate t st d := Ok (st ++ d);
  wc_HashFinal t st := Ok (toy_digest t st)
|}.

#[export] Instance toy_laws : HashLaws.
Proof.
  refine {| digest := toy_digest; holds t st m := st = m |}; cbn.
  - intros t m. unfold toy_digest, blen. rewrite length_map, length_seq. by destruct t.
  - done.
  - done.
  - intros t st. by destruct (_ =? 0); intros [= <-].
  - by intros t st m d st' -> [= <-].
  - by intros t st m d -> [= <-].
  - intros t. by destruct t.
  - done.
  - done.
Defined.

#[export] Instance toy_total : HashTotal.
Proof. split; cbn; [intros []; cbn; eauto; done|eauto..]. Defined.

(** Two blocks and a part of a third. *)
Example GenerateKey_spec_witness :
  match GenerateKey WC_HASH_TYPE_SHA 67 50 [200; 1] [3] [4] true (zeros 64) with
  | (Ok _, key') =>
    key' = rfc4253_key (toy_digest WC_HASH_TYPE_SHA) 20 (mpint_string [200; 1] 1) [3] [67] [4] 50 ++ zeros 14
  | _ => False
  end /\ mpint_string [200; 1] 1 = [0; 0; 0; 3; 0; 200; 1].
Proof.
  split; [|reflexivity].
  pose proof (GenerateKey_spec WC_HASH_TYPE_SHA 67 50 [200; 1] [3] [4] (zeros 64) true ltac:(done)
    ltac:(repeat constructor; unfold is_byte; lia) ltac:(done) ltac:(done) ltac:(done)
    ltac:(split; by vm_compute) ltac:(by vm_compute)) as Hs.
  cbv zeta in Hs. destruct (GenerateKey _ _ _ _ _ _ _ _) as [[[]|e|] key']; [exact Hs| |exact Hs].
  destruct Hs as [_ Hn]. apply Hn. exact toy_total.
Defined.

Example CreateMpint_spec_witness :
  CreateMpint [0; 0; 83] = ([83], 0) /\ CreateMpint [0; 200] = ([0; 200], 0) /\
  CreateMpint [200] = ([200], 1) /\ CreateMpint [0; 0] = ([], 0) /\
  canonical (mpint_bytes (CreateMpint [0; 0; 200])).
Proof.
  do 4 (split; [reflexivity|]).
  refine (proj1 (CreateMpint_spec [0; 0; 200] _)). repeat constructor; unfold is_byte; lia.
Defined.
