(* ===== verification/Session.v ===== *)
(** The session: the fields of [WOLFSSH] the modelled functions use, grouped by
    the part of the library that owns them, the channels it reaches, what the
    application and the crypto library supply, and the monad every function on a
    session is written in.

    Channels live in a store indexed by location and are shared by the list and
    by the callbacks; a channel that has been freed is no longer in the store, so
    a function that still uses it has undefined behaviour. The application's own
    memory is [app]; [mallocs] holds the outcomes of the allocations to come,
    each of which succeeds once the list is used up. *)

From S2P Require Import Prelude Codes Names Buffer Fwd Algos Kdf.

(** ** The transport, sending *)

Record Transmit := mkTx {
  outputBuffer : WOLFSSH_BUFFER;
  packetStartIdx : Z;
  seq : Z;
  txCount : Z;
  txMsgCount : Z;
  txFlushCount : Z;
  encryptId : AlgoId;
  macId : AlgoId;
  aeadMode : bool;
  blockSz : Z;
  macSz : Z;
  keys : Keys;
  encryptCipher : bytes;    (* struct Aes *)
  rng : bytes               (* WC_RNG *)
}.
#[export] Instance eta_tx : Eta Transmit := fun t =>
  mkTx (outputBuffer t) (packetStartIdx t) (seq t) (txCount t) (txMsgCount t) (txFlushCount t)
    (encryptId t) (macId t) (aeadMode t) (blockSz t) (macSz t) (keys t) (encryptCipher t) (rng t).

(** ** The transport, receiving *)

Record Receive := mkRx {
  inputBuffer : WOLFSSH_BUFFER;
  curSz : Z;
  peerSeq : Z;
  rxCount : Z;
  rxMsgCount : Z;
  peerEncryptId : AlgoId;
  peerMacId : AlgoId;
  peerAeadMode : bool;
  peerBlockSz : Z;
  peerMacSz : Z;
  peerKeys : Keys;
  decryptCipher : bytes;
  processReplyState : Z;
  discardSz : Z;
  discardError : Z
}.
#[export] Instance eta_rx : Eta Receive := fun r =>
  mkRx (inputBuffer r) (curSz r) (peerSeq r) (rxCount r) (rxMsgCount r) (peerEncryptId r)
    (peerMacId r) (peerAeadMode r) (peerBlockSz r) (peerMacSz r) (peerKeys r) (decryptCipher r)
    (processReplyState r) (discardSz r) (discardError r).

(** ** Channels *)

Record WOLFSSH_CHANNEL := mkChannel {
  channelType : AlgoId;
  sessionType : Z;
  closeTxd : bool;
  eofRxd : bool;
  eofTxd : bool;
  openConfirmed : bool;
  ptyReq : bool;
  fwdSetupTxd : bool;
  sessionGranted : bool;
  c_channel : Z;
  c_windowSz : Z;
  c_maxPacketSz : Z;
  peerChannel : Z;
  peerWindowSz : Z;
  peerMaxPacketSz : Z;
  pendingWindowAdjust : Z;
  host : option bytes;
  hostPort : Z;
  origin : option bytes;
  originPort : Z;
  isDirect : bool;
  c_inputBuffer : WOLFSSH_BUFFER;
  extDataBuffer : WOLFSSH_BUFFER;
  command : option bytes
}.
#[export] Instance eta_channel : Eta WOLFSSH_CHANNEL := fun c =>
  mkChannel (channelType c) (sessionType c) (closeTxd c) (eofRxd c) (eofTxd c) (openConfirmed c)
    (ptyReq c) (fwdSetupTxd c) (sessionGranted c) (c_channel c) (c_windowSz c) (c_maxPacketSz c)
    (peerChannel c) (peerWindowSz c) (peerMaxPacketSz c) (pendingWindowAdjust c) (host c) (hostPort c)
    (origin c) (originPort c) (isDirect c) (c_inputBuffer c) (extDataBuffer c) (command c).

Record Channels := mkChannels {
  channels : gmap loc WOLFSSH_CHANNEL;
  channelList : list loc;
  channelListSz : Z;
  nextChannel : Z;
  defaultPeerChannelId : Z;
  connectChannelId : Z;
  channelName : option bytes;
  sendTerminalRequest : bool;
  lastRxId : Z;
  channelNext : loc         (* the next location an allocation returns *)
}.
#[export] Instance eta_channels : Eta Channels := fun c =>
  mkChannels (channels c) (channelList c) (channelListSz c) (nextChannel c) (defaultPeerChannelId c)
    (connectChannelId c) (channelName c) (sendTerminalRequest c) (lastRxId c) (channelNext c).

(** ** Terminal *)

Record Terminal := mkTerm {
  widthChar : Z;
  heightRows : Z;
  widthPixels : Z;
  heightPixels : Z;
  modes : bytes;
  exitStatus : Z
}.
#[export] Instance eta_term : Eta Terminal := fun t =>
  mkTerm (widthChar t) (heightRows t) (widthPixels t) (heightPixels t) (modes t) (exitStatus t).

(** ** Key exchange *)

Record KexState := mkKex {
  kexId : AlgoId;
  kx_h : bytes;             (* h[0 .. hSz) *)
  kx_k : bytes;             (* k[0 .. kSz) *)
  sessionId : bytes;        (* sessionId[0 .. sessionIdSz) *)
  peerProtoId : option bytes;
  algoListKex : bytes;
  algoListKey : option bytes;
  algoListCipher : bytes;
  algoListMac : bytes;
  algoListKeyAccepted : bytes;
  sendExtInfo : bool;
  extInfoSent : bool;
  sendStrictKex : bool;
  peerSigAlgsSeen : bool;
  peerSigId : option (list AlgoId);
  kx_primeGroupSz : Z
}.
#[export] Instance eta_kex : Eta KexState := fun k =>
  mkKex (kexId k) (kx_h k) (kx_k k) (sessionId k) (peerProtoId k) (algoListKex k) (algoListKey k)
    (algoListCipher k) (algoListMac k) (algoListKeyAccepted k) (sendExtInfo k) (extInfoSent k)
    (sendStrictKex k) (peerSigAlgsSeen k) (peerSigId k) (kx_primeGroupSz k).

(** ** User authentication *)

(** [WS_UserAuthData_Keyboard]: a pointer that is NULL is [None]; the lengths
    of the prompts and responses are those of their arrays. *)
Record Keyboard := mkKeyboard {
  promptCount : Z;
  responseCount : Z;
  promptName : option bytes;
  promptInstruction : option bytes;
  promptLanguage : option bytes;
  prompts : option (list bytes);
  promptEcho : option bytes;
  responses : option (list bytes)
}.
#[export] Instance eta_keyboard : Eta Keyboard := fun k =>
  mkKeyboard (promptCount k) (responseCount k) (promptName k) (promptInstruction k)
    (promptLanguage k) (prompts k) (promptEcho k) (responses k).
Definition zero_keyboard : Keyboard := mkKeyboard 0 0 None None None None None None.

(** The client's callback fills in the key to sign with. *)
Record PublicKey := mkPublicKey {
  dataToSign : bytes;       (* from the pointer to the end of the message *)
  dataToSignSz : Z;
  publicKeyType : bytes;
  publicKey : bytes;
  hasSignature : bool;
  signature : bytes;
  isCert : bool;
  isOsshCert : bool;
  caKey : bytes;
  principals : bytes;
  validAfter : Z;
  validBefore : Z;
  forceCommand : option bytes;
  sourceAddress : option bytes;
  pk_privateKey : bytes
}.
#[export] Instance eta_publicKey : Eta PublicKey := fun p =>
  mkPublicKey (dataToSign p) (dataToSignSz p) (publicKeyType p) (publicKey p) (hasSignature p)
    (signature p) (isCert p) (isOsshCert p) (caKey p) (principals p) (validAfter p) (validBefore p)
    (forceCommand p) (sourceAddress p) (pk_privateKey p).

(** The union [sf]; a request whose method has not filled it in is zeros. *)
Inductive AuthFields :=
| SfZero
| SfPassword (password : bytes) (hasNewPassword : bool) (newPassword : bytes)
| SfPublicKey (p : PublicKey)
| SfKeyboard (k : Keyboard).

Record WS_UserAuthData := mkAuthData {
  au_type : Z;
  username : bytes;
  serviceName : bytes;
  authName : bytes;
  sf : AuthFields
}.
#[export] Instance eta_authData : Eta WS_UserAuthData := fun a =>
  mkAuthData (au_type a) (username a) (serviceName a) (authName a) (sf a).

Record UserAuth := mkAuth {
  authId : AlgoId;
  supportedAuth : list AlgoId;
  userName : option bytes;
  kbAuth : Keyboard;
  kbAuthAttempts : Z;
  kbSetupPending : bool;
  kbRequestSent : bool;
  userAuthSeen : bool;
  maxAuthAttempts : Z;
  authFailures : Z;
  authRequests : Z;
  userAuthPkDone : bool
}.
#[export] Instance eta_auth : Eta UserAuth := fun a =>
  mkAuth (authId a) (supportedAuth a) (userName a) (kbAuth a) (kbAuthAttempts a) (kbSetupPending a)
    (kbRequestSent a) (userAuthSeen a) (maxAuthAttempts a) (authFailures a) (authRequests a)
    (userAuthPkDone a).

(** ** The agent *)

(** The parts of a key, of the identity's buffer. *)
Inductive WOLFSSH_AGENT_KEY :=
| AgentRsa (n e d iqmp p q : bytes)
| AgentEcdsa (curveName q d : bytes).

Record WOLFSSH_AGENT_ID := mkAgentId {
  keyBuffer : bytes;
  keyBlob : bytes;
  comment : bytes;
  agent_key : WOLFSSH_AGENT_KEY;
  agent_id : bytes;
  keyType : AlgoId
}.

(** [msg]: no message, one of its own, one inside [rxBuf], or memory that has
    been freed. *)
Inductive AgentMsg := MsgNull | MsgHeap (b : bytes) | MsgInRx (b : bytes) | MsgFreed.

Record WOLFSSH_AGENT_CTX := mkAgent {
  ag_msg : AgentMsg;
  ag_rng : bytes;
  ag_msgSz : Z;
  ag_msgIdx : Z;
  ag_channel : Z;
  idList : list WOLFSSH_AGENT_ID;
  idListSz : Z;
  ag_error : Z;
  ag_state : Z;
  requestSuccess : bool;
  requestFailure : bool;
  lastMsgId : Z;
  rxBuf : option WOLFSSH_BUFFER;
  relayBuf : option WOLFSSH_BUFFER;
  relayChannel : Z;
  relayActive : bool
}.
#[export] Instance eta_agent : Eta WOLFSSH_AGENT_CTX := fun a =>
  mkAgent (ag_msg a) (ag_rng a) (ag_msgSz a) (ag_msgIdx a) (ag_channel a) (idList a) (idListSz a)
    (ag_error a) (ag_state a) (requestSuccess a) (requestFailure a) (lastMsgId a) (rxBuf a) (relayBuf a)
    (relayChannel a) (relayActive a).

(** The I/O callback of the agent, by action: a message to write, or room to read
    into. *)
Inductive AgentIo := AgentWrite (buf : bytes) | AgentRead (bufSz : Z).

(** ** The session *)

Record WOLFSSH := mkSession {
  error : Z;
  isKeying : Z;
  connReset : bool;
  isClosed : bool;
  disconnected : bool;
  disconnectTxd : bool;
  clientOpenSSH : bool;
  appChannels : Z;
  acceptState : Z;
  connectState : Z;
  clientState : Z;
  serverState : Z;
  useStrictKex : bool;
  initialKexDone : bool;
  highwaterMark : Z;
  highwaterFlag : bool;
  msgHighwaterMark : Z;
  msgHighwaterFlag : bool;
  handshake : option HandshakeInfo;
  agent : option WOLFSSH_AGENT_CTX;
  agentEnabled : bool;
  useAgent : bool;
  tx : Transmit;
  rx : Receive;
  chan : Channels;
  fwd : FwdState;
  term : Terminal;
  kex : KexState;
  auth : UserAuth;
  certMan : bytes;           (* ctx->certMan->cm *)
  mallocs : list bool;
  app : bytes
}.
#[export] Instance eta_session : Eta WOLFSSH := fun s =>
  mkSession (error s) (isKeying s) (connReset s) (isClosed s) (disconnected s) (disconnectTxd s)
    (clientOpenSSH s) (appChannels s) (acceptState s) (connectState s) (clientState s) (serverState s)
    (useStrictKex s) (initialKexDone s) (highwaterMark s) (highwaterFlag s) (msgHighwaterMark s)
    (msgHighwaterFlag s) (handshake s) (agent s) (agentEnabled s) (useAgent s) (tx s) (rx s) (chan s)
    (fwd s) (term s) (kex s) (auth s) (certMan s) (mallocs s) (app s).

Abbreviation M := (ST WOLFSSH).

(** ** What surrounds the library *)

(** A host key of the server: the format it goes by, the key as it was loaded, a
    certificate for it and, for ML-DSA, its public key. *)
Record WOLFSSH_PVT_KEY := mkPvtKey {
  publicKeyFmt : AlgoId;
  pvt_key : bytes;
  pvt_cert : bytes;
  mldsaPub : option bytes
}.

(** The context of a session: its side and sizes, and the callbacks of the
    application, any function on the session (a callback may reenter the
    library), or [None] for one that is not set. *)
Class CTX := {
  io_fuel : nat;   (* calls of the send callback one flush may make *)
  side : Z;
  windowSz : Z;
  maxPacketSz : Z;
  ctx_highwaterMark : Z;
  ctx_msgHighwaterMark : Z;
  ctx_appChannels : Z;
  ctx_agentEnabled : bool;
  ctx_sendStrictKex : bool;
  ctx_maxAuthAttempts : Z;
  sshProtoIdStr : bytes;   (* with its CRLF *)
  ctx_algoListKex : bytes;
  ctx_algoListKey : option bytes;
  ctx_algoListCipher : bytes;
  ctx_algoListMac : bytes;
  ctx_algoListKeyAccepted : bytes;
  privateKey : list WOLFSSH_PVT_KEY;
  publicKeyAlgo : list AlgoId;
  banner : option bytes;
  ctx_certMan : bytes;
  (* at most [n] bytes received, or a code that is not positive *)
  ioRecvCb : option (Z -> M (Z * bytes));
  ioSendCb : option (bytes -> M Z);
  publicKeyCheckCb : option (bytes -> M Z);
  (* the data comes back as the callback leaves it *)
  userAuthCb : option (Z -> WS_UserAuthData -> M (Z * WS_UserAuthData));
  userAuthTypesCb : option (M Z);
  userAuthResultCb : option (Z -> WS_UserAuthData -> M Z);
  highwaterCb : option (Z -> M Z);
  keyingCompletionCb : option (M unit);
  globalReqCb : option (bytes -> Z -> bool -> M Z);
  globalReqAnyCb : option (bytes -> bytes -> bool -> M Z);
  reqSuccessCb : option (bytes -> M Z);
  reqFailureCb : option (bytes -> M Z);
  channelOpenCb : option (loc -> M Z);
  channelOpenConfCb : option (loc -> M Z);
  channelOpenFailCb : option (loc -> M Z);
  channelReqShellCb : option (loc -> M Z);
  channelReqExecCb : option (loc -> M Z);
  channelReqSubsysCb : option (loc -> M Z);
  channelReqAnyCb : option (loc -> bytes -> bytes -> bool -> M Z);
  channelEofCb : option (loc -> M Z);
  channelCloseCb : option (loc -> M Z);
  agentCb : option (Z -> M Z);
  (* what it returns, and for a read the bytes it left *)
  agentIoCb : option (AgentIo -> M (Z * bytes));
  fwdCb : option (Z -> option bytes -> Z -> M Z);
  termResizeCb : option (Z -> Z -> Z -> Z -> M Z)
}.
#[export] Instance eta_ctx : Eta CTX := fun c => {|
  io_fuel := @io_fuel c;
  side := @side c;
  windowSz := @windowSz c;
  maxPacketSz := @maxPacketSz c;
  ctx_highwaterMark := @ctx_highwaterMark c;
  ctx_msgHighwaterMark := @ctx_msgHighwaterMark c;
  ctx_appChannels := @ctx_appChannels c;
  ctx_agentEnabled := @ctx_agentEnabled c;
  ctx_sendStrictKex := @ctx_sendStrictKex c;
  ctx_maxAuthAttempts := @ctx_maxAuthAttempts c;
  sshProtoIdStr := @sshProtoIdStr c;
  ctx_algoListKex := @ctx_algoListKex c;
  ctx_algoListKey := @ctx_algoListKey c;
  ctx_algoListCipher := @ctx_algoListCipher c;
  ctx_algoListMac := @ctx_algoListMac c;
  ctx_algoListKeyAccepted := @ctx_algoListKeyAccepted c;
  privateKey := @privateKey c;
  publicKeyAlgo := @publicKeyAlgo c;
  banner := @banner c;
  ctx_certMan := @ctx_certMan c;
  ioRecvCb := @ioRecvCb c;
  ioSendCb := @ioSendCb c;
  publicKeyCheckCb := @publicKeyCheckCb c;
  userAuthCb := @userAuthCb c;
  userAuthTypesCb := @userAuthTypesCb c;
  userAuthResultCb := @userAuthResultCb c;
  highwaterCb := @highwaterCb c;
  keyingCompletionCb := @keyingCompletionCb c;
  globalReqCb := @globalReqCb c;
  globalReqAnyCb := @globalReqAnyCb c;
  reqSuccessCb := @reqSuccessCb c;
  reqFailureCb := @reqFailureCb c;
  channelOpenCb := @channelOpenCb c;
  channelOpenConfCb := @channelOpenConfCb c;
  channelOpenFailCb := @channelOpenFailCb c;
  channelReqShellCb := @channelReqShellCb c;
  channelReqExecCb := @channelReqExecCb c;
  channelReqSubsysCb := @channelReqSubsysCb c;
  channelReqAnyCb := @channelReqAnyCb c;
  channelEofCb := @channelEofCb c;
  channelCloseCb := @channelCloseCb c;
  agentCb := @agentCb c;
  agentIoCb := @agentIoCb c;
  fwdCb := @fwdCb c;
  termResizeCb := @termResizeCb c
|}.

Definition privateKeyCount `{CTX} : Z := Z.of_nat (length privateKey).

(** The parts of wolfCrypt the packet code calls. A cipher or generator takes
    the bytes of its context and returns the new ones. *)
Class Crypto := {
  wc_RNG_GenerateBlock : bytes -> Z -> option bytes * bytes;
  (* the code of a call that fails *)
  wc_RNG_error : bytes -> Z -> Z;
  wc_AesInit : option bytes;
  (* context, key, iv, encrypting *)
  wc_AesSetKey : bytes -> bytes -> bytes -> bool -> option bytes;
  wc_AesGcmSetKey : bytes -> bytes -> option bytes;
  wc_AesCbcEncrypt : bytes -> bytes -> option bytes * bytes;
  wc_AesCbcDecrypt : bytes -> bytes -> option bytes * bytes;
  wc_AesCtrEncrypt : bytes -> bytes -> option bytes * bytes;
  (* context, iv, additional data, input, tag size: output and tag *)
  wc_AesGcmEncrypt : bytes -> bytes -> bytes -> bytes -> Z -> res (bytes * bytes) * bytes;
  (* context, iv, additional data, input, tag *)
  wc_AesGcmDecrypt : bytes -> bytes -> bytes -> bytes -> bytes -> res bytes * bytes;
  wc_Hmac : wc_HashType -> bytes -> bytes -> res bytes
}.


(** What wolfCrypt documents of their results: the sizes, that outputs are
    bytes, and that a failure has a code other than 0. *)
Class CryptoSizes `{Crypto} : Prop := {
  rng_size st n b st' : wc_RNG_GenerateBlock st n = (Some b, st') -> 0 <= n -> blen b = n;
  rng_error st n : wc_RNG_error st n <> 0;
  rng_bytes st n b st' : wc_RNG_GenerateBlock st n = (Some b, st') -> Forall is_byte b;
  cbc_size st i o st' : wc_AesCbcEncrypt st i = (Some o, st') -> blen o = blen i;
  ctr_size st i o st' : wc_AesCtrEncrypt st i = (Some o, st') -> blen o = blen i;
  gcm_size st v a i n o t st' :
    wc_AesGcmEncrypt st v a i n = (Ok (o, t), st') -> blen o = blen i /\ blen t = n;
  gcm_def st v a i n : (wc_AesGcmEncrypt st v a i n).1 <> UB;
  hmac_size h k m d : wc_Hmac h k m = Ok d -> blen d = DigestSz h;
  hmac_def h k m : wc_Hmac h k m <> UB;
  gcm_error st v a i n : (wc_AesGcmEncrypt st v a i n).1 <> Err 0;
  hmac_error h k m : wc_Hmac h k m <> Err 0
}.

(** ** Statements on a session *)

Definition on_out {A} (m : ST WOLFSSH_BUFFER A) : M A := fun s =>
  let '(r, b) := m (outputBuffer (tx s)) in (r, s <| tx; outputBuffer := b |>).
Definition on_in {A} (m : ST WOLFSSH_BUFFER A) : M A := fun s =>
  let '(r, b) := m (inputBuffer (rx s)) in (r, s <| rx; inputBuffer := b |>).
Definition on_fwd {A} (m : ST FwdState A) : M A := fun s =>
  let '(r, f) := m (fwd s) in (r, s <| fwd := f |>).

(** [WMALLOC(...) != NULL]. *)
Definition malloc : M bool := fun s =>
  match mallocs s with
  | [] => (Ok true, s)
  | b :: r => (Ok b, s <| mallocs := r |>)
  end.

Lemma malloc_run s :
  malloc s = (Ok (default true (head (mallocs s))), s <| mallocs := tail (mallocs s) |>).
Proof. unfold malloc. destruct s; cbn. by destruct mallocs0. Qed.

(** Reading a value of the message at the local index [i]: the value and the
    index after it. *)
Definition parse {A} (p : bytes -> Z -> ST Z A) (buf : bytes) (len i : Z) : M (A * Z) := fun s =>
  match p buf len i with
  | (Ok a, j) => (Ok (a, j), s)
  | (Err e, _) => (Err e, s)
  | (UB, _) => (UB, s)
  end.

(** Go on after an error, with its code. *)
Definition attempt {A} (m : M A) : M (A + Z) := fun s =>
  match m s with
  | (Ok a, s') => (Ok (inl a), s')
  | (Err e, s') => (Ok (inr e), s')
  | (UB, s') => (UB, s')
  end.

(** [ch->...], and an assignment to a field of the channel. *)
Definition ld_channel (l : loc) : M WOLFSSH_CHANNEL :=
  s ← get; deref (channels (chan s) !! l).
Definition st_channel (l : loc) (f : WOLFSSH_CHANNEL -> WOLFSSH_CHANNEL) : M unit :=
  c ← ld_channel l;
  modify (fun s => s <| chan; channels ::= <[l := f c]> |>).

(** A call through a callback pointer; [dflt] is what the code does without
    one. *)
Definition call {A} (cb : option A) (f : A -> M Z) (dflt : M Z) : M Z :=
  match cb with Some c => f c | None => dflt end.

(** A callback that returns and touches only the application's own memory, in
    a way [R] allows. *)
Definition keeps (R : bytes -> bytes -> Prop) {A} (m : M A) : Prop :=
  forall s, exists a x, m s = (Ok a, s <| app := x |>) /\ R (app s) x.

Class Callbacks (R : bytes -> bytes -> Prop) `{CTX} : Prop := {
  keep_highwater cb side : highwaterCb = Some cb -> keeps R (cb side);
  keep_globalReq cb name sz w : globalReqCb = Some cb -> keeps R (cb name sz w);
  keep_globalReqAny cb name p w : globalReqAnyCb = Some cb -> keeps R (cb name p w);
  keep_open cb l : channelOpenCb = Some cb -> keeps R (cb l);
  keep_openConf cb l : channelOpenConfCb = Some cb -> keeps R (cb l);
  keep_openFail cb l : channelOpenFailCb = Some cb -> keeps R (cb l);
  keep_shell cb l : channelReqShellCb = Some cb -> keeps R (cb l);
  keep_exec cb l : channelReqExecCb = Some cb -> keeps R (cb l);
  keep_subsys cb l : channelReqSubsysCb = Some cb -> keeps R (cb l);
  keep_reqAny cb l t p w : channelReqAnyCb = Some cb -> keeps R (cb l t p w);
  keep_eof cb l : channelEofCb = Some cb -> keeps R (cb l);
  keep_close cb l : channelCloseCb = Some cb -> keeps R (cb l);
  keep_fwd cb a h p : fwdCb = Some cb -> keeps R (cb a h p);
  keep_resize cb a b c d : termResizeCb = Some cb -> keeps R (cb a b c d)
}.

(** No constraint on the application's memory. *)
Abbreviation QuietCallbacks := (Callbacks (fun _ _ => True)).

Lemma keeps_weaken (R R' : bytes -> bytes -> Prop) {A} (m : M A) :
  (forall x y, R x y -> R' x y) -> keeps R m -> keeps R' m.
Proof. intros HR Hm s. destruct (Hm s) as (a&x&E&Hx). exists a, x. auto. Qed.

Lemma callbacks_quiet R `{CTX} : Callbacks R -> QuietCallbacks.
Proof. intros []. split; intros; eapply keeps_weaken; eauto. Qed.

(** ** A new session *)

Definition zero_tx (b : WOLFSSH_BUFFER) (rng : bytes) : Transmit :=
  mkTx b 0 0 0 0 0 ID_NONE ID_NONE false MIN_BLOCK_SZ 0 zero_keys [] rng.
Definition zero_rx (b : WOLFSSH_BUFFER) : Receive :=
  mkRx b 0 0 0 0 ID_NONE ID_NONE false MIN_BLOCK_SZ 0 zero_keys [] 0 0 0.

(** [wc_InitRng] yields the generator's state, [None] for one that cannot be
    made; [mem] is the outcome of the other allocations, and [mallocs] those of
    the session to come. *)
Definition SshInit `{CTX} (mem : bool) (wc_InitRng : option bytes) (mallocs : list bool) (app : bytes)
    : option WOLFSSH :=
  match HandshakeInfoNew mem, wc_InitRng with
  | Some handshake, Some rng =>
    match BufferInit true 0, BufferInit true 0 with
    | Ok inputBuffer, Ok outputBuffer =>
      Some (mkSession 0 0 false false false false false ctx_appChannels ACCEPT_BEGIN CONNECT_BEGIN
        CLIENT_BEGIN SERVER_BEGIN false false ctx_highwaterMark false ctx_msgHighwaterMark false
        (Some handshake) None ctx_agentEnabled false (zero_tx outputBuffer rng) (zero_rx inputBuffer)
        (mkChannels ∅ [] 0 DEFAULT_NEXT_CHANNEL 0 WOLFSSH_SESSION_SHELL None false 0 1%positive)
        fwd_init (mkTerm 0 0 0 0 [] 0)
        (mkKex ID_NONE [] (zeros (MAX_KEX_KEY_SZ + 1)) [] None ctx_algoListKex ctx_algoListKey
          ctx_algoListCipher ctx_algoListMac ctx_algoListKeyAccepted false false ctx_sendStrictKex
          false None 0)
        (mkAuth ID_USERAUTH_PUBLICKEY
          [ID_USERAUTH_PUBLICKEY; ID_USERAUTH_PASSWORD; ID_USERAUTH_KEYBOARD; ID_NONE]
          None zero_keyboard 0 false false false ctx_maxAuthAttempts 0 0 false)
        ctx_certMan mallocs app)
    | _, _ => None
    end
  | _, _ => None
  end.
