(* ===== verification/Samples.v ===== *)
(** A context without callbacks and a crypto library that does nothing, and the
    sessions the examples of the other files start from. *)

From S2P Require Import Prelude Codes Names Buffer Fwd Algos Kdf Session.

(** A send callback that takes everything and appends it to the application's
    memory. *)
Definition take_all (d : bytes) : M Z :=
  modify (fun s => s <| app ::= (fun w => w ++ d) |>);; mret (blen d).

Definition sample_ctx (sd : Z) : CTX := {|
  io_fuel := 4000;
  side := sd;
  windowSz := 131072;
  maxPacketSz := 32768;
  ctx_highwaterMark := 1000000;
  ctx_msgHighwaterMark := 1000000;
  ctx_appChannels := 0;
  ctx_agentEnabled := false;
  ctx_sendStrictKex := true;
  ctx_maxAuthAttempts := 6;
  sshProtoIdStr := str "SSH-2.0-wolfSSHv1.4.21" ++ [13; 10];
  ctx_algoListKex := str "curve25519-sha256,diffie-hellman-group14-sha256";
  ctx_algoListKey := if sd =? WOLFSSH_ENDPOINT_CLIENT then Some (str "ssh-ed25519,rsa-sha2-256") else None;
  ctx_algoListCipher := str "aes256-gcm@openssh.com,aes128-ctr";
  ctx_algoListMac := str "hmac-sha2-256,hmac-sha2-512";
  ctx_algoListKeyAccepted := str "ssh-ed25519,rsa-sha2-256";
  privateKey := [mkPvtKey ID_SSH_RSA [1; 2; 3] [] None];
  publicKeyAlgo := [ID_RSA_SHA2_256];
  banner := None;
  ctx_certMan := [];
  ioRecvCb := None;
  ioSendCb := Some take_all;
  publicKeyCheckCb := None;
  userAuthCb := None;
  userAuthTypesCb := None;
  userAuthResultCb := None;
  highwaterCb := None;
  keyingCompletionCb := None;
  globalReqCb := None;
  globalReqAnyCb := None;
  reqSuccessCb := None;
  reqFailureCb := None;
  channelOpenCb := None;
  channelOpenConfCb := None;
  channelOpenFailCb := None;
  channelReqShellCb := None;
  channelReqExecCb := None;
  channelReqSubsysCb := None;
  channelReqAnyCb := None;
  channelEofCb := None;
  channelCloseCb := None;
  agentCb := None;
  agentIoCb := None;
  fwdCb := None;
  termResizeCb := None
|}.

Definition server : CTX := sample_ctx WOLFSSH_ENDPOINT_SERVER.
Definition client : CTX := sample_ctx WOLFSSH_ENDPOINT_CLIENT.

#[export] Instance sample_callbacks R sd : @Callbacks R (sample_ctx sd).
Proof. split; intros; discriminate. Defined.

(** The identity as every cipher, and zeros as random bytes, tags and
    digests. *)
#[export] Instance null_crypto : Crypto := {|
  wc_RNG_GenerateBlock st n := (Some (zeros n), st);
  wc_RNG_error _ _ := WS_CRYPTO_FAILED;
  wc_AesInit := Some [];
  wc_AesSetKey _ k iv _ := Some (k ++ iv);
  wc_AesGcmSetKey _ k := Some k;
  wc_AesCbcEncrypt st i := (Some i, st);
  wc_AesCbcDecrypt st i := (Some i, st);
  wc_AesCtrEncrypt st i := (Some i, st);
  wc_AesGcmEncrypt st _ _ i n := if n <? 0 then (Err WS_CRYPTO_FAILED, st) else (Ok (i, zeros n), st);
  wc_AesGcmDecrypt st _ _ i _ := (Ok i, st);
  wc_Hmac h _ _ := Ok (zeros (DigestSz h))
|}.

#[export] Instance null_crypto_sizes : CryptoSizes.
Proof.
  split; cbn.
  - intros st n b st' [= <- <-] Hn. by apply blen_zeros.
  - done.
  - intros st n b st' [= <- <-]. unfold zeros. apply Forall_replicate. unfold is_byte. lia.
  - by intros st i o st' [= <- <-].
  - by intros st i o st' [= <- <-].
  - intros st v a i n o t st'. destruct (Z.ltb_spec n 0); [done|]. intros [= <- <- <-].
    split; [done|]. by apply blen_zeros.
  - intros st v a i n. by destruct (n <? 0).
  - intros h k m d [= <-]. by destruct h.
  - done.
  - intros st v a i n. by destruct (n <? 0).
  - done.
Defined.

(** A session just made, with [a] as the application's memory; the two sides
    differ in their context only. *)
Definition new_session (a : bytes) : WOLFSSH :=
  match @SshInit server true (Some []) [] a as o
    return match o with Some _ => WOLFSSH | None => unit end with
  | Some s => s
  | None => tt
  end.
