(* ===== verification/MsgFilter.v ===== *)
(** Which messages a session accepts, and when it must rekey (internal.c,
    [HighwaterCheck], [IsMessageAllowed] and its two sides, [MsgIdKnown],
    [ExpectClientKexMsg]). *)

From S2P Require Import Prelude Codes Names Buffer Algos Kdf Session Samples.

Section MsgFilter.
Context `{CTX}.

Definition MSGIDLIMIT_TRANS_GEN (x : Z) : bool :=
  (MSGIDLIMIT_TRANS_GEN_MIN <=? x) && (x <=? MSGIDLIMIT_TRANS_GEN_MAX).
Definition MSGIDLIMIT_TRANS (x : Z) : bool :=
  (MSGIDLIMIT_TRANS_MIN <=? x) && (x <=? MSGIDLIMIT_TRANS_MAX).
Definition MSGIDLIMIT_TRANS_KEX (x : Z) : bool :=
  (MSGIDLIMIT_TRANS_KEX_MIN <=? x) && (x <=? MSGIDLIMIT_TRANS_KEX_MAX).
Definition MSGIDLIMIT_AUTH (x : Z) : bool :=
  (MSGIDLIMIT_AUTH_MIN <=? x) && (x <=? MSGIDLIMIT_AUTH_MAX).
Definition MSGIDLIMIT_POST_USERAUTH (x : Z) : bool := MSGIDLIMIT_CONN_MIN <=? x.

(** [ssh->error = WS_MSGID_NOT_ALLOWED_E; return 0]. *)
Definition deny : M bool :=
  modify (fun s => s <| error := WS_MSGID_NOT_ALLOWED_E |>);; mret false.

Definition peer_is_keying (s : WOLFSSH) : bool :=
  truthy (Z.land (isKeying s) WOLFSSH_PEER_IS_KEYING).

(** The key exchange messages, the same on both sides: [Some] when the function
    returns there. *)
Definition kex_allowed (msg : Z) : M (option bool) :=
  s ← get;
  if MSGIDLIMIT_TRANS msg then
    if peer_is_keying s then
      if msg =? MSGID_KEXINIT then b ← deny; mret (Some b)
      else
        match handshake s with
        | Some h =>
          if negb (expectMsgId h =? MSGID_NONE) then
            if negb (msg =? expectMsgId h) then b ← deny; mret (Some b)
            else
              modify (fun s => s <| handshake := Some (h <| expectMsgId := MSGID_NONE |>) |>);;
              mret (Some true)
          else mret None
        | None => mret None
        end
    else if msg =? MSGID_KEXINIT then mret (Some true)
    else b ← deny; mret (Some b)
  else mret None.

Definition IsMessageAllowedServer (msg : Z) : M bool :=
  s ← get;
  if (msg =? MSGID_SERVICE_ACCEPT) || (msg =? MSGID_KEXDH_REPLY) || (msg =? MSGID_KEXDH_GEX_REPLY)
  then deny
  else if msg =? MSGID_SERVICE_REQUEST then
    if peer_is_keying s then deny
    else mret (acceptState s =? ACCEPT_KEYED)
  else if MSGIDLIMIT_TRANS_GEN msg then mret true
  else
    r ← kex_allowed msg;
    match r with
    | Some b => mret b
    | None =>
      if MSGIDLIMIT_AUTH msg && (acceptState s <? ACCEPT_CLIENT_USERAUTH_REQUEST_DONE)
      then mret false
      else if (acceptState s <? ACCEPT_KEYED) && (MSGID_KEXDH_GEX_REQUEST <? msg) then mret false
      else if acceptState s <? ACCEPT_SERVER_USERAUTH_SENT then
        if MSGIDLIMIT_POST_USERAUTH msg then mret false
        else if (MSGID_USERAUTH_REQUEST <? msg) && negb (msg =? MSGID_USERAUTH_INFO_RESPONSE)
        then mret false
        else mret true
      else if (MSGID_USERAUTH_REQUEST <=? msg) && (msg <? MSGID_GLOBAL_REQUEST) then mret false
      else mret true
    end.

Definition IsMessageAllowedClient (msg : Z) : M bool :=
  s ← get;
  if (msg =? MSGID_SERVICE_REQUEST) || (msg =? MSGID_USERAUTH_REQUEST)
     || (msg =? MSGID_USERAUTH_INFO_RESPONSE) || (msg =? MSGID_KEXDH_INIT)
     || (msg =? MSGID_KEXDH_GEX_INIT) || (msg =? MSGID_KEXDH_GEX_REQUEST)
  then deny
  else if msg =? MSGID_SERVICE_ACCEPT then
    if peer_is_keying s then deny
    else mret (connectState s =? CONNECT_CLIENT_USERAUTH_REQUEST_SENT)
  else if MSGIDLIMIT_TRANS_GEN msg then mret true
  else
    r ← kex_allowed msg;
    match r with
    | Some b => mret b
    | None =>
      if connectState s <? CONNECT_SERVER_USERAUTH_ACCEPT_DONE then
        if MSGIDLIMIT_POST_USERAUTH msg then deny
        else if MSGIDLIMIT_AUTH msg then
          if connectState s <? CONNECT_CLIENT_USERAUTH_SENT then deny else mret true
        else mret false
      else if MSGIDLIMIT_POST_USERAUTH msg then mret true
      else if MSGIDLIMIT_AUTH msg then deny
      else mret false
    end.

Definition IsMessageAllowed (msg state : Z) : M bool :=
  s ← get;
  if (state =? WS_MSG_RECV) && useStrictKex s && negb (initialKexDone s)
     && (negb (msg =? MSGID_DISCONNECT) && negb (msg =? MSGID_KEXINIT)
         && negb (msg =? MSGID_NEWKEYS) && negb (MSGIDLIMIT_TRANS_KEX msg))
  then deny
  else if side =? WOLFSSH_ENDPOINT_SERVER then IsMessageAllowedServer msg
  else if side =? WOLFSSH_ENDPOINT_CLIENT then IsMessageAllowedClient msg
  else mret false.

Definition known_ids : list Z := [
  MSGID_DISCONNECT; MSGID_IGNORE; MSGID_UNIMPLEMENTED; MSGID_REQUEST_SUCCESS;
  MSGID_REQUEST_FAILURE; MSGID_DEBUG; MSGID_EXT_INFO; MSGID_KEXINIT; MSGID_NEWKEYS;
  MSGID_KEXDH_INIT; MSGID_KEXDH_REPLY; MSGID_KEXDH_GEX_REQUEST; MSGID_KEXDH_GEX_INIT;
  MSGID_KEXDH_GEX_REPLY; MSGID_SERVICE_REQUEST; MSGID_SERVICE_ACCEPT; MSGID_USERAUTH_REQUEST;
  MSGID_USERAUTH_INFO_RESPONSE; MSGID_USERAUTH_INFO_REQUEST; MSGID_USERAUTH_FAILURE;
  MSGID_USERAUTH_SUCCESS; MSGID_USERAUTH_BANNER; MSGID_GLOBAL_REQUEST; MSGID_CHANNEL_OPEN;
  MSGID_CHANNEL_OPEN_CONF; MSGID_CHANNEL_OPEN_FAIL; MSGID_CHANNEL_WINDOW_ADJUST;
  MSGID_CHANNEL_DATA; MSGID_CHANNEL_EXTENDED_DATA; MSGID_CHANNEL_EOF; MSGID_CHANNEL_CLOSE;
  MSGID_CHANNEL_REQUEST; MSGID_CHANNEL_SUCCESS; MSGID_CHANNEL_FAILURE
].
Definition MsgIdKnown (msg : Z) : bool := existsb (Z.eqb msg) known_ids.

(** With no handshake the access is undefined behaviour. *)
Definition ExpectClientKexMsg : M unit :=
  s ← get;
  h ← deref (handshake s);
  modify (fun s => s <| handshake := Some (h <| expectMsgId :=
    if id_eqb (hs_kexId h) ID_DH_GEX_SHA256 then MSGID_KEXDH_GEX_REQUEST else MSGID_KEXDH_INIT |>) |>).

(** ** Rekeying marks *)

Definition bytes_over (s : WOLFSSH) : bool :=
  negb (highwaterFlag s) && truthy (highwaterMark s)
  && ((highwaterMark s <=? txCount (tx s)) || (highwaterMark s <=? rxCount (rx s))).
Definition msgs_over (s : WOLFSSH) : bool :=
  negb (msgHighwaterFlag s) && truthy (msgHighwaterMark s)
  && ((msgHighwaterMark s <=? txMsgCount (tx s)) || (msgHighwaterMark s <=? rxMsgCount (rx s))).

Definition HighwaterCheck (hwside : Z) : M Z :=
  s ← get;
  let fire := bytes_over s || msgs_over s in
  when (bytes_over s) (modify (fun s => s <| highwaterFlag := true |>));;
  when (msgs_over s) (modify (fun s => s <| msgHighwaterFlag := true |>));;
  let fire := if fire && disconnected s then false else fire in
  match highwaterCb with
  | Some cb => if fire then cb hwside else mret WS_SUCCESS
  | None => mret WS_SUCCESS
  end.

(** ** What the filter guarantees *)

(** [m] answers [b] and leaves the session as it was, up to the latched error
    and the expectation of the key exchange. *)
Definition same_but_verdict (s s' : WOLFSSH) : Prop :=
  s' = s <| error := error s' |> <| handshake := handshake s' |> /\
  (error s' = error s \/ error s' = WS_MSGID_NOT_ALLOWED_E) /\
  (handshake s' = handshake s \/
   exists h, handshake s = Some h /\ handshake s' = Some (h <| expectMsgId := MSGID_NONE |>)).

Lemma same_but_verdict_refl s : same_but_verdict s s.
Proof. destruct s. repeat split; auto. Qed.

Lemma deny_run s : deny s = (Ok false, s <| error := WS_MSGID_NOT_ALLOWED_E |>).
Proof. done. Qed.

Lemma same_but_verdict_deny s : same_but_verdict s (s <| error := WS_MSGID_NOT_ALLOWED_E |>).
Proof. destruct s. repeat split; cbn; auto. Qed.

(** Runs the filter to its verdicts, one goal for each way through it. *)
Ltac filter s :=
  unfold IsMessageAllowed, IsMessageAllowedServer, IsMessageAllowedClient, kex_allowed, deny;
  run; destruct (handshake s) eqn:?; run;
  repeat (match goal with |- context [if ?b then _ else _] => destruct b eqn:? end; run).

Ltac bools :=
  repeat match goal with
  | H : _ && _ = true |- _ => apply andb_true_iff in H as [? ?]
  | H : _ || _ = false |- _ => apply orb_false_iff in H as [? ?]
  | H : negb _ = true |- _ => apply negb_true_iff in H
  | H : negb _ = false |- _ => apply negb_false_iff in H
  | H : (_ =? _) = true |- _ => apply Z.eqb_eq in H
  | H : (_ =? _) = false |- _ => apply Z.eqb_neq in H
  | H : (_ <=? _) = true |- _ => apply Z.leb_le in H
  | H : (_ <=? _) = false |- _ => apply Z.leb_gt in H
  | H : (_ <? _) = true |- _ => apply Z.ltb_lt in H
  | H : (_ <? _) = false |- _ => apply Z.ltb_ge in H
  end.

Lemma IsMessageAllowed_total msg state s :
  match IsMessageAllowed msg state s with
  | (Ok _, s') => same_but_verdict s s'
  | _ => False
  end.
Proof.
  filter s; cbn.
  all: first [apply same_but_verdict_refl|apply same_but_verdict_deny|idtac].
  all: unfold same_but_verdict; destruct s; cbn in *; subst; (split; [reflexivity|]); cbn; split; [by left|right; eauto].
Qed.

(** C29: the strict key exchange allow list (Terrapin). Until the peer's first
    NEWKEYS, a session that negotiated strict key exchange accepts nothing but
    DISCONNECT, KEXINIT, NEWKEYS and the messages of the key exchange method. *)
Theorem strict_kex_allow_list (msg : Z) (s s' : WOLFSSH) :
  useStrictKex s = true -> initialKexDone s = false ->
  IsMessageAllowed msg WS_MSG_RECV s = (Ok true, s') ->
  msg = MSGID_DISCONNECT \/ msg = MSGID_KEXINIT \/ msg = MSGID_NEWKEYS \/
  MSGIDLIMIT_TRANS_KEX_MIN <= msg <= MSGIDLIMIT_TRANS_KEX_MAX.
Proof.
  intros Hs Hi. unfold IsMessageAllowed. run. rewrite Hs, Hi.
  destruct (msg =? MSGID_DISCONNECT) eqn:?; bools; [auto|].
  destruct (msg =? MSGID_KEXINIT) eqn:?; bools; [auto|].
  destruct (msg =? MSGID_NEWKEYS) eqn:?; bools; [auto|].
  destruct (MSGIDLIMIT_TRANS_KEX msg) eqn:Hk; [|by cbn].
  unfold MSGIDLIMIT_TRANS_KEX in Hk. bools. intros _. right; right; right. lia.
Qed.

(** The messages a server only sends are refused by it. *)
Lemma server_refuses msg s b s' : side = WOLFSSH_ENDPOINT_SERVER ->
  msg ∈ [MSGID_SERVICE_ACCEPT; MSGID_KEXDH_REPLY; MSGID_KEXDH_GEX_REPLY; MSGID_USERAUTH_FAILURE; MSGID_USERAUTH_SUCCESS;
         MSGID_USERAUTH_BANNER; MSGID_USERAUTH_INFO_REQUEST] ->
  IsMessageAllowed msg WS_MSG_RECV s = (Ok b, s') -> b = false.
Proof.
  intros Hs Hm. rewrite list_elem_of_In in Hm. cbn [In] in Hm.
  repeat destruct Hm as [<-|Hm]; [..|done]; filter s; intros E; injection E as <- _; bools; try done; clia.
Qed.

Lemma connection_after_auth (msg state : Z) (s s' : WOLFSSH) :
  MSGIDLIMIT_CONN_MIN <= msg ->
  IsMessageAllowed msg state s = (Ok true, s') ->
  (side = WOLFSSH_ENDPOINT_SERVER /\ ACCEPT_SERVER_USERAUTH_SENT <= acceptState s) \/
  (side = WOLFSSH_ENDPOINT_CLIENT /\ CONNECT_SERVER_USERAUTH_ACCEPT_DONE <= connectState s).
Proof.
  intros Hm.
  assert (MSGIDLIMIT_TRANS msg = false) as Ht by (unfold MSGIDLIMIT_TRANS; apply andb_false_iff; right; apply Z.leb_gt; clia).
  assert (MSGIDLIMIT_TRANS_GEN msg = false) as Hg by (unfold MSGIDLIMIT_TRANS_GEN; apply andb_false_iff; right; apply Z.leb_gt; clia).
  assert (MSGIDLIMIT_AUTH msg = false) as Ha by (unfold MSGIDLIMIT_AUTH; apply andb_false_iff; right; apply Z.leb_gt; clia).
  assert (MSGIDLIMIT_POST_USERAUTH msg = true) as Hp by (unfold MSGIDLIMIT_POST_USERAUTH; apply Z.leb_le; clia).
  filter s; bools; try congruence; intros E; try congruence; try (exfalso; clia);
    first [left; split; [done|clia]|right; split; [done|clia]].
Qed.

(** C30: RFC 4252 section 6. No message of the connection protocol (80 and up) is
    accepted before user authentication is complete, in any key exchange state,
    on either side. *)
Theorem no_connection_before_auth (msg state : Z) (s s' : WOLFSSH) :
  MSGIDLIMIT_CONN_MIN <= msg ->
  IsMessageAllowed msg state s = (Ok true, s') ->
  (side = WOLFSSH_ENDPOINT_SERVER /\ ACCEPT_SERVER_USERAUTH_SENT <= acceptState s) \/
  (side = WOLFSSH_ENDPOINT_CLIENT /\ CONNECT_SERVER_USERAUTH_ACCEPT_DONE <= connectState s).
Proof. apply connection_after_auth. Qed.

(** C31: the expected-message rule. While the peer is keying and a specific key
    exchange message is expected, no other message of 20 to 49 is accepted (so
    no guessed or repeated one), and accepting it clears the expectation. *)
Theorem expected_message_only (msg state : Z) (s s' : WOLFSSH) (h : HandshakeInfo) :
  MSGIDLIMIT_TRANS_ALGO_MIN <= msg <= MSGIDLIMIT_TRANS_MAX ->
  peer_is_keying s = true -> handshake s = Some h -> expectMsgId h <> MSGID_NONE ->
  IsMessageAllowed msg state s = (Ok true, s') ->
  msg = expectMsgId h /\ handshake s' = Some (h <| expectMsgId := MSGID_NONE |>).
Proof.
  intros Hm Hk Hh He.
  assert (MSGIDLIMIT_TRANS msg = true) as Ht by (unfold MSGIDLIMIT_TRANS; apply andb_true_iff; split; apply Z.leb_le; clia).
  assert (MSGIDLIMIT_TRANS_GEN msg = false) as Hg by (unfold MSGIDLIMIT_TRANS_GEN; apply andb_false_iff; right; apply Z.leb_gt; clia).
  filter s; bools; try congruence; intros E; try congruence; try (exfalso; clia).
  all: injection Hh as <-; injection E as <-; done.
Qed.

(** a role never receives the messages only it sends: a server refuses
    SERVICE_ACCEPT and the key exchange replies, a client SERVICE_REQUEST, the
    userauth requests and responses and the key exchange initiations, in every
    state; the refusal is latched in the session's error. *)
Theorem own_messages_refused (msg state : Z) (s : WOLFSSH) :
  (side = WOLFSSH_ENDPOINT_SERVER /\
     msg ∈ [MSGID_SERVICE_ACCEPT; MSGID_KEXDH_REPLY; MSGID_KEXDH_GEX_GROUP; MSGID_KEXDH_GEX_REPLY]) \/
  (side = WOLFSSH_ENDPOINT_CLIENT /\
     msg ∈ [MSGID_SERVICE_REQUEST; MSGID_USERAUTH_REQUEST; MSGID_USERAUTH_INFO_RESPONSE;
            MSGID_KEXDH_INIT; MSGID_KEXDH_GEX_INIT; MSGID_KEXDH_GEX_REQUEST]) ->
  IsMessageAllowed msg state s = (Ok false, s <| error := WS_MSGID_NOT_ALLOWED_E |>).
Proof.
  intros Hs. unfold IsMessageAllowed. run. destruct (_ && _ && _ && _); [done|].
  destruct Hs as [[-> Hm]|[-> Hm]]; rewrite !list_elem_of_In in Hm; cbn in Hm;
    repeat destruct Hm as [<-|Hm]; try done.
Qed.

Lemma IsMessageAllowed_frame (msg state : Z) (s : WOLFSSH) :
  match IsMessageAllowed msg state s with
  | (Ok true, s') =>
      s' = s \/ exists h, handshake s = Some h /\ expectMsgId h = msg /\ msg <> MSGID_NONE /\
                  s' = s <| handshake := Some (h <| expectMsgId := MSGID_NONE |>) |>
  | (Ok false, s') => s' = s \/ s' = s <| error := WS_MSGID_NOT_ALLOWED_E |>
  | _ => False
  end.
Proof.
  filter s; bools; auto. all: right; exists h; repeat split; congruence.
Qed.

(** The filter only reads the session, but for the error it latches on a
    refusal and the expectation an accepted message consumes. *)
Theorem filter_changes_nothing_else (msg state : Z) (s : WOLFSSH) :
  match IsMessageAllowed msg state s with
  | (Ok true, s') =>
      s' = s \/ exists h, handshake s = Some h /\ expectMsgId h = msg /\ msg <> MSGID_NONE /\
                  s' = s <| handshake := Some (h <| expectMsgId := MSGID_NONE |>) |>
  | (Ok false, s') => s' = s \/ s' = s <| error := WS_MSGID_NOT_ALLOWED_E |>
  | _ => False
  end.
Proof. apply IsMessageAllowed_frame. Qed.

(** What [HighwaterCheck] does before it calls the application. *)
Definition highwater_flags (s : WOLFSSH) : WOLFSSH :=
  s <| highwaterFlag ::= orb (bytes_over s) |> <| msgHighwaterFlag ::= orb (msgs_over s) |>.

Lemma highwater_flags_id s :
  bytes_over s = false -> msgs_over s = false -> highwater_flags s = s.
Proof. intros Hb Hm. unfold highwater_flags. rewrite Hb, Hm. by destruct s. Qed.

Lemma HighwaterCheck_run hwside s :
  HighwaterCheck hwside s =
    if (bytes_over s || msgs_over s) && negb (disconnected s)
    then call highwaterCb (fun cb => cb hwside) (mret WS_SUCCESS) (highwater_flags s)
    else (Ok WS_SUCCESS, highwater_flags s).
Proof.
  unfold HighwaterCheck, highwater_flags, call. run.
  destruct (bytes_over s), (msgs_over s), (disconnected s), highwaterCb; destruct s; reflexivity.
Qed.

(** a rekey mark fires once per key. The check flags exactly the marks that
    are crossed, and with the flags up (until the next NEWKEYS clears them) it
    never calls the application again, whatever is sent or received. *)
Theorem highwater_fires_once (hwside : Z) (s : WOLFSSH) (t : Transmit) (r : Receive) :
  let s1 := highwater_flags s in
  highwaterFlag s1 = (highwaterFlag s || bytes_over s) /\
  msgHighwaterFlag s1 = (msgHighwaterFlag s || msgs_over s) /\
  HighwaterCheck hwside s1 = (Ok WS_SUCCESS, s1) /\
  (highwaterFlag s1 = true -> msgHighwaterFlag s1 = true ->
   HighwaterCheck hwside (s1 <| tx := t |> <| rx := r |>) = (Ok WS_SUCCESS, s1 <| tx := t |> <| rx := r |>)).
Proof.
  cbv zeta. assert (bytes_over (highwater_flags s) = false /\ msgs_over (highwater_flags s) = false) as [Hb Hm].
  { unfold bytes_over at 1, msgs_over at 1, highwater_flags; cbn. split.
    - unfold bytes_over. destruct (highwaterFlag s); cbn; [done|].
      by destruct (truthy _), (_ <=? _), (_ <=? _).
    - unfold msgs_over. destruct (msgHighwaterFlag s); cbn; [done|].
      by destruct (truthy _), (_ <=? _), (_ <=? _). }
  split; [unfold highwater_flags; cbn; apply orb_comm|].
  split; [unfold highwater_flags; cbn; apply orb_comm|]. split.
  - rewrite HighwaterCheck_run, Hb, Hm, (highwater_flags_id (highwater_flags s)) by done. done.
  - intros Hf Hg. set (u := (highwater_flags s) <| tx := t |> <| rx := r |>).
    assert (bytes_over u = false) as Hbu by (unfold bytes_over; change (highwaterFlag u) with (highwaterFlag (highwater_flags s)); by rewrite Hf).
    assert (msgs_over u = false) as Hmu by (unfold msgs_over; change (msgHighwaterFlag u) with (msgHighwaterFlag (highwater_flags s)); by rewrite Hg).
    rewrite HighwaterCheck_run, Hbu, Hmu, (highwater_flags_id u) by done. done.
Qed.

End MsgFilter.

(** ** Examples *)

Definition strict_session : WOLFSSH := (new_session []) <| useStrictKex := true |>.

Example strict_kex_allow_list_witness :
  exists s', @IsMessageAllowed server MSGID_KEXINIT WS_MSG_RECV strict_session = (Ok true, s') /\
  (MSGID_KEXINIT = MSGID_DISCONNECT \/ MSGID_KEXINIT = MSGID_KEXINIT \/ MSGID_KEXINIT = MSGID_NEWKEYS \/
   MSGIDLIMIT_TRANS_KEX_MIN <= MSGID_KEXINIT <= MSGIDLIMIT_TRANS_KEX_MAX).
Proof.
  eexists. split; [reflexivity|].
  eapply (@strict_kex_allow_list server MSGID_KEXINIT strict_session); reflexivity.
Defined.

Definition authed_session : WOLFSSH :=
  (new_session []) <| acceptState := ACCEPT_SERVER_USERAUTH_SENT |> <| handshake := None |>
    <| clientState := CLIENT_USERAUTH_DONE |>.

Example no_connection_before_auth_witness :
  exists s', @IsMessageAllowed server MSGID_CHANNEL_OPEN WS_MSG_RECV authed_session = (Ok true, s') /\
  ((WOLFSSH_ENDPOINT_SERVER = WOLFSSH_ENDPOINT_SERVER /\ ACCEPT_SERVER_USERAUTH_SENT <= acceptState authed_session) \/
   (WOLFSSH_ENDPOINT_SERVER = WOLFSSH_ENDPOINT_CLIENT /\
    CONNECT_SERVER_USERAUTH_ACCEPT_DONE <= connectState authed_session)).
Proof.
  eexists. split; [reflexivity|].
  eapply (@no_connection_before_auth server MSGID_CHANNEL_OPEN WS_MSG_RECV authed_session);
    [vm_compute; congruence|reflexivity].
Defined.

Definition keying_session : WOLFSSH :=
  (new_session []) <| isKeying := Z.lor WOLFSSH_PEER_IS_KEYING WOLFSSH_SELF_IS_KEYING |>
    <| handshake ::= option_map (fun h => h <| expectMsgId := MSGID_NEWKEYS |>) |>.

Example expected_message_only_witness :
  exists s' h, @IsMessageAllowed server MSGID_NEWKEYS WS_MSG_RECV keying_session = (Ok true, s') /\
  MSGID_NEWKEYS = expectMsgId h /\ handshake s' = Some (h <| expectMsgId := MSGID_NONE |>).
Proof.
  eexists _, _. split; [reflexivity|].
  eapply (@expected_message_only server MSGID_NEWKEYS WS_MSG_RECV keying_session);
    [split; vm_compute; congruence|reflexivity|reflexivity|vm_compute; congruence|reflexivity].
Defined.

Example own_messages_refused_witness :
  @IsMessageAllowed server MSGID_SERVICE_ACCEPT WS_MSG_RECV authed_session
  = (Ok false, authed_session <| error := WS_MSGID_NOT_ALLOWED_E |>).
Proof.
  apply (@own_messages_refused server). left. split; [reflexivity|].
  apply list_elem_of_In. vm_compute. tauto.
Defined.

Example highwater_fires_once_witness :
  let s := (new_session []) <| tx; txCount := 1000000 |> <| rx; rxMsgCount := 1000000 |> in
  @HighwaterCheck server WOLFSSH_HWSIDE_TRANSMIT
    ((highwater_flags s) <| tx := tx s |> <| rx := rx s |>)
  = (Ok WS_SUCCESS, (highwater_flags s) <| tx := tx s |> <| rx := rx s |>).
Proof.
  cbv zeta. eapply (@highwater_fires_once server WOLFSSH_HWSIDE_TRANSMIT
    ((new_session []) <| tx; txCount := 1000000 |> <| rx; rxMsgCount := 1000000 |>)); reflexivity.
Defined.
