(* ===== verification/Transport.v ===== *)
(** The binary packet protocol, sending (internal.c): [PreparePacket] opens a
    packet in the output buffer, the senders write its payload, [BundlePacket]
    pads, authenticates and encrypts it, and [wolfSSH_SendPacket] flushes the
    buffer to the I/O callback. Also the ciphers and MACs of both directions.

    The loop of [SendPacketFlush] has as fuel the number of callback calls one
    flush may make ([io_fuel]); running out of it stands for the loop that does
    not end, an undefined outcome here. *)

From S2P Require Import Prelude Codes Wire Names Buffer Algos Kdf Session Samples MsgFilter.

Section Transport.
Context `{CTX} `{Crypto}.

Definition out_read (i n : Z) : M bytes := on_out (buffer_read i n).
Definition out_write (i : Z) (d : bytes) : M unit := on_out (buffer_write i d).

(** The writes of a sender at the end of the packet being built, each moving
    [outputBuffer.length]. *)
Definition put (d : bytes) : M unit :=
  s ← get;
  out_write (b_length (outputBuffer (tx s))) d;;
  modify (fun s => s <| tx; outputBuffer ::= (fun b => b <| b_length ::= (fun l => l +w blen d) |>) |>).

(** ** Ciphers *)

(** One step of the carry over the explicit part of the nonce, from its last
    byte; the result is in order. *)
Fixpoint increment_loop (rev_iv : bytes) (carry : Z) : bytes :=
  match rev_iv with
  | [] => []
  | b :: r =>
    let sum := b + carry in
    wrap8 sum :: increment_loop r (Z.land (Z.shiftr sum 8) 1)
  end.

Definition AeadIncrementExpIv (iv : bytes) : bytes :=
  take (Z.to_nat AEAD_IMP_IV_SZ) iv
  ++ rev (increment_loop (rev (slice iv AEAD_IMP_IV_SZ AEAD_EXP_IV_SZ)) 1)
  ++ drop (Z.to_nat (AEAD_IMP_IV_SZ + AEAD_EXP_IV_SZ)) iv.

(** A block cipher on whole blocks only. *)
Definition aes_blocks (f : bytes -> bytes -> option bytes * bytes) (err : Z) (st input : bytes)
    : res bytes * bytes :=
  if truthy (blen input mod AES_BLOCK_SIZE) then (Err err, st)
  else match f st input with
       | (Some o, st') => (Ok o, st')
       | (None, st') => (Err err, st')
       end.

Definition encrypt_ret (t : Transmit) (input : bytes) : res bytes * bytes :=
  let st := encryptCipher t in
  match encryptId t with
  | ID_NONE => (Ok input, st)
  | ID_AES128_CBC | ID_AES192_CBC | ID_AES256_CBC =>
      aes_blocks wc_AesCbcEncrypt WS_ENCRYPT_E st input
  | ID_AES128_CTR | ID_AES192_CTR | ID_AES256_CTR =>
      aes_blocks wc_AesCtrEncrypt WS_ENCRYPT_E st input
  | _ => (Err WS_INVALID_ALGO_ID, st)
  end.

Definition Encrypt (input : bytes) : M bytes :=
  let sz := blen input in
  guard_err (sz =? 0) WS_BAD_ARGUMENT;;
  s ← get;
  let '(ret, st') := encrypt_ret (tx s) input in
  modify (fun s => s <| tx; encryptCipher := st' |> <| tx; txCount ::= (fun c => c +w sz) |>);;
  lift_res ret.

Definition Decrypt (input : bytes) : M bytes :=
  let sz := blen input in
  guard_err (sz =? 0) WS_BAD_ARGUMENT;;
  s ← get;
  let st := decryptCipher (rx s) in
  let '(ret, st') :=
    match peerEncryptId (rx s) with
    | ID_NONE => (Ok input, st)
    | ID_AES128_CBC | ID_AES192_CBC | ID_AES256_CBC =>
        aes_blocks wc_AesCbcDecrypt WS_DECRYPT_E st input
    | ID_AES128_CTR | ID_AES192_CTR | ID_AES256_CTR =>
        aes_blocks wc_AesCtrEncrypt WS_DECRYPT_E st input
    | _ => (Err WS_INVALID_ALGO_ID, st)
    end in
  modify (fun s => s <| rx; decryptCipher := st' |> <| rx; rxCount ::= (fun c => c +w sz) |>);;
  lift_res ret.

Definition hmac_with (h : wc_HashType) (k : Keys) (sq : Z) (input : bytes) : res bytes :=
  wc_Hmac h (slice (macKey k) 0 (macKeySz k)) (c32toa sq ++ input).

(** The bytes written to [mac]. *)
Definition create_mac (t : Transmit) (input : bytes) : res bytes :=
  match macId t with
  | ID_NONE => Ok []
  | ID_HMAC_SHA1_96 =>
      match hmac_with WC_HASH_TYPE_SHA (keys t) (seq t) input with
      | Ok digest => Ok (slice digest 0 SHA1_96_SZ)
      | e => e
      end
  | ID_HMAC_SHA1 => hmac_with WC_HASH_TYPE_SHA (keys t) (seq t) input
  | ID_HMAC_SHA2_256 => hmac_with WC_HASH_TYPE_SHA256 (keys t) (seq t) input
  | ID_HMAC_SHA2_512 => hmac_with WC_HASH_TYPE_SHA512 (keys t) (seq t) input
  | _ => Err WS_FATAL_ERROR
  end.

Definition CreateMac (input : bytes) : M bytes :=
  s ← get; lift_res (create_mac (tx s) input).

(** [checkMac] is a zeroed array of [MAX_HMAC_SZ] bytes the digest is written
    to. *)
Definition VerifyMac (input mac : bytes) : M unit :=
  s ← get;
  let check h :=
    digest ← lift_res (hmac_with h (peerKeys (rx s)) (peerSeq (rx s)) input);
    checkMac ← deref (wr (zeros MAX_HMAC_SZ) 0 digest);
    c ← deref (ConstantCompare checkMac mac (peerMacSz (rx s)));
    guard_err (truthy c) WS_VERIFY_MAC_E in
  match peerMacId (rx s) with
  | ID_NONE => mret tt
  | ID_HMAC_SHA1 | ID_HMAC_SHA1_96 => check WC_HASH_TYPE_SHA
  | ID_HMAC_SHA2_256 => check WC_HASH_TYPE_SHA256
  | ID_HMAC_SHA2_512 => check WC_HASH_TYPE_SHA512
  | _ => fail WS_INVALID_ALGO_ID
  end.

(** Ciphertext and tag. *)
Definition aead_ret (t : Transmit) (input auth : bytes) : res (bytes * bytes) * bytes :=
  match encryptId t with
  | ID_AES128_GCM | ID_AES192_GCM | ID_AES256_GCM =>
      wc_AesGcmEncrypt (encryptCipher t) (slice (iv (keys t)) 0 (ivSz (keys t))) auth input (macSz t)
  | _ => (Err WS_INVALID_ALGO_ID, encryptCipher t)
  end.

Definition EncryptAead (input auth : bytes) : M (bytes * bytes) :=
  let sz := blen input in
  guard_err ((sz =? 0) || (blen auth =? 0)) WS_BAD_ARGUMENT;;
  s ← get;
  let '(ret, st') := aead_ret (tx s) input auth in
  modify (fun s => s <| tx; encryptCipher := st' |>
    <| tx; keys ::= (fun k => k <| iv ::= AeadIncrementExpIv |>) |>
    <| tx; txCount ::= (fun c => c +w sz) |>);;
  lift_res ret.

Definition DecryptAead (input tag auth : bytes) : M bytes :=
  let sz := blen input in
  guard_err ((sz =? 0) || (blen auth =? 0)) WS_BAD_ARGUMENT;;
  s ← get;
  let r := rx s in
  let '(ret, st') :=
    match peerEncryptId r with
    | ID_AES128_GCM | ID_AES192_GCM | ID_AES256_GCM =>
        wc_AesGcmDecrypt (decryptCipher r) (slice (iv (peerKeys r)) 0 (ivSz (peerKeys r))) auth input
          (slice tag 0 (peerMacSz r))
    | _ => (Err WS_INVALID_ALGO_ID, decryptCipher r)
    end in
  modify (fun s => s <| rx; decryptCipher := st' |>
    <| rx; peerKeys ::= (fun k => k <| iv ::= AeadIncrementExpIv |>) |>
    <| rx; rxCount ::= (fun c => c +w sz) |>);;
  lift_res ret.

Definition WipeInputPacket (sz : Z) : M unit :=
  s ← get;
  let b := inputBuffer (rx s) in
  let availSz := b_length b -w b_idx b in
  let sz := if availSz <? sz then availSz else sz in
  on_in (buffer_write (b_idx b) (zeros sz)).

(** ** Building a packet *)

Definition PreparePacket (payloadSz : Z) : M unit :=
  s ← get;
  let t := tx s in
  guard_err (b_length (outputBuffer t) <? b_idx (outputBuffer t)) WS_OVERFLOW_E;;
  let paddingSz := wrap8 (blockSz t * 2) in
  let packetSz := PAD_LENGTH_SZ +w payloadSz +w paddingSz in
  let outputSz := LENGTH_SZ +w packetSz +w macSz t in
  mem ← malloc;
  on_out (GrowBuffer mem outputSz);;
  modify (fun s => s <| tx; packetStartIdx := b_length (outputBuffer (tx s)) |>);;
  modify (fun s => s <| tx; outputBuffer ::= (fun b => b <| b_length ::= (fun l => l +w (LENGTH_SZ + PAD_LENGTH_SZ)) |>) |>).

(** Padding to the cipher's block, at least 4 bytes. *)
Definition bundle_padding (t : Transmit) (payloadSz : Z) : Z :=
  let covered := ((if aeadMode t then 0 else LENGTH_SZ) + PAD_LENGTH_SZ) +w payloadSz in
  let paddingSz := wrap8 (blockSz t - covered mod blockSz t) in
  if paddingSz <? MIN_PAD_LENGTH then wrap8 (paddingSz + blockSz t) else paddingSz.

(** [WMEMSET] of zeros without a cipher, random bytes with one. *)
Definition add_padding (idx paddingSz : Z) : M unit :=
  s ← get;
  if id_eqb (encryptId (tx s)) ID_NONE then out_write idx (zeros paddingSz)
  else
    let '(pad, st) := wc_RNG_GenerateBlock (rng (tx s)) paddingSz in
    modify (fun s => s <| tx; rng := st |>);;
    match pad with
    | Some d => out_write idx d
    | None => fail WS_CRYPTO_FAILED
    end.

(** Encrypt-and-MAC: the MAC of the plain packet, then the cipher over it. *)
Definition seal_mac (idx start sz : Z) : M Z :=
  s ← get;
  let t := tx s in
  let macSz' := MacSzForId (macId t) in
  guard_err (bufferSz (outputBuffer t) <? idx +w macSz') WS_BUFFER_E;;
  out_write idx (zeros macSz');;
  plain ← out_read start sz;
  mac ← CreateMac plain;
  out_write idx mac;;
  cipher ← Encrypt plain;
  out_write start cipher;;
  mret (idx +w macSz t).

(** AEAD: the length in clear as additional data, the rest encrypted, the tag
    after it. *)
Definition seal_aead (idx start sz : Z) : M Z :=
  s ← get;
  plain ← out_read (start +w LENGTH_SZ) sz;
  auth ← out_read start LENGTH_SZ;
  '(cipher, tag) ← EncryptAead plain auth;
  out_write (start +w LENGTH_SZ) cipher;;
  out_write idx tag;;
  mret (idx +w macSz (tx s)).

(** Padding, authentication and encryption: the new length of the buffer. *)
Definition bundle_body (idx start paddingSz : Z) : M Z :=
  s ← get;
  let t := tx s in
  guard_err (bufferSz (outputBuffer t) <? idx +w paddingSz) WS_BUFFER_E;;
  add_padding idx paddingSz;;
  let sz := (b_length (outputBuffer t) -w start) +w paddingSz in
  if negb (aeadMode t) then seal_mac (idx +w paddingSz) start sz
  else seal_aead (idx +w paddingSz) start (sz -w LENGTH_SZ).

Definition BundlePacket : M unit :=
  s ← get;
  let t := tx s in
  let idx := b_length (outputBuffer t) in
  let start := packetStartIdx t in
  let payloadSz := idx -w start -w LENGTH_SZ -w PAD_LENGTH_SZ in
  if blockSz t =? 0 then ub
  else
    let paddingSz := bundle_padding t payloadSz in
    let packetSz := PAD_LENGTH_SZ +w payloadSz +w paddingSz in
    out_write start (c32toa packetSz);;
    out_write (start +w LENGTH_SZ) [paddingSz];;
    r ← attempt (bundle_body idx start paddingSz);
    match r with
    | inl idx =>
      modify (fun s => s <| tx; seq ::= (fun q => q +w 1) |> <| tx; txMsgCount ::= (fun c => c +w 1) |>
        <| tx; outputBuffer ::= (fun b => b <| b_length := idx |>) |>)
    | inr e =>
      s ← get;
      out_write start (zeros (bufferSz (outputBuffer (tx s)) -w start));;
      modify (fun s => s <| tx; outputBuffer ::= (fun b => b <| b_length := start |>) |>);;
      fail e
    end.

Definition PurgePacket : M unit :=
  modify (fun s => s <| tx; packetStartIdx := 0 |>
    <| tx; outputBuffer ::= (fun b => b <| b_idx := 0 |>) |>);;
  on_out (ShrinkBuffer true).

(** ** Flushing *)

Definition wolfSSH_OutputPending (s : WOLFSSH) : bool :=
  b_idx (outputBuffer (tx s)) <? b_length (outputBuffer (tx s)).

(** The errors of the send callback. *)
Definition send_error (sent : Z) : M unit :=
  (if sent =? WS_CBIO_ERR_CONN_RST then modify (fun s => s <| connReset := true |>)
   else if sent =? WS_CBIO_ERR_CONN_CLOSE then modify (fun s => s <| isClosed := true |>)
   else if sent =? WS_CBIO_ERR_GENERAL then on_out (ShrinkBuffer true)
   else mret tt);;
  modify (fun s => s <| error := WS_SOCKET_ERROR_E |>);;
  fail WS_SOCKET_ERROR_E.

Fixpoint SendPacketFlush_loop (fuel : nat) (cb : bytes -> M Z) : M unit :=
  match fuel with
  | O => ub
  | S fuel =>
    s ← get;
    let b := outputBuffer (tx s) in
    if b_idx b <? b_length b then
      if (bufferSz b <? b_length b) || (b_length b <? b_idx b) then
        modify (fun s => s <| error := WS_BUFFER_E |>);; fail WS_BUFFER_E
      else
        data ← out_read (b_idx b) (b_length b -w b_idx b);
        sent ← cb data;
        if sent <? 0 then
          if sent =? WS_CBIO_ERR_WANT_WRITE then
            modify (fun s => s <| error := WS_WANT_WRITE |>);; fail WS_WANT_WRITE
          else if sent =? WS_CBIO_ERR_ISR then SendPacketFlush_loop fuel cb
          else send_error sent
        else
          s ← get;
          if b_length (outputBuffer (tx s)) <? sent then
            modify (fun s => s <| error := WS_SEND_OOB_READ_E |>);; fail WS_SEND_OOB_READ_E
          else
            modify (fun s => s <| tx; outputBuffer ::= (fun b => b <| b_idx ::= (fun i => i +w sent) |>) |>);;
            SendPacketFlush_loop fuel cb
    else mret tt
  end.

Definition SendPacketFlush : M unit :=
  match ioSendCb with
  | None => modify (fun s => s <| error := WS_SOCKET_ERROR_E |>);; fail WS_SOCKET_ERROR_E
  | Some cb =>
    SendPacketFlush_loop io_fuel cb;;
    modify (fun s => s <| disconnectTxd := false |> <| tx; txFlushCount ::= (fun c => c +w 1) |>);;
    on_out (ShrinkBuffer false)
  end.

Definition wolfSSH_SendPacket : M unit :=
  SendPacketFlush;;
  r ← HighwaterCheck WOLFSSH_HWSIDE_TRANSMIT;
  ret_code r.

Definition SendPacketDelivered (flushes ret : Z) : M bool :=
  s ← get;
  mret (negb (txFlushCount (tx s) =? flushes) || (ret =? WS_WANT_WRITE)).

(** A whole sender: a payload of at most [payloadSz] bytes, framed and flushed. *)
Definition send_payload (payloadSz : Z) (payload : bytes) : M unit :=
  PreparePacket payloadSz;;
  put payload;;
  BundlePacket.

Definition send_packet (payloadSz : Z) (payload : bytes) : M unit :=
  send_payload payloadSz payload;;
  wolfSSH_SendPacket.

(** ** The packet being built *)

(** Only the transmitting side of the session has changed, and the supply of
    memory. *)
Definition tx_only (s s' : WOLFSSH) : Prop :=
  s' = s <| tx := tx s' |> <| mallocs := mallocs s' |>.

Lemma tx_only_refl s : tx_only s s.
Proof. by destruct s. Qed.

Lemma tx_only_trans s1 s2 s3 : tx_only s1 s2 -> tx_only s2 s3 -> tx_only s1 s3.
Proof. unfold tx_only. intros -> ->. done. Qed.

Lemma tx_only_tx s t : tx_only s (s <| tx := t |>).
Proof. by destruct s. Qed.

(** What BundlePacket relies on in the transmitting state. *)
Record tx_ok (t : Transmit) : Prop := {
  tx_buffer : buffer_ok (outputBuffer t);
  tx_suite : suite_ok (encryptId t) (aeadMode t) (macId t) (blockSz t) (macSz t) (keys t)
}.

(** The output buffer while a packet is built: [u] is what waits to be sent,
    [w] the payload written so far, [rest] the room left. *)
Record building (t : Transmit) (u hdr w rest : bytes) : Prop := {
  bd_ok : buffer_ok (outputBuffer t);
  bd_idx : b_idx (outputBuffer t) = 0;
  bd_start : packetStartIdx t = blen u;
  bd_hdr : blen hdr = LENGTH_SZ + PAD_LENGTH_SZ;
  bd_len : b_length (outputBuffer t) = blen u + blen hdr + blen w;
  bd_buf : buffer (outputBuffer t) = u ++ hdr ++ w ++ rest
}.

Definition set_out (f : WOLFSSH_BUFFER -> WOLFSSH_BUFFER) (t : Transmit) : Transmit :=
  t <| outputBuffer ::= f |>.

(** Records rebuilt from their own fields. *)
Ltac transmit_eta t := by destruct t as [? ? ? ? ? ? ? ? ? ? ? [] ? ?].
Ltac session_eta s := by destruct s as [? ? ? ? ? ? ? ? ? ? ? ? ? ? ? ? ? ? ? ? ? ? [] ? ? ? ? ? ? ? ?].
Ltac session_eta' s := by destruct s as [? ? ? ? ? ? ? ? ? ? ? ? ? ? ? ? ? ? ? ? ? ? [? ? ? ? ? ? ? ? ? ? ? [] ? ?] ? ? ? ? ? ? ? ?].

Lemma set_buffer_ok d b :
  buffer_ok b -> blen d = blen (buffer b) -> buffer_ok (set_buffer d b).
Proof.
  intros [] Hd. destruct (set_buffer_fields d b) as (F1&F2&F3&F4).
  split; rewrite ?buffer_set_buffer, ?F1, ?F2, ?F3; try lia.
  revert Hd. unfold set_buffer, buffer in *. destruct (dynamicFlag b); cbn; congruence.
Qed.

(** A write at a known place of the output buffer. *)
Lemma out_write_run a x c d s :
  buffer (outputBuffer (tx s)) = a ++ x ++ c -> blen d = blen x ->
  out_write (blen a) d s
  = (Ok tt, s <| tx; outputBuffer ::= set_buffer (a ++ d ++ c) |>).
Proof.
  intros Hb Hd. unfold out_write, on_out, buffer_write, mbind, ST_bind, get.
  rewrite Hb, wr_app by (by apply length_blen). cbn. done.
Qed.

Lemma out_read_run a x c s :
  buffer (outputBuffer (tx s)) = a ++ x ++ c ->
  out_read (blen a) (blen x) s = (Ok x, s).
Proof.
  intros Hb. unfold out_read, on_out.
  rewrite buffer_read_ok by (rewrite ?Hb, ?blen_app; pose proof (blen_nonneg a); pose proof (blen_nonneg x);
    pose proof (blen_nonneg c); lia).
  rewrite Hb, slice_app_here. f_equal. session_eta s.
Qed.

Lemma room_split (rest d : bytes) :
  blen d <= blen rest ->
  exists x, rest = x ++ drop (length d) rest /\ blen x = blen d.
Proof.
  intros Hd. exists (take (length d) rest). split; [by rewrite take_drop|].
  unfold blen in *. rewrite length_take. lia.
Qed.

Lemma building_size t u hdr w rest :
  building t u hdr w rest ->
  bufferSz (outputBuffer t) = blen u + blen hdr + blen w + blen rest /\
  bufferSz (outputBuffer t) < 2 ^ 32.
Proof.
  intros [[] ? ? ? ? Hb]. rewrite Hb in *. rewrite !blen_app in *. lia.
Qed.

Lemma put_run u hdr w rest d s :
  building (tx s) u hdr w rest -> blen d <= blen rest ->
  exists b, put d s = (Ok tt, s <| tx; outputBuffer := b |>) /\
    building ((tx s) <| outputBuffer := b |>) u hdr (w ++ d) (drop (length d) rest).
Proof.
  intros Hbd Hd. pose proof (building_size _ _ _ _ _ Hbd) as [Hsz Hlt]. destruct Hbd.
  destruct (room_split rest d Hd) as (x&Hx&Hxl).
  pose proof (blen_nonneg u). pose proof (blen_nonneg w). pose proof (blen_nonneg rest). pose proof (blen_nonneg hdr).
  assert (buffer (outputBuffer (tx s)) = (u ++ hdr ++ w) ++ x ++ drop (length d) rest) as Hb
    by (rewrite bd_buf0, Hx at 1; by rewrite <- !app_assoc).
  assert (blen (u ++ hdr ++ w) = b_length (outputBuffer (tx s))) as Ha by (rewrite !blen_app; lia).
  eexists. split.
  { unfold put. run. rewrite <- Ha at 1. erewrite ST_bind_ok by (eapply out_write_run; [exact Hb|by rewrite Hxl]). reflexivity. }
  cbn -[wrap32].
  set (nb := (u ++ hdr ++ w) ++ d ++ drop (length d) rest).
  destruct (set_buffer_fields nb (outputBuffer (tx s))) as (F1&F2&F3&F4).
  assert (blen nb = blen (buffer (outputBuffer (tx s)))) as Hnb
    by (rewrite Hb; unfold nb; rewrite !blen_app; lia).
  pose proof (set_buffer_ok nb _ bd_ok0 Hnb) as Hok.
  assert (b_length (set_buffer nb (outputBuffer (tx s))) +w blen d = blen u + blen hdr + blen w + blen d) as Hlen.
  { rewrite F1, bd_len0. apply wrap32_small. pose proof (blen_nonneg d). lia. }
  assert (buffer ((set_buffer nb (outputBuffer (tx s))) <| b_length ::= (fun l => l +w blen d) |>) = nb) as Hbuf
    by exact (buffer_set_buffer nb (outputBuffer (tx s))).
  split; cbn -[wrap32]; rewrite ?Hbuf; try done.
  - destruct Hok. pose proof (blen_nonneg d). split; cbn -[wrap32]; rewrite ?Hlen; try done; rewrite ?Hbuf; lia.
  - rewrite F2. done.
  - rewrite Hlen, blen_app. lia.
  - unfold nb. by rewrite <- !app_assoc.
Qed.

(** ** Opening a packet *)

Lemma out_only_pad t : suite_ok (encryptId t) (aeadMode t) (macId t) (blockSz t) (macSz t) (keys t) ->
  8 <= blockSz t <= 16 /\ 0 <= macSz t <= 64 /\ wrap8 (blockSz t * 2) = blockSz t * 2.
Proof.
  intros [[_ Hb] Hm]. unfold AES_BLOCK_SIZE in *.
  assert (8 <= blockSz t <= 16) by clia. split; [done|]. split; [clia|]. apply wrap8_small. lia.
Qed.

Lemma PreparePacket_run n s :
  tx_ok (tx s) -> 0 <= n -> blen (unread (outputBuffer (tx s))) + n + 256 <= 2 ^ 32 ->
  let u := unread (outputBuffer (tx s)) in
  (exists ms, PreparePacket n s = (Err WS_MEMORY_E, s <| mallocs := ms |>)) \/
  (exists b ms hdr rest,
     let s' := s <| tx; outputBuffer := b |> <| tx; packetStartIdx := blen u |> <| mallocs := ms |> in
     PreparePacket n s = (Ok tt, s') /\ building (tx s') u hdr [] rest /\
     n + blockSz (tx s) * 2 + macSz (tx s) <= blen rest).
Proof.
  intros [Hok Hsu] Hn Hfit u. destruct (out_only_pad _ Hsu) as (Hb&Hm&Hp).
  pose proof (unread_length _ Hok) as Hl. pose proof Hok as [].
  assert (LENGTH_SZ +w (PAD_LENGTH_SZ +w n +w wrap8 (blockSz (tx s) * 2)) +w macSz (tx s)
          = 5 + n + blockSz (tx s) * 2 + macSz (tx s)) as Ho.
  { rewrite Hp. unfold LENGTH_SZ, UINT32_SZ, PAD_LENGTH_SZ.
    rewrite (wrap32_small (1 + n)) by lia. rewrite (wrap32_small (1 + n + _)) by lia.
    rewrite (wrap32_small (4 + _)) by lia. rewrite wrap32_small by lia. lia. }
  set (o := outputBuffer (tx s)) in *.
  assert (b_length o <? b_idx o = false) as Hg by (apply Z.ltb_ge; lia).
  pose proof (GrowBuffer_ok (default true (head (mallocs s)))
    (5 + n + blockSz (tx s) * 2 + macSz (tx s)) o Hok ltac:(lia) ltac:(lia)) as HG.
  destruct (GrowBuffer (default true (head (mallocs s))) (5 + n + blockSz (tx s) * 2 + macSz (tx s)) o)
    as [[[]|e|] b] eqn:EG; [right|left|done].
  2: { destruct HG as (_&->&->). exists (tail (mallocs s)). unfold PreparePacket. run.
       fold o. rewrite Hg. rewrite (ST_bind_ok _ _ _ _ _ (malloc_run s)).
       rewrite Ho. unfold on_out. unfold mbind, ST_bind. cbn -[GrowBuffer]. fold o. rewrite EG.
       f_equal. session_eta s. }
  destruct HG as (Hok'&Hun&Hroom&_&Hidx&_). unfold room in Hroom. pose proof Hok' as [Bi Bl Bs Bw Bst].
  pose proof (unread_length _ Hok') as Hl'. rewrite Hun, Hl in Hl'.
  assert (blen u = b_length b) as Hu by (unfold u; rewrite Hl; lia).
  assert (b_length b +w (LENGTH_SZ + PAD_LENGTH_SZ) = b_length b + 5) as Hlen.
  { unfold LENGTH_SZ, UINT32_SZ, PAD_LENGTH_SZ. apply wrap32_small. lia. }
  set (tl := drop (Z.to_nat (blen u)) (buffer b)).
  assert (buffer b = u ++ tl) as Hsplit.
  { unfold u. rewrite <- Hun. unfold unread at 1. unfold tl. rewrite Hu, Hidx, Z.sub_0_r.
    apply slice_split. lia. }
  assert (blen tl = bufferSz b - b_length b) as Htl by (rewrite Hsplit, blen_app in Bs; lia).
  exists (b <| b_length ::= (fun l => l +w (LENGTH_SZ + PAD_LENGTH_SZ)) |>), (tail (mallocs s)),
    (take 5 tl), (drop 5 tl). cbv zeta.
  assert (blen (take 5 tl) = 5) as H5 by (unfold blen in *; rewrite length_take; lia).
  split; [|split].
  - unfold PreparePacket. run.
    fold o. rewrite Hg. rewrite (ST_bind_ok _ _ _ _ _ (malloc_run s)).
    rewrite Ho. unfold on_out. unfold mbind, ST_bind. cbn -[GrowBuffer wrap32]. fold o. rewrite EG.
    cbn -[wrap32]. rewrite Hu. done.
  - split; cbn -[wrap32]; rewrite ?Hlen; try done.
    + split; cbn -[wrap32]; rewrite ?Hlen; try done; lia.
    + rewrite H5, Hu. change (blen (@nil Z)) with 0. lia.
    + transitivity (buffer b); [done|]. by rewrite Hsplit at 1; rewrite <- (take_drop 5 tl) at 1.
  - unfold blen in *. rewrite length_drop. lia.
Qed.

(** ** Sealing a packet *)

(** The session [s] with transmitting state [t] and contents [x] of the output
    buffer. *)
Definition mid (s : WOLFSSH) (t : Transmit) (x : bytes) : WOLFSSH :=
  s <| tx := t <| outputBuffer := set_buffer x (outputBuffer (tx s)) |> |>.

Lemma set_buffer_twice x y b : set_buffer x (set_buffer y b) = set_buffer x b.
Proof. unfold set_buffer. destruct (dynamicFlag b) eqn:E; cbn; by rewrite E. Qed.

Lemma set_buffer_self b : set_buffer (buffer b) b = b.
Proof. unfold set_buffer, buffer. destruct b as [? ? ? ? ? []]; done. Qed.

Lemma mid_self s : mid s (tx s) (buffer (outputBuffer (tx s))) = s.
Proof.
  unfold mid. rewrite set_buffer_self.
  session_eta s.
Qed.

Lemma mid_write s t a x c d :
  blen d = blen x ->
  out_write (blen a) d (mid s t (a ++ x ++ c)) = (Ok tt, mid s t (a ++ d ++ c)).
Proof.
  intros Hd. rewrite (out_write_run a x c) by (done || apply buffer_set_buffer).
  unfold mid. by rewrite <- (set_buffer_twice (a ++ d ++ c) (a ++ x ++ c)).
Qed.

Lemma mid_read s t a x c :
  out_read (blen a) (blen x) (mid s t (a ++ x ++ c)) = (Ok x, mid s t (a ++ x ++ c)).
Proof. apply (out_read_run a x c), buffer_set_buffer. Qed.

(** Sealing only moves the state of the ciphers. *)
Definition crypt_step (t t' : Transmit) : Prop :=
  t' = t <| rng := rng t' |> <| encryptCipher := encryptCipher t' |>
         <| keys; iv := iv (keys t') |> <| txCount := txCount t' |>.

Lemma crypt_step_refl t : crypt_step t t.
Proof. destruct t as [? ? ? ? ? ? ? ? ? ? ? [] ? ?]. done. Qed.

Lemma crypt_step_trans t1 t2 t3 : crypt_step t1 t2 -> crypt_step t2 t3 -> crypt_step t1 t3.
Proof. unfold crypt_step. intros -> ->. done. Qed.

(** [wire] is the packet [plain] (length, padding length, payload, padding) as
    RFC 4253 section 6 and RFC 5647 put it on the wire under the keys of [t]. *)
Definition sealed (t : Transmit) (plain wire : bytes) : Prop :=
  if aeadMode t then
    exists len body c tag st, plain = len ++ body /\ blen len = LENGTH_SZ /\
      aead_ret t body len = (Ok (c, tag), st) /\ wire = len ++ c ++ tag
  else
    exists mac c st, create_mac t plain = Ok mac /\ encrypt_ret t plain = (Ok c, st) /\
      wire = c ++ mac.

Context `{!CryptoSizes}.

Lemma create_mac_size t input :
  macSz t = MacSzForId (macId t) -> 0 < macSz t \/ macId t = ID_NONE ->
  match create_mac t input with
  | Ok mac => blen mac = macSz t
  | Err _ => True
  | UB => False
  end.
Proof.
  intros -> Hk. unfold create_mac, hmac_with.
  destruct (macId t); try done; try (destruct Hk as [Hk|Hk]; [vm_compute in Hk; done|done]).
  - destruct (wc_Hmac _ _ _) eqn:E; [|done|by apply hmac_def in E]. by apply hmac_size in E.
  - destruct (wc_Hmac _ _ _) eqn:E; [|done|by apply hmac_def in E]. apply hmac_size in E.
    rewrite blen_slice; [done|lia|clia|]. rewrite E. vm_compute. done.
  - destruct (wc_Hmac _ _ _) eqn:E; [|done|by apply hmac_def in E]. by apply hmac_size in E.
  - destruct (wc_Hmac _ _ _) eqn:E; [|done|by apply hmac_def in E]. by apply hmac_size in E.
Qed.

Lemma aes_blocks_size f e st input :
  (forall st i o st', f st i = (Some o, st') -> blen o = blen i) ->
  match aes_blocks f e st input with
  | (Ok o, _) => blen o = blen input
  | (Err _, _) => True
  | (UB, _) => False
  end.
Proof.
  intros Hf. unfold aes_blocks. destruct (truthy _); [done|].
  destruct (f st input) as [[o|] st'] eqn:E; [|done]. by eapply Hf.
Qed.

Lemma encrypt_ret_size t input :
  match encrypt_ret t input with
  | (Ok c, _) => blen c = blen input
  | (Err _, _) => True
  | (UB, _) => False
  end.
Proof.
  unfold encrypt_ret.
  destruct (encryptId t); try done; apply aes_blocks_size; eauto using cbc_size, ctr_size.
Qed.

Lemma aead_ret_size t input auth :
  match aead_ret t input auth with
  | (Ok (c, tag), _) => blen c = blen input /\ blen tag = macSz t
  | (Err _, _) => True
  | (UB, _) => False
  end.
Proof.
  unfold aead_ret. destruct (encryptId t); try done;
    (destruct (wc_AesGcmEncrypt _ _ _ _ _) as [[[c tag]|e|] st] eqn:E;
       [by eapply gcm_size|done|eapply gcm_def; by rewrite E]).
Qed.

(** The padding makes what the cipher covers a whole number of blocks. *)
Lemma bundle_padding_spec t n :
  8 <= blockSz t <= 16 -> 0 <= n -> n + 5 < 2 ^ 32 ->
  let p := bundle_padding t n in
  MIN_PAD_LENGTH <= p < MIN_PAD_LENGTH + blockSz t /\
  ((if aeadMode t then 0 else LENGTH_SZ) + PAD_LENGTH_SZ + n + p) mod blockSz t = 0.
Proof.
  intros Hb Hn Hlt. unfold bundle_padding.
  set (c := (if aeadMode t then 0 else LENGTH_SZ) + PAD_LENGTH_SZ).
  assert (0 <= c <= 5) as Hc by (unfold c; destruct (aeadMode t); clia).
  rewrite (wrap32_small (c + n)) by lia.
  pose proof (Z.mod_pos_bound (c + n) (blockSz t) ltac:(lia)) as Hm.
  rewrite (wrap8_small (blockSz t - (c + n) mod blockSz t)) by lia.
  pose proof (Z.div_mod (c + n) (blockSz t) ltac:(lia)) as Hd.
  set (q := (c + n) / blockSz t) in *. set (r := (c + n) mod blockSz t) in *.
  destruct (Z.ltb_spec (blockSz t - r) MIN_PAD_LENGTH).
  - rewrite wrap8_small by clia. cbv zeta. split; [clia|].
    rewrite Hd. replace (_ + _ + _) with ((q + 2) * blockSz t) by lia. apply Z.mod_mul. lia.
  - cbv zeta. split; [clia|].
    rewrite Hd. replace (_ + _ + _) with ((q + 1) * blockSz t) by lia. apply Z.mod_mul. lia.
Qed.

Lemma mid_fields s t x :
  b_length (outputBuffer (tx (mid s t x))) = b_length (outputBuffer (tx s)) /\
  bufferSz (outputBuffer (tx (mid s t x))) = bufferSz (outputBuffer (tx s)) /\
  b_idx (outputBuffer (tx (mid s t x))) = b_idx (outputBuffer (tx s)).
Proof. cbn. destruct (set_buffer_fields x (outputBuffer (tx s))) as (->&->&->&_). done. Qed.

(** The same, at a place given by an equation. *)
Lemma mid_write_at s t i full a x c d :
  full = a ++ x ++ c -> i = blen a -> blen d = blen x ->
  out_write i d (mid s t full) = (Ok tt, mid s t (a ++ d ++ c)).
Proof. intros -> ->. apply mid_write. Qed.

Lemma mid_read_at s t i n full a x c :
  full = a ++ x ++ c -> i = blen a -> n = blen x ->
  out_read i n (mid s t full) = (Ok x, mid s t full).
Proof. intros -> -> ->. apply mid_read. Qed.

Lemma rng_self (t : Transmit) : t = t <| rng := rng t |>.
Proof. by destruct t. Qed.

Lemma add_padding_run s t i n full a x c :
  full = a ++ x ++ c -> i = blen a -> n = blen x ->
  match add_padding i n (mid s t full) with
  | (Ok _, s') => exists d r, s' = mid s (t <| rng := r |>) (a ++ d ++ c) /\ blen d = n /\
                    (encryptId t = ID_NONE -> d = zeros n)
  | (Err e, s') => e = WS_CRYPTO_FAILED /\ exists r, s' = mid s (t <| rng := r |>) full
  | (UB, _) => False
  end.
Proof.
  intros -> -> ->. unfold add_padding. run. change (encryptId (tx (mid s t _))) with (encryptId t).
  change (rng (tx (mid s t _))) with (rng t).
  destruct (id_eqb (encryptId t) ID_NONE) eqn:E.
  { rewrite mid_write by (apply blen_zeros, blen_nonneg).
    exists (zeros (blen x)), (rng t). rewrite <- rng_self. split; [done|].
    split; [apply blen_zeros, blen_nonneg|done]. }
  destruct (wc_RNG_GenerateBlock (rng t) (blen x)) as [[d|] st] eqn:Er; run.
  - change ((mid s t (a ++ x ++ c)) <| tx; rng := st |>) with (mid s (t <| rng := st |>) (a ++ x ++ c)).
    assert (blen d = blen x) as Hd by (eapply rng_size; [exact Er|apply blen_nonneg]).
    rewrite mid_write by done. exists d, st. repeat split; try done.
    intros Hi. by rewrite Hi in E.
  - split; [done|]. by exists st.
Qed.

Lemma Encrypt_run s t x p :
  blen p <> 0 ->
  match Encrypt p (mid s t x) with
  | (Ok c, s') => exists t' st, encrypt_ret t p = (Ok c, st) /\ s' = mid s t' x /\
                    crypt_step t t' /\ blen c = blen p
  | (Err e, s') => exists t', s' = mid s t' x /\ crypt_step t t'
  | (UB, _) => False
  end.
Proof.
  intros Hp. unfold Encrypt. run. rewrite (proj2 (Z.eqb_neq _ _) Hp). run.
  change (encrypt_ret (tx (mid s t x)) p) with (encrypt_ret t p).
  pose proof (encrypt_ret_size t p) as Hs.
  destruct (encrypt_ret t p) as [[c|e|] st]; [..|done]; run.
  - eexists (t <| encryptCipher := st |> <| txCount ::= (fun c => c +w blen p) |>), st.
    repeat split; [|done]. transmit_eta t.
  - eexists (t <| encryptCipher := st |> <| txCount ::= (fun c => c +w blen p) |>).
    split; [done|]. transmit_eta t.
Qed.

Lemma EncryptAead_run s t x p auth :
  blen p <> 0 -> blen auth <> 0 ->
  match EncryptAead p auth (mid s t x) with
  | (Ok (c, tag), s') => exists t' st, aead_ret t p auth = (Ok (c, tag), st) /\ s' = mid s t' x /\
                    crypt_step t t' /\ blen c = blen p /\ blen tag = macSz t
  | (Err e, s') => exists t', s' = mid s t' x /\ crypt_step t t'
  | (UB, _) => False
  end.
Proof.
  intros Hp Ha. unfold EncryptAead. run.
  rewrite (proj2 (Z.eqb_neq _ _) Hp), (proj2 (Z.eqb_neq _ _) Ha). cbn [orb]. run.
  change (aead_ret (tx (mid s t x)) p auth) with (aead_ret t p auth).
  pose proof (aead_ret_size t p auth) as Hs.
  destruct (aead_ret t p auth) as [[[c tag]|e|] st]; [..|done]; run.
  - eexists (t <| encryptCipher := st |> <| keys ::= (fun k => k <| iv ::= AeadIncrementExpIv |>) |>
      <| txCount ::= (fun c => c +w blen p) |>), st.
    destruct Hs. repeat split; [|done..]. transmit_eta t.
  - eexists (t <| encryptCipher := st |> <| keys ::= (fun k => k <| iv ::= AeadIncrementExpIv |>) |>
      <| txCount ::= (fun c => c +w blen p) |>).
    split; [done|]. transmit_eta t.
Qed.

(** What a sealing step leaves: the packet on the wire after [u], or, when it
    fails, [u] untouched. *)
Definition sealed_post (s : WOLFSSH) (t : Transmit) (u p rest : bytes) (n : Z)
    (r : res Z * WOLFSSH) : Prop :=
  match r with
  | (Ok i, s') => exists t' wire, s' = mid s t' (u ++ wire ++ rest) /\ crypt_step t t' /\
                    sealed t p wire /\ blen wire = blen p + macSz t /\ i = blen (u ++ wire)
  | (Err e, s') => exists t' x, s' = mid s t' (u ++ x) /\ crypt_step t t' /\ blen x = n
  | (UB, _) => False
  end.

Lemma seal_mac_run s t u p m rest :
  aeadMode t = false -> blen p <> 0 ->
  macSz t = MacSzForId (macId t) -> 0 < macSz t \/ macId t = ID_NONE ->
  blen m = macSz t -> bufferSz (outputBuffer (tx s)) = blen (u ++ p ++ m ++ rest) ->
  bufferSz (outputBuffer (tx s)) < 2 ^ 32 ->
  sealed_post s t u p rest (blen (p ++ m ++ rest))
    (seal_mac (blen (u ++ p)) (blen u) (blen p) (mid s t (u ++ p ++ m ++ rest))).
Proof.
  intros Ha Hp Hm Hk Hml Hsz Hlt. unfold seal_mac. run.
  change (macId (tx (mid s t _))) with (macId t). change (macSz (tx (mid s t _))) with (macSz t).
  rewrite <- Hm. destruct (mid_fields s t (u ++ p ++ m ++ rest)) as (_&->&_).
  pose proof (blen_nonneg u). pose proof (blen_nonneg p). pose proof (blen_nonneg rest). pose proof (blen_nonneg m).
  assert (blen (u ++ p) +w macSz t = blen (u ++ p ++ m)) as Hw.
  { rewrite !blen_app in *. rewrite <- Hml. rewrite wrap32_small; lia. }
  rewrite Hw. replace (_ <? _) with false.
  2: { symmetry. apply Z.ltb_ge. rewrite Hsz, !blen_app. lia. }
  erewrite ST_bind_ok by (eapply (mid_write_at _ _ _ _ (u ++ p) m rest);
    [by rewrite <- !app_assoc|done|rewrite blen_zeros; lia]).
  erewrite ST_bind_ok by (eapply (mid_read_at _ _ _ _ _ u p (zeros (macSz t) ++ rest));
    [by rewrite <- !app_assoc|done|done]).
  unfold CreateMac. run. change (create_mac (tx (mid s t _)) p) with (create_mac t p).
  pose proof (create_mac_size t p Hm Hk) as Hcm.
  destruct (create_mac t p) as [mac|e|] eqn:Em; [|cbn|done].
  - run.
    erewrite ST_bind_ok by (eapply (mid_write_at _ _ _ _ (u ++ p) (zeros (macSz t)) rest);
      [done|done|rewrite blen_zeros; lia]).
    pose proof (Encrypt_run s t ((u ++ p) ++ mac ++ rest) p Hp) as He.
    destruct (Encrypt p (mid s t ((u ++ p) ++ mac ++ rest))) as [[c|e|] s'] eqn:Ee;
      [erewrite ST_bind_ok by exact Ee|erewrite ST_bind_err by exact Ee|done].
    + destruct He as (t'&st&Hr&->&Ht&Hc).
      erewrite ST_bind_ok by (eapply (mid_write_at _ _ _ _ u p (mac ++ rest));
        [by rewrite <- !app_assoc|done|done]).
      run. exists t', (c ++ mac). rewrite <- app_assoc. split; [done|]. split; [done|]. split; [|split].
      * unfold sealed. rewrite Ha. eauto 10.
      * rewrite blen_app. lia.
      * rewrite !blen_app. lia.
    + destruct He as (t'&->&Ht). exists t', (p ++ mac ++ rest). rewrite <- app_assoc.
      split; [done|]. split; [done|]. rewrite !blen_app. lia.
  - exists t, (p ++ zeros (macSz t) ++ rest). rewrite <- app_assoc. split; [done|].
    split; [apply crypt_step_refl|]. rewrite !blen_app, blen_zeros; lia.
Qed.

Lemma seal_aead_run s t u len p m rest :
  aeadMode t = true -> blen len = LENGTH_SZ -> blen p <> 0 ->
  blen m = macSz t -> bufferSz (outputBuffer (tx s)) = blen (u ++ len ++ p ++ m ++ rest) ->
  bufferSz (outputBuffer (tx s)) < 2 ^ 32 ->
  sealed_post s t u (len ++ p) rest (blen (len ++ p ++ m ++ rest))
    (seal_aead (blen (u ++ len ++ p)) (blen u) (blen p) (mid s t (u ++ len ++ p ++ m ++ rest))).
Proof.
  intros Ha Hl Hp Hml Hsz Hlt. unfold seal_aead. run.
  change (macSz (tx (mid s t _))) with (macSz t).
  pose proof (blen_nonneg u). pose proof (blen_nonneg p). pose proof (blen_nonneg rest). pose proof (blen_nonneg m).
  rewrite !blen_app in Hsz.
  assert (blen u +w LENGTH_SZ = blen (u ++ len)) as Hw.
  { rewrite !blen_app. rewrite Hl. apply wrap32_small. clia. }
  rewrite Hw.
  erewrite ST_bind_ok by (eapply (mid_read_at _ _ _ _ _ (u ++ len) p (m ++ rest));
    [by rewrite <- !app_assoc|done|done]).
  erewrite ST_bind_ok by (eapply (mid_read_at _ _ _ _ _ u len (p ++ m ++ rest)); [done|done|done]).
  pose proof (EncryptAead_run s t (u ++ len ++ p ++ m ++ rest) p len Hp ltac:(rewrite Hl; done)) as He.
  destruct (EncryptAead p len _) as [[[c tag]|e|] s'] eqn:Ee;
    [erewrite ST_bind_ok by exact Ee|erewrite ST_bind_err by exact Ee|done].
  - destruct He as (t'&st&Hr&->&Ht&Hc&Htag).
    erewrite ST_bind_ok by (eapply (mid_write_at _ _ _ _ (u ++ len) p (m ++ rest));
      [by rewrite <- !app_assoc|done|done]).
    erewrite ST_bind_ok by (eapply (mid_write_at _ _ _ _ ((u ++ len) ++ c) m rest);
      [by rewrite <- !app_assoc|rewrite !blen_app; lia|lia]).
    run. exists t', (len ++ c ++ tag). rewrite <- !app_assoc. split; [done|]. split; [done|].
    split; [|split].
    + unfold sealed. rewrite Ha. exists len, p, c, tag, st. done.
    + rewrite !blen_app. lia.
    + pose proof (blen_nonneg len). rewrite !blen_app, wrap32_small; lia.
  - destruct He as (t'&->&Ht). exists t', (len ++ p ++ m ++ rest). done.
Qed.

(** What BundlePacket relies on when it seals [p0] after [u]: the room, and
    that the sizes are those of the suite. *)
Lemma bundle_body_run s t u p0 rest n :
  suite_ok (encryptId t) (aeadMode t) (macId t) (blockSz t) (macSz t) (keys t) ->
  4 < blen p0 -> 0 <= n -> n + macSz t <= blen rest ->
  b_length (outputBuffer (tx s)) = blen (u ++ p0) ->
  bufferSz (outputBuffer (tx s)) = blen (u ++ p0 ++ rest) ->
  bufferSz (outputBuffer (tx s)) < 2 ^ 32 ->
  match bundle_body (blen (u ++ p0)) (blen u) n (mid s t (u ++ p0 ++ rest)) with
  | (Ok i, s') => exists d t' wire rest', s' = mid s t' (u ++ wire ++ rest') /\ crypt_step t t' /\
                    sealed t (p0 ++ d) wire /\ blen d = n /\ (encryptId t = ID_NONE -> d = zeros n) /\
                    i = blen (u ++ wire) /\ blen wire = blen p0 + n + macSz t /\
                    blen wire + blen rest' = blen p0 + blen rest
  | (Err e, s') => exists t' x, s' = mid s t' (u ++ x) /\ crypt_step t t' /\ blen x = blen p0 + blen rest
  | (UB, _) => False
  end.
Proof.
  intros Hsu Hp0 Hn Hr Hl Hsz Hlt. unfold bundle_body. run.
  destruct (mid_fields s t (u ++ p0 ++ rest)) as (->&->&_).
  change (aeadMode (tx (mid s t _))) with (aeadMode t).
  pose proof (blen_nonneg u). pose proof (blen_nonneg rest). destruct (so_mac _ _ _ _ _ _ Hsu) as [Hm0 _].
  rewrite !blen_app in *.
  assert (blen u + blen p0 +w n = blen u + blen p0 + n) as -> by (apply wrap32_small; lia).
  rewrite (proj2 (Z.ltb_ge _ _)) by lia.
  assert (b_length (outputBuffer (tx s)) -w blen u +w n = blen p0 + n) as ->.
  { rewrite Hl, (wrap32_small (_ - _)) by lia. rewrite wrap32_small; lia. }
  set (x := take (Z.to_nat n) rest). set (rest1 := drop (Z.to_nat n) rest).
  assert (rest = x ++ rest1) as Er by (symmetry; apply take_drop).
  assert (blen x = n) as Hx by (unfold x, blen in *; rewrite length_take; lia).
  set (m := take (Z.to_nat (macSz t)) rest1). set (rest2 := drop (Z.to_nat (macSz t)) rest1).
  assert (rest1 = m ++ rest2) as Er1 by (symmetry; apply take_drop).
  assert (blen m = macSz t) as Hml.
  { rewrite Er, blen_app in Hr. unfold m, blen in *. rewrite length_take. lia. }
  assert (blen rest = n + macSz t + blen rest2) as Hrl by (rewrite Er, Er1, !blen_app; lia).
  pose proof (add_padding_run s t (blen u + blen p0) n (u ++ p0 ++ rest) (u ++ p0) x rest1
    ltac:(by rewrite Er, <- !app_assoc) ltac:(by rewrite blen_app) (eq_sym Hx)) as Hap.
  destruct (add_padding _ _ _) as [[[]|e|] s1] eqn:Ea;
    [erewrite ST_bind_ok by exact Ea|erewrite ST_bind_err by exact Ea|done].
  2: { destruct Hap as (_&r&->). exists (t <| rng := r |>), (p0 ++ rest). split; [done|].
       split; [transmit_eta t|by rewrite blen_app]. }
  destruct Hap as (d&r&->&Hd&Hz). set (t1 := t <| rng := r |>).
  assert (crypt_step t t1) as Ht1 by (transmit_eta t).
  assert (forall R,
    sealed_post s t1 u (p0 ++ d) rest2 (blen p0 + blen rest) R ->
    match R with
    | (Ok i, s') => exists d t' wire rest', s' = mid s t' (u ++ wire ++ rest') /\ crypt_step t t' /\
                    sealed t (p0 ++ d) wire /\ blen d = n /\ (encryptId t = ID_NONE -> d = zeros n) /\
                    i = blen (u ++ wire) /\ blen wire = blen p0 + n + macSz t /\
                    blen wire + blen rest' = blen p0 + blen rest
    | (Err e, s') => exists t' x, s' = mid s t' (u ++ x) /\ crypt_step t t' /\ blen x = blen p0 + blen rest
    | (UB, _) => False
    end) as Hfin.
  { intros [[i|e|] s'] Hpost; [..|done].
    - destruct Hpost as (t'&wire&->&Ht'&Hse&Hw&->).
      exists d, t', wire, rest2. rewrite blen_app in Hw. change (macSz t1) with (macSz t) in Hw.
      repeat split; try done; lia.
    - destruct Hpost as (t'&y&->&Ht'&Hy). exists t', y. repeat split; done. }
  apply Hfin. clear Hfin. destruct (aeadMode t) eqn:Eaead; cbn [negb].
  - set (len := take 4 p0). set (b := drop 4 p0).
    assert (p0 = len ++ b) as Ep by (symmetry; apply take_drop).
    assert (blen len = LENGTH_SZ) as Hlen by (unfold len, blen in *; rewrite length_take; clia).
    assert (blen p0 = 4 + blen b) as Hpl by (rewrite Ep, blen_app, Hlen; done).
    replace (blen p0 + n -w LENGTH_SZ) with (blen (b ++ d)).
    2: { rewrite blen_app. symmetry. etransitivity; [apply wrap32_small|]; clia. }
    replace (blen u + blen p0 + n) with (blen (u ++ len ++ b ++ d)).
    2: { rewrite !blen_app, Hlen. clia. }
    replace ((u ++ p0) ++ d ++ rest1) with (u ++ len ++ (b ++ d) ++ m ++ rest2).
    2: { rewrite Ep, Er1, <- !app_assoc. done. }
    replace (p0 ++ d) with (len ++ b ++ d) by (by rewrite Ep, <- app_assoc).
    replace (blen p0 + blen rest) with (blen (len ++ (b ++ d) ++ m ++ rest2))
      by (rewrite !blen_app, Hlen, Hd; clia).
    apply seal_aead_run; try done.
    + rewrite blen_app. lia.
    + rewrite !blen_app. clia.
  - replace (blen p0 + n) with (blen (p0 ++ d)) by (rewrite blen_app; lia).
    replace (blen u + blen p0 + n) with (blen (u ++ p0 ++ d)) by (rewrite !blen_app; lia).
    replace ((u ++ p0) ++ d ++ rest1) with (u ++ (p0 ++ d) ++ m ++ rest2).
    2: { rewrite Er1, <- !app_assoc. done. }
    replace (blen p0 + blen rest) with (blen ((p0 ++ d) ++ m ++ rest2)) by (rewrite !blen_app; lia).
    destruct (so_mac_for _ _ _ _ _ _ Hsu eq_refl).
    apply seal_mac_run; try done.
    + rewrite blen_app. lia.
    + rewrite !blen_app. lia.
Qed.

(** What a sender leaves alone in the transmitting state: the algorithms, the
    keys and the count of flushes. *)
Definition framed (t t' : Transmit) : Prop :=
  t' = t <| outputBuffer := outputBuffer t' |> <| packetStartIdx := packetStartIdx t' |>
         <| seq := seq t' |> <| txMsgCount := txMsgCount t' |> <| txCount := txCount t' |>
         <| rng := rng t' |> <| encryptCipher := encryptCipher t' |> <| keys; iv := iv (keys t') |>.

Lemma framed_suite t t' :
  framed t t' -> suite_ok (encryptId t) (aeadMode t) (macId t) (blockSz t) (macSz t) (keys t) ->
  suite_ok (encryptId t') (aeadMode t') (macId t') (blockSz t') (macSz t') (keys t').
Proof. unfold framed. intros -> []. by split. Qed.

(** [wire] is a packet of payload [w] under the keys of [t]: framed with its
    lengths and padding, and sealed. *)
Definition packet_of (t : Transmit) (w wire : bytes) : Prop :=
  exists padding,
    MIN_PAD_LENGTH <= blen padding < MIN_PAD_LENGTH + blockSz t /\
    ((if aeadMode t then 0 else LENGTH_SZ) + PAD_LENGTH_SZ + blen w + blen padding) mod blockSz t = 0 /\
    (encryptId t = ID_NONE -> padding = zeros (blen padding)) /\
    sealed t (c32toa (PAD_LENGTH_SZ + blen w + blen padding) ++ [blen padding] ++ w ++ padding) wire /\
    blen wire = LENGTH_SZ + PAD_LENGTH_SZ + blen w + blen padding + macSz t.

(** A packet of payload [w] waits after [u] in [t'], and is counted. *)
Definition queued (t t' : Transmit) (u w : bytes) : Prop :=
  exists wire, packet_of t w wire /\ unread (outputBuffer t') = u ++ wire /\
    seq t' = seq t +w 1 /\ txMsgCount t' = txMsgCount t +w 1.

Lemma mid_buffer_ok s t x n :
  buffer_ok (outputBuffer (tx s)) -> b_idx (outputBuffer (tx s)) = 0 ->
  blen x = bufferSz (outputBuffer (tx s)) -> 0 <= n <= blen x ->
  let b := (outputBuffer (tx (mid s t x))) <| b_length := n |> in
  buffer_ok b /\ unread b = slice x 0 n.
Proof.
  intros Hok Hi Hx Hn b. pose proof Hok as [].
  destruct (set_buffer_fields x (outputBuffer (tx s))) as (F1&F2&F3&F4).
  destruct (set_buffer_ok x _ Hok ltac:(lia)) as [B1 B2 B3 B4 B5].
  assert (buffer b = x) as Hb by exact (buffer_set_buffer x (outputBuffer (tx s))).
  assert (b_idx b = 0) as Hbi by (cbn; rewrite F2; done).
  assert (bufferSz b = blen x) as Hbs by (cbn; rewrite F3; lia).
  split.
  - split; rewrite ?Hb, ?Hbi, ?Hbs; try done; cbn; lia.
  - unfold unread. rewrite Hb, Hbi. cbn. by rewrite Z.sub_0_r.
Qed.

Lemma slice_prefix (u x : bytes) : slice (u ++ x) 0 (blen u) = u.
Proof. unfold slice, blen. rewrite Nat2Z.id. cbn. rewrite drop_0, take_app_length. done. Qed.

(** Sealing a packet in the buffer: it is queued whole, or nothing is. *)
Lemma BundlePacket_run u hdr w rest s :
  building (tx s) u hdr w rest ->
  suite_ok (encryptId (tx s)) (aeadMode (tx s)) (macId (tx s)) (blockSz (tx s)) (macSz (tx s)) (keys (tx s)) ->
  blockSz (tx s) * 2 + macSz (tx s) <= blen rest ->
  match BundlePacket s with
  | (Ok _, s') => s' = s <| tx := tx s' |> /\ framed (tx s) (tx s') /\
                  buffer_ok (outputBuffer (tx s')) /\ queued (tx s) (tx s') u w
  | (Err e, s') => s' = s <| tx := tx s' |> /\ framed (tx s) (tx s') /\
                  buffer_ok (outputBuffer (tx s')) /\ unread (outputBuffer (tx s')) = u /\
                  seq (tx s') = seq (tx s)
  | (UB, _) => False
  end.
Proof.
  intros Hbd Hsu Hroom. destruct (building_size _ _ _ _ _ Hbd) as [Hsz Hlt]. destruct Hbd.
  set (t := tx s) in *. destruct (out_only_pad _ Hsu) as (Hb&Hm&_).
  pose proof (blen_nonneg u). pose proof (blen_nonneg w). pose proof (blen_nonneg rest).
  unfold LENGTH_SZ, UINT32_SZ, PAD_LENGTH_SZ in bd_hdr0.
  unfold BundlePacket. run. fold t. rewrite (proj2 (Z.eqb_neq _ _)) by lia.
  assert (b_length (outputBuffer t) -w packetStartIdx t -w LENGTH_SZ -w PAD_LENGTH_SZ = blen w) as Hpl.
  { rewrite bd_len0, bd_start0, bd_hdr0. unfold LENGTH_SZ, UINT32_SZ, PAD_LENGTH_SZ.
    rewrite (wrap32_small (_ - blen u)) by lia. rewrite (wrap32_small (_ - 4)) by lia.
    rewrite wrap32_small; lia. }
  rewrite Hpl. destruct (bundle_padding_spec t (blen w) ltac:(lia) ltac:(lia) ltac:(lia)) as [Hp Hal].
  set (n := bundle_padding t (blen w)) in *. unfold MIN_PAD_LENGTH in Hp.
  assert (PAD_LENGTH_SZ +w blen w +w n = PAD_LENGTH_SZ + blen w + n) as ->.
  { unfold PAD_LENGTH_SZ. rewrite (wrap32_small (1 + blen w)) by lia. apply wrap32_small. lia. }
  set (L := c32toa (PAD_LENGTH_SZ + blen w + n)).
  assert (blen L = 4) as HL by done.
  rewrite bd_start0, bd_len0.
  replace s with (mid s t (u ++ hdr ++ w ++ rest)) by (rewrite <- bd_buf0; apply mid_self).
  assert (exists h1 h2, hdr = h1 ++ h2 /\ blen h1 = 4 /\ blen h2 = 1) as (h1&h2&->&Hh1&Hh2).
  { exists (take 4 hdr), (drop 4 hdr). split; [by rewrite take_drop|].
    unfold blen in *. rewrite length_take, length_drop. lia. }
  erewrite ST_bind_ok by (eapply (mid_write_at _ _ _ _ u h1 (h2 ++ w ++ rest));
    [by rewrite <- !app_assoc|done|lia]).
  assert (blen u +w LENGTH_SZ = blen (u ++ L)) as ->.
  { rewrite blen_app, HL. apply wrap32_small. clia. }
  erewrite ST_bind_ok by (eapply (mid_write_at _ _ _ _ (u ++ L) h2 (w ++ rest));
    [by rewrite <- !app_assoc|done|done]).
  replace ((u ++ L) ++ [n] ++ w ++ rest) with (u ++ (L ++ [n] ++ w) ++ rest) by (by rewrite <- !app_assoc).
  replace (blen u + blen (h1 ++ h2) + blen w) with (blen (u ++ L ++ [n] ++ w)).
  2: { rewrite !blen_app, HL, Hh1, Hh2. change (blen [n]) with 1. lia. }
  assert (blen (L ++ [n] ++ w) = 5 + blen w) as Hpk.
  { rewrite !blen_app, HL. change (blen [n]) with 1. lia. }
  pose proof (bundle_body_run s t u (L ++ [n] ++ w) rest n Hsu) as Hbody.
  assert (b_length (outputBuffer t) = blen (u ++ L ++ [n] ++ w)) as Hbl.
  { rewrite blen_app, Hpk. lia. }
  assert (bufferSz (outputBuffer t) = blen (u ++ (L ++ [n] ++ w) ++ rest)) as Hbs.
  { rewrite blen_app, (blen_app (L ++ _)), Hpk. lia. }
  specialize (Hbody ltac:(lia) ltac:(lia) ltac:(lia) Hbl Hbs Hlt).
  unfold attempt at 1. unfold mbind at 1, ST_bind at 1.
  destruct (bundle_body _ _ _ _) as [[i|e|] s'] eqn:Eb; [..|done]; run.
  - destruct Hbody as (d&t'&wire&rest'&->&Ht'&Hse&Hd&Hz&->&Hw&Hr).
    destruct (mid_buffer_ok s t' (u ++ wire ++ rest') (blen (u ++ wire)) bd_ok0 bd_idx0) as [Hok Hun].
    { fold t. rewrite Hbs, !(blen_app u), (blen_app wire), (blen_app (L ++ _)). lia. }
    { rewrite !blen_app. pose proof (blen_nonneg wire). pose proof (blen_nonneg rest'). lia. }
    split; [done|]. split; [|split; [exact Hok|]].
    + unfold crypt_step in Ht'. rewrite Ht'. done.
    + exists wire. split; [|split; [|rewrite Ht'; done]].
      * exists d. rewrite Hd. split; [clia|]. split; [done|]. split; [done|].
        split; [by rewrite <- !app_assoc in Hse|]. rewrite Hw, Hpk. clia.
      * etransitivity; [exact Hun|]. by rewrite app_assoc, slice_prefix.
  - destruct Hbody as (t'&x&->&Ht'&Hx).
    destruct (mid_fields s t' (u ++ x)) as (_&->&_).
    assert (blen x = bufferSz (outputBuffer t) - blen u) as Hx' by (rewrite Hsz; lia).
    fold t. rewrite (wrap32_small (bufferSz (outputBuffer t) - blen u)) by lia.
    erewrite ST_bind_ok by (eapply (mid_write_at _ _ _ _ u x []);
      [by rewrite app_nil_r|done|rewrite blen_zeros; lia]).
    run. rewrite app_nil_r.
    destruct (mid_buffer_ok s t' (u ++ zeros (bufferSz (outputBuffer t) - blen u)) (blen u) bd_ok0 bd_idx0) as [Hok Hun].
    { fold t. rewrite !blen_app, blen_zeros; lia. }
    { rewrite !blen_app. pose proof (blen_nonneg (zeros (bufferSz (outputBuffer t) - blen u))). lia. }
    split; [done|]. split; [|split; [exact Hok|split]].
    + unfold crypt_step in Ht'. rewrite Ht'. done.
    + etransitivity; [exact Hun|]. apply slice_prefix.
    + rewrite Ht'. done.
Qed.

(** A sender as a whole: the payload's packet is queued after what waits to be
    sent, or nothing is. *)
Lemma send_payload_ok payloadSz payload s :
  tx_ok (tx s) -> blen payload <= payloadSz ->
  blen (unread (outputBuffer (tx s))) + payloadSz + 256 <= 2 ^ 32 ->
  match send_payload payloadSz payload s with
  | (Ok _, s') => tx_only s s' /\ framed (tx s) (tx s') /\ tx_ok (tx s') /\
                  queued (tx s) (tx s') (unread (outputBuffer (tx s))) payload
  | (Err e, s') => tx_only s s' /\ framed (tx s) (tx s') /\ tx_ok (tx s') /\
                  unread (outputBuffer (tx s')) = unread (outputBuffer (tx s)) /\
                  seq (tx s') = seq (tx s)
  | (UB, _) => False
  end.
Proof.
  intros Hok Hp Hfit. pose proof (blen_nonneg payload).
  destruct (PreparePacket_run payloadSz s Hok ltac:(lia) Hfit)
    as [(ms&Hprep)|(b&ms&hdr&rest&Hprep&Hbd&Hroom)]; unfold send_payload.
  { erewrite ST_bind_err by exact Hprep. split; [by destruct s|]. split; [|done].
    session_eta' s. }
  erewrite ST_bind_ok by exact Hprep.
  set (u := unread (outputBuffer (tx s))) in *.
  set (s1 := s <| tx; outputBuffer := b |> <| tx; packetStartIdx := blen u |> <| mallocs := ms |>) in *.
  destruct Hok as [_ Hsu]. pose proof (out_only_pad _ Hsu) as (Hb&Hm&_).
  destruct (put_run u hdr [] rest payload s1 Hbd ltac:(lia)) as (b2&Hput&Hbd2).
  erewrite ST_bind_ok by exact Hput.
  pose proof (BundlePacket_run u hdr payload (drop (length payload) rest) (s1 <| tx; outputBuffer := b2 |>)
    Hbd2 Hsu) as HB.
  change (blockSz (tx (s1 <| tx; outputBuffer := b2 |>))) with (blockSz (tx s)) in HB.
  change (macSz (tx (s1 <| tx; outputBuffer := b2 |>))) with (macSz (tx s)) in HB.
  specialize (HB ltac:(unfold blen in *; rewrite length_drop; lia)).
  destruct (BundlePacket (s1 <| tx; outputBuffer := b2 |>)) as [[[]|e|] s'] eqn:EB; [..|done].
  - destruct HB as (Hs'&Hfr&Hok'&Hq).
    assert (framed (tx s) (tx s')) as Hf by exact Hfr.
    split; [unfold tx_only; rewrite Hs'; done|]. split; [done|]. split; [|exact Hq].
    split; [done|]. by eapply framed_suite.
  - destruct HB as (Hs'&Hfr&Hok'&Hq&Hseq).
    assert (framed (tx s) (tx s')) as Hf by exact Hfr.
    split; [unfold tx_only; rewrite Hs'; done|]. split; [done|]. split; [|done].
    split; [done|]. by eapply framed_suite.
Qed.

(** C27: a payload of the announced size is framed as RFC 4253 section 6 asks --
    the packet length, the padding length, the payload and at least four bytes of
    padding, a whole number of cipher blocks -- sealed under the keys and the
    sequence number in force, and appended to the bytes that wait to be sent,
    with the sequence number advanced by one; on any error (no memory, or the
    crypto library's) the waiting bytes and the sequence number are as before.
    There is no access outside the output buffer, and nothing but the sending
    side of the session changes. *)
Theorem send_payload_spec payloadSz payload s :
  tx_ok (tx s) -> blen payload <= payloadSz ->
  blen (unread (outputBuffer (tx s))) + payloadSz + 256 <= 2 ^ 32 ->
  match send_payload payloadSz payload s with
  | (Ok _, s') => tx_only s s' /\ framed (tx s) (tx s') /\ tx_ok (tx s') /\
                  queued (tx s) (tx s') (unread (outputBuffer (tx s))) payload
  | (Err e, s') => tx_only s s' /\ framed (tx s) (tx s') /\ tx_ok (tx s') /\
                  unread (outputBuffer (tx s')) = unread (outputBuffer (tx s)) /\
                  seq (tx s') = seq (tx s)
  | (UB, _) => False
  end.
Proof. apply send_payload_ok. Qed.

(** ** Flushing the buffer *)

(** A send callback that follows the I/O contract: it touches only the
    application's memory, where [wire] is what has been handed to the network;
    it takes a non-empty prefix of the data, or reports an error and takes
    nothing; and it is interrupted by signals [retries] more times at most. *)
Record IoContract (cb : bytes -> M Z) (wire : bytes -> bytes) (retries : bytes -> nat) : Prop := {
  io_runs d s : exists n a, cb d s = (Ok n, s <| app := a |>);
  io_sent d s n s' : cb d s = (Ok n, s') -> 0 < blen d -> 0 <= n ->
    0 < n <= blen d /\ wire (app s') = wire (app s) ++ slice d 0 n /\ (retries (app s') <= retries (app s))%nat;
  io_error d s n s' : cb d s = (Ok n, s') -> n < 0 ->
    wire (app s') = wire (app s) /\ (retries (app s') <= retries (app s))%nat /\
    (n = WS_CBIO_ERR_ISR -> (retries (app s') < retries (app s))%nat)
}.

(** A flush changes the output buffer, the state of the connection and the
    application's memory. *)
Definition flush_only (s s' : WOLFSSH) : Prop :=
  s' = s <| tx; outputBuffer := outputBuffer (tx s') |> <| tx; txFlushCount := txFlushCount (tx s') |>
         <| error := error s' |> <| connReset := connReset s' |> <| isClosed := isClosed s' |>
         <| disconnectTxd := disconnectTxd s' |> <| app := app s' |>.

Lemma flush_only_trans s1 s2 s3 : flush_only s1 s2 -> flush_only s2 s3 -> flush_only s1 s3.
Proof. unfold flush_only. intros -> ->. done. Qed.

Lemma flush_only_refl s : flush_only s s.
Proof. session_eta s. Qed.

Lemma slice_chop x i n j :
  0 <= i -> 0 <= n -> i + n <= j -> j <= blen x ->
  slice x i (j - i) = slice (slice x i (j - i)) 0 n ++ slice x (i + n) (j - (i + n)).
Proof.
  intros. unfold slice, blen in *. cbn. rewrite drop_0, take_take.
  rewrite Nat.min_l by lia.
  replace (Z.to_nat (j - i)) with (Z.to_nat n + Z.to_nat (j - (i + n)))%nat by lia.
  rewrite <- take_take_drop, drop_drop. do 3 f_equal. lia.
Qed.

(** What one flush leaves, the callback having [wire] as its output. *)
Definition flush_post (wire : bytes -> bytes) (retries : bytes -> nat) (s : WOLFSSH) (r : res unit * WOLFSSH) : Prop :=
  match r with
  | (Ok _, s') => flush_only s s' /\ buffer_ok (outputBuffer (tx s')) /\
      (retries (app s') <= retries (app s))%nat /\
      wire (app s') = wire (app s) ++ unread (outputBuffer (tx s)) /\ unread (outputBuffer (tx s')) = []
  | (Err e, s') => flush_only s s' /\ buffer_ok (outputBuffer (tx s')) /\
      (retries (app s') <= retries (app s))%nat /\ error s' = e /\
      (length (unread (outputBuffer (tx s'))) <= length (unread (outputBuffer (tx s))))%nat /\
      (e = WS_WANT_WRITE \/ e = WS_SOCKET_ERROR_E) /\
      exists lost, wire (app s') ++ unread (outputBuffer (tx s')) ++ lost
                   = wire (app s) ++ unread (outputBuffer (tx s)) /\
      (e = WS_WANT_WRITE -> lost = [])
  | (UB, _) => False
  end.

Section Flush.
Context (cb : bytes -> M Z) (wire : bytes -> bytes) (retries : bytes -> nat)
        (contract : IoContract cb wire retries).

Lemma flush_step s s1 r :
  flush_only s s1 -> (retries (app s1) <= retries (app s))%nat ->
  (length (unread (outputBuffer (tx s1))) <= length (unread (outputBuffer (tx s))))%nat -> wire (app s1) ++ unread (outputBuffer (tx s1)) = wire (app s) ++ unread (outputBuffer (tx s)) ->
  flush_post wire retries s1 r -> flush_post wire retries s r.
Proof.
  intros Hf Hr Hl He. unfold flush_post. destruct r as [[[]|e|] s']; [..|done].
  - intros (F&?&?&W&?). rewrite W, He. split; [by eapply flush_only_trans|]. split; [done|]. split; [lia|done].
  - intros (F&?&?&?&?&?&l&W&?). split; [by eapply flush_only_trans|]. split; [done|]. split; [lia|].
    split; [done|]. split; [lia|]. split; [done|].
    exists l. by rewrite W, He.
Qed.

(** The loop leaves the indices to the caller's [ShrinkBuffer]. *)
Definition loop_post (s : WOLFSSH) (r : res unit * WOLFSSH) : Prop :=
  flush_post wire retries s r /\
  match r with
  | (Ok _, s') => b_idx (outputBuffer (tx s')) = b_length (outputBuffer (tx s')) /\
                  txFlushCount (tx s') = txFlushCount (tx s)
  | _ => True
  end.

Lemma SendPacketFlush_loop_run fuel s :
  buffer_ok (outputBuffer (tx s)) ->
  (length (unread (outputBuffer (tx s))) + retries (app s) < fuel)%nat ->
  loop_post s (SendPacketFlush_loop fuel cb s).
Proof.
  revert s. induction fuel as [|fuel IH]; intros s Hok Hfuel; [lia|].
  pose proof Hok as []. pose proof (unread_length _ Hok) as Hl.
  cbn [SendPacketFlush_loop]. run. set (b := outputBuffer (tx s)) in *.
  destruct (Z.ltb_spec (b_idx b) (b_length b)) as [Hlt|Hge].
  2: { assert (unread b = []) as E by (destruct (unread b); [done|rewrite blen_cons in Hl; pose proof (blen_nonneg l); lia]).
       run. split; [|split; [unfold b in *; lia|done]]. split; [apply flush_only_refl|].
       change (outputBuffer (tx s)) with b. rewrite E, app_nil_r. done. }
  rewrite (proj2 (orb_false_iff _ _)) by (split; apply Z.ltb_ge; lia).
  rewrite wrap32_small by lia.
  unfold out_read, on_out at 1. unfold mbind at 1, ST_bind at 1. fold b.
  rewrite buffer_read_ok by lia. fold (unread b).
  replace (s <| tx; outputBuffer := b |>) with s
    by (unfold b; session_eta s).
  destruct (io_runs _ _ _ contract (unread b) s) as (n&a&Hcb).
  erewrite ST_bind_ok by exact Hcb.
  assert (flush_only s (s <| app := a |>)) as Hfo
    by (session_eta s).
  destruct (Z.ltb_spec n 0) as [Hneg|Hpos]; run.
  - destruct (io_error _ _ _ contract _ _ _ _ Hcb Hneg) as (Hw&Hrt&Hisr).
    assert (forall e, e = WS_WANT_WRITE \/ e = WS_SOCKET_ERROR_E -> flush_post wire retries s (Err e, s <| app := a |> <| error := e |>)) as Herr.
    { intros e He. split; [session_eta s|]. do 5 (split; [done|]). exists []. split; [|done]. rewrite app_nil_r. cbn in *. by rewrite Hw. }
    destruct (Z.eqb_spec n WS_CBIO_ERR_WANT_WRITE).
    { split; [apply Herr; auto|done]. }
    destruct (Z.eqb_spec n WS_CBIO_ERR_ISR) as [Hn|].
    + destruct (IH (s <| app := a |>)) as [IH1 IH2]; [done| |].
      { specialize (Hisr Hn). change (app (s <| app := a |>)) with a in *. change (outputBuffer (tx (s <| app := a |>))) with b. lia. }
      split; [|exact IH2]. eapply flush_step; [exact Hfo|exact Hrt|done| |exact IH1]. cbn in *. by rewrite Hw.
    + unfold send_error.
      destruct (n =? WS_CBIO_ERR_CONN_RST); run.
      { split; [|done]. split; [session_eta s|]. do 4 (split; [done|]). split; [auto|]. exists []. split; [|done]. rewrite app_nil_r. cbn in *. by rewrite Hw. }
      destruct (n =? WS_CBIO_ERR_CONN_CLOSE); run.
      { split; [|done]. split; [session_eta s|]. do 4 (split; [done|]). split; [auto|]. exists []. split; [|done]. rewrite app_nil_r. cbn in *. by rewrite Hw. }
      destruct (n =? WS_CBIO_ERR_GENERAL); run; [|split; [apply Herr; auto|done]].
      destruct (ShrinkBuffer_ok true b Hok ltac:(auto)) as (b'&Hsh&Hok'&Hun&_).
      unfold on_out. unfold mbind, ST_bind. cbn -[ShrinkBuffer]. fold b. rewrite Hsh. cbn.
      split; [|done]. split; [session_eta s|]. do 3 (split; [done|]). split; [change (length (unread b') <= length (unread b))%nat; rewrite Hun; cbn; lia|]. split; [auto|]. exists (unread b).
      split; [|done]. change (wire a ++ unread b' ++ unread b = wire (app s) ++ unread b).
      change (wire a = wire (app s)) in Hw. by rewrite Hun, Hw.
  - destruct (io_sent _ _ _ contract _ _ _ _ Hcb ltac:(lia) Hpos) as (Hn&Hw&Hr).
    change (outputBuffer (tx (s <| app := a |>))) with b. rewrite (proj2 (Z.ltb_ge _ _)) by lia. run.
    set (s1 := (s <| app := a |>) <| tx; outputBuffer ::= (fun b => b <| b_idx ::= (fun i => i +w n) |>) |>).
    set (b1 := b <| b_idx ::= (fun i => i +w n) |>).
    assert (b_idx b1 = b_idx b + n) as Hi1 by (cbn -[wrap32]; apply wrap32_small; lia).
    assert (buffer_ok b1) as Hok1.
    { split; try done; rewrite ?Hi1; cbn; lia. }
    assert (unread b = slice (unread b) 0 n ++ unread b1) as Hsp.
    { unfold unread at 3. rewrite Hi1. change (buffer b1) with (buffer b).
      change (b_length b1) with (b_length b). apply slice_chop; lia. }
    assert (blen (unread b1) = blen (unread b) - n) as Hl1.
    { rewrite (unread_length _ Hok1), Hl, Hi1. cbn. lia. }
    destruct (IH s1 Hok1) as [IH1 IH2].
    { change (outputBuffer (tx s1)) with b1. change (app s1) with a. cbn in Hr. unfold blen in *. lia. }
    split; [|exact IH2]. refine (flush_step s s1 _ _ Hr _ _ IH1).
    + eapply flush_only_trans; [exact Hfo|].
      session_eta s.
    + change (length (unread b1) <= length (unread b))%nat. unfold blen in *. lia.
    + change (outputBuffer (tx s1)) with b1. change (app s1) with a. cbn in Hw.
      rewrite Hw. fold b. rewrite Hsp at 2. by rewrite app_assoc.
Qed.
End Flush.

Lemma SendPacketFlush_ok cb wire retries s :
  ioSendCb = Some cb -> IoContract cb wire retries -> buffer_ok (outputBuffer (tx s)) ->
  (length (unread (outputBuffer (tx s))) + retries (app s) < io_fuel)%nat ->
  flush_post wire retries s (SendPacketFlush s) /\
  match SendPacketFlush s with
  | (Ok _, s') => txFlushCount (tx s') = txFlushCount (tx s) +w 1 /\ disconnectTxd s' = false
  | _ => True
  end.
Proof.
  intros Hcb Hc Hok Hfuel. destruct (SendPacketFlush_loop_run cb wire retries Hc io_fuel s Hok Hfuel) as [Hp He].
  unfold SendPacketFlush. rewrite Hcb.
  destruct (SendPacketFlush_loop io_fuel cb s) as [[[]|e|] s1] eqn:El; [|by erewrite !ST_bind_err by exact El|done].
  erewrite !ST_bind_ok by exact El. run. destruct Hp as (F&Hok1&Hrt&Hw&Hu). destruct He as [Hi Hf].
  unfold on_out. cbn -[ShrinkBuffer wrap32].
  destruct (ShrinkBuffer_ok false (outputBuffer (tx s1)) Hok1) as (b'&Hsh&Hok'&Hun&_).
  { right. left. pose proof Hok1 as []. lia. }
  rewrite Hsh. cbn -[wrap32]. rewrite Hf. split; [|done].
  split; [|split; [done|split; [done|split; [done|by rewrite Hun]]]].
  eapply flush_only_trans; [exact F|]. session_eta s1.
Qed.

(** C28: one flush, with a callback that follows the I/O contract, ends; what it
    hands to the network and what it keeps are together exactly the bytes that
    waited, in their order. When it succeeds everything went out and the flush is
    counted; when the network would block nothing is lost; only the callback's
    general error drops what is left. *)
Theorem SendPacketFlush_spec cb wire retries s :
  ioSendCb = Some cb -> IoContract cb wire retries -> buffer_ok (outputBuffer (tx s)) ->
  (length (unread (outputBuffer (tx s))) + retries (app s) < io_fuel)%nat ->
  flush_post wire retries s (SendPacketFlush s) /\
  match SendPacketFlush s with
  | (Ok _, s') => txFlushCount (tx s') = txFlushCount (tx s) +w 1 /\ disconnectTxd s' = false
  | _ => True
  end.
Proof. apply SendPacketFlush_ok. Qed.

(** ** A network

    [wire] is what has been handed to the network; the send callback follows the
    I/O contract and the rekey callback leaves the network alone. *)
Class Network (wire : bytes -> bytes) (retries : bytes -> nat) : Prop := {
  net_cb : exists cb, ioSendCb = Some cb /\ IoContract cb wire retries;
  net_highwater h sd s : highwaterCb = Some h ->
    exists n x, h sd s = (Ok n, s <| app := x |>) /\ wire x = wire (app s) /\ retries x = retries (app s)
}.

Section Network.
Context (wire : bytes -> bytes) (retries : bytes -> nat) `{!Network wire retries}.

(** All that was ever queued: what is on the wire and what waits. *)
Definition stream (s : WOLFSSH) : bytes := wire (app s) ++ unread (outputBuffer (tx s)).

(** The turns one flush may take. *)
Definition flush_turns (s : WOLFSSH) : nat :=
  (length (unread (outputBuffer (tx s))) + retries (app s))%nat.

(** What flushing may change. *)
Definition sent_only (s s' : WOLFSSH) : Prop :=
  s' = s <| tx; outputBuffer := outputBuffer (tx s') |> <| tx; txFlushCount := txFlushCount (tx s') |>
         <| error := error s' |> <| connReset := connReset s' |> <| isClosed := isClosed s' |>
         <| disconnectTxd := disconnectTxd s' |> <| highwaterFlag := highwaterFlag s' |>
         <| msgHighwaterFlag := msgHighwaterFlag s' |> <| app := app s' |>.

Lemma sent_only_refl s : sent_only s s.
Proof. session_eta s. Qed.

Lemma sent_only_trans s1 s2 s3 : sent_only s1 s2 -> sent_only s2 s3 -> sent_only s1 s3.
Proof. unfold sent_only. intros -> ->. done. Qed.

Lemma flush_sent s s' : flush_only s s' -> sent_only s s'.
Proof. unfold flush_only, sent_only. intros ->. done. Qed.

(** Sending: what was queued is conserved, and nothing is lost unless the socket
    failed. *)
Lemma wolfSSH_SendPacket_run s :
  buffer_ok (outputBuffer (tx s)) -> (flush_turns s < io_fuel)%nat ->
  match wolfSSH_SendPacket s with
  | (Ok _, s') => sent_only s s' /\ buffer_ok (outputBuffer (tx s')) /\
                  (retries (app s') <= retries (app s))%nat /\ stream s' = stream s /\
                  unread (outputBuffer (tx s')) = []
  | (Err e, s') => sent_only s s' /\ buffer_ok (outputBuffer (tx s')) /\
                  (retries (app s') <= retries (app s))%nat /\
                  (length (unread (outputBuffer (tx s'))) <= length (unread (outputBuffer (tx s))))%nat /\
                  exists lost, stream s' ++ lost = stream s /\ (e <> WS_SOCKET_ERROR_E -> lost = [])
  | (UB, _) => False
  end.
Proof.
  intros Hok Hfuel. destruct net_cb as (cb&Hcb&Hc).
  destruct (SendPacketFlush_ok cb wire retries s Hcb Hc Hok Hfuel) as [Hp _].
  unfold wolfSSH_SendPacket. destruct (SendPacketFlush s) as [[[]|e|] s1] eqn:E; [| |done].
  - erewrite ST_bind_ok by exact E. run. destruct Hp as (F&Hok1&Hrt&W&U).
    unfold mbind, ST_bind. rewrite HighwaterCheck_run.
    assert (sent_only s (highwater_flags s1)) as Hs1.
    { eapply sent_only_trans; [by apply flush_sent|]. unfold highwater_flags. session_eta s1. }
    assert (stream (highwater_flags s1) = stream s) as Hst.
    { unfold stream. change (wire (app s1) ++ unread (outputBuffer (tx s1)) = wire (app s) ++ unread (outputBuffer (tx s))).
      by rewrite W, U, app_nil_r. }
    destruct ((bytes_over s1 || msgs_over s1) && negb (disconnected s1)).
    2: { unfold ret_code. change (WS_SUCCESS =? 0) with true. cbv iota. split; [done|]. split; [exact Hok1|].
         split; [exact Hrt|]. split; [done|exact U]. }
    unfold call. destruct highwaterCb as [h|] eqn:Eh.
    2: { unfold ret_code. change (WS_SUCCESS =? 0) with true. cbv iota. split; [done|]. split; [exact Hok1|].
         split; [exact Hrt|]. split; [done|exact U]. }
    destruct (net_highwater h WOLFSSH_HWSIDE_TRANSMIT (highwater_flags s1) Eh) as (n&x&->&Hw&Hrx).
    assert (sent_only s ((highwater_flags s1) <| app := x |>)) as Hs2.
    { eapply sent_only_trans; [exact Hs1|]. session_eta s1. }
    assert (stream ((highwater_flags s1) <| app := x |>) = stream s) as Hst2.
    { rewrite <- Hst. unfold stream. change (app ((highwater_flags s1) <| app := x |>)) with x. by rewrite Hw. }
    unfold ret_code. destruct (n =? 0).
    + split; [done|]. split; [exact Hok1|]. split; [cbn; rewrite Hrx; exact Hrt|]. split; [done|exact U].
    + split; [done|]. split; [exact Hok1|]. split; [cbn; rewrite Hrx; exact Hrt|].
      split; [change (length (unread (outputBuffer (tx s1))) <= length (unread (outputBuffer (tx s))))%nat; rewrite U; cbn; lia|].
      exists []. split; [|done]. by rewrite app_nil_r.
  - erewrite ST_bind_err by exact E. destruct Hp as (F&Hok1&Hrt&_&Hle&He&lost&W&L).
    split; [by apply flush_sent|]. do 3 (split; [done|]). exists lost. unfold stream. rewrite <- app_assoc.
    split; [done|]. destruct He as [->| ->]; [auto|done].
Qed.
End Network.

(** The hash of a MAC algorithm the code verifies. *)
Definition mac_hash (id : AlgoId) : option wc_HashType :=
  match id with
  | ID_HMAC_SHA1 | ID_HMAC_SHA1_96 => Some WC_HASH_TYPE_SHA
  | ID_HMAC_SHA2_256 => Some WC_HASH_TYPE_SHA256
  | ID_HMAC_SHA2_512 => Some WC_HASH_TYPE_SHA512
  | _ => None
  end.

Lemma VerifyMac_run input mac s :
  0 <= peerMacSz (rx s) <= blen mac -> peerMacSz (rx s) <= MAX_HMAC_SZ ->
  (VerifyMac input mac s).2 = s /\
  ((VerifyMac input mac s).1 = Ok tt <->
   peerMacId (rx s) = ID_NONE \/
   exists h digest, mac_hash (peerMacId (rx s)) = Some h /\
     hmac_with h (peerKeys (rx s)) (peerSeq (rx s)) input = Ok digest /\
     slice (digest ++ zeros (MAX_HMAC_SZ - blen digest)) 0 (peerMacSz (rx s)) = slice mac 0 (peerMacSz (rx s))).
Proof.
  intros Hm Hx.
  set (check h := digest ← lift_res (hmac_with h (peerKeys (rx s)) (peerSeq (rx s)) input);
    checkMac ← deref (wr (zeros MAX_HMAC_SZ) 0 digest);
    c ← deref (ConstantCompare checkMac mac (peerMacSz (rx s)));
    guard_err (truthy c) WS_VERIFY_MAC_E : M unit).
  assert (forall h, (check h s).2 = s /\ ((check h s).1 = Ok tt <-> exists digest,
     hmac_with h (peerKeys (rx s)) (peerSeq (rx s)) input = Ok digest /\
     slice (digest ++ zeros (MAX_HMAC_SZ - blen digest)) 0 (peerMacSz (rx s)) = slice mac 0 (peerMacSz (rx s)))) as Hch.
  { intros h. unfold check, hmac_with.
    destruct (wc_Hmac _ _ _) as [d|e|] eqn:Eh; run; [|by (split; [done|]; split; [done|intros (?&?&_)])..].
    pose proof (hmac_size _ _ _ _ Eh) as Hd. pose proof (blen_nonneg d).
    assert (blen d <= 64) by (rewrite Hd; destruct h; done).
    change MAX_HMAC_SZ with 64 in *.
    assert (wr (zeros 64) 0 d = Some (d ++ zeros (64 - blen d))) as ->.
    { rewrite wr_eq by (rewrite ?blen_zeros; lia). change (Z.to_nat 0) with 0%nat. rewrite take_0. cbn [app Nat.add].
      assert (drop (length d) (zeros 64) = zeros (64 - blen d)) as ->; [|done].
      unfold zeros. rewrite drop_replicate. f_equal. unfold blen in *. lia. }
    run. destruct (ConstantCompare_iff (d ++ zeros (64 - blen d)) mac (peerMacSz (rx s))) as (c&->&Hc).
    { rewrite blen_app, blen_zeros; lia. } { lia. }
    run. unfold guard_err, truthy. destruct (Z.eqb_spec c 0) as [E|E]; cbn; (split; [done|]).
    - split; [|done]. intros _. exists d. split; [done|]. by apply Hc.
    - split; [done|]. intros (d'&[= <-]&Hs). destruct E. by apply Hc. }
  assert (VerifyMac input mac s = match peerMacId (rx s) with
    | ID_NONE => (Ok tt, s)
    | id => match mac_hash id with Some h => check h s | None => (Err WS_INVALID_ALGO_ID, s) end
    end) as -> by (unfold VerifyMac; run; by destruct (peerMacId (rx s))).
  destruct (peerMacId (rx s)) eqn:Ei; cbn [mac_hash];
    try (split; [done|]; split; [done|intros [?|(h&d&?&_)]; done]);
    try (match goal with |- context [check ?h s] => destruct (Hch h) as [H1' H2'] end;
         split; [exact H1'|]; rewrite H2'; split;
         [intros (d&?&?); right; eexists _, d; done|intros [?|(h&d&[= <-]&?&?)]; [done|by exists d]]).
  split; [done|]. split; [by left|done].
Qed.

(** the MAC check accepts exactly the packets whose MAC under the peer's key
    and the sequence number expected next is the one received, in all of the
    bytes the algorithm sends; it changes nothing. *)
Theorem VerifyMac_spec input mac s :
  0 <= peerMacSz (rx s) <= blen mac -> peerMacSz (rx s) <= MAX_HMAC_SZ ->
  (VerifyMac input mac s).2 = s /\
  ((VerifyMac input mac s).1 = Ok tt <->
   peerMacId (rx s) = ID_NONE \/
   exists h digest, mac_hash (peerMacId (rx s)) = Some h /\
     hmac_with h (peerKeys (rx s)) (peerSeq (rx s)) input = Ok digest /\
     slice (digest ++ zeros (MAX_HMAC_SZ - blen digest)) 0 (peerMacSz (rx s)) = slice mac 0 (peerMacSz (rx s))).
Proof. apply VerifyMac_run. Qed.

(** ** Nonces *)

(** The little-endian value of a byte string. *)
Fixpoint le_value (b : bytes) : Z :=
  match b with [] => 0 | c :: r => c + 256 * le_value r end.

Lemma le_value_range b : Forall is_byte b -> 0 <= le_value b < 256 ^ blen b.
Proof.
  unfold blen. induction 1 as [|c r Hc _ IH]; cbn [le_value length]; [lia|].
  rewrite Nat2Z.inj_succ, Z.pow_succ_r by lia. unfold is_byte in Hc. lia.
Qed.

Lemma increment_loop_value b c :
  Forall is_byte b -> 0 <= c <= 1 ->
  Forall is_byte (increment_loop b c) /\ length (increment_loop b c) = length b /\
  le_value (increment_loop b c) = (le_value b + c) mod 256 ^ blen b.
Proof.
  intros Hb. revert c. unfold blen. induction Hb as [|x r Hx Hr IH]; intros c Hc.
  { cbn. split; [constructor|]. by rewrite Z.mod_1_r. }
  cbn [increment_loop le_value length]. unfold is_byte in Hx.
  assert (Z.land (Z.shiftr (x + c) 8) 1 = (x + c) / 256) as ->.
  { rewrite Z.shiftr_div_pow2 by lia. change 1 with (Z.ones 1). rewrite Z.land_ones by lia.
    change (2 ^ 8) with 256. apply Z.mod_small. zdiv. }
  destruct (IH ((x + c) / 256) ltac:(zdiv)) as (I1&I2&I3).
  split; [constructor; [apply wrap8_range|done]|]. split; [by rewrite I2|].
  rewrite I3. rewrite Nat2Z.inj_succ, Z.pow_succ_r by lia.
  set (m := 256 ^ Z.of_nat (length r)) in *. assert (0 < m) by (unfold m; apply Z.pow_pos_nonneg; lia).
  rewrite Z.rem_mul_r by lia. unfold wrap8. change (2 ^ 8) with 256.
  replace (x + 256 * le_value r + c) with (x + c + le_value r * 256) by lia.
  rewrite Z.mod_add, Z.div_add by lia. do 3 f_equal. lia.
Qed.

(** The invocation counter of an AEAD nonce: its last 8 bytes, big-endian. *)
Definition iv_counter (iv : bytes) : Z := le_value (rev (slice iv AEAD_IMP_IV_SZ AEAD_EXP_IV_SZ)).

Definition iv_ok (iv : bytes) : Prop := blen iv = AES_BLOCK_SIZE /\ Forall is_byte iv.

Lemma AeadIncrementExpIv_step iv :
  iv_ok iv ->
  iv_ok (AeadIncrementExpIv iv) /\
  slice (AeadIncrementExpIv iv) 0 AEAD_IMP_IV_SZ = slice iv 0 AEAD_IMP_IV_SZ /\
  iv_counter (AeadIncrementExpIv iv) = (iv_counter iv + 1) mod 2 ^ 64.
Proof.
  intros [Hl Hb]. unfold AES_BLOCK_SIZE in Hl. unfold blen in Hl.
  set (e := slice iv AEAD_IMP_IV_SZ AEAD_EXP_IV_SZ).
  assert (iv = take 4 iv ++ e ++ drop 12 iv) as Hiv.
  { unfold e, slice. change (Z.to_nat AEAD_EXP_IV_SZ) with 8%nat. change (Z.to_nat AEAD_IMP_IV_SZ) with 4%nat.
    change 12%nat with (4 + 8)%nat. by rewrite <- drop_drop, !take_drop. }
  assert (length e = 8%nat) as He by (unfold e, slice; rewrite length_take, length_drop; clia).
  assert (Forall is_byte e) as Hbe by (rewrite Hiv, !Forall_app in Hb; tauto).
  destruct (increment_loop_value (rev e) 1) as (I1&I2&I3); [by apply Forall_rev|lia|].
  rewrite length_rev in I2.
  assert (AeadIncrementExpIv iv = take 4 iv ++ rev (increment_loop (rev e) 1) ++ drop 12 iv) as E by done.
  assert (length (take 4 iv) = 4%nat) as H4 by (rewrite length_take; lia).
  rewrite E. split; [split|split].
  - unfold blen, AES_BLOCK_SIZE. rewrite !length_app, length_rev, length_drop. lia.
  - rewrite !Forall_app. rewrite Hiv, !Forall_app in Hb. split; [tauto|]. split; [by apply Forall_rev|tauto].
  - unfold slice. change (Z.to_nat AEAD_IMP_IV_SZ) with 4%nat. cbn [Z.to_nat]. rewrite !drop_0.
    rewrite take_app_le by lia. by rewrite take_take.
  - unfold iv_counter. fold e.
    assert (slice (take 4 iv ++ rev (increment_loop (rev e) 1) ++ drop 12 iv) AEAD_IMP_IV_SZ AEAD_EXP_IV_SZ
      = rev (increment_loop (rev e) 1)) as ->.
    { pose proof (slice_app_here (take 4 iv) (rev (increment_loop (rev e) 1)) (drop 12 iv)) as Hs.
      unfold blen in Hs. rewrite length_rev, I2, He, H4 in Hs. exact Hs. }
    rewrite rev_involutive, I3. unfold blen. rewrite length_rev, He. done.
Qed.


End Transport.

(** ** Examples *)

Lemma new_session_tx_ok a : tx_ok (tx (new_session a)).
Proof. split; split; vm_compute; intuition congruence. Qed.

Example send_payload_spec_witness :
  match send_payload 5 [90; 1; 2; 3; 4] (new_session []) with
  | (Ok _, s') => unread (outputBuffer (tx s')) = [0;0;0;12; 6; 90;1;2;3;4; 0;0;0;0;0;0] /\
                  queued (tx (new_session [])) (tx s') [] [90; 1; 2; 3; 4]
  | _ => False
  end.
Proof.
  generalize (send_payload_spec 5 [90; 1; 2; 3; 4] (new_session []) (new_session_tx_ok [])).
  destruct (send_payload 5 [90; 1; 2; 3; 4] (new_session [])) as [r s'] eqn:E. vm_compute in E.
  injection E as <- <-. intros H. split; [reflexivity|].
  destruct H as (_&_&_&Q); [vm_compute; congruence|vm_compute; congruence|exact Q].
Defined.

Lemma take_all_contract : IoContract take_all (fun w => w) (fun _ => O).
Proof.
  split.
  - intros d s. exists (blen d), (app s ++ d). by destruct s.
  - intros d s n s' [= <- <-] Hd _. split; [lia|]. cbn. rewrite slice_full. done.
  - intros d s n s' [= <- <-] Hn. pose proof (blen_nonneg d). lia.
Qed.

#[export] Instance sample_network sd : @Network (sample_ctx sd) (fun w => w) (fun _ => O).
Proof. split; [exists take_all; split; [done|apply take_all_contract]|done]. Qed.

Example SendPacketFlush_spec_witness :
  let s := (new_session [7]) <| tx; outputBuffer := mkBuffer 3 1 16 [] ([1; 2; 3] ++ zeros 13) false |> in
  match @SendPacketFlush server s with
  | (Ok _, s') => app s' = [7; 2; 3] /\ unread (outputBuffer (tx s')) = [] /\ txFlushCount (tx s') = 1
  | _ => False
  end.
Proof.
  cbv zeta.
  generalize (@SendPacketFlush_spec server take_all (fun w => w) (fun _ => O)
    ((new_session [7]) <| tx; outputBuffer := mkBuffer 3 1 16 [] ([1; 2; 3] ++ zeros 13) false |>)
    eq_refl take_all_contract ltac:(split; vm_compute; intuition congruence) ltac:(vm_compute; lia)).
  destruct (@SendPacketFlush server _) as [r s'] eqn:E. vm_compute in E.
  injection E as <- <-. intros [H [Hc _]]. destruct H as (_&_&_&W&U).
  split; [exact W|]. split; [exact U|exact Hc].
Defined.

Example VerifyMac_spec_witness :
  let s := (new_session []) <| rx; peerMacId := ID_HMAC_SHA2_256 |> <| rx; peerMacSz := 32 |> in
  (VerifyMac [1] (zeros 32) s).1 = Ok tt.
Proof.
  cbv zeta. eapply VerifyMac_spec; [split; vm_compute; congruence|vm_compute; congruence|].
  right. exists WC_HASH_TYPE_SHA256, (zeros 32). repeat split.
Defined.

