(* ===== verification/Channels.v ===== *)
(** The channels of a session (internal.c): the list and the lookup, creation
    and removal with the cleanup notice of forwards, the peer's side of an open,
    and the received data a channel buffers.

    The list is the locations in order; [ChannelFind] and [ChannelRemove] walk at
    most [channelListSz] nodes of it, as the code's loops do. *)

From S2P Require Import Prelude Codes Wire Names Buffer Fwd Algos Kdf Session Samples.

(** ** The invariant *)

(** The receive window: what the peer may still send, what is buffered and what
    is unread of its extended data make up the input buffer, but for the [due]
    bytes a read has taken out and not yet given back to the window. *)
Record channel_room (due : Z) (c : WOLFSSH_CHANNEL) : Prop := {
  ch_in : buffer_ok (c_inputBuffer c);
  ch_ext : buffer_ok (extDataBuffer c);
  ch_window : c_windowSz c + b_length (c_inputBuffer c) + blen (unread (extDataBuffer c)) + due
              = bufferSz (c_inputBuffer c);
  ch_window_pos : 0 <= c_windowSz c;
  ch_id : is_word32 (c_channel c);
  ch_peer : is_word32 (peerWindowSz c);
  ch_owed : is_word32 (pendingWindowAdjust c);
  ch_packets : is_word32 (peerMaxPacketSz c) /\ is_word32 (c_maxPacketSz c)
}.
#[global] Arguments ch_in {_}.
#[global] Arguments ch_ext {_}.
#[global] Arguments ch_window {_}.
#[global] Arguments ch_window_pos {_}.
#[global] Arguments ch_id {_}.
#[global] Arguments ch_peer {_}.
#[global] Arguments ch_owed {_}.
#[global] Arguments ch_packets {_}.
Abbreviation channel_ok := (channel_room 0).

(** The store holds exactly the channels of the list and those of [own], not
    yet in the list: no channel is lost and none is freed while it is listed. *)
Record chan_inv_due (due : loc -> Z) (own : list loc) (c : Channels) : Prop := {
  ci_nodup : NoDup (channelList c ++ own);
  ci_dom : forall l, is_Some (channels c !! l) <-> l ∈ channelList c ++ own;
  ci_size : channelListSz c = blen (channelList c);
  ci_small : blen (channelList c) < 2 ^ 32;
  ci_ids : forall l1 l2 c1 c2, channels c !! l1 = Some c1 -> channels c !! l2 = Some c2 ->
             c_channel c1 = c_channel c2 -> l1 = l2;
  ci_fresh : forall l, is_Some (channels c !! l) -> (l < channelNext c)%positive;
  ci_next : is_word32 (nextChannel c);
  ci_room : forall l ch, channels c !! l = Some ch -> channel_room (due l) ch
}.
#[global] Arguments ci_nodup {_}.
#[global] Arguments ci_dom {_}.
#[global] Arguments ci_size {_}.
#[global] Arguments ci_small {_}.
#[global] Arguments ci_ids {_}.
#[global] Arguments ci_fresh {_}.
#[global] Arguments ci_next {_}.
#[global] Arguments ci_room {_}.

(** Between the operations no window is due. *)
Definition no_due (l : loc) : Z := 0.
Abbreviation chan_inv := (chan_inv_due no_due).

Lemma ci_each own c : chan_inv own c -> forall l ch, channels c !! l = Some ch -> channel_ok ch.
Proof. apply ci_room. Qed.

Section Channels.
Context `{CTX}.

(** The id [ChannelFind] compares. *)
Definition channel_key (peer : Z) (c : WOLFSSH_CHANNEL) : Z :=
  if peer =? WS_CHANNEL_ID_PEER then peerChannel c else c_channel c.

Definition ChannelFind (channel peer : Z) : M (option loc) :=
  s ← get;
  find_first (take (Z.to_nat (channelListSz (chan s))) (channelList (chan s)))
    (fun list => c ← ld_channel list; mret (channel =? channel_key peer c)).

(** [while (ChannelFind(...) != NULL) nextChannel++]. *)
Fixpoint ChannelNew_id (fuel : nat) : M unit :=
  match fuel with
  | O => ub
  | S fuel =>
    s ← get;
    found ← ChannelFind (nextChannel (chan s)) WS_CHANNEL_ID_SELF;
    match found with
    | Some _ => modify (fun s => s <| chan; nextChannel ::= (fun n => n +w 1) |>);; ChannelNew_id fuel
    | None => mret tt
    end
  end.

Definition new_channel (ty : AlgoId) (id initialWindowSz maxPacketSz : Z) (ext : WOLFSSH_BUFFER)
    : WOLFSSH_CHANNEL :=
  mkChannel ty 0 false false false false false false false id initialWindowSz maxPacketSz 0 0 0 0
    None 0 None 0 false
    (mkBuffer 0 0 initialWindowSz (zeros initialWindowSz) (zeros STATIC_BUFFER_LEN) true) ext None.

Definition ChannelNew (channelType : AlgoId) (initialWindowSz maxPacketSz : Z) : M (option loc) :=
  newChannel ← malloc;
  if negb newChannel then mret None
  else
    buffer ← malloc;
    if negb buffer then mret None
    else
      s ← get;
      ChannelNew_id (S (length (channelList (chan s))));;
      s ← get;
      let id := nextChannel (chan s) in
      modify (fun s => s <| chan; nextChannel := id +w 1 |>);;
      match BufferInit true 0 with
      | Ok ext =>
        let l := channelNext (chan s) in
        modify (fun s => s
          <| chan; channels ::= <[l := new_channel channelType id initialWindowSz maxPacketSz ext]> |>
          <| chan; channelNext ::= Pos.succ |>);;
        mret (Some l)
      | _ => mret None
      end.

Definition NotifyFwdLocalCleanup (channel : loc) : M unit :=
  c ← ld_channel channel;
  if negb (fwdSetupTxd c) then mret tt
  else
    match fwdCb with
    | None => mret tt
    | Some cb =>
      st_channel channel (fun c => c <| fwdSetupTxd := false |>);;
      cb WOLFSSH_FWD_LOCAL_CLEANUP None (c_channel c);;
      mret tt
    end.

Definition ChannelDelete (channel : loc) : M unit :=
  NotifyFwdLocalCleanup channel;;
  c ← ld_channel channel;
  lift_res (ShrinkBuffer true (extDataBuffer c)).1;;
  modify (fun s => s <| chan; channels ::= delete channel |>).

Definition ChannelUpdatePeer (channel : loc) (peerChannelId peerInitialWindowSz peerMaxPkt : Z)
    : M unit :=
  st_channel channel (fun c => c <| peerChannel := peerChannelId |>
    <| peerWindowSz := peerInitialWindowSz |> <| peerMaxPacketSz := peerMaxPkt |>
    <| openConfirmed := true |>).

(** [host] and [origin] are pointers of the caller, copied as C strings. *)
Definition ChannelUpdateForward (channel : loc) (h : option bytes) (hp : Z) (o : option bytes) (op : Z)
    (direct : bool) : M unit :=
  match h, o with
  | Some h, Some o =>
    hostCopy ← malloc;
    originCopy ← malloc;
    guard_err (negb hostCopy || negb originCopy) WS_MEMORY_E;;
    st_channel channel (fun c => c <| host := Some (cstr h) |> <| hostPort := hp |>
      <| origin := Some (cstr o) |> <| originPort := op |> <| isDirect := direct |>)
  | _, _ => fail WS_BAD_ARGUMENT
  end.

Definition ChannelAppend (channel : loc) : M unit :=
  s ← get;
  match channelList (chan s) with
  | [] => modify (fun s => s <| chan; channelList := [channel] |> <| chan; channelListSz := 1 |>)
  | _ => modify (fun s => s <| chan; channelList ::= (fun l => l ++ [channel]) |>
                 <| chan; channelListSz ::= (fun n => n +w 1) |>)
  end.

Definition ChannelRemove (channel peer : Z) : M unit :=
  s ← get;
  let list := channelList (chan s) in
  let listSz := channelListSz (chan s) in
  guard_err (match list with [] => true | _ => false end) WS_INVALID_CHANID;;
  found ← ChannelFind channel peer;
  match found with
  | Some l =>
    modify (fun s => s <| chan; channelList ::= remove_first l |>);;
    ChannelDelete l;;
    modify (fun s => s <| chan; channelListSz ::= (fun n => n -w 1) |>)
  | None => guard_err (listSz <=? blen list) WS_INVALID_CHANID
  end.

Definition ChannelPutData (channel : loc) (data : bytes) : M unit :=
  let dataSz := blen data in
  c ← ld_channel channel;
  let inBuf := c_inputBuffer c in
  guard_err (c_windowSz c <? dataSz) WS_FATAL_ERROR;;
  if (b_length inBuf <? bufferSz inBuf) && (b_length inBuf +w dataSz <=? bufferSz inBuf) then
    b ← deref (wr (buffer inBuf) (b_length inBuf) data);
    st_channel channel (fun c => c
      <| c_inputBuffer ::= (fun i => (set_buffer b i) <| b_length ::= (fun n => n +w dataSz) |>) |>
      <| c_windowSz ::= (fun w => w -w dataSz) |>)
  else fail WS_RECV_OVERFLOW_E.

(** Giving back to one channel the window it is due. *)
Lemma chan_inv_due_update due due' own c l ch ch' :
  chan_inv_due due own c -> channels c !! l = Some ch -> channel_room (due' l) ch' ->
  c_channel ch' = c_channel ch -> (forall l', l' <> l -> due' l' = due l') ->
  chan_inv_due due' own (c <| channels ::= <[l := ch']> |>).
Proof.
  intros [] Hch Hok Hid Hdue. split; cbn; try done.
  - intros l'. rewrite <- ci_dom0. destruct (decide (l' = l)) as [->|].
    + rewrite lookup_insert. case_decide; [|done]. rewrite Hch. split; eauto.
    + by rewrite lookup_insert_ne.
  - intros l1 l2 c1 c2. rewrite !lookup_insert. repeat case_decide; subst; try done.
    + intros [= <-] H2 E. by apply (ci_ids0 l1 l2 ch c2); [..|congruence].
    + intros H1 [= <-] E. by apply (ci_ids0 l1 l2 c1 ch); [..|congruence].
    + apply ci_ids0.
  - intros l'. destruct (decide (l' = l)) as [->|]; [intros _; apply ci_fresh0; eauto|].
    rewrite lookup_insert_ne by done. apply ci_fresh0.
  - intros l' c'. rewrite lookup_insert. case_decide; [subst; by intros [= <-]|].
    rewrite Hdue by congruence. apply ci_room0.
Qed.

(** The first listed channel with an id. *)
Definition has_key (c : Channels) (id peer : Z) (l : loc) : bool :=
  match channels c !! l with Some ch => id =? channel_key peer ch | None => false end.
Definition lookup_channel (c : Channels) (id peer : Z) : option loc :=
  List.find (has_key c id peer) (channelList c).

Lemma ld_channel_run l ch s :
  channels (chan s) !! l = Some ch -> ld_channel l s = (Ok ch, s).
Proof. intros E. unfold ld_channel. run. rewrite E. done. Qed.

Lemma st_channel_run l ch f s :
  channels (chan s) !! l = Some ch ->
  st_channel l f s = (Ok tt, s <| chan; channels ::= <[l := f ch]> |>).
Proof. intros E. unfold st_channel. erewrite ST_bind_ok by (by apply ld_channel_run). done. Qed.

Lemma listed_live {due} own c l : chan_inv_due due own c -> l ∈ channelList c -> is_Some (channels c !! l).
Proof. intros Hi Hl. apply (ci_dom own c Hi). apply elem_of_app. by left. Qed.

Lemma ChannelFind_run {due} own id peer s :
  chan_inv_due due own (chan s) ->
  ChannelFind id peer s = (Ok (lookup_channel (chan s) id peer), s).
Proof.
  intros Hi. unfold ChannelFind. run. rewrite (ci_size _ _ Hi). unfold blen. rewrite Nat2Z.id, firstn_all.
  apply find_first_pure. intros l Hl. destruct (listed_live _ _ _ Hi Hl) as [ch Hch].
  unfold has_key. rewrite Hch. by erewrite ST_bind_ok by (by apply ld_channel_run).
Qed.

Lemma lookup_channel_some c id peer l :
  lookup_channel c id peer = Some l ->
  l ∈ channelList c /\ exists ch, channels c !! l = Some ch /\ channel_key peer ch = id.
Proof.
  intros [Hin Hk]%find_some. split; [by apply list_elem_of_In|].
  unfold has_key in Hk. destruct (channels c !! l) as [ch|]; [|done].
  exists ch. split; [done|]. lia.
Qed.

Lemma lookup_channel_none c id peer l ch :
  lookup_channel c id peer = None -> l ∈ channelList c -> channels c !! l = Some ch ->
  channel_key peer ch <> id.
Proof.
  intros Hn Hl Hch. apply list_elem_of_In in Hl.
  pose proof (find_none _ _ Hn l Hl) as Hk. unfold has_key in Hk. rewrite Hch in Hk. lia.
Qed.

(** By its own id a listed channel is found. *)
Lemma lookup_channel_self {due} own c l ch :
  chan_inv_due due own c -> l ∈ channelList c -> channels c !! l = Some ch ->
  lookup_channel c (c_channel ch) WS_CHANNEL_ID_SELF = Some l.
Proof.
  intros Hi Hl Hch. destruct (lookup_channel c (c_channel ch) WS_CHANNEL_ID_SELF) as [l'|] eqn:E.
  - destruct (lookup_channel_some _ _ _ _ E) as (_&ch'&Hch'&Hk). f_equal.
    by apply (ci_ids _ _ Hi l' l ch' ch).
  - by apply (lookup_channel_none _ _ _ _ _ E Hl) in Hch.
Qed.

(** An assignment that keeps the id and the channel's own invariant. *)
Lemma chan_inv_update {due} own c l ch ch' :
  chan_inv_due due own c -> channels c !! l = Some ch -> channel_room (due l) ch' ->
  c_channel ch' = c_channel ch -> chan_inv_due due own (c <| channels ::= <[l := ch']> |>).
Proof. intros. by eapply chan_inv_due_update. Qed.

(** Only the channels have changed, and the supply of memory. *)
Definition chan_only (s s' : WOLFSSH) : Prop :=
  s' = s <| chan := chan s' |> <| mallocs := mallocs s' |>.

Lemma chan_only_refl s : chan_only s s.
Proof. by destruct s. Qed.

Lemma chan_only_trans s1 s2 s3 : chan_only s1 s2 -> chan_only s2 s3 -> chan_only s1 s3.
Proof. unfold chan_only. intros -> ->. done. Qed.

(** ** Creation *)

Lemma chan_inv_next own c n :
  chan_inv own c -> is_word32 n -> chan_inv own (c <| nextChannel := n |>).
Proof. intros [] Hn. by split. Qed.

(** Distinct ids of channels are at most as many as the channels. *)
Lemma ids_bound c tried :
  chan_inv [] c -> NoDup tried ->
  (forall x, x ∈ tried -> exists l ch, channels c !! l = Some ch /\ c_channel ch = x) ->
  (length tried <= length (channelList c))%nat.
Proof.
  intros Hi Hnd Hin.
  assert (exists f : Z -> loc, forall x, x ∈ tried -> exists ch,
    channels c !! f x = Some ch /\ c_channel ch = x) as [f Hf].
  { clear -Hin. induction tried as [|x t IHt].
    { exists (fun _ => 1%positive). intros x Hx. by apply elem_of_nil in Hx. }
    destruct IHt as [f Hf]; [intros y Hy; apply Hin; by right|].
    destruct (Hin x ltac:(left)) as (l&ch&Hl&Hc).
    exists (fun y => if decide (y = x) then l else f y). intros y Hy.
    case_decide as E; [subst; eauto|]. apply Hf. apply elem_of_cons in Hy as [?|?]; done. }
  rewrite <- (length_map f tried). apply NoDup_incl_length.
  - apply NoDup_ListNoDup, NoDup_fmap_2_strong; [|done]. intros x y Hx Hy E.
    destruct (Hf x Hx) as (c1&H1&<-). destruct (Hf y Hy) as (c2&H2&<-). rewrite E in H1. congruence.
  - intros l Hl. apply in_map_iff in Hl as (x&<-&Hx). apply list_elem_of_In in Hx.
    destruct (Hf x Hx) as (ch&Hch&_). apply list_elem_of_In.
    assert (f x ∈ channelList c ++ []) as Hlx by (apply (ci_dom _ _ Hi); eauto).
    by rewrite app_nil_r in Hlx.
Qed.

(** The search for a free id ends within one step more than there are
    channels: the ids tried so far are distinct ids of channels. *)
Lemma ChannelNew_id_run fuel tried s :
  chan_inv [] (chan s) -> NoDup tried ->
  (forall x, x ∈ tried -> exists l ch, channels (chan s) !! l = Some ch /\ c_channel ch = x) ->
  (forall x, x ∈ tried -> exists i, 0 < i <= blen tried /\ x = (nextChannel (chan s) - i) mod 2 ^ 32) ->
  (length (channelList (chan s)) < length tried + fuel)%nat ->
  exists n, ChannelNew_id fuel s = (Ok tt, s <| chan; nextChannel := n |>) /\ is_word32 n /\
    lookup_channel (chan s) n WS_CHANNEL_ID_SELF = None.
Proof.
  revert tried s. induction fuel as [|fuel IH]; intros tried s Hi Hnd Hin Hback Hfuel;
    pose proof (ids_bound _ _ Hi Hnd Hin) as Hle; [lia|].
  cbn [ChannelNew_id]. run. erewrite ST_bind_ok by (by eapply ChannelFind_run).
  destruct (lookup_channel (chan s) (nextChannel (chan s)) WS_CHANNEL_ID_SELF) as [l|] eqn:E.
  2: { exists (nextChannel (chan s)). split; [|split; [apply (ci_next _ _ Hi)|done]].
       run. by destruct s as [? ? ? ? ? ? ? ? ? ? ? ? ? ? ? ? ? ? ? ? ? ? ? ? [] ? ? ? ? ? ?]. }
  run. destruct (lookup_channel_some _ _ _ _ E) as (Hl&ch&Hch&Hk).
  pose proof (ci_next _ _ Hi) as Hw. pose proof (ci_small _ _ Hi) as Hsm.
  set (n := nextChannel (chan s)) in *. unfold is_word32, blen in *.
  destruct (IH (n :: tried) (s <| chan; nextChannel ::= (fun n => n +w 1) |>)) as (m&Hm&Hmw&Hlk).
  - apply chan_inv_next; [done|]. apply wrap32_range.
  - constructor; [|done]. intros Hn. destruct (Hback n Hn) as (i&Hir&Hi2). zdiv.
  - intros x Hx. apply elem_of_cons in Hx as [->|Hx]; [by exists l, ch|by apply Hin].
  - intros x Hx. cbn -[wrap32]. fold n. cbn [length]. apply elem_of_cons in Hx as [->|Hx].
    + exists 1. split; [lia|]. unfold wrap32. zdiv.
    + destruct (Hback x Hx) as (i&Hir&->). exists (i + 1). split; [lia|]. unfold wrap32.
      rewrite Zminus_mod_idemp_l. f_equal. lia.
  - cbn [length]. cbn. lia.
  - exists m. split; [|done]. rewrite Hm. by destruct s as [? ? ? ? ? ? ? ? ? ? ? ? ? ? ? ? ? ? ? ? ? ? ? ? [] ? ? ? ? ? ?].
Qed.

Definition empty_buffer : WOLFSSH_BUFFER :=
  mkBuffer 0 0 STATIC_BUFFER_LEN [] (zeros STATIC_BUFFER_LEN) false.

Lemma new_channel_ok ty id w m :
  is_word32 id -> is_word32 w -> is_word32 m -> channel_ok (new_channel ty id w m empty_buffer).
Proof.
  intros Hid Hw Hm. unfold is_word32 in *.
  split; unfold is_word32; cbn [new_channel c_inputBuffer extDataBuffer c_windowSz c_channel
    peerWindowSz pendingWindowAdjust b_length bufferSz peerMaxPacketSz c_maxPacketSz]; try lia.
  - split; cbn; try done; try lia. unfold buffer. cbn. rewrite blen_zeros; lia.
  - split; vm_compute; intuition congruence.
  - change (blen (unread empty_buffer)) with 0. lia.
Qed.

(** A channel entering the store, unlisted, with [n] as the next id to try. *)
Definition add_channel (ch : WOLFSSH_CHANNEL) (n : Z) (c : Channels) : Channels :=
  c <| channels ::= <[channelNext c := ch]> |> <| nextChannel := n |> <| channelNext ::= Pos.succ |>.

Lemma add_channel_inv ch n c :
  chan_inv [] c -> channel_ok ch -> is_word32 n ->
  lookup_channel c (c_channel ch) WS_CHANNEL_ID_SELF = None ->
  chan_inv [channelNext c] (add_channel ch n c) /\ channels c !! channelNext c = None.
Proof.
  intros [] Hch Hn Hnone. rewrite app_nil_r in *.
  assert (channels c !! channelNext c = None) as Hfr.
  { apply eq_None_not_Some. intros Hs. apply ci_fresh0 in Hs. lia. }
  assert (forall l ch', channels c !! l = Some ch' -> c_channel ch' <> c_channel ch) as Hne.
  { intros l ch' Hl. apply (lookup_channel_none c (c_channel ch) WS_CHANNEL_ID_SELF l); [done| |done].
    apply ci_dom0. eauto. }
  split; [|done]. split; cbn; try done.
  - apply list.NoDup_app. split; [done|]. split; [|apply list.NoDup_singleton].
    intros l Hl ->%list_elem_of_singleton. apply ci_dom0 in Hl. rewrite Hfr in Hl. by destruct Hl.
  - intros l. rewrite elem_of_app, list_elem_of_singleton, <- ci_dom0.
    destruct (decide (l = channelNext c)) as [->|].
    + rewrite lookup_insert. case_decide; [|done]. split; eauto.
    + rewrite lookup_insert_ne by done. split; [auto|]. intros [?|?]; done.
  - intros l1 l2 c1 c2. rewrite !lookup_insert. repeat case_decide; subst; try done.
    + intros [= <-] H2 E. symmetry in E. by apply Hne in H2.
    + intros H1 [= <-] E. by apply Hne in H1.
    + apply ci_ids0.
  - intros l. destruct (decide (l = channelNext c)) as [->|]; [lia|].
    rewrite lookup_insert_ne by done. intros Hl%ci_fresh0. lia.
  - intros l ch'. rewrite lookup_insert. case_decide; [by intros [= <-]|apply ci_room0].
Qed.

(** What creating a channel does: it enters the store, unlisted, under an id of
    its own. *)
Lemma ChannelNew_run ty w m s :
  chan_inv [] (chan s) -> is_word32 w -> is_word32 m ->
  (exists ms, ChannelNew ty w m s = (Ok None, s <| mallocs := ms |>)) \/
  (exists ms id n, let ch := new_channel ty id w m empty_buffer in
     ChannelNew ty w m s
     = (Ok (Some (channelNext (chan s))), s <| mallocs := ms |> <| chan ::= add_channel ch n |>) /\
     chan_inv [channelNext (chan s)] (add_channel ch n (chan s)) /\
     channels (chan s) !! channelNext (chan s) = None).
Proof.
  intros Hi Hw Hm. unfold ChannelNew.
  rewrite (ST_bind_ok _ _ _ _ _ (malloc_run s)). destruct (default true (head (mallocs s))); cbn [negb].
  2: { left. eexists. reflexivity. }
  rewrite (ST_bind_ok _ _ _ _ _ (malloc_run _)).
  destruct (default true (head (mallocs (s <| mallocs := tail (mallocs s) |>)))); cbn [negb].
  2: { left. exists (tail (tail (mallocs s))). by destruct s. }
  right. run. set (s1 := s <| mallocs := _ |> <| mallocs := _ |>).
  destruct (ChannelNew_id_run (S (length (channelList (chan s1)))) [] s1) as (id&Hid&Hidw&Hnone).
  1: exact Hi.
  1: constructor.
  1,2: intros x Hx; by apply elem_of_nil in Hx.
  1: cbn [length]; lia.
  erewrite ST_bind_ok by exact Hid. run.
  exists (tail (tail (mallocs s))), id, (id +w 1). cbv zeta.
  change (BufferInit true 0) with (Ok empty_buffer). cbv iota. run. split.
  { unfold s1, add_channel. reflexivity. }
  apply add_channel_inv; [done|by apply new_channel_ok|apply wrap32_range|exact Hnone].
Qed.

(** ** Listing and removal *)

Lemma ChannelAppend_run l s :
  chan_inv [l] (chan s) -> blen (channelList (chan s)) + 1 < 2 ^ 32 ->
  exists c, ChannelAppend l s = (Ok tt, s <| chan := c |>) /\ chan_inv [] c /\
    c = (chan s) <| channelList := channelList (chan s) ++ [l] |>
          <| channelListSz := blen (channelList (chan s)) + 1 |>.
Proof.
  intros Hi Hsm. eexists. split; [|split; [|reflexivity]].
  - unfold ChannelAppend. run. pose proof (ci_size _ _ Hi) as Hsz.
    destruct (channelList (chan s)) as [|h t] eqn:E.
    + destruct s as [? ? ? ? ? ? ? ? ? ? ? ? ? ? ? ? ? ? ? ? ? ? ? ? [] ? ? ? ? ? ?]. cbn in *. by subst.
    + assert (channelListSz (chan s) +w 1 = blen (h :: t) + 1) as Hw.
      { rewrite Hsz. apply wrap32_small. pose proof (blen_nonneg (h :: t)). lia. }
      rewrite <- Hw. destruct s as [? ? ? ? ? ? ? ? ? ? ? ? ? ? ? ? ? ? ? ? ? ? ? ? [] ? ? ? ? ? ?]. cbn in *. by subst.
  - destruct Hi. split; cbn; rewrite ?app_nil_r; try done; try (rewrite blen_app; done || (change (blen [l]) with 1; done)).
Qed.

Definition drop_channel (l : loc) (c : Channels) : Channels :=
  c <| channels ::= delete l |> <| channelList ::= remove_first l |> <| channelListSz ::= Z.pred |>.

Lemma drop_channel_inv l c :
  chan_inv [] c -> l ∈ channelList c -> chan_inv [] (drop_channel l c).
Proof.
  intros [] Hl. rewrite app_nil_r in *. pose proof (length_remove_first l _ Hl) as Hlen.
  split; cbn; rewrite ?app_nil_r; try done.
  - by apply NoDup_remove_first.
  - intros l'. rewrite elem_of_remove_first, <- ci_dom0 by done. rewrite lookup_delete.
    case_decide; [subst; split; [by intros []|tauto]|]. split; [intros ?; split; congruence|tauto].
  - unfold blen in *. lia.
  - unfold blen in *. lia.
  - intros l1 l2 c1 c2 [_ H1]%lookup_delete_Some [_ H2]%lookup_delete_Some. by apply ci_ids0.
  - intros l' [x [_ Hx]%lookup_delete_Some]. apply ci_fresh0. eauto.
  - intros l' ch [_ Hx]%lookup_delete_Some. by apply ci_room0 in Hx.
Qed.

(** A channel that never entered the list leaves the store. *)
Lemma forget_channel_inv l c : chan_inv [l] c -> chan_inv [] (c <| channels ::= delete l |>).
Proof.
  intros []. pose proof ci_nodup0 as (Hnd&Hdis&_)%list.NoDup_app.
  assert (l ∉ channelList c) as Hl by (intros Hl; by apply (Hdis l Hl), list_elem_of_singleton).
  split; cbn; rewrite ?app_nil_r; try done.
  - intros l'. rewrite lookup_delete. case_decide as E; [subst; split; [by intros []|done]|].
    rewrite ci_dom0, elem_of_app, list_elem_of_singleton.
    split; [intros [?|?]; [done|congruence]|by left].
  - intros l1 l2 c1 c2 [_ H1]%lookup_delete_Some [_ H2]%lookup_delete_Some. by apply ci_ids0.
  - intros l' [x [_ Hx]%lookup_delete_Some]. apply ci_fresh0. eauto.
  - intros l' ch [_ Hx]%lookup_delete_Some. by apply ci_room0 in Hx.
Qed.

(** ** Received data *)

Lemma set_buffer_channel_ok d b :
  buffer_ok b -> blen d = blen (buffer b) -> buffer_ok (set_buffer d b).
Proof.
  intros [] Hd. destruct (set_buffer_fields d b) as (F1&F2&F3&F4).
  split; rewrite ?buffer_set_buffer, ?F1, ?F2, ?F3; try lia.
  revert Hd. unfold set_buffer, buffer in *. destruct (dynamicFlag b); cbn; congruence.
Qed.

(** Appending [data] after what is buffered. *)
Lemma append_in_place b data :
  buffer_ok b -> b_length b + blen data <= bufferSz b ->
  exists d, wr (buffer b) (b_length b) data = Some d /\
    let b' := (set_buffer d b) <| b_length ::= (fun n => n +w blen data) |> in
    buffer_ok b' /\ unread b' = unread b ++ data /\ b_length b' = b_length b + blen data /\
    bufferSz b' = bufferSz b.
Proof.
  intros Hok Hfit. pose proof Hok as []. pose proof (blen_nonneg data).
  destruct (wr_some (buffer b) (b_length b) data) as [d Hd]; [lia|lia|].
  exists d. split; [done|]. pose proof (blen_wr _ _ _ _ Hd) as Hl.
  destruct (set_buffer_channel_ok d b Hok Hl) as [B1 B2 B3 B4 B5].
  destruct (set_buffer_fields d b) as (F1&F2&F3&F4).
  cbv zeta. set (b' := (set_buffer d b) <| b_length ::= (fun n => n +w blen data) |>).
  assert (b_length b' = b_length b + blen data) as Hlen.
  { unfold b'. cbn -[wrap32]. rewrite F1. apply wrap32_small. lia. }
  assert (b_idx b' = b_idx b) as Hidx by exact F2.
  assert (buffer b' = d) as Hbuf by exact (buffer_set_buffer d b).
  assert (bufferSz b' = bufferSz b) as Hsz by exact F3.
  split; [|split; [|done]].
  - split; rewrite ?Hidx, ?Hlen, ?Hbuf, ?Hsz; try lia. exact B5.
  - unfold unread. rewrite Hidx, Hlen, Hbuf.
    rewrite wr_eq in Hd by lia. injection Hd as <-.
    unfold slice, blen in *. rewrite !drop_app_le by (rewrite length_take; lia).
    rewrite take_app. rewrite !length_drop, length_take.
    rewrite (take_ge (drop _ (take _ _))) by (rewrite length_drop, length_take; lia).
    rewrite skipn_firstn_comm. f_equal; [f_equal; lia|].
    rewrite take_app_le by lia. apply take_ge. lia.
Qed.

Lemma channel_ok_window ch b w :
  channel_ok ch -> buffer_ok b -> 0 <= w ->
  w + b_length b + blen (unread (extDataBuffer ch)) = bufferSz b ->
  channel_ok (ch <| c_inputBuffer := b |> <| c_windowSz := w |>).
Proof. intros [] Hb Hw E. split; cbn; try done. lia. Qed.

(** The whole behaviour of [ChannelPutData]. *)
Lemma ChannelPutData_run own l ch data s :
  chan_inv own (chan s) -> channels (chan s) !! l = Some ch ->
  if c_windowSz ch <? blen data then ChannelPutData l data s = (Err WS_FATAL_ERROR, s)
  else if bufferSz (c_inputBuffer ch) <=? b_length (c_inputBuffer ch)
  then ChannelPutData l data s = (Err WS_RECV_OVERFLOW_E, s)
  else exists ch', ChannelPutData l data s = (Ok tt, s <| chan; channels ::= <[l := ch']> |>) /\
    channel_ok ch' /\ unread (c_inputBuffer ch') = unread (c_inputBuffer ch) ++ data /\
    c_windowSz ch' = c_windowSz ch - blen data /\
    ch' = ch <| c_inputBuffer := c_inputBuffer ch' |> <| c_windowSz := c_windowSz ch' |>.
Proof.
  intros Hi Hl. destruct (ci_each _ _ Hi _ _ Hl) as [Hin Hext Hw Hwp Hid Hpe Hpw Hpk].
  unfold ChannelPutData. erewrite ST_bind_ok by (by apply ld_channel_run). run.
  destruct (Z.ltb_spec (c_windowSz ch) (blen data)) as [|Hwd]; [done|].
  destruct (Z.leb_spec (bufferSz (c_inputBuffer ch)) (b_length (c_inputBuffer ch))) as [Hfull|Hroom].
  { rewrite (proj2 (Z.ltb_ge _ _)) by lia. done. }
  pose proof Hin as []. pose proof (blen_nonneg data). pose proof (blen_nonneg (unread (extDataBuffer ch))).
  rewrite (proj2 (Z.ltb_lt _ _)) by lia.
  assert (b_length (c_inputBuffer ch) +w blen data = b_length (c_inputBuffer ch) + blen data) as Hadd
    by (apply wrap32_small; lia).
  rewrite Hadd, (proj2 (Z.leb_le _ _)) by lia. cbn [andb].
  destruct (append_in_place (c_inputBuffer ch) data Hin ltac:(lia)) as (d&Hd&Hok&Hun&Hlen&Hsz).
  rewrite Hd. run. erewrite st_channel_run by done.
  assert (c_windowSz ch -w blen data = c_windowSz ch - blen data) as Hsub by (apply wrap32_small; lia).
  set (b' := (set_buffer d (c_inputBuffer ch)) <| b_length ::= (fun n => n +w blen data) |>) in *.
  exists (ch <| c_inputBuffer := b' |> <| c_windowSz := c_windowSz ch -w blen data |>).
  split; [done|]. split; [|split; [exact Hun|split; [exact Hsub|by destruct ch]]].
  rewrite Hsub. apply channel_ok_window; [by split|done|lia|rewrite Hlen; lia].
Qed.

Section Removal.

(** What a call of a callback that keeps [R] may have done to the
    application's memory. *)
Definition app_kept (R : bytes -> bytes -> Prop) (x y : bytes) : Prop := y = x \/ R x y.

Context (R : bytes -> bytes -> Prop) `{!Callbacks R}.

Lemma chan_delete_insert l c x s :
  s <| chan; channels ::= <[l := c]> |> <| app := x |> <| chan; channels ::= delete l |>
  = s <| chan; channels ::= delete l |> <| app := x |>.
Proof.
  destruct s as [? ? ? ? ? ? ? ? ? ? ? ? ? ? ? ? ? ? ? ? ? ? ? ? [m ? ? ? ? ? ? ?] ? ? ? ? ? ?].
  unfold field_set. cbn. by rewrite delete_insert_eq.
Qed.

Lemma ChannelDelete_run l ch s :
  channels (chan s) !! l = Some ch ->
  exists x, ChannelDelete l s = (Ok tt, s <| chan; channels ::= delete l |> <| app := x |>) /\
    app_kept R (app s) x.
Proof.
  intros Hl. unfold ChannelDelete, NotifyFwdLocalCleanup. run.
  erewrite ST_bind_ok by (by apply ld_channel_run).
  assert (forall b, (ShrinkBuffer true b).1 = Ok tt) as Hsh by (by intros []).
  destruct (negb (fwdSetupTxd ch)); [|destruct fwdCb as [cb|] eqn:Ecb]; run.
  1,3: erewrite ST_bind_ok by (by apply ld_channel_run); rewrite Hsh; run; exists (app s);
    (split; [by destruct s|by left]).
  erewrite ST_bind_ok by (by apply st_channel_run).
  run. set (s1 := s <| chan; channels ::= _ |>).
  destruct (keep_fwd cb WOLFSSH_FWD_LOCAL_CLEANUP None (c_channel ch) Ecb s1) as (a&x&Hq&Hx).
  erewrite ST_bind_ok by exact Hq. run.
  erewrite ST_bind_ok by (apply ld_channel_run; cbn; apply lookup_insert_eq).
  rewrite Hsh. run. exists x. split; [unfold s1; by rewrite chan_delete_insert|by right].
Qed.

Lemma ChannelRemove_run id peer s :
  chan_inv [] (chan s) ->
  match lookup_channel (chan s) id peer with
  | Some l => exists x, ChannelRemove id peer s = (Ok tt, s <| chan ::= drop_channel l |> <| app := x |>) /\
      app_kept R (app s) x
  | None => ChannelRemove id peer s = (Err WS_INVALID_CHANID, s)
  end.
Proof.
  intros Hi. unfold ChannelRemove. run. pose proof (ci_size _ _ Hi) as Hsz.
  destruct (channelList (chan s)) as [|h t] eqn:E.
  { unfold lookup_channel. rewrite E. done. }
  erewrite ST_bind_ok by (by eapply ChannelFind_run).
  destruct (lookup_channel (chan s) id peer) as [l|] eqn:El.
  2: { rewrite Hsz, Z.leb_refl. done. }
  destruct (lookup_channel_some _ _ _ _ El) as (Hin&ch&Hch&_). cbv beta iota. run.
  set (s1 := s <| chan; channelList ::= remove_first l |>).
  destruct (ChannelDelete_run l ch s1 Hch) as (x&Hx&Hk).
  erewrite ST_bind_ok by exact Hx. exists x. split; [|exact Hk]. run. unfold drop_channel.
  assert (channelListSz (chan s) -w 1 = Z.pred (channelListSz (chan s))) as Hw.
  { pose proof (ci_small _ _ Hi) as Hsm. rewrite Hsz. rewrite E in Hsm. rewrite blen_cons in *.
    pose proof (blen_nonneg t). rewrite wrap32_small; lia. }
  unfold s1. destruct s as [? ? ? ? ? ? ? ? ? ? ? ? ? ? ? ? ? ? ? ? ? ? ? ? [] ? ? ? ? ? ?]. cbn in Hw. unfold field_set. cbn -[wrap32]. by rewrite Hw.
Qed.

End Removal.

(** ** Properties *)

(** a new channel. The search for a free id ends whatever ids are in use (also
    after the counter has wrapped); the channel gets an id no other channel of
    the session has and a location of its own, with an empty input buffer of
    exactly the window it will announce, and no other channel changes. Without
    memory nothing does. *)
Theorem ChannelNew_spec ty w m s :
  chan_inv [] (chan s) -> is_word32 w -> is_word32 m ->
  match ChannelNew ty w m s with
  | (Ok (Some l), s') =>
      chan_only s s' /\ chan_inv [l] (chan s') /\ channelList (chan s') = channelList (chan s) /\
      exists ch, channels (chan s') = <[l := ch]> (channels (chan s)) /\ channels (chan s) !! l = None /\
        channelType ch = ty /\ c_windowSz ch = w /\ bufferSz (c_inputBuffer ch) = w /\
        unread (c_inputBuffer ch) = [] /\ openConfirmed ch = false /\
        forall l' ch', channels (chan s) !! l' = Some ch' -> c_channel ch' <> c_channel ch
  | (Ok None, s') => chan_only s s' /\ chan s' = chan s
  | _ => False
  end.
Proof.
  intros Hi Hw Hm. destruct (ChannelNew_run ty w m s Hi Hw Hm) as [[ms ->]|(ms&id&n&->&Hi'&Hfr)].
  { split; [by destruct s|done]. }
  set (ch := new_channel ty id w m empty_buffer) in *.
  split; [by destruct s|]. split; [exact Hi'|]. split; [done|]. exists ch.
  do 7 (split; [done|]). intros l' ch' Hl' E.
  assert (l' = channelNext (chan s)) as ->; [|congruence].
  apply (ci_ids _ _ Hi' l' (channelNext (chan s)) ch' ch); [|apply lookup_insert_eq|done].
  change (<[channelNext (chan s) := ch]> (channels (chan s)) !! l' = Some ch').
  rewrite lookup_insert_ne; [done|]. intros <-. congruence.
Qed.

(** received data. Within the window a channel takes all of it, after what it
    holds, and the window shrinks by its length; beyond the window nothing is
    taken. The buffer cannot overflow: only when it is full, and then only for
    empty data, does the channel refuse what its window allows. *)
Theorem ChannelPutData_spec own l ch data s :
  chan_inv own (chan s) -> channels (chan s) !! l = Some ch ->
  match ChannelPutData l data s with
  | (Ok _, s') => blen data <= c_windowSz ch /\ chan_only s s' /\ chan_inv own (chan s') /\
      exists ch', channels (chan s') = <[l := ch']> (channels (chan s)) /\
        unread (c_inputBuffer ch') = unread (c_inputBuffer ch) ++ data /\
        c_windowSz ch' = c_windowSz ch - blen data /\
        ch' = ch <| c_inputBuffer := c_inputBuffer ch' |> <| c_windowSz := c_windowSz ch' |>
  | (Err e, s') => s' = s /\
      ((e = WS_FATAL_ERROR /\ c_windowSz ch < blen data) \/
       (e = WS_RECV_OVERFLOW_E /\ data = [] /\ c_windowSz ch = 0))
  | (UB, _) => False
  end.
Proof.
  intros Hi Hl. pose proof (ChannelPutData_run own l ch data s Hi Hl) as Hput.
  destruct (ci_each _ _ Hi _ _ Hl) as [Hin _ Hw Hwp _ _ _ _].
  pose proof (blen_nonneg (unread (extDataBuffer ch))). pose proof (blen_nonneg data).
  destruct (Z.ltb_spec (c_windowSz ch) (blen data)); [rewrite Hput; auto|].
  destruct (Z.leb_spec (bufferSz (c_inputBuffer ch)) (b_length (c_inputBuffer ch))).
  { rewrite Hput. split; [done|]. right. pose proof Hin as []. split; [done|].
    split; [|lia]. destruct data; [done|]. rewrite blen_cons in *. pose proof (blen_nonneg data). lia. }
  destruct Hput as (ch'&->&Hok&Hun&Hwin&Hfr). split; [done|].
  split; [by destruct s as [? ? ? ? ? ? ? ? ? ? ? ? ? ? ? ? ? ? ? ? ? ? ? ? [] ? ? ? ? ? ?]|].
  split; [|by exists ch']. apply (chan_inv_update own (chan s) l ch); [done..|]. by rewrite Hfr.
Qed.

(** removing a channel by id frees and unlinks the first listed channel with
    that id, and no other; an id no listed channel has is an error that changes
    nothing. The list, its count and the store stay in step. *)
Theorem ChannelRemove_spec `{!QuietCallbacks} id peer s :
  chan_inv [] (chan s) ->
  match ChannelRemove id peer s with
  | (Ok _, s') => chan_inv [] (chan s') /\
      exists l ch, lookup_channel (chan s) id peer = Some l /\
        channels (chan s) !! l = Some ch /\ channel_key peer ch = id /\
        channels (chan s') = delete l (channels (chan s)) /\
        channelList (chan s') = remove_first l (channelList (chan s))
  | (Err e, s') => e = WS_INVALID_CHANID /\ s' = s /\
      forall l ch, l ∈ channelList (chan s) -> channels (chan s) !! l = Some ch -> channel_key peer ch <> id
  | (UB, _) => False
  end.
Proof.
  intros Hi. pose proof (ChannelRemove_run (fun _ _ => True) id peer s Hi) as Hrem.
  destruct (lookup_channel (chan s) id peer) as [l|] eqn:E.
  - destruct Hrem as (x&->&_). destruct (lookup_channel_some _ _ _ _ E) as (Hl&ch&Hch&Hk).
    split; [by apply drop_channel_inv|]. by exists l, ch.
  - rewrite Hrem. split; [done|]. split; [done|]. intros l ch. by apply lookup_channel_none.
Qed.

End Channels.

(** ** Examples *)

Lemma new_session_no_channel a l : channels (chan (new_session a)) !! l = None.
Proof. apply (lookup_empty (M := gmap loc)). Qed.

Lemma new_session_chan a : chan_inv [] (chan (new_session a)).
Proof.
  split; try done.
  - constructor.
  - intros l. rewrite new_session_no_channel. split; [by intros []|by intros ?%elem_of_nil].
  - intros l [x E]. by rewrite new_session_no_channel in E.
Qed.

Example ChannelNew_spec_witness :
  exists s', @ChannelNew ID_CHANTYPE_SESSION 64 32768 (new_session []) = (Ok (Some 1%positive), s') /\
  chan_inv [1%positive] (chan s').
Proof.
  generalize (ChannelNew_spec ID_CHANTYPE_SESSION 64 32768 (new_session []) (new_session_chan [])
    ltac:(split; vm_compute; congruence) ltac:(split; vm_compute; congruence)).
  destruct (ChannelNew _ _ _ _) as [r s'] eqn:E.
  assert (r = Ok (Some 1%positive)) as -> by (unfold ChannelNew in E; vm_compute in E; congruence).
  intros (_&H&_). by exists s'.
Defined.

(** A session with one channel, of location 1, just opened by us. *)
Definition one_channel : WOLFSSH :=
  let s := (ChannelNew ID_CHANTYPE_SESSION 64 32768 (new_session [])).2 in
  (ChannelAppend 1%positive s).2.

Lemma one_channel_inv : chan_inv [] (chan one_channel).
Proof.
  destruct (ChannelNew_run ID_CHANTYPE_SESSION 64 32768 (new_session []) (new_session_chan [])
    ltac:(split; vm_compute; congruence) ltac:(split; vm_compute; congruence)) as [[ms E]|(ms&id&n&E&Hi&_)].
  { vm_compute in E. discriminate. }
  unfold one_channel. rewrite E. cbv beta zeta. cbn [snd].
  match goal with |- chan_inv [] (chan (ChannelAppend _ ?t).2) =>
    destruct (ChannelAppend_run 1%positive t Hi ltac:(vm_compute; reflexivity)) as (c&->&Hc&_) end.
  exact Hc.
Qed.

Example ChannelPutData_spec_witness :
  exists s', ChannelPutData 1%positive [7; 8; 9] one_channel = (Ok tt, s') /\
  exists ch', channels (chan s') !! 1%positive = Some ch' /\ unread (c_inputBuffer ch') = [7; 8; 9].
Proof.
  destruct (channels (chan one_channel) !! 1%positive) as [ch|] eqn:Ech; [|vm_compute in Ech; discriminate].
  generalize (ChannelPutData_spec [] 1%positive ch [7; 8; 9] one_channel one_channel_inv Ech).
  destruct (ChannelPutData 1%positive [7; 8; 9] one_channel) as [r s'] eqn:E.
  assert (r = Ok tt) as -> by (vm_compute in E; congruence).
  intros (_&_&_&ch'&Hs&Hun&_). exists s'. split; [reflexivity|]. exists ch'.
  split; [rewrite Hs; reflexivity|]. rewrite Hun.
  vm_compute in Ech. injection Ech as <-. reflexivity.
Defined.

Example ChannelRemove_spec_witness :
  exists s', @ChannelRemove server 0 WS_CHANNEL_ID_SELF one_channel = (Ok tt, s') /\
  chan_inv [] (chan s') /\ channelList (chan s') = [].
Proof.
  generalize (@ChannelRemove_spec server _ 0 WS_CHANNEL_ID_SELF one_channel one_channel_inv).
  destruct (@ChannelRemove server 0 WS_CHANNEL_ID_SELF one_channel) as [r s'] eqn:E.
  assert (r = Ok tt) as -> by (vm_compute in E; congruence).
  intros (Hi&_). exists s'. split; [reflexivity|]. split; [exact Hi|].
  vm_compute in E. injection E as <-. reflexivity.
Defined.
