(* ===== verification/Send.v ===== *)
(** The messages the connection protocol sends (internal.c): each sender checks
    its state, composes one payload and queues and flushes it with the
    transport; and the receive-window credit a channel owes its peer.

    A sender's payload is written between [PreparePacket], given its size, and
    [BundlePacket]; a return code and a count of bytes share the C result, here a
    failure or a value. *)

From S2P Require Import Prelude Codes Wire Names Buffer Fwd Algos Kdf Session Samples MsgFilter Transport.
From S2P Require Import Channels.

Section Send.
Context `{CTX} `{Crypto}.

(** A string of a message: its length and its bytes. *)
Definition wstring (s : bytes) : bytes := c32toa (blen s) ++ s.

Definition SendUnimplemented : M unit :=
  s ← get;
  send_packet (MSG_ID_SZ + LENGTH_SZ) ([MSGID_UNIMPLEMENTED] ++ c32toa (peerSeq (rx s))).

Definition SendDisconnect (reason : Z) : M unit :=
  modify (fun s => s <| disconnected := true |>);;
  send_payload (MSG_ID_SZ + UINT32_SZ + LENGTH_SZ * 2)
    ([MSGID_DISCONNECT] ++ c32toa reason ++ c32toa 0 ++ c32toa 0);;
  modify (fun s => s <| disconnectTxd := true |>);;
  wolfSSH_SendPacket.

Definition SendIgnore (data : bytes) : M unit :=
  send_packet (MSG_ID_SZ +w LENGTH_SZ +w blen data) ([MSGID_IGNORE] ++ wstring data).

(** The result and [*sent]. *)
Definition SendGlobalRequest (data : bytes) (reply : Z) : M (Z * bool) :=
  let dataSz := blen data in
  r ← code (send_payload (MSG_ID_SZ +w LENGTH_SZ +w dataSz +w BOOLEAN_SZ)
              ([MSGID_GLOBAL_REQUEST] ++ wstring data ++ [reply]));
  if truthy r then mret (r, false)
  else
    s ← get;
    let flushes := txFlushCount (tx s) in
    r ← code wolfSSH_SendPacket;
    sent ← SendPacketDelivered flushes r;
    mret (r, sent).

(** [bindAddr] is a C string, or [None] for a null pointer; [pend] the
    bookkeeping [FwdRemotePrepare] built. *)
Definition SendGlobalRequestFwd (bindAddr : option bytes) (bindPort : Z) (isCancel wantReply : bool)
    (pend : loc) : M unit :=
  r ← (match bindAddr with
       | None => mret (WS_BAD_ARGUMENT, false)
       | Some bindAddr =>
         let reqName := if isCancel then str "cancel-tcpip-forward" else str "tcpip-forward" in
         let bindAddr := cstr bindAddr in
         r ← code (send_payload (MSG_ID_SZ +w LENGTH_SZ +w blen reqName +w BOOLEAN_SZ +w LENGTH_SZ
                                 +w blen bindAddr +w UINT32_SZ)
                     ([MSGID_GLOBAL_REQUEST] ++ wstring reqName ++ [b2z wantReply]
                      ++ wstring bindAddr ++ c32toa bindPort));
         if truthy r then mret (r, false)
         else
           s ← get;
           let flushes := txFlushCount (tx s) in
           r ← code SendPacketFlush;
           sent ← SendPacketDelivered flushes r;
           mret (r, sent)
       end);
  let '(ret, sent) := (r : Z * bool) in
  on_fwd (if sent then FwdPendingCommit pend else FwdPendingDiscard pend);;
  if truthy ret then fail ret
  else
    r ← HighwaterCheck WOLFSSH_HWSIDE_TRANSMIT;
    ret_code r.

Definition SendRequestSuccess (success : bool) : M unit :=
  send_packet MSG_ID_SZ [if success then MSGID_REQUEST_SUCCESS else MSGID_REQUEST_FAILURE].

Definition SendGlobalRequestFwdSuccess (success : bool) (port : Z) : M unit :=
  send_packet (MSG_ID_SZ + (if success then UINT32_SZ else 0))
    (if success then [MSGID_REQUEST_SUCCESS] ++ c32toa port else [MSGID_REQUEST_FAILURE]).

(** ** Opening *)

Definition SendChannelOpen (channel : loc) (channelData : bytes) : M unit :=
  c ← ld_channel channel;
  let channelType := IdToName (channelType c) in
  send_packet (MSG_ID_SZ +w LENGTH_SZ +w blen channelType +w (UINT32_SZ * 3) +w blen channelData)
    ([MSGID_CHANNEL_OPEN] ++ wstring channelType ++ c32toa (c_channel c) ++ c32toa (c_windowSz c)
     ++ c32toa (c_maxPacketSz c) ++ channelData).

Definition SendChannelOpenSession (channel : loc) : M unit := SendChannelOpen channel [].

Definition SendChannelOpenForward (channel : loc) : M unit :=
  c ← ld_channel channel;
  match host c, origin c with
  | Some h, Some o =>
    forwardData ← malloc;
    guard_err (negb forwardData) WS_MEMORY_E;;
    SendChannelOpen channel
      (wstring (cstr h) ++ c32toa (hostPort c) ++ wstring (cstr o) ++ c32toa (originPort c))
  | _, _ => fail WS_BAD_ARGUMENT
  end.

Definition SendChannelOpenConf (channel : loc) : M unit :=
  c ← ld_channel channel;
  send_packet (MSG_ID_SZ + UINT32_SZ * 4)
    ([MSGID_CHANNEL_OPEN_CONF] ++ c32toa (peerChannel c) ++ c32toa (c_channel c)
     ++ c32toa (c_windowSz c) ++ c32toa (c_maxPacketSz c)).

Definition SendChannelOpenFail (channel reason : Z) (description language : bytes) : M unit :=
  send_packet (MSG_ID_SZ +w UINT32_SZ +w UINT32_SZ +w LENGTH_SZ +w blen description +w LENGTH_SZ
               +w blen language)
    ([MSGID_CHANNEL_OPEN_FAIL] ++ c32toa channel ++ c32toa reason ++ wstring description
     ++ wstring language).

(** ** Closing *)

(** The flush of a message whose sending is recorded on the channel, unless the
    send threw the buffer away. *)
Definition send_and_mark (channel : loc) (mark : WOLFSSH_CHANNEL -> WOLFSSH_CHANNEL) : M unit :=
  ret ← code wolfSSH_SendPacket;
  s ← get;
  when (negb (ret =? WS_SOCKET_ERROR_E) || wolfSSH_OutputPending s) (st_channel channel mark);;
  ret_code ret.

Definition SendChannelEof (peerChannelId : Z) : M unit :=
  allowed ← IsMessageAllowed MSGID_CHANNEL_EOF WS_MSG_SEND;
  guard_err (negb allowed) WS_MSGID_NOT_ALLOWED_E;;
  channel ← ChannelFind peerChannelId WS_CHANNEL_ID_PEER;
  match channel with
  | None => fail WS_INVALID_CHANID
  | Some channel =>
    c ← ld_channel channel;
    if eofTxd c then mret tt
    else
      send_payload (MSG_ID_SZ + UINT32_SZ) ([MSGID_CHANNEL_EOF] ++ c32toa (peerChannel c));;
      send_and_mark channel (fun c => c <| eofTxd := true |>)
  end.

Definition SendChannelEow (peerChannelId : Z) : M unit :=
  s ← get;
  if negb (clientOpenSSH s) then mret tt
  else
    channel ← ChannelFind peerChannelId WS_CHANNEL_ID_PEER;
    match channel with
    | None => fail WS_INVALID_CHANID
    | Some channel =>
      c ← ld_channel channel;
      let name := str "eow@openssh.com" in
      send_packet (MSG_ID_SZ + UINT32_SZ + LENGTH_SZ + blen name + BOOLEAN_SZ)
        ([MSGID_CHANNEL_REQUEST] ++ c32toa (peerChannel c) ++ wstring name ++ [0])
    end.

Definition SendChannelExit (peerChannelId status : Z) : M unit :=
  channel ← ChannelFind peerChannelId WS_CHANNEL_ID_PEER;
  match channel with
  | None => fail WS_INVALID_CHANID
  | Some channel =>
    c ← ld_channel channel;
    let name := str "exit-status" in
    send_packet (MSG_ID_SZ + UINT32_SZ + LENGTH_SZ + blen name + BOOLEAN_SZ + UINT32_SZ)
      ([MSGID_CHANNEL_REQUEST] ++ c32toa (peerChannel c) ++ wstring name ++ [0] ++ c32toa status)
  end.

Definition SendChannelClose (peerChannelId : Z) : M unit :=
  channel ← ChannelFind peerChannelId WS_CHANNEL_ID_PEER;
  match channel with
  | None => fail WS_INVALID_CHANID
  | Some channel =>
    c ← ld_channel channel;
    if closeTxd c then mret tt
    else
      send_payload (MSG_ID_SZ + UINT32_SZ) ([MSGID_CHANNEL_CLOSE] ++ c32toa (peerChannel c));;
      send_and_mark channel (fun c => c <| closeTxd := true |>)
  end.

(** ** Data *)

(** What both data senders do before they frame anything: no data while keying,
    earlier output first, then the channel, whose window must be open. *)
Definition data_channel (channelId : Z) : M loc :=
  let keying : M unit :=
    s ← get;
    if truthy (isKeying s)
    then modify (fun s => s <| error := WS_REKEYING |>);; fail WS_REKEYING
    else mret tt in
  keying;;
  s ← get;
  when (wolfSSH_OutputPending s) wolfSSH_SendPacket;;
  keying;;
  channel ← ChannelFind channelId WS_CHANNEL_ID_SELF;
  match channel with
  | None => fail WS_INVALID_CHANID
  | Some channel =>
    c ← ld_channel channel;
    guard_err (eofTxd c) WS_EOF;;
    if peerWindowSz c =? 0
    then modify (fun s => s <| error := WS_WINDOW_FULL |>);; fail WS_WINDOW_FULL
    else mret channel
  end.

(** The rest of both: at most what the window and both packet limits allow, with
    [head] before the data. The result is the number of bytes taken. *)
Definition send_data (channel : loc) (headSz : Z) (head : WOLFSSH_CHANNEL -> bytes) (data : bytes) : M Z :=
  c ← ld_channel channel;
  let bound := min (peerWindowSz c) (peerMaxPacketSz c) in
  let bound := min bound (c_maxPacketSz c) in
  let dataSz := blen data in
  if (bound =? 0) && truthy dataSz
  then modify (fun s => s <| error := WS_WINDOW_FULL |>);; fail WS_WINDOW_FULL
  else
    let dataSz := if bound <? dataSz then bound else dataSz in
    send_payload (headSz +w LENGTH_SZ +w dataSz) (head c ++ wstring (slice data 0 dataSz));;
    st_channel channel (fun c => c <| peerWindowSz ::= (fun w => w -w dataSz) |>);;
    ret ← code wolfSSH_SendPacket;
    if (ret =? WS_SUCCESS) || (ret =? WS_WANT_WRITE) then mret dataSz else fail ret.

Definition SendChannelData (channelId : Z) (data : bytes) : M Z :=
  channel ← data_channel channelId;
  send_data channel (MSG_ID_SZ + UINT32_SZ)
    (fun c => [MSGID_CHANNEL_DATA] ++ c32toa (peerChannel c)) data.

Definition SendChannelExtendedData (channelId : Z) (data : bytes) : M Z :=
  channel ← data_channel channelId;
  send_data channel (MSG_ID_SZ + UINT32_SZ + UINT32_SZ)
    (fun c => [MSGID_CHANNEL_EXTENDED_DATA] ++ c32toa (peerChannel c)
              ++ c32toa CHANNEL_EXTENDED_DATA_STDERR) data.

(** ** Window credit *)

(** [*bundled] and the return code. *)
Definition SendChannelWindowAdjust (channelId bytesToAdd : Z) : M (bool * Z) :=
  allowed ← IsMessageAllowed MSGID_CHANNEL_WINDOW_ADJUST WS_MSG_SEND;
  channel ← ChannelFind channelId WS_CHANNEL_ID_SELF;
  match channel with
  | None => mret (false, WS_INVALID_CHANID)
  | Some channel =>
    if negb allowed then mret (false, WS_MSGID_NOT_ALLOWED_E)
    else
      c ← ld_channel channel;
      ret ← code (send_payload (MSG_ID_SZ + UINT32_SZ * 2)
                    ([MSGID_CHANNEL_WINDOW_ADJUST] ++ c32toa (peerChannel c) ++ c32toa bytesToAdd));
      if truthy ret then mret (false, ret)
      else
        ret ← code wolfSSH_SendPacket;
        mret (true, ret)
  end.

Definition ChannelCreditWindow (channel : loc) (amount : Z) : M unit :=
  c ← ld_channel channel;
  guard_err (UINT32_MAX -w pendingWindowAdjust c <? amount) WS_OVERFLOW_E;;
  let total := pendingWindowAdjust c +w amount in
  if total =? 0 then mret tt
  else
    s ← get;
    if truthy (isKeying s) || disconnected s
    then st_channel channel (fun c => c <| pendingWindowAdjust := total |>)
    else
      st_channel channel (fun c => c <| pendingWindowAdjust := 0 |>);;
      '(bundled, ret) ← SendChannelWindowAdjust (c_channel c) total;
      when (negb bundled || (ret =? WS_SOCKET_ERROR_E))
        (st_channel channel (fun c => c <| pendingWindowAdjust := total |>));;
      ret_code ret.

(** The first error of the channels; the loop goes over the channels listed when
    it starts. *)
Fixpoint credit_all (l : list loc) (ret : Z) : M Z :=
  match l with
  | [] => mret ret
  | cur :: r =>
    c ← ld_channel cur;
    if negb (pendingWindowAdjust c =? 0) then
      adjustResult ← code (ChannelCreditWindow cur 0);
      credit_all r (if truthy adjustResult && (ret =? WS_SUCCESS) then adjustResult else ret)
    else credit_all r ret
  end.

Definition SendPendingChannelWindowAdjust : M unit :=
  s ← get;
  if truthy (isKeying s) then mret tt
  else
    let savedError := error s in
    ret ← credit_all (channelList (chan s)) WS_SUCCESS;
    modify (fun s => s <| error := if ret =? WS_SUCCESS then savedError else ret |>);;
    ret_code ret.

(** ** Requests and their answers *)

(** [name] is the command of an exec and the name of a subsystem. *)
Definition SendChannelRequest (name : bytes) : M unit :=
  let nameSz := blen name in
  s ← get;
  channel ← ChannelFind (defaultPeerChannelId (chan s)) WS_CHANNEL_ID_PEER;
  match channel with
  | None => fail WS_INVALID_CHANID
  | Some channel =>
    s ← get;
    let ty := connectChannelId (chan s) in
    cType ← (if ty =? WOLFSSH_SESSION_SHELL then mret (str "shell")
             else if ty =? WOLFSSH_SESSION_EXEC then mret (str "exec")
             else if ty =? WOLFSSH_SESSION_SUBSYSTEM then mret (str "subsystem")
             else fail WS_BAD_ARGUMENT);
    c ← ld_channel channel;
    send_packet (MSG_ID_SZ +w UINT32_SZ +w LENGTH_SZ +w blen cType +w BOOLEAN_SZ
                 +w (if 0 <? nameSz then UINT32_SZ else 0) +w nameSz)
      ([MSGID_CHANNEL_REQUEST] ++ c32toa (peerChannel c) ++ wstring cType ++ [1]
       ++ (if 0 <? nameSz then wstring name else []))
  end.

Definition SendChannelSuccess (channelId : Z) (success : bool) : M unit :=
  channel ← ChannelFind channelId WS_CHANNEL_ID_SELF;
  match channel with
  | None => fail WS_INVALID_CHANID
  | Some channel =>
    c ← ld_channel channel;
    send_packet (MSG_ID_SZ + UINT32_SZ)
      ([if success then MSGID_CHANNEL_SUCCESS else MSGID_CHANNEL_FAILURE] ++ c32toa (peerChannel c))
  end.

(** ** Messages *)

Context `{!CryptoSizes} (wire : bytes -> bytes) (retries : bytes -> nat) `{!Network wire retries}.

(** The session can still queue and flush [k] bytes. *)
Record can_send (k : Z) (s : WOLFSSH) : Prop := {
  cs_tx : tx_ok (tx s);
  cs_size : blen (unread (outputBuffer (tx s))) + k <= 2 ^ 32;
  cs_turns : Z.of_nat (flush_turns retries s) + k < Z.of_nat io_fuel
}.

Lemma can_send_weaken k k' s : can_send k s -> k' <= k -> can_send k' s.
Proof. intros [] Hk. split; [done|lia|lia]. Qed.

(** What sending may change in a session. *)
Definition send_only (s s' : WOLFSSH) : Prop :=
  s' = s <| tx := tx s' |> <| error := error s' |> <| connReset := connReset s' |>
         <| isClosed := isClosed s' |> <| disconnectTxd := disconnectTxd s' |>
         <| highwaterFlag := highwaterFlag s' |> <| msgHighwaterFlag := msgHighwaterFlag s' |>
         <| app := app s' |> <| mallocs := mallocs s' |>.

Lemma send_only_refl s : send_only s s.
Proof. by destruct s. Qed.

Lemma send_only_trans s1 s2 s3 : send_only s1 s2 -> send_only s2 s3 -> send_only s1 s3.
Proof. unfold send_only. intros -> ->. done. Qed.

Lemma tx_send_only s s' : tx_only s s' -> send_only s s'.
Proof. unfold tx_only, send_only. intros ->. done. Qed.

Lemma sent_send_only s s' : sent_only s s' -> send_only s s'.
Proof. unfold sent_only, send_only. intros ->. done. Qed.

Lemma send_only_chan s s' : send_only s s' -> chan s' = chan s.
Proof. unfold send_only. by intros ->. Qed.

Lemma packet_size t w wr :
  suite_ok (encryptId t) (aeadMode t) (macId t) (blockSz t) (macSz t) (keys t) ->
  packet_of t w wr -> blen wr <= blen w + 128.
Proof.
  intros Hsu (p&Hp&_&_&_&->). destruct (out_only_pad _ Hsu) as (?&?&_). clia.
Qed.

(** Queueing a message. *)
Lemma frame_run k n w s :
  can_send k s -> blen w <= n -> n + 256 <= k ->
  match send_payload n w s with
  | (Ok _, s') => send_only s s' /\ can_send (k - blen w - 128) s' /\
      exists frame, packet_of (tx s) w frame /\ stream wire s' = stream wire s ++ frame
  | (Err e, s') => send_only s s' /\ can_send k s' /\ stream wire s' = stream wire s
  | (UB, _) => False
  end.
Proof.
  intros [Hok Hs Ht] Hw Hk. pose proof (send_payload_ok n w s Hok Hw ltac:(lia)) as Hp.
  destruct (send_payload n w s) as [[[]|e|] s']; [..|done].
  - destruct Hp as (F&_&Hok'&frame&Hf&Hu&_). split; [by apply tx_send_only|].
    assert (app s' = app s) as Happ by (unfold tx_only in F; by rewrite F).
    pose proof (packet_size _ _ _ (tx_suite _ Hok) Hf) as Hsz.
    split.
    + split; [done|rewrite Hu, blen_app; lia|].
      unfold flush_turns in *. rewrite Happ, Hu, length_app. unfold blen in *. lia.
    + exists frame. split; [done|]. unfold stream. by rewrite Happ, Hu, app_assoc.
  - destruct Hp as (F&_&Hok'&Hu&_). split; [by apply tx_send_only|].
    assert (app s' = app s) as Happ by (unfold tx_only in F; by rewrite F).
    unfold stream, flush_turns in *. rewrite Happ, Hu. split; [|done].
    split; [done|by rewrite Hu|]. unfold flush_turns. by rewrite Happ, Hu.
Qed.

(** Flushing. *)
Lemma flush_run k s :
  can_send k s -> 0 <= k ->
  match wolfSSH_SendPacket s with
  | (Ok _, s') => send_only s s' /\ can_send k s' /\ stream wire s' = stream wire s
  | (Err e, s') => send_only s s' /\ can_send k s' /\
      exists lost, stream wire s' ++ lost = stream wire s /\ (e <> WS_SOCKET_ERROR_E -> lost = [])
  | (UB, _) => False
  end.
Proof.
  intros [[Hok Hsu] Hs Ht] Hk.
  pose proof (wolfSSH_SendPacket_run wire retries s Hok ltac:(lia)) as Hw.
  assert (forall s', sent_only s s' -> buffer_ok (outputBuffer (tx s')) ->
    (retries (app s') <= retries (app s))%nat ->
    (length (unread (outputBuffer (tx s'))) <= length (unread (outputBuffer (tx s))))%nat -> can_send k s') as Hcs.
  { intros s' Hf Hb Hr Hl. split.
    - split; [done|]. unfold sent_only in Hf. rewrite Hf. done.
    - unfold blen in *. lia.
    - unfold flush_turns in *. lia. }
  destruct (wolfSSH_SendPacket s) as [[[]|e|] s']; [..|done].
  - destruct Hw as (F&Hb&Hr&Hst&Hu). split; [by apply sent_send_only|]. split; [|done].
    apply Hcs; [done..|]. rewrite Hu. cbn. lia.
  - destruct Hw as (F&Hb&Hr&Hl&Hlost). split; [by apply sent_send_only|]. split; [by apply Hcs|done].
Qed.

(** What sending one message of payload [w] leaves. *)
Definition message_post (s : WOLFSSH) (w : bytes) (r : res unit) (s' : WOLFSSH) : Prop :=
  send_only s s' /\
  exists lost frame, stream wire s' ++ lost = stream wire s ++ frame /\
    (frame = [] \/ packet_of (tx s) w frame) /\
    match r with
    | Ok _ => lost = [] /\ packet_of (tx s) w frame
    | Err e => e <> WS_SOCKET_ERROR_E -> lost = []
    | UB => False
    end.

Lemma send_packet_run k n w s :
  can_send k s -> blen w <= n -> n + 256 <= k ->
  can_send (k - blen w - 128) (send_packet n w s).2 /\
  message_post s w (send_packet n w s).1 (send_packet n w s).2.
Proof.
  intros Hcs Hw Hk. pose proof (frame_run k n w s Hcs Hw Hk) as Hf. unfold send_packet.
  pose proof (blen_nonneg w).
  destruct (send_payload n w s) as [[[]|e|] s1] eqn:E; [..|done].
  - erewrite !ST_bind_ok by exact E. destruct Hf as (F&Hcs1&frame&Hp&Hst).
    pose proof (flush_run _ s1 Hcs1 ltac:(lia)) as Hfl.
    destruct (wolfSSH_SendPacket s1) as [[[]|e|] s2]; [..|done]; cbn [fst snd].
    + destruct Hfl as (F2&Hcs2&Hst2). split; [done|]. split; [by eapply send_only_trans|].
      exists [], frame. rewrite app_nil_r, Hst2. split; [done|]. split; [by right|done].
    + destruct Hfl as (F2&Hcs2&lost&Hst2&Hl). split; [done|]. split; [by eapply send_only_trans|].
      exists lost, frame. rewrite Hst2. split; [done|]. split; [by right|done].
  - erewrite !ST_bind_err by exact E. destruct Hf as (F&Hcs1&Hst). cbn [fst snd].
    split; [eapply can_send_weaken; [done|lia]|]. split; [done|]. exists [], [].
    rewrite !app_nil_r. split; [done|]. split; [by left|done].
Qed.

(** ** Flow control *)

Lemma send_only_error s e : send_only s (s <| error := e |>).
Proof. by destruct s. Qed.

Lemma data_channel_run k id s :
  can_send k s -> 0 <= k -> chan_inv [] (chan s) ->
  match data_channel id s with
  | (Ok l, s') => send_only s s' /\ can_send k s' /\ stream wire s' = stream wire s /\ isKeying s = 0 /\
      exists ch, channels (chan s) !! l = Some ch /\ lookup_channel (chan s) id WS_CHANNEL_ID_SELF = Some l /\
        eofTxd ch = false /\ peerWindowSz ch <> 0
  | (Err e, s') => send_only s s' /\
      exists lost, stream wire s' ++ lost = stream wire s /\ (e <> WS_SOCKET_ERROR_E -> lost = [])
  | (UB, _) => False
  end.
Proof.
  intros Hcs Hk Hi. unfold data_channel. cbv zeta. rewrite st_assoc, st_get, st_if. unfold truthy.
  destruct (Z.eqb_spec (isKeying s) 0) as [Hkey|Hkey]; cbn [negb].
  2: { run. split; [apply send_only_error|]. exists []. by rewrite app_nil_r. }
  rewrite st_ret, st_get.
  assert (exists r s1, when (wolfSSH_OutputPending s) wolfSSH_SendPacket s = (r, s1) /\
    send_only s s1 /\ can_send k s1 /\
    match r with
    | Ok _ => stream wire s1 = stream wire s
    | Err e => exists lost, stream wire s1 ++ lost = stream wire s /\ (e <> WS_SOCKET_ERROR_E -> lost = [])
    | UB => False
    end) as (r&s1&E&F&Hcs1&Hst).
  { destruct (wolfSSH_OutputPending s); unfold when.
    - pose proof (flush_run k s Hcs Hk) as Hf.
      destruct (wolfSSH_SendPacket s) as [[[]|e|] s1]; [..|done]; eexists _, s1; (split; [done|]); tauto.
    - exists (Ok tt), s. split; [done|]. split; [apply send_only_refl|done]. }
  destruct r as [[]|e|]; [|by erewrite ST_bind_err by exact E|done].
  erewrite ST_bind_ok by exact E. run.
  assert (isKeying s1 = isKeying s) as Hk1 by (unfold send_only in F; by rewrite F).
  pose proof (send_only_chan _ _ F) as Hc1.
  rewrite Hk1, Hkey. cbn [Z.eqb negb]. run.
  rewrite <- Hc1 in Hi. erewrite ST_bind_ok by (by eapply ChannelFind_run). rewrite Hc1.
  destruct (lookup_channel (chan s) id WS_CHANNEL_ID_SELF) as [l|] eqn:El.
  2: { split; [done|]. exists []. by rewrite app_nil_r. }
  destruct (lookup_channel_some _ _ _ _ El) as (_&ch&Hch&_).
  erewrite ST_bind_ok by (apply ld_channel_run; by rewrite Hc1). run.
  destruct (eofTxd ch) eqn:Eeof.
  { split; [done|]. exists []. by rewrite app_nil_r. }
  destruct (Z.eqb_spec (peerWindowSz ch) 0); run.
  { split; [eapply send_only_trans; [done|apply send_only_error]|]. exists []. by rewrite app_nil_r. }
  do 4 (split; [done|]). by exists ch.
Qed.

(** A channel's peer window after [n] bytes of data. *)
Definition charged (ch : WOLFSSH_CHANNEL) (n : Z) : WOLFSSH_CHANNEL :=
  ch <| peerWindowSz := peerWindowSz ch - n |>.

Lemma charged_inv own c l ch n :
  chan_inv own c -> channels c !! l = Some ch -> 0 <= n <= peerWindowSz ch ->
  chan_inv own (c <| channels ::= <[l := charged ch n]> |>).
Proof.
  intros Hi Hl Hn. apply (chan_inv_update own c l ch); [done..| |done].
  destruct (ci_each _ _ Hi _ _ Hl) as [H1' H2' H3' H4' H5' H6' H7' H8'].
  split; unfold charged, is_word32 in *; cbn; try done. lia.
Qed.

(** How many bytes of data a channel may send. *)
Definition sendable (ch : WOLFSSH_CHANNEL) (dataSz : Z) : Z :=
  Z.min dataSz (Z.min (Z.min (peerWindowSz ch) (peerMaxPacketSz ch)) (c_maxPacketSz ch)).

(** What a data message leaves: [n] bytes were taken, charged to the peer's
    window and framed after what was queued before; or, on an error, nothing
    changed but a flush, or the message was framed whole and then lost or
    reported. *)
Definition data_post (s : WOLFSSH) (id : Z) (head : WOLFSSH_CHANNEL -> bytes) (data : bytes)
    (r : res Z) (s' : WOLFSSH) : Prop :=
  let framed n lost := exists l ch t frame,
    lookup_channel (chan s) id WS_CHANNEL_ID_SELF = Some l /\ channels (chan s) !! l = Some ch /\
    isKeying s = 0 /\ eofTxd ch = false /\ n = sendable ch (blen data) /\
    chan s' = (chan s) <| channels ::= <[l := charged ch n]> |> /\ chan_inv [] (chan s') /\
    packet_of t (head ch ++ wstring (slice data 0 n)) frame /\
    stream wire s' ++ lost = stream wire s ++ frame in
  match r with
  | Ok n => framed n []
  | Err e => exists lost, (e <> WS_SOCKET_ERROR_E -> lost = []) /\
      ((chan s' = chan s /\ stream wire s' ++ lost = stream wire s) \/
       (e <> WS_WANT_WRITE /\ exists n, framed n lost))
  | UB => False
  end.

Lemma min_Zmin a b : min a b = Z.min a b.
Proof. unfold min. destruct (Z.ltb_spec b a); lia. Qed.

Lemma blen_wstring d : blen (wstring d) = 4 + blen d.
Proof. unfold wstring. rewrite blen_app. done. Qed.

Lemma blen_slice_prefix d n : 0 <= n <= blen d -> blen (slice d 0 n) = n.
Proof. intros. apply blen_slice; lia. Qed.

(** Both data senders. *)
Lemma send_channel_data k id headSz head data s :
  can_send k s -> chan_inv [] (chan s) ->
  (forall c, blen (head c) = headSz) -> 0 <= headSz <= 16 -> blen data + 512 <= k ->
  data_post s id head data
    ((data_channel id ≫= (fun channel => send_data channel headSz head data)) s).1
    ((data_channel id ≫= (fun channel => send_data channel headSz head data)) s).2.
Proof.
  intros Hcs Hi Hhead Hh Hk. pose proof (blen_nonneg data).
  pose proof (data_channel_run k id s Hcs ltac:(lia) Hi) as Hd.
  destruct (data_channel id s) as [[l|e|] s1] eqn:E; [| |done].
  2: { erewrite !ST_bind_err by exact E. destruct Hd as (F&lost&Hst&Hl). exists lost.
       split; [done|]. left. split; [by apply send_only_chan|done]. }
  erewrite !ST_bind_ok by exact E.
  destruct Hd as (F&Hcs1&Hst&Hkey&ch&Hch&Hlk&Heof&Hwin).
  pose proof (send_only_chan _ _ F) as Hc.
  destruct (ci_each _ _ Hi _ _ Hch) as [_ _ _ _ _ Hpw _ [Hpm Hm]]. unfold is_word32 in *.
  set (R := send_data l headSz head data s1). unfold send_data in R. unfold R; clear R.
  erewrite !ST_bind_ok by (apply ld_channel_run; by rewrite Hc). run. rewrite !min_Zmin.
  set (bound := Z.min (Z.min (peerWindowSz ch) (peerMaxPacketSz ch)) (c_maxPacketSz ch)).
  destruct ((bound =? 0) && truthy (blen data)); run.
  { exists []. rewrite app_nil_r. split; [done|]. left. split; [done|exact Hst]. }
  set (n := if bound <? blen data then bound else blen data).
  assert (n = sendable ch (blen data)) as Hn.
  { unfold n, sendable. fold bound. destruct (Z.ltb_spec bound (blen data)); lia. }
  assert (0 <= n <= blen data) as Hnr by (rewrite Hn; unfold sendable; lia).
  set (w := head ch ++ wstring (slice data 0 n)).
  assert (blen w = headSz + 4 + n) as Hw.
  { unfold w. rewrite blen_app, Hhead, blen_wstring, blen_slice_prefix; lia. }
  assert (headSz +w LENGTH_SZ +w n = headSz + 4 + n) as ->.
  { unfold LENGTH_SZ, UINT32_SZ. destruct Hcs1 as [_ Hs _]. pose proof (blen_nonneg (unread (outputBuffer (tx s1)))).
    rewrite (wrap32_small (headSz + 4)) by lia. apply wrap32_small. lia. }
  pose proof (frame_run k (headSz + 4 + n) w s1 Hcs1 ltac:(lia) ltac:(lia)) as Hf.
  destruct (send_payload (headSz + 4 + n) w s1) as [[[]|e|] s2] eqn:Ef; [| |done].
  2: { erewrite !ST_bind_err by exact Ef. destruct Hf as (F2&_&Hst2). exists [].
       rewrite app_nil_r. split; [done|]. left. cbn [fst snd].
       split; [by rewrite (send_only_chan _ _ F2), Hc|by rewrite Hst2]. }
  erewrite !ST_bind_ok by exact Ef. destruct Hf as (F2&Hcs2&frame&Hpk&Hst2).
  pose proof (send_only_chan _ _ F2) as Hc2.
  erewrite !ST_bind_ok by (apply st_channel_run; by rewrite Hc2, Hc). cbv beta.
  assert (peerWindowSz ch -w n = peerWindowSz ch - n) as Hsub.
  { apply wrap32_small. rewrite Hn. unfold sendable. lia. }
  set (s3 := s2 <| chan; channels ::= <[l := ch <| peerWindowSz ::= (fun w => w -w n) |>]> |>).
  assert (chan s3 = (chan s) <| channels ::= <[l := charged ch n]> |>) as Hc3.
  { unfold s3, charged. rewrite <- Hsub, <- Hc, <- Hc2. done. }
  assert (can_send (k - blen w - 128) s3) as Hcs3 by (destruct Hcs2; by split).
  pose proof (flush_run _ s3 Hcs3 ltac:(lia)) as Hfl.
  assert (chan_inv [] (chan s3)) as Hi3.
  { rewrite Hc3. apply charged_inv; [done..|]. rewrite Hn. unfold sendable. lia. }
  assert (stream wire s3 = stream wire s ++ frame) as Hst3 by (rewrite <- Hst; exact Hst2).
  unfold code. unfold mbind, ST_bind.
  destruct (wolfSSH_SendPacket s3) as [[[]|e|] s4]; [..|done].
  - destruct Hfl as (F4&_&Hst4). change (0 =? WS_SUCCESS) with true. cbn [orb]. rewrite st_ret_end.
    cbn [fst snd]. exists l, ch, (tx s1), frame. rewrite app_nil_r, (send_only_chan _ _ F4), Hst4. done.
  - destruct Hfl as (F4&_&lost&Hst4&Hl).
    assert (forall lost', lost' = lost -> exists l0 ch0 t frame0,
      lookup_channel (chan s) id WS_CHANNEL_ID_SELF = Some l0 /\ channels (chan s) !! l0 = Some ch0 /\
      isKeying s = 0 /\ eofTxd ch0 = false /\ n = sendable ch0 (blen data) /\
      chan s4 = (chan s) <| channels ::= <[l0 := charged ch0 n]> |> /\ chan_inv [] (chan s4) /\
      packet_of t (head ch0 ++ wstring (slice data 0 n)) frame0 /\
      stream wire s4 ++ lost' = stream wire s ++ frame0) as Hfr.
    { intros ? ->. exists l, ch, (tx s1), frame. rewrite (send_only_chan _ _ F4), Hst4. done. }
    destruct (Z.eqb_spec e WS_SUCCESS) as [->|]; cbn [orb fst snd].
    { run. cbn [fst snd]. apply Hfr. symmetry. by apply Hl. }
    destruct (Z.eqb_spec e WS_WANT_WRITE) as [->|]; run; cbn [fst snd].
    { apply Hfr. symmetry. by apply Hl. }
    exists lost. split; [done|]. right. split; [done|]. exists n. by apply Hfr.
Qed.


(** extended data obeys the same flow control, under its own header. *)
Theorem SendChannelExtendedData_spec k id data s :
  can_send k s -> chan_inv [] (chan s) -> blen data + 512 <= k ->
  data_post s id (fun c => [MSGID_CHANNEL_EXTENDED_DATA] ++ c32toa (peerChannel c)
                           ++ c32toa CHANNEL_EXTENDED_DATA_STDERR) data
    (SendChannelExtendedData id data s).1 (SendChannelExtendedData id data s).2.
Proof.
  intros Hcs Hi Hk. by apply (send_channel_data k).
Qed.

(** ** The receive window *)

(** What the messages of a channel may change in a session besides the
    channels. *)
Definition conn_only (s s' : WOLFSSH) : Prop :=
  s' = s <| tx := tx s' |> <| error := error s' |> <| connReset := connReset s' |>
         <| isClosed := isClosed s' |> <| disconnectTxd := disconnectTxd s' |>
         <| highwaterFlag := highwaterFlag s' |> <| msgHighwaterFlag := msgHighwaterFlag s' |>
         <| app := app s' |> <| mallocs := mallocs s' |> <| handshake := handshake s' |>
         <| chan := chan s' |>.

Lemma conn_only_refl s : conn_only s s.
Proof. by destruct s. Qed.

Lemma conn_only_trans s1 s2 s3 : conn_only s1 s2 -> conn_only s2 s3 -> conn_only s1 s3.
Proof. unfold conn_only. intros -> ->. done. Qed.

Lemma send_conn_only s s' : send_only s s' -> conn_only s s'.
Proof. unfold send_only, conn_only. intros ->. done. Qed.

Lemma conn_only_error s e : conn_only s (s <| error := e |>).
Proof. by destruct s. Qed.

Lemma conn_only_chan s c : conn_only s (s <| chan := c |>).
Proof. by destruct s. Qed.

(** *** A failure to frame a message is not success *)

Lemma nz_on_out {A} (m : ST WOLFSSH_BUFFER A) : fails_nonzero m -> fails_nonzero (on_out m).
Proof.
  intros Hm s s'. unfold on_out. pose proof (Hm (outputBuffer (tx s))) as Hs.
  destruct (m (outputBuffer (tx s))) as [[a|e|] b]; [done| |done]. intros [= -> _]. by apply (Hs b).
Qed.

Lemma nz_malloc : fails_nonzero malloc.
Proof. intros s s'. by rewrite malloc_run. Qed.

Lemma nz_GrowBuffer mem sz : fails_nonzero (GrowBuffer mem sz).
Proof. unfold GrowBuffer, buffer_read, buffer_write. eauto 20 with nonzero. Qed.

Lemma nz_out_write i d : fails_nonzero (out_write i d).
Proof. apply nz_on_out. unfold buffer_write. eauto 10 with nonzero. Qed.

Lemma nz_out_read i n : fails_nonzero (out_read i n).
Proof. apply nz_on_out. unfold buffer_read. eauto 10 with nonzero. Qed.

Hint Resolve nz_on_out nz_malloc nz_GrowBuffer nz_out_write nz_out_read : nonzero.

Lemma nz_attempt {A B} (m : M A) (k : A -> M B) (h : Z -> M B) :
  fails_nonzero m -> (forall a, fails_nonzero (k a)) -> (forall e, e <> 0 -> fails_nonzero (h e)) ->
  fails_nonzero (attempt m ≫= fun r => match r with inl a => k a | inr e => h e end).
Proof.
  intros Hm Hk Hh s s'. unfold attempt, mbind, ST_bind. pose proof (Hm s) as Hs.
  destruct (m s) as [[a|e|] s1]; [apply Hk| |done]. apply Hh. intros ->. by apply (Hs s1).
Qed.

Lemma encrypt_nonzero t i : (encrypt_ret t i).1 <> Err 0.
Proof.
  unfold encrypt_ret, aes_blocks.
  destruct (encryptId t); try done; destruct (truthy _); try done;
    match goal with |- context [match ?f ?a ?b with _ => _ end] => by destruct (f a b) as [[] ?] end.
Qed.

Lemma create_mac_nonzero t i : create_mac t i <> Err 0.
Proof.
  unfold create_mac, hmac_with. destruct (macId t); try done; try apply hmac_error.
  match goal with |- context [wc_Hmac ?h ?k ?m] => pose proof (hmac_error h k m);
    by destruct (wc_Hmac h k m) end.
Qed.

Lemma aead_nonzero t i a : (aead_ret t i a).1 <> Err 0.
Proof. unfold aead_ret. destruct (encryptId t); try done; apply gcm_error. Qed.

Lemma nz_Encrypt i : fails_nonzero (Encrypt i).
Proof.
  unfold Encrypt. apply nz_bind; [auto with nonzero|intros _]. apply nz_get. intros s.
  pose proof (encrypt_nonzero (tx s) i). destruct (encrypt_ret (tx s) i) as [r st].
  eauto using nz_lift with nonzero.
Qed.

Lemma nz_EncryptAead i a : fails_nonzero (EncryptAead i a).
Proof.
  unfold EncryptAead. apply nz_bind; [auto with nonzero|intros _]. apply nz_get. intros s.
  pose proof (aead_nonzero (tx s) i a). destruct (aead_ret (tx s) i a) as [r st].
  eauto using nz_lift with nonzero.
Qed.

Lemma nz_bundle_body idx start pad : fails_nonzero (bundle_body idx start pad).
Proof.
  unfold bundle_body. apply nz_get. intros s. apply nz_bind; [auto with nonzero|intros _].
  apply nz_bind.
  { unfold add_padding. apply nz_get. intros s'. apply nz_if; [auto with nonzero|].
    destruct (wc_RNG_GenerateBlock _ _) as [[] ?]; eauto with nonzero. }
  intros _. apply nz_if.
  - unfold seal_mac, CreateMac. pose proof create_mac_nonzero. eauto 20 using nz_Encrypt, nz_lift with nonzero.
  - unfold seal_aead. apply nz_get. intros s'. do 2 (apply nz_bind; [auto with nonzero|intros ?]).
    apply nz_bind; [apply nz_EncryptAead|]. intros []. eauto with nonzero.
Qed.

Lemma send_payload_nonzero n w : fails_nonzero (send_payload n w).
Proof.
  unfold send_payload, PreparePacket, put, BundlePacket.
  apply nz_bind; [eauto 20 with nonzero|intros _]. apply nz_bind; [eauto 20 with nonzero|intros _].
  apply nz_get. intros s. apply nz_if; [auto with nonzero|].
  do 2 (apply nz_bind; [auto with nonzero|intros _]).
  apply nz_attempt; [apply nz_bundle_body|auto with nonzero|].
  intros e He. eauto 20 using nz_fail with nonzero.
Qed.

(** The filter on a message of ours. *)
Lemma allowed_run msg s :
  exists b s', IsMessageAllowed msg WS_MSG_SEND s = (Ok b, s') /\ conn_only s s' /\ chan s' = chan s /\
    tx s' = tx s /\ app s' = app s.
Proof.
  pose proof (IsMessageAllowed_frame msg WS_MSG_SEND s) as Hf.
  destruct (IsMessageAllowed msg WS_MSG_SEND s) as [[[]|e|] s']; try done; eexists _, s'; (split; [done|]).
  - destruct Hf as [->|(h&_&_&_&->)]; by destruct s.
  - destruct Hf as [->| ->]; by destruct s.
Qed.

Lemma can_send_same k s s' : tx s' = tx s -> app s' = app s -> can_send k s -> can_send k s'.
Proof. intros Ht Ha []. split; unfold flush_turns in *; rewrite ?Ht, ?Ha; done. Qed.

Lemma stream_same s s' : tx s' = tx s -> app s' = app s -> stream wire s' = stream wire s.
Proof. unfold stream. by intros -> ->. Qed.

(** A WINDOW_ADJUST that is bundled is on the stream; one that is not left
    nothing. *)
Lemma SendChannelWindowAdjust_run {due} k id n s l ch :
  can_send k s -> 512 <= k -> chan_inv_due due [] (chan s) ->
  lookup_channel (chan s) id WS_CHANNEL_ID_SELF = Some l -> channels (chan s) !! l = Some ch ->
  exists bundled r s', SendChannelWindowAdjust id n s = (Ok (bundled, r), s') /\
    conn_only s s' /\ chan s' = chan s /\ can_send (k - 256) s' /\
    if bundled : bool then exists lost t frame,
      packet_of t ([MSGID_CHANNEL_WINDOW_ADJUST] ++ c32toa (peerChannel ch) ++ c32toa n) frame /\
      stream wire s' ++ lost = stream wire s ++ frame /\ (r <> WS_SOCKET_ERROR_E -> lost = [])
    else r <> WS_SUCCESS /\ stream wire s' = stream wire s.
Proof.
  intros Hcs Hk Hi Hl Hch. unfold SendChannelWindowAdjust.
  destruct (allowed_run MSGID_CHANNEL_WINDOW_ADJUST s) as (b&s1&E&F1&Hc1&Ht1&Ha1).
  erewrite ST_bind_ok by exact E. pose proof (can_send_same _ _ _ Ht1 Ha1 Hcs) as Hcs1.
  pose proof (stream_same _ _ Ht1 Ha1) as Hst1.
  rewrite <- Hc1 in Hi. erewrite ST_bind_ok by (by eapply ChannelFind_run). rewrite Hc1, Hl. cbv iota.
  destruct (negb b).
  { exists false, WS_MSGID_NOT_ALLOWED_E, s1. split; [done|]. split; [done|]. split; [done|].
    split; [eapply can_send_weaken; [done|lia]|]. split; [done|exact Hst1]. }
  erewrite ST_bind_ok by (apply ld_channel_run; by rewrite Hc1).
  set (w := [MSGID_CHANNEL_WINDOW_ADJUST] ++ c32toa (peerChannel ch) ++ c32toa n).
  assert (blen w = 9) as Hw by done.
  pose proof (frame_run k (MSG_ID_SZ + UINT32_SZ * 2) w s1 Hcs1 ltac:(rewrite Hw; done) ltac:(clia)) as Hf.
  destruct (send_payload (MSG_ID_SZ + UINT32_SZ * 2) w s1) as [[[]|e|] s2] eqn:Es; [..|done].
  - destruct Hf as (F2&Hcs2&frame&Hpk&Hst2).
    erewrite ST_bind_ok by (eapply code_ok; exact Es). cbn [truthy negb Z.eqb].
    pose proof (flush_run _ s2 Hcs2 ltac:(lia)) as Hfl.
    destruct (wolfSSH_SendPacket s2) as [[[]|e|] s3] eqn:Ew; [..|done].
    + erewrite ST_bind_ok by (eapply code_ok; exact Ew).
      destruct Hfl as (F3&Hcs3&Hst3). exists true, 0, s3. split; [done|].
      split; [exact (conn_only_trans _ _ _ F1 (send_conn_only _ _ (send_only_trans _ _ _ F2 F3)))|].
      split; [by rewrite (send_only_chan _ _ F3), (send_only_chan _ _ F2)|].
      split; [eapply can_send_weaken; [done|lia]|].
      exists [], (tx s1), frame. rewrite app_nil_r, Hst3, Hst2, Hst1. done.
    + erewrite ST_bind_ok by (eapply code_err; exact Ew).
      destruct Hfl as (F3&Hcs3&lost&Hst3&Hlo). exists true, e, s3. split; [done|].
      split; [exact (conn_only_trans _ _ _ F1 (send_conn_only _ _ (send_only_trans _ _ _ F2 F3)))|].
      split; [by rewrite (send_only_chan _ _ F3), (send_only_chan _ _ F2)|].
      split; [eapply can_send_weaken; [done|lia]|].
      exists lost, (tx s1), frame. rewrite Hst3, Hst2, Hst1. done.
  - destruct Hf as (F2&Hcs2&Hst2). erewrite ST_bind_ok by (eapply code_err; exact Es). unfold truthy.
    destruct (Z.eqb_spec e 0) as [->|He]; cbn [negb]; [by destruct (send_payload_nonzero _ _ _ _ Es)|].
    exists false, e, s2. split; [done|].
    split; [exact (conn_only_trans _ _ _ F1 (send_conn_only _ _ F2))|].
    split; [by rewrite (send_only_chan _ _ F2)|]. split; [eapply can_send_weaken; [done|lia]|].
    split; [done|]. by rewrite Hst2.
Qed.

(** A channel that owes its peer [n] bytes of window. *)
Definition owing (ch : WOLFSSH_CHANNEL) (n : Z) : WOLFSSH_CHANNEL :=
  ch <| pendingWindowAdjust := n |>.

Lemma owing_inv {due} own c l ch n :
  chan_inv_due due own c -> channels c !! l = Some ch -> is_word32 n ->
  chan_inv_due due own (c <| channels ::= <[l := owing ch n]> |>).
Proof.
  intros Hi Hl Hn. apply (chan_inv_update own c l ch); [done..| |done].
  destruct (ci_room _ _ Hi _ _ Hl). by split.
Qed.

Definition adjust_message (ch : WOLFSSH_CHANNEL) (n : Z) : bytes :=
  [MSGID_CHANNEL_WINDOW_ADJUST] ++ c32toa (peerChannel ch) ++ c32toa n.

(** What crediting [amount] to a channel leaves. Exactly one of two things
    happened to the total: it is still owed, or one message carrying it is on the
    stream; a message lost with the connection leaves it owed. *)
Definition credit_post (s : WOLFSSH) (l : loc) (ch : WOLFSSH_CHANNEL) (amount : Z)
    (r : res unit) (s' : WOLFSSH) : Prop :=
  let total := pendingWindowAdjust ch + amount in
  let sent frame := exists t, packet_of t (adjust_message ch total) frame in
  exists owed lost frame, conn_only s s' /\
    chan s' = (chan s) <| channels ::= <[l := owing ch owed]> |> /\
    stream wire s' ++ lost = stream wire s ++ frame /\
    match r with
    | Ok _ => lost = [] /\ total < 2 ^ 32 /\
        (frame = [] /\ owed = total /\ (isKeying s <> 0 \/ disconnected s = true \/ total = 0) \/
         sent frame /\ owed = 0 /\ isKeying s = 0 /\ disconnected s = false)
    | Err e =>
        (frame = [] /\ lost = [] /\ owed = pendingWindowAdjust ch /\ e = WS_OVERFLOW_E /\ 2 ^ 32 <= total) \/
        (isKeying s = 0 /\ disconnected s = false /\ total < 2 ^ 32 /\
         (frame = [] /\ lost = [] /\ owed = total \/
          sent frame /\ lost = [] /\ owed = 0 /\ e <> WS_SOCKET_ERROR_E \/
          sent frame /\ owed = total /\ e = WS_SOCKET_ERROR_E))
    | UB => False
    end.

Lemma channels_same c l ch ch' :
  channels c !! l = Some ch -> ch' = ch -> c <| channels ::= <[l := ch']> |> = c.
Proof. intros Hl ->. destruct c; unfold field_set; cbn in *. by rewrite insert_id. Qed.

(** A second assignment to the same channel. *)
Lemma session_chan_twice (s s3 : WOLFSSH) l ch1 ch2 :
  chan s3 = (chan s) <| channels ::= <[l := ch1]> |> ->
  chan (s3 <| chan; channels ::= <[l := ch2]> |>) = (chan s) <| channels ::= <[l := ch2]> |>.
Proof.
  intros E. change (chan (s3 <| chan; channels ::= <[l := ch2]> |>))
    with ((chan s3) <| channels ::= <[l := ch2]> |>). rewrite E.
  destruct (chan s); unfold field_set; cbn. by rewrite insert_insert_eq.
Qed.

Lemma ChannelCreditWindow_run {due} k l ch amount s :
  can_send k s -> 512 <= k -> chan_inv_due due [] (chan s) -> l ∈ channelList (chan s) ->
  channels (chan s) !! l = Some ch -> is_word32 amount ->
  can_send (k - 256) (ChannelCreditWindow l amount s).2 /\
  chan_inv_due due [] (chan (ChannelCreditWindow l amount s).2) /\
  credit_post s l ch amount (ChannelCreditWindow l amount s).1 (ChannelCreditWindow l amount s).2.
Proof.
  intros Hcs Hk Hi Hin Hch Ha. pose proof (ch_owed _ (ci_room _ _ Hi _ _ Hch)) as Hp.
  unfold is_word32 in *. unfold credit_post.
  set (total := pendingWindowAdjust ch + amount).
  assert (can_send (k - 256) s) as Hcsw by (eapply can_send_weaken; [done|lia]).
  set (R := ChannelCreditWindow l amount s). unfold ChannelCreditWindow in R. unfold R; clear R.
  erewrite !ST_bind_ok by (by apply ld_channel_run).
  assert (UINT32_MAX -w pendingWindowAdjust ch = UINT32_MAX - pendingWindowAdjust ch) as ->
    by (apply wrap32_small; unfold UINT32_MAX; lia).
  rewrite !st_guard. destruct (Z.ltb_spec (UINT32_MAX - pendingWindowAdjust ch) amount) as [Hov|Hov];
    unfold UINT32_MAX in Hov.
  { split; [done|]. split; [done|]. exists (pendingWindowAdjust ch), [], []. cbn [fst snd].
    split; [apply conn_only_refl|].
    assert (owing ch (pendingWindowAdjust ch) = ch) as Ho by by destruct ch.
    rewrite (channels_same _ _ _ _ Hch Ho). do 2 (split; [done|]). left.
    unfold total. repeat split; lia. }
  assert (pendingWindowAdjust ch +w amount = total) as -> by (apply wrap32_small; unfold total; lia).
  cbv zeta. destruct (Z.eqb_spec total 0) as [Htz|Htz].
  { split; [done|]. split; [done|]. exists total, [], []. cbn [fst snd]. run. cbn [fst snd].
    split; [apply conn_only_refl|].
    assert (owing ch total = ch) as Ho by (destruct ch; unfold owing, field_set; cbn in *; f_equal; lia).
    rewrite (channels_same _ _ _ _ Hch Ho). do 3 (split; [done|]).
    split; [lia|]. left. repeat split. auto. }
  rewrite !st_get. unfold truthy.
  destruct (negb (isKeying s =? 0) || disconnected s) eqn:Egate.
  { erewrite !st_channel_run by done. cbn [fst snd]. split; [by destruct Hcsw|].
    split; [apply owing_inv; [done..|unfold is_word32; lia]|].
    exists total, [], []. split; [by destruct s|]. split; [done|]. split; [done|]. split; [done|].
    split; [lia|]. left. split; [done|]. split; [done|].
    apply orb_true_iff in Egate as [Hk'|Hd]; [left|by right; left].
    destruct (Z.eqb_spec (isKeying s) 0); done. }
  apply orb_false_iff in Egate as [Hkey Hdis].
  assert (isKeying s = 0) as Hk0 by (destruct (Z.eqb_spec (isKeying s) 0); done).
  erewrite !ST_bind_ok by (by apply st_channel_run).
  change (ch <| pendingWindowAdjust := 0 |>) with (owing ch 0).
  set (s2 := s <| chan; channels ::= <[l := owing ch 0]> |>).
  assert (chan_inv_due due [] (chan s2)) as Hi2 by (apply owing_inv; [done..|unfold is_word32; lia]).
  assert (channels (chan s2) !! l = Some (owing ch 0)) as Hch2 by apply lookup_insert_eq.
  assert (can_send k s2) as Hcs2 by (destruct Hcs; by split).
  destruct (SendChannelWindowAdjust_run k (c_channel ch) total s2 l (owing ch 0) Hcs2 Hk Hi2)
    as (bundled&r&s3&E&F&Hc3&Hcs3&Hst); [|done|].
  { by eapply (lookup_channel_self [] (chan s2) l (owing ch 0)). }
  erewrite !ST_bind_ok by exact E. cbv beta iota.
  assert (conn_only s s2) as F2 by apply conn_only_chan.
  pose proof (conn_only_trans _ _ _ F2 F) as F3.
  assert (forall s', tx s' = tx s3 -> app s' = app s3 -> can_send (k - 256) s') as Hcsx.
  { intros s' ? ?. by eapply can_send_same. }
  assert (stream wire s2 = stream wire s) as Hst2 by done.
  set (s4 := s3 <| chan; channels ::= <[l := owing ch total]> |>).
  assert (chan s4 = (chan s) <| channels ::= <[l := owing ch total]> |>) as Hc4.
  { unfold s4. exact (session_chan_twice s s3 l (owing ch 0) _ Hc3). }
  destruct (negb bundled || (r =? WS_SOCKET_ERROR_E)) eqn:Eg; unfold when.
  - erewrite !ST_bind_ok by (apply st_channel_run; by rewrite Hc3).
    change ((owing ch 0) <| pendingWindowAdjust := total |>) with (owing ch total). fold s4.
    assert (r <> 0) as Hr.
    { destruct bundled; [destruct (Z.eqb_spec r WS_SOCKET_ERROR_E) as [->|]; done|by destruct Hst]. }
    unfold ret_code. destruct (Z.eqb_spec r 0); [done|]. cbn [fst snd]. unfold fail. cbn [fst snd].
    split; [by apply Hcsx|].
    split; [change (chan_inv_due due [] (chan s4)); rewrite Hc4; apply owing_inv; [done..|unfold is_word32; lia]|].
    assert (conn_only s s4) as F4 by (eapply conn_only_trans; [exact F3|apply conn_only_chan]).
    destruct bundled.
    + destruct Hst as (lost&t&frame&Hpk&Hst&_). exists total, lost, frame.
      do 2 (split; [done|]). split; [rewrite <- Hst2; exact Hst|]. right. do 2 (split; [done|]). split; [unfold total; lia|]. right. right.
      split; [by exists t|]. split; [done|]. by destruct (Z.eqb_spec r WS_SOCKET_ERROR_E).
    + destruct Hst as (_&Hst). exists total, [], []. do 2 (split; [done|]). rewrite !app_nil_r.
      split; [rewrite <- Hst2; exact Hst|]. right. do 2 (split; [done|]). split; [unfold total; lia|]. by left.
  - apply orb_false_iff in Eg as [Hb Hr]. destruct bundled; [|done].
    destruct (Z.eqb_spec r WS_SOCKET_ERROR_E); [done|].
    destruct Hst as (lost&t&frame&Hpk&Hst&Hlost). rewrite (Hlost ltac:(done)) in Hst.
    run. split; [unfold ret_code; destruct (r =? 0); by apply Hcsx|].
    assert ((ret_code r s3).2 = s3) as Hs3 by (unfold ret_code; by destruct (r =? 0)).
    rewrite Hs3. split; [by rewrite Hc3|]. exists 0, [], frame. split; [done|]. split; [exact Hc3|].
    split; [rewrite <- Hst2; exact Hst|].
    unfold ret_code. destruct (Z.eqb_spec r 0); cbn [fst].
    + split; [done|]. split; [unfold total in *; lia|]. right. split; [by exists t|done].
    + right. do 2 (split; [done|]). split; [unfold total; lia|]. right. left. split; [by exists t|done].
Qed.

(** C35: no window credit is lost or granted twice. Crediting [amount] to a channel
    adds it to what is owed: while a key exchange runs or after a disconnect the
    total stays owed and no message is made; otherwise one WINDOW_ADJUST carrying
    the whole total is on the stream and nothing is owed, or, on an error before
    the message was framed or a loss of the connection, all of it is owed; and a
    total that would not fit the message's 32 bits changes nothing. *)
Theorem ChannelCreditWindow_spec k l ch amount s :
  can_send k s -> 512 <= k -> chan_inv [] (chan s) -> l ∈ channelList (chan s) ->
  channels (chan s) !! l = Some ch -> is_word32 amount ->
  chan_inv [] (chan (ChannelCreditWindow l amount s).2) /\
  credit_post s l ch amount (ChannelCreditWindow l amount s).1 (ChannelCreditWindow l amount s).2.
Proof. intros. by eapply ChannelCreditWindow_run. Qed.

(** Channels that differ only in what they owe. *)
Definition owes_only (c c' : Channels) : Prop :=
  c' = c <| channels := channels c' |> /\
  forall l, match channels c !! l, channels c' !! l with
            | Some ch, Some ch' => exists n, ch' = owing ch n
            | None, None => True
            | _, _ => False
            end.

Lemma owes_only_refl c : owes_only c c.
Proof.
  split; [by destruct c|]. intros l. destruct (channels c !! l) as [ch|]; [|done].
  exists (pendingWindowAdjust ch). by destruct ch.
Qed.

Lemma owes_only_trans c1 c2 c3 : owes_only c1 c2 -> owes_only c2 c3 -> owes_only c1 c3.
Proof.
  intros [E1 H12] [E2 H23]. split; [by rewrite E2, E1|]. intros l. specialize (H12 l). specialize (H23 l).
  destruct (channels c1 !! l), (channels c2 !! l), (channels c3 !! l); try done.
  destruct H12 as [n ->], H23 as [m ->]. by exists m.
Qed.

Lemma owes_only_insert c l ch n :
  channels c !! l = Some ch -> owes_only c (c <| channels ::= <[l := owing ch n]> |>).
Proof.
  intros Hl. split; [done|]. intros l'. cbn. destruct (decide (l = l')) as [<-|Hn].
  - rewrite Hl, lookup_insert_eq. by exists n.
  - rewrite lookup_insert_ne by done. destruct (channels c !! l') as [ch'|]; [|done].
    exists (pendingWindowAdjust ch'). by destruct ch'.
Qed.

Lemma owes_only_list c c' : owes_only c c' -> channelList c' = channelList c.
Proof. by intros [-> _]. Qed.

(** Whether the channel at [l] owes nothing. *)
Definition settled (c : Channels) (l : loc) : Prop :=
  forall ch, channels c !! l = Some ch -> pendingWindowAdjust ch = 0.

Lemma nz_st_channel l f : fails_nonzero (st_channel l f).
Proof. unfold st_channel, ld_channel. eauto 10 with nonzero. Qed.

Lemma nz_ChannelFind id peer : fails_nonzero (ChannelFind id peer).
Proof.
  unfold ChannelFind. apply nz_get. intros s. generalize (take (Z.to_nat (channelListSz (chan s))) (channelList (chan s))).
  intros l. induction l as [|x l IH]; [done|]. cbn [find_first]. unfold ld_channel. eauto 10 with nonzero.
Qed.

Lemma nz_ChannelCreditWindow l n : fails_nonzero (ChannelCreditWindow l n).
Proof.
  unfold ChannelCreditWindow, ld_channel. apply nz_bind; [eauto with nonzero|intros c].
  apply nz_bind; [auto with nonzero|intros _]. apply nz_if; [auto with nonzero|].
  apply nz_get. intros s. apply nz_if; [apply nz_st_channel|].
  apply nz_bind; [apply nz_st_channel|intros _]. apply nz_bind.
  - unfold SendChannelWindowAdjust. apply nz_bind.
    { intros s1 s2. destruct (allowed_run MSGID_CHANNEL_WINDOW_ADJUST s1) as (b&s3&->&_). done. }
    intros b. apply nz_bind; [apply nz_ChannelFind|]. intros [x|]; [|done].
    unfold ld_channel. eauto 10 with nonzero.
  - intros [b r]. apply nz_bind; [|auto with nonzero]. unfold when. apply nz_if; [apply nz_st_channel|done].
Qed.

(** One channel of the loop. *)
Lemma credit_one k l s :
  can_send k s -> 512 <= k -> chan_inv [] (chan s) -> l ∈ channelList (chan s) -> isKeying s = 0 ->
  exists e s', code (ChannelCreditWindow l 0) s = (Ok e, s') /\ can_send (k - 256) s' /\
    conn_only s s' /\ chan_inv [] (chan s') /\ owes_only (chan s) (chan s') /\
    (forall l', l' <> l -> channels (chan s') !! l' = channels (chan s) !! l') /\
    (e = 0 -> disconnected s = false -> settled (chan s') l).
Proof.
  intros Hcs Hk Hi Hin Hkey. destruct (listed_live _ _ _ Hi Hin) as [ch Hch].
  destruct (ChannelCreditWindow_run k l ch 0 s Hcs Hk Hi Hin Hch) as (Hcs'&Hi1&Hp); [done|].
  destruct (ChannelCreditWindow l 0 s) as [r s1] eqn:E. cbn [fst snd] in *.
  destruct Hp as (owed&lost&frame&F&Hc&_&Hr).
  exists (match r with Err e => e | _ => 0 end), s1.
  split; [destruct r; [by eapply code_ok|by eapply code_err|done]|].
  split; [done|]. split; [done|]. split; [done|]. rewrite Hc.
  split; [by apply owes_only_insert|]. split; [intros l' Hl; by apply lookup_insert_ne|].
  intros He Hd ch'. cbn. rewrite lookup_insert_eq. intros [= <-]. cbn.
  destruct r as [[]|e|]; [|subst e|done].
  - destruct Hr as (_&_&[(_&->&Hz)|(_&->&_)]); [|done].
    destruct Hz as [?|[?|?]]; congruence.
  - by destruct (nz_ChannelCreditWindow _ _ _ _ E).
Qed.

Lemma credit_all_run l k ret s :
  can_send k s -> 256 * blen l + 512 <= k -> chan_inv [] (chan s) -> l ⊆ channelList (chan s) ->
  isKeying s = 0 -> NoDup l ->
  exists e s', credit_all l ret s = (Ok e, s') /\ conn_only s s' /\ chan_inv [] (chan s') /\
    owes_only (chan s) (chan s') /\
    (forall l', l' ∉ l -> channels (chan s') !! l' = channels (chan s) !! l') /\
    (e = 0 -> ret = 0 /\ (disconnected s = false -> Forall (settled (chan s')) l)).
Proof.
  revert k ret s. induction l as [|x l IH]; intros k ret s Hcs Hk Hi Hsub Hkey Hnd.
  { exists ret, s. split; [done|]. split; [apply conn_only_refl|]. split; [done|].
    split; [apply owes_only_refl|]. split; [done|]. intros ->. split; [done|]. constructor. }
  apply list.NoDup_cons in Hnd as [Hx Hnd]. rewrite blen_cons in Hk. pose proof (blen_nonneg l).
  assert (x ∈ channelList (chan s)) as Hin by set_solver.
  destruct (listed_live _ _ _ Hi Hin) as [ch Hch]. cbn [credit_all].
  erewrite ST_bind_ok by (by apply ld_channel_run).
  destruct (Z.eqb_spec (pendingWindowAdjust ch) 0) as [Hp|Hp]; cbn [negb].
  - destruct (IH k ret s Hcs ltac:(lia) Hi ltac:(set_solver) Hkey Hnd) as (e&s'&->&F&Hi'&Ho&Hsame&He).
    exists e, s'. do 4 (split; [done|]). split; [intros l' Hl; apply Hsame; set_solver|].
    intros Hz. pose proof (He Hz) as [-> Hset]. split; [done|]. intros Hd. constructor; [|by apply Hset].
    intros ch'. rewrite (Hsame x Hx), Hch. by intros [= <-].
  - destruct (credit_one k x s Hcs ltac:(lia) Hi Hin Hkey) as (e1&s1&E&Hcs1&F1&Hi1&Ho1&Hsame1&He1).
    erewrite ST_bind_ok by exact E.
    set (ret' := if truthy e1 && (ret =? WS_SUCCESS) then e1 else ret).
    assert (isKeying s1 = 0) as Hkey1 by (rewrite F1; done).
    destruct (IH (k - 256) ret' s1 Hcs1 ltac:(lia) Hi1) as (e&s'&->&F&Hi'&Ho&Hsame&He); [|done..|].
    { rewrite (owes_only_list _ _ Ho1). set_solver. }
    exists e, s'. split; [done|]. split; [by eapply conn_only_trans|]. split; [done|].
    split; [by eapply owes_only_trans|].
    split; [intros l' Hl; rewrite Hsame by set_solver; apply Hsame1; set_solver|].
    intros Hz. pose proof (He Hz) as [Hr Hset]. unfold ret', truthy in Hr.
    destruct (Z.eqb_spec e1 0) as [->|Hne]; cbn in Hr.
    2: { destruct (Z.eqb_spec ret WS_SUCCESS) as [->|Hne']; [done|]. by destruct Hne'. }
    split; [done|]. intros Hd. assert (disconnected s1 = false) as Hd1 by (by rewrite F1).
    constructor; [|by apply Hset].
    intros ch' Hch'. apply (He1 eq_refl Hd ch'). by rewrite <- (Hsame x Hx).
Qed.

(** the credit that piled up is settled. When no key exchange runs,
    [SendPendingChannelWindowAdjust] visits every channel once: on success of a
    session that is not disconnecting no channel owes its peer anything any more
    and the session's error is what it was; whatever happens, nothing else of any
    channel changes; and while keying nothing happens at all. *)
Theorem SendPendingChannelWindowAdjust_spec k s :
  can_send k s -> 256 * channelListSz (chan s) + 512 <= k -> chan_inv [] (chan s) ->
  match SendPendingChannelWindowAdjust s with
  | (UB, _) => False
  | (r, s') => (isKeying s <> 0 -> s' = s) /\ conn_only s s' /\ chan_inv [] (chan s') /\
      owes_only (chan s) (chan s') /\
      (r = Ok tt -> isKeying s = 0 -> disconnected s = false ->
       error s' = error s /\ Forall (settled (chan s')) (channelList (chan s')))
  end.
Proof.
  intros Hcs Hk Hi. unfold SendPendingChannelWindowAdjust. rewrite st_get. unfold truthy.
  destruct (Z.eqb_spec (isKeying s) 0) as [Hkey|Hkey]; cbn [negb].
  2: { rewrite st_ret_end. split; [done|]. split; [apply conn_only_refl|]. split; [done|].
       split; [apply owes_only_refl|]. done. }
  cbv zeta.
  destruct (credit_all_run (channelList (chan s)) k WS_SUCCESS s) as (e&s1&E&F&Hi1&Ho&_&He); try done.
  { rewrite <- (ci_size _ _ Hi). lia. }
  { pose proof (ci_nodup _ _ Hi) as Hnd. by rewrite app_nil_r in Hnd. }
  erewrite ST_bind_ok by exact E. rewrite st_modify.
  set (s2 := s1 <| error := if e =? WS_SUCCESS then error s else e |>).
  pose proof (conn_only_trans _ _ _ F (conn_only_error s1 (if e =? WS_SUCCESS then error s else e))) as F2.
  unfold ret_code. destruct (Z.eqb_spec e 0) as [->|Hne].
  - rewrite st_ret_end. split; [done|]. split; [exact F2|]. split; [done|]. split; [done|].
    intros _ _ Hd. split; [done|]. change (chan s2) with (chan s1). rewrite (owes_only_list _ _ Ho).
    by apply He.
  - rewrite st_fail_end. split; [done|]. split; [exact F2|]. split; [done|]. split; [done|]. done.
Qed.

(** ** Messages recorded on the channel *)

(** A message whose sending is recorded with [mark]: it was framed and recorded;
    or it failed to be framed, and there is nothing to record; or the connection
    was lost with the queue empty. *)
Definition mark_post (s : WOLFSSH) (l : loc) (ch : WOLFSSH_CHANNEL) (w : bytes)
    (mark : WOLFSSH_CHANNEL -> WOLFSSH_CHANNEL) (r : res unit) (s' : WOLFSSH) : Prop :=
  let framed lost := exists t frame, packet_of t w frame /\ stream wire s' ++ lost = stream wire s ++ frame in
  conn_only s s' /\
  ((chan s' = (chan s) <| channels ::= <[l := mark ch]> |> /\
    match r with
    | Ok _ => framed []
    | Err e => exists lost, framed lost /\ (e <> WS_SOCKET_ERROR_E -> lost = [])
    | UB => False
    end) \/
   (chan s' = chan s /\ exists e, r = Err e /\
    (stream wire s' = stream wire s \/
     e = WS_SOCKET_ERROR_E /\ wolfSSH_OutputPending s' = false /\ exists lost, framed lost))).

Lemma marked_run k n w l ch mark s s0 :
  conn_only s0 s -> chan s0 = chan s -> stream wire s0 = stream wire s ->
  can_send k s -> blen w <= n -> n + 256 <= k -> channels (chan s) !! l = Some ch ->
  mark_post s0 l ch w mark ((send_payload n w;; send_and_mark l mark) s).1
    ((send_payload n w;; send_and_mark l mark) s).2.
Proof.
  intros F0 Hc0 Hst0 Hcs Hw Hk Hch. pose proof (frame_run k n w s Hcs Hw Hk) as Hf. pose proof (blen_nonneg w).
  destruct (send_payload n w s) as [[[]|e|] s1] eqn:E; [| |done].
  2: { erewrite !ST_bind_err by exact E. cbn [fst snd]. destruct Hf as (F&_&Hst).
       split; [exact (conn_only_trans _ _ _ F0 (send_conn_only _ _ F))|]. right.
       split; [by rewrite (send_only_chan _ _ F)|]. exists e. split; [done|]. left. by rewrite Hst. }
  erewrite !ST_bind_ok by exact E. destruct Hf as (F&Hcs1&frame&Hpk&Hst).
  unfold send_and_mark. pose proof (flush_run _ s1 Hcs1 ltac:(lia)) as Hfl.
  destruct (wolfSSH_SendPacket s1) as [r s2] eqn:Ew.
  assert (exists c, code wolfSSH_SendPacket s1 = (Ok c, s2) /\ send_only s1 s2 /\
    match r with Ok _ => c = 0 | Err e => c = e | UB => False end /\
    exists lost, stream wire s2 ++ lost = stream wire s1 /\ (c <> WS_SOCKET_ERROR_E -> lost = []))
    as (c&Ec&F2&Hr&lost&Hst2&Hlost).
  { destruct r as [[]|e|]; [..|done].
    - exists 0. split; [by eapply code_ok|]. destruct Hfl as (?&_&?). do 2 (split; [done|]).
      exists []. by rewrite app_nil_r.
    - exists e. split; [by eapply code_err|]. destruct Hfl as (?&_&?). done. }
  erewrite !ST_bind_ok by exact Ec. rewrite !st_get.
  pose proof (conn_only_trans _ _ _ F0 (send_conn_only _ _ (send_only_trans _ _ _ F F2))) as F3.
  assert (chan s2 = chan s) as Hc2 by by rewrite (send_only_chan _ _ F2), (send_only_chan _ _ F).
  assert (stream wire s2 ++ lost = stream wire s0 ++ frame) as Hst3 by by rewrite Hst2, Hst, Hst0.
  destruct (negb (c =? WS_SOCKET_ERROR_E) || wolfSSH_OutputPending s2) eqn:Eg; unfold when.
  - erewrite !ST_bind_ok by (apply st_channel_run; by rewrite Hc2).
    set (s3 := s2 <| chan; channels ::= <[l := mark ch]> |>).
    assert (conn_only s0 s3) as F4 by (eapply conn_only_trans; [exact F3|apply conn_only_chan]).
    assert (chan s3 = (chan s0) <| channels ::= <[l := mark ch]> |>) as Hc3
      by (unfold s3; rewrite Hc0, <- Hc2; done).
    unfold ret_code. destruct (Z.eqb_spec c 0) as [->|Hc]; cbn [fst snd]; run; cbn [fst snd].
    + split; [done|]. left. split; [done|]. exists (tx s), frame. split; [done|].
      rewrite (Hlost ltac:(done)) in Hst3. exact Hst3.
    + split; [done|]. left. split; [done|]. exists lost. split; [|done]. by exists (tx s), frame.
  - apply orb_false_iff in Eg as [Eg Ho]. apply negb_false_iff, Z.eqb_eq in Eg as ->.
    run. cbn [fst snd]. split; [done|]. right. split; [by rewrite Hc0|].
    exists WS_SOCKET_ERROR_E. split; [done|]. right. do 2 (split; [done|]). exists lost.
    by exists (tx s), frame.
Qed.

(** EOF is sent once. [SendChannelEof] is refused while a key exchange runs, as
    every message outside it; on a channel whose EOF was sent it does nothing; and
    otherwise the first channel with the peer's id has an EOF framed and recorded
    together -- after which, by the same record, no data is sent on it -- or
    neither. *)
Theorem SendChannelEof_spec k id s :
  can_send k s -> 512 <= k -> chan_inv [] (chan s) ->
  match lookup_channel (chan s) id WS_CHANNEL_ID_PEER with
  | None => let '(r, s') := SendChannelEof id s in conn_only s s' /\ chan s' = chan s /\ tx s' = tx s /\
      (r = Err WS_INVALID_CHANID \/ r = Err WS_MSGID_NOT_ALLOWED_E)
  | Some l => exists ch, channels (chan s) !! l = Some ch /\
      let '(r, s') := SendChannelEof id s in
      ((conn_only s s' /\ chan s' = chan s /\ tx s' = tx s /\
        (r = Err WS_MSGID_NOT_ALLOWED_E \/ eofTxd ch = true /\ r = Ok tt)) \/
       (eofTxd ch = false /\
        mark_post s l ch ([MSGID_CHANNEL_EOF] ++ c32toa (peerChannel ch)) (fun c => c <| eofTxd := true |>) r s'))
  end.
Proof.
  intros Hcs Hk Hi. destruct (allowed_run MSGID_CHANNEL_EOF s) as (b&s1&E&F1&Hc1&Ht1&Ha1).
  pose proof (can_send_same _ _ _ Ht1 Ha1 Hcs) as Hcs1. pose proof (stream_same _ _ Ht1 Ha1) as Hst1.
  pose proof Hi as Hi1. rewrite <- Hc1 in Hi1.
  destruct (lookup_channel (chan s) id WS_CHANNEL_ID_PEER) as [l|] eqn:El; unfold SendChannelEof.
  2: { erewrite ST_bind_ok by exact E. rewrite st_guard. destruct (negb b); [auto|].
       erewrite ST_bind_ok by (by eapply ChannelFind_run). rewrite Hc1, El, st_fail_end. auto. }
  destruct (lookup_channel_some _ _ _ _ El) as (_&ch&Hch&_). exists ch. split; [done|].
  erewrite ST_bind_ok by exact E. rewrite st_guard. destruct (negb b); [auto 10|].
  erewrite ST_bind_ok by (by eapply ChannelFind_run). rewrite Hc1, El.
  erewrite ST_bind_ok by (apply ld_channel_run; by rewrite Hc1).
  destruct (eofTxd ch) eqn:Ee; [rewrite st_ret_end; auto 10|].
  set (w := [MSGID_CHANNEL_EOF] ++ c32toa (peerChannel ch)).
  pose proof (marked_run k (MSG_ID_SZ + UINT32_SZ) w l ch (fun c => c <| eofTxd := true |>) s1 s
    F1 (eq_sym Hc1) (eq_sym Hst1) Hcs1 ltac:(done) ltac:(clia) ltac:(by rewrite Hc1)) as Hm.
  destruct ((send_payload _ w;; send_and_mark l _) s1) as [r s']. by right.
Qed.

(** CLOSE is sent once, likewise; it is not refused while a key exchange
    runs. *)
Theorem SendChannelClose_spec k id s :
  can_send k s -> 512 <= k -> chan_inv [] (chan s) ->
  match lookup_channel (chan s) id WS_CHANNEL_ID_PEER with
  | None => let '(r, s') := SendChannelClose id s in s' = s /\ r = Err WS_INVALID_CHANID
  | Some l => exists ch, channels (chan s) !! l = Some ch /\
      let '(r, s') := SendChannelClose id s in
      if closeTxd ch then s' = s /\ r = Ok tt
      else mark_post s l ch ([MSGID_CHANNEL_CLOSE] ++ c32toa (peerChannel ch))
             (fun c => c <| closeTxd := true |>) r s'
  end.
Proof.
  intros Hcs Hk Hi. unfold SendChannelClose.
  destruct (lookup_channel (chan s) id WS_CHANNEL_ID_PEER) as [l|] eqn:El.
  2: { erewrite ST_bind_ok by (by eapply ChannelFind_run). by rewrite El. }
  destruct (lookup_channel_some _ _ _ _ El) as (_&ch&Hch&_). exists ch. split; [done|].
  erewrite ST_bind_ok by (by eapply ChannelFind_run). rewrite El.
  erewrite ST_bind_ok by (by apply ld_channel_run).
  destruct (closeTxd ch) eqn:Ee; [by rewrite st_ret_end|].
  set (w := [MSGID_CHANNEL_CLOSE] ++ c32toa (peerChannel ch)).
  pose proof (marked_run k (MSG_ID_SZ + UINT32_SZ) w l ch (fun c => c <| closeTxd := true |>) s s
    (conn_only_refl s) eq_refl eq_refl Hcs ltac:(done) ltac:(clia) Hch) as Hm.
  by destruct ((send_payload _ w;; send_and_mark l _) s) as [r s'].
Qed.

End Send.

(** ** Examples *)

(** A channel on which the peer takes ten bytes and is owed five. *)
Definition open_chan : WOLFSSH_CHANNEL :=
  (new_channel ID_CHANTYPE_SESSION 0 64 32768 (mkBuffer 0 0 STATIC_BUFFER_LEN [] (zeros STATIC_BUFFER_LEN) false))
    <| peerWindowSz := 10 |> <| peerMaxPacketSz := 100 |> <| pendingWindowAdjust := 5 |>.

Definition open_channel : WOLFSSH :=
  one_channel <| chan; channels ::= <[1%positive := open_chan]> |>.

Lemma open_channel_lookup : channels (chan open_channel) !! 1%positive = Some open_chan.
Proof. reflexivity. Qed.

Lemma open_chan_ok : channel_ok open_chan.
Proof. split; try (split; vm_compute; intuition congruence); vm_compute; congruence. Qed.

Lemma open_channel_inv : chan_inv [] (chan open_channel).
Proof.
  destruct (channels (chan one_channel) !! 1%positive) as [ch|] eqn:Ech; [|vm_compute in Ech; discriminate].
  apply (chan_inv_update [] (chan one_channel) 1%positive ch open_chan one_channel_inv Ech open_chan_ok).
  vm_compute in Ech. by injection Ech as <-.
Qed.

Lemma open_channel_can_send : @can_send server (fun _ => O) 900 open_channel.
Proof.
  split; [apply new_session_tx_ok|vm_compute; congruence|vm_compute; reflexivity].
Qed.


Example SendChannelExtendedData_spec_witness :
  (@SendChannelExtendedData server _ 0 [1; 2] open_channel).1 = Ok 2 /\
  data_post (fun w => w) open_channel 0
    (fun c => [MSGID_CHANNEL_EXTENDED_DATA] ++ c32toa (peerChannel c) ++ c32toa CHANNEL_EXTENDED_DATA_STDERR)
    [1; 2] (@SendChannelExtendedData server _ 0 [1; 2] open_channel).1
    (@SendChannelExtendedData server _ 0 [1; 2] open_channel).2.
Proof.
  split; [vm_compute; reflexivity|].
  exact (@SendChannelExtendedData_spec server _ _ _ _ _ 900 0 [1; 2] open_channel
    open_channel_can_send open_channel_inv ltac:(vm_compute; congruence)).
Defined.

Example ChannelCreditWindow_spec_witness :
  (@ChannelCreditWindow server _ 1%positive 7 open_channel).1 = Err WS_MSGID_NOT_ALLOWED_E /\
  chan_inv [] (chan (@ChannelCreditWindow server _ 1%positive 7 open_channel).2) /\
  credit_post (fun w => w) open_channel 1%positive open_chan 7
    (@ChannelCreditWindow server _ 1%positive 7 open_channel).1
    (@ChannelCreditWindow server _ 1%positive 7 open_channel).2.
Proof.
  split; [vm_compute; reflexivity|].
  exact (@ChannelCreditWindow_spec server _ _ _ _ _ 900 1%positive open_chan 7 open_channel
    open_channel_can_send ltac:(lia) open_channel_inv ltac:(vm_compute; left) open_channel_lookup
    ltac:(split; vm_compute; congruence)).
Defined.

Example SendPendingChannelWindowAdjust_spec_witness :
  match @SendPendingChannelWindowAdjust server _ (open_channel <| isKeying := 1 |>) with
  | (r, s') => r = Ok tt /\ s' = open_channel <| isKeying := 1 |>
  end.
Proof.
  set (s := open_channel <| isKeying := 1 |>).
  assert (@can_send server (fun _ => O) 900 s) as Hcs by (destruct open_channel_can_send; by split).
  generalize (@SendPendingChannelWindowAdjust_spec server _ _ _ _ _ 900 s Hcs
    ltac:(vm_compute; congruence) open_channel_inv).
  assert ((@SendPendingChannelWindowAdjust server _ s).1 = Ok tt) as Er by (vm_compute; reflexivity).
  destruct (@SendPendingChannelWindowAdjust server _ s) as [r s'].
  cbn [fst] in Er. subst r. intros [Hs _]. split; [reflexivity|]. apply Hs. discriminate.
Defined.

Example SendChannelClose_spec_witness :
  (@SendChannelClose server _ 0 open_channel).1 = Ok tt /\
  mark_post (fun w => w) open_channel 1%positive open_chan ([MSGID_CHANNEL_CLOSE] ++ c32toa 0)
    (fun c => c <| closeTxd := true |>)
    (@SendChannelClose server _ 0 open_channel).1 (@SendChannelClose server _ 0 open_channel).2.
Proof.
  split; [vm_compute; reflexivity|].
  generalize (@SendChannelClose_spec server _ _ _ _ _ 900 0 open_channel open_channel_can_send
    ltac:(lia) open_channel_inv).
  assert (lookup_channel (chan open_channel) 0 WS_CHANNEL_ID_PEER = Some 1%positive) as -> by reflexivity.
  intros (ch&Hch&Hp). pose proof (eq_trans (eq_sym Hch) open_channel_lookup) as [= ->]. revert Hp.
  destruct (@SendChannelClose server _ 0 open_channel) as [r s']. intros Hp. exact Hp.
Defined.

Example SendChannelEof_spec_witness :
  let s := open_channel <| acceptState := ACCEPT_SERVER_USERAUTH_SENT |> in
  let '(r, s') := @SendChannelEof server _ 0 s in
  r = Ok tt /\ mark_post (fun w => w) s 1%positive open_chan ([MSGID_CHANNEL_EOF] ++ c32toa 0)
                 (fun c => c <| eofTxd := true |>) r s'.
Proof.
  cbv zeta. set (s := open_channel <| acceptState := ACCEPT_SERVER_USERAUTH_SENT |>).
  assert (@can_send server (fun _ => O) 900 s) as Hcs by (destruct open_channel_can_send; by split).
  generalize (@SendChannelEof_spec server _ _ _ _ _ 900 0 s Hcs ltac:(lia) open_channel_inv).
  assert (lookup_channel (chan s) 0 WS_CHANNEL_ID_PEER = Some 1%positive) as -> by reflexivity.
  intros (ch&Hch&Hp). pose proof (eq_trans (eq_sym Hch) open_channel_lookup) as [= ->]. revert Hp.
  assert ((@SendChannelEof server _ 0 s).1 = Ok tt) as Er by (vm_compute; reflexivity).
  destruct (@SendChannelEof server _ 0 s) as [r s']. cbn [fst] in Er. subst r.
  intros [(_&_&_&[Hx|[Hx _]])|[_ Hm]]; [discriminate|discriminate|]. split; [reflexivity|exact Hm].
Defined.
