(* ===== verification/ChannelMsgs.v ===== *)
(** The handlers of the connection protocol's messages (internal.c,
    [DoGlobalRequestFwd] to [DoChannelExtendedData]): global requests, the life
    of a channel from its open to its close, the requests on a session channel,
    and received data with its window.

    A handler takes the payload of the packet and the index its data starts at;
    [len] is the payload's length. The updated index is not returned: the caller
    drops the rest of the packet whatever it is. *)

From S2P Require Import Prelude Codes Wire Names Buffer Fwd Algos Kdf Session Samples MsgFilter Transport.
From S2P Require Import Channels Send.

Section ChannelMsgs.
Context `{CTX} `{Crypto}.

(** [GetStringAlloc] with the session's memory. *)
Definition string_alloc (buf : bytes) (len i : Z) : M (bytes * Z) :=
  parse GetStringRef buf len i;;
  mem ← malloc;
  parse (GetStringAlloc mem) buf len i.

(** A request's name or type, matched as it arrived. *)
Definition GlobalRequestIs (name want : bytes) : bool := bytes_eqb name want.
Definition ChannelRequestIs (type name : bytes) : bool := bytes_eqb type name.

(** The result of a step and the request's refusal. *)
Definition step (m : M unit) : M (Z * bool) := r ← code m; mret (r, false).

(** ** Global requests *)

Definition DoGlobalRequestFwd (buf : bytes) (idx : Z) (wantReply isCancel : bool) : M unit :=
  let len := blen buf in
  r ← attempt (
    guard_err (len =? 0) WS_BAD_ARGUMENT;;
    '(bindAddr, begin) ← string_alloc buf len idx;
    '(requestedPort, _) ← parse GetUint32 buf len begin;
    match fwdCb with
    | None => fail WS_UNIMPLEMENTED_E
    | Some cb =>
      cbRet ← cb (if isCancel then WOLFSSH_FWD_REMOTE_CLEANUP else WOLFSSH_FWD_REMOTE_SETUP)
                (Some bindAddr) requestedPort;
      bindPort ← (
        if negb isCancel && (WS_FWD_PORT_CHECK <=? cbRet) then
          mret (if (requestedPort =? 0) && (cbRet <=? 65535) then cbRet else requestedPort)
        else if negb (cbRet =? WS_FWD_SUCCESS) then fail WS_RESOURCE_E
        else mret requestedPort);
      if negb isCancel && ((requestedPort =? 0) && (bindPort <? WS_FWD_PORT_CHECK)) then
        cb WOLFSSH_FWD_REMOTE_CLEANUP (Some bindAddr) bindPort;;
        fail WS_RESOURCE_E
      else mret (requestedPort, bindPort)
    end);
  if wantReply then
    match r with
    | inl (requestedPort, bindPort) =>
      if negb isCancel && (requestedPort =? 0) then SendGlobalRequestFwdSuccess true bindPort
      else SendRequestSuccess true
    | inr _ => SendRequestSuccess false
    end
  else
    match r with
    | inl _ => mret tt
    | inr e => if (e =? WS_UNIMPLEMENTED_E) || (e =? WS_RESOURCE_E) then mret tt else fail e
    end.

Definition GlobalRequestNeedsFwdCb (name buf : bytes) (len begin : Z) : M bool :=
  if negb (GlobalRequestIs name (str "tcpip-forward")) then mret false
  else
    r ← attempt (
      '(_, peek) ← parse GetStringRef buf len begin;
      '(bindPort, _) ← parse GetUint32 buf len peek;
      mret bindPort);
    match r with
    | inl bindPort => mret (bindPort =? 0)
    | inr _ => mret true
    end.

(** [None] leaves the request to the built-in handling. *)
Definition DoGlobalRequestAny (name buf : bytes) (len begin : Z) (wantReply : bool) : M (option Z) :=
  match globalReqAnyCb with
  | None => mret None
  | Some cb =>
    builtin ← GlobalRequestNeedsFwdCb name buf len begin;
    if (builtin : bool) then mret None
    else
      decision ← cb name (slice buf begin (len - begin)) wantReply;
      if negb (decision =? WOLFSSH_REQ_ACCEPT) && negb (decision =? WOLFSSH_REQ_REJECT) then mret None
      else
        let success := decision =? WOLFSSH_REQ_ACCEPT in
        if wantReply then ret ← code (SendRequestSuccess success); mret (Some ret)
        else mret (Some WS_SUCCESS)
  end.

Definition DoGlobalRequest (buf : bytes) (idx : Z) : M unit :=
  let len := blen buf in
  guard_err (len =? 0) WS_BAD_ARGUMENT;;
  '((_, wireName), begin) ← parse GetStringRef buf len idx;
  let wireName := ref_bytes wireName in
  '(name, _) ← parse (GetString 80) buf len idx;
  let globReqId := NameToId name in
  '(wantReply, begin) ← parse GetBoolean buf len begin;
  let wantReply := truthy wantReply in
  if (GlobalRequestIs wireName (str "tcpip-forward")
      || GlobalRequestIs wireName (str "cancel-tcpip-forward"))
     && (side =? WOLFSSH_ENDPOINT_CLIENT)
  then when wantReply (SendRequestSuccess false)
  else
    r ← DoGlobalRequestAny wireName buf len begin wantReply;
    match r with
    | Some ret => ret_code ret
    | None =>
      match globReqId with
      | ID_GLOBREQ_TCPIP_FWD => DoGlobalRequestFwd buf begin wantReply false
      | ID_GLOBREQ_TCPIP_FWD_CANCEL => DoGlobalRequestFwd buf begin wantReply true
      | _ =>
        match globalReqCb with
        | Some cb =>
          ret ← cb name (blen name) wantReply;
          if wantReply then SendRequestSuccess (ret =? WS_SUCCESS) else ret_code ret
        | None => when wantReply (SendRequestSuccess false)
        end
      end
    end.

(** ** Opening a channel *)

(** Host and origin of a forward, and whether the peer asks us to connect. *)
Definition forward := (bytes * Z * (bytes * Z))%type.

Definition DoChannelOpenForward (buf : bytes) (idx : Z) : M forward :=
  let len := blen buf in
  '(host, begin) ← string_alloc buf len idx;
  '(hostPort, begin) ← parse GetUint32 buf len begin;
  '(origin, begin) ← string_alloc buf len begin;
  '(originPort, _) ← parse GetUint32 buf len begin;
  mret ((host, hostPort), (origin, originPort)).

(** From here to [SendChannelOpenFail] a failure carries the reason it sends:
    [OPEN_OK] where the code sets none. The code's own [ret] is overwritten by
    the result of that send. *)
Definition with_reason {A} (m : M A) : M A :=
  r ← attempt m;
  match r with inl a => mret a | inr _ => fail OPEN_OK end.

(** A nonzero return code of a callback. *)
Definition refuse (ret : Z) : M unit := guard_err (negb (ret =? WS_SUCCESS)) OPEN_OK.

(** What the type of the channel allows, before there is one. *)
Definition open_request (typeId : AlgoId) (peerChannelId : Z) (buf : bytes) (begin : Z)
    : M (option forward) :=
  match typeId with
  | ID_CHANTYPE_SESSION =>
    if side =? WOLFSSH_ENDPOINT_CLIENT then fail OPEN_ADMINISTRATIVELY_PROHIBITED
    else
      s ← get;
      if 1 <=? channelListSz (chan s) then fail OPEN_ADMINISTRATIVELY_PROHIBITED else mret None
  | ID_CHANTYPE_TCPIP_DIRECT =>
    if side =? WOLFSSH_ENDPOINT_CLIENT then fail OPEN_ADMINISTRATIVELY_PROHIBITED
    else f ← with_reason (DoChannelOpenForward buf begin); mret (Some f)
  | ID_CHANTYPE_TCPIP_FORWARD =>
    f ← with_reason (DoChannelOpenForward buf begin); mret (Some f)
  | ID_CHANTYPE_AUTH_AGENT =>
    if side =? WOLFSSH_ENDPOINT_SERVER then fail OPEN_ADMINISTRATIVELY_PROHIBITED
    else
      s ← get;
      if negb (agentEnabled s) || (connectState s <? CONNECT_CLIENT_CHANNEL_AGENT_REQUEST_SENT)
      then fail OPEN_ADMINISTRATIVELY_PROHIBITED
      else
        match agent s with
        | Some a => modify (fun s => s <| agent := Some (a <| ag_channel := peerChannelId |>) |>);; mret None
        | None => fail OPEN_OK
        end
  | _ => fail OPEN_UNKNOWN_CHANNEL_TYPE
  end.

(** The policy on a channel that is not in the list yet, and its admission. *)
Definition admit_channel (typeId : AlgoId) (peerChannelId : Z) (f : option forward) (newChannel : loc)
    : M unit :=
  let forwarded := id_eqb typeId ID_CHANTYPE_TCPIP_FORWARD in
  guard_err (forwarded && (side =? WOLFSSH_ENDPOINT_SERVER)) OPEN_ADMINISTRATIVELY_PROHIBITED;;
  matched ← (if forwarded then
               on_fwd (FwdRemoteMatch (option_map (fun f => f.1.1) f) (default 0 (option_map (fun f => f.1.2) f)))
             else mret true);
  guard_err (negb matched) OPEN_ADMINISTRATIVELY_PROHIBITED;;
  ret ← call channelOpenCb (fun cb => cb newChannel) (mret WS_SUCCESS);
  s ← get;
  when (channelListSz (chan s) =? 0)
    (modify (fun s => s <| chan; defaultPeerChannelId := peerChannelId |>));;
  refuse ret;;
  (if id_eqb typeId ID_CHANTYPE_TCPIP_DIRECT || forwarded then
     match fwdCb with
     | None => fail OPEN_ADMINISTRATIVELY_PROHIBITED
     | Some cb =>
       let h := option_map (fun f => f.1.1) f in
       let hp := default 0 (option_map (fun f => f.1.2) f) in
       code (ChannelUpdateForward newChannel h hp (option_map (fun f => f.2.1) f)
               (default 0 (option_map (fun f => f.2.2) f)) (id_eqb typeId ID_CHANTYPE_TCPIP_DIRECT));;
       ret ← cb WOLFSSH_FWD_LOCAL_SETUP h hp;
       refuse ret;;
       st_channel newChannel (fun c => c <| fwdSetupTxd := true |>);;
       c ← ld_channel newChannel;
       ret ← cb WOLFSSH_FWD_CHANNEL_ID None (c_channel c);
       refuse ret
     end
   else mret tt);;
  ChannelAppend newChannel;;
  modify (fun s => s <| clientState := CLIENT_CHANNEL_OPEN_DONE |>).

(** The channel an open makes, or the reason it is refused; a channel made and
    then refused is deleted. *)
Definition open_channel_for (typ : bytes) (peerChannelId : Z) (buf : bytes) (begin : Z) : M loc :=
  let len := blen buf in
  '((peerInitialWindowSz, peerMaxPacketSz), begin) ← with_reason (
    '(w, begin) ← parse GetUint32 buf len begin;
    '(m, begin) ← parse GetUint32 buf len begin;
    mret ((w, m), begin));
  let typeId := NameToId typ in
  f ← open_request typeId peerChannelId buf begin;
  newChannel ← ChannelNew typeId windowSz maxPacketSz;
  match newChannel with
  | None => fail OPEN_RESOURCE_SHORTAGE
  | Some newChannel =>
    ChannelUpdatePeer newChannel peerChannelId peerInitialWindowSz peerMaxPacketSz;;
    r ← attempt (admit_channel typeId peerChannelId f newChannel);
    match r with
    | inl _ => mret newChannel
    | inr reason => ChannelDelete newChannel;; fail reason
    end
  end.

(** The reason and the description of a refusal. *)
Definition refusal (fail_reason : Z) : Z * bytes :=
  if fail_reason =? OPEN_OK then (OPEN_ADMINISTRATIVELY_PROHIBITED, str "Channel open failed.")
  else (fail_reason,
    if fail_reason =? OPEN_ADMINISTRATIVELY_PROHIBITED then str "Administratively prohibited."
    else if fail_reason =? OPEN_UNKNOWN_CHANNEL_TYPE then str "Channel type not supported."
    else str "Not enough resources.").

Definition DoChannelOpen (buf : bytes) (idx : Z) : M unit :=
  let len := blen buf in
  let refuse_open peerChannelId reason :=
    let '(fail_reason, description) := refusal reason in
    SendChannelOpenFail peerChannelId fail_reason description (str "en") in
  r ← attempt (
    '(typ, begin) ← parse (GetString 32) buf len idx;
    '(peerChannelId, begin) ← parse GetUint32 buf len begin;
    mret (typ, (peerChannelId, begin)));
  match r with
  | inr _ => refuse_open 0 OPEN_OK
  | inl (typ, (peerChannelId, begin)) =>
    r ← attempt (open_channel_for typ peerChannelId buf begin);
    match r with
    | inl newChannel => SendChannelOpenConf newChannel
    | inr reason => refuse_open peerChannelId reason
    end
  end.

Definition DoChannelOpenConf (buf : bytes) (idx : Z) : M unit :=
  let len := blen buf in
  guard_err (len =? 0) WS_BAD_ARGUMENT;;
  '(channelId, begin) ← parse GetUint32 buf len idx;
  '(peerChannelId, begin) ← parse GetUint32 buf len begin;
  '(peerInitialWindowSz, begin) ← parse GetUint32 buf len begin;
  '(peerMaxPacketSz, begin) ← parse GetUint32 buf len begin;
  channel ← ChannelFind channelId WS_CHANNEL_ID_SELF;
  match channel with
  | None => fail WS_INVALID_CHANID
  | Some channel =>
    c ← ld_channel channel;
    if openConfirmed c then
      code (SendDisconnect WOLFSSH_DISCONNECT_PROTOCOL_ERROR);;
      fail WS_INVALID_STATE_E
    else
      ChannelUpdatePeer channel peerChannelId peerInitialWindowSz peerMaxPacketSz;;
      ret ← call channelOpenConfCb (fun cb => cb channel) (mret WS_SUCCESS);
      ret_code ret;;
      modify (fun s => s <| serverState := SERVER_CHANNEL_OPEN_DONE |>
        <| chan; defaultPeerChannelId := peerChannelId |>)
  end.

Definition DoChannelOpenFail (buf : bytes) (idx : Z) : M unit :=
  let len := blen buf in
  guard_err (len =? 0) WS_BAD_ARGUMENT;;
  '(channelId, begin) ← parse GetUint32 buf len idx;
  '(_, begin) ← parse GetUint32 buf len begin;
  '(_, begin) ← parse (GetString 80) buf len begin;
  parse GetSize buf len begin;;
  channel ← ChannelFind channelId WS_CHANNEL_ID_SELF;
  match channel with
  | None => fail WS_INVALID_CHANID
  | Some channel =>
    c ← ld_channel channel;
    if openConfirmed c then
      code (SendDisconnect WOLFSSH_DISCONNECT_PROTOCOL_ERROR);;
      fail WS_INVALID_STATE_E
    else
      ret ← call channelOpenFailCb (fun cb => cb channel) (mret WS_SUCCESS);
      ret_code ret;;
      ChannelRemove channelId WS_CHANNEL_ID_SELF;;
      fail WS_CHANOPEN_FAILED
  end.

(** ** Closing a channel *)

Definition DoChannelEof (buf : bytes) (idx : Z) : M unit :=
  '(channelId, _) ← parse GetUint32 buf (blen buf) idx;
  channel ← ChannelFind channelId WS_CHANNEL_ID_SELF;
  match channel with
  | None => fail WS_INVALID_CHANID
  | Some channel =>
    call channelEofCb (fun cb => cb channel) (mret WS_SUCCESS);;
    st_channel channel (fun c => c <| eofRxd := true |>);;
    modify (fun s => s <| chan; lastRxId := channelId |>);;
    fail WS_EOF
  end.

(** EOF and close in answer to the peer's close. *)
Definition answer_close (channel : loc) : M Z :=
  c ← ld_channel channel;
  if negb (closeTxd c) && openConfirmed c then
    eofRet ← code (SendChannelEof (peerChannel c));
    c ← ld_channel channel;
    ret ← code (SendChannelClose (peerChannel c));
    mret (if ret =? WS_SUCCESS then eofRet else ret)
  else mret WS_SUCCESS.

Definition DoChannelClose (buf : bytes) (idx : Z) : M unit :=
  '(channelId, _) ← parse GetUint32 buf (blen buf) idx;
  channel ← ChannelFind channelId WS_CHANNEL_ID_SELF;
  match channel with
  | None => fail WS_INVALID_CHANID
  | Some channel =>
    call channelCloseCb (fun cb => cb channel) (mret WS_SUCCESS);;
    ret ← answer_close channel;
    if (ret =? WS_SUCCESS) || (ret =? WS_WANT_WRITE) then
      ChannelRemove channelId WS_CHANNEL_ID_SELF;;
      modify (fun s => s <| chan; lastRxId := channelId |>);;
      fail WS_CHANNEL_CLOSED
    else fail ret
  end.

(** ** Requests on a channel *)

Definition SetTerminalSize (widthChar' heightRows' widthPixels' heightPixels' : Z) : M unit :=
  modify (fun s => s <| term; widthChar := min widthChar' TERMINAL_DIMENSION_MAX |>
    <| term; heightRows := min heightRows' TERMINAL_DIMENSION_MAX |>
    <| term; widthPixels := min widthPixels' TERMINAL_DIMENSION_MAX |>
    <| term; heightPixels := min heightPixels' TERMINAL_DIMENSION_MAX |>).

Definition resize : M unit :=
  match termResizeCb with
  | None => mret tt
  | Some cb =>
    s ← get;
    let t := term s in
    ret ← cb (widthChar t) (heightRows t) (widthPixels t) (heightPixels t);
    guard_err (negb (ret =? WS_SUCCESS)) WS_FATAL_ERROR
  end.

Definition parse_size (buf : bytes) (begin : Z) : M ((Z * Z) * (Z * Z) * Z) :=
  let len := blen buf in
  '(w, begin) ← parse GetUint32 buf len begin;
  '(h, begin) ← parse GetUint32 buf len begin;
  '(wp, begin) ← parse GetUint32 buf len begin;
  '(hp, begin) ← parse GetUint32 buf len begin;
  mret (((w, h), (wp, hp)), begin).

(** The command of an exec or subsystem request. *)
Definition set_command (hasCommand : bool) (command' : option bytes) (c : WOLFSSH_CHANNEL) : WOLFSSH_CHANNEL :=
  if hasCommand then c <| command := command' |> else c.

(** [*rej] of a session request: granted already, the callback's, or what a
    context without one says. *)
Definition session_verdict (granted : bool) (cb : option (loc -> M Z)) (channel : loc) : M Z :=
  if granted then mret 0
  else match cb with
       | Some cb => cb channel
       | None => s ← get; mret (appChannels s)
       end.

(** The channel after the verdict, looked up again: a callback may have freed
    it. *)
Definition session_settle (channelId : Z) (hasCommand : bool) (prevType : Z) (rej : bool) : M unit :=
  found ← ChannelFind channelId WS_CHANNEL_ID_SELF;
  match found with
  | None => mret tt
  | Some channel =>
    if negb rej then
      st_channel channel (fun c => c <| sessionGranted := true |>);;
      modify (fun s => s <| clientState := CLIENT_DONE |>)
    else st_channel channel (fun c => (set_command hasCommand None c) <| sessionType := prevType |>)
  end.

(** The return code and [*rej]. *)
Definition DoChannelRequestSession (channelId : Z) (channel : loc) (sessionType' : Z)
    (cb : option (loc -> M Z)) (granted : bool) (buf : bytes) (idx : Z) : M (Z * bool) :=
  c ← ld_channel channel;
  let prevType := sessionType c in
  let hasCommand := negb (sessionType' =? WOLFSSH_SESSION_SHELL) in
  r ← attempt (if hasCommand then '(command, _) ← string_alloc buf (blen buf) idx; mret (Some command)
               else mret None);
  match r with
  | inr e => mret (e, false)
  | inl command' =>
    c ← ld_channel channel;
    if sessionGranted c then mret (WS_SUCCESS, true)
    else
      st_channel channel (fun c => (set_command hasCommand command' c) <| sessionType := sessionType' |>);;
      rej ← session_verdict granted cb channel;
      let rej := truthy rej in
      session_settle channelId hasCommand prevType rej;;
      mret (WS_SUCCESS, rej)
  end.

(** Types a client refuses from the server. *)
Definition session_request (type : bytes) : bool :=
  ChannelRequestIs type (str "shell") || ChannelRequestIs type (str "exec")
  || ChannelRequestIs type (str "subsystem") || ChannelRequestIs type (str "pty-req").

(** Types that are never answered. *)
Definition unanswered (type : bytes) : bool :=
  (ChannelRequestIs type (str "exit-status") || ChannelRequestIs type (str "exit-signal"))
  || ChannelRequestIs type (str "window-change").

(** Who decides: the side, the application's generic callback, or the built-in
    handling. The channel is looked up again after the callback. *)
Definition request_policy (channelId : Z) (channel : loc) (type buf : bytes) (begin : Z) (wantReply : bool)
    : M ((bool * bool) * option loc) :=
  if (side =? WOLFSSH_ENDPOINT_CLIENT) && session_request type then mret ((true, false), Some channel)
  else
    match channelReqAnyCb with
    | None => mret ((false, false), Some channel)
    | Some cb =>
      decision ← cb channel type (slice buf begin (blen buf - begin)) wantReply;
      channel ← ChannelFind channelId WS_CHANNEL_ID_SELF;
      mret ((decision =? WOLFSSH_REQ_REJECT, decision =? WOLFSSH_REQ_ACCEPT), channel)
    end.

Definition env_request (buf : bytes) (begin : Z) : M unit :=
  let len := blen buf in
  '(_, begin) ← parse (GetString WOLFSSH_MAX_NAMESZ) buf len begin;
  parse (GetString 32) buf len begin;;
  mret tt.

Definition pty_request (channel : loc) (buf : bytes) (begin : Z) : M unit :=
  let len := blen buf in
  '(_, begin) ← parse (GetString 32) buf len begin;
  '(((w, h), (wp, hp)), begin) ← parse_size buf begin;
  '(m, _) ← string_alloc buf len begin;
  modify (fun s => s <| term; modes := m |>);;
  st_channel channel (fun c => c <| ptyReq := true |>);;
  SetTerminalSize w h wp hp;;
  resize.

(** The result is the refusal. *)
Definition window_change (channel : loc) (buf : bytes) (begin : Z) : M (Z * bool) :=
  r ← attempt (parse_size buf begin);
  match r with
  | inr e => mret (e, false)
  | inl (((w, h), (wp, hp)), _) =>
    c ← ld_channel channel;
    if negb (ptyReq c) then mret (WS_SUCCESS, true)
    else step (SetTerminalSize w h wp hp;; resize)
  end.

Definition exit_signal (buf : bytes) (begin : Z) : M unit :=
  let len := blen buf in
  '(_, begin) ← parse (GetString WOLFSSH_MAX_NAMESZ) buf len begin;
  '(_, begin) ← parse GetBoolean buf len begin;
  '(_, begin) ← parse (GetString WOLFSSH_MAX_NAMESZ) buf len begin;
  parse (GetString WOLFSSH_MAX_NAMESZ) buf len begin;;
  mret tt.

Definition channel_request (channelId : Z) (channel : loc) (type : bytes) (granted : bool)
    (buf : bytes) (begin : Z) : M (Z * bool) :=
  let session ty cb := DoChannelRequestSession channelId channel ty cb granted buf begin in
  if ChannelRequestIs type (str "env") then step (env_request buf begin)
  else if ChannelRequestIs type (str "shell") then session WOLFSSH_SESSION_SHELL channelReqShellCb
  else if ChannelRequestIs type (str "exec") then session WOLFSSH_SESSION_EXEC channelReqExecCb
  else if ChannelRequestIs type (str "subsystem") then session WOLFSSH_SESSION_SUBSYSTEM channelReqSubsysCb
  else if ChannelRequestIs type (str "pty-req") then step (pty_request channel buf begin)
  else if ChannelRequestIs type (str "window-change") then window_change channel buf begin
  else if ChannelRequestIs type (str "exit-status") then
    step ('(st, _) ← parse GetUint32 buf (blen buf) begin;
          modify (fun s => s <| term; exitStatus := st |>))
  else if ChannelRequestIs type (str "exit-signal") then step (exit_signal buf begin)
  else if ChannelRequestIs type (str "auth-agent-req@openssh.com") then
    when (bool_decide (is_Some agentCb)) (modify (fun s => s <| useAgent := true |>));; mret (WS_SUCCESS, false)
  else if granted then mret (WS_SUCCESS, false)
  else mret (WS_SUCCESS, true).

Definition DoChannelRequest (buf : bytes) (idx : Z) : M unit :=
  let len := blen buf in
  '(channelId, begin) ← parse GetUint32 buf len idx;
  '((_, type), begin) ← parse GetStringRef buf len begin;
  let type := ref_bytes type in
  '(wantReply, begin) ← parse GetBoolean buf len begin;
  let wantReply := truthy wantReply in
  channel ← ChannelFind channelId WS_CHANNEL_ID_SELF;
  '(ret, rej) ← (
    match channel with
    | None => mret (WS_INVALID_CHANID, false)
    | Some channel =>
      '((rej, granted), channel) ← request_policy channelId channel type buf begin wantReply;
      match channel with
      | Some channel =>
        if (rej : bool) then mret (WS_SUCCESS, true)
        else channel_request channelId channel type granted buf begin
      | None => mret (WS_SUCCESS, rej)
      end
    end);
  if wantReply && negb ((match channel with Some _ => true | None => false end) && unanswered type) then
    replyRet ← code (SendChannelSuccess channelId ((ret =? WS_SUCCESS) && negb rej));
    ret_code (if replyRet =? WS_SUCCESS then ret else replyRet)
  else ret_code ret.

Definition DoChannelSuccess (buf : bytes) (idx : Z) : M unit :=
  let len := blen buf in
  guard_err (len =? 0) WS_BAD_ARGUMENT;;
  '(channelId, _) ← parse GetUint32 buf len idx;
  channel ← ChannelFind channelId WS_CHANNEL_ID_SELF;
  match channel with
  | None => fail WS_INVALID_CHANID
  | Some _ => modify (fun s => s <| serverState := SERVER_DONE |>)
  end.

Definition DoChannelFailure (buf : bytes) (idx : Z) : M unit :=
  let len := blen buf in
  guard_err (len =? 0) WS_BAD_ARGUMENT;;
  '(channelId, _) ← parse GetUint32 buf len idx;
  channel ← ChannelFind channelId WS_CHANNEL_ID_SELF;
  match channel with
  | None => fail WS_INVALID_CHANID
  | Some _ => fail WS_CHANOPEN_FAILED
  end.

(** ** Data *)

Definition DoChannelWindowAdjust (buf : bytes) (idx : Z) : M unit :=
  let len := blen buf in
  '(channelId, begin) ← parse GetUint32 buf len idx;
  '(bytesToAdd, _) ← parse GetUint32 buf len begin;
  channel ← ChannelFind channelId WS_CHANNEL_ID_SELF;
  match channel with
  | None => fail WS_INVALID_CHANID
  | Some channel =>
    c ← ld_channel channel;
    if UINT32_MAX -w peerWindowSz c <? bytesToAdd then fail WS_OVERFLOW_E
    else st_channel channel (fun c => c <| peerWindowSz ::= (fun w => w +w bytesToAdd) |>)
  end.

Definition DoChannelData (buf : bytes) (idx : Z) : M unit :=
  let len := blen buf in
  '(channelId, begin) ← parse GetUint32 buf len idx;
  '(dataSz, begin) ← parse GetSize buf len begin;
  channel ← ChannelFind channelId WS_CHANNEL_ID_SELF;
  match channel with
  | None => fail WS_INVALID_CHANID
  | Some channel =>
    c ← ld_channel channel;
    guard_err (c_maxPacketSz c <? dataSz) WS_RECV_OVERFLOW_E;;
    ChannelPutData channel (slice buf begin dataSz);;
    modify (fun s => s <| chan; lastRxId := channelId |>);;
    fail WS_CHAN_RXD
  end.

(** An operation on a channel's buffer of extended data. *)
Definition on_ext {A} (channel : loc) (m : ST WOLFSSH_BUFFER A) : M A :=
  c ← ld_channel channel;
  let '(r, b) := m (extDataBuffer c) in
  modify (fun s => s <| chan; channels ::= <[channel := c <| extDataBuffer := b |>]> |>);;
  lift_res r.

Definition DoChannelExtendedData (buf : bytes) (idx : Z) : M unit :=
  let len := blen buf in
  '(channelId, begin) ← parse GetUint32 buf len idx;
  '(dataTypeCode, begin) ← parse GetUint32 buf len begin;
  '(dataSz, begin) ← parse GetSize buf len begin;
  channel ← ChannelFind channelId WS_CHANNEL_ID_SELF;
  match channel with
  | None => fail WS_INVALID_CHANID
  | Some channel =>
    c ← ld_channel channel;
    guard_err (c_maxPacketSz c <? dataSz) WS_RECV_OVERFLOW_E;;
    guard_err (c_windowSz c <? dataSz) WS_RECV_OVERFLOW_E;;
    if dataTypeCode =? CHANNEL_EXTENDED_DATA_STDERR then
      mem ← malloc;
      on_ext channel (AppendBuffer mem (slice buf begin dataSz));;
      st_channel channel (fun c => c <| c_windowSz ::= (fun w => w -w dataSz) |>);;
      modify (fun s => s <| chan; lastRxId := channelId |>);;
      fail WS_EXTDATA
    else
      creditResult ← code (ChannelCreditWindow channel dataSz);
      modify (fun s => s <| chan; lastRxId := channelId |>);;
      if (creditResult =? WS_SUCCESS) || (creditResult =? WS_WANT_WRITE) then mret tt
      else fail creditResult
  end.

End ChannelMsgs.
