(* ===== verification/ConnSafe.v ===== *)
(** No message of the connection protocol can hurt: under callbacks that leave
    the session alone, every handler of [ChannelMsgs] returns on every payload,
    touches only live channels and the buffers' own bytes, and leaves the
    channels and the transport well formed.

    The handlers are run through weakest preconditions: a lemma per primitive
    says what of the state it keeps, and each handler is a walk over its body. *)

From S2P Require Import Prelude Codes Wire Names Buffer Fwd Algos Kdf Session Samples MsgFilter Transport.
From S2P Require Import Channels Send ChannelMsgs.

(** An application's memory whose wire and patience are the same. *)
Definition same_net (wire : bytes -> bytes) (retries : bytes -> nat) (x y : bytes) : Prop :=
  wire y = wire x /\ retries y = retries x.

Section ConnSafe.
Context `{CTX} `{Crypto} `{!CryptoSizes} (wire : bytes -> bytes) (retries : bytes -> nat)
  `{!Network wire retries} `{!Callbacks (same_net wire retries)}.

(** A session that can still send [k] bytes, with the channels [c] and the
    forwards [f]. *)
Record state_at (k : Z) (c : Channels) (f : FwdState) (s : WOLFSSH) : Prop := {
  sa_send : can_send retries k s;
  sa_chan : chan s = c;
  sa_fwd : fwd s = f
}.

Lemma state_at_weaken k k' c f s : state_at k c f s -> k' <= k -> state_at k' c f s.
Proof. intros [] ?. split; [by eapply can_send_weaken|done..]. Qed.

(** An assignment outside the transport, the channels and the forwards. *)
Lemma state_at_same k c f s s' :
  state_at k c f s -> tx s' = tx s -> app s' = app s -> chan s' = chan s -> fwd s' = fwd s ->
  state_at k c f s'.
Proof. intros [? <- <-] ????. split; [by eapply can_send_same|done..]. Qed.

Lemma state_at_chan k c f s g : state_at k c f s -> state_at k (g c) f (s <| chan ::= g |>).
Proof. intros [[] <- <-]. by split. Qed.

Lemma state_at_app k c f s x :
  state_at k c f s -> same_net wire retries (app s) x -> state_at k c f (s <| app := x |>).
Proof.
  intros [[] <- <-] [Hw Hr]. split; [|done|done]. split; [done|done|].
  unfold flush_turns in *. cbn. by rewrite Hr.
Qed.

Lemma state_at_kept k c f s x :
  state_at k c f s -> app_kept (same_net wire retries) (app s) x -> state_at k c f (s <| app := x |>).
Proof. intros Hs [->|Hx]; [by eapply state_at_same|by apply state_at_app]. Qed.

(** ** The primitives *)

Lemma wp_sent k n w c f s Q :
  state_at k c f s -> blen w <= n -> n + 256 <= k ->
  (forall r s', state_at (k - blen w - 128) c f s' -> Q r s') -> wp (send_packet n w) Q s.
Proof.
  intros [Hcs <- <-] Hw Hk HQ.
  destruct (send_packet_run wire retries k n w s Hcs Hw Hk) as [Hcs' Hm]. unfold wp.
  destruct (send_packet n w s) as [[[]|e|] s']; cbn [fst snd] in *; [..|by destruct Hm as (_&?&?&_&_&?)];
    apply HQ; (split; [done|destruct Hm as [F _]..]); unfold send_only in F; by rewrite F.
Qed.

Lemma wp_cb {A} k c f s (m : M A) Q :
  keeps (same_net wire retries) m -> state_at k c f s ->
  (forall a s', state_at k c f s' -> Q (inl a) s') -> wp m Q s.
Proof.
  intros Hm Hs HQ. destruct (Hm s) as (a&x&E&Hx). eapply wp_run; [exact E|]. cbn.
  apply HQ. by apply state_at_app.
Qed.

(** A callback that may be missing. *)
Lemma wp_call {A} k c f s (cb : option A) (g : A -> M Z) v Q :
  (forall a, cb = Some a -> keeps (same_net wire retries) (g a)) -> state_at k c f s ->
  (forall a s', state_at k c f s' -> Q (inl a) s') -> wp (call cb g (mret v)) Q s.
Proof.
  intros Hm Hs HQ. unfold call. destruct cb as [a|]; [by eapply wp_cb; eauto|]. apply wp_ret. by apply HQ.
Qed.

Lemma wp_find k own c f s id peer Q :
  state_at k c f s -> chan_inv own c -> Q (inl (lookup_channel c id peer)) s ->
  wp (ChannelFind id peer) Q s.
Proof.
  intros [_ <- _] Hi HQ. eapply wp_run; [by eapply ChannelFind_run|]. done.
Qed.

Lemma wp_ld k c f s l ch Q :
  state_at k c f s -> channels c !! l = Some ch -> Q (inl ch) s -> wp (ld_channel l) Q s.
Proof. intros [_ <- _] Hl HQ. eapply wp_run; [by apply ld_channel_run|]. done. Qed.

Lemma wp_st k c f s l ch g Q :
  state_at k c f s -> channels c !! l = Some ch ->
  (forall s', state_at k (c <| channels ::= <[l := g ch]> |>) f s' -> Q (inl tt) s') ->
  wp (st_channel l g) Q s.
Proof.
  intros Hs Hl HQ. pose proof (sa_chan _ _ _ _ Hs) as Hc. eapply wp_run; [apply st_channel_run; by rewrite Hc|].
  cbn. apply HQ. by apply (state_at_chan k c f s (fun c => c <| channels ::= <[l := g ch]> |>)).
Qed.

Lemma wp_malloc k c f s Q :
  state_at k c f s -> (forall b s', state_at k c f s' -> Q (inl b) s') -> wp malloc Q s.
Proof.
  intros Hs HQ. eapply wp_run; [apply malloc_run|]. cbn. apply HQ. by eapply state_at_same.
Qed.

(** A payload. *)
Definition payload (buf : bytes) : Prop := msg_ok buf (blen buf).

Lemma wp_parse {A} (p : parser A) `{!SafeReader p} buf i s (Q : (A * Z) + Z -> WOLFSSH -> Prop) :
  payload buf -> is_word32 i ->
  (forall a j, is_word32 j -> i <= j <= blen buf -> Q (inl (a, j)) s) -> (forall e, Q (inr e) s) ->
  wp (parse p buf (blen buf) i) Q s.
Proof.
  intros Hb Hi HQ HE. pose proof (reader_safe (p := p) buf (blen buf) i Hb Hi) as Hp.
  pose proof (msg_len _ _ Hb). unfold wp, parse. destruct (p buf (blen buf) i) as [[a|e|] j]; [|apply HE|done].
  apply HQ; [unfold is_word32 in *; lia|done].
Qed.

Lemma wp_word buf i s (Q : (Z * Z) + Z -> WOLFSSH -> Prop) :
  payload buf -> is_word32 i ->
  (forall v j, is_word32 v -> is_word32 j -> j <= blen buf -> Q (inl (v, j)) s) -> (forall e, Q (inr e) s) ->
  wp (parse GetUint32 buf (blen buf) i) Q s.
Proof.
  intros Hb Hi HQ HE. pose proof (msg_len _ _ Hb). unfold wp, parse.
  destruct (GetUint32_spec buf (blen buf) i Hb Hi) as [(Hle&v&Hv&_&->)|[_ ->]]; [|apply HE].
  apply HQ; [done|unfold is_word32 in *; clia|done].
Qed.

Lemma wp_size buf i s (Q : (Z * Z) + Z -> WOLFSSH -> Prop) :
  payload buf -> is_word32 i ->
  (forall v j, is_word32 v -> is_word32 j -> j + v <= blen buf -> Q (inl (v, j)) s) -> (forall e, Q (inr e) s) ->
  wp (parse GetSize buf (blen buf) i) Q s.
Proof.
  intros Hb Hi HQ HE. pose proof (msg_len _ _ Hb). unfold wp, parse.
  destruct (GetSize_spec buf (blen buf) i Hb Hi) as [(v&Hv&Hle&->)|(j&_&->)]; [|apply HE].
  apply HQ; [done|unfold is_word32 in *; clia|lia].
Qed.

Lemma wp_string_alloc k c f s buf i Q :
  payload buf -> is_word32 i -> state_at k c f s ->
  (forall a j s', state_at k c f s' -> is_word32 j -> Q (inl (a, j)) s') ->
  (forall e s', state_at k c f s' -> Q (inr e) s') ->
  wp (string_alloc buf (blen buf) i) Q s.
Proof.
  intros Hb Hi Hs HQ HE. unfold string_alloc. apply wp_bind.
  apply (wp_parse _); [done..| |]; [intros a j _ _|intros e; by apply HE].
  apply wp_bind. eapply wp_malloc; [done|]. intros m s' Hs'. cbv beta iota.
  apply (wp_parse _); [done..| |]; [intros a' j' Hj _; by apply HQ|intros e; by apply HE].
Qed.

(** ** The handlers *)

(** What a handler promises: the channels and the transport stay well formed. *)
Definition ends (f : FwdState) {A} (r : A) (s : WOLFSSH) : Prop :=
  exists c, state_at 0 c f s /\ chan_inv [] c.

Lemma ends_at {A} k c f (r : A) s : state_at k c f s -> chan_inv [] c -> 0 <= k -> ends f r s.
Proof. intros Hs Hi Hk. exists c. split; [by eapply state_at_weaken|done]. Qed.

Lemma wp_set k c f s (g : WOLFSSH -> WOLFSSH) Q :
  state_at k c f s -> tx (g s) = tx s -> app (g s) = app s -> chan (g s) = chan s -> fwd (g s) = fwd s ->
  (forall s', state_at k c f s' -> Q (inl tt) s') -> wp (modify g) Q s.
Proof. intros Hs ?? ? ? HQ. apply wp_modify, HQ. by eapply state_at_same. Qed.

Lemma wp_set_chan k c f s g Q :
  state_at k c f s -> (forall s', state_at k (g c) f s' -> Q (inl tt) s') ->
  wp (modify (fun s => s <| chan ::= g |>)) Q s.
Proof. intros Hs HQ. apply wp_modify, HQ. by apply state_at_chan. Qed.

(** The parts of the channels their invariant does not mention. *)
Lemma chan_inv_same own c c' :
  chan_inv own c -> channels c' = channels c -> channelList c' = channelList c ->
  channelListSz c' = channelListSz c -> nextChannel c' = nextChannel c -> channelNext c' = channelNext c ->
  chan_inv own c'.
Proof. intros [] E1 E2 E3 E4 E5. split; rewrite ?E1, ?E2, ?E3, ?E4, ?E5; done. Qed.

(** An assignment that keeps a channel's own invariant. *)
Lemma chan_inv_set own c l ch g :
  chan_inv own c -> channels c !! l = Some ch -> (channel_ok ch -> channel_ok (g ch)) ->
  c_channel (g ch) = c_channel ch -> chan_inv own (c <| channels ::= <[l := g ch]> |>).
Proof.
  intros Hi Hl Hok Hid. eapply chan_inv_update; [done..| |done]. apply Hok. by eapply ci_each.
Qed.

(** The size of a short message. *)
Ltac short :=
  repeat match goal with |- context [blen ?w] =>
    let n := eval lazy in (blen w) in change (blen w) with n end; clia.

Ltac done_ends := solve [eapply ends_at; [eassumption|assumption|lia]].

Lemma DoChannelWindowAdjust_safe k c f s buf i :
  state_at k c f s -> chan_inv [] c -> 0 <= k -> payload buf -> is_word32 i ->
  wp (DoChannelWindowAdjust buf i) (ends f) s.
Proof.
  intros Hs Hi Hk Hb Hx. unfold DoChannelWindowAdjust.
  apply wp_bind, wp_word; [done..| |intros; done_ends]. intros id j _ Hj _.
  apply wp_bind, wp_word; [done..| |intros; done_ends]. intros n j' Hn _ _.
  apply wp_bind. eapply wp_find; [done..|]. cbv beta iota.
  destruct (lookup_channel c id WS_CHANNEL_ID_SELF) as [l|] eqn:El; [|wp_step; done_ends].
  destruct (lookup_channel_some _ _ _ _ El) as (_&ch&Hch&_).
  apply wp_bind. eapply wp_ld; [done..|]. wp_step; [wp_step; done_ends|].
  eapply wp_st; [done..|]. intros s' Hs'. eapply ends_at; [done| |done].
  eapply (chan_inv_set _ _ _ _ _ Hi Hch); [|done]. intros []. split; try done. apply wrap32_range.
Qed.

Lemma wp_frame k n w c f s Q :
  state_at k c f s -> blen w <= n -> n + 256 <= k ->
  (forall s', state_at (k - blen w - 128) c f s' -> Q (inl tt) s') ->
  (forall e s', state_at (k - blen w - 128) c f s' -> Q (inr e) s') -> wp (send_payload n w) Q s.
Proof.
  intros [Hcs <- <-] Hw Hk HQ HE. pose proof (frame_run wire retries k n w s Hcs Hw Hk) as Hf.
  pose proof (blen_nonneg w). unfold wp.
  destruct (send_payload n w s) as [[[]|e|] s']; [| |done]; destruct Hf as (F&Hcs'&_).
  - apply HQ. split; [done|..]; unfold send_only in F; by rewrite F.
  - apply HE. split; [eapply can_send_weaken; [done|lia]|..]; unfold send_only in F; by rewrite F.
Qed.

Lemma wp_flush k c f s Q :
  state_at k c f s -> 0 <= k -> (forall r s', state_at k c f s' -> Q r s') -> wp wolfSSH_SendPacket Q s.
Proof.
  intros [Hcs <- <-] Hk HQ. pose proof (flush_run wire retries k s Hcs Hk) as Hf. unfold wp.
  destruct (wolfSSH_SendPacket s) as [[[]|e|] s']; [..|done]; destruct Hf as (F&Hcs'&_);
    apply HQ; (split; [done|..]); unfold send_only in F; by rewrite F.
Qed.

Lemma wp_allowed k c f msg s Q :
  state_at k c f s -> (forall b s', state_at k c f s' -> Q (inl b) s') ->
  wp (IsMessageAllowed msg WS_MSG_SEND) Q s.
Proof.
  intros Hs HQ. destruct (allowed_run msg s) as (b&s'&E&F&Hc&Ht&Ha). eapply wp_run; [exact E|]. cbn.
  apply HQ. eapply state_at_same; [done..|]. unfold conn_only in F. by rewrite F.
Qed.

(** What a message recorded on a channel leaves: no channel is gone. *)
Definition still_live (c c' : Channels) : Prop :=
  forall l, is_Some (channels c !! l) -> is_Some (channels c' !! l).

Lemma wp_marked k n w c f s l ch mark Q :
  state_at k c f s -> chan_inv [] c -> channels c !! l = Some ch -> blen w <= n -> n + 256 <= k ->
  (channel_ok ch -> channel_ok (mark ch)) -> c_channel (mark ch) = c_channel ch ->
  (forall r s' c', state_at (k - blen w - 128) c' f s' -> chan_inv [] c' -> still_live c c' -> Q r s') ->
  wp (send_payload n w;; send_and_mark l mark) Q s.
Proof.
  intros Hs Hi Hl Hw Hk Hok Hid HQ. pose proof (blen_nonneg w).
  apply wp_bind. eapply wp_frame; [done..| |].
  2: { intros e s' Hs'. eapply HQ; [done..|]. by intros ?. }
  intros s1 Hs1. apply wp_bind, wp_code. eapply wp_flush; [done|lia|]. intros r s2 Hs2.
  wp_step. wp_step. wp_step.
  assert (forall s' c', state_at (k - blen w - 128) c' f s' -> chan_inv [] c' -> still_live c c' ->
    wp (ret_code (match r with inl _ => 0 | inr e => e end)) Q s') as Hret.
  { intros s' c' Hs' Hi' Hlv. wp_step; by eapply HQ. }
  wp_step.
  - eapply wp_st; [done..|]. intros s3 Hs3. eapply Hret; [exact Hs3| |].
    + by eapply chan_inv_set.
    + intros l' Hl'. cbn. destruct (decide (l = l')) as [<-|?]; [rewrite lookup_insert_eq; by eexists|].
      by rewrite lookup_insert_ne.
  - eapply Hret; [exact Hs2|done|by intros ?].
Qed.

Lemma wp_SendChannelEof k c f s id Q :
  state_at k c f s -> chan_inv [] c -> 512 <= k ->
  (forall r s' c', state_at (k - 256) c' f s' -> chan_inv [] c' -> still_live c c' -> Q r s') ->
  wp (SendChannelEof id) Q s.
Proof.
  intros Hs Hi Hk HQ. unfold SendChannelEof.
  assert (forall r s', state_at k c f s' -> Q r s') as HQ'.
  { intros r s' Hs'. eapply HQ; [eapply state_at_weaken; [exact Hs'|lia]|done|by intros ?]. }
  apply wp_bind. eapply wp_allowed; [done|]. intros b s1 Hs1. cbv iota.
  wp_step. wp_step; [by apply HQ'|]. apply wp_bind. eapply wp_find; [done..|]. cbv iota.
  destruct (lookup_channel c id WS_CHANNEL_ID_PEER) as [l|] eqn:El; [|wp_step; by apply HQ'].
  destruct (lookup_channel_some _ _ _ _ El) as (_&ch&Hch&_). apply wp_bind.
  eapply wp_ld; [done..|]. wp_step; [wp_step; by apply HQ'|].
  eapply wp_marked; [done..|done|clia| | |].
  - by intros [].
  - done.
  - intros r s' c' Hs' Hi' Hl. eapply HQ; [|done..]. eapply state_at_weaken; [exact Hs'|]. short.
Qed.

Lemma wp_SendChannelClose k c f s id Q :
  state_at k c f s -> chan_inv [] c -> 512 <= k ->
  (forall r s' c', state_at (k - 256) c' f s' -> chan_inv [] c' -> still_live c c' -> Q r s') ->
  wp (SendChannelClose id) Q s.
Proof.
  intros Hs Hi Hk HQ. unfold SendChannelClose.
  assert (forall r s', state_at k c f s' -> Q r s') as HQ'.
  { intros r s' Hs'. eapply HQ; [eapply state_at_weaken; [exact Hs'|lia]|done|by intros ?]. }
  apply wp_bind. eapply wp_find; [done..|]. cbv iota.
  destruct (lookup_channel c id WS_CHANNEL_ID_PEER) as [l|] eqn:El; [|wp_step; by apply HQ'].
  destruct (lookup_channel_some _ _ _ _ El) as (_&ch&Hch&_). apply wp_bind.
  eapply wp_ld; [done..|]. wp_step; [wp_step; by apply HQ'|].
  eapply wp_marked; [done..|done|clia| | |].
  - by intros [].
  - done.
  - intros r s' c' Hs' Hi' Hl. eapply HQ; [|done..]. eapply state_at_weaken; [exact Hs'|]. short.
Qed.

Lemma wp_SendDisconnect k c f s reason Q :
  state_at k c f s -> 512 <= k -> (forall r s', state_at (k - 256) c f s' -> Q r s') ->
  wp (SendDisconnect reason) Q s.
Proof.
  intros Hs Hk HQ. unfold SendDisconnect. wp_step. eapply wp_set; [done..|]. intros s1 Hs1. cbv iota.
  wp_step. eapply wp_frame; [done|done|clia| |].
  2: { intros e s' Hs'. apply HQ. eapply state_at_weaken; [eassumption|]. short. }
  intros s2 Hs2. wp_step. eapply wp_set; [done..|]. intros s3 Hs3. cbv iota.
  eapply wp_flush; [done|short|]. intros r s4 Hs4. apply HQ. eapply state_at_weaken; [eassumption|]. short.
Qed.

Lemma wp_remove k c f s id Q :
  state_at k c f s -> chan_inv [] c ->
  (forall r s' c', state_at k c' f s' -> chan_inv [] c' -> Q r s') -> wp (ChannelRemove id WS_CHANNEL_ID_SELF) Q s.
Proof.
  intros Hs Hi HQ. pose proof (sa_chan _ _ _ _ Hs) as Hc. rewrite <- Hc in Hi.
  pose proof (ChannelRemove_run (same_net wire retries) id WS_CHANNEL_ID_SELF s Hi) as Hr. rewrite Hc in *.
  destruct (lookup_channel c id WS_CHANNEL_ID_SELF) as [l|] eqn:El.
  - destruct Hr as (x&E&Hx). eapply wp_run; [exact E|]. cbn. eapply (HQ _ _ (drop_channel l c)).
    + apply state_at_kept; [by apply state_at_chan|done].
    + apply drop_channel_inv; [done|]. by destruct (lookup_channel_some _ _ _ _ El).
  - eapply wp_run; [exact Hr|]. cbn. by eapply HQ.
Qed.

(** ** The handlers of a channel's life *)

Lemma DoChannelOpenConf_safe k c f s buf i :
  state_at k c f s -> chan_inv [] c -> 512 <= k -> payload buf -> is_word32 i ->
  wp (DoChannelOpenConf buf i) (ends f) s.
Proof.
  intros Hs Hi Hk Hb Hx. unfold DoChannelOpenConf. wp_step. wp_step; [done_ends|].
  apply wp_bind, wp_word; [done..| |intros; done_ends]. intros id j1 Hid Hj1 _.
  apply wp_bind, wp_word; [done..| |intros; done_ends]. intros pid j2 Hpid Hj2 _.
  apply wp_bind, wp_word; [done..| |intros; done_ends]. intros pw j3 Hpw Hj3 _.
  apply wp_bind, wp_word; [done..| |intros; done_ends]. intros pm j4 Hpm Hj4 _.
  apply wp_bind. eapply wp_find; [done..|]. cbv iota.
  destruct (lookup_channel c id WS_CHANNEL_ID_SELF) as [l|] eqn:El; [|wp_step; done_ends].
  destruct (lookup_channel_some _ _ _ _ El) as (_&ch&Hch&_).
  apply wp_bind. eapply wp_ld; [done..|]. wp_step.
  { wp_step. wp_step. eapply wp_SendDisconnect; [done|lia|]. intros r s' Hs'. wp_step. done_ends. }
  wp_step. eapply wp_st; [done..|]. intros s1 Hs1. cbv iota.
  assert (chan_inv [] (c <| channels ::= <[l := ch <| peerChannel := pid |> <| peerWindowSz := pw |>
    <| peerMaxPacketSz := pm |> <| openConfirmed := true |>]> |>)) as Hi1.
  { apply (chan_inv_set _ _ _ _ (fun ch => ch <| peerChannel := pid |> <| peerWindowSz := pw |>
      <| peerMaxPacketSz := pm |> <| openConfirmed := true |>) Hi Hch); [|done].
    intros [? ? ? ? ? ? ? []]. by split. }
  apply wp_bind. eapply wp_call; [intros cb Hcb; by apply keep_openConf|done|]. intros a s2 Hs2. cbv iota.
  wp_step. wp_step; [|done_ends].
  apply wp_modify. eapply (ends_at k _ f).
  - refine (state_at_chan k _ f (s2 <| serverState := SERVER_CHANNEL_OPEN_DONE |>)
      (fun c => c <| defaultPeerChannelId := pid |>) _). by eapply state_at_same; [exact Hs2|..].
  - by eapply chan_inv_same.
  - lia.
Qed.

Lemma DoChannelOpenFail_safe k c f s buf i :
  state_at k c f s -> chan_inv [] c -> 512 <= k -> payload buf -> is_word32 i ->
  wp (DoChannelOpenFail buf i) (ends f) s.
Proof.
  intros Hs Hi Hk Hb Hx. unfold DoChannelOpenFail. wp_step. wp_step; [done_ends|].
  apply wp_bind, wp_word; [done..| |intros; done_ends]. intros id j1 Hid Hj1 _.
  apply wp_bind, wp_word; [done..| |intros; done_ends]. intros pid j2 Hpid Hj2 _.
  apply wp_bind, (wp_parse _); [done..| |intros; done_ends]. intros d j3 Hj3 _.
  apply wp_bind, wp_size; [done..| |intros; done_ends]. intros sz j4 Hsz Hj4 _.
  apply wp_bind. eapply wp_find; [done..|]. cbv iota.
  destruct (lookup_channel c id WS_CHANNEL_ID_SELF) as [l|] eqn:El; [|wp_step; done_ends].
  destruct (lookup_channel_some _ _ _ _ El) as (_&ch&Hch&_).
  apply wp_bind. eapply wp_ld; [done..|]. wp_step.
  { wp_step. wp_step. eapply wp_SendDisconnect; [done|lia|]. intros r s' Hs'. wp_step. done_ends. }
  apply wp_bind. eapply wp_call; [intros cb Hcb; by apply keep_openFail|done|]. intros a s2 Hs2. cbv iota.
  wp_step. wp_step; [|done_ends].
  wp_step. eapply wp_remove; [done..|]. intros [?|?] s3 c3 Hs3 Hi3; cbv iota; [wp_step|]; done_ends.
Qed.

Lemma DoChannelEof_safe k c f s buf i :
  state_at k c f s -> chan_inv [] c -> 512 <= k -> payload buf -> is_word32 i ->
  wp (DoChannelEof buf i) (ends f) s.
Proof.
  intros Hs Hi Hk Hb Hx. unfold DoChannelEof.
  apply wp_bind, wp_word; [done..| |intros; done_ends]. intros id j1 Hid Hj1 _.
  apply wp_bind. eapply wp_find; [done..|]. cbv iota.
  destruct (lookup_channel c id WS_CHANNEL_ID_SELF) as [l|] eqn:El; [|wp_step; done_ends].
  destruct (lookup_channel_some _ _ _ _ El) as (_&ch&Hch&_).
  apply wp_bind. eapply wp_call; [intros cb Hcb; by apply keep_eof|done|]. intros a s2 Hs2. cbv iota.
  wp_step. eapply wp_st; [done..|]. intros s3 Hs3. cbv iota.
  wp_step. eapply (wp_set_chan _ _ _ _ (fun c => c <| lastRxId := id |>)); [done|]. intros s4 Hs4.
  cbv iota. wp_step. eapply ends_at; [done| |lia].
  apply (chan_inv_same [] (c <| channels ::= <[l := ch <| eofRxd := true |>]> |>)); [|done..].
  apply (chan_inv_set _ _ _ _ (fun ch => ch <| eofRxd := true |>) Hi Hch); [|done]. by intros [].
Qed.

Lemma DoChannelClose_safe k c f s buf i :
  state_at k c f s -> chan_inv [] c -> 1024 <= k -> payload buf -> is_word32 i ->
  wp (DoChannelClose buf i) (ends f) s.
Proof.
  intros Hs Hi Hk Hb Hx. unfold DoChannelClose.
  apply wp_bind, wp_word; [done..| |intros; done_ends]. intros id j1 Hid Hj1 _.
  apply wp_bind. eapply wp_find; [done..|]. cbv iota.
  destruct (lookup_channel c id WS_CHANNEL_ID_SELF) as [l|] eqn:El; [|wp_step; done_ends].
  destruct (lookup_channel_some _ _ _ _ El) as (_&ch&Hch&_).
  apply wp_bind. eapply wp_call; [intros cb Hcb; by apply keep_close|done|]. intros a s2 Hs2. cbv iota.
  assert (forall r s' k' c', state_at k' c' f s' -> 0 <= k' -> chan_inv [] c' ->
    wp (if (r =? WS_SUCCESS) || (r =? WS_WANT_WRITE) then
          ChannelRemove id WS_CHANNEL_ID_SELF;;
          modify (fun s => s <| chan; lastRxId := id |>);; fail WS_CHANNEL_CLOSED
        else fail r) (ends (A := unit + Z) f) s') as Hend.
  { intros r s' k' c' Hs' Hk' Hi'. wp_step; [|wp_step; done_ends].
    wp_step. eapply wp_remove; [done..|]. intros [?|?] s3 c3 Hs3 Hi3; cbv iota; [|done_ends].
    wp_step. eapply (wp_set_chan _ _ _ _ (fun c => c <| lastRxId := id |>)); [done|]. intros s4 Hs4.
    cbv iota. wp_step. eapply ends_at; [done| |lia]. by eapply chan_inv_same. }
  apply wp_bind. unfold answer_close. apply wp_bind. eapply wp_ld; [done..|]. wp_step.
  2: { wp_step. apply (Hend WS_SUCCESS _ k c); [done|lia|done]. }
  apply wp_bind, wp_code. eapply wp_SendChannelEof; [done..|lia|]. intros r s3 c3 Hs3 Hi3 Hlv. cbv iota.
  destruct (Hlv l) as [ch3 Hch3]; [by eexists|].
  apply wp_bind. eapply wp_ld; [done..|]. cbv iota.
  apply wp_bind, wp_code. eapply wp_SendChannelClose; [done..|lia|]. intros r2 s4 c4 Hs4 Hi4 _. cbv iota.
  wp_step. eapply Hend; [exact Hs4|lia|done].
Qed.

(** ** The handlers of data *)

(** The channel's store after two assignments to one channel. *)
Lemma channels_twice c l ch1 ch2 :
  c <| channels ::= <[l := ch1]> |> <| channels ::= <[l := ch2]> |> = c <| channels ::= <[l := ch2]> |>.
Proof. destruct c. unfold field_set. cbn. by rewrite insert_insert_eq. Qed.

Lemma wp_put k c f s l ch data Q :
  state_at k c f s -> chan_inv [] c -> channels c !! l = Some ch ->
  (forall r s' c', state_at k c' f s' -> chan_inv [] c' -> Q r s') -> wp (ChannelPutData l data) Q s.
Proof.
  intros Hs Hi Hch HQ. pose proof (sa_chan _ _ _ _ Hs) as Hc. rewrite <- Hc in Hi, Hch.
  pose proof (ChannelPutData_run [] l ch data s Hi Hch) as Hp. rewrite Hc in *.
  destruct (c_windowSz ch <? blen data); [eapply wp_run; [exact Hp|by eapply HQ]|].
  destruct (bufferSz _ <=? _); [eapply wp_run; [exact Hp|by eapply HQ]|].
  destruct Hp as (ch'&E&Hok&_&_&Hch'). eapply wp_run; [exact E|]. cbn.
  eapply (HQ _ _ (c <| channels ::= <[l := ch']> |>)).
  - by apply (state_at_chan k c f s (fun c => c <| channels ::= <[l := ch']> |>)).
  - eapply chan_inv_update; [done..|]. by rewrite Hch'.
Qed.

Lemma DoChannelData_safe k c f s buf i :
  state_at k c f s -> chan_inv [] c -> 0 <= k -> payload buf -> is_word32 i ->
  wp (DoChannelData buf i) (ends f) s.
Proof.
  intros Hs Hi Hk Hb Hx. unfold DoChannelData.
  apply wp_bind, wp_word; [done..| |intros; done_ends]. intros id j1 Hid Hj1 _.
  apply wp_bind, wp_size; [done..| |intros; done_ends]. intros n j2 Hn Hj2 _.
  apply wp_bind. eapply wp_find; [done..|]. cbv iota.
  destruct (lookup_channel c id WS_CHANNEL_ID_SELF) as [l|] eqn:El; [|wp_step; done_ends].
  destruct (lookup_channel_some _ _ _ _ El) as (_&ch&Hch&_).
  apply wp_bind. eapply wp_ld; [done..|]. wp_step. wp_step; [done_ends|].
  apply wp_bind. eapply wp_put; [done..|]. intros [?|?] s1 c1 Hs1 Hi1; cbv iota; [|done_ends].
  wp_step. eapply (wp_set_chan _ _ _ _ (fun c => c <| lastRxId := id |>)); [done|]. intros s2 Hs2.
  cbv iota. wp_step. eapply ends_at; [done| |lia]. by eapply chan_inv_same.
Qed.

(** Extended data within the window goes into its buffer whole. *)
Lemma ext_channel_ok ch b n :
  channel_ok ch -> buffer_ok b -> 0 <= n <= c_windowSz ch ->
  blen (unread b) = blen (unread (extDataBuffer ch)) + n ->
  channel_ok (ch <| extDataBuffer := b |> <| c_windowSz ::= (fun w => w -w n) |>).
Proof.
  intros [Hin Hext Hw Hwp ? ? ? ?] Hb Hn Hu. pose proof (ok_word _ Hin). pose proof (ok_idx _ Hin).
  pose proof (blen_nonneg (unread (extDataBuffer ch))).
  assert (c_windowSz ch -w n = c_windowSz ch - n) as E by (apply wrap32_small; lia).
  split; cbn; rewrite ?E; try done; lia.
Qed.

Lemma wp_ext {B} k c f s l ch mem data n (g : Channels -> Channels) (e : Z) (Q : B + Z -> WOLFSSH -> Prop) :
  state_at k c f s -> chan_inv [] c -> channels c !! l = Some ch ->
  blen data = n -> n <= c_windowSz ch ->
  (forall r s' c', state_at k c' f s' -> chan_inv [] c' -> Q r s') ->
  (forall s' ch', state_at k (c <| channels ::= <[l := ch']> |>) f s' ->
     chan_inv [] (c <| channels ::= <[l := ch']> |>) ->
     wp (modify (fun s => s <| chan ::= g |>);; fail e) Q s') ->
  wp (on_ext l (AppendBuffer mem data);;
      st_channel l (fun c => c <| c_windowSz ::= (fun w => w -w n) |>);;
      modify (fun s => s <| chan ::= g |>);; fail e) Q s.
Proof.
  intros Hs Hi Hch <- Hw HE HQ. pose proof (blen_nonneg data).
  pose proof (ci_each _ _ Hi _ _ Hch) as Hok. pose proof (ch_ext _ Hok) as Hext. pose proof (ch_in _ Hok) as Hin.
  pose proof (ok_word _ Hin). pose proof (ok_idx _ Hin). pose proof (ok_length _ Hin).
  pose proof (AppendBuffer_ok mem data (extDataBuffer ch) Hext) as Ha.
  pose proof (blen_nonneg (unread (extDataBuffer ch))). pose proof (ch_window _ Hok).
  specialize (Ha ltac:(lia)).
  apply wp_bind. unfold on_ext. apply wp_bind. eapply wp_ld; [done..|]. cbv beta iota.
  destruct (AppendBuffer mem data (extDataBuffer ch)) as [r b] eqn:Eb. cbv beta iota.
  apply wp_bind. eapply (wp_set_chan _ _ _ _ (fun c => c <| channels ::= <[l := ch <| extDataBuffer := b |>]> |>));
    [done|]. intros s1 Hs1. cbv beta iota in *.
  destruct r as [[]|e'|]; [| |done].
  - destruct Ha as [Hb Hu]. unfold wp at 1. cbn [lift_res].
    apply wp_bind. eapply wp_st; [exact Hs1|apply lookup_insert_eq|]. intros s2 Hs2. cbv iota.
    rewrite channels_twice in Hs2. eapply HQ; [exact Hs2|].
    eapply chan_inv_update; [done..| |done]. apply ext_channel_ok; [done..|lia|].
    rewrite Hu, blen_app. lia.
  - destruct Ha as [-> _]. unfold wp. cbn [lift_res]. eapply HE; [exact Hs1|].
    by rewrite (channels_same c l ch (ch <| extDataBuffer := extDataBuffer ch |>) Hch ltac:(by destruct ch)).
Qed.

Lemma DoChannelExtendedData_safe k c f s buf i :
  state_at k c f s -> chan_inv [] c -> 512 <= k -> payload buf -> is_word32 i ->
  wp (DoChannelExtendedData buf i) (ends f) s.
Proof.
  intros Hs Hi Hk Hb Hx. unfold DoChannelExtendedData.
  apply wp_bind, wp_word; [done..| |intros; done_ends]. intros id j1 Hid Hj1 _.
  apply wp_bind, wp_word; [done..| |intros; done_ends]. intros ty j2 Hty Hj2 _.
  apply wp_bind, wp_size; [done..| |intros; done_ends]. intros n j3 Hn Hj3 Hle.
  apply wp_bind. eapply wp_find; [done..|]. cbv iota.
  destruct (lookup_channel c id WS_CHANNEL_ID_SELF) as [l|] eqn:El; [|wp_step; done_ends].
  destruct (lookup_channel_some _ _ _ _ El) as (Hin&ch&Hch&_).
  apply wp_bind. eapply wp_ld; [done..|]. wp_step. wp_step; [done_ends|].
  wp_step. wp_step; [done_ends|]. match goal with E : (c_windowSz ch <? n) = false |- _ => apply Z.ltb_ge in E end.
  assert (blen (slice buf j3 n) = n) as Hsl by (apply blen_slice; unfold is_word32 in *; lia).
  wp_step.
  - apply wp_bind. eapply wp_malloc; [done|]. intros mem s1 Hs1. cbv iota.
    eapply (wp_ext _ _ _ _ _ _ _ _ _ (fun c => c <| lastRxId := id |>)); [exact Hs1|done|exact Hch|exact Hsl|lia| |].
    { intros r s' c' Hs' Hi'. done_ends. }
    intros s2 ch' Hs2 Hi2. apply wp_bind.
    eapply (wp_set_chan _ _ _ _ (fun c => c <| lastRxId := id |>)); [done|]. intros s3 Hs3.
    cbv iota. wp_step. eapply ends_at; [done| |lia]. by eapply chan_inv_same.
  - apply wp_bind, wp_code. destruct Hs as [Hcs <- <-].
    destruct (ChannelCreditWindow_run wire retries k l ch n s Hcs Hk Hi Hin Hch Hn) as (Hcs'&Hi1&Hp).
    destruct (ChannelCreditWindow l n s) as [r s1] eqn:E. cbn [fst snd] in *.
    destruct Hp as (owed&lost&frame&F&Hc&_&Hr).
    assert (state_at (k - 256) (chan s1) (fwd s) s1) as Hs1
      by (split; [done..|unfold conn_only in F; by rewrite F]).
    eapply wp_run; [exact E|].
    assert (forall v, wp (modify (fun s => s <| chan; lastRxId := id |>);;
      if (v =? WS_SUCCESS) || (v =? WS_WANT_WRITE) then mret tt else fail v) (ends (fwd s)) s1) as Hend.
    { intros v. apply wp_bind. eapply (wp_set_chan _ _ _ _ (fun c => c <| lastRxId := id |>)); [done|].
      intros s2 Hs2. cbv iota.
      assert (chan_inv [] ((chan s1) <| lastRxId := id |>)) by by eapply chan_inv_same.
      wp_step; wp_step; done_ends. }
    destruct r; [apply Hend|apply Hend|done].
Qed.

Lemma DoChannelSuccess_safe k c f s buf i :
  state_at k c f s -> chan_inv [] c -> 0 <= k -> payload buf -> is_word32 i ->
  wp (DoChannelSuccess buf i) (ends f) s.
Proof.
  intros Hs Hi Hk Hb Hx. unfold DoChannelSuccess. wp_step. wp_step; [done_ends|].
  apply wp_bind, wp_word; [done..| |intros; done_ends]. intros id j1 Hid Hj1 _.
  apply wp_bind. eapply wp_find; [done..|]. cbv iota.
  destruct (lookup_channel c id WS_CHANNEL_ID_SELF) as [l|]; [|wp_step; done_ends].
  eapply wp_set; [done..|]. intros s1 Hs1. done_ends.
Qed.

Lemma DoChannelFailure_safe k c f s buf i :
  state_at k c f s -> chan_inv [] c -> 0 <= k -> payload buf -> is_word32 i ->
  wp (DoChannelFailure buf i) (ends f) s.
Proof.
  intros Hs Hi Hk Hb Hx. unfold DoChannelFailure. wp_step. wp_step; [done_ends|].
  apply wp_bind, wp_word; [done..| |intros; done_ends]. intros id j1 Hid Hj1 _.
  apply wp_bind. eapply wp_find; [done..|]. cbv iota.
  destruct (lookup_channel c id WS_CHANNEL_ID_SELF) as [l|]; wp_step; done_ends.
Qed.

(** ** Requests on a channel *)

Ltac done_at := solve [eassumption | eapply state_at_weaken; [eassumption|short]].

(** A step that leaves the channels' invariant, whatever its channels. *)
Definition stays (k : Z) (f : FwdState) {A} (r : A) (s : WOLFSSH) : Prop :=
  exists c, state_at k c f s /\ chan_inv [] c.

Lemma wp_step_stays k f s (m : M unit) :
  wp m (stays k f) s -> wp (step m) (stays k f) s.
Proof.
  intros Hm. unfold step. apply wp_bind, wp_code. eapply wp_mono; [exact Hm|].
  intros r s' Hr. apply wp_ret. exact Hr.
Qed.

Lemma wp_resize k c f s : state_at k c f s -> chan_inv [] c -> wp resize (stays k f) s.
Proof.
  intros Hs Hi. unfold resize. destruct termResizeCb as [cb|] eqn:E; [|wp_step; by exists c].
  wp_step. wp_step. apply wp_bind. eapply wp_cb; [by apply (keep_resize cb)|done|].
  intros a s1 Hs1. cbv iota. wp_step; by exists c.
Qed.

Lemma wp_terminal {B} k c f s w h wp' hp (m : M B) (Q : B + Z -> WOLFSSH -> Prop) :
  state_at k c f s -> (forall s', state_at k c f s' -> wp m Q s') ->
  wp (SetTerminalSize w h wp' hp;; m) Q s.
Proof. intros Hs HQ. apply wp_bind. eapply wp_set; [done..|]. exact HQ. Qed.

Lemma wp_parse_size buf i s Q :
  payload buf -> is_word32 i ->
  (forall d j, is_word32 j -> Q (inl (d, j)) s) -> (forall e, Q (inr e) s) -> wp (parse_size buf i) Q s.
Proof.
  intros Hb Hi HQ HE. unfold parse_size.
  apply wp_bind, wp_word; [done..| |done]. intros w j1 _ Hj1 _.
  apply wp_bind, wp_word; [done..| |done]. intros h j2 _ Hj2 _.
  apply wp_bind, wp_word; [done..| |done]. intros wp' j3 _ Hj3 _.
  apply wp_bind, wp_word; [done..| |done]. intros hp j4 _ Hj4 _. by apply wp_ret, HQ.
Qed.

(** A channel's flags may be set. *)
Lemma wp_flag k c f s l ch g Q :
  state_at k c f s -> chan_inv [] c -> channels c !! l = Some ch ->
  (channel_ok ch -> channel_ok (g ch)) -> c_channel (g ch) = c_channel ch ->
  (forall s' c', state_at k c' f s' -> chan_inv [] c' -> c' = c <| channels ::= <[l := g ch]> |> ->
     Q (inl tt) s') ->
  wp (st_channel l g) Q s.
Proof.
  intros Hs Hi Hl Hok Hid HQ. eapply wp_st; [done..|]. intros s' Hs'.
  eapply HQ; [exact Hs'|by eapply chan_inv_set|done].
Qed.

Lemma wp_attempt {A} (m : M A) Q s : wp m (fun r s' => Q (inl r) s') s -> wp (attempt m) Q s.
Proof. unfold wp, attempt. by destruct (m s) as [[a|e|] s']. Qed.

Lemma set_command_ok hc v ty ch :
  channel_ok ch -> channel_ok ((set_command hc v ch) <| sessionType := ty |>).
Proof. intros []. by destruct hc; split. Qed.

Lemma wp_settle k c f s id hc ty rej :
  state_at k c f s -> chan_inv [] c -> wp (session_settle id hc ty rej) (stays k f) s.
Proof.
  intros Hs Hi. unfold session_settle. apply wp_bind. eapply wp_find; [done..|]. cbv iota.
  destruct (lookup_channel c id WS_CHANNEL_ID_SELF) as [l|] eqn:El; [|wp_step; by exists c].
  destruct (lookup_channel_some _ _ _ _ El) as (_&ch&Hch&_). wp_step.
  - apply wp_bind. eapply (wp_flag _ _ _ _ _ _ _ _ Hs Hi Hch); [by intros []|done|].
    intros s1 c1 Hs1 Hi1 _. cbv iota. eapply wp_set; [done..|]. intros s2 Hs2. by exists c1.
  - eapply (wp_flag _ _ _ _ _ _ _ _ Hs Hi Hch); [apply set_command_ok|by destruct hc|].
    intros s1 c1 Hs1 Hi1 _. by exists c1.
Qed.

Lemma wp_session k c f s id l ch ty cb granted buf i :
  state_at k c f s -> chan_inv [] c -> channels c !! l = Some ch -> payload buf -> is_word32 i ->
  (forall g, cb = Some g -> keeps (same_net wire retries) (g l)) ->
  wp (DoChannelRequestSession id l ty cb granted buf i) (stays k f) s.
Proof.
  intros Hs Hi Hch Hb Hx Hcb. unfold DoChannelRequestSession.
  apply wp_bind. eapply wp_ld; [done..|]. cbv beta iota zeta. set (hc := negb (ty =? _)).
  apply wp_bind, wp_attempt.
  eapply (wp_mono _ (fun _ s' => state_at k c f s')).
  { wp_step; [|wp_step; done]. apply wp_bind. eapply wp_string_alloc; [done..| |done].
    intros a j s1 Hs1 _. by wp_step. }
  intros [cmd|e] s1 Hs1; [|wp_step; by exists c].
  apply wp_bind. eapply wp_ld; [done..|]. wp_step; [wp_step; by exists c|].
  apply wp_bind. eapply (wp_flag _ _ _ _ _ _ _ _ Hs1 Hi Hch); [apply set_command_ok|by destruct hc|].
  intros s2 c2 Hs2 Hi2 _. cbv iota.
  assert (forall v s3, state_at k c2 f s3 ->
    wp (session_settle id hc (sessionType ch) (truthy v);; mret (WS_SUCCESS, truthy v)) (stays k f) s3) as Hlast.
  { intros v s3 Hs3. apply wp_bind. eapply wp_mono; [by eapply wp_settle|].
    intros [[]|e] s4 Hr; [by wp_step|exact Hr]. }
  apply wp_bind. unfold session_verdict. destruct granted; [wp_step; by apply Hlast|].
  destruct cb as [g|].
  - eapply wp_cb; [by apply Hcb|done|]. intros a s3 Hs3. by apply Hlast.
  - wp_step. wp_step. wp_step. by apply Hlast.
Qed.

(** Steps of a request that only parse. *)
Ltac parses := repeat first
  [ apply wp_bind; apply (wp_parse _);
      [assumption|assumption|intros ? ? ? _; cbv iota|intros ?; cbv iota; by eexists]
  | wp_step; by eexists ].

Lemma wp_env k c f s buf i :
  state_at k c f s -> chan_inv [] c -> payload buf -> is_word32 i -> wp (env_request buf i) (stays k f) s.
Proof. intros Hs Hi Hb Hx. unfold env_request. parses. Qed.

Lemma wp_exit_signal k c f s buf i :
  state_at k c f s -> chan_inv [] c -> payload buf -> is_word32 i -> wp (exit_signal buf i) (stays k f) s.
Proof. intros Hs Hi Hb Hx. unfold exit_signal. parses. Qed.

Lemma wp_pty k c f s l ch buf i :
  state_at k c f s -> chan_inv [] c -> channels c !! l = Some ch -> payload buf -> is_word32 i ->
  wp (pty_request l buf i) (stays k f) s.
Proof.
  intros Hs Hi Hch Hb Hx. unfold pty_request.
  apply wp_bind, (wp_parse _); [done..| |intros e; by exists c]. intros term j Hj _. cbv iota.
  apply wp_bind, wp_parse_size; [done..| |intros e; by exists c]. intros [[w h] [wp' hp]] j1 Hj1. cbv iota.
  apply wp_bind. eapply wp_string_alloc; [done..| |intros e s' Hs'; by exists c].
  intros m j2 s1 Hs1 _. cbv iota. apply wp_bind. eapply wp_set; [done..|]. intros s2 Hs2. cbv iota.
  apply wp_bind. eapply (wp_flag _ _ _ _ _ _ _ _ Hs2 Hi Hch); [by intros []|done|].
  intros s3 c3 Hs3 Hi3 _. cbv iota. eapply wp_terminal; [done|]. intros s4 Hs4. by eapply wp_resize.
Qed.

Lemma wp_window_change k c f s l ch buf i :
  state_at k c f s -> chan_inv [] c -> channels c !! l = Some ch -> payload buf -> is_word32 i ->
  wp (window_change l buf i) (stays k f) s.
Proof.
  intros Hs Hi Hch Hb Hx. unfold window_change. apply wp_bind, wp_attempt, wp_parse_size; [done..| |].
  2: { intros e. wp_step. by exists c. }
  intros [[w h] [wp' hp]] j1 Hj1. cbv iota. apply wp_bind. eapply wp_ld; [done..|].
  wp_step; [wp_step; by exists c|].
  apply wp_step_stays. eapply wp_terminal; [done|].
  intros s4 Hs4. by eapply wp_resize.
Qed.

Lemma wp_channel_request k c f s id l ch ty granted buf i :
  state_at k c f s -> chan_inv [] c -> channels c !! l = Some ch -> payload buf -> is_word32 i ->
  wp (channel_request id l ty granted buf i) (stays k f) s.
Proof.
  intros Hs Hi Hch Hb Hx. unfold channel_request. cbv zeta.
  wp_step; [by eapply wp_step_stays, wp_env|].
  wp_step; [eapply wp_session; eauto using keep_shell|].
  wp_step; [eapply wp_session; eauto using keep_exec|].
  wp_step; [eapply wp_session; eauto using keep_subsys|].
  wp_step; [by eapply wp_step_stays, wp_pty|].
  wp_step; [by eapply wp_window_change|].
  wp_step.
  { apply wp_step_stays, wp_bind, wp_word; [done..| |intros e; by exists c]. intros v j _ _ _. cbv iota.
    eapply wp_set; [done..|]. intros s1 Hs1. by exists c. }
  wp_step; [by eapply wp_step_stays, wp_exit_signal|].
  wp_step.
  { apply wp_bind. wp_step; [eapply wp_set; [done..|]; intros s1 Hs1; cbv iota|]; wp_step; by exists c. }
  wp_step; wp_step; by exists c.
Qed.

Lemma wp_success k c f s id b :
  state_at k c f s -> chan_inv [] c -> 512 <= k -> wp (SendChannelSuccess id b) (stays (k - 256) f) s.
Proof.
  intros Hs Hi Hk. unfold SendChannelSuccess. apply wp_bind. eapply wp_find; [done..|]. cbv iota.
  destruct (lookup_channel c id WS_CHANNEL_ID_SELF) as [l|] eqn:El.
  2: { wp_step. exists c. split; [done_at|done]. }
  destruct (lookup_channel_some _ _ _ _ El) as (_&ch&Hch&_). apply wp_bind. eapply wp_ld; [done..|]. cbv iota.
  eapply wp_sent; [done|short|clia|]. intros r s1 Hs1. exists c. split; [done_at|done].
Qed.

Lemma DoChannelRequest_safe k c f s buf i :
  state_at k c f s -> chan_inv [] c -> 512 <= k -> payload buf -> is_word32 i ->
  wp (DoChannelRequest buf i) (ends f) s.
Proof.
  intros Hs Hi Hk Hb Hx. unfold DoChannelRequest.
  apply wp_bind, wp_word; [done..| |intros; done_ends]. intros id j1 Hid Hj1 _. cbv iota.
  apply wp_bind, (wp_parse _); [done..| |intros; done_ends]. intros [tsz ty] j2 Hj2 _. cbv beta iota zeta.
  apply wp_bind, (wp_parse _); [done..| |intros; done_ends]. intros wr j3 Hj3 _. cbv beta iota zeta.
  apply wp_bind. eapply wp_find; [done..|]. cbv iota.
  assert (forall (b : bool) (r : Z * bool) s1, stays k f tt s1 ->
    wp (if b then replyRet ← code (SendChannelSuccess id ((r.1 =? WS_SUCCESS) && negb r.2));
                  ret_code (if replyRet =? WS_SUCCESS then r.1 else replyRet)
        else ret_code r.1) (ends (A := unit + Z) f) s1) as Hend.
  { intros b [ret rej] s1 (c1&Hs1&Hi1). cbn [fst snd]. wp_step; [|wp_step; done_ends].
    apply wp_bind, wp_code. eapply wp_mono; [by eapply wp_success|]. intros r s2 (c2&Hs2&Hi2). cbv iota.
    wp_step; (eapply ends_at; [exact Hs2|done|lia]). }
  apply wp_bind.
  destruct (lookup_channel c id WS_CHANNEL_ID_SELF) as [l|] eqn:El.
  2: { wp_step. apply (Hend _ (WS_INVALID_CHANID, false)). by exists c. }
  destruct (lookup_channel_some _ _ _ _ El) as (_&ch&Hch&_).
  assert (forall (rej granted wr' : bool) s1, state_at k c f s1 ->
    wp (if rej then mret (WS_SUCCESS, true) else channel_request id l (ref_bytes ty) granted buf j3)
      (fun r s' => match r with
         | inl a =>
           wp (let '(ret, rej) := (a : Z * bool) in
               if wr' then replyRet ← code (SendChannelSuccess id ((ret =? WS_SUCCESS) && negb rej));
                           ret_code (if replyRet =? WS_SUCCESS then ret else replyRet)
               else ret_code ret) (ends (A := unit + Z) f) s'
         | inr e => ends (A := unit + Z) f (inr e) s'
         end) s1) as Hreq.
  { intros rej granted wr' s1 Hs1. eapply (wp_mono _ (stays k f)).
    - wp_step; [wp_step; by exists c|by eapply wp_channel_request].
    - intros [[ret rej']|e] s2 Hst; [exact (Hend wr' (ret, rej') _ Hst)|].
      destruct Hst as (c1&?&?). done_ends. }
  apply wp_bind. unfold request_policy. wp_step; [wp_step; exact (Hreq true false _ s Hs)|].
  destruct channelReqAnyCb as [cb|] eqn:Ecb; [|wp_step; exact (Hreq false false _ s Hs)].
  apply wp_bind. eapply wp_cb; [by apply (keep_reqAny cb)|done|]. intros d s1 Hs1. cbv iota.
  apply wp_bind. eapply wp_find; [done..|]. cbv iota. rewrite El. wp_step. by apply Hreq.
Qed.

(** ** Global requests *)

Lemma wp_reply k c f s b :
  state_at k c f s -> chan_inv [] c -> 512 <= k -> wp (SendRequestSuccess b) (ends f) s.
Proof.
  intros Hs Hi Hk. unfold SendRequestSuccess. eapply wp_sent; [done|by destruct b|clia|].
  intros r s1 Hs1. eapply ends_at; [exact Hs1|done|]. short.
Qed.

Lemma DoGlobalRequestFwd_safe k c f s buf i w x :
  state_at k c f s -> chan_inv [] c -> 512 <= k -> payload buf -> is_word32 i ->
  wp (DoGlobalRequestFwd buf i w x) (ends f) s.
Proof.
  intros Hs Hi Hk Hb Hx. unfold DoGlobalRequestFwd. apply wp_bind, wp_attempt.
  eapply (wp_mono _ (fun _ s' => state_at k c f s')).
  { wp_step. wp_step; [done|].
    apply wp_bind. eapply wp_string_alloc; [done..| |done]. intros a j s1 Hs1 Hj. cbv iota.
    apply wp_bind, wp_word; [done..| |done]. intros port j2 _ _ _. cbv iota.
    destruct fwdCb as [cb|] eqn:Ecb; [|by wp_step].
    apply wp_bind. eapply wp_cb; [by apply (keep_fwd cb)|done|]. intros ret s2 Hs2. cbv iota.
    apply wp_bind. eapply (wp_mono _ (fun _ s' => s' = s2)).
    { wp_step; [by wp_step|]. wp_step; by wp_step. }
    intros [bp|e] s3 ->; [|done]. wp_step; [|by wp_step].
    apply wp_bind. eapply wp_cb; [by apply (keep_fwd cb)|done|]. intros ret2 s3 Hs3. cbv iota. by wp_step. }
  intros r s1 Hs1. wp_step.
  - destruct r as [[rp bp]|e]; [|by eapply wp_reply]. wp_step; [|by eapply wp_reply].
    unfold SendGlobalRequestFwdSuccess. eapply wp_sent; [done|done|clia|].
    intros r2 s2 Hs2. eapply ends_at; [exact Hs2|done|]. short.
  - destruct r as [[rp bp]|e]; [wp_step; done_ends|]. wp_step; wp_step; done_ends.
Qed.

Lemma DoGlobalRequest_safe k c f s buf i :
  state_at k c f s -> chan_inv [] c -> 512 <= k -> payload buf -> is_word32 i ->
  wp (DoGlobalRequest buf i) (ends f) s.
Proof.
  intros Hs Hi Hk Hb Hx. unfold DoGlobalRequest. wp_step. wp_step; [done_ends|].
  apply wp_bind, (wp_parse _); [done..| |intros; done_ends]. intros [sz name] j1 Hj1 _. cbv beta iota zeta.
  apply wp_bind, (wp_parse _); [done..| |intros; done_ends]. intros cname j2 _ _. cbv beta iota zeta.
  apply wp_bind, (wp_parse _); [done..| |intros; done_ends]. intros wr j3 Hj3 _. cbv beta iota zeta.
  wp_step. { wp_step; [by eapply wp_reply|done_ends]. }
  apply wp_bind. unfold DoGlobalRequestAny.
  assert (forall s1, state_at k c f s1 ->
    wp (match NameToId cname with
        | ID_GLOBREQ_TCPIP_FWD => DoGlobalRequestFwd buf j3 (truthy wr) false
        | ID_GLOBREQ_TCPIP_FWD_CANCEL => DoGlobalRequestFwd buf j3 (truthy wr) true
        | _ =>
          match globalReqCb with
          | Some cb =>
            ret ← cb cname (blen cname) (truthy wr);
            if truthy wr then SendRequestSuccess (ret =? WS_SUCCESS) else ret_code ret
          | None => when (truthy wr) (SendRequestSuccess false)
          end
        end) (ends f) s1) as Hbuiltin.
  { intros s1 Hs1.
    assert (wp (match globalReqCb with
          | Some cb =>
            ret ← cb cname (blen cname) (truthy wr);
            if truthy wr then SendRequestSuccess (ret =? WS_SUCCESS) else ret_code ret
          | None => when (truthy wr) (SendRequestSuccess false)
          end) (ends f) s1) as Hcb.
    { destruct globalReqCb as [cb|] eqn:Ecb; [|wp_step; [by eapply wp_reply|done_ends]].
      apply wp_bind. eapply wp_cb; [by apply (keep_globalReq cb)|done|]. intros ret s2 Hs2. cbv iota.
      wp_step; [by eapply wp_reply|]. wp_step; done_ends. }
    destruct (NameToId cname); try exact Hcb; by eapply DoGlobalRequestFwd_safe. }
  destruct globalReqAnyCb as [cb|] eqn:Ecb; [|wp_step; by apply Hbuiltin].
  apply wp_bind. eapply (wp_mono _ (fun r s' => s' = s /\ exists b, r = inl b)).
  { unfold GlobalRequestNeedsFwdCb. wp_step; [wp_step; by eauto|].
    apply wp_bind, wp_attempt. eapply (wp_mono _ (fun _ s' => s' = s)).
    - apply wp_bind, (wp_parse _); [done..| |done]. intros [? ?] j4 Hj4 _. cbv iota.
      apply wp_bind, wp_word; [done..| |done]. intros v j5 _ _ _. cbv iota. by wp_step.
    - intros [v|e] s1 ->; wp_step; by eauto. }
  intros r s1 (->&builtin&->). wp_step; [wp_step; by apply Hbuiltin|].
  apply wp_bind. eapply wp_cb; [by apply (keep_globalReqAny cb)|done|]. intros d s2 Hs2. cbv iota.
  wp_step; [wp_step; by apply Hbuiltin|]. cbv zeta. wp_step.
  - apply wp_bind, wp_code. eapply wp_mono; [by eapply wp_reply|].
    intros r s3 (c3&Hs3&Hi3). wp_step. wp_step; by exists c3.
  - wp_step. wp_step; done_ends.
Qed.

(** ** Opening a channel *)

Lemma wp_match k c f s a p Q :
  state_at k c f s -> fwd_live f -> (forall b s', state_at k c f s' -> Q (inl b) s') ->
  wp (on_fwd (FwdRemoteMatch a p)) Q s.
Proof.
  intros Hs Hf HQ. pose proof (sa_fwd _ _ _ _ Hs) as E. destruct (reads_match a p f Hf) as [b Hb].
  unfold wp, on_fwd. rewrite E, Hb. apply HQ. by eapply state_at_same.
Qed.

(** What a refused open leaves: the channels in the list, as they were. *)
Lemma wp_open_fail k c f s id reason desc lang :
  state_at k c f s -> chan_inv [] c -> blen desc <= 64 -> blen lang <= 8 -> 512 <= k ->
  wp (SendChannelOpenFail id reason desc lang) (ends f) s.
Proof.
  intros Hs Hi Hd Hl Hk. unfold SendChannelOpenFail. pose proof (blen_nonneg desc). pose proof (blen_nonneg lang).
  set (n := _ +w blen lang). assert (n = 17 + blen desc + blen lang) as Hn.
  { unfold n, wrap32. repeat autounfold with consts. zdiv. }
  set (w := [MSGID_CHANNEL_OPEN_FAIL] ++ _). assert (blen w = n) as Hw.
  { unfold w. rewrite Hn, !blen_app, !blen_wstring, !c32toa_length. change (blen [MSGID_CHANNEL_OPEN_FAIL]) with 1. clia. }
  eapply wp_sent; [done|lia|lia|]. intros r s1 Hs1. eapply ends_at; [exact Hs1|done|lia].
Qed.

Lemma refusal_size r : blen (refusal r).2 <= 64.
Proof. unfold refusal. repeat destruct (_ =? _); vm_compute; congruence. Qed.

Lemma wp_open_request k c f s ty id buf i :
  state_at k c f s -> chan_inv [] c -> payload buf -> is_word32 i ->
  wp (open_request ty id buf i) (fun _ s' => state_at k c f s') s.
Proof.
  intros Hs Hi Hb Hx. unfold open_request.
  assert (forall T (h : forward -> M T), (forall g s1, state_at k c f s1 -> wp (h g) (fun _ s' => state_at k c f s') s1) ->
    wp (g ← with_reason (DoChannelOpenForward buf i); h g) (fun _ s' => state_at k c f s') s) as Hfwd.
  { intros T h Hh. apply wp_bind. unfold with_reason. apply wp_bind, wp_attempt.
    eapply (wp_mono _ (fun _ s' => state_at k c f s')).
    - unfold DoChannelOpenForward.
      apply wp_bind. eapply wp_string_alloc; [done..| |done]. intros a j s1 Hs1 Hj. cbv iota.
      apply wp_bind, wp_word; [done..| |done]. intros p j2 _ Hj2 _. cbv iota.
      apply wp_bind. eapply wp_string_alloc; [done..| |done]. intros a2 j3 s2 Hs2 Hj3. cbv iota.
      apply wp_bind, wp_word; [done..| |done]. intros p2 j4 _ Hj4 _. cbv iota. by wp_step.
    - intros [g|e] s1 Hs1; wp_step; [by apply Hh|done]. }
  destruct ty; try by wp_step.
  - wp_step; [by wp_step|]. wp_step. wp_step. wp_step; by wp_step.
  - apply Hfwd. intros g s1 Hs1. by wp_step.
  - wp_step; [by wp_step|]. apply Hfwd. intros g s1 Hs1. by wp_step.
  - wp_step; [by wp_step|]. wp_step. wp_step. wp_step; [by wp_step|].
    destruct (agent s); [|by wp_step]. wp_step. eapply wp_set; [done..|]. intros s1 Hs1. by wp_step.
Qed.

Lemma wp_new k c f s ty Q :
  state_at k c f s -> chan_inv [] c -> is_word32 windowSz -> is_word32 maxPacketSz ->
  (forall s', state_at k c f s' -> Q (inl None) s') ->
  (forall l ch c' s', state_at k c' f s' -> chan_inv [l] c' -> channels c' !! l = Some ch ->
     c_channel ch = c_channel ch -> channelList c' = channelList c -> Q (inl (Some l)) s') ->
  wp (ChannelNew ty windowSz maxPacketSz) Q s.
Proof.
  intros Hs Hi Hw Hm HN HQ. pose proof (sa_chan _ _ _ _ Hs) as Hc. rewrite <- Hc in Hi.
  destruct (ChannelNew_run ty windowSz maxPacketSz s Hi Hw Hm) as [[ms E]|(ms&id&n&E&Hi'&_)];
    (eapply wp_run; [exact E|]); cbn; rewrite Hc in *.
  - apply HN. by eapply state_at_same.
  - eapply HQ; [|exact Hi'|apply lookup_insert_eq|done|done].
    apply (state_at_chan k c f (s <| mallocs := ms |>)). by eapply state_at_same.
Qed.

(** A channel that is not in the list yet. *)
Definition pending_channel (k : Z) (f : FwdState) (l : loc) (s : WOLFSSH) : Prop :=
  exists c ch, state_at k c f s /\ chan_inv [l] c /\ channels c !! l = Some ch /\
    blen (channelList c) + 1 < 2 ^ 32.

Lemma wp_admit k f s ty id fw l :
  pending_channel k f l s -> fwd_live f ->
  wp (admit_channel ty id fw l) (fun r s' => match r with
    | inl _ => exists c ch, state_at k c f s' /\ chan_inv [] c /\ channels c !! l = Some ch
    | inr _ => pending_channel k f l s'
    end) s.
Proof.
  intros (c&ch&Hs&Hi&Hch&Hsm) Hf. unfold admit_channel.
  assert (forall s', state_at k c f s' -> pending_channel k f l s') as Hpend by (intros s' ?; by exists c, ch).
  wp_step. wp_step; [by apply Hpend|].
  apply wp_bind. eapply (wp_mono _ (fun r s' => state_at k c f s' /\ exists b, r = inl b)).
  { wp_step; [|wp_step; by eauto]. eapply wp_match; [done..|]. by eauto. }
  intros r s1 (Hs1&m&->). wp_step. wp_step; [by apply Hpend|].
  apply wp_bind. eapply wp_call; [intros cb Hcb; by apply keep_open|done|]. intros ret s2 Hs2. cbv iota.
  wp_step. wp_step. apply wp_bind.
  eapply (wp_mono _ (fun r s' => r = inl tt /\ exists c', state_at k c' f s' /\ chan_inv [l] c' /\
    channels c' = channels c /\ channelList c' = channelList c)).
  { wp_step; [|by eauto 10]. eapply (wp_set_chan _ _ _ _ (fun c => c <| defaultPeerChannelId := id |>)); [done|].
    intros s3 Hs3. split; [done|]. eexists. split; [exact Hs3|]. split; [by eapply chan_inv_same|done]. }
  intros r s3 (->&c3&Hs3&Hi3&Hcs&Hl3). rewrite <- Hcs in Hch. rewrite <- Hl3 in Hsm.
  clear Hpend. assert (forall s', state_at k c3 f s' -> pending_channel k f l s') as Hpend
    by (intros s' ?; by exists c3, ch).
  apply wp_bind. unfold refuse at 1. wp_step; [by apply Hpend|].
  apply wp_bind. eapply (wp_mono _ (fun _ s' => pending_channel k f l s')).
  { wp_step; [|wp_step; by apply Hpend].
    destruct fwdCb as [cb|] eqn:Ecb; [|wp_step; by apply Hpend]. cbv zeta.
    apply wp_bind, wp_code. eapply (wp_mono _ (fun _ s' => pending_channel k f l s')).
    { unfold ChannelUpdateForward.
      destruct (option_map (fun g => g.1.1) fw) as [h|]; [|wp_step; by apply Hpend].
      destruct (option_map (fun g => g.2.1) fw) as [o|]; [|wp_step; by apply Hpend].
      apply wp_bind. eapply wp_malloc; [done|]. intros b4 s4 Hs4. cbv iota.
      apply wp_bind. eapply wp_malloc; [done|]. intros b5 s5 Hs5. cbv iota.
      wp_step. wp_step; [by apply Hpend|]. eapply wp_st; [done..|]. intros s6 Hs6.
      eexists _, _. split; [exact Hs6|]. split; [|split; [apply lookup_insert_eq|done]].
      eapply chan_inv_update; [exact Hi3|exact Hch| |done].
      destruct (ci_each _ _ Hi3 _ _ Hch). by split. }
    intros _ s4 (c4&ch4&Hs4&Hi4&Hch4&Hsm4).
    assert (forall s', state_at k c4 f s' -> pending_channel k f l s') as Hpend4
      by (intros s' ?; by exists c4, ch4).
    apply wp_bind. eapply wp_cb; [by apply (keep_fwd cb)|done|]. intros r5 s5 Hs5. cbv iota.
    apply wp_bind. unfold refuse at 1. wp_step; [by apply Hpend4|].
    apply wp_bind. eapply wp_st; [done..|]. intros s6 Hs6. cbv iota.
    apply wp_bind. eapply wp_ld; [exact Hs6|apply lookup_insert_eq|]. cbv iota.
    apply wp_bind. eapply wp_cb; [by apply (keep_fwd cb)|done|]. intros r7 s7 Hs7. cbv iota.
    assert (forall s', state_at k (c4 <| channels ::= <[l := ch4 <| fwdSetupTxd := true |>]> |>) f s' ->
      pending_channel k f l s') as Hpend5.
    { intros s' Hs'. eexists _, _. split; [exact Hs'|]. split; [|split; [apply lookup_insert_eq|done]].
      apply (chan_inv_set _ _ _ _ (fun ch => ch <| fwdSetupTxd := true |>) Hi4 Hch4); [|done]. by intros []. }
    unfold refuse. wp_step; by apply Hpend5. }
  intros [[]|e] s4 (c4&ch4&Hs4&Hi4&Hch4&Hsm4); [|by exists c4, ch4].
  apply wp_bind. pose proof (sa_chan _ _ _ _ Hs4) as Hc4. rewrite <- Hc4 in Hi4, Hsm4.
  destruct (ChannelAppend_run l s4 Hi4 Hsm4) as (c5&E&Hi5&Hc5). eapply wp_run; [exact E|]. cbn.
  exists c5, ch4. split.
  - eapply state_at_same; [apply (state_at_chan k c4 f s4 (fun _ => c5) Hs4)|done..].
  - split; [done|]. rewrite Hc5. cbn. by rewrite Hc4.
Qed.

Lemma wp_delete k f s l Q :
  pending_channel k f l s -> (forall s' c', state_at k c' f s' -> chan_inv [] c' -> Q (inl tt) s') ->
  wp (ChannelDelete l) Q s.
Proof.
  intros (c&ch&Hs&Hi&Hch&_) HQ. pose proof (sa_chan _ _ _ _ Hs) as Hc. rewrite <- Hc in Hch.
  destruct (ChannelDelete_run (same_net wire retries) l ch s Hch) as (x&E&Hx).
  eapply wp_run; [exact E|]. cbn. eapply HQ; [|by apply (forget_channel_inv l c)].
  apply state_at_kept; [|exact Hx].
  by apply (state_at_chan k c f s (fun c => c <| channels ::= delete l |>)).
Qed.

Lemma wp_open_for k c f s typ id buf i :
  state_at k c f s -> chan_inv [] c -> fwd_live f -> blen (channelList c) + 1 < 2 ^ 32 ->
  is_word32 windowSz -> is_word32 maxPacketSz -> payload buf -> is_word32 i -> is_word32 id ->
  wp (open_channel_for typ id buf i) (fun r s' => exists c', state_at k c' f s' /\ chan_inv [] c' /\
    match r with inl l => is_Some (channels c' !! l) | inr _ => True end) s.
Proof.
  intros Hs Hi Hf Hsm Hw Hm Hb Hx Hid. unfold open_channel_for.
  assert (forall T (e : Z) s', state_at k c f s' -> exists c', state_at k c' f s' /\ chan_inv [] c' /\
    match (inr e : T + Z) with inl l => False | inr _ => True end) as Hno by (intros T e s' ?; by exists c).
  apply wp_bind. unfold with_reason. apply wp_bind, wp_attempt.
  eapply (wp_mono _ (fun r s' => s' = s /\ match r with
    | inl ((w, m), j) => is_word32 w /\ is_word32 m /\ is_word32 j | inr _ => True end)).
  { apply wp_bind, wp_word; [done..| |done]. intros w j1 Hw1 Hj1 _. cbv iota.
    apply wp_bind, wp_word; [done..| |done]. intros m j2 Hm2 Hj2 _. cbv iota. by wp_step. }
  intros [[[w m] j]|e] s1 [-> Hp]; wp_step; [|by exists c]. destruct Hp as (Hw1&Hm1&Hj).
  apply wp_bind. eapply wp_mono; [by eapply wp_open_request|].
  intros [fw|e] s1 Hs1; [|by exists c]. cbv beta in Hs1.
  apply wp_bind. eapply wp_new; [done..| |].
  { intros s2 Hs2. cbv iota. wp_step. by exists c. }
  intros l ch c2 s2 Hs2 Hi2 Hch2 _ Hl2. cbv iota.
  apply wp_bind. eapply wp_st; [done..|]. intros s3 Hs3. cbv iota.
  apply wp_bind, wp_attempt. eapply wp_mono; [eapply wp_admit; [|done]|].
  { eexists _, _. split; [exact Hs3|]. split; [|split; [apply lookup_insert_eq|by cbn; rewrite Hl2]].
    eapply chan_inv_update; [exact Hi2|exact Hch2| |done].
    destruct (ci_each _ _ Hi2 _ _ Hch2) as [? ? ? ? ? ? ? []]. by split. }
  intros [u|e] s4 Hst.
  - destruct Hst as (c4&ch4&Hs4&Hi4&Hch4). wp_step. exists c4. split; [done|]. split; [done|]. by exists ch4.
  - apply wp_bind. eapply wp_delete; [exact Hst|]. intros s5 c5 Hs5 Hi5. cbv iota. wp_step. by exists c5.
Qed.

Lemma DoChannelOpen_safe k c f s buf i :
  state_at k c f s -> chan_inv [] c -> fwd_live f -> 512 <= k -> blen (channelList c) + 1 < 2 ^ 32 ->
  is_word32 windowSz -> is_word32 maxPacketSz -> payload buf -> is_word32 i ->
  wp (DoChannelOpen buf i) (ends f) s.
Proof.
  intros Hs Hi Hf Hk Hsm Hw Hm Hb Hx. unfold DoChannelOpen. cbv zeta.
  assert (forall id reason s' c', state_at k c' f s' -> chan_inv [] c' ->
    wp (let '(fail_reason, description) := refusal reason in
        SendChannelOpenFail id fail_reason description (str "en")) (ends (A := unit + Z) f) s') as Hrefuse.
  { intros id reason s' c' Hs' Hi'. pose proof (refusal_size reason). destruct (refusal reason) as [r d].
    eapply wp_open_fail; [done..| |lia]. vm_compute. congruence. }
  apply wp_bind, wp_attempt.
  eapply (wp_mono _ (fun r s' => s' = s /\ match r with
    | inl (_, (id, j)) => is_word32 id /\ is_word32 j | inr _ => True end)).
  { apply wp_bind, (wp_parse _); [done..| |done]. intros typ j1 Hj1 _. cbv iota.
    apply wp_bind, wp_word; [done..| |done]. intros id j2 Hid Hj2 _. cbv iota. by wp_step. }
  intros [[typ [id j]]|e] s1 [-> Hp]; [|by eapply Hrefuse]. destruct Hp as [Hid Hj].
  apply wp_bind, wp_attempt. eapply wp_mono; [by eapply wp_open_for|].
  intros [l|e] s1 (c1&Hs1&Hi1&Hl); [|by eapply Hrefuse]. destruct Hl as [ch Hch].
  unfold SendChannelOpenConf. apply wp_bind. eapply wp_ld; [done..|]. cbv iota.
  eapply wp_sent; [done|short|clia|]. intros r s2 Hs2. eapply ends_at; [exact Hs2|done|]. short.
Qed.

(** ** Every message *)

(** The messages of the connection protocol. *)
Inductive conn_msg := GlobalRequest | Open | OpenConf | OpenFail | WindowAdjust | Data | ExtendedData
  | Eof | Close | Request | Success | Failure.

Definition handle (m : conn_msg) : bytes -> Z -> M unit :=
  match m with
  | GlobalRequest => DoGlobalRequest
  | Open => DoChannelOpen
  | OpenConf => DoChannelOpenConf
  | OpenFail => DoChannelOpenFail
  | WindowAdjust => DoChannelWindowAdjust
  | Data => DoChannelData
  | ExtendedData => DoChannelExtendedData
  | Eof => DoChannelEof
  | Close => DoChannelClose
  | Request => DoChannelRequest
  | Success => DoChannelSuccess
  | Failure => DoChannelFailure
  end.


End ConnSafe.

(** ** Example *)

