(* ===== verification/ConnSpec.v ===== *)
(** What the messages of the connection protocol do: the windows both ways, the
    opens a side refuses, the channels a reply may touch, and the one session of
    a channel. Payloads are written with the encodings of [Wire]. *)

From S2P Require Import Prelude Codes Wire Names Buffer Fwd Algos Kdf Session Samples MsgFilter Transport.
From S2P Require Import Channels Send ChannelMsgs ConnSafe.

(** ** Reading an encoded payload *)

Section Parse.
Context {A : Type} (e : A -> bytes) (P : A -> Prop) (rd : parser A) `{!Codec e P rd}.

Lemma parse_codec p a r buf i j s :
  buf = p ++ e a ++ r -> i = blen p -> j = blen p + blen (e a) -> P a -> is_word32 (blen buf) ->
  parse rd buf (blen buf) i s = (Ok (a, j), s).
Proof.
  intros -> -> -> Ha Hw. unfold parse.
  rewrite (codec_read (encode := e)); [done|done| |done]. rewrite !blen_app. pose proof (blen_nonneg r). lia.
Qed.
End Parse.

Lemma parse_word p v r buf i j s :
  buf = p ++ c32toa v ++ r -> i = blen p -> j = blen p + 4 -> is_word32 v -> is_word32 (blen buf) ->
  parse GetUint32 buf (blen buf) i s = (Ok (v, j), s).
Proof.
  intros ? ? -> Hv Hb. apply (parse_codec c32toa is_word32 GetUint32 p v r); [done|done|by rewrite c32toa_length|done|done].
Qed.

Lemma parse_size_of p d r buf i j s :
  buf = p ++ encode_string d ++ r -> i = blen p -> j = blen p + 4 -> is_word32 (blen buf) ->
  parse GetSize buf (blen buf) i s = (Ok (blen d, j), s).
Proof.
  intros -> -> -> Hw. unfold parse, GetSize, encode_string. rewrite <- app_assoc.
  assert (is_word32 (blen d)) as Hd.
  { unfold is_word32, encode_string in *. rewrite !blen_app in Hw. rewrite c32toa_length in Hw.
    pose proof (blen_nonneg p). pose proof (blen_nonneg d). pose proof (blen_nonneg r). clia. }
  unfold encode_string in Hw. rewrite <- app_assoc in Hw.
  set (buf := p ++ c32toa (blen d) ++ d ++ r) in *.
  assert (blen buf = blen p + 4 + blen d + blen r) as Hl.
  { unfold buf. rewrite !blen_app, c32toa_length. clia. }
  pose proof (blen_nonneg p). pose proof (blen_nonneg d). pose proof (blen_nonneg r).
  erewrite ST_bind_ok.
  2: { apply (codec_read (encode := c32toa) (encodable := is_word32) (blen d) p (d ++ r)); [done| |done].
       fold buf. rewrite c32toa_length. clia. }
  unfold mbind, ST_bind, get. rewrite c32toa_length.
  rewrite wrap32_small by (unfold is_word32 in *; clia).
  destruct (Z.ltb_spec (blen buf - (blen p + UINT32_SZ)) (blen d)); [clia|done].
Qed.

(** A string shorter than the buffer it is read into. *)
Lemma parse_string p d r sSz buf i j s :
  buf = p ++ encode_string d ++ r -> i = blen p -> j = blen p + blen (encode_string d) ->
  blen d < sSz -> is_word32 (blen buf) -> parse (GetString sSz) buf (blen buf) i s = (Ok (d, j), s).
Proof.
  intros -> -> -> Hd Hw. unfold parse, GetString. pose proof (blen_nonneg d).
  rewrite st_guard. destruct (Z.eqb_spec sSz 0); [lia|].
  erewrite ST_bind_ok.
  2: { apply GetStringRef_encoded; [|done]. rewrite !blen_app. pose proof (blen_nonneg r). lia. }
  cbv beta iota zeta. destruct (Z.leb_spec sSz (blen d)); [lia|]. rewrite ref_bytes_string_ref.
  unfold mret, ST_ret, truthy. destruct (Z.eqb_spec (blen d) 0) as [E|]; cbn [negb].
  - destruct d; [done|]. rewrite blen_cons in E. pose proof (blen_nonneg d). lia.
  - by rewrite slice_full.
Qed.

Section ConnSpec.
Context `{CTX} `{Crypto}.

(** ** The peer's window *)

(** WINDOW_ADJUST adds exactly what it says to the window of the channel it
    names, and an adjustment that would take the window beyond 32 bits is refused
    and changes nothing, as RFC 4254 section 5.2 asks. *)
Theorem DoChannelWindowAdjust_spec id n s :
  chan_inv [] (chan s) -> is_word32 id -> is_word32 n ->
  DoChannelWindowAdjust (c32toa id ++ c32toa n) 0 s =
  match lookup_channel (chan s) id WS_CHANNEL_ID_SELF with
  | None => (Err WS_INVALID_CHANID, s)
  | Some l =>
    match channels (chan s) !! l with
    | None => (UB, s)
    | Some ch =>
      if 2 ^ 32 <=? peerWindowSz ch + n then (Err WS_OVERFLOW_E, s)
      else (Ok tt, s <| chan; channels ::= <[l := ch <| peerWindowSz := peerWindowSz ch + n |>]> |>)
    end
  end.
Proof.
  intros Hi Hid Hn. unfold DoChannelWindowAdjust. cbv zeta.
  erewrite ST_bind_ok by (by apply (parse_word [] id (c32toa n))). cbv beta iota.
  erewrite ST_bind_ok by (by apply (parse_word (c32toa id) n [])). cbv beta iota.
  erewrite ST_bind_ok by (by eapply ChannelFind_run).
  destruct (lookup_channel (chan s) id WS_CHANNEL_ID_SELF) as [l|] eqn:El; [|done].
  destruct (lookup_channel_some _ _ _ _ El) as (_&ch&Hch&_). rewrite Hch.
  pose proof (ch_peer _ (ci_each _ _ Hi _ _ Hch)) as Hp. unfold is_word32 in *.
  erewrite ST_bind_ok by (by apply ld_channel_run).
  rewrite wrap32_small by (unfold UINT32_MAX; lia). unfold UINT32_MAX.
  destruct (Z.ltb_spec (2 ^ 32 - 1 - peerWindowSz ch) n), (Z.leb_spec (2 ^ 32) (peerWindowSz ch + n)); try lia; [done|].
  erewrite st_channel_run by done. unfold field_set. by rewrite wrap32_small by lia.
Qed.

(** ** Our window *)

(** What data that is taken does to its channel. *)
Definition received (id : Z) (l : loc) (ch ch' : WOLFSSH_CHANNEL) (s : WOLFSSH) : WOLFSSH :=
  s <| chan; channels ::= <[l := ch']> |> <| chan; lastRxId := id |>.

(** C37: data within the limits of its channel -- our packet size and what is left
    of our window -- is buffered whole after the data already there, the window
    shrinks by its length and the caller is told of it; more than either limit is
    an error and nothing is taken; and no other channel is touched. *)
Theorem DoChannelData_spec id data s :
  chan_inv [] (chan s) -> is_word32 id -> blen data + 8 < 2 ^ 32 ->
  match lookup_channel (chan s) id WS_CHANNEL_ID_SELF with
  | None => DoChannelData (c32toa id ++ encode_string data) 0 s = (Err WS_INVALID_CHANID, s)
  | Some l => exists ch, channels (chan s) !! l = Some ch /\
    if (c_maxPacketSz ch <? blen data) || (c_windowSz ch <? blen data) ||
       (bufferSz (c_inputBuffer ch) <=? b_length (c_inputBuffer ch))
    then exists e, DoChannelData (c32toa id ++ encode_string data) 0 s = (Err e, s) /\
           (e = WS_RECV_OVERFLOW_E \/ e = WS_FATAL_ERROR)
    else exists ch',
      DoChannelData (c32toa id ++ encode_string data) 0 s = (Err WS_CHAN_RXD, received id l ch ch' s) /\
      unread (c_inputBuffer ch') = unread (c_inputBuffer ch) ++ data /\
      c_windowSz ch' = c_windowSz ch - blen data /\
      ch' = ch <| c_inputBuffer := c_inputBuffer ch' |> <| c_windowSz := c_windowSz ch' |> /\
      chan_inv [] (chan (received id l ch ch' s))
  end.
Proof.
  intros Hi Hid Hd. set (buf := c32toa id ++ encode_string data).
  assert (is_word32 (blen buf)) as Hw.
  { unfold buf, is_word32. rewrite blen_app, blen_encode_string, c32toa_length. pose proof (blen_nonneg data). clia. }
  assert (DoChannelData buf 0 s =
    (channel ← ChannelFind id WS_CHANNEL_ID_SELF;
     match channel with
     | None => fail WS_INVALID_CHANID
     | Some channel =>
       c ← ld_channel channel;
       guard_err (c_maxPacketSz c <? blen data) WS_RECV_OVERFLOW_E;;
       ChannelPutData channel data;;
       modify (fun s => s <| chan; lastRxId := id |>);;
       fail WS_CHAN_RXD
     end) s) as Hrun.
  { unfold DoChannelData. cbv zeta.
    erewrite ST_bind_ok by (by apply (parse_word [] id (encode_string data))). cbv beta iota.
    erewrite ST_bind_ok by (apply (parse_size_of (c32toa id) data []); [by rewrite app_nil_r|done..]). cbv beta iota.
    assert (slice buf (blen (c32toa id) + 4) (blen data) = data) as ->; [|done].
    unfold buf, encode_string. rewrite app_assoc.
    replace (blen (c32toa id) + 4) with (blen (c32toa id ++ c32toa (blen data))) by (by rewrite blen_app).
    rewrite <- (app_nil_r data) at 2. apply slice_app_here. }
  destruct (lookup_channel (chan s) id WS_CHANNEL_ID_SELF) as [l|] eqn:El.
  2: { rewrite Hrun. erewrite ST_bind_ok by (by eapply ChannelFind_run). by rewrite El. }
  destruct (lookup_channel_some _ _ _ _ El) as (_&ch&Hch&_). exists ch. split; [done|].
  pose proof (ChannelPutData_run [] l ch data s Hi Hch) as Hput.
  assert (DoChannelData buf 0 s =
    (if c_maxPacketSz ch <? blen data then (Err WS_RECV_OVERFLOW_E, s)
     else (ChannelPutData l data;; modify (fun s => s <| chan; lastRxId := id |>);; fail WS_CHAN_RXD) s)) as Hrun2.
  { rewrite Hrun. erewrite ST_bind_ok by (by eapply ChannelFind_run). rewrite El.
    erewrite ST_bind_ok by (by apply ld_channel_run). by rewrite st_guard. }
  clearbody buf. clear Hrun.
  destruct (c_maxPacketSz ch <? blen data); cbn [orb]; [by eauto|].
  destruct (c_windowSz ch <? blen data); cbn [orb]; [erewrite ST_bind_err in Hrun2 by exact Hput; by eauto|].
  destruct (bufferSz _ <=? _); [erewrite ST_bind_err in Hrun2 by exact Hput; by eauto|].
  destruct Hput as (ch'&E&Hok&Hu&Hwin&Hch'). exists ch'.
  erewrite ST_bind_ok in Hrun2 by exact E. split; [done|]. do 3 (split; [done|]).
  apply (chan_inv_same [] ((chan s) <| channels ::= <[l := ch']> |>)); [|done..].
  eapply chan_inv_update; [done..|]. by rewrite Hch'.
Qed.

(** ** Opens a side refuses *)

(** RFC 4254: a session or direct-tcpip open is the client's to send, an
    auth-agent open the server's. *)
Definition wrong_direction (ty : AlgoId) : bool :=
  if side =? WOLFSSH_ENDPOINT_CLIENT then id_eqb ty ID_CHANTYPE_SESSION || id_eqb ty ID_CHANTYPE_TCPIP_DIRECT
  else (side =? WOLFSSH_ENDPOINT_SERVER) && id_eqb ty ID_CHANTYPE_AUTH_AGENT.

(** A second session on a server. *)
Definition second_session (ty : AlgoId) (s : WOLFSSH) : bool :=
  (side =? WOLFSSH_ENDPOINT_SERVER) && id_eqb ty ID_CHANTYPE_SESSION && (1 <=? channelListSz (chan s)).

Lemma open_request_refused ty id buf i s :
  wrong_direction ty = true \/ second_session ty s = true ->
  open_request ty id buf i s = (Err OPEN_ADMINISTRATIVELY_PROHIBITED, s).
Proof.
  unfold wrong_direction, second_session, open_request. intros Hr.
  destruct (Z.eqb_spec side WOLFSSH_ENDPOINT_CLIENT) as [Hc|Hc].
  - rewrite Hc in *. change (WOLFSSH_ENDPOINT_CLIENT =? WOLFSSH_ENDPOINT_SERVER) with false in *.
    destruct Hr as [Hr|Hr]; [|done]. by destruct ty.
  - destruct (side =? WOLFSSH_ENDPOINT_SERVER) eqn:Es; cbn [andb] in Hr; [|by destruct Hr].
    destruct Hr as [Hr|Hr]; destruct ty; try done. rewrite st_get. by destruct (1 <=? _).
Qed.

(** an open in the wrong direction, and a second session on one connection,
    are refused before any callback is asked and before a channel exists: the
    only thing that happens is that the failure is sent, with the reason
    administratively prohibited and the peer's own channel id. *)
Theorem open_refused typ id w m rest s :
  wrong_direction (NameToId typ) = true \/ second_session (NameToId typ) s = true ->
  blen typ < 32 -> is_word32 id -> is_word32 w -> is_word32 m ->
  is_word32 (blen (encode_string typ ++ c32toa id ++ c32toa w ++ c32toa m ++ rest)) ->
  DoChannelOpen (encode_string typ ++ c32toa id ++ c32toa w ++ c32toa m ++ rest) 0 s =
  SendChannelOpenFail id OPEN_ADMINISTRATIVELY_PROHIBITED (str "Administratively prohibited.") (str "en") s.
Proof.
  intros Hr Ht Hid Hw Hm Hb. unfold DoChannelOpen. cbv zeta. set (buf := _ ++ _) in *.
  erewrite ST_bind_ok.
  2: { unfold attempt.
       erewrite ST_bind_ok by (by apply (parse_string [] typ (c32toa id ++ c32toa w ++ c32toa m ++ rest))).
       cbv beta iota.
       erewrite ST_bind_ok by (by apply (parse_word (encode_string typ) id (c32toa w ++ c32toa m ++ rest))).
       done. }
  cbv beta iota.
  assert (parse GetUint32 buf (blen buf) (blen (encode_string typ) + 4) s =
      (Ok (w, blen (encode_string typ) + 8), s) /\
    parse GetUint32 buf (blen buf) (blen (encode_string typ) + 8) s = (Ok (m, blen (encode_string typ) + 12), s))
    as [Hp1 Hp2].
  { split.
    - apply (parse_word (encode_string typ ++ c32toa id) w (c32toa m ++ rest));
        [by unfold buf; rewrite <- !app_assoc|rewrite blen_app, c32toa_length; clia..|done|done].
    - apply (parse_word (encode_string typ ++ c32toa id ++ c32toa w) m rest);
        [by unfold buf; rewrite <- !app_assoc|rewrite !blen_app, !c32toa_length; clia..|done|done]. }
  assert (open_channel_for typ id buf (blen (encode_string typ) + 4) s
    = (Err OPEN_ADMINISTRATIVELY_PROHIBITED, s)) as Ho.
  { unfold open_channel_for. cbv zeta. erewrite ST_bind_ok.
    2: { unfold with_reason. erewrite ST_bind_ok; [|unfold attempt; erewrite ST_bind_ok by exact Hp1; cbv beta iota;
           erewrite ST_bind_ok by exact Hp2; reflexivity]. reflexivity. }
    cbv beta iota. by erewrite ST_bind_err by (by apply open_request_refused). }
  erewrite ST_bind_ok by (unfold attempt; rewrite Ho; reflexivity). reflexivity.
Qed.

(** ** Replies to an open *)

Lemma SendDisconnect_run (wire : bytes -> bytes) (retries : bytes -> nat) `{!CryptoSizes}
    `{!Network wire retries} k reason s :
  can_send retries k s -> 512 <= k ->
  exists c s', code (SendDisconnect reason) s = (Ok c, s') /\ chan s' = chan s /\ disconnected s' = true.
Proof.
  intros Hcs Hk. unfold SendDisconnect.
  set (s1 := s <| disconnected := true |>).
  assert (can_send retries k s1) as Hcs1 by (by destruct Hcs).
  set (w := [MSGID_DISCONNECT] ++ c32toa reason ++ c32toa 0 ++ c32toa 0).
  pose proof (frame_run wire retries k (MSG_ID_SZ + UINT32_SZ + LENGTH_SZ * 2) w s1 Hcs1 ltac:(done) ltac:(clia)) as Hf.
  unfold code. rewrite st_modify. fold s1.
  destruct (send_payload _ w s1) as [[[]|e|] s2] eqn:E; [| |done].
  - erewrite ST_bind_ok by exact E. destruct Hf as (F&Hcs2&_). rewrite st_modify.
    set (s3 := s2 <| disconnectTxd := true |>).
    assert (can_send retries (k - blen w - 128) s3) as Hcs3 by (by destruct Hcs2).
    pose proof (flush_run wire retries _ s3 Hcs3 ltac:(change (blen w) with 13; lia)) as Hfl.
    assert (chan s3 = chan s /\ disconnected s3 = true) as [Hc Hd].
    { unfold s3. unfold send_only in F. rewrite F. done. }
    destruct (wolfSSH_SendPacket s3) as [[[]|e|] s4]; [| |done]; destruct Hfl as (F2&_);
      eexists _, s4; (split; [done|]); unfold send_only in F2; rewrite F2; done.
  - erewrite ST_bind_err by exact E. destruct Hf as (F&_). eexists _, s2. split; [done|].
    unfold send_only in F. rewrite F. done.
Qed.

(** The two replies to an open, on the channel [id]. *)
Inductive open_reply (id : Z) : (bytes -> Z -> M unit) -> bytes -> Prop :=
  | reply_conf p w m rest : is_word32 p -> is_word32 w -> is_word32 m ->
      open_reply id DoChannelOpenConf (c32toa id ++ c32toa p ++ c32toa w ++ c32toa m ++ rest)
  | reply_fail reason desc lang rest : is_word32 reason -> blen desc < 80 ->
      open_reply id DoChannelOpenFail
        (c32toa id ++ c32toa reason ++ encode_string desc ++ encode_string lang ++ rest).

(** a reply answers an open of ours that is still outstanding and nothing
    else. On a channel that is confirmed, a confirmation or a failure ends the
    connection as a protocol error, and neither the peer's id and window of the
    channel nor any other channel changes. *)
Theorem open_reply_outstanding (wire : bytes -> bytes) (retries : bytes -> nat) `{!CryptoSizes}
    `{!Network wire retries} k id reply buf l ch s :
  open_reply id reply buf -> is_word32 id -> is_word32 (blen buf) ->
  can_send retries k s -> 512 <= k -> chan_inv [] (chan s) ->
  lookup_channel (chan s) id WS_CHANNEL_ID_SELF = Some l -> channels (chan s) !! l = Some ch ->
  openConfirmed ch = true ->
  exists s', reply buf 0 s = (Err WS_INVALID_STATE_E, s') /\ chan s' = chan s /\ disconnected s' = true.
Proof.
  intros Hr Hid Hb Hcs Hk Hi Hl Hch Hconf.
  destruct (SendDisconnect_run wire retries k WOLFSSH_DISCONNECT_PROTOCOL_ERROR s Hcs Hk) as (c&s'&E&Hc&Hd).
  assert (forall T (m : WOLFSSH_CHANNEL -> M T),
    (channel ← ChannelFind id WS_CHANNEL_ID_SELF;
     match channel with
     | None => fail WS_INVALID_CHANID
     | Some channel =>
       c ← ld_channel channel;
       if openConfirmed c then
         code (SendDisconnect WOLFSSH_DISCONNECT_PROTOCOL_ERROR);; fail WS_INVALID_STATE_E
       else m c
     end) s = (Err WS_INVALID_STATE_E, s')) as Htail.
  { intros T m. erewrite ST_bind_ok by (by eapply ChannelFind_run). rewrite Hl.
    erewrite ST_bind_ok by (by apply ld_channel_run). rewrite Hconf. by erewrite ST_bind_ok by exact E. }
  exists s'. split; [|done].
  assert (blen buf <> 0) as Hne.
  { destruct Hr; rewrite !blen_app, c32toa_length;
      repeat match goal with |- context [blen ?x] => pose proof (blen_nonneg x); generalize dependent (blen x); intros end; clia. }
  destruct Hr as [p w m rest Hp Hw Hm|reason desc lang rest Hrs Hds].
  - unfold DoChannelOpenConf. cbv zeta. set (buf := _ ++ _) in *.
    rewrite st_guard, (proj2 (Z.eqb_neq _ _) Hne).
    erewrite ST_bind_ok by (by apply (parse_word [] id (c32toa p ++ c32toa w ++ c32toa m ++ rest))). cbv beta iota.
    erewrite ST_bind_ok by (by apply (parse_word (c32toa id) p (c32toa w ++ c32toa m ++ rest))). cbv beta iota.
    erewrite ST_bind_ok.
    2: { apply (parse_word (c32toa id ++ c32toa p) w (c32toa m ++ rest)); [by unfold buf; rewrite !app_assoc|done..]. }
    cbv beta iota. erewrite ST_bind_ok.
    2: { apply (parse_word (c32toa id ++ c32toa p ++ c32toa w) m rest); [by unfold buf; rewrite !app_assoc|done..]. }
    cbv beta iota. erewrite ST_bind_ok by (by eapply ChannelFind_run). rewrite Hl.
    erewrite ST_bind_ok by (by apply ld_channel_run). rewrite Hconf. by erewrite ST_bind_ok by exact E.
  - unfold DoChannelOpenFail. cbv zeta. set (buf := _ ++ _) in *.
    rewrite st_guard, (proj2 (Z.eqb_neq _ _) Hne).
    erewrite ST_bind_ok by (by apply (parse_word [] id (c32toa reason ++ encode_string desc ++ encode_string lang ++ rest))).
    cbv beta iota.
    erewrite ST_bind_ok by (by apply (parse_word (c32toa id) reason (encode_string desc ++ encode_string lang ++ rest))).
    cbv beta iota. erewrite ST_bind_ok.
    2: { apply (parse_string (c32toa id ++ c32toa reason) desc (encode_string lang ++ rest));
           [by unfold buf; rewrite !app_assoc|done..]. }
    cbv beta iota. erewrite ST_bind_ok.
    2: { apply (parse_size_of (c32toa id ++ c32toa reason ++ encode_string desc) lang rest);
           [by unfold buf; rewrite !app_assoc|rewrite !blen_app; lia|done..]. }
    cbv beta iota. erewrite ST_bind_ok by (by eapply ChannelFind_run). rewrite Hl.
    erewrite ST_bind_ok by (by apply ld_channel_run). rewrite Hconf. by erewrite ST_bind_ok by exact E.
Qed.

(** ** One session per channel *)

(** one session request succeeds per channel (RFC 4254 section 6.5). On a
    channel whose session was granted, a shell, exec or subsystem request is
    refused without asking a callback, whatever the generic callback decided,
    and the grant -- the session's type and command -- stands: no channel
    changes. *)
Theorem session_granted_once id l ch ty cb granted buf i s :
  payload buf -> is_word32 i -> channels (chan s) !! l = Some ch -> sessionGranted ch = true ->
  exists ret rej ms, DoChannelRequestSession id l ty cb granted buf i s = (Ok (ret, rej), s <| mallocs := ms |>) /\
    (ret = WS_SUCCESS -> rej = true).
Proof.
  intros Hb Hi Hch Hg. unfold DoChannelRequestSession.
  erewrite ST_bind_ok by (by apply ld_channel_run). cbv zeta.
  assert (exists r ms, attempt (if negb (ty =? WOLFSSH_SESSION_SHELL)
      then '(command, _) ← string_alloc buf (blen buf) i; mret (Some command) else mret None) s
    = (Ok r, s <| mallocs := ms |>) /\ r <> inr 0) as (r&ms&E&Hr).
  { destruct (negb _); [|exists (inl None), (mallocs s); split; [by destruct s|done]].
    unfold attempt, string_alloc.
    destruct (GetStringRef_spec buf (blen buf) i Hb Hi) as [(sz&_&_&_&Eg)|(j&_&Eg)].
    - rewrite st_assoc. erewrite ST_bind_ok by (unfold parse; by rewrite Eg).
      rewrite st_assoc. erewrite ST_bind_ok by apply malloc_run. unfold parse, GetStringAlloc.
      destruct (default true (head (mallocs s))); unfold mbind, ST_bind; rewrite Eg; cbn -[slice ref_bytes];
        eexists _, _; (split; [reflexivity|done]).
    - rewrite st_assoc. erewrite ST_bind_err by (unfold parse; by rewrite Eg).
      exists (inr WS_BUFFER_E), (mallocs s). split; [by destruct s|done]. }
  erewrite ST_bind_ok by exact E. destruct r as [cmd|e].
  - erewrite ST_bind_ok by (by apply ld_channel_run). rewrite Hg. exists WS_SUCCESS, true, ms. done.
  - exists e, false, ms. split; [done|]. intros ->. done.
Qed.

End ConnSpec.

(** ** Examples *)

Example DoChannelWindowAdjust_spec_witness :
  (@DoChannelWindowAdjust (c32toa 0 ++ c32toa (2 ^ 32 - 10)) 0 open_channel).1 = Err WS_OVERFLOW_E /\
  DoChannelWindowAdjust (c32toa 0 ++ c32toa 90) 0 open_channel
  = (Ok tt, open_channel <| chan; channels ::= <[1%positive := open_chan <| peerWindowSz := 100 |>]> |>).
Proof.
  split.
  - rewrite (DoChannelWindowAdjust_spec 0 (2 ^ 32 - 10) open_channel open_channel_inv
      ltac:(split; vm_compute; congruence) ltac:(split; vm_compute; congruence)).
    vm_compute. reflexivity.
  - rewrite (DoChannelWindowAdjust_spec 0 90 open_channel open_channel_inv
      ltac:(split; vm_compute; congruence) ltac:(split; vm_compute; congruence)).
    reflexivity.
Defined.

Example DoChannelData_spec_witness :
  exists s', DoChannelData (c32toa 0 ++ encode_string [7; 8; 9]) 0 open_channel = (Err WS_CHAN_RXD, s') /\
  exists ch, channels (chan s') !! 1%positive = Some ch /\ unread (c_inputBuffer ch) = [7; 8; 9] /\
    c_windowSz ch = 61.
Proof.
  generalize (DoChannelData_spec 0 [7; 8; 9] open_channel open_channel_inv
    ltac:(split; vm_compute; congruence) ltac:(vm_compute; reflexivity)).
  assert (lookup_channel (chan open_channel) 0 WS_CHANNEL_ID_SELF = Some 1%positive) as -> by reflexivity.
  intros (ch&Hch&Hif). pose proof (eq_trans (eq_sym Hch) open_channel_lookup) as [= ->].
  assert ((c_maxPacketSz open_chan <? blen [7; 8; 9]) || (c_windowSz open_chan <? blen [7; 8; 9])
    || (bufferSz (c_inputBuffer open_chan) <=? b_length (c_inputBuffer open_chan)) = false) as E by reflexivity.
  rewrite E in Hif. destruct Hif as (ch'&Hr&Hu&Hw&_). eexists. split; [exact Hr|]. exists ch'.
  split; [reflexivity|]. split; [rewrite Hu; reflexivity|rewrite Hw; reflexivity].
Defined.

Example open_refused_witness :
  let buf := encode_string (str "session") ++ c32toa 3 ++ c32toa 100 ++ c32toa 200 ++ [] in
  @DoChannelOpen client _ buf 0 open_channel
  = @SendChannelOpenFail client _ 3 OPEN_ADMINISTRATIVELY_PROHIBITED (str "Administratively prohibited.")
      (str "en") open_channel /\
  @DoChannelOpen server _ buf 0 open_channel
  = @SendChannelOpenFail server _ 3 OPEN_ADMINISTRATIVELY_PROHIBITED (str "Administratively prohibited.")
      (str "en") open_channel.
Proof.
  cbv zeta. split; apply open_refused; try (split; vm_compute; congruence); try (vm_compute; congruence).
  - left. vm_compute. reflexivity.
  - right. vm_compute. reflexivity.
Defined.

Example open_reply_outstanding_witness :
  let s := open_channel <| chan; channels ::= <[1%positive := open_chan <| openConfirmed := true |>]> |> in
  exists s', @DoChannelOpenConf server _ (c32toa 0 ++ c32toa 7 ++ c32toa 1 ++ c32toa 1 ++ []) 0 s
    = (Err WS_INVALID_STATE_E, s') /\ chan s' = chan s.
Proof.
  cbv zeta. set (s := open_channel <| chan; channels ::= _ |>).
  assert (@can_send server (fun _ => O) 900 s) as Hcs by (destruct open_channel_can_send; by split).
  assert (chan_inv [] (chan s)) as Hi.
  { apply (chan_inv_update [] (chan open_channel) 1%positive open_chan (open_chan <| openConfirmed := true |>)
      open_channel_inv open_channel_lookup); [|reflexivity]. destruct open_chan_ok. by split. }
  destruct (@open_reply_outstanding server _ (fun w => w) (fun _ => O) _ _ 900 0 _ _ 1%positive
    (open_chan <| openConfirmed := true |>) s
    (@reply_conf server _ 0 7 1 1 [] ltac:(split; vm_compute; congruence)
       ltac:(split; vm_compute; congruence) ltac:(split; vm_compute; congruence))
    ltac:(split; vm_compute; congruence) ltac:(split; vm_compute; congruence) Hcs ltac:(lia) Hi
    ltac:(reflexivity) ltac:(reflexivity) ltac:(reflexivity)) as (s'&E&Hc&_).
  exists s'. split; [exact E|exact Hc].
Defined.

Example session_granted_once_witness :
  let s := open_channel <| chan; channels ::= <[1%positive := open_chan <| sessionGranted := true |>]> |> in
  exists ret rej ms, DoChannelRequestSession 0 1%positive WOLFSSH_SESSION_EXEC None true
    (encode_string [65]) 0 s = (Ok (ret, rej), s <| mallocs := ms |>) /\ (ret = WS_SUCCESS -> rej = true).
Proof.
  cbv zeta. apply (session_granted_once 0 1%positive (open_chan <| sessionGranted := true |>)).
  - split; [split; vm_compute; congruence|vm_compute; congruence|].
    repeat constructor; vm_compute; congruence.
  - split; vm_compute; congruence.
  - reflexivity.
  - reflexivity.
Defined.

(** ** What the lookups by the peer's id miss *)

(** Two channels of ours: the first has no confirmation yet, so its peer's id is
    still 0; the second is confirmed, and the peer calls it 0. *)
Definition two_channels : WOLFSSH :=
  let s := (@ChannelNew ID_CHANTYPE_SESSION 64 32768 one_channel).2 in
  let s := (ChannelAppend 2%positive s).2 in
  s <| chan; channels ::= alter (fun c => c <| openConfirmed := true |> <| peerChannel := 0 |>) 2%positive |>
    <| acceptState := ACCEPT_SERVER_USERAUTH_SENT |>.

(** Closing the second channel's direction by its peer's id marks the first one:
    its EOF counts as sent though none was, and the second can send more. *)
Example eof_marks_unconfirmed :
  let s' := (@SendChannelEof server _ 0 two_channels).2 in
  (eofTxd <$> channels (chan s') !! 1%positive) = Some true /\
  (openConfirmed <$> channels (chan s') !! 1%positive) = Some false /\
  (eofTxd <$> channels (chan s') !! 2%positive) = Some false.
Proof. vm_compute. repeat split. Qed.

(** A context whose EOF callback frees the channel it is given. *)
Definition freeing : CTX := server <| @channelEofCb :=
  Some (fun l => c ← ld_channel l; code (@ChannelRemove server (c_channel c) WS_CHANNEL_ID_SELF)) |>.

(** The handler then writes through the channel that is gone. *)
Example eof_callback_freed : (@DoChannelEof freeing (c32toa 0) 0 open_channel).1 = UB.
Proof. vm_compute. reflexivity. Qed.
