(* ===== verification/ChannelIO.v ===== *)
(** The application's view of a channel (ssh.c): reading what has arrived and
    giving the window back, sending, closing, and the gates every one of these
    calls has after a disconnect, during a key exchange and before the open is
    confirmed.

    A call returns its count of bytes, or the bytes themselves for a read, and
    the negative codes are errors. *)

From S2P Require Import Prelude Codes Wire Names Buffer Fwd Algos Kdf Session Samples MsgFilter Transport.
From S2P Require Import Channels Send.

Section ChannelIO.
Context `{CTX} `{Crypto}.

(** ** Gates *)

Definition SendAfterDisconnect : M bool :=
  s ← get;
  if disconnected s then
    modify (fun s => s <| error := WS_DISCONNECT |>);; mret true
  else mret false.

(** [if (SendAfterDisconnect(ssh)) ret = WS_FATAL_ERROR]. *)
Definition not_disconnected : M unit :=
  d ← SendAfterDisconnect; guard_err d WS_FATAL_ERROR.

(** [if (ssh->isKeying)] with the error it reports and returns. *)
Definition not_keying (ret : Z) : M unit :=
  s ← get;
  if truthy (isKeying s) then
    modify (fun s => s <| error := WS_REKEYING |>);; fail ret
  else mret tt.

(** [ssh->channelList], which an empty list makes a bad argument. *)
Definition list_head : M loc :=
  s ← get;
  match channelList (chan s) with
  | [] => fail WS_BAD_ARGUMENT
  | l :: _ => mret l
  end.

Definition open_confirmed (channel : loc) : M unit :=
  c ← ld_channel channel;
  guard_err (negb (openConfirmed c)) WS_CHANNEL_NOT_CONF.

(** ** Reading *)

Definition BufferTake (sz : Z) : ST WOLFSSH_BUFFER bytes :=
  b ← get;
  out ← buffer_read (b_idx b) sz;
  buffer_write (b_idx b) (zeros sz);;
  modify (fun b => b <| b_idx ::= (fun i => i +w sz) |>);;
  mret out.

(** An operation on one of the buffers of a channel. *)
Definition on_input {A} (channel : loc) (m : ST WOLFSSH_BUFFER A) : M A :=
  c ← ld_channel channel;
  let '(r, b) := m (c_inputBuffer c) in
  st_channel channel (fun c => c <| c_inputBuffer := b |>);;
  lift_res r.
Definition on_extended {A} (channel : loc) (m : ST WOLFSSH_BUFFER A) : M A :=
  c ← ld_channel channel;
  let '(r, b) := m (extDataBuffer c) in
  st_channel channel (fun c => c <| extDataBuffer := b |>);;
  lift_res r.

Definition UpdateChannelWindow (channel : loc) : M unit :=
  c ← ld_channel channel;
  let inputBuffer := c_inputBuffer c in
  if (bufferSz inputBuffer / 2 <? b_length inputBuffer) || (c_windowSz c =? 0) then
    let bytesToAdd := b_idx inputBuffer in
    mem ← malloc;
    code (on_input channel (GrowBuffer mem 0));;
    sendResult ← code (ChannelCreditWindow channel bytesToAdd);
    st_channel channel (fun c => c <| c_windowSz ::= (fun w => w +w bytesToAdd) |>);;
    ret_code sendResult
  else mret tt.

(** The error a read leaves: that of its own window adjust, or the one before
    it. [flushed] tells that a short send owed until then has gone out. *)
Definition read_error (updateResult savedError : Z) (flushed : bool) : M unit :=
  modify (fun s => s <| error :=
    if updateResult =? WS_SUCCESS then
      if (savedError =? WS_WANT_WRITE) && flushed then WS_SUCCESS else savedError
    else updateResult |>).

Definition ChannelRead (channel : loc) (bufSz : Z) : M bytes :=
  guard_err (bufSz =? 0) WS_BAD_ARGUMENT;;
  c ← ld_channel channel;
  let inputBuffer := c_inputBuffer c in
  guard_err (b_length inputBuffer <? b_idx inputBuffer) WS_INVALID_STATE_E;;
  let bufSz := min bufSz (b_length inputBuffer -w b_idx inputBuffer) in
  out ← on_input channel (BufferTake bufSz);
  s ← get;
  let savedError := error s in
  c ← ld_channel channel;
  let creditedSz := b_idx (c_inputBuffer c) in
  updateResult ← code (UpdateChannelWindow channel);
  c ← ld_channel channel;
  s ← get;
  read_error updateResult savedError
    (negb (creditedSz =? 0) && (b_idx (c_inputBuffer c) =? 0) && (b_length (outputBuffer (tx s)) =? 0));;
  mret out.

Definition ChannelReadExt (channel : loc) (bufSz : Z) : M bytes :=
  guard_err (bufSz =? 0) WS_BAD_ARGUMENT;;
  c ← ld_channel channel;
  let ext := extDataBuffer c in
  guard_err (b_length ext <? b_idx ext) WS_INVALID_STATE_E;;
  let bufSz := min bufSz (b_length ext -w b_idx ext) in
  out ← on_extended channel (BufferTake bufSz);
  if 0 <? bufSz then
    s ← get;
    let savedError := error s in
    st_channel channel (fun c => c <| c_windowSz ::= (fun w => w +w bufSz) |>);;
    c ← ld_channel channel;
    when (b_idx (extDataBuffer c) =? b_length (extDataBuffer c))
      (on_extended channel (ShrinkBuffer false));;
    adjustResult ← code (ChannelCreditWindow channel bufSz);
    s ← get;
    read_error adjustResult savedError (b_length (outputBuffer (tx s)) =? 0);;
    mret out
  else mret out.

(** What both peeks do with the channel: the EOF, then the disconnect, and only
    once there is nothing left to read. *)
Definition peek (channel : loc) (bufSz : Z) : M bytes :=
  c ← ld_channel channel;
  let inputBuffer := c_inputBuffer c in
  let avail := b_length inputBuffer -w b_idx inputBuffer in
  s ← get;
  if (avail =? 0) && eofRxd c then
    modify (fun s => s <| error := WS_EOF |>);; fail WS_ERROR
  else if (avail =? 0) && disconnected s then
    modify (fun s => s <| error := WS_DISCONNECT |>);; fail WS_FATAL_ERROR
  else
    on_input channel (buffer_read (b_idx inputBuffer) (min bufSz avail)).

Definition wolfSSH_ChannelIdPeek (channelId bufSz : Z) : M bytes :=
  channel ← ChannelFind channelId WS_CHANNEL_ID_SELF;
  match channel with
  | None => fail WS_INVALID_CHANID
  | Some channel => peek channel bufSz
  end.

Definition wolfSSH_stream_peek (bufSz : Z) : M bytes :=
  s ← get;
  match channelList (chan s) with
  | [] =>
    if disconnected s then
      modify (fun s => s <| error := WS_DISCONNECT |>);; fail WS_FATAL_ERROR
    else fail WS_BAD_ARGUMENT
  | channel :: _ =>
    if truthy (isKeying s) && negb (disconnected s) then
      modify (fun s => s <| error := WS_REKEYING |>);; fail WS_REKEYING
    else peek channel bufSz
  end.

Definition wolfSSH_ChannelIdRead (channelId bufSz : Z) : M bytes :=
  channel ← ChannelFind channelId WS_CHANNEL_ID_SELF;
  match channel with
  | None => fail WS_INVALID_CHANID
  | Some channel => ChannelRead channel bufSz
  end.

Definition wolfSSH_ChannelRead (channel : loc) (bufSz : Z) : M bytes :=
  guard_err (bufSz =? 0) WS_BAD_ARGUMENT;;
  not_keying WS_REKEYING;;
  ChannelRead channel bufSz.

Definition wolfSSH_ChannelIdReadExt (channelId bufSz : Z) : M bytes :=
  channel ← ChannelFind channelId WS_CHANNEL_ID_SELF;
  match channel with
  | None => fail WS_INVALID_CHANID
  | Some channel => ChannelReadExt channel bufSz
  end.

Definition wolfSSH_ChannelReadExt (channel : loc) (bufSz : Z) : M bytes :=
  guard_err (bufSz =? 0) WS_BAD_ARGUMENT;;
  ChannelReadExt channel bufSz.

Definition wolfSSH_extended_data_read (outSz : Z) : M bytes :=
  channel ← list_head;
  ChannelReadExt channel outSz.

(** ** Sending *)

Definition wolfSSH_stream_send (buf : bytes) : M Z :=
  not_disconnected;;
  channel ← list_head;
  not_keying WS_FATAL_ERROR;;
  c ← ld_channel channel;
  SendChannelData (c_channel c) buf.

Definition wolfSSH_extended_data_send (buf : bytes) : M Z :=
  not_disconnected;;
  channel ← list_head;
  not_keying WS_REKEYING;;
  c ← ld_channel channel;
  SendChannelExtendedData (c_channel c) buf.

(** The channel an id names, once its open is confirmed. *)
Definition find_confirmed (channelId : Z) : M unit :=
  not_disconnected;;
  channel ← ChannelFind channelId WS_CHANNEL_ID_SELF;
  match channel with
  | None => fail WS_INVALID_CHANID
  | Some channel => open_confirmed channel
  end.

Definition wolfSSH_ChannelIdSend (channelId : Z) (buf : bytes) : M Z :=
  find_confirmed channelId;;
  SendChannelData channelId buf.

Definition wolfSSH_ChannelIdSendExt (channelId : Z) (buf : bytes) : M Z :=
  find_confirmed channelId;;
  SendChannelExtendedData channelId buf.

Definition wolfSSH_ChannelSend (channel : loc) (buf : bytes) : M Z :=
  not_disconnected;;
  open_confirmed channel;;
  c ← ld_channel channel;
  SendChannelData (c_channel c) buf.

Definition wolfSSH_ChannelSendExt (channel : loc) (buf : bytes) : M Z :=
  not_disconnected;;
  open_confirmed channel;;
  c ← ld_channel channel;
  SendChannelExtendedData (c_channel c) buf.

(** The peer's id of a channel. *)
Definition peer_of (channel : loc) : M Z := c ← ld_channel channel; mret (peerChannel c).

(** ** Ending a stream *)

Definition wolfSSH_stream_send_eof : M unit :=
  not_disconnected;;
  channel ← list_head;
  not_keying WS_REKEYING;;
  open_confirmed channel;;
  id ← peer_of channel;
  SendChannelEof id.

Definition wolfSSH_ChannelSendEof (channel : loc) : M unit :=
  not_disconnected;;
  not_keying WS_REKEYING;;
  open_confirmed channel;;
  id ← peer_of channel;
  SendChannelEof id.

Definition wolfSSH_ChannelExit (channel : loc) : M unit :=
  not_disconnected;;
  open_confirmed channel;;
  id ← peer_of channel;
  SendChannelEof id;;
  id ← peer_of channel;
  SendChannelClose id.

(** [ssh->channelList->peerChannel], read anew before each message. *)
Definition head_peer : M Z :=
  s ← get;
  match channelList (chan s) with
  | [] => ub
  | l :: _ => peer_of l
  end.

Definition wolfSSH_stream_exit (status : Z) : M unit :=
  not_disconnected;;
  _ ← list_head;
  id ← head_peer; SendChannelExit id status;;
  id ← head_peer; SendChannelEow id;;
  id ← head_peer; SendChannelEof id;;
  id ← head_peer; SendChannelClose id.

Definition wolfSSH_ChannelFree (channel : loc) : M unit :=
  c ← ld_channel channel;
  ChannelRemove (c_channel c) WS_CHANNEL_ID_SELF.

Definition wolfSSH_ChannelGetId (channel : loc) (peer : Z) : M Z :=
  c ← ld_channel channel;
  mret (if peer =? WS_CHANNEL_ID_SELF then c_channel c else peerChannel c).

(** ** Forwards *)

(** A [WOLFSSH_FWD_PENDING] of the caller's own, gone when the call returns. *)
Definition with_pending {A} (m : loc -> M A) : M A :=
  pend ← on_fwd (l ← new_loc; modify (fun f => f <| pendings ::= <[l := zero_pending]> |>);; mret l);
  r ← attempt (m pend);
  on_fwd (modify (fun f => f <| pendings ::= delete pend |>));;
  match r with inl a => mret a | inr e => fail e end.

Definition wolfSSH_global_request (data : bytes) (reply : Z) : M unit :=
  guard_err (negb (reply =? 0) && negb (reply =? 1)) WS_BAD_ARGUMENT;;
  not_disconnected;;
  if truthy reply then
    with_pending (fun pend =>
      mem ← malloc;
      on_fwd (FwdReplyPrepare mem pend);;
      '(ret, sent) ← SendGlobalRequest data reply;
      on_fwd (if sent : bool then FwdPendingCommit pend else FwdPendingDiscard pend);;
      ret_code ret)
  else
    '(ret, _) ← SendGlobalRequest data reply;
    ret_code ret.

(** The two requests about a listener of the peer differ in the ports they take. *)
Definition fwd_request (bindAddr : option bytes) (bindPort wantReply : Z) (isCancel : bool) : M unit :=
  match bindAddr with
  | None => fail WS_BAD_ARGUMENT
  | Some addr =>
    guard_err ((isCancel && (bindPort =? 0)) || (65535 <? bindPort)) WS_BAD_ARGUMENT;;
    guard_err (negb (wantReply =? 0) && negb (wantReply =? 1)) WS_BAD_ARGUMENT;;
    guard_err (negb isCancel && (bindPort =? 0) && negb (truthy wantReply)) WS_BAD_ARGUMENT;;
    guard_err (negb (side =? WOLFSSH_ENDPOINT_CLIENT)) WS_BAD_ARGUMENT;;
    not_disconnected;;
    s ← get;
    guard_err (truthy (isKeying s)) WS_REKEYING;;
    with_pending (fun pend =>
      m1 ← malloc;
      m2 ← malloc;
      m3 ← malloc;
      on_fwd (FwdRemotePrepare (m1, m2, m3) addr bindPort (truthy wantReply) isCancel pend);;
      SendGlobalRequestFwd bindAddr bindPort isCancel (truthy wantReply) pend)
  end.

Definition wolfSSH_FwdRemoteSetup (bindAddr : option bytes) (bindPort wantReply : Z) : M unit :=
  fwd_request bindAddr bindPort wantReply false.

Definition wolfSSH_FwdRemoteCancel (bindAddr : option bytes) (bindPort wantReply : Z) : M unit :=
  fwd_request bindAddr bindPort wantReply true.

Definition wolfSSH_SetFwdRemoteMatch (match' : Z) : M unit :=
  guard_err (WOLFSSH_FWD_MATCH_OFF <? match') WS_BAD_ARGUMENT;;
  modify (fun s => s <| fwd; fwdRemoteMatch := match' |>).

(** Opening a forward's channel: [NULL] is every error, after which the channel
    is gone. *)
Definition fwd_channel (type : AlgoId) (host : option bytes) (hostPort : Z) (origin : option bytes)
    (originPort : Z) (direct : bool) (notify : loc -> M unit) : M (option loc) :=
  match host, origin with
  | Some _, Some _ =>
    d ← SendAfterDisconnect;
    if (d : bool) then mret None
    else
      newChannel ← ChannelNew type windowSz maxPacketSz;
      match newChannel with
      | None => mret None
      | Some newChannel =>
        ret ← code (ChannelUpdateForward newChannel host hostPort origin originPort direct;;
                    SendChannelOpenForward newChannel;;
                    notify newChannel);
        if truthy ret then ChannelDelete newChannel;; mret None
        else ChannelAppend newChannel;; mret (Some newChannel)
      end
  | _, _ => mret None
  end.

Definition wolfSSH_ChannelFwdNewLocal (host : option bytes) (hostPort : Z) (origin : option bytes)
    (originPort : Z) : M (option loc) :=
  fwd_channel ID_CHANTYPE_TCPIP_DIRECT host hostPort origin originPort true (fun _ => mret tt).

Definition wolfSSH_ChannelFwdNewRemote (host : option bytes) (hostPort : Z) (origin : option bytes)
    (originPort : Z) : M (option loc) :=
  fwd_channel ID_CHANTYPE_TCPIP_FORWARD host hostPort origin originPort false (fun newChannel =>
    c ← ld_channel newChannel;
    ret ← call fwdCb (fun cb => cb WOLFSSH_FWD_CHANNEL_ID None (c_channel c)) (mret WS_SUCCESS);
    ret_code ret).

(** ** Taking from a buffer *)

Lemma buffer_take_ok sz b :
  buffer_ok b -> 0 <= sz <= blen (unread b) ->
  exists b', BufferTake sz b = (Ok (take (Z.to_nat sz) (unread b)), b') /\ buffer_ok b' /\
    unread b' = drop (Z.to_nat sz) (unread b) /\ b_length b' = b_length b /\
    bufferSz b' = bufferSz b /\ b_idx b' = b_idx b + sz /\
    slice (buffer b') (b_idx b) sz = zeros sz /\ dynamicFlag b' = dynamicFlag b.
Proof.
  intros Hok Hsz. pose proof Hok as []. rewrite unread_length in Hsz by done.
  unfold BufferTake. run. erewrite ST_bind_ok by (apply buffer_read_ok; lia).
  destruct (buffer_write_ok (b_idx b) (zeros sz) b) as (a&Hw&E); [lia|rewrite blen_zeros; lia|].
  erewrite ST_bind_ok by exact E. run.
  pose proof (blen_wr _ _ _ _ Hw) as Hl. pose proof (set_buffer_channel_ok a b Hok Hl) as [B1 B2 B3 B4 B5].
  destruct (set_buffer_fields a b) as (F1&F2&F3&F4). pose proof (buffer_set_buffer a b) as Hbuf.
  set (c := set_buffer a b) in *. set (b' := c <| b_idx ::= (fun i => i +w sz) |>).
  assert (b_idx b' = b_idx b + sz) as Hi.
  { unfold b'. cbn -[wrap32]. rewrite F2. apply wrap32_small. lia. }
  assert (buffer b' = a) as Hb' by exact Hbuf.
  assert (b_length b' = b_length b) as Hlen by exact F1.
  exists b'. split.
  { unfold unread, slice. rewrite take_take. do 2 f_equal. f_equal. lia. }
  split; [split; rewrite ?Hi, ?Hlen, ?Hb'; [lia|rewrite <- F1; exact B2|rewrite <- Hbuf; exact B3|exact B4|exact B5]|].
  split; [|split; [done|split; [done|split; [done|split; [|exact F4]]]]].
  - unfold unread. rewrite Hi, Hlen, Hb'. unfold slice.
    rewrite wr_eq in Hw by (rewrite ?blen_zeros; lia). injection Hw as <-.
    unfold zeros. rewrite length_replicate, app_assoc.
    rewrite (drop_app_ge (take _ _ ++ _)) by (rewrite length_app, length_replicate, length_take; lia).
    rewrite length_app, length_replicate, length_take, !drop_drop, skipn_firstn_comm, drop_drop.
    unfold blen in *. f_equal; [lia|f_equal; lia].
  - rewrite Hb'. destruct (slice_wr_prefix (buffer b) (zeros sz) (b_idx b)) with (a' := a) as (_&Hz&_);
      [lia|rewrite blen_zeros; lia|done|]. by rewrite blen_zeros in Hz by lia.
Qed.

(** Compacting in place. *)
Lemma GrowBuffer_zero mem b :
  buffer_ok b ->
  exists b', GrowBuffer mem 0 b = (Ok tt, b') /\ buffer_ok b' /\ unread b' = unread b /\
    b_idx b' = 0 /\ bufferSz b' = bufferSz b /\ b_length b' = b_length b - b_idx b.
Proof.
  intros Hok. pose proof Hok as []. pose proof (used_small b Hok) as Hu.
  unfold GrowBuffer. run. rewrite (grow_size 0 b Hok) by lia. rewrite (proj2 (Z.ltb_ge _ _)) by lia. rewrite Hu.
  destruct (Z.ltb_spec 0 (b_length b)).
  - erewrite ST_bind_ok by (apply buffer_read_ok; lia). fold (unread b).
    destruct (compact_ok b Hok) as (b'&->&Hs&Hp). destruct (Hp 0) as (Hok'&Hun&_&_&Hi&_); [lia|].
    exists b'. do 5 (split; [done|]).
    pose proof (unread_length b Hok). pose proof (unread_length b' Hok'). rewrite Hun in *. lia.
  - exists b. repeat split; try done; lia.
Qed.

(** ** Reads *)

Lemma on_input_run {A} l (m : ST WOLFSSH_BUFFER A) ch s r b :
  channels (chan s) !! l = Some ch -> m (c_inputBuffer ch) = (r, b) ->
  on_input l m s = (r, s <| chan; channels ::= <[l := ch <| c_inputBuffer := b |>]> |>).
Proof.
  intros Hl E. unfold on_input. erewrite ST_bind_ok by (by apply ld_channel_run). rewrite E.
  by erewrite ST_bind_ok by (by apply st_channel_run).
Qed.

Lemma on_extended_run {A} l (m : ST WOLFSSH_BUFFER A) ch s r b :
  channels (chan s) !! l = Some ch -> m (extDataBuffer ch) = (r, b) ->
  on_extended l m s = (r, s <| chan; channels ::= <[l := ch <| extDataBuffer := b |>]> |>).
Proof.
  intros Hl E. unfold on_extended. erewrite ST_bind_ok by (by apply ld_channel_run). rewrite E.
  by erewrite ST_bind_ok by (by apply st_channel_run).
Qed.

Context `{!CryptoSizes} (wire : bytes -> bytes) (retries : bytes -> nat) `{!Network wire retries}.

(** Where [gained] bytes of window went. With what the channel owed already they
    are owed, or in one WINDOW_ADJUST on the stream; only a total that does not
    fit the message's 32 bits leaves the debt as it was. *)
Definition settlement (s s' : WOLFSSH) (ch : WOLFSSH_CHANNEL) (gained owed : Z) : Prop :=
  let total := pendingWindowAdjust ch + gained in
  exists lost frame, stream wire s' ++ lost = stream wire s ++ frame /\
    ((frame = [] /\ lost = [] /\ owed = total /\ total < 2 ^ 32) \/
     (frame = [] /\ lost = [] /\ owed = pendingWindowAdjust ch /\ 2 ^ 32 <= total) \/
     (exists t, packet_of t (adjust_message ch total) frame /\ isKeying s = 0 /\ disconnected s = false /\
        (owed = 0 /\ lost = [] \/ owed = total))).

(** What a read leaves of its channel [ch], the window having grown by
    [gained]. *)
Record read_post (s s' : WOLFSSH) (l : loc) (ch ch' : WOLFSSH_CHANNEL) (gained : Z) : Prop := {
  rp_session : conn_only s s';
  rp_channels : chan s' = (chan s) <| channels ::= <[l := ch']> |>;
  rp_inv : chan_inv [] (chan s');
  rp_channel : ch' = ch <| c_inputBuffer := c_inputBuffer ch' |> <| extDataBuffer := extDataBuffer ch' |>
                        <| c_windowSz := c_windowSz ch + gained |>
                        <| pendingWindowAdjust := pendingWindowAdjust ch' |>;
  rp_gained : 0 <= gained;
  rp_settled : settlement s s' ch gained (pendingWindowAdjust ch')
}.

Lemma credit_settled s l ch n r s' :
  credit_post wire s l ch n r s' -> is_word32 n -> is_word32 (pendingWindowAdjust ch) ->
  exists owed, conn_only s s' /\ chan s' = (chan s) <| channels ::= <[l := owing ch owed]> |> /\
    settlement s s' ch n owed /\ r <> UB.
Proof.
  unfold is_word32. intros (owed&lost&frame&F&Hc&Hst&Hr) Hn Hp. exists owed. do 2 (split; [done|]).
  split; [|by destruct r]. exists lost, frame. split; [done|].
  destruct r as [[]|e|]; [| |done].
  - destruct Hr as (->&Hlt&[(->&->&_)|((t&Ht)&->&Hk&Hd)]); [by left|].
    right. right. exists t. eauto 10.
  - destruct Hr as [(->&->&->&_&Hov)|(Hk&Hd&Hlt&[(->&->&->)|[((t&Ht)&->&->&_)|((t&Ht)&->&_)]])].
    + right. by left.
    + by left.
    + right. right. exists t. eauto 10.
    + right. right. exists t. eauto 10.
Qed.

(** The update is due when half of the buffer has been used or no window is
    left. *)
Definition update_due (ch : WOLFSSH_CHANNEL) : bool :=
  (bufferSz (c_inputBuffer ch) / 2 <? b_length (c_inputBuffer ch)) || (c_windowSz ch =? 0).

Definition due_at (l : loc) (n : Z) (l' : loc) : Z := if decide (l' = l) then n else 0.

Lemma settlement_same s s1 s' ch ch1 n owed :
  tx s1 = tx s -> app s1 = app s -> isKeying s1 = isKeying s -> disconnected s1 = disconnected s ->
  pendingWindowAdjust ch1 = pendingWindowAdjust ch -> peerChannel ch1 = peerChannel ch ->
  settlement s1 s' ch1 n owed -> settlement s s' ch n owed.
Proof.
  intros Ht Ha Hk Hd Hp Hc. unfold settlement, adjust_message. rewrite Hk, Hd, Hp, Hc.
  by rewrite (stream_same wire s s1).
Qed.

Lemma code_total {A} (m : M A) s r s' : m s = (r, s') -> r <> UB -> exists e, code m s = (Ok e, s').
Proof. unfold code. intros ->. destruct r; eauto. done. Qed.

Lemma input_shape ch b owed n :
  c_windowSz ch +w n = c_windowSz ch + n ->
  (owing (ch <| c_inputBuffer := b |>) owed) <| c_windowSz ::= (fun w => w +w n) |>
  = ch <| c_inputBuffer := b |> <| extDataBuffer := extDataBuffer ch |>
       <| c_windowSz := c_windowSz ch + n |> <| pendingWindowAdjust := owed |>.
Proof. intros E. destruct ch. cbn -[wrap32] in *. by rewrite <- E. Qed.

Lemma UpdateChannelWindow_run k l ch s :
  can_send retries k s -> 512 <= k -> chan_inv [] (chan s) -> l ∈ channelList (chan s) ->
  channels (chan s) !! l = Some ch ->
  exists ch' r s', UpdateChannelWindow l s = (r, s') /\ r <> UB /\ can_send retries (k - 256) s' /\
    read_post s s' l ch ch' (if update_due ch then b_idx (c_inputBuffer ch) else 0) /\
    unread (c_inputBuffer ch') = unread (c_inputBuffer ch) /\
    bufferSz (c_inputBuffer ch') = bufferSz (c_inputBuffer ch) /\
    extDataBuffer ch' = extDataBuffer ch.
Proof.
  intros Hcs Hk Hi Hin Hch. pose proof (ci_each _ _ Hi _ _ Hch) as Hok.
  pose proof (ch_in _ Hok) as Hb. pose proof Hb as [Hb1 Hb2 Hb3 Hb4 Hb5].
  pose proof (ch_owed _ Hok) as Ho. pose proof (ch_window _ Hok) as Hw. pose proof (ch_window_pos _ Hok).
  pose proof (blen_nonneg (unread (extDataBuffer ch))).
  unfold UpdateChannelWindow. erewrite ST_bind_ok by (by apply ld_channel_run). cbv zeta. fold (update_due ch).
  destruct (update_due ch) eqn:Edue.
  2: { exists ch, (Ok tt), s. split; [done|]. split; [done|]. split; [eapply can_send_weaken; [done|lia]|].
       split; [|done]. split; cbn; try done; [apply conn_only_refl| |destruct ch; unfold field_set; cbn; by rewrite Z.add_0_r|].
       - by rewrite (channels_same _ _ _ _ Hch eq_refl).
       - exists [], []. split; [done|]. left. unfold is_word32 in Ho. repeat split; lia. }
  rewrite (ST_bind_ok _ _ _ _ _ (malloc_run s)).
  set (s1 := s <| mallocs := tail (mallocs s) |>).
  destruct (GrowBuffer_zero (default true (head (mallocs s))) (c_inputBuffer ch) Hb)
    as (b'&Hg&Hbok&Hun&Hidx&Hbsz&Hlen).
  erewrite ST_bind_ok by (eapply code_ok, on_input_run; [exact Hch|exact Hg]).
  set (n := b_idx (c_inputBuffer ch)) in *. set (ch1 := ch <| c_inputBuffer := b' |>).
  set (s2 := s1 <| chan; channels ::= <[l := ch1]> |>).
  assert (chan_inv_due (due_at l n) [] (chan s2)) as Hi2.
  { eapply (chan_inv_due_update no_due); [exact Hi|exact Hch| |done|].
    - unfold due_at. rewrite decide_True by done. destruct Hok. split; cbn; try done. rewrite Hlen, Hbsz. lia.
    - intros l' Hl'. unfold due_at. by rewrite decide_False. }
  assert (channels (chan s2) !! l = Some ch1) as Hch2 by apply lookup_insert_eq.
  destruct (ChannelCreditWindow_run (due := due_at l n) wire retries k l ch1 n s2) as (Hcs3&Hi3&Hp); try done.
  { by destruct Hcs. }
  { unfold is_word32. lia. }
  destruct (ChannelCreditWindow l n s2) as [r s3] eqn:E. cbn [fst snd] in *.
  apply credit_settled in Hp as (owed&F3&Hc3&Hset&Hub); [|unfold is_word32; lia|done].
  destruct (code_total _ _ _ _ E Hub) as [e He]. erewrite ST_bind_ok by exact He.
  assert (channels (chan s3) !! l = Some (owing ch1 owed)) as Hch3.
  { rewrite Hc3. cbn. apply lookup_insert_eq. }
  erewrite ST_bind_ok by (by apply st_channel_run).
  assert (c_windowSz ch +w n = c_windowSz ch + n) as Hwn by (apply wrap32_small; lia).
  set (ch' := (owing ch1 owed) <| c_windowSz ::= (fun w => w +w n) |>).
  set (s' := s3 <| chan; channels ::= <[l := ch']> |>).
  exists ch', (ret_code e s').1, s'.
  split; [unfold ret_code; by destruct (e =? 0)|]. split; [unfold ret_code; by destruct (e =? 0)|].
  split; [by apply (can_send_same _ _ s3)|]. split; [|done].
  assert (chan s' = (chan s) <| channels ::= <[l := ch']> |>) as Hcc.
  { unfold s'. rewrite (session_chan_twice s2 s3 l _ ch' Hc3). unfold s2.
    exact (session_chan_twice s s2 l ch1 ch' eq_refl). }
  assert (conn_only s s2) as F2 by by destruct s.
  split.
  - refine (conn_only_trans _ _ _ F2 (conn_only_trans _ _ _ F3 (conn_only_chan _ _))).
  - exact Hcc.
  - rewrite Hcc. eapply chan_inv_update; [exact Hi|exact Hch| |done].
    pose proof (ci_room _ _ Hi3 _ _ Hch3) as Hr. unfold due_at in Hr. rewrite decide_True in Hr by done.
    destruct Hr. unfold ch', no_due. split; cbn -[wrap32]; rewrite ?Hwn; try done; cbn -[wrap32] in *; lia.
  - exact (input_shape ch b' owed n Hwn).
  - lia.
  - by eapply settlement_same.
Qed.

Lemma read_post_error s s' l ch ch' n e :
  read_post s s' l ch ch' n -> read_post s (s' <| error := e |>) l ch ch' n.
Proof.
  intros [F Hc Hi Hch Hn Hs]. split; try done.
  refine (conn_only_trans _ _ _ F (conn_only_error _ _)).
Qed.

(** What was done to the buffers before the window moved. *)
Lemma read_post_before s l ch b e ch' s' n :
  let ch1 := ch <| c_inputBuffer := b |> <| extDataBuffer := e |> in
  read_post (s <| chan; channels ::= <[l := ch1]> |>) s' l ch1 ch' n -> read_post s s' l ch ch' n.
Proof.
  intros ch1 [F Hc Hi Hch Hn Hs]. split.
  - refine (conn_only_trans _ _ _ _ F). apply conn_only_chan.
  - rewrite Hc. exact (session_chan_twice s (s <| chan; channels ::= <[l := ch1]> |>) l ch1 ch' eq_refl).
  - done.
  - exact Hch.
  - done.
  - by eapply settlement_same.
Qed.

Lemma min_word32 n m : 0 <= n -> 0 <= m -> 0 <= min n m <= m.
Proof. rewrite min_Zmin. lia. Qed.

Lemma take_min {A} n (l : list A) : 0 <= n -> take (Z.to_nat (min n (blen l))) l = take (Z.to_nat n) l.
Proof.
  intros Hn. rewrite min_Zmin. unfold blen. destruct (Z.le_ge_cases n (Z.of_nat (length l))).
  - by rewrite Z.min_l by lia.
  - rewrite Z.min_r by lia. rewrite !take_ge by lia. done.
Qed.

Lemma drop_min {A} n (l : list A) : 0 <= n -> drop (Z.to_nat (min n (blen l))) l = drop (Z.to_nat n) l.
Proof.
  intros Hn. rewrite min_Zmin. unfold blen. destruct (Z.le_ge_cases n (Z.of_nat (length l))).
  - by rewrite Z.min_l by lia.
  - rewrite Z.min_r by lia. rewrite !drop_ge by lia. done.
Qed.

Lemma ChannelRead_run k l ch n s :
  can_send retries k s -> 512 <= k -> chan_inv [] (chan s) -> l ∈ channelList (chan s) ->
  channels (chan s) !! l = Some ch -> 0 < n ->
  let out := take (Z.to_nat n) (unread (c_inputBuffer ch)) in
  exists ch' s', ChannelRead l n s = (Ok out, s') /\ can_send retries (k - 256) s' /\
    read_post s s' l ch ch' (if update_due ch then b_idx (c_inputBuffer ch) + blen out else 0) /\
    unread (c_inputBuffer ch') = drop (Z.to_nat n) (unread (c_inputBuffer ch)) /\
    bufferSz (c_inputBuffer ch') = bufferSz (c_inputBuffer ch) /\
    extDataBuffer ch' = extDataBuffer ch.
Proof.
  intros Hcs Hk Hi Hin Hch Hn out. pose proof (ci_each _ _ Hi _ _ Hch) as Hok.
  pose proof (ch_in _ Hok) as Hb. pose proof Hb as [Hb1 Hb2 Hb3 Hb4 Hb5].
  unfold ChannelRead. run. rewrite (proj2 (Z.eqb_neq n 0)) by lia.
  erewrite ST_bind_ok by (by apply ld_channel_run). cbv zeta.
  rewrite st_guard, (proj2 (Z.ltb_ge _ _)) by lia.
  rewrite used_small, <- unread_length by done.
  pose proof (blen_nonneg (unread (c_inputBuffer ch))).
  set (m := min n (blen (unread (c_inputBuffer ch)))).
  destruct (buffer_take_ok m (c_inputBuffer ch) Hb ltac:(apply min_word32; lia))
    as (b1&Ht&Hb1ok&Hun1&Hl1&Hsz1&Hi1&_&_).
  erewrite ST_bind_ok by (apply on_input_run; [exact Hch|exact Ht]).
  set (ch1 := ch <| c_inputBuffer := b1 |>). set (s1 := s <| chan; channels ::= <[l := ch1]> |>).
  assert (channels (chan s1) !! l = Some ch1) as Hch1 by apply lookup_insert_eq.
  assert (chan_inv [] (chan s1)) as Hinv1.
  { eapply chan_inv_update; [exact Hi|exact Hch| |done]. destruct Hok. unfold no_due.
    split; cbn; rewrite ?Hl1, ?Hsz1; done. }
  run. erewrite ST_bind_ok by (by apply ld_channel_run).
  destruct (UpdateChannelWindow_run k l ch1 s1) as (ch'&r&s2&E&Hub&Hcs2&Hp&Hu&Hbz&He); try done.
  { by destruct Hcs. }
  destruct (code_total _ _ _ _ E Hub) as [e Hce]. erewrite ST_bind_ok by exact Hce.
  pose proof (rp_channels _ _ _ _ _ _ Hp) as Hc2.
  erewrite ST_bind_ok by (apply ld_channel_run; rewrite Hc2; apply lookup_insert_eq).
  run. unfold read_error. run. unfold m. rewrite take_min by lia. fold out.
  eexists ch', _. split; [reflexivity|]. split; [by apply (can_send_same _ _ s2)|].
  assert (update_due ch1 = update_due ch) as Hdue.
  { unfold update_due. cbn. by rewrite Hl1, Hsz1. }
  assert (b_idx b1 = b_idx (c_inputBuffer ch) + blen out) as Hidx.
  { rewrite Hi1. unfold m, out. f_equal. rewrite min_Zmin. unfold blen. rewrite length_take. lia. }
  rewrite Hdue in Hp. cbn [c_inputBuffer] in Hp.
  split; [apply read_post_error; apply (read_post_before _ _ _ b1 (extDataBuffer ch))|].
  { rewrite <- Hidx. assert (ch1 = ch <| c_inputBuffer := b1 |> <| extDataBuffer := extDataBuffer ch |>) as <-
      by by destruct ch. exact Hp. }
  split; [|by rewrite <- Hsz1].
  rewrite Hu. change (c_inputBuffer ch1) with b1. rewrite Hun1. unfold m. by rewrite drop_min by lia.
Qed.

(** What crediting to a channel whose buffers and window were just changed
    leaves. *)
Lemma credit_read_post k s l ch e m r s3 :
  let ch1 := ch <| extDataBuffer := e |> <| c_windowSz := c_windowSz ch + m |> in
  let s2 := s <| chan; channels ::= <[l := ch1]> |> in
  can_send retries k s -> 512 <= k -> l ∈ channelList (chan s) -> chan_inv [] (chan s2) -> is_word32 m ->
  ChannelCreditWindow l m s2 = (r, s3) ->
  exists ch', read_post s s3 l ch ch' m /\ r <> UB /\ can_send retries (k - 256) s3 /\
    c_inputBuffer ch' = c_inputBuffer ch /\ extDataBuffer ch' = e.
Proof.
  intros ch1 s2 Hcs Hk Hin Hi Hm E. unfold is_word32 in *.
  assert (channels (chan s2) !! l = Some ch1) as Hch by apply lookup_insert_eq.
  pose proof (ch_owed _ (ci_each _ _ Hi _ _ Hch)) as Ho.
  assert (can_send retries k s2) as Hcs2 by by destruct Hcs.
  destruct (ChannelCreditWindow_run wire retries k l ch1 m s2 Hcs2 Hk Hi Hin Hch Hm) as (Hcs3&Hi3&Hp).
  rewrite E in Hcs3, Hi3, Hp. cbn [fst snd] in *.
  apply credit_settled in Hp as (owed&F3&Hc3&Hset&Hub); [|done..].
  exists (owing ch1 owed). split; [|done]. split; [|..].
  - refine (conn_only_trans _ _ _ _ F3). apply conn_only_chan.
  - rewrite Hc3. exact (session_chan_twice s s2 l ch1 _ eq_refl).
  - done.
  - by destruct ch.
  - lia.
  - by eapply settlement_same.
Qed.

Lemma drained_shrunk l ch s :
  channels (chan s) !! l = Some ch -> buffer_ok (extDataBuffer ch) ->
  exists e, when (b_idx (extDataBuffer ch) =? b_length (extDataBuffer ch)) (on_extended l (ShrinkBuffer false)) s
    = (Ok tt, s <| chan; channels ::= <[l := ch <| extDataBuffer := e |>]> |>) /\
    buffer_ok e /\ unread e = unread (extDataBuffer ch).
Proof.
  intros Hch Hb. pose proof Hb as []. destruct (Z.eqb_spec (b_idx (extDataBuffer ch)) (b_length (extDataBuffer ch))).
  - destruct (ShrinkBuffer_ok false (extDataBuffer ch) Hb) as (e'&E&Hok&Hu&_); [lia|].
    exists e'. split; [|done]. cbn. by apply on_extended_run.
  - exists (extDataBuffer ch). split; [|done]. cbn.
    change (s <| chan; channels ::= <[l := ch <| extDataBuffer := extDataBuffer ch |>]> |>)
      with (s <| chan ::= (fun c => c <| channels ::= <[l := ch <| extDataBuffer := extDataBuffer ch |>]> |>) |>).
    assert (ch <| extDataBuffer := extDataBuffer ch |> = ch) as -> by by destruct ch.
    assert ((chan s) <| channels ::= <[l := ch]> |> = chan s) as E by by apply (channels_same _ _ ch).
    unfold mret, ST_ret. f_equal. destruct s. cbn in *. unfold field_set in *. cbn in *. by rewrite E.
Qed.

(** Extended data out of its buffer and back to the window. *)
Lemma ext_taken_ok ch b m :
  channel_ok ch -> buffer_ok b -> 0 <= m -> blen (unread b) = blen (unread (extDataBuffer ch)) - m ->
  channel_ok (ch <| extDataBuffer := b |> <| c_windowSz := c_windowSz ch + m |>).
Proof. intros [] Hb Hm Hu. split; cbn; try done; lia. Qed.

Lemma session_insert_twice (s : WOLFSSH) l a b :
  (s <| chan; channels ::= <[l := a]> |>) <| chan; channels ::= <[l := b]> |>
  = s <| chan; channels ::= <[l := b]> |>.
Proof.
  assert (forall c : Channels, (c <| channels ::= <[l := a]> |>) <| channels ::= <[l := b]> |> = c <| channels ::= <[l := b]> |>) as E.
  { intros []. unfold field_set. cbn. by rewrite insert_insert_eq. }
  exact (f_equal (fun c => s <| chan := c |>) (E (chan s))).
Qed.

Lemma ChannelReadExt_run k l ch n s :
  can_send retries k s -> 512 <= k -> chan_inv [] (chan s) -> l ∈ channelList (chan s) ->
  channels (chan s) !! l = Some ch -> 0 < n ->
  let out := take (Z.to_nat n) (unread (extDataBuffer ch)) in
  exists ch' s', ChannelReadExt l n s = (Ok out, s') /\ can_send retries (k - 256) s' /\
    read_post s s' l ch ch' (blen out) /\
    unread (extDataBuffer ch') = drop (Z.to_nat n) (unread (extDataBuffer ch)) /\
    c_inputBuffer ch' = c_inputBuffer ch.
Proof.
  intros Hcs Hk Hi Hin Hch Hn out. pose proof (ci_each _ _ Hi _ _ Hch) as Hok.
  pose proof (ch_ext _ Hok) as Hb. pose proof Hb as [Hb1 Hb2 Hb3 Hb4 Hb5].
  pose proof (ch_owed _ Hok) as Ho. pose proof (ch_window _ Hok). pose proof (ch_window_pos _ Hok).
  pose proof (ch_in _ Hok) as [].
  unfold ChannelReadExt. run. rewrite (proj2 (Z.eqb_neq n 0)) by lia.
  erewrite ST_bind_ok by (by apply ld_channel_run). cbv zeta.
  rewrite st_guard, (proj2 (Z.ltb_ge _ _)) by lia. rewrite used_small, <- unread_length by done.
  pose proof (blen_nonneg (unread (extDataBuffer ch))).
  set (m := min n (blen (unread (extDataBuffer ch)))).
  assert (0 <= m <= blen (unread (extDataBuffer ch))) as Hm by (apply min_word32; lia).
  assert (blen out = m) as Hout.
  { unfold m, out. rewrite min_Zmin. unfold blen. rewrite length_take. lia. }
  destruct (buffer_take_ok m (extDataBuffer ch) Hb Hm) as (b1&Ht&Hb1ok&Hun1&_).
  erewrite ST_bind_ok by (apply on_extended_run; [exact Hch|exact Ht]).
  unfold m in Ht, Hun1 |- *. rewrite take_min by lia. rewrite drop_min in Hun1 by lia. fold m out. rewrite <- Hout.
  set (s1 := s <| chan; channels ::= <[l := ch <| extDataBuffer := b1 |>]> |>).
  assert (forall e, unread e = unread b1 -> blen (unread e) = blen (unread (extDataBuffer ch)) - blen out) as Hlen.
  { intros e ->. rewrite Hun1. rewrite Hout. unfold m. rewrite min_Zmin. unfold blen. rewrite length_drop. lia. }
  destruct (Z.ltb_spec 0 (blen out)) as [Hpos|Hz].
  2: { assert (blen out = 0) as Hz0 by (pose proof (blen_nonneg out); lia).
       exists (ch <| extDataBuffer := b1 |>), s1. split; [done|]. split; [destruct Hcs; split; [done|cbn; lia|unfold flush_turns in *; cbn; lia]|].
       split; [|done]. rewrite Hz0. split; [apply conn_only_chan|done| |destruct ch; unfold field_set; cbn; by rewrite Z.add_0_r|done|].
       - eapply chan_inv_update; [exact Hi|exact Hch| |done].
         pose proof (Hlen b1 eq_refl). destruct Hok. unfold no_due. split; cbn; try done. lia.
       - exists [], []. split; [done|]. left. unfold is_word32 in Ho. cbn. repeat split; lia. }
  run. set (ch1 := ch <| extDataBuffer := b1 |>).
  assert (channels (chan s1) !! l = Some ch1) as Hch1 by apply lookup_insert_eq.
  assert (c_windowSz ch +w blen out = c_windowSz ch + blen out) as Hww by (apply wrap32_small; lia).
  erewrite ST_bind_ok by (by apply st_channel_run). unfold s1. rewrite session_insert_twice.
  set (ch2 := ch1 <| c_windowSz ::= (fun w => w +w blen out) |>).
  assert (ch2 = ch <| extDataBuffer := b1 |> <| c_windowSz := c_windowSz ch + blen out |>) as Hch2e.
  { unfold ch2, ch1. rewrite <- Hww. by destruct ch. }
  set (s2 := s <| chan; channels ::= <[l := ch2]> |>).
  assert (channels (chan s2) !! l = Some ch2) as Hch2 by apply lookup_insert_eq.
  erewrite ST_bind_ok by (by apply ld_channel_run).
  destruct (drained_shrunk l ch2 s2 Hch2) as (e&Es&Heok&Heu); [by rewrite Hch2e|].
  erewrite ST_bind_ok by exact Es. unfold s2 in Es |- *. rewrite session_insert_twice.
  set (ch3 := ch <| extDataBuffer := e |> <| c_windowSz := c_windowSz ch + blen out |>).
  assert (ch2 <| extDataBuffer := e |> = ch3) as -> by (rewrite Hch2e; by destruct ch).
  assert (unread (extDataBuffer ch2) = unread b1) as Hub2 by (by rewrite Hch2e).
  rewrite Hub2 in Heu.
  set (s3 := s <| chan; channels ::= <[l := ch3]> |>).
  assert (chan_inv [] (chan s3)) as Hi3.
  { eapply chan_inv_update; [exact Hi|exact Hch| |done].
    apply ext_taken_ok; [done..|lia|]. by apply Hlen. }
  destruct (ChannelCreditWindow l (blen out) s3) as [r s4] eqn:E.
  destruct (credit_read_post k s l ch e (blen out) r s4) as (ch'&Hp&Hub&Hcs4&Hin'&Hext'); try done.
  { unfold is_word32. lia. }
  destruct (code_total _ _ _ _ E Hub) as [ec Hce]. erewrite ST_bind_ok by exact Hce.
  run. unfold read_error. run. eexists ch', _. split; [reflexivity|].
  split; [by apply (can_send_same _ _ s4)|]. split; [by apply read_post_error|].
  split; [|done]. rewrite Hext', Heu. done.
Qed.

(** ** Properties *)

(** reading. Data and extended data come out in order, the oldest first: a read
    of at most [n] bytes returns the first of what is unread and leaves the rest,
    whatever becomes of the window adjust. The window grows by exactly the room a
    read frees -- at once for extended data, once half of the buffer is used for
    data -- and all of it is owed to the peer or in one WINDOW_ADJUST; window,
    buffered and unread bytes still add up to the buffer (part of [chan_inv]);
    and nothing else of any channel changes. *)
Theorem reads_spec k l ch n s :
  can_send retries k s -> 512 <= k -> chan_inv [] (chan s) -> l ∈ channelList (chan s) ->
  channels (chan s) !! l = Some ch -> 0 < n ->
  (let out := take (Z.to_nat n) (unread (c_inputBuffer ch)) in
   exists ch' s', ChannelRead l n s = (Ok out, s') /\
     read_post s s' l ch ch' (if update_due ch then b_idx (c_inputBuffer ch) + blen out else 0) /\
     unread (c_inputBuffer ch') = drop (Z.to_nat n) (unread (c_inputBuffer ch)) /\
     extDataBuffer ch' = extDataBuffer ch) /\
  (let out := take (Z.to_nat n) (unread (extDataBuffer ch)) in
   exists ch' s', ChannelReadExt l n s = (Ok out, s') /\
     read_post s s' l ch ch' (blen out) /\
     unread (extDataBuffer ch') = drop (Z.to_nat n) (unread (extDataBuffer ch)) /\
     c_inputBuffer ch' = c_inputBuffer ch).
Proof.
  intros Hcs Hk Hi Hin Hch Hn. split.
  - destruct (ChannelRead_run k l ch n s Hcs Hk Hi Hin Hch Hn) as (ch'&s'&E&_&Hp&Hu&_&He). by exists ch', s'.
  - destruct (ChannelReadExt_run k l ch n s Hcs Hk Hi Hin Hch Hn) as (ch'&s'&E&_&Hp&Hu&He). by exists ch', s'.
Qed.


End ChannelIO.

(** ** Examples *)

(** Three bytes have come in, and one was read. *)
Definition part_read : WOLFSSH :=
  open_channel <| chan; channels ::= <[1%positive := open_chan
    <| c_inputBuffer := mkBuffer 3 1 64 ([0; 8; 9] ++ zeros 61) (zeros STATIC_BUFFER_LEN) true |>
    <| c_windowSz := 61 |>]> |>.

Lemma part_read_inv : chan_inv [] (chan part_read).
Proof.
  apply (chan_inv_update [] (chan open_channel) 1%positive open_chan _ open_channel_inv open_channel_lookup);
    [|done].
  split; try (split; vm_compute; intuition congruence); vm_compute; congruence.
Qed.

Lemma part_read_can_send : @can_send server (fun _ => O) 900 part_read.
Proof. by apply (@can_send_same server _ _ open_channel part_read eq_refl eq_refl open_channel_can_send). Qed.

Definition part_read_chan : WOLFSSH_CHANNEL :=
  default open_chan (channels (chan part_read) !! 1%positive).

Lemma part_read_lookup : channels (chan part_read) !! 1%positive = Some part_read_chan.
Proof. reflexivity. Qed.

Example reads_spec_witness :
  (@ChannelRead server _ 1%positive 1 part_read).1 = Ok [8] /\
  exists ch' s', @ChannelReadExt server _ 1%positive 1 part_read = (Ok [], s') /\
    read_post (fun w => w) part_read s' 1%positive part_read_chan ch' 0.
Proof.
  split; [vm_compute; reflexivity|].
  destruct (@reads_spec server _ _ (fun w => w) (fun _ => O) _ 900 1%positive part_read_chan 1 part_read
    part_read_can_send ltac:(lia) part_read_inv ltac:(vm_compute; left) part_read_lookup ltac:(lia))
    as [_ (ch'&s'&E&Hp&_)].
  exists ch', s'. split; [exact E|exact Hp].
Defined.


(** A forward whose open would block: the caller is told it failed and the
    channel is gone, yet the open is in the queue and will reach the peer. *)
Definition blocking : CTX := client <| @ioSendCb := Some (fun _ => mret WS_CBIO_ERR_WANT_WRITE) |>.

Definition queued_open : res (option loc) * WOLFSSH :=
  @wolfSSH_ChannelFwdNewLocal blocking _ (Some (str "h")) 80 (Some (str "o")) 81 (new_session []).

Example blocked_open_orphaned :
  queued_open.1 = Ok None /\ channelList (chan queued_open.2) = [] /\
  channels (chan queued_open.2) !! 1%positive = None /\
  slice (unread (outputBuffer (tx queued_open.2))) 5 17 = [MSGID_CHANNEL_OPEN] ++ wstring (str "direct-tcpip").
Proof. vm_compute. repeat split. Qed.
