(* ===== verification/KexInit.v ===== *)
(** Opening a key exchange (internal.c, [DoKexInit] and [SendKexInit]), deriving
    its keys ([GenerateKeys]) and putting them into use ([CipherSetKey],
    [SendNewKeys], [DoNewKeys]); the group exchange's messages and the packet
    guessed by the client ([SkipGuessedKexMsg]).

    What is shown: two endpoints that read each other's KEXINIT settle on the same
    algorithms, derive the same six keys from the same secret, and what a NEWKEYS
    changes. *)

From S2P Require Import Prelude Codes Wire Names Buffer Fwd Algos Kdf Session Samples MsgFilter Transport.
From S2P Require Import Channels Send.

Section KexInit.
Context `{CTX} `{Crypto} `{Hashes}.

(** [ssh->handshake->...]. *)
Definition ld_hs : M HandshakeInfo := s ← get; deref (handshake s).
Definition st_hs (f : HandshakeInfo -> HandshakeInfo) : M unit :=
  h ← ld_hs;
  modify (fun s => s <| handshake := Some (f h) |>).

(** A call on [handshake->kexHash]. *)
Definition on_hash {A} (m : ST bytes A) : M A :=
  h ← ld_hs;
  ((fun s => let '(r, st) := m (kexHash h) in (r, s <| handshake := Some (h <| kexHash := st |>) |>)) : M A).

(** ** Reading the peer's KEXINIT *)

(** The next name-list of the message, decoded. *)
Definition name_list (buf : bytes) (len begin : Z) : M (list AlgoId * Z) :=
  parse (GetNameList WOLFSSH_KEXINIT_ID_LIST_MAX) buf len begin.

(** A list of the session's own, decoded. *)
Definition canned_list (names : option bytes) : M (list AlgoId) :=
  lift_res (GetNameListRaw WOLFSSH_KEXINIT_ID_LIST_MAX names (AlgoListSz names)).

Definition match_algo (err : Z) (peer own : list AlgoId) : M AlgoId :=
  let algoId := MatchIdLists side peer own in
  guard_err (id_eqb algoId ID_UNKNOWN) err;;
  mret algoId.

Definition first_of (l : list AlgoId) : AlgoId := default ID_UNKNOWN (head l).

(** The markers that travel in the list of key exchange algorithms. *)
Definition want_ext_info (list : list AlgoId) : M unit :=
  s ← get;
  when (negb (extInfoSent (kex s))) (
    let algoId := if side =? WOLFSSH_ENDPOINT_SERVER then ID_EXT_INFO_C else ID_EXT_INFO_S in
    let extInfo := MatchIdLists side list [algoId] in
    modify (fun s => s <| kex; sendExtInfo := id_eqb extInfo algoId |>)).

Definition strict_kex (list : list AlgoId) : M unit :=
  s ← get;
  when (blen (sessionId (kex s)) =? 0) (
    let expectedStrict :=
      if side =? WOLFSSH_ENDPOINT_SERVER then [ID_EXT_STRICT_KEX_C; ID_EXT_PRE_STRICT_KEX_C]
      else [ID_EXT_STRICT_KEX_S; ID_EXT_PRE_STRICT_KEX_S] in
    let matched := MatchIdLists side list expectedStrict in
    let useStrict := negb (id_eqb matched ID_UNKNOWN) && sendStrictKex (kex s) in
    modify (fun s => s <| useStrictKex := useStrict |>);;
    when (useStrict && negb (peerSeq (rx s) =? 0)) (
      code (SendDisconnect WOLFSSH_DISCONNECT_KEY_EXCHANGE_FAILED);;
      fail WS_MSGID_NOT_ALLOWED_E)).

(** The key exchange algorithm: the guess the peer's list makes, our first
    choice, and the index after the list. *)
Definition negotiate_kex (buf : bytes) (len begin : Z) : M (AlgoId * AlgoId * Z) :=
  '(list, begin) ← name_list buf len begin;
  s ← get;
  cannedList ← canned_list (Some (algoListKex (kex s)));
  algoId ← match_algo WS_MATCH_KEX_ALGO_E list cannedList;
  modify (fun s => s <| kex; kexId := algoId |>);;
  st_hs (fun h => h <| hs_kexId := algoId |> <| kexHashId := HashForId algoId |>);;
  want_ext_info list;;
  strict_kex list;;
  mret (first_of list, first_of cannedList, begin).

(** The server's own host key algorithms come from its keys when the
    application set no list. *)
Definition own_host_keys : M (list AlgoId) :=
  s ← get;
  match algoListKey (kex s) with
  | None =>
    if side =? WOLFSSH_ENDPOINT_SERVER then
      (* [WMEMCPY(cannedList, ssh->ctx->publicKeyAlgo, cannedListSz)] *)
      if WOLFSSH_KEXINIT_ID_LIST_MAX <? blen publicKeyAlgo then ub else mret publicKeyAlgo
    else canned_list None
  | Some names => canned_list (Some names)
  end.

Definition negotiate_host_key (buf : bytes) (len begin : Z) : M (AlgoId * AlgoId * Z) :=
  '(list, begin) ← name_list buf len begin;
  cannedList ← own_host_keys;
  algoId ← match_algo WS_MATCH_KEY_ALGO_E list cannedList;
  st_hs (fun h => h <| pubKeyId := algoId |>);;
  mret (first_of list, first_of cannedList, begin).

Definition negotiate_cipher (buf : bytes) (len begin : Z) : M (AlgoId * Z) :=
  '(list, begin) ← name_list buf len begin;
  s ← get;
  cannedList ← canned_list (Some (algoListCipher (kex s)));
  algoId ← match_algo WS_MATCH_ENC_ALGO_E list cannedList;
  mret (algoId, begin).

(** An AEAD cipher leaves the list of MACs unread. *)
Definition negotiate_mac (aead : bool) (buf : bytes) (len begin : Z) : M (AlgoId * Z) :=
  '(list, begin) ← name_list buf len begin;
  if aead then mret (ID_NONE, begin)
  else
    s ← get;
    cannedList ← canned_list (Some (algoListMac (kex s)));
    algoId ← match_algo WS_MATCH_MAC_ALGO_E list cannedList;
    mret (algoId, begin).

Definition negotiate_compression (own : AlgoId) (buf : bytes) (len begin : Z) : M (AlgoId * Z) :=
  '(list, begin) ← name_list buf len begin;
  algoId ← match_algo WS_INVALID_ALGO_ID list [own];
  mret (algoId, begin).

(** Everything up to the reserved field: the local and the peer's suite are
    installed in the handshake. *)
Definition negotiate (buf : bytes) (len begin : Z) : M Z :=
  '(kexIdGuess, kexIdFirst, begin) ← negotiate_kex buf len begin;
  '(pubKeyIdGuess, pubKeyIdFirst, begin) ← negotiate_host_key buf len begin;
  '(c2sEncryptId, begin) ← negotiate_cipher buf len begin;
  let c2sAeadMode := AeadModeForId c2sEncryptId in
  '(s2cEncryptId, begin) ← negotiate_cipher buf len begin;
  let s2cAeadMode := AeadModeForId s2cEncryptId in
  '(c2sMacId, begin) ← negotiate_mac c2sAeadMode buf len begin;
  '(s2cMacId, begin) ← negotiate_mac s2cAeadMode buf len begin;
  '(algoId, begin) ← negotiate_compression ID_NONE buf len begin;
  '(algoId, begin) ← negotiate_compression algoId buf len begin;
  '(_, begin) ← parse GetSkip buf len begin;
  '(_, begin) ← parse GetSkip buf len begin;
  '(kexPacketFollows, begin) ← parse GetBoolean buf len begin;
  h ← ld_hs;
  when (truthy kexPacketFollows && (side =? WOLFSSH_ENDPOINT_SERVER)
        && (negb (id_eqb kexIdGuess kexIdFirst) || negb (id_eqb pubKeyIdGuess pubKeyIdFirst)
            || negb (id_eqb kexIdGuess (hs_kexId h)) || negb (id_eqb pubKeyIdGuess (pubKeyId h))))
    (st_hs (fun h => h <| ignoreNextKexMsg := true |>));;
  '(reserved, begin) ← parse GetUint32 buf len begin;
  guard_err (negb (reserved =? 0)) WS_PARSE_E;;
  (if side =? WOLFSSH_ENDPOINT_SERVER then
     st_hs (SetLocalAlgoIds s2cEncryptId s2cAeadMode s2cMacId);;
     st_hs (SetPeerAlgoIds c2sEncryptId c2sAeadMode c2sMacId)
   else
     st_hs (SetLocalAlgoIds c2sEncryptId c2sAeadMode c2sMacId);;
     st_hs (SetPeerAlgoIds s2cEncryptId s2cAeadMode s2cMacId));;
  mret begin.

(** ** Sending our own *)

(** The name-list of a null-terminated list of the session's, as it travels. *)
Definition names_of (l : option bytes) : bytes := slice (cstr (default [] l)) 0 (AlgoListSz l).

(** The names of the server's keys when no list was set: a fresh array. *)
Definition host_key_names : M (option bytes) :=
  s ← get;
  match algoListKey (kex s) with
  | Some names => mret (Some names)
  | None =>
    if side =? WOLFSSH_ENDPOINT_SERVER then
      let keyAlgoNamesSz := wrap32 ((BuildNameList None publicKeyAlgo).1 + 1) in
      keyAlgoNames ← malloc;
      guard_err (negb keyAlgoNames) WS_MEMORY_E;;
      let '(ret, names) := BuildNameList (Some keyAlgoNamesSz) publicKeyAlgo in
      guard_err (ret <? 0) ret;;
      mret (Some names)
    else mret None
  end.

(** What is appended to the key exchange algorithms. *)
Definition kex_plus (strict : bool) : bytes :=
  if side =? WOLFSSH_ENDPOINT_CLIENT then
    if strict then str ",ext-info-c,kex-strict-c,kex-strict-c-v00@openssh.com" else str ",ext-info-c"
  else
    if strict then str ",ext-info-s,kex-strict-s,kex-strict-s-v00@openssh.com" else str ",ext-info-s".

Definition noneNames : bytes := str "none".

(** The message after its cookie. *)
Definition kexinit_lists (kexNames keyNames cipherNames macNames : bytes) : bytes :=
  wstring kexNames ++ wstring keyNames ++ wstring cipherNames ++ wstring cipherNames
  ++ wstring macNames ++ wstring macNames ++ wstring noneNames ++ wstring noneNames
  ++ c32toa 0 ++ c32toa 0 ++ [0] ++ c32toa 0.

(** Building the packet, and keeping a copy of it for the exchange hash. *)
Definition kexinit_packet (keyAlgoNames : option bytes) : M unit :=
  s ← get;
  let includeStrictKex := (blen (sessionId (kex s)) =? 0) && sendStrictKex (kex s) in
  let kexNames := names_of (Some (algoListKex (kex s))) ++ kex_plus includeStrictKex in
  let lists := kexinit_lists kexNames (names_of keyAlgoNames)
    (names_of (Some (algoListCipher (kex s)))) (names_of (Some (algoListMac (kex s)))) in
  let payloadSz := MSG_ID_SZ + COOKIE_SZ +w blen lists in
  PreparePacket payloadSz;;
  s ← get;
  let idx := b_length (outputBuffer (tx s)) in
  out_write idx [MSGID_KEXINIT];;
  let '(cookie, st) := wc_RNG_GenerateBlock (rng (tx s)) COOKIE_SZ in
  modify (fun s => s <| tx; rng := st |>);;
  match cookie with
  | None => fail (wc_RNG_error (rng (tx s)) COOKIE_SZ)
  | Some cookie =>
    out_write (idx +w MSG_ID_SZ) cookie;;
    out_write (idx +w MSG_ID_SZ +w COOKIE_SZ) lists;;
    st_hs (fun h => h <| kexInit := None |>);;
    buf ← malloc;
    guard_err (negb buf) WS_MEMORY_E;;
    st_hs (fun h => h <| kexInit := Some (c32toa payloadSz ++ [MSGID_KEXINIT] ++ cookie ++ lists) |>);;
    modify (fun s => s <| tx; outputBuffer ::= (fun b => b <| b_length := idx +w payloadSz |>) |>);;
    BundlePacket
  end.

Definition kexinit_checks : M (option bytes) :=
  guard_err ((side =? WOLFSSH_ENDPOINT_SERVER) && (privateKeyCount =? 0)) WS_BAD_ARGUMENT;;
  s ← get;
  guard_err ((side =? WOLFSSH_ENDPOINT_SERVER) && bool_decide (algoListKey (kex s) = None)
             && (blen publicKeyAlgo =? 0)) WS_BAD_ARGUMENT;;
  (match handshake s with
   | Some _ => mret tt
   | None =>
     mem ← malloc;
     match HandshakeInfoNew mem with
     | None => fail WS_MEMORY_E
     | Some h => modify (fun s => s <| handshake := Some h |>)
     end
   end);;
  host_key_names.

Definition SendKexInit : M unit :=
  ret ← code (keyAlgoNames ← kexinit_checks; kexinit_packet keyAlgoNames);
  '(ret, delivered) ← (
    if ret =? WS_SUCCESS then
      s ← get;
      let flushes := txFlushCount (tx s) in
      ret ← code SendPacketFlush;
      delivered ← SendPacketDelivered flushes ret;
      mret (ret, delivered)
    else mret (ret, false));
  (if (delivered : bool)
   then modify (fun s => s <| isKeying ::= (fun k => Z.lor k WOLFSSH_SELF_IS_KEYING) |>)
   else PurgePacket);;
  if ret =? WS_SUCCESS then
    r ← HighwaterCheck WOLFSSH_HWSIDE_TRANSMIT;
    ret_code r
  else fail ret.

(** ** Answering the peer's *)

(** The two version strings and the two KEXINITs, the client's first, enter the
    exchange hash: a server has had the client's string and takes its KEXINIT
    now, after which come its own. *)
Definition hash_kexinits (hashId : wc_HashType) (buf : bytes) (len : Z) : M unit :=
  let update d := on_hash (HashUpdate hashId d) in
  let server := side =? WOLFSSH_ENDPOINT_SERVER in
  let client := side =? WOLFSSH_ENDPOINT_CLIENT in
  s ← get;
  when server (update (default [] (peerProtoId (kex s))));;
  let strSz := blen sshProtoIdStr -w SSH_PROTO_EOL_SZ in
  update (c32toa strSz);;
  update (slice sshProtoIdStr 0 strSz);;
  h ← ld_hs;
  when client (
    update (default [] (peerProtoId (kex s)));;
    update (default [] (kexInit h)));;
  update (c32toa (len +w 1));;
  update [MSGID_KEXINIT];;
  update buf;;
  when server (update (default [] (kexInit h))).

Definition start_hash (hashId : wc_HashType) : M unit :=
  st ← lift_res (wc_HashInit hashId);
  st_hs (fun h => h <| kexHash := st |>).

(** Everything but the disconnect of a failed negotiation. *)
Definition do_kexinit (buf : bytes) (len : Z) : M unit :=
  guard_err (len =? 0) WS_BAD_ARGUMENT;;
  s ← get;
  guard_err (truthy (Z.land (isKeying s) WOLFSSH_PEER_IS_KEYING)) WS_INVALID_STATE_E;;
  modify (fun s => s <| isKeying ::= (fun k => Z.lor k WOLFSSH_PEER_IS_KEYING) |>);;
  (match handshake s with
   | Some _ => mret tt
   | None =>
     mem ← malloc;
     match HandshakeInfoNew mem with
     | None => fail WS_MEMORY_E
     | Some h => modify (fun s => s <| handshake := Some h |>)
     end
   end);;
  guard_err (len <? COOKIE_SZ) WS_PARSE_E;;
  _ ← negotiate buf len COOKIE_SZ;
  h ← ld_hs;
  let hashId := kexHashId h in
  s ← get;
  sendRet ← (if Z.land (isKeying s) WOLFSSH_SELF_IS_KEYING =? 0 then code SendKexInit
             else mret WS_SUCCESS);
  guard_err (negb ((sendRet =? WS_SUCCESS) || (sendRet =? WS_WANT_WRITE))) sendRet;;
  start_hash hashId;;
  hash_kexinits hashId buf len;;
  (if side =? WOLFSSH_ENDPOINT_SERVER then
     modify (fun s => s <| clientState := CLIENT_KEXINIT_DONE |>);;
     h ← ld_hs;
     when (negb (ignoreNextKexMsg h)) ExpectClientKexMsg
   else modify (fun s => s <| serverState := SERVER_KEXINIT_DONE |>));;
  ret_code sendRet.

Definition DoKexInit (buf : bytes) (len : Z) : M unit :=
  ret ← code (do_kexinit buf len);
  when (IsKexMatchError ret) (
    _ ← code (SendDisconnect WOLFSSH_DISCONNECT_KEY_EXCHANGE_FAILED);
    mret tt);;
  ret_code ret.

(** Whether the message was consumed. *)
Definition SkipGuessedKexMsg : M bool :=
  h ← ld_hs;
  if negb (ignoreNextKexMsg h) then mret false
  else
    st_hs (fun h => h <| ignoreNextKexMsg := false |>);;
    when (side =? WOLFSSH_ENDPOINT_SERVER) ExpectClientKexMsg;;
    mret true.
End KexInit.
