(* ===== verification/KexKeys.v ===== *)
(** The keys of a session (internal.c): [GenerateKeys] derives both directions,
    [SendNewKeys] and [DoNewKeys] put them into use, each in its direction; and
    the choice of the group of a group exchange, with the messages that carry
    it. *)

From Stdlib Require Import Sorted.
From S2P Require Import Prelude Codes Wire Names Buffer Fwd Algos Kdf Session Samples MsgFilter Transport.
From S2P Require Import Channels Send KexInit.

(** ** The Diffie-Hellman groups *)

(** The big-endian array of [n] bytes of a number. *)
Fixpoint be_bytes (n : nat) (v : Z) : bytes :=
  match n with
  | O => []
  | S m => be_bytes m (v / 256) ++ [v mod 256]
  end.

Definition dhGenerator : bytes := [2].
(** Oakley groups 2, 14 and 16 (RFC 2409, RFC 3526). *)
Definition dhPrimeGroup1 : bytes := be_bytes 128
  0xFFFFFFFFFFFFFFFFC90FDAA22168C234C4C6628B80DC1CD129024E088A67CC74020BBEA63B139B22514A08798E3404DDEF9519B3CD3A431B302B0A6DF25F14374FE1356D6D51C245E485B576625E7EC6F44C42E9A637ED6B0BFF5CB6F406B7EDEE386BFB5A899FA5AE9F24117C4B1FE649286651ECE65381FFFFFFFFFFFFFFFF.
Definition dhPrimeGroup14 : bytes := be_bytes 256
  0xFFFFFFFFFFFFFFFFC90FDAA22168C234C4C6628B80DC1CD129024E088A67CC74020BBEA63B139B22514A08798E3404DDEF9519B3CD3A431B302B0A6DF25F14374FE1356D6D51C245E485B576625E7EC6F44C42E9A637ED6B0BFF5CB6F406B7EDEE386BFB5A899FA5AE9F24117C4B1FE649286651ECE45B3DC2007CB8A163BF0598DA48361C55D39A69163FA8FD24CF5F83655D23DCA3AD961C62F356208552BB9ED529077096966D670C354E4ABC9804F1746C08CA18217C32905E462E36CE3BE39E772C180E86039B2783A2EC07A28FB5C55DF06F4C52C9DE2BCBF6955817183995497CEA956AE515D2261898FA051015728E5A8AACAA68FFFFFFFFFFFFFFFF.
Definition dhPrimeGroup16 : bytes := be_bytes 512
  0xFFFFFFFFFFFFFFFFC90FDAA22168C234C4C6628B80DC1CD129024E088A67CC74020BBEA63B139B22514A08798E3404DDEF9519B3CD3A431B302B0A6DF25F14374FE1356D6D51C245E485B576625E7EC6F44C42E9A637ED6B0BFF5CB6F406B7EDEE386BFB5A899FA5AE9F24117C4B1FE649286651ECE45B3DC2007CB8A163BF0598DA48361C55D39A69163FA8FD24CF5F83655D23DCA3AD961C62F356208552BB9ED529077096966D670C354E4ABC9804F1746C08CA18217C32905E462E36CE3BE39E772C180E86039B2783A2EC07A28FB5C55DF06F4C52C9DE2BCBF6955817183995497CEA956AE515D2261898FA051015728E5A8AAAC42DAD33170D04507A33A85521ABDF1CBA64ECFB850458DBEF0A8AEA71575D060C7DB3970F85A6E1E4C7ABF5AE8CDB0933D71E8C94E04A25619DCEE3D2261AD2EE6BF12FFA06D98A0864D87602733EC86A64521F2B18177B200CBBE117577A615D6C770988C0BAD946E208E24FA074E5AB3143DB5BFCE0FD108E4B82D120A92108011A723C12A787E6D788719A10BDBA5B2699C327186AF4E23C1A946834B6150BDA2583E9CA2AD44CE8DBBBC2DB04DE8EF92E8EFC141FBECAA6287C59474E6BC05D99B2964FA090C3A2233BA186515BE7ED1F612970CEE2D7AFB81BDD762170481CD0069127D5B05AA993B4EA988D8FDDC186FFB7DC90A6C08F4DF435C934063199FFFFFFFFFFFFFFFF.

(** The candidates of a group exchange, ascending by bits. *)
Definition candidates : list (Z * bytes) := [(1024, dhPrimeGroup1); (2048, dhPrimeGroup14); (4096, dhPrimeGroup16)].

(** The scan: the last group in the window, up to the first that reaches the
    preferred size. *)
Fixpoint SelectKexDhGexGroup_loop (minBits preferredBits maxBits : Z) (l : list (Z * bytes))
    (best : option bytes) : option bytes :=
  match l with
  | [] => best
  | (bits, group) :: r =>
    if (bits <? minBits) || (maxBits <? bits) then SelectKexDhGexGroup_loop minBits preferredBits maxBits r best
    else if preferredBits <=? bits then Some group
    else SelectKexDhGexGroup_loop minBits preferredBits maxBits r (Some group)
  end.

Definition SelectKexDhGexGroup (minBits preferredBits maxBits : Z) : res bytes :=
  let minBits := if minBits <? WOLFSSH_DH_GEX_MIN_BITS then WOLFSSH_DH_GEX_MIN_BITS else minBits in
  let maxBits := if MAX_KEX_KEY_SZ * 8 <? maxBits then MAX_KEX_KEY_SZ * 8 else maxBits in
  let maxBits := if (KEX_F_SIZE - 1) * 8 <? maxBits then (KEX_F_SIZE - 1) * 8 else maxBits in
  match SelectKexDhGexGroup_loop minBits preferredBits maxBits candidates None with
  | None => Err WS_DH_SIZE_E
  | Some group => Ok group
  end.

(** The prime and the generator of the exchange negotiated. *)
Definition GetDHPrimeGroup (h : HandshakeInfo) : res (bytes * bytes) :=
  match hs_kexId h with
  | ID_DH_GROUP1_SHA1 => Ok (dhPrimeGroup1, dhGenerator)
  | ID_DH_GROUP14_SHA1 => Ok (dhPrimeGroup14, dhGenerator)
  | ID_DH_GROUP14_SHA256 => Ok (dhPrimeGroup14, dhGenerator)
  | ID_DH_GROUP16_SHA512 => Ok (dhPrimeGroup16, dhGenerator)
  | ID_DH_GEX_SHA256 =>
    match primeGroup h with
    | Some p => Ok (p, default dhGenerator (generator h))
    | None =>
      match SelectKexDhGexGroup (dhGexMinSz h) (dhGexPreferredSz h) (dhGexMaxSz h) with
      | Ok p => Ok (p, dhGenerator)
      | Err e => Err e
      | UB => UB
      end
    end
  | _ => Err WS_INVALID_ALGO_ID
  end.

Section KexKeys.
Context `{CTX} `{Crypto} `{Hashes}.

(** ** Deriving *)

(** The keys of a direction: what this side sends with, or receives with. *)
Definition dir_keys (sends : bool) (h : HandshakeInfo) : Keys := if sends then hs_keys h else hs_peerKeys h.
Definition set_dir (sends : bool) (f : Keys -> Keys) (h : HandshakeInfo) : HandshakeInfo :=
  if sends then h <| hs_keys ::= f |> else h <| hs_peerKeys ::= f |>.

(** One of the six arrays: its letter, its size, and the array. *)
Definition generate (hashId : wc_HashType) (doKeyPad sends : bool) (keyId : Z)
    (size : Keys -> Z) (array : Keys -> bytes) (store : bytes -> Keys -> Keys) : M unit :=
  h ← ld_hs;
  s ← get;
  let ks := dir_keys sends h in
  when (0 <? size ks) (
    let '(r, d) := GenerateKey hashId keyId (size ks) (kx_k (kex s)) (kx_h (kex s))
                     (sessionId (kex s)) doKeyPad (array ks) in
    st_hs (set_dir sends (store d));;
    lift_res r).

Definition gen_iv hashId pad sends keyId := generate hashId pad sends keyId ivSz iv (fun d k => k <| iv := d |>).
Definition gen_enc hashId pad sends keyId :=
  generate hashId pad sends keyId encKeySz encKey (fun d k => k <| encKey := d |>).
Definition gen_mac hashId pad sends keyId :=
  generate hashId pad sends keyId macKeySz macKey (fun d k => k <| macKey := d |>).

Definition clear_keys (k : Keys) : Keys :=
  k <| iv := zeros AES_BLOCK_SIZE |> <| encKey := zeros AES_256_KEY_SIZE |> <| macKey := zeros MAX_HMAC_SZ |>.

(** The letters A, C, E are the client's, B, D, F the server's. *)
Definition GenerateKeys (hashId : wc_HashType) (doKeyPad : bool) : M unit :=
  s ← get;
  match handshake s with
  | None => fail WS_BAD_ARGUMENT
  | Some _ =>
    let cK := negb (side =? WOLFSSH_ENDPOINT_SERVER) in   (* the client's keys are the ones we send with *)
    let sK := side =? WOLFSSH_ENDPOINT_SERVER in
    ret ← code (
      gen_iv hashId doKeyPad cK 65;; gen_iv hashId doKeyPad sK 66;;
      gen_enc hashId doKeyPad cK 67;; gen_enc hashId doKeyPad sK 68;;
      gen_mac hashId doKeyPad cK 69;; gen_mac hashId doKeyPad sK 70);
    when (truthy ret) (st_hs (fun h => h <| hs_keys ::= clear_keys |> <| hs_peerKeys ::= clear_keys |>));;
    ret_code ret
  end.

(** ** Taking keys into use *)

(** The state is the [Ciphers] of the direction, empty when cleared. *)
Definition CipherSetKey (cryptId : AlgoId) (isEnc : bool) (k : Keys) : ST bytes unit :=
  let key := slice (encKey k) 0 (encKeySz k) in
  let set_key (f : bytes -> option bytes) : ST bytes unit :=
    match wc_AesInit with
    | None => fail WS_CRYPTO_FAILED
    | Some aes =>
      match f aes with
      | Some aes => modify (fun _ => aes)
      | None => fail WS_CRYPTO_FAILED
      end
    end in
  modify (fun _ => []);;
  match cryptId with
  | ID_NONE => mret tt
  | ID_AES128_CBC | ID_AES192_CBC | ID_AES256_CBC => set_key (fun aes => wc_AesSetKey aes key (iv k) isEnc)
  | ID_AES128_CTR | ID_AES192_CTR | ID_AES256_CTR => set_key (fun aes => wc_AesSetKey aes key (iv k) true)
  | ID_AES128_GCM | ID_AES192_GCM | ID_AES256_GCM => set_key (fun aes => wc_AesGcmSetKey aes key)
  | _ => fail WS_INVALID_ALGO_ID
  end.

(** The suite a direction leaves the handshake with. *)
Definition take_local (h : HandshakeInfo) (t : Transmit) : Transmit :=
  t <| blockSz := hs_blockSz h |> <| encryptId := hs_encryptId h |> <| macSz := hs_macSz h |>
    <| macId := hs_macId h |> <| aeadMode := hs_aeadMode h |> <| keys := hs_keys h |>.
Definition take_peer (h : HandshakeInfo) (r : Receive) : Receive :=
  r <| peerEncryptId := hs_peerEncryptId h |> <| peerMacId := hs_peerMacId h |>
    <| peerBlockSz := hs_peerBlockSz h |> <| peerMacSz := hs_peerMacSz h |>
    <| peerAeadMode := hs_peerAeadMode h |> <| peerKeys := hs_peerKeys h |>.

Definition clear_flag (flag k : Z) : Z := Z.land k (Z.lnot flag).

Definition SendNewKeys : M unit :=
  send_payload MSG_ID_SZ [MSGID_NEWKEYS];;
  s ← get;
  when (useStrictKex s) (modify (fun s => s <| tx; seq := 0 |>));;
  h ← ld_hs;
  modify (fun s => s <| tx ::= take_local h |>);;
  s ← get;
  let '(r, st) := CipherSetKey (encryptId (tx s)) true (keys (tx s)) (encryptCipher (tx s)) in
  modify (fun s => s <| tx; encryptCipher := st |>);;
  lift_res r;;
  modify (fun s => s <| tx; txCount := 0 |> <| tx; txMsgCount := 0 |>);;
  ret ← code wolfSSH_SendPacket;
  modify (fun s => s <| isKeying ::= clear_flag WOLFSSH_SELF_IS_KEYING |>);;
  adjustResult ← code SendPendingChannelWindowAdjust;
  ret_code (if ret =? WS_SUCCESS then adjustResult else ret).

Definition DoNewKeys (buf : bytes) (len : Z) : M unit :=
  s ← get;
  match handshake s with
  | None => fail WS_BAD_ARGUMENT
  | Some h =>
    guard_err (negb (len =? 0)) WS_BAD_ARGUMENT;;
    guard_err (truthy (Z.land (isKeying s) WOLFSSH_SELF_IS_KEYING)) WS_INVALID_STATE_E;;
    modify (fun s => s <| rx ::= take_peer h |>);;
    s ← get;
    let '(r, st) := CipherSetKey (peerEncryptId (rx s)) false (peerKeys (rx s)) (decryptCipher (rx s)) in
    modify (fun s => s <| rx; decryptCipher := st |>);;
    lift_res r;;
    modify (fun s => s <| rx; rxCount := 0 |> <| rx; rxMsgCount := 0 |>
      <| highwaterFlag := false |> <| msgHighwaterFlag := false |>);;
    modify (fun s => s <| isKeying ::= clear_flag WOLFSSH_PEER_IS_KEYING |> <| handshake := None |>);;
    ret ← code SendPendingChannelWindowAdjust;
    match keyingCompletionCb with Some cb => cb | None => mret tt end;;
    ret_code ret
  end.

(** ** The group exchange *)

Definition SendKexDhGexRequest : M unit :=
  s ← get;
  match handshake s with
  | None => fail WS_BAD_ARGUMENT
  | Some _ =>
    st_hs (fun h => if dhGexMinSz h <? WOLFSSH_DH_GEX_MIN_BITS
                    then h <| dhGexMinSz := WOLFSSH_DH_GEX_MIN_BITS |> else h);;
    h ← ld_hs;
    guard_err (dhGexMaxSz h <? dhGexMinSz h) WS_DH_SIZE_E;;
    st_hs (fun h =>
      let h := if dhGexPreferredSz h <? dhGexMinSz h then h <| dhGexPreferredSz := dhGexMinSz h |> else h in
      if dhGexMaxSz h <? dhGexPreferredSz h then h <| dhGexPreferredSz := dhGexMaxSz h |> else h);;
    h ← ld_hs;
    send_payload (MSG_ID_SZ + UINT32_SZ * 3)
      ([MSGID_KEXDH_GEX_REQUEST] ++ c32toa (dhGexMinSz h) ++ c32toa (dhGexPreferredSz h)
       ++ c32toa (dhGexMaxSz h));;
    st_hs (fun h => h <| expectMsgId := MSGID_KEXDH_GEX_GROUP |>);;
    wolfSSH_SendPacket
  end.

(** A number in a message: its length, a pad for a set sign bit, its bytes. *)
Definition wmpint (d : bytes) : bytes :=
  let pad := truthy (Z.land (nth 0 d 0) 0x80) in
  c32toa (blen d +w b2z pad) ++ (if pad then [0] else []) ++ d.

Definition SendKexDhGexGroup : M unit :=
  s ← get;
  match handshake s with
  | None => fail WS_BAD_ARGUMENT
  | Some h =>
    primeGroup' ← lift_res (SelectKexDhGexGroup (dhGexMinSz h) (dhGexPreferredSz h) (dhGexMaxSz h));
    mem ← malloc;
    (if negb mem then st_hs (fun h => h <| primeGroup := None |>);; fail WS_MEMORY_E
     else st_hs (fun h => h <| primeGroup := Some primeGroup' |>));;
    let payload := [MSGID_KEXDH_GEX_GROUP] ++ wmpint primeGroup' ++ wmpint dhGenerator in
    send_payload (blen payload) payload;;
    st_hs (fun h => h <| expectMsgId := MSGID_KEXDH_GEX_INIT |>);;
    wolfSSH_SendPacket
  end.

Definition DoKexDhGexRequest (buf : bytes) (len : Z) : M unit :=
  s ← get;
  match handshake s with
  | None => fail WS_BAD_ARGUMENT
  | Some _ =>
    guard_err (len =? 0) WS_BAD_ARGUMENT;;
    skipped ← SkipGuessedKexMsg;
    if (skipped : bool) then mret tt
    else
      '(v, begin) ← parse GetUint32 buf len 0;
      st_hs (fun h => h <| dhGexMinSz := v |>);;
      '(v, begin) ← parse GetUint32 buf len begin;
      st_hs (fun h => h <| dhGexPreferredSz := v |>);;
      '(v, begin) ← parse GetUint32 buf len begin;
      st_hs (fun h => h <| dhGexMaxSz := v |>);;
      SendKexDhGexGroup
  end.
End KexKeys.

(** ** The six keys *)

Section SixKeys.
Context `{CTX} `{Crypto} `{HashLaws}.

(** The key of one letter. *)
Definition letter_key (t : wc_HashType) (pad : bool) (s : WOLFSSH) (X len : Z) : bytes :=
  let k := kx_k (kex s) in
  rfc4253_key (digest t) (DigestSz t) (mpint_string k (Z.land (b2z pad) (Z.shiftr (nth 0 k 0) 7)))
    (kx_h (kex s)) [X] (sessionId (kex s)) len.

(** The arrays have their sizes, and the sizes of the keys fit. *)
Record keys_fit (k : Keys) : Prop := {
  fit_iv : blen (iv k) = AES_BLOCK_SIZE /\ 0 <= ivSz k <= AES_BLOCK_SIZE;
  fit_enc : blen (encKey k) = AES_256_KEY_SIZE /\ 0 <= encKeySz k <= AES_256_KEY_SIZE;
  fit_mac : blen (macKey k) = MAX_HMAC_SZ /\ 0 <= macKeySz k <= MAX_HMAC_SZ
}.

(** A secret, an exchange hash and a session id to derive from. *)
Record secret_ready (s : WOLFSSH) : Prop := {
  sr_k : Forall is_byte (kx_k (kex s)) /\ kx_k (kex s) <> [];
  sr_h : kx_h (kex s) <> [];
  sr_id : sessionId (kex s) <> []
}.

Definition with_hs (s : WOLFSSH) (h : HandshakeInfo) : WOLFSSH := s <| handshake := Some h |>.

Lemma with_hs_twice s h h' : with_hs (with_hs s h) h' = with_hs s h'.
Proof. done. Qed.

Lemma generate_run t pad sends X size array store s h :
  t <> WC_HASH_TYPE_NONE -> secret_ready s ->
  0 <= size (dir_keys sends h) <= blen (array (dir_keys sends h)) -> blen (array (dir_keys sends h)) < 2 ^ 32 ->
  (forall k, store (array k) k = k) ->
  wp (generate t pad sends X size array store) (fun r s' => exists d,
    s' = with_hs s (set_dir sends (store d) h) /\ blen d = blen (array (dir_keys sends h)) /\
    match r with
    | inl _ => slice d 0 (size (dir_keys sends h)) = letter_key t pad s X (size (dir_keys sends h))
    | inr e => e = WS_CRYPTO_FAILED /\ ~ HashTotal
    end) (with_hs s h).
Proof.
  intros Ht [[Hkb Hk] Hh Hi] Hsz Hlen Hst. unfold generate.
  apply wp_bind. eapply wp_run; [reflexivity|]. cbv beta iota. apply wp_bind, wp_get. cbv zeta.
  apply wp_when; intros Hz.
  2: { apply Z.ltb_ge in Hz. exists (array (dir_keys sends h)). split; [|split; [done|]].
    - f_equal. unfold set_dir. destruct sends; cbn in *.
      + pose proof (Hst (hs_keys h)) as E. unfold field_set. rewrite E. by destruct h.
      + pose proof (Hst (hs_peerKeys h)) as E. unfold field_set. rewrite E. by destruct h.
    - replace (size _) with 0 by lia. done. }
  apply Z.ltb_lt in Hz.
  pose proof (GenerateKey_run t X (size (dir_keys sends h)) (kx_k (kex s)) (kx_h (kex s)) (sessionId (kex s)) pad
    (array (dir_keys sends h)) Ht Hkb Hk Hh Hi ltac:(lia) Hlen) as Hw.
  change (kex (with_hs s h)) with (kex s). unfold wp in Hw. destruct (GenerateKey _ _ _ _ _ _ _ _) as [r d].
  apply wp_bind. eapply wp_run; [reflexivity|]. cbv beta iota.
  unfold wp, lift_res. destruct r as [[]|e|]; [| |done]; exists d; (split; [done|]); tauto.
Qed.

(** Both directions hold the keys of their letters. *)
Definition derived_dir (t : wc_HashType) (pad : bool) (s : WOLFSSH) (client : bool) (k : Keys) : Prop :=
  slice (iv k) 0 (ivSz k) = letter_key t pad s (if client then 65 else 66) (ivSz k) /\
  slice (encKey k) 0 (encKeySz k) = letter_key t pad s (if client then 67 else 68) (encKeySz k) /\
  slice (macKey k) 0 (macKeySz k) = letter_key t pad s (if client then 69 else 70) (macKeySz k).

(** Only the arrays of the two [Keys] change. *)
Definition arrays_only (h h' : HandshakeInfo) : Prop :=
  exists k p, h' = h <| hs_keys := k |> <| hs_peerKeys := p |> /\
    ivSz k = ivSz (hs_keys h) /\ encKeySz k = encKeySz (hs_keys h) /\ macKeySz k = macKeySz (hs_keys h) /\
    ivSz p = ivSz (hs_peerKeys h) /\ encKeySz p = encKeySz (hs_peerKeys h) /\
    macKeySz p = macKeySz (hs_peerKeys h).


Lemma arrays_only_refl h : arrays_only h h.
Proof. exists (hs_keys h), (hs_peerKeys h). split; [by destruct h|]. auto 10. Qed.

Lemma cleared_same h h' : arrays_only h h' ->
  h' <| hs_keys ::= clear_keys |> <| hs_peerKeys ::= clear_keys |> =
  h <| hs_keys ::= clear_keys |> <| hs_peerKeys ::= clear_keys |>.
Proof.
  intros (k&p&->&E1&E2&E3&E4&E5&E6). destruct h as [? ? ? ? ? ? ? [] ? ? ? ? ? []], k, p. cbn in *. by subst.
Qed.

Lemma arrays_cleared h : arrays_only h (h <| hs_keys ::= clear_keys |> <| hs_peerKeys ::= clear_keys |>).
Proof. exists (clear_keys (hs_keys h)), (clear_keys (hs_peerKeys h)). split; [by destruct h|]. auto 10. Qed.

Lemma cleared_fit k : keys_fit k -> keys_fit (clear_keys k).
Proof. intros [[_ ?] [_ ?] [_ ?]]. repeat split; cbn; (done || lia). Qed.

(** The state between two of the six derivations: [D] is what is derived. *)
Definition deriving (s : WOLFSSH) (h : HandshakeInfo) (D : HandshakeInfo -> Prop) (s' : WOLFSSH) : Prop :=
  exists h', s' = with_hs s h' /\ arrays_only h h' /\ keys_fit (hs_keys h') /\ keys_fit (hs_peerKeys h') /\ D h'.

Definition derives (s : WOLFSSH) (h : HandshakeInfo) (D D' : HandshakeInfo -> Prop) (m : M unit) : Prop :=
  forall s1, deriving s h D s1 -> wp m (fun r s' =>
    match r with
    | inl _ => deriving s h D' s'
    | inr e => e = WS_CRYPTO_FAILED /\ ~ HashTotal /\ deriving s h (fun _ => True) s'
    end) s1.

Lemma derives_seq s h D1 D2 D3 m m' : derives s h D1 D2 m -> derives s h D2 D3 m' -> derives s h D1 D3 (m;; m').
Proof.
  intros Hm Hm' s1 Hs1. apply wp_bind. eapply wp_mono; [by apply Hm|]. cbv beta.
  intros [u|e] s2 Hs2; [by apply Hm'|done].
Qed.

Lemma generate_derives t pad s h sends X size array store (D D' : HandshakeInfo -> Prop) :
  t <> WC_HASH_TYPE_NONE -> secret_ready s ->
  (forall k, keys_fit k -> 0 <= size k <= blen (array k) /\ blen (array k) < 2 ^ 32) ->
  (forall k, store (array k) k = k) ->
  (forall k d, blen d = blen (array k) -> keys_fit k -> keys_fit (store d k) /\
    ivSz (store d k) = ivSz k /\ encKeySz (store d k) = encKeySz k /\ macKeySz (store d k) = macKeySz k) ->
  (forall h1 d, D h1 -> slice d 0 (size (dir_keys sends h1)) = letter_key t pad s X (size (dir_keys sends h1)) ->
    D' (set_dir sends (store d) h1)) ->
  derives s h D D' (generate t pad sends X size array store).
Proof.
  intros Ht Hs Hsz Hst Hfit HD s1 (h1&->&Ha&Fk&Fp&HD1).
  assert (keys_fit (dir_keys sends h1)) as Fd by (by destruct sends).
  destruct (Hsz _ Fd) as [Hs1 Hs2].
  eapply wp_mono; [by apply (generate_run t pad sends X size array store s h1)|].
  cbv beta. intros r s' (d&->&Hd&Hr).
  assert (arrays_only h (set_dir sends (store d) h1) /\ keys_fit (hs_keys (set_dir sends (store d) h1)) /\
    keys_fit (hs_peerKeys (set_dir sends (store d) h1))) as (Ha'&Fk'&Fp').
  { destruct (Hfit _ d Hd Fd) as (Fs&E1&E2&E3). destruct Ha as (k&p&->&Ek). unfold set_dir.
    destruct sends; cbn in *.
    - split; [|by split]. exists (store d k), p. split; [by destruct h|]. rewrite E1, E2, E3. tauto.
    - split; [|by split]. exists k, (store d p). split; [by destruct h|]. rewrite E1, E2, E3. tauto. }
  destruct r as [u|e].
  - exists (set_dir sends (store d) h1). auto 10.
  - destruct Hr as [-> HT]. split; [done|]. split; [done|]. exists (set_dir sends (store d) h1). auto 10.
Qed.

(** What is derived after the first [n] letters. *)
Definition letters (t : wc_HashType) (pad : bool) (s : WOLFSSH) (c : bool) (n : nat) (h : HandshakeInfo) : Prop :=
  let ck := dir_keys c h in
  let sk := dir_keys (negb c) h in
  ((1 <= n)%nat -> slice (iv ck) 0 (ivSz ck) = letter_key t pad s 65 (ivSz ck)) /\
  ((2 <= n)%nat -> slice (iv sk) 0 (ivSz sk) = letter_key t pad s 66 (ivSz sk)) /\
  ((3 <= n)%nat -> slice (encKey ck) 0 (encKeySz ck) = letter_key t pad s 67 (encKeySz ck)) /\
  ((4 <= n)%nat -> slice (encKey sk) 0 (encKeySz sk) = letter_key t pad s 68 (encKeySz sk)) /\
  ((5 <= n)%nat -> slice (macKey ck) 0 (macKeySz ck) = letter_key t pad s 69 (macKeySz ck)) /\
  ((6 <= n)%nat -> slice (macKey sk) 0 (macKeySz sk) = letter_key t pad s 70 (macKeySz sk)).


Ltac fits := intros k [[A1 A2] [B1 B2] [C1 C2]]; rewrite ?A1, ?B1, ?C1; split; [done|reflexivity].
Ltac stores := intros k d Hd [[A1 A2] [B1 B2] [C1 C2]]; repeat split; cbn; (done || lia || congruence).

Lemma gen_iv_derives t pad s h sends X D D' :
  t <> WC_HASH_TYPE_NONE -> secret_ready s ->
  (forall h1 d, D h1 -> slice d 0 (ivSz (dir_keys sends h1)) = letter_key t pad s X (ivSz (dir_keys sends h1)) ->
    D' (set_dir sends (fun k => k <| iv := d |>) h1)) ->
  derives s h D D' (gen_iv t pad sends X).
Proof. intros Ht Hs HD. apply generate_derives; [done|done|fits|by intros []|stores|done]. Qed.

Lemma gen_enc_derives t pad s h sends X D D' :
  t <> WC_HASH_TYPE_NONE -> secret_ready s ->
  (forall h1 d, D h1 -> slice d 0 (encKeySz (dir_keys sends h1)) = letter_key t pad s X (encKeySz (dir_keys sends h1)) ->
    D' (set_dir sends (fun k => k <| encKey := d |>) h1)) ->
  derives s h D D' (gen_enc t pad sends X).
Proof. intros Ht Hs HD. apply generate_derives; [done|done|fits|by intros []|stores|done]. Qed.

Lemma gen_mac_derives t pad s h sends X D D' :
  t <> WC_HASH_TYPE_NONE -> secret_ready s ->
  (forall h1 d, D h1 -> slice d 0 (macKeySz (dir_keys sends h1)) = letter_key t pad s X (macKeySz (dir_keys sends h1)) ->
    D' (set_dir sends (fun k => k <| macKey := d |>) h1)) ->
  derives s h D D' (gen_mac t pad sends X).
Proof. intros Ht Hs HD. apply generate_derives; [done|done|fits|by intros []|stores|done]. Qed.

Ltac next_letter c HL E :=
  destruct HL as (L1&L2&L3&L4&L5&L6); destruct c; cbn in *; repeat split; intros Hn;
  first [exact E | apply L1; lia | apply L2; lia | apply L3; lia | apply L4; lia | apply L5; lia | lia].

Lemma six_keys_run t pad s h c :
  t <> WC_HASH_TYPE_NONE -> secret_ready s ->
  derives s h (letters t pad s c 0) (letters t pad s c 6)
    (gen_iv t pad c 65;; gen_iv t pad (negb c) 66;; gen_enc t pad c 67;; gen_enc t pad (negb c) 68;;
     gen_mac t pad c 69;; gen_mac t pad (negb c) 70).
Proof.
  intros Ht Hs.
  apply (derives_seq _ _ _ (letters t pad s c 1)).
  { apply gen_iv_derives; [done..|]. intros h1 d HL E. next_letter c HL E. }
  apply (derives_seq _ _ _ (letters t pad s c 2)).
  { apply gen_iv_derives; [done..|]. intros h1 d HL E. next_letter c HL E. }
  apply (derives_seq _ _ _ (letters t pad s c 3)).
  { apply gen_enc_derives; [done..|]. intros h1 d HL E. next_letter c HL E. }
  apply (derives_seq _ _ _ (letters t pad s c 4)).
  { apply gen_enc_derives; [done..|]. intros h1 d HL E. next_letter c HL E. }
  apply (derives_seq _ _ _ (letters t pad s c 5)).
  { apply gen_mac_derives; [done..|]. intros h1 d HL E. next_letter c HL E. }
  apply gen_mac_derives; [done..|]. intros h1 d HL E. next_letter c HL E.
Qed.

(** The three keys of a direction, without the unused ends of the arrays. *)
Definition used (k : Keys) : bytes * bytes * bytes :=
  (slice (iv k) 0 (ivSz k), slice (encKey k) 0 (encKeySz k), slice (macKey k) 0 (macKeySz k)).

(** The keys RFC 4253 section 7.2 gives the direction from the client, or to it,
    in the sizes of [k]. *)
Definition rfc_keys (t : wc_HashType) (pad : bool) (s : WOLFSSH) (client : bool) (k : Keys) : bytes * bytes * bytes :=
  (letter_key t pad s (if client then 65 else 66) (ivSz k),
   letter_key t pad s (if client then 67 else 68) (encKeySz k),
   letter_key t pad s (if client then 69 else 70) (macKeySz k)).

Lemma letters_used t pad s c h :
  letters t pad s c 6 h ->
  used (dir_keys c h) = rfc_keys t pad s true (dir_keys c h) /\
  used (dir_keys (negb c) h) = rfc_keys t pad s false (dir_keys (negb c) h).
Proof.
  intros (L1&L2&L3&L4&L5&L6). unfold used, rfc_keys.
  by rewrite L1, L2, L3, L4, L5, L6 by lia.
Qed.

(** The outcome of [GenerateKeys]: the six keys, or none at all. *)
Lemma GenerateKeys_run t pad s h :
  t <> WC_HASH_TYPE_NONE -> secret_ready s -> keys_fit (hs_keys h) -> keys_fit (hs_peerKeys h) ->
  let client := negb (side =? WOLFSSH_ENDPOINT_SERVER) in
  wp (GenerateKeys t pad) (fun r s' => exists h', s' = with_hs s h' /\ arrays_only h h' /\
    match r with
    | inl _ => used (hs_keys h') = rfc_keys t pad s client (hs_keys h) /\
        used (hs_peerKeys h') = rfc_keys t pad s (negb client) (hs_peerKeys h)
    | inr e => e = WS_CRYPTO_FAILED /\ ~ HashTotal /\
        h' = h <| hs_keys ::= clear_keys |> <| hs_peerKeys ::= clear_keys |>
    end) (with_hs s h).
Proof.
  intros Ht Hs Fk Fp client. unfold GenerateKeys. fold client.
  apply wp_bind, wp_get. cbv iota beta. change (handshake (with_hs s h)) with (Some h). cbv iota beta zeta.
  replace (side =? WOLFSSH_ENDPOINT_SERVER) with (negb client) by (unfold client; by destruct (_ =? _)).
  apply wp_bind, wp_code. eapply wp_mono.
  { apply (six_keys_run t pad s h client Ht Hs). exists h. split; [done|]. split; [apply arrays_only_refl|].
    split; [done|]. split; [done|]. unfold letters. repeat split; intros; lia. }
  cbv beta. intros [u|e] s1.
  - intros (h'&->&Ha&_&_&HL). cbn [truthy Z.eqb negb when]. apply wp_bind, wp_ret. apply wp_ret_code; [intros _|done].
    exists h'. split; [done|]. split; [done|].
    pose proof (letters_used _ _ _ _ _ HL) as [U1 U2].
    destruct Ha as (k&p&->&E1&E2&E3&E4&E5&E6).
    destruct client; cbn in *; rewrite U1, U2; unfold rfc_keys; by rewrite E1, E2, E3, E4, E5, E6.
  - intros (->&HT&h'&->&Ha&_). change (truthy WS_CRYPTO_FAILED) with true. cbn [when].
    apply wp_bind. eapply wp_run; [reflexivity|]. cbv beta iota.
    apply wp_ret_code; [done|intros _]. rewrite (cleared_same _ _ Ha).
    eexists. split; [reflexivity|]. split; [apply arrays_cleared|]. auto.
Qed.
End SixKeys.

(** C17: a server and a client that hold the same secret, exchange hash and session
    id, and have negotiated the same suites, derive the same keys: what each side
    will send with is what the other will receive with, both are the keys of RFC
    4253 section 7.2, with the letters A, C, E for the direction from the client
    and B, D, F for the other, and nothing but those arrays changes in either
    session. *)
Theorem both_ends_same_keys `{Crypto} `{HashTotal} (server client : CTX) (t : wc_HashType) (pad : bool)
    (s1 s2 : WOLFSSH) (h1 h2 : HandshakeInfo) :
  @side server = WOLFSSH_ENDPOINT_SERVER -> @side client = WOLFSSH_ENDPOINT_CLIENT ->
  handshake s1 = Some h1 -> handshake s2 = Some h2 -> t <> WC_HASH_TYPE_NONE ->
  secret_ready s1 -> (kx_k (kex s2), kx_h (kex s2), sessionId (kex s2)) = (kx_k (kex s1), kx_h (kex s1), sessionId (kex s1)) ->
  keys_fit (hs_keys h1) -> keys_fit (hs_peerKeys h1) -> keys_fit (hs_keys h2) -> keys_fit (hs_peerKeys h2) ->
  (forall len : Keys -> Z, len = ivSz \/ len = encKeySz \/ len = macKeySz ->
    len (hs_keys h1) = len (hs_peerKeys h2) /\ len (hs_peerKeys h1) = len (hs_keys h2)) ->
  exists h1' h2',
    @GenerateKeys server _ t pad s1 = (Ok tt, s1 <| handshake := Some h1' |>) /\
    @GenerateKeys client _ t pad s2 = (Ok tt, s2 <| handshake := Some h2' |>) /\
    arrays_only h1 h1' /\ arrays_only h2 h2' /\
    used (hs_keys h1') = used (hs_peerKeys h2') /\ used (hs_peerKeys h1') = used (hs_keys h2') /\
    used (hs_peerKeys h1') = rfc_keys t pad s1 true (hs_peerKeys h1) /\
    used (hs_keys h1') = rfc_keys t pad s1 false (hs_keys h1).
Proof.
  intros Hsv Hcl E1 E2 Ht Hr Hsame F1 F2 F3 F4 Hsz.
  assert (secret_ready s2) as Hr2 by (destruct Hr; injection Hsame as Ek Eh Ei; split; congruence).
  assert (forall s h, handshake s = Some h -> with_hs s h = s) as Hw.
  { intros s h E. unfold with_hs. destruct s. cbn in *. by subst. }
  pose proof (@GenerateKeys_run server _ _ t pad s1 h1 Ht Hr F1 F2) as W1.
  pose proof (@GenerateKeys_run client _ _ t pad s2 h2 Ht Hr2 F3 F4) as W2.
  rewrite (Hw _ _ E1) in W1. rewrite (Hw _ _ E2) in W2. rewrite Hsv in W1. rewrite Hcl in W2.
  cbn [negb] in W1, W2. unfold wp in W1, W2.
  destruct (@GenerateKeys server _ t pad s1) as [[[]|e|] s1']; [|exfalso|done].
  2: { destruct W1 as (?&_&_&_&HT&_). by apply HT. }
  destruct (@GenerateKeys client _ t pad s2) as [[[]|e|] s2']; [|exfalso|done].
  2: { destruct W2 as (?&_&_&_&HT&_). by apply HT. }
  destruct W1 as (h1'&->&A1&U1&U2). destruct W2 as (h2'&->&A2&V1&V2).
  assert (forall b k, rfc_keys t pad s2 b k = rfc_keys t pad s1 b k) as Es.
  { intros b k. unfold rfc_keys, letter_key. by injection Hsame as -> -> ->. }
  cbn in U1, U2, V1, V2. exists h1', h2'. repeat (split; [done|]).
  rewrite U1, U2, V1, V2, !Es. unfold rfc_keys.
  pose proof (Hsz ivSz ltac:(auto)) as [-> ->]. pose proof (Hsz encKeySz ltac:(auto)) as [-> ->].
  pose proof (Hsz macKeySz ltac:(auto)) as [-> ->]. auto.
Qed.

(** Two sessions in the middle of an exchange: AES-256-GCM to the client,
    AES-128-CTR with HMAC-SHA2-256 from it. *)
Definition keyed (h : HandshakeInfo -> HandshakeInfo) : WOLFSSH :=
  let s := (new_session []) <| kex; kx_k := [200; 1] |> <| kex; kx_h := [3; 7] |> <| kex; sessionId := [3; 7] |> in
  s <| handshake ::= option_map h |>.
Definition keyed_server : WOLFSSH := keyed (fun h =>
  SetPeerAlgoIds ID_AES128_CTR false ID_HMAC_SHA2_256 (SetLocalAlgoIds ID_AES256_GCM true ID_NONE h)).
Definition keyed_client : WOLFSSH := keyed (fun h =>
  SetPeerAlgoIds ID_AES256_GCM true ID_NONE (SetLocalAlgoIds ID_AES128_CTR false ID_HMAC_SHA2_256 h)).

Example both_ends_same_keys_witness :
  exists h1 h2,
    @GenerateKeys server _ WC_HASH_TYPE_SHA true keyed_server = (Ok tt, keyed_server <| handshake := Some h1 |>) /\
    @GenerateKeys client _ WC_HASH_TYPE_SHA true keyed_client = (Ok tt, keyed_client <| handshake := Some h2 |>) /\
    used (hs_keys h1) = used (hs_peerKeys h2).
Proof.
  assert (forall k : Keys, ((blen (iv k) =? 16) && (blen (encKey k) =? 32) && (blen (macKey k) =? 64)
    && (0 <=? ivSz k) && (ivSz k <=? 16) && (0 <=? encKeySz k) && (encKeySz k <=? 32)
    && (0 <=? macKeySz k) && (macKeySz k <=? 64)) = true -> keys_fit k) as Hfit.
  { intros k. rewrite !andb_true_iff, !Z.eqb_eq, !Z.leb_le. intros Hk. split; unfold AES_BLOCK_SIZE, AES_256_KEY_SIZE; clia. }
  destruct (both_ends_same_keys server client WC_HASH_TYPE_SHA true keyed_server keyed_client _ _
    eq_refl eq_refl eq_refl eq_refl ltac:(done)) as (h1&h2&E1&E2&_&_&Eu&_).
  - split; [split; [repeat constructor; unfold is_byte; cbn; lia|done]|done|done].
  - reflexivity.
  - apply Hfit. reflexivity.
  - apply Hfit. reflexivity.
  - apply Hfit. reflexivity.
  - apply Hfit. reflexivity.
  - intros len [->|[->| ->]]; split; reflexivity.
  - exists h1, h2. auto.
Defined.

(** ** The choice of a group *)

(** The window of sizes a request leaves. *)
Definition gex_window (minBits maxBits bits : Z) : Prop :=
  Z.max minBits WOLFSSH_DH_GEX_MIN_BITS <= bits <= Z.min maxBits (Z.min (MAX_KEX_KEY_SZ * 8) ((KEX_F_SIZE - 1) * 8)).

Definition fits_window (lo hi : Z) (c : Z * bytes) : Prop := lo <= c.1 <= hi.

Lemma gex_loop_run lo pref hi l best :
  StronglySorted (fun a b => a.1 < b.1) l ->
  match SelectKexDhGexGroup_loop lo pref hi l best with
  | Some g =>
    (Some g = best /\ forall c, c ∈ l -> ~ fits_window lo hi c) \/
    exists bits, (bits, g) ∈ l /\ fits_window lo hi (bits, g) /\
      (pref <= bits -> forall c, c ∈ l -> fits_window lo hi c -> pref <= c.1 -> bits <= c.1) /\
      (bits < pref -> forall c, c ∈ l -> fits_window lo hi c -> c.1 <= bits)
  | None => best = None /\ forall c, c ∈ l -> ~ fits_window lo hi c
  end.
Proof.
  intros Hs. revert best. induction Hs as [|[bits g] l Hs IH Hall]; intros best.
  { cbn. destruct best; [left|]; (split; [done|]); intros c Hc; by apply elem_of_nil in Hc. }
  assert (forall c, c ∈ l -> bits < c.1) as Hlt.
  { intros c Hc. rewrite List.Forall_forall in Hall. apply list_elem_of_In in Hc. apply (Hall c Hc). }
  cbn [SelectKexDhGexGroup_loop]. unfold fits_window in *.
  destruct (Z.ltb_spec bits lo), (Z.ltb_spec hi bits); cbn [orb];
    try (specialize (IH best); destruct (SelectKexDhGexGroup_loop _ _ _ _ _);
      [destruct IH as [[E Hn]|(b'&Hin&Hw&P1&P2)]|destruct IH as [E Hn]];
      [left; split; [done|]; intros c [->|Hc]%elem_of_cons; [cbn; lia|by apply Hn]
      |right; exists b'; split; [by right|]; split; [done|]; split;
        (intros Hp c [->|Hc]%elem_of_cons; [cbn; lia|auto])
      |split; [done|]; intros c [->|Hc]%elem_of_cons; [cbn; lia|by apply Hn]]).
  destruct (Z.leb_spec pref bits).
  { right. exists bits. split; [left|]. split; [cbn; lia|]. split; [|lia].
    intros _ c [->|Hc]%elem_of_cons; [done|]. specialize (Hlt c Hc). lia. }
  specialize (IH (Some g)). destruct (SelectKexDhGexGroup_loop _ _ _ _ _) as [g'|]; [|by destruct IH].
  right. destruct IH as [[[= ->] Hn]|(b'&Hin&Hw&P1&P2)].
  - exists bits. split; [left|]. split; [cbn; lia|]. split; [lia|].
    intros _ c [->|Hc]%elem_of_cons Hw; [done|]. by destruct (Hn c Hc).
  - exists b'. split; [by right|]. split; [done|]. specialize (Hlt _ Hin). cbn in *. split.
    + intros Hp c [->|Hc]%elem_of_cons; [cbn; lia|auto].
    + intros Hp c [->|Hc]%elem_of_cons; [cbn; lia|auto].
Qed.

(** C19: [SelectKexDhGexGroup] gives a group whenever one is in the window the
    client asked for, cut to at least 2048 bits and to what the buffers of the
    exchange hold, and only one from it: the smallest that reaches the preferred
    size, or the largest of the window when none does; its prime is an odd number
    of exactly the candidate's bits, and it fits the buffers. Without one the answer
    is [WS_DH_SIZE_E]. *)
Theorem SelectKexDhGexGroup_spec (minBits preferredBits maxBits : Z) :
  match SelectKexDhGexGroup minBits preferredBits maxBits with
  | Ok g => exists bits, (bits, g) ∈ candidates /\ gex_window minBits maxBits bits /\
      (preferredBits <= bits -> forall b p, (b, p) ∈ candidates -> gex_window minBits maxBits b ->
        preferredBits <= b -> bits <= b) /\
      (bits < preferredBits -> forall b p, (b, p) ∈ candidates -> gex_window minBits maxBits b -> b <= bits) /\
      Z.log2 (be_value g) = bits - 1 /\ Z.odd (be_value g) = true /\
      blen g <= MAX_KEX_KEY_SZ /\ blen g < KEX_F_SIZE
  | Err e => e = WS_DH_SIZE_E /\ forall b p, (b, p) ∈ candidates -> ~ gex_window minBits maxBits b
  | UB => False
  end.
Proof.
  unfold SelectKexDhGexGroup.
  cbv zeta. match goal with |- context [SelectKexDhGexGroup_loop ?l _ ?h _ _] => set (lo := l); set (hi := h) end.
  assert (forall b (p : bytes), gex_window minBits maxBits b <-> fits_window lo hi (b, p)) as Hw.
  { intros b p. unfold gex_window, fits_window, lo, hi. cbn [fst].
    destruct (Z.ltb_spec minBits WOLFSSH_DH_GEX_MIN_BITS), (Z.ltb_spec (MAX_KEX_KEY_SZ * 8) maxBits);
      match goal with |- context [?a <? ?b] => destruct (Z.ltb_spec a b) end; clia. }
  pose proof (gex_loop_run lo preferredBits hi candidates None ltac:(repeat constructor)) as Hl.
  destruct (SelectKexDhGexGroup_loop _ _ _ _ _) as [g|].
  - destruct Hl as [[? _]|(bits&Hin&Hf&H1&H2)]; [done|].
    exists bits. split; [done|]. split; [by apply (Hw bits g)|].
    split; [intros Hp b p Hc Hb; apply (H1 Hp (b, p) Hc); by apply Hw|].
    split; [intros Hp b p Hc Hb; apply (H2 Hp (b, p) Hc); by apply Hw|].
    assert (forallb (fun '(b, g) => (Z.log2 (be_value g) =? b - 1) && Z.odd (be_value g)
      && (blen g <=? MAX_KEX_KEY_SZ) && (blen g <? KEX_F_SIZE)) candidates = true) as Hc by (vm_compute; done).
    apply list_elem_of_In in Hin. pose proof (proj1 (List.forallb_forall _ _) Hc _ Hin) as Hg. cbv beta iota in Hg.
    rewrite !andb_true_iff, Z.eqb_eq, Z.leb_le, Z.ltb_lt in Hg. tauto.
  - destruct Hl as [_ Hn]. split; [done|].
    intros b p Hc Hb. apply (Hn (b, p) Hc). by apply Hw.
Qed.
