(* ===== verification/KexAgree.v ===== *)
(** Two endpoints that read each other's KEXINIT settle on the same algorithms:
    what [negotiate] (KexInit) computes from a message is characterised by a pure
    function of the lists on both sides, and the two sides' functions agree. *)

From S2P Require Import Prelude Codes Wire Names Buffer Fwd Algos Kdf Session Samples MsgFilter Transport.
From S2P Require Import Channels Send KexInit.

(** ** Name-lists that decode *)

(** [ids] are the ids of a list without empty elements, within the limits of the
    decoder. *)
Record lists_ids (names : bytes) (ids : list AlgoId) : Prop := {
  li_names : names <> [] /\ Forall (fun n => n <> []) (split_commas names);
  li_size : blen names <= WOLFSSH_MAX_NAMELIST_SZ /\ blen (split_commas names) <= WOLFSSH_MAX_NAMELIST_CNT;
  li_ids : ids = name_ids true (split_commas names);
  li_cap : blen ids <= WOLFSSH_KEXINIT_ID_LIST_MAX
}.

Lemma lists_decode names ids l n :
  lists_ids names ids -> slice l 0 n = names -> 0 <= n <= blen l -> n = blen names ->
  GetNameListRaw WOLFSSH_KEXINIT_ID_LIST_MAX (Some l) n = Ok ids.
Proof.
  intros [[_ Hn] [Hs Hc] Hi Hcap] El Hr En.
  rewrite GetNameListRaw_decode by clia. cbv zeta. rewrite El, names_until_empty_all.
  - subst ids. destruct (Z.ltb_spec WOLFSSH_MAX_NAMELIST_CNT (blen (split_commas names))); [lia|].
    destruct (Z.ltb_spec WOLFSSH_KEXINIT_ID_LIST_MAX (blen (name_ids true (split_commas names)))); [lia|]. done.
  - eapply Forall_impl; [|exact Hn]. intros x Hx. cbv beta. by rewrite blen_zero_iff.
Qed.

Lemma cstr_prefix l n : 0 <= n <= blen (cstr l) -> slice l 0 n = slice (cstr l) 0 n /\ blen (cstr l) <= blen l.
Proof.
  assert (exists r, l = cstr l ++ r) as [r E].
  { induction l as [|c l [r IH]]; [by exists []|]. cbn. destruct (c =? 0); [by eexists|].
    exists r. cbn. by rewrite <- IH. }
  assert (blen l = blen (cstr l) + blen r) as El by (rewrite E at 1; apply blen_app).
  pose proof (blen_nonneg r). intros Hn. split; [|lia]. rewrite E at 1. apply slice_app_l. lia.
Qed.

Lemma AlgoListSz_range l : 0 <= AlgoListSz (Some l) <= blen (cstr l).
Proof.
  unfold AlgoListSz. pose proof (blen_nonneg (cstr l)).
  cbv zeta. destruct (_ && _) eqn:E; [apply andb_true_iff in E as [E%Z.ltb_lt _]|]; lia.
Qed.

Lemma names_of_size l : blen (names_of (Some l)) = AlgoListSz (Some l).
Proof. unfold names_of. pose proof (AlgoListSz_range l). apply (blen_slice (cstr l)); lia. Qed.

Lemma canned_decode l ids :
  lists_ids (names_of (Some l)) ids ->
  GetNameListRaw WOLFSSH_KEXINIT_ID_LIST_MAX (Some l) (AlgoListSz (Some l)) = Ok ids.
Proof.
  intros Hl. pose proof (AlgoListSz_range l). destruct (cstr_prefix l (AlgoListSz (Some l))) as [E Hle]; [lia|].
  apply (lists_decode (names_of (Some l))); [done|done|lia|by rewrite names_of_size].
Qed.

(** Appending names. *)
Lemma name_ids_app ns ms : ns <> [] -> name_ids true (ns ++ ms) = name_ids true ns ++ name_ids false ms.
Proof.
  assert (forall ns, name_ids false (ns ++ ms) = name_ids false ns ++ name_ids false ms) as Hf.
  { clear ns. induction ns as [|n ns IH]; [done|]. cbn. destruct (_ || _); cbn; by rewrite IH. }
  destruct ns as [|n ns]; [done|]. intros _. cbn. rewrite orb_true_r. cbn. by rewrite Hf.
Qed.

Lemma split_app_comma a b : split_commas (a ++ comma :: b) = split_commas a ++ split_commas b.
Proof. apply split_loop_app_comma. Qed.

Lemma lists_append names ids more :
  lists_ids names ids -> Forall (fun n => n <> []) (split_commas more) ->
  blen names + 1 + blen more <= WOLFSSH_MAX_NAMELIST_SZ ->
  blen (split_commas names) + blen (split_commas more) <= WOLFSSH_MAX_NAMELIST_CNT ->
  blen ids + blen (name_ids false (split_commas more)) <= WOLFSSH_KEXINIT_ID_LIST_MAX ->
  lists_ids (names ++ comma :: more) (ids ++ name_ids false (split_commas more)).
Proof.
  intros [[Hne Hn] [Hs Hc] Hi Hcap] Hm H1 H2 H3. split.
  - split; [by destruct names|]. rewrite split_app_comma. by apply Forall_app.
  - rewrite split_app_comma, !blen_app, blen_cons. lia.
  - rewrite split_app_comma, name_ids_app; [by rewrite Hi|]. apply split_loop_nonempty.
  - by rewrite blen_app.
Qed.

(** ** Reading along a message *)

(** [rest] is what the message holds from the index [i]. *)
Definition cursor (buf : bytes) (len i : Z) (rest : bytes) : Prop :=
  exists before, buf = before ++ rest /\ i = blen before /\ len = blen buf /\ is_word32 len.

Section Steps.
Context `{CTX} `{Crypto} `{Hashes}.
Implicit Types (s : WOLFSSH).

Lemma wp_parse_codec {A} (encode : A -> bytes) encodable (reader : parser A) `{!Codec encode encodable reader}
    buf len i a rest Q s :
  cursor buf len i (encode a ++ rest) -> encodable a ->
  (forall j, cursor buf len j rest -> Q (inl (a, j)) s) -> wp (parse reader buf len i) Q s.
Proof.
  intros (p&Eb&Ei&El&Hl) Ha HQ. unfold wp, parse. subst i buf.
  assert (blen p + blen (encode a) <= len) as Hle by (rewrite El, !blen_app; pose proof (blen_nonneg rest); lia).
  rewrite (codec_read a p rest len Ha Hle Hl). apply HQ. exists (p ++ encode a).
  rewrite <- app_assoc, blen_app. auto.
Qed.

Lemma cursor_string buf len i d rest :
  cursor buf len i (wstring d ++ rest) ->
  GetStringRef buf len i = (Ok (blen d, string_ref d), i + blen (wstring d)) /\
  cursor buf len (i + blen (wstring d)) rest /\ is_word32 (blen d) /\ len <> 0.
Proof.
  intros (p&->&->&El&Hl). change (wstring d) with (encode_string d).
  assert (blen p + blen (encode_string d) <= len) as Hle
    by (rewrite El, blen_app, (blen_app (encode_string d)); pose proof (blen_nonneg rest); lia).
  split; [by apply GetStringRef_encoded|]. pose proof (blen_nonneg p). pose proof (blen_nonneg d).
  rewrite blen_encode_string in *. split; [|split; clia].
  exists (p ++ encode_string d). rewrite <- app_assoc, blen_app, blen_encode_string. auto.
Qed.

Lemma wp_name_list buf len i names ids rest Q s :
  cursor buf len i (wstring names ++ rest) -> lists_ids names ids ->
  (forall j, cursor buf len j rest -> Q (inl (ids, j)) s) -> wp (name_list buf len i) Q s.
Proof.
  intros Hc Hl HQ. destruct (cursor_string _ _ _ _ _ Hc) as (Eg&Hc'&Hw&Hz).
  unfold wp, name_list, parse, GetNameList, guard_err. rewrite (proj2 (Z.eqb_neq len 0) Hz).
  unfold mbind, ST_bind, mret, ST_ret. rewrite Eg. unfold lift_res.
  assert (string_ref names = Some names) as ->.
  { unfold string_ref. destruct (Z.eqb_spec (blen names) 0) as [E%blen_zero_iff|]; [|done].
    destruct Hl as [[? _] _ _ _]. done. }
  rewrite (lists_decode names ids names (blen names)); [by apply HQ|done|apply slice_full| |done].
  pose proof (blen_nonneg names). lia.
Qed.

Lemma wp_skip buf len i d rest Q s :
  cursor buf len i (wstring d ++ rest) ->
  (forall j, cursor buf len j rest -> Q (inl (tt, j)) s) -> wp (parse GetSkip buf len i) Q s.
Proof.
  intros Hc HQ. destruct (cursor_string _ _ _ _ _ Hc) as (_&Hc'&Hw&_).
  destruct Hc as (p&->&->&El&Hl). unfold wp, parse, GetSkip, GetSize. unfold wstring in *. rewrite <- app_assoc in *.
  assert (blen p + blen (c32toa (blen d)) <= len) as Hle.
  { rewrite El, !blen_app. pose proof (blen_nonneg rest). pose proof (blen_nonneg d). lia. }
  pose proof (codec_read (reader := GetUint32) (blen d) p (d ++ rest) len Hw Hle Hl) as Er.
  rewrite blen_app, c32toa_length in Hc'. rewrite c32toa_length in Er.
  assert (blen p + UINT32_SZ + blen d <= len) as Hle2.
  { destruct Hc' as (q&Eq&Ei&->&_). rewrite Eq, blen_app. pose proof (blen_nonneg rest). lia. }
  pose proof (blen_nonneg p). pose proof (blen_nonneg d).
  rewrite (ST_bind_ok _ _ _ (blen d) (blen p + UINT32_SZ)).
  2: { rewrite (ST_bind_ok _ _ _ _ _ Er). rewrite st_get. rewrite wrap32_small by clia.
    destruct (Z.ltb_spec (len - (blen p + UINT32_SZ)) (blen d)); [lia|done]. }
  rewrite st_get. unfold put_idx, modify. rewrite wrap32_small by clia. apply HQ.
  by replace (blen p + UINT32_SZ + blen d) with (blen p + (UINT32_SZ + blen d)) by lia.
Qed.

Lemma wp_canned l ids Q s :
  lists_ids (names_of (Some l)) ids -> Q (inl ids) s -> wp (canned_list (Some l)) Q s.
Proof. intros Hl HQ. unfold wp, canned_list, lift_res. by rewrite (canned_decode _ _ Hl). Qed.

Lemma wp_match_algo err peer own Q s :
  (MatchIdLists side peer own = ID_UNKNOWN -> Q (inr err) s) ->
  (MatchIdLists side peer own <> ID_UNKNOWN -> Q (inl (MatchIdLists side peer own)) s) ->
  wp (match_algo err peer own) Q s.
Proof.
  intros Hu Hk. unfold match_algo. apply wp_bind, wp_guard; intros E.
  - apply Hu. by apply id_eqb_spec.
  - apply wp_ret, Hk. intros E2. rewrite E2 in E. done.
Qed.

Lemma wp_st_hs f h Q s :
  handshake s = Some h -> Q (inl tt) (s <| handshake := Some (f h) |>) -> wp (st_hs f) Q s.
Proof.
  intros Eh HQ. unfold st_hs, ld_hs. apply wp_bind, wp_bind, wp_get. eapply wp_deref; [exact Eh|]. by apply wp_modify.
Qed.

(** ** What a message and our lists come to *)

(** The lists this side offers. *)
Record own_lists (s : WOLFSSH) (ck ch cc cm : list AlgoId) : Prop := {
  ol_kex : lists_ids (names_of (Some (algoListKex (kex s)))) ck;
  ol_key : match algoListKey (kex s) with
           | Some l => lists_ids (names_of (Some l)) ch
           | None => side = WOLFSSH_ENDPOINT_SERVER /\ ch = publicKeyAlgo /\ blen publicKeyAlgo <= WOLFSSH_KEXINIT_ID_LIST_MAX
           end;
  ol_cipher : lists_ids (names_of (Some (algoListCipher (kex s)))) cc;
  ol_mac : lists_ids (names_of (Some (algoListMac (kex s)))) cm
}.

(** What the negotiation reads of the session. *)
Definition neg_view s :=
  (algoListKex (kex s), algoListKey (kex s), algoListCipher (kex s), algoListMac (kex s),
   (sendStrictKex (kex s), sessionId (kex s), rx s)).

Lemma own_lists_view s s' ck ch cc cm : neg_view s' = neg_view s -> own_lists s ck ch cc cm -> own_lists s' ck ch cc cm.
Proof.
  unfold neg_view. intros [= E1 E2 E3 E4 _ _ _] [A1 A2 A3 A4]. split; by rewrite ?E1, ?E2, ?E3, ?E4.
Qed.

(** The peer's marker, on the first exchange. *)
Definition strict_marks : list AlgoId :=
  if side =? WOLFSSH_ENDPOINT_SERVER then [ID_EXT_STRICT_KEX_C; ID_EXT_PRE_STRICT_KEX_C]
  else [ID_EXT_STRICT_KEX_S; ID_EXT_PRE_STRICT_KEX_S].
Definition strict_agreed s (pk : list AlgoId) : bool :=
  negb (id_eqb (MatchIdLists side pk strict_marks) ID_UNKNOWN) && sendStrictKex (kex s).
(** A strict exchange starts with the KEXINIT. *)
Definition strict_fine s (pk : list AlgoId) : Prop :=
  sessionId (kex s) = [] -> strict_agreed s pk = true -> peerSeq (rx s) = 0.

Lemma negotiate_kex_run buf len i nk pk r h ck s :
  cursor buf len i (wstring nk ++ r) -> lists_ids nk pk ->
  lists_ids (names_of (Some (algoListKex (kex s)))) ck -> handshake s = Some h -> strict_fine s pk ->
  let kx := MatchIdLists side pk ck in
  wp (negotiate_kex buf len i) (fun res s' =>
    match res with
    | inl (_, j) => kx <> ID_UNKNOWN /\ cursor buf len j r /\ neg_view s' = neg_view s /\
        handshake s' = Some (h <| hs_kexId := kx |> <| kexHashId := HashForId kx |>) /\ kexId (kex s') = kx /\
        (sessionId (kex s) = [] -> useStrictKex s' = strict_agreed s pk)
    | inr e => e = WS_MATCH_KEX_ALGO_E /\ kx = ID_UNKNOWN
    end) s.
Proof.
  intros Hc Hl Ho Eh Hs kx. unfold negotiate_kex.
  apply wp_bind. eapply wp_name_list; [exact Hc|exact Hl|]. intros j Hj. cbv beta iota.
  apply wp_bind, wp_get, wp_bind, (wp_canned _ ck); [done|]. cbv beta iota.
  apply wp_bind, wp_match_algo; [by split|]. fold kx. intros Hkx.
  apply wp_bind, wp_modify, wp_bind. eapply wp_st_hs; [exact Eh|].
  apply wp_bind. unfold want_ext_info. apply wp_bind, wp_get.
  set (s1 := s <| kex; kexId := kx |> <| handshake := Some (h <| hs_kexId := kx |> <| kexHashId := HashForId kx |>) |>).
  change (negb (extInfoSent (kex _))) with (negb (extInfoSent (kex s))).
  assert (forall s2, neg_view s2 = neg_view s -> handshake s2 = handshake s1 -> kexId (kex s2) = kx ->
    wp (strict_kex pk;; mret (first_of pk, first_of ck, j)) (fun res s' =>
    match res with
    | inl (_, j) => kx <> ID_UNKNOWN /\ cursor buf len j r /\ neg_view s' = neg_view s /\
        handshake s' = Some (h <| hs_kexId := kx |> <| kexHashId := HashForId kx |>) /\ kexId (kex s') = kx /\
        (sessionId (kex s) = [] -> useStrictKex s' = strict_agreed s pk)
    | inr e => e = WS_MATCH_KEX_ALGO_E /\ kx = ID_UNKNOWN
    end) s2) as Hrest.
  { intros s2 Ev E2 Ek. unfold strict_kex. unfold neg_view in Ev. injection Ev as V1 V2 V3 V4 V5 V6 V7.
    apply wp_bind, wp_bind, wp_get. rewrite V6. apply wp_when; intros E.
    2: { apply Z.eqb_neq in E. apply wp_ret. rewrite E2. unfold neg_view. rewrite V1, V2, V3, V4, V5, V6, V7.
      repeat (split; [done|]). intros E3. by rewrite E3 in E. }
    apply Z.eqb_eq, blen_zero_iff in E. apply wp_bind, wp_modify. rewrite V5, V7.
    change (MatchIdLists side pk _) with (MatchIdLists side pk strict_marks).
    fold (strict_agreed s pk). apply wp_when; intros Ew.
    { exfalso. apply andb_true_iff in Ew as [E1 E3]. rewrite (Hs E E1) in E3. done. }
    apply wp_ret. change (handshake (s2 <| useStrictKex := _ |>)) with (handshake s2). rewrite E2.
    unfold neg_view. change (kex (s2 <| useStrictKex := _ |>)) with (kex s2). change (rx (s2 <| useStrictKex := _ |>)) with (rx s2).
    rewrite V1, V2, V3, V4, V5, V6, V7. done. }
  apply wp_when; intros _; [apply wp_modify|]; by apply Hrest.
Qed.

Lemma negotiate_host_key_run buf len i nh ph r h ck ch cc cm s :
  cursor buf len i (wstring nh ++ r) -> lists_ids nh ph -> own_lists s ck ch cc cm -> handshake s = Some h ->
  let hk := MatchIdLists side ph ch in
  wp (negotiate_host_key buf len i) (fun res s' =>
    match res with
    | inl (_, j) => hk <> ID_UNKNOWN /\ cursor buf len j r /\ s' = s <| handshake := Some (h <| pubKeyId := hk |>) |>
    | inr e => e = WS_MATCH_KEY_ALGO_E /\ hk = ID_UNKNOWN
    end) s.
Proof.
  intros Hc Hl Ho Eh hk. unfold negotiate_host_key.
  apply wp_bind. eapply wp_name_list; [exact Hc|exact Hl|]. intros j Hj. cbv beta iota.
  assert (own_host_keys s = (Ok ch, s)) as Eo.
  { unfold own_host_keys. rewrite st_get. pose proof (ol_key _ _ _ _ _ Ho) as Hk.
    destruct (algoListKey (kex s)) as [l|].
    - unfold canned_list, lift_res. by rewrite (canned_decode _ _ Hk).
    - destruct Hk as (Es&->&Hsz). rewrite Es. cbn -[blen]. by rewrite (proj2 (Z.ltb_ge _ _)) by lia. }
  apply wp_bind. eapply wp_run; [exact Eo|]. cbv beta iota.
  apply wp_bind, wp_match_algo; [by split|]. fold hk. intros Hk.
  apply wp_bind. eapply wp_st_hs; [exact Eh|]. by apply wp_ret.
Qed.

Lemma negotiate_cipher_run buf len i nc pc r cc s :
  cursor buf len i (wstring nc ++ r) -> lists_ids nc pc -> lists_ids (names_of (Some (algoListCipher (kex s)))) cc ->
  let id := MatchIdLists side pc cc in
  wp (negotiate_cipher buf len i) (fun res s' =>
    match res with
    | inl (a, j) => a = id /\ id <> ID_UNKNOWN /\ cursor buf len j r /\ s' = s
    | inr e => e = WS_MATCH_ENC_ALGO_E /\ id = ID_UNKNOWN
    end) s.
Proof.
  intros Hc Hl Ho id. unfold negotiate_cipher.
  apply wp_bind. eapply wp_name_list; [exact Hc|exact Hl|]. intros j Hj. cbv beta iota.
  apply wp_bind, wp_get, wp_bind, (wp_canned _ cc); [done|]. cbv beta iota.
  apply wp_bind, wp_match_algo; [by split|]. intros Hk. by apply wp_ret.
Qed.

Definition mac_choice (aead : bool) (pm cm : list AlgoId) : AlgoId :=
  if aead then ID_NONE else MatchIdLists side pm cm.

Lemma negotiate_mac_run aead buf len i nm pm r cm s :
  cursor buf len i (wstring nm ++ r) -> lists_ids nm pm -> lists_ids (names_of (Some (algoListMac (kex s)))) cm ->
  let id := mac_choice aead pm cm in
  wp (negotiate_mac aead buf len i) (fun res s' =>
    match res with
    | inl (a, j) => a = id /\ id <> ID_UNKNOWN /\ cursor buf len j r /\ s' = s
    | inr e => e = WS_MATCH_MAC_ALGO_E /\ id = ID_UNKNOWN
    end) s.
Proof.
  intros Hc Hl Ho id. unfold negotiate_mac.
  apply wp_bind. eapply wp_name_list; [exact Hc|exact Hl|]. intros j Hj. cbv beta iota.
  unfold id, mac_choice. destruct aead; [by apply wp_ret|].
  apply wp_bind, wp_get, wp_bind, (wp_canned _ cm); [done|]. cbv beta iota.
  apply wp_bind, wp_match_algo; [by split|]. intros Hk. by apply wp_ret.
Qed.

Lemma negotiate_compression_run buf len i r s :
  cursor buf len i (wstring noneNames ++ r) ->
  wp (negotiate_compression ID_NONE buf len i) (fun res s' =>
    match res with
    | inl (a, j) => a = ID_NONE /\ cursor buf len j r /\ s' = s
    | inr e => False
    end) s.
Proof.
  intros Hc. unfold negotiate_compression.
  apply wp_bind. eapply (wp_name_list _ _ _ noneNames [ID_NONE]); [exact Hc| |].
  { split; [split; [done|by repeat constructor]|split; by vm_compute|reflexivity|by vm_compute]. }
  intros j Hj. cbv beta iota. apply wp_bind, wp_match_algo.
  { intros E. exfalso. revert E. unfold MatchIdLists. by destruct (side =? _). }
  intros _. apply wp_ret. split; [|done]. unfold MatchIdLists. by destruct (side =? _).
Qed.

(** ** The algorithms of an exchange *)

Record choice := mkChoice {
  ch_kex : AlgoId; ch_key : AlgoId;
  ch_c2s : AlgoId; ch_s2c : AlgoId;
  ch_mac_c2s : AlgoId; ch_mac_s2c : AlgoId
}.

(** The peer's list is the first of each pair, ours the second; or the error of
    the first list without a common algorithm. *)
Definition choose (kx hk c2s s2c mc2s ms2c : list AlgoId * list AlgoId) : choice + Z :=
  let pick '(peer, own) := MatchIdLists side peer own in
  let unknown := id_eqb ID_UNKNOWN in
  let c := pick c2s in
  let d := pick s2c in
  let mc := if AeadModeForId c then ID_NONE else pick mc2s in
  let md := if AeadModeForId d then ID_NONE else pick ms2c in
  if unknown (pick kx) then inr WS_MATCH_KEX_ALGO_E
  else if unknown (pick hk) then inr WS_MATCH_KEY_ALGO_E
  else if unknown c || unknown d then inr WS_MATCH_ENC_ALGO_E
  else if unknown mc || unknown md then inr WS_MATCH_MAC_ALGO_E
  else inl (mkChoice (pick kx) (pick hk) c d mc md).

(** What a direction is set up with: all that the packet code reads of it. *)
Definition suite := (AlgoId * bool * AlgoId * Z * Z * (Z * Z * Z))%type.
Definition suite_for (enc mac : AlgoId) : suite :=
  let aead := AeadModeForId enc in
  let blk := BlockSzForId enc in
  if aead then (enc, true, ID_NONE, blk, blk, (AEAD_NONCE_SZ, KeySzForId enc, 0))
  else (enc, false, mac, blk, MacSzForId mac, (blk, KeySzForId enc, KeySzForId mac)).
Definition local_suite (h : HandshakeInfo) : suite :=
  (hs_encryptId h, hs_aeadMode h, hs_macId h, hs_blockSz h, hs_macSz h,
   (ivSz (hs_keys h), encKeySz (hs_keys h), macKeySz (hs_keys h))).
Definition peer_suite (h : HandshakeInfo) : suite :=
  (hs_peerEncryptId h, hs_peerAeadMode h, hs_peerMacId h, hs_peerBlockSz h, hs_peerMacSz h,
   (ivSz (hs_peerKeys h), encKeySz (hs_peerKeys h), macKeySz (hs_peerKeys h))).

Lemma set_local_suite enc mac h :
  let h' := SetLocalAlgoIds enc (AeadModeForId enc) mac h in
  local_suite h' = suite_for enc mac /\ hs_kexId h' = hs_kexId h /\ kexHashId h' = kexHashId h /\ pubKeyId h' = pubKeyId h.
Proof. unfold SetLocalAlgoIds, suite_for. by destruct (AeadModeForId enc). Qed.

Lemma set_peer_suite enc mac h :
  let h' := SetPeerAlgoIds enc (AeadModeForId enc) mac h in
  peer_suite h' = suite_for enc mac /\ local_suite h' = local_suite h /\
  hs_kexId h' = hs_kexId h /\ kexHashId h' = kexHashId h /\ pubKeyId h' = pubKeyId h.
Proof. unfold SetPeerAlgoIds, suite_for. by destruct (AeadModeForId enc). Qed.

(** The handshake after the negotiation. *)
Definition installed (c : choice) (s' : WOLFSSH) : Prop := exists h,
  handshake s' = Some h /\ hs_kexId h = ch_kex c /\ kexId (kex s') = ch_kex c /\
  kexHashId h = HashForId (ch_kex c) /\ pubKeyId h = ch_key c /\
  let c2s := suite_for (ch_c2s c) (ch_mac_c2s c) in
  let s2c := suite_for (ch_s2c c) (ch_mac_s2c c) in
  if side =? WOLFSSH_ENDPOINT_SERVER then local_suite h = s2c /\ peer_suite h = c2s
  else local_suite h = c2s /\ peer_suite h = s2c.

(** What the message holds after its cookie: six lists, then the fixed tail. *)
Definition lists_tail : bytes :=
  wstring noneNames ++ wstring noneNames ++ c32toa 0 ++ c32toa 0 ++ [0] ++ c32toa 0.

(** The sections of [negotiate] that read the tail and install the suites. *)
Lemma negotiate_tail_run g1 g2 e1 e2 c d mc md buf len i h s kx hk :
  cursor buf len i lists_tail -> handshake s = Some h -> hs_kexId h = kx -> kexId (kex s) = kx ->
  kexHashId h = HashForId kx -> pubKeyId h = hk ->
  wp ('(algoId, i) ← negotiate_compression ID_NONE buf len i;
      '(algoId, i) ← negotiate_compression algoId buf len i;
      '(_, i) ← parse GetSkip buf len i;
      '(_, i) ← parse GetSkip buf len i;
      '(kexPacketFollows, i) ← parse GetBoolean buf len i;
      h ← ld_hs;
      when (truthy kexPacketFollows && (side =? WOLFSSH_ENDPOINT_SERVER)
            && (negb (id_eqb g1 e1) || negb (id_eqb g2 e2)
                || negb (id_eqb g1 (hs_kexId h)) || negb (id_eqb g2 (pubKeyId h))))
        (st_hs (fun h => h <| ignoreNextKexMsg := true |>));;
      '(reserved, i) ← parse GetUint32 buf len i;
      guard_err (negb (reserved =? 0)) WS_PARSE_E;;
      (if side =? WOLFSSH_ENDPOINT_SERVER then
         st_hs (SetLocalAlgoIds d (AeadModeForId d) md);;
         st_hs (SetPeerAlgoIds c (AeadModeForId c) mc)
       else
         st_hs (SetLocalAlgoIds c (AeadModeForId c) mc);;
         st_hs (SetPeerAlgoIds d (AeadModeForId d) md));;
      mret i)
    (fun r s' => exists j, r = inl j /\ installed (mkChoice kx hk c d mc md) s') s.
Proof.
  intros Hc Eh Ek1 Ek2 Eh1 Ep. unfold lists_tail in Hc.
  apply wp_bind. eapply wp_mono; [eapply negotiate_compression_run; exact Hc|].
  intros [[a j]|] s1; [|done]. intros (->&Hj&->). cbv beta iota. clear Hc.
  apply wp_bind. eapply wp_mono; [eapply negotiate_compression_run; exact Hj|].
  intros [[a j2]|] s1; [|done]. intros (->&Hc&->). cbv beta iota. clear Hj.
  apply wp_bind, (wp_skip _ _ _ [] _ _ _ Hc). clear Hc j2. intros j2 Hc. cbv beta iota.
  apply wp_bind, (wp_skip _ _ _ [] _ _ _ Hc). clear Hc j2. intros j2 Hc. cbv beta iota.
  apply wp_bind. refine (wp_parse_codec encode_bool _ GetBoolean _ _ _ 0 _ _ _ Hc _ _); [by left|].
  clear Hc j2. intros j2 Hc. cbv beta iota.
  apply wp_bind. unfold ld_hs. apply wp_bind, wp_get. eapply wp_deref; [exact Eh|].
  apply wp_bind. change (truthy 0) with false. cbn [andb]. apply wp_when; [done|intros _].
  apply wp_bind. rewrite <- (app_nil_r (c32toa 0)) in Hc.
  refine (wp_parse_codec c32toa _ GetUint32 _ _ _ 0 _ _ _ Hc _ _); [clia|]. clear Hc j2. intros j2 _. cbv beta iota.
  apply wp_bind, wp_guard; [done|]. intros _.
  unfold installed. cbn [ch_kex ch_key ch_c2s ch_s2c ch_mac_c2s ch_mac_s2c].
  destruct (side =? WOLFSSH_ENDPOINT_SERVER).
  - pose proof (set_local_suite d md h) as (L1&L2&L3&L4).
    pose proof (set_peer_suite c mc (SetLocalAlgoIds d (AeadModeForId d) md h)) as (P1&P2&P3&P4&P5).
    apply wp_bind, wp_bind. eapply wp_st_hs; [exact Eh|]. eapply wp_st_hs; [reflexivity|]. apply wp_ret.
    exists j2. split; [done|]. eexists. split; [reflexivity|].
    repeat split; first [exact Ek2|congruence].
  - pose proof (set_local_suite c mc h) as (L1&L2&L3&L4).
    pose proof (set_peer_suite d md (SetLocalAlgoIds c (AeadModeForId c) mc h)) as (P1&P2&P3&P4&P5).
    apply wp_bind, wp_bind. eapply wp_st_hs; [exact Eh|]. eapply wp_st_hs; [reflexivity|]. apply wp_ret.
    exists j2. split; [done|]. eexists. split; [reflexivity|].
    repeat split; first [exact Ek2|congruence].
Qed.

(** What a message after its cookie asks for. *)
Definition lists_of (nk nh nc1 nc2 nm1 nm2 : bytes) : bytes :=
  wstring nk ++ wstring nh ++ wstring nc1 ++ wstring nc2 ++ wstring nm1 ++ wstring nm2 ++ lists_tail.

Lemma id_eqb_neq a b : id_eqb a b = false <-> a <> b.
Proof.
  rewrite <- not_true_iff_false. split; intros E E2; apply E; by apply id_eqb_spec.
Qed.

Lemma negotiate_run buf len i nk nh nc1 nc2 nm1 nm2 pk ph pc1 pc2 pm1 pm2 ck ch cc cm s h :
  own_lists s ck ch cc cm -> handshake s = Some h -> strict_fine s pk ->
  lists_ids nk pk -> lists_ids nh ph -> lists_ids nc1 pc1 -> lists_ids nc2 pc2 ->
  lists_ids nm1 pm1 -> lists_ids nm2 pm2 ->
  cursor buf len i (lists_of nk nh nc1 nc2 nm1 nm2) ->
  wp (negotiate buf len i) (fun r s' =>
    match r, choose (pk, ck) (ph, ch) (pc1, cc) (pc2, cc) (pm1, cm) (pm2, cm) with
    | inl _, inl c => installed c s'
    | inr e, inr e' => e = e'
    | _, _ => False
    end) s.
Proof.
  intros Ho Eh Hs Lk Lh Lc1 Lc2 Lm1 Lm2 Hc. unfold negotiate, lists_of in *.
  unfold choose. cbv zeta.
  apply wp_bind. eapply wp_mono; [eapply (negotiate_kex_run _ _ _ _ _ _ _ ck); eauto using ol_kex|].
  intros [[[g1 e1] j]|e] s1; cbv beta iota zeta.
  2: { intros (->&->). by rewrite id_eqb_refl. }
  intros (Hk&Hj&Ev&Eh1&Ek1&_). rewrite (proj2 (id_eqb_neq _ _) (not_eq_sym Hk)).
  apply (own_lists_view _ s1) in Ho; [|done].
  apply wp_bind. eapply wp_mono; [eapply (negotiate_host_key_run _ _ _ _ _ _ _ ck ch cc cm); eauto|].
  intros [[[g2 e2] j2]|e] s2; cbv beta iota zeta.
  2: { intros (->&->). by rewrite id_eqb_refl. }
  intros (Hh&Hj2&->). rewrite (proj2 (id_eqb_neq _ _) (not_eq_sym Hh)).
  apply wp_bind. eapply wp_mono; [by eapply (negotiate_cipher_run _ _ _ _ _ _ cc); [eassumption..|exact (ol_cipher _ _ _ _ _ Ho)]|].
  intros [[c j3]|e] s2; cbv beta iota zeta.
  2: { intros (->&->). by rewrite id_eqb_refl. }
  intros (->&Hc1&Hj3&->).
  apply wp_bind. eapply wp_mono; [by eapply (negotiate_cipher_run _ _ _ _ _ _ cc); [eassumption..|exact (ol_cipher _ _ _ _ _ Ho)]|].
  intros [[d j4]|e] s2; cbv beta iota zeta.
  2: { intros (->&->). by rewrite id_eqb_refl, orb_true_r. }
  intros (->&Hc2&Hj4&->).
  rewrite (proj2 (id_eqb_neq _ _) (not_eq_sym Hc1)), (proj2 (id_eqb_neq _ _) (not_eq_sym Hc2)). cbn [orb].
  apply wp_bind. eapply wp_mono; [by eapply (negotiate_mac_run _ _ _ _ _ _ _ cm); [eassumption..|exact (ol_mac _ _ _ _ _ Ho)]|].
  intros [[mc j5]|e] s2; cbv beta iota zeta; unfold mac_choice.
  2: { intros (->&->). by rewrite id_eqb_refl. }
  intros (->&Hm1&Hj5&->).
  apply wp_bind. eapply wp_mono; [by eapply (negotiate_mac_run _ _ _ _ _ _ _ cm); [eassumption..|exact (ol_mac _ _ _ _ _ Ho)]|].
  intros [[md j6]|e] s2; cbv beta iota zeta; unfold mac_choice.
  2: { intros (->&->). by rewrite id_eqb_refl, orb_true_r. }
  intros (->&Hm2&Hj6&->).
  rewrite (proj2 (id_eqb_neq _ _) (not_eq_sym Hm1)), (proj2 (id_eqb_neq _ _) (not_eq_sym Hm2)). cbn [orb].
  eapply wp_mono; [eapply negotiate_tail_run; [exact Hj6|reflexivity|reflexivity|exact Ek1|reflexivity|reflexivity]|].
  by intros r s' (j7&->&Hi).
Qed.
End Steps.

(** ** Two endpoints *)

(** An endpoint ready to read the peer's first or a later KEXINIT, the decoded
    lists of its own, and the name-list [nh] it sends for its host keys. The list
    of key exchange algorithms leaves room for the markers. *)
Record endpoint `{CTX} (s : WOLFSSH) (nh : bytes) (ck ch cc cm : list AlgoId) : Prop := {
  ep_own : own_lists s ck ch cc cm;
  ep_keys : lists_ids nh ch;
  ep_room : blen (names_of (Some (algoListKex (kex s)))) + 64 <= WOLFSSH_MAX_NAMELIST_SZ /\
    blen (split_commas (names_of (Some (algoListKex (kex s))))) + 3 <= WOLFSSH_MAX_NAMELIST_CNT /\
    blen ck + 3 <= WOLFSSH_KEXINIT_ID_LIST_MAX;
  ep_hs : is_Some (handshake s);
  ep_first : sessionId (kex s) = [] -> peerSeq (rx s) = 0
}.

(** The lists an endpoint sends, with its marker for a strict exchange or
    without. *)
Definition sent_lists `{CTX} (s : WOLFSSH) (nh : bytes) (strict : bool) : bytes :=
  kexinit_lists (names_of (Some (algoListKex (kex s))) ++ kex_plus strict) nh
    (names_of (Some (algoListCipher (kex s)))) (names_of (Some (algoListMac (kex s)))).

(** The ids of the markers. *)
Definition marks `{CTX} (strict : bool) : list AlgoId := name_ids false (split_commas (tail (kex_plus strict))).
Definition all_marks : list AlgoId :=
  [ID_EXT_INFO_S; ID_EXT_INFO_C; ID_EXT_STRICT_KEX_S; ID_EXT_STRICT_KEX_C; ID_EXT_PRE_STRICT_KEX_S; ID_EXT_PRE_STRICT_KEX_C].

Section Sides.
Context `{CTX}.

Lemma marks_in strict : marks strict ⊆ all_marks.
Proof.
  unfold marks, kex_plus. apply (bool_decide_unpack (_ ⊆ all_marks)).
  destruct (side =? WOLFSSH_ENDPOINT_CLIENT), strict; by vm_compute.
Qed.

Lemma marks_forall (P : AlgoId -> Prop) strict : Forall P all_marks -> Forall P (marks strict).
Proof.
  intros Hm. apply Forall_forall. intros x Hx%list_elem_of_In. rewrite Forall_forall in Hm.
  by apply Hm, list_elem_of_In, (marks_in strict).
Qed.

Lemma sent_kex s nh ck ch cc cm strict :
  endpoint s nh ck ch cc cm ->
  lists_ids (names_of (Some (algoListKex (kex s))) ++ kex_plus strict) (ck ++ marks strict).
Proof.
  intros [Ho _ (R1&R2&R3) _ _]. unfold marks.
  assert (exists more, kex_plus strict = comma :: more /\ blen more <= 63 /\ blen (split_commas more) <= 3 /\
    blen (name_ids false (split_commas more)) <= 3 /\ forallb (fun n => negb (bool_decide (n = []))) (split_commas more) = true)
    as (more&->&M1&M2&M3&M4).
  { unfold kex_plus. destruct (side =? WOLFSSH_ENDPOINT_CLIENT), strict; eexists; (split; [reflexivity|]); by vm_compute. }
  cbn [tail]. apply lists_append; [exact (ol_kex _ _ _ _ _ Ho)| |lia..].
  apply Forall_forall. intros n Hn. pose proof (proj1 (forallb_forall _ _) M4 _ Hn) as Hb.
  cbv beta in Hb. by apply negb_true_iff, bool_decide_eq_false in Hb.
Qed.

Lemma blen_list_le (l : bytes) : blen l <= WOLFSSH_MAX_NAMELIST_SZ -> 0 <= blen (wstring l) <= 4 + WOLFSSH_MAX_NAMELIST_SZ.
Proof. intros Hl. unfold wstring. rewrite blen_app, c32toa_length. pose proof (blen_nonneg l). clia. Qed.

(** The message an endpoint sends, after [cookie], is one [negotiate] can follow. *)
Lemma sent_cursor s nh ck ch cc cm strict cookie :
  endpoint s nh ck ch cc cm -> blen cookie = COOKIE_SZ ->
  let buf := cookie ++ sent_lists s nh strict in
  cursor buf (blen buf) COOKIE_SZ
    (lists_of (names_of (Some (algoListKex (kex s))) ++ kex_plus strict) nh
      (names_of (Some (algoListCipher (kex s)))) (names_of (Some (algoListCipher (kex s))))
      (names_of (Some (algoListMac (kex s)))) (names_of (Some (algoListMac (kex s))))).
Proof.
  intros He Hc buf. exists cookie. split; [done|]. split; [done|]. split; [done|].
  pose proof (sent_kex _ _ _ _ _ _ strict He) as Lk. destruct He as [Ho Lh _ _ _].
  pose proof (blen_list_le _ (proj1 (li_size _ _ Lk))). pose proof (blen_list_le _ (proj1 (li_size _ _ Lh))).
  pose proof (blen_list_le _ (proj1 (li_size _ _ (ol_cipher _ _ _ _ _ Ho)))).
  pose proof (blen_list_le _ (proj1 (li_size _ _ (ol_mac _ _ _ _ _ Ho)))).
  unfold buf, sent_lists, kexinit_lists. rewrite (blen_app cookie), Hc. repeat rewrite (blen_app (wstring _)).
  change (blen (c32toa 0 ++ c32toa 0 ++ [0] ++ c32toa 0)) with 13. change (blen (wstring noneNames)) with 8.
  clia.
Qed.

(** The matching, as the client's preference over what the server has. *)
Lemma match_loop_nil client : MatchIdLists_loop client [] = ID_UNKNOWN.
Proof. by induction client. Qed.

Lemma match_guard client server :
  (if (0 <? blen client) && (0 <? blen server) then MatchIdLists_loop client server else ID_UNKNOWN)
  = MatchIdLists_loop client server.
Proof.
  destruct client as [|c client]; [done|]. destruct server as [|s server]; [by rewrite match_loop_nil, andb_comm|].
  rewrite !blen_cons. pose proof (blen_nonneg client). pose proof (blen_nonneg server).
  by destruct (Z.ltb_spec 0 (1 + blen client)), (Z.ltb_spec 0 (1 + blen server)); try lia.
Qed.

Lemma match_server peer own : side = WOLFSSH_ENDPOINT_SERVER -> MatchIdLists side peer own = MatchIdLists_loop peer own.
Proof. intros ->. apply match_guard. Qed.

Lemma match_client peer own : side = WOLFSSH_ENDPOINT_CLIENT -> MatchIdLists side peer own = MatchIdLists_loop own peer.
Proof. intros ->. apply match_guard. Qed.

(** Names the other side does not have change nothing. *)
Lemma match_more client more server :
  Forall (fun x => x ∉ server) more -> MatchIdLists_loop (client ++ more) server = MatchIdLists_loop client server.
Proof.
  intros Hm. induction client as [|c client IH]; cbn.
  - destruct (MatchIdLists_loop_spec more server) as [[-> _]|(a&b&E&Hin&_)]; [done|].
    exfalso. set (id := MatchIdLists_loop more server) in *. clearbody id. subst more.
    apply Forall_app in Hm as [_ Hm]. inversion Hm; subst. done.
  - by rewrite IH.
Qed.

Lemma match_more_server client server more :
  Forall (fun x => x ∉ client) more -> MatchIdLists_loop client (server ++ more) = MatchIdLists_loop client server.
Proof.
  intros Hm. induction client as [|c client IH]; [done|]. cbn. rewrite IH.
  - rewrite existsb_app. replace (existsb (id_eqb c) more) with false; [by rewrite orb_false_r|].
    symmetry. apply not_true_iff_false. rewrite existsb_id. intros Hc.
    rewrite Forall_forall in Hm. apply (Hm c); [by apply list_elem_of_In|by left].
  - eapply Forall_impl; [|exact Hm]. intros x Hx Hin. apply Hx. by right.
Qed.
End Sides.

(** The choice both sides come to: [MatchIdLists_loop] on the client's and the
    server's own lists. *)
Definition agreed (ck ch cc cm sk sh sc sm : list AlgoId) : choice + Z :=
  let unknown := id_eqb ID_UNKNOWN in
  let enc := MatchIdLists_loop cc sc in
  let mac := if AeadModeForId enc then ID_NONE else MatchIdLists_loop cm sm in
  if unknown (MatchIdLists_loop ck sk) then inr WS_MATCH_KEX_ALGO_E
  else if unknown (MatchIdLists_loop ch sh) then inr WS_MATCH_KEY_ALGO_E
  else if unknown enc || unknown enc then inr WS_MATCH_ENC_ALGO_E
  else if unknown mac || unknown mac then inr WS_MATCH_MAC_ALGO_E
  else inl (mkChoice (MatchIdLists_loop ck sk) (MatchIdLists_loop ch sh) enc enc mac mac).

Lemma choose_server `{CTX} ck ch cc cm sk sh sc sm more :
  side = WOLFSSH_ENDPOINT_SERVER -> Forall (fun x => x ∉ sk) more ->
  choose (ck ++ more, sk) (ch, sh) (cc, sc) (cc, sc) (cm, sm) (cm, sm) = agreed ck ch cc cm sk sh sc sm.
Proof. intros Es Hm. unfold choose, agreed. cbv zeta. by rewrite !match_server, match_more. Qed.

Lemma choose_client `{CTX} ck ch cc cm sk sh sc sm more :
  side = WOLFSSH_ENDPOINT_CLIENT -> Forall (fun x => x ∉ ck) more ->
  choose (sk ++ more, ck) (sh, ch) (sc, cc) (sc, cc) (sm, cm) (sm, cm) = agreed ck ch cc cm sk sh sc sm.
Proof. intros Es Hm. unfold choose, agreed. cbv zeta. by rewrite !match_client, match_more_server. Qed.

Lemma agreed_error ck ch cc cm sk sh sc sm e :
  agreed ck ch cc cm sk sh sc sm = inr e -> IsKexMatchError e = true.
Proof.
  unfold agreed. cbv zeta. intros E. repeat (case_match; [by injection E as <-|]). done.
Qed.

(** One side reads what the other sent. *)
Lemma reads_peer (C C' : CTX) `{Crypto} s s' nh ck ch cc cm nh' ck' ch' cc' cm' strict cookie :
  @endpoint C s nh ck ch cc cm -> @endpoint C' s' nh' ck' ch' cc' cm' -> blen cookie = COOKIE_SZ ->
  let buf := cookie ++ @sent_lists C' s' nh' strict in
  wp (@negotiate C _ buf (blen buf) COOKIE_SZ) (fun r t =>
    match r, @choose C (ck' ++ @marks C' strict, ck) (ch', ch) (cc', cc) (cc', cc) (cm', cm) (cm', cm) with
    | inl _, inl c => @installed C c t
    | inr e, inr e' => e = e'
    | _, _ => False
    end) s.
Proof.
  intros He He' Hc buf. pose proof (@sent_cursor C' _ _ _ _ _ _ strict _ He' Hc) as Hcur.
  pose proof (@sent_kex C' _ _ _ _ _ _ strict He') as Lk.
  destruct He as [Ho _ _ [h Eh] Hf]. destruct He' as [Ho' Lh' _ _ _].
  eapply (@negotiate_run C); [exact Ho|exact Eh| |exact Lk|exact Lh'|..|exact Hcur];
    try (exact (@ol_cipher C' _ _ _ _ _ Ho') || exact (@ol_mac C' _ _ _ _ _ Ho')).
  intros E _. by apply Hf.
Qed.

(** What an agreement is, for the two handshakes. *)
Definition same_algorithms (c s : HandshakeInfo) : Prop :=
  hs_kexId c = hs_kexId s /\ kexHashId c = kexHashId s /\ pubKeyId c = pubKeyId s /\
  local_suite c = peer_suite s /\ peer_suite c = local_suite s.

(** C16: agreement. A client and a server, each reading the KEXINIT lists the
    other sent (any cookies, with or without the markers of a strict exchange,
    none of which either has among its own algorithms), come to the same end:
    both fail, with the same code and one that makes them disconnect, or both
    settle on the client's first key exchange algorithm the server has, with one
    hash and one host key algorithm, and what the client installs for sending,
    cipher, MAC and all their sizes, is what the server installs for receiving,
    and the other way around. *)
Theorem kexinit_agree (Cc Cs : CTX) `{Crypto} (c s : WOLFSSH)
    nhc ck ch cc cm nhs sk sh sc sm strict_c strict_s cookie_c cookie_s :
  @side Cc = WOLFSSH_ENDPOINT_CLIENT -> @side Cs = WOLFSSH_ENDPOINT_SERVER ->
  @endpoint Cc c nhc ck ch cc cm -> @endpoint Cs s nhs sk sh sc sm ->
  Forall (fun id => id ∉ ck /\ id ∉ sk) all_marks ->
  blen cookie_c = COOKIE_SZ -> blen cookie_s = COOKIE_SZ ->
  let to_server := cookie_c ++ @sent_lists Cc c nhc strict_c in
  let to_client := cookie_s ++ @sent_lists Cs s nhs strict_s in
  match @negotiate Cc _ to_client (blen to_client) COOKIE_SZ c,
        @negotiate Cs _ to_server (blen to_server) COOKIE_SZ s with
  | (Ok _, c'), (Ok _, s') => exists hc hs,
      handshake c' = Some hc /\ handshake s' = Some hs /\ same_algorithms hc hs /\
      hs_kexId hc = MatchIdLists_loop ck sk /\ kexId (kex c') = hs_kexId hc /\ kexId (kex s') = hs_kexId hs
  | (Err e, _), (Err e', _) => e = e' /\ IsKexMatchError e = true
  | _, _ => False
  end.
Proof.
  intros Ec Es Hec Hes Hm Hlc Hls to_server to_client.
  pose proof (reads_peer Cc Cs c s _ _ _ _ _ _ _ _ _ _ strict_s cookie_s Hec Hes Hls) as Wc.
  pose proof (reads_peer Cs Cc s c _ _ _ _ _ _ _ _ _ _ strict_c cookie_c Hes Hec Hlc) as Ws.
  cbv zeta in Wc, Ws. fold to_client in Wc. fold to_server in Ws. unfold wp in Wc, Ws.
  rewrite (@choose_client Cc) in Wc;
    [|done|apply (@marks_forall Cs); eapply Forall_impl; [|exact Hm]; by intros x []].
  rewrite (@choose_server Cs) in Ws;
    [|done|apply (@marks_forall Cc); eapply Forall_impl; [|exact Hm]; by intros x []].
  destruct (agreed _ _ _ _ _ _ _ _) as [a|e] eqn:Ea.
  - destruct (@negotiate Cc _ _ _ _ c) as [[?|?|] c'], (@negotiate Cs _ _ _ _ s) as [[?|?|] s']; try done.
    destruct Wc as (hc&E1&E2&E3&E4&E5&E6), Ws as (hs&F1&F2&F3&F4&F5&F6).
    rewrite Ec in E6. rewrite Es in F6. cbn in E6, F6. destruct E6 as [E6 E7], F6 as [F6 F7].
    exists hc, hs. unfold same_algorithms. rewrite E2, E3, E4, E5, E6, E7, F2, F3, F4, F5, F6, F7.
    repeat (split; [done|]). split; [|done]. unfold agreed in Ea. cbv zeta in Ea.
    repeat (case_match; [done|]). by injection Ea as <-.
  - destruct (@negotiate Cc _ _ _ _ c) as [[?|?|] c'], (@negotiate Cs _ _ _ _ s) as [[?|?|] s']; try done.
    subst. split; [done|]. by eapply agreed_error.
Qed.

(** The decoded lists of the sample contexts. *)
Definition sample_client (names : bytes) : WOLFSSH :=
  (new_session []) <| kex; algoListKex := names |> <| kex; algoListKey := Some (str "ssh-ed25519,rsa-sha2-256") |>.
Definition sample_server (names : bytes) : WOLFSSH := (new_session []) <| kex; algoListKex := names |>.
Definition sample_kex : bytes := str "curve25519-sha256,diffie-hellman-group14-sha256".

Ltac lists_ids_by_compute :=
  split; [split; [discriminate|by repeat constructor]|split; vm_compute; discriminate|by vm_compute|vm_compute; discriminate].

Example kexinit_agree_witness :
  let kxs := [ID_CURVE25519_SHA256; ID_DH_GROUP14_SHA256] in
  MatchIdLists_loop kxs kxs = ID_CURVE25519_SHA256 /\
  let to_server := zeros COOKIE_SZ ++ @sent_lists client (sample_client sample_kex) (str "ssh-ed25519,rsa-sha2-256") true in
  let to_client := zeros COOKIE_SZ ++ @sent_lists server (sample_server sample_kex) (str "rsa-sha2-256") true in
  match @negotiate client _ to_client (blen to_client) COOKIE_SZ (sample_client sample_kex),
        @negotiate server _ to_server (blen to_server) COOKIE_SZ (sample_server sample_kex) with
  | (Ok _, c'), (Ok _, s') => exists hc hs,
      handshake c' = Some hc /\ handshake s' = Some hs /\ same_algorithms hc hs /\
      hs_kexId hc = MatchIdLists_loop kxs kxs /\ kexId (kex c') = hs_kexId hc /\ kexId (kex s') = hs_kexId hs
  | (Err e, _), (Err e', _) => e = e' /\ IsKexMatchError e = true
  | _, _ => False
  end.
Proof.
  intros kxs. split; [done|]. subst kxs.
  assert (@endpoint client (sample_client sample_kex) (str "ssh-ed25519,rsa-sha2-256")
    [ID_CURVE25519_SHA256; ID_DH_GROUP14_SHA256] [ID_ED25519; ID_RSA_SHA2_256]
    [ID_AES256_GCM; ID_AES128_CTR] [ID_HMAC_SHA2_256; ID_HMAC_SHA2_512]) as Hc.
  { split; [split; lists_ids_by_compute|lists_ids_by_compute|by vm_compute|by eexists|done]. }
  assert (@endpoint server (sample_server sample_kex) (str "rsa-sha2-256")
    [ID_CURVE25519_SHA256; ID_DH_GROUP14_SHA256] [ID_RSA_SHA2_256]
    [ID_AES256_GCM; ID_AES128_CTR] [ID_HMAC_SHA2_256; ID_HMAC_SHA2_512]) as Hs.
  { split; [split; [lists_ids_by_compute|by split|lists_ids_by_compute..]|lists_ids_by_compute|by vm_compute|by eexists|done]. }
  assert (Forall (fun id => id ∉ [ID_CURVE25519_SHA256; ID_DH_GROUP14_SHA256] /\
    id ∉ [ID_CURVE25519_SHA256; ID_DH_GROUP14_SHA256]) all_marks) as Hm.
  { repeat constructor; by apply (bool_decide_unpack _). }
  assert (blen (zeros COOKIE_SZ) = COOKIE_SZ) as Hz by done.
  pose proof (kexinit_agree client server _ _ _ _ _ _ _ _ _ _ _ _ true true _ _ eq_refl eq_refl Hc Hs Hm Hz Hz) as P.
  exact P.
Defined.

(** A list may start with a name this library does not know, and the decoder
    keeps such a first name as [ID_UNKNOWN]. When the lists of both sides start
    that way, the negotiation takes [ID_UNKNOWN] for a common algorithm, fails
    with it, and never reaches the algorithm both sides have. *)
Example unknown_first_names :
  let names u := u ++ str ",curve25519-sha256" in
  CheckAlgoList (Some (names (str "newest-kex"))) TYPE_KEX = WS_SUCCESS /\
  CheckAlgoList (Some (names (str "other-kex"))) TYPE_KEX = WS_SUCCESS /\
  let c := sample_client (names (str "newest-kex")) in
  let s := sample_server (names (str "other-kex")) in
  let to_server := zeros COOKIE_SZ ++ @sent_lists client c (str "rsa-sha2-256") true in
  (@negotiate server _ to_server (blen to_server) COOKIE_SZ s).1 = Err WS_MATCH_KEX_ALGO_E.
Proof. split; [by vm_compute|]. split; by vm_compute. Qed.
