(* ===== verification/Frames.v ===== *)
(** What a run leaves alone. [after m Q s]: [Q] holds of the outcome of [m] from [s],
    whatever it is, and of the state it leaves. [frames V m]: no run of [m] changes
    [V]. Sending a message changes only the transmitting side of the session. *)

From S2P Require Import Prelude Codes Wire Names Buffer Algos Kdf Session Samples MsgFilter Transport Send.

(** ** Every outcome *)

Definition after {S A} (m : ST S A) (Q : res A -> S -> Prop) (s : S) : Prop := Q (m s).1 (m s).2.

Definition frames {S T A} (V : S -> T) (m : ST S A) : Prop := forall s, V (m s).2 = V s.

(** The failure of the first half of a sequence is the failure of the whole. *)
Definition failed {A B} (r : res A) : res B :=
  match r with Ok _ => UB | Err e => Err e | UB => UB end.

Section After.
Context {S : Type}.

Lemma after_mono {A} (m : ST S A) (Q Q' : res A -> S -> Prop) s :
  after m Q s -> (forall r s', Q r s' -> Q' r s') -> after m Q' s.
Proof. unfold after. auto. Qed.

Lemma after_bind {A B} (m : ST S A) (k : A -> ST S B) Q s :
  after m (fun r s' => match r with Ok a => after (k a) Q s' | Err e => Q (Err e) s' | UB => Q UB s' end) s ->
  after (m ≫= k) Q s.
Proof. unfold after, mbind, ST_bind. by destruct (m s) as [[a|e|] s']. Qed.

Lemma after_code {A} (m : ST S A) Q s :
  after m (fun r s' => Q (match r with Ok _ => Ok 0 | Err e => Ok e | UB => UB end) s') s -> after (code m) Q s.
Proof. unfold after, code. by destruct (m s) as [[a|e|] s']. Qed.

Lemma after_if {A} (c : bool) (m m' : ST S A) Q s :
  (c = true -> after m Q s) -> (c = false -> after m' Q s) -> after (if c then m else m') Q s.
Proof. destruct c; auto. Qed.

Lemma after_when (c : bool) (m : ST S unit) Q s :
  (c = true -> after m Q s) -> (c = false -> Q (Ok tt) s) -> after (when c m) Q s.
Proof. destruct c; intros Ht Hf; [by apply Ht|by apply Hf]. Qed.

Lemma after_guard c e (Q : res unit -> S -> Prop) s :
  (c = true -> Q (Err e) s) -> (c = false -> Q (Ok tt) s) -> after (guard_err c e) Q s.
Proof. destruct c; intros Ht Hf; [by apply Ht|by apply Hf]. Qed.

Lemma after_ret_code c (Q : res unit -> S -> Prop) s :
  (c = 0 -> Q (Ok tt) s) -> (c <> 0 -> Q (Err c) s) -> after (ret_code c) Q s.
Proof. unfold ret_code. intros H0 H1. destruct (Z.eqb_spec c 0); [by apply H0|by apply H1]. Qed.

Lemma after_run {A} (m : ST S A) (Q : res A -> S -> Prop) s r s' : m s = (r, s') -> Q r s' -> after m Q s.
Proof. unfold after. by intros ->. Qed.

(** What is left alone carries over a statement. *)
Lemma after_frames {T A} (V : S -> T) (m : ST S A) (Q : res A -> S -> Prop) s :
  frames V m -> (forall r s', m s = (r, s') -> V s' = V s -> Q r s') -> after m Q s.
Proof. unfold after. intros F HQ. specialize (F s). destruct (m s) as [r s'] eqn:E. by apply HQ. Qed.

Context {T : Type} (V : S -> T).

Lemma frames_ret {A} (a : A) : frames V (mret a : ST S A).
Proof. done. Qed.
Lemma frames_fail {A} e : frames V (fail e : ST S A).
Proof. done. Qed.
Lemma frames_ub {A} : frames V (ub : ST S A).
Proof. done. Qed.
Lemma frames_get : frames V get.
Proof. done. Qed.
Lemma frames_guard c e : frames V (guard_err c e).
Proof. by destruct c. Qed.
Lemma frames_ret_code c : frames V (ret_code c).
Proof. unfold ret_code. by destruct (c =? 0). Qed.
Lemma frames_deref {A} (o : option A) : frames V (deref o).
Proof. by destruct o. Qed.
Lemma frames_lift {A} (r : res A) : frames V (lift_res r).
Proof. done. Qed.
Lemma frames_modify f : (forall s, V (f s) = V s) -> frames V (modify f).
Proof. done. Qed.
Lemma frames_bind {A B} (m : ST S A) (k : A -> ST S B) : frames V m -> (forall a, frames V (k a)) -> frames V (m ≫= k).
Proof.
  intros Hm Hk s. unfold mbind, ST_bind. specialize (Hm s). destruct (m s) as [[a|e|] s']; try done.
  cbn in *. by rewrite (Hk a s').
Qed.
Lemma frames_if {A} (c : bool) (m m' : ST S A) : frames V m -> frames V m' -> frames V (if c then m else m').
Proof. by destruct c. Qed.
Lemma frames_when c (m : ST S unit) : frames V m -> frames V (when c m).
Proof. by destruct c. Qed.
Lemma frames_code {A} (m : ST S A) : frames V m -> frames V (code m).
Proof. intros Hm s. specialize (Hm s). unfold code. by destruct (m s) as [[a|e|] s']. Qed.
End After.

Lemma frames_attempt {T A} (V : WOLFSSH -> T) (m : M A) : frames V m -> frames V (attempt m).
Proof. intros Hm s. specialize (Hm s). unfold attempt. by destruct (m s) as [[a|e|] s']. Qed.

(** One step of a program that leaves something alone. *)
Ltac frames_step :=
  lazymatch goal with
  | |- frames _ (_ ≫= _) => apply frames_bind; [|intros ?]
  | |- frames _ (mret _) => apply frames_ret
  | |- frames _ (fail _) => apply frames_fail
  | |- frames _ ub => apply frames_ub
  | |- frames _ get => apply frames_get
  | |- frames _ (guard_err _ _) => apply frames_guard
  | |- frames _ (ret_code _) => apply frames_ret_code
  | |- frames _ (deref _) => apply frames_deref
  | |- frames _ (lift_res _) => apply frames_lift
  | |- frames _ (modify _) => apply frames_modify; intros ?; reflexivity
  | |- frames _ (when _ _) => apply frames_when
  | |- frames _ (code _) => apply frames_code
  | |- frames _ (attempt _) => apply frames_attempt
  | |- frames _ (let '(_, _) := ?x in _) => destruct x
  | |- frames _ (if _ then _ else _) => apply frames_if
  | |- frames _ (match ?x with _ => _ end) => destruct x eqn:?
  | |- frames _ (let _ := _ in _) => cbv zeta
  end.
Create HintDb frames discriminated.
#[export] Hint Constants Opaque : frames.
#[export] Hint Resolve frames_lift frames_ret frames_fail frames_ub frames_get frames_deref frames_ret_code frames_code : frames.
Ltac frames_auto := repeat (first [frames_step | solve [eauto with frames nocore]]).

(** The same for statements on every outcome; sends and calls are left to the caller. *)
Ltac after_step :=
  lazymatch goal with
  | |- after (_ ≫= _) _ _ => apply after_bind
  | |- after (mret _) _ _ => red; cbn [fst snd mret ST_ret]
  | |- after (fail _) _ _ => red; cbn [fst snd fail]
  | |- after ub _ _ => red; cbn [fst snd ub]
  | |- after get _ _ => red; cbn [fst snd get]
  | |- after (modify _) _ _ => red; cbn [fst snd modify]
  | |- after (guard_err _ _) _ _ => apply after_guard; intros ?
  | |- after (if _ then _ else _) _ _ => apply after_if; intros ?
  | |- after (when _ _) _ _ => apply after_when; intros ?
  | |- after (code _) _ _ => apply after_code
  | |- after (ret_code _) _ _ => apply after_ret_code; intros ?
  end; cbv beta iota.

(** ** The session but for its transmitting side *)

Definition rest (s : WOLFSSH) : WOLFSSH :=
  s <| tx := zero_tx (mkBuffer 0 0 0 [] [] false) [] |> <| mallocs := [] |> <| error := 0 |> <| connReset := false |>
    <| isClosed := false |> <| disconnected := false |> <| disconnectTxd := false |>
    <| highwaterFlag := false |> <| msgHighwaterFlag := false |> <| certMan := [] |> <| app := [] |>.

(** The callbacks sending goes through touch nothing else. *)
Class QuietSends `{CTX} : Prop := {
  rest_send cb d : ioSendCb = Some cb -> frames rest (cb d);
  rest_highwater cb sd : highwaterCb = Some cb -> frames rest (cb sd)
}.

Lemma frames_malloc {T} (V : WOLFSSH -> T) : (forall s m, V (s <| mallocs := m |>) = V s) -> frames V malloc.
Proof. intros HV s. rewrite malloc_run. cbn [snd]. apply HV. Qed.

Lemma frames_parse {T A} (V : WOLFSSH -> T) (p : bytes -> Z -> ST Z A) buf len i : frames V (parse p buf len i).
Proof. intros s. unfold parse. by destruct (p buf len i) as [[a|e|] j]. Qed.

Lemma frames_on_out {A} (m : ST WOLFSSH_BUFFER A) : frames rest (on_out m).
Proof. intros s. unfold on_out. by destruct (m _). Qed.

#[export] Hint Resolve frames_malloc frames_parse frames_on_out : frames.

Section Frames.
Context `{CTX} `{Crypto} `{!QuietSends}.

Lemma rest_out_write i d : frames rest (out_write i d).
Proof. apply frames_on_out. Qed.
Lemma rest_out_read i n : frames rest (out_read i n).
Proof. apply frames_on_out. Qed.
Hint Resolve rest_out_write rest_out_read : frames.

Lemma rest_malloc : frames rest malloc.
Proof. by apply frames_malloc. Qed.
Hint Resolve rest_malloc rest_send rest_highwater : frames.

Lemma rest_put d : frames rest (put d).
Proof. unfold put. frames_auto. Qed.
Hint Resolve rest_put : frames.

Lemma rest_PreparePacket n : frames rest (PreparePacket n).
Proof. unfold PreparePacket. frames_auto. Qed.
Hint Resolve rest_PreparePacket : frames.

Lemma rest_bundle_body i j n : frames rest (bundle_body i j n).
Proof. unfold bundle_body, add_padding, seal_mac, seal_aead, CreateMac, Encrypt, EncryptAead. frames_auto. Qed.
Hint Resolve rest_bundle_body : frames.

Lemma rest_BundlePacket : frames rest BundlePacket.
Proof. unfold BundlePacket. frames_auto. Qed.
Hint Resolve rest_BundlePacket : frames.

Lemma rest_flush_loop fuel cb : ioSendCb = Some cb -> frames rest (SendPacketFlush_loop fuel cb).
Proof.
  intros E. assert (Hint : forall d, frames rest (cb d)) by (intros d; by apply rest_send).
  induction fuel; cbn [SendPacketFlush_loop]; frames_auto.
  unfold send_error. frames_auto.
Qed.
Hint Resolve rest_flush_loop : frames.

Lemma rest_highwater_check sd : frames rest (HighwaterCheck sd).
Proof.
  unfold HighwaterCheck, call. frames_auto.
Qed.
Hint Resolve rest_highwater_check : frames.

Lemma rest_wolfSSH_SendPacket : frames rest wolfSSH_SendPacket.
Proof.
  unfold wolfSSH_SendPacket, SendPacketFlush. frames_auto.
Qed.
Hint Resolve rest_wolfSSH_SendPacket : frames.

Lemma rest_send_payload n w : frames rest (send_payload n w).
Proof. unfold send_payload. frames_auto. Qed.
Hint Resolve rest_send_payload : frames.

Lemma rest_send_packet n w : frames rest (send_packet n w).
Proof. unfold send_packet. frames_auto. Qed.
Hint Resolve rest_send_packet : frames.

Lemma rest_SendDisconnect reason : frames rest (SendDisconnect reason).
Proof. unfold SendDisconnect. frames_auto. Qed.
Hint Resolve rest_SendDisconnect : frames.

Lemma rest_PurgePacket : frames rest PurgePacket.
Proof. unfold PurgePacket. frames_auto. Qed.
Hint Resolve rest_PurgePacket : frames.
End Frames.
#[export] Hint Resolve rest_malloc rest_send_payload rest_send_packet rest_wolfSSH_SendPacket rest_SendDisconnect rest_PurgePacket : frames.
