(* ===== verification/UserSig.v ===== *)
(** The signature of a public key request (internal.c, [DoUserAuthRequestRsa],
    [...RsaCert], [...Ecc], [...EccCert], [...Ed25519], [...MlDsa]) and the RSA
    verification they share with the rest of the library ([wolfSSH_RsaVerify]).

    What is shown: [wolfSSH_RsaVerify] accepts exactly the signatures whose
    public key image is the padded digest, and which bytes each check takes for
    signed. *)

From S2P Require Import Prelude Codes Wire Names Buffer Fwd Algos Kdf Session Samples MsgFilter Transport.
From S2P Require Import Send.

(** ** wolfCrypt's public keys *)

Inductive mldsa_level := WC_ML_DSA_44 | WC_ML_DSA_65 | WC_ML_DSA_87.

Definition RSA_MIN_PAD_SZ : Z := 11.

(** A result, or a code. *)
Abbreviation wc A := (A + Z)%type.

(** The calls of wolfCrypt on public keys. A call that returns an [int] gives it,
    0 for success; one whose code the library replaces gives [None] when it
    fails. *)
Class PubKeys := {
  RsaKey : Type;
  wc_InitRsaKey : Z;
  wc_RsaPublicKeyDecodeRaw : bytes -> bytes -> res RsaKey;         (* n, e *)
  wc_RsaPublicKeyDecode : bytes -> wc RsaKey;                      (* a DER key *)
  mp_count_bits : RsaKey -> Z;                                     (* of key->n *)
  wc_RsaEncryptSize : RsaKey -> Z;
  wc_RsaFlattenPublicKey : RsaKey -> Z -> wc (bytes * bytes);      (* e and n, each of at most the size given *)
  wc_RsaFunction : bytes -> RsaKey -> option bytes;                (* RSA_PUBLIC_ENCRYPT *)
  wc_EncodeSignature : bytes -> wc_HashType -> bytes;              (* the DigestInfo *)
  ecc_key : Type;
  wc_ecc_init_ex : Z;
  wc_ecc_import_x963_ex : bytes -> ecc_curve_id -> res ecc_key;
  wc_ecc_import_x963 : bytes -> res ecc_key;                       (* the curve from the size *)
  wc_EccPublicKeyDecode : bytes -> res ecc_key;
  ecc_curve : ecc_key -> ecc_curve_id;                             (* key->dp->id *)
  wc_ecc_rs_raw_to_sig : bytes -> bytes -> Z -> res bytes;         (* r, s, room *)
  ECC_MAX_SIG_SIZE : Z;
  wc_SignatureVerifyHash : wc_HashType -> bytes -> bytes -> ecc_key -> res unit;
  ed25519_key : Type;
  wc_ed25519_init_ex : Z;
  wc_ed25519_import_public : bytes -> res ed25519_key;
  wc_ed25519_verify_msg_init : bytes -> ed25519_key -> res ed25519_key;
  wc_ed25519_verify_msg_update : bytes -> ed25519_key -> res ed25519_key;
  wc_ed25519_verify_msg_final : bytes -> ed25519_key -> option bool;
  wc_ed25519_verify_msg : bytes -> bytes -> ed25519_key -> res bool;   (* signature, message *)
  wc_Hash : wc_HashType -> bytes -> res bytes;
  MlDsaKey : Type;
  wc_MlDsaKey_Init : mldsa_level -> wc MlDsaKey;                   (* Init and SetParams *)
  wc_MlDsaKey_ImportPubRaw : bytes -> MlDsaKey -> res MlDsaKey;
  wc_MlDsaKey_PublicKeyDecode : bytes -> MlDsaKey -> res MlDsaKey;
  wc_MlDsaKey_VerifyCtx : MlDsaKey -> bytes -> bytes -> bytes -> option bool;   (* signature, context, message *)
  (* certificates: parsing, the size of the DER key and the key *)
  wc_ParseCert : bytes -> Z;
  wc_GetPubKeyDerSize : bytes -> res Z;
  wc_GetPubKeyDerFromCert : bytes -> res bytes
}.

#[export] Instance ecc_curve_id_eq : EqDecision ecc_curve_id.
Proof. solve_decision. Defined.

Section UserSig.
Context `{PubKeys}.

Definition or_code {A} (e : Z) (o : option A) : M A := match o with Some a => mret a | None => fail e end.
Definition or_recode {A} (e : Z) (r : wc A) : M A := match r with inl a => mret a | inr _ => fail e end.

(** Any failure of [m] as [e]. *)
Definition or_else {A} (m : M A) (e : Z) : M A :=
  r ← attempt m;
  match r with inl a => mret a | inr _ => fail e end.

(** [GetSize(&sz, buf, bufSz, &i); p = buf + i; i += sz]. *)
Definition sized (buf : bytes) (i : Z) : M (bytes * Z) :=
  '(sz, i) ← parse GetSize buf (blen buf) i;
  mret (slice buf i sz, i +w sz).

(** ** RSA *)

Definition CheckRsaKeyBits (key : RsaKey) : M unit :=
  let keyBits := mp_count_bits key in
  let keyBits := if keyBits =? 0 then wc_RsaEncryptSize key * 8 else keyBits in
  guard_err (keyBits <? WOLFSSH_RSA_MIN_KEY_BITS) WS_CERT_KEY_SIZE_E.

(** Two numbers of the same size. *)
Fixpoint BigEndianCompare (a b : bytes) : Z :=
  match a, b with
  | x :: a, y :: b => if x =? y then BigEndianCompare a b else if y <? x then 1 else -1
  | _, _ => 0
  end.

(** The block a signature must open to: 00 01 FF...FF 00 and the digest. *)
Definition pkcs1_block (keySz : Z) (encDigest : bytes) : bytes :=
  let padSz := keySz - blen encDigest - 3 in
  [0; 1] ++ replicate (Z.to_nat padSz) 0xFF ++ [0] ++ encDigest.

(** The signature in a block of the key's size: zeros in front of a short one,
    the first bytes of a long one. *)
Definition normalized (keySz : Z) (sig : bytes) : bytes :=
  if blen sig <? keySz then zeros (keySz - blen sig) ++ sig else slice sig 0 keySz.

Definition wolfSSH_RsaVerify (sig : option bytes) (encDigest : bytes) (key : RsaKey) : M unit :=
  match sig with
  | None => fail WS_RSA_E
  | Some sig =>
    let keySz := wc_RsaEncryptSize key in
    guard_err (keySz <=? 0) WS_RSA_E;;
    guard_err (keySz <? blen encDigest +w RSA_MIN_PAD_SZ) WS_RSA_E;;
    scratch ← malloc;
    guard_err (negb scratch) WS_MEMORY_E;;
    let checkSig := normalized keySz sig in
    when (negb (mp_count_bits key =? 0)) (
      '(_, n) ← or_recode WS_RSA_E (wc_RsaFlattenPublicKey key keySz);
      guard_err (negb (blen n =? keySz)) WS_RSA_E;;
      guard_err (0 <=? BigEndianCompare checkSig n) WS_RSA_E);;
    checkBlock ← or_code WS_RSA_E (wc_RsaFunction checkSig key);
    guard_err (negb (blen checkBlock =? keySz)) WS_RSA_E;;
    c ← deref (ConstantCompare checkBlock (pkcs1_block keySz encDigest) keySz);
    guard_err (negb (c =? 0)) WS_RSA_E
  end.

(** An RSA signature names the algorithm of the request, or for a certificate
    any of the underlying ones. *)
Definition sig_type_ok (sigType : option bytes) (keyType : bytes) : bool :=
  match sigType with
  | None => false
  | Some t =>
    if bytes_eqb t keyType then true
    else bytes_eqb keyType (str "x509v3-ssh-rsa")
         && (bytes_eqb t (str "ssh-rsa") || bytes_eqb t (str "rsa-sha2-256") || bytes_eqb t (str "rsa-sha2-512"))
  end.

(** From the check of the key's size on, which the two RSA checks share. *)
Definition rsa_signature (pk : PublicKey) (hashId : wc_HashType) (digest : bytes) (key : RsaKey) : M unit :=
  CheckRsaKeyBits key;;
  let sigSz := blen (signature pk) in
  '((_, sigType), i) ← parse GetStringRef (signature pk) sigSz 0;
  guard_err (negb (sig_type_ok sigType (publicKeyType pk))) WS_INVALID_ALGO_ID;;
  '((_, sig), i) ← parse GetStringRef (signature pk) sigSz i;
  wolfSSH_RsaVerify sig (wc_EncodeSignature digest hashId) key.

Definition DoUserAuthRequestRsa (pk : PublicKey) (hashId : wc_HashType) (digest : bytes) : M unit :=
  guard_err (blen digest =? 0) WS_BAD_ARGUMENT;;
  ret_code wc_InitRsaKey;;
  let keySz := blen (publicKey pk) in
  '((_, fmt), i) ← parse GetStringRef (publicKey pk) keySz 0;
  guard_err (negb (bytes_eqb (ref_bytes fmt) (str "ssh-rsa"))) WS_INVALID_ALGO_ID;;
  '((_, e), i) ← parse GetMpint (publicKey pk) keySz i;
  '((_, n), i) ← parse GetMpint (publicKey pk) keySz i;
  key ← or_else (lift_res (wc_RsaPublicKeyDecodeRaw (ref_bytes n) (ref_bytes e))) WS_CRYPTO_FAILED;
  rsa_signature pk hashId digest key.

(** The public key of a certificate. *)
Definition cert_key (cert : bytes) : M bytes :=
  ret_code (wc_ParseCert cert);;
  _ ← lift_res (wc_GetPubKeyDerSize cert);
  mem ← malloc;
  guard_err (negb mem) WS_MEMORY_E;;
  lift_res (wc_GetPubKeyDerFromCert cert).

Definition DoUserAuthRequestRsaCert (pk : PublicKey) (hashId : wc_HashType) (digest : bytes) : M unit :=
  guard_err (blen digest =? 0) WS_BAD_ARGUMENT;;
  ret_code wc_InitRsaKey;;
  pub ← cert_key (publicKey pk);
  key ← or_recode WS_CRYPTO_FAILED (wc_RsaPublicKeyDecode pub);
  rsa_signature pk hashId digest key.

(** ** ECDSA *)

(** The pair (r, s) after the algorithm's name. *)
Definition ecc_signature (pk : PublicKey) (hashId : wc_HashType) (digest : bytes) (key : ecc_key) (i : Z) : M unit :=
  let sigSz := blen (signature pk) in
  '(_, i) ← parse GetSize (signature pk) sigSz i;
  '((_, r), i) ← parse GetStringRef (signature pk) sigSz i;
  '((_, s), i) ← parse GetStringRef (signature pk) sigSz i;
  asnSig ← or_else (lift_res (wc_ecc_rs_raw_to_sig (ref_bytes r) (ref_bytes s) ECDSA_ASN_SIG_SZ)) WS_ECC_E;
  or_else (lift_res (wc_SignatureVerifyHash hashId digest asnSig key)) WS_ECC_E.

Definition DoUserAuthRequestEcc (pk : PublicKey) (hashId : wc_HashType) (digest : bytes) : M unit :=
  guard_err (blen digest =? 0) WS_BAD_ARGUMENT;;
  guard_err (negb (wc_ecc_init_ex =? 0)) WS_MEMORY_E;;
  '(t, i) ← sized (publicKey pk) 0;
  guard_err (negb (bytes_eqb t (publicKeyType pk))) WS_INVALID_ALGO_ID;;
  let keyId := NameToId (publicKeyType pk) in
  let primeId := wcPrimeForId keyId in
  guard_err (bool_decide (primeId = ECC_CURVE_INVALID)) WS_INVALID_PRIME_CURVE;;
  '(curveName, i) ← sized (publicKey pk) i;
  guard_err (negb (bytes_eqb curveName (PrimeNameForId keyId))) WS_INVALID_PRIME_CURVE;;
  '(q, i) ← sized (publicKey pk) i;
  key ← or_else (lift_res (wc_ecc_import_x963_ex q primeId)) WS_CRYPTO_FAILED;
  '(t, i) ← sized (signature pk) 0;
  guard_err (negb (bytes_eqb t (publicKeyType pk))) WS_INVALID_ALGO_ID;;
  ecc_signature pk hashId digest key i.

Definition DoUserAuthRequestEccCert (pk : PublicKey) (hashId : wc_HashType) (digest : bytes) : M unit :=
  key ← or_else (
    guard_err (blen digest =? 0) WS_BAD_ARGUMENT;;
    guard_err (negb (wc_ecc_init_ex =? 0)) WS_MEMORY_E;;
    pub ← cert_key (publicKey pk);
    lift_res (wc_EccPublicKeyDecode pub)) WS_CRYPTO_FAILED;
  let expectedCurve := wcPrimeForId (NameToId (publicKeyType pk)) in
  guard_err (bool_decide (expectedCurve = ECC_CURVE_INVALID) || negb (bool_decide (ecc_curve key = expectedCurve)))
    WS_INVALID_PRIME_CURVE;;
  '(_, i) ← sized (signature pk) 0;
  ecc_signature pk hashId digest key i.

(** ** Signatures of the request itself *)

(** [sz] bytes from [pk->dataToSign]. *)
Definition signed_bytes (pk : PublicKey) (sz : Z) : M bytes :=
  if sz <=? blen (dataToSign pk) then mret (slice (dataToSign pk) 0 sz) else ub.

(** The size of the request up to its public key, from its fields. *)
Definition fields_size (authData : WS_UserAuthData) (pk : PublicKey) (pubKeyBlobSz : Z) : Z :=
  wrap32 (blen (username authData) + blen (serviceName authData) + blen (authName authData) + BOOLEAN_SZ
    + blen (publicKeyType pk) + pubKeyBlobSz + UINT32_SZ * 5).

Definition DoUserAuthRequestEd25519 (pk : PublicKey) (authData : WS_UserAuthData) : M unit :=
  key ← or_else (
    ret_code wc_ed25519_init_ex;;
    '(t, i) ← sized (publicKey pk) 0;
    guard_err (negb (bytes_eqb t (publicKeyType pk))) WS_INVALID_ALGO_ID;;
    '(q, i) ← sized (publicKey pk) i;
    lift_res (wc_ed25519_import_public q)) WS_CRYPTO_FAILED;
  '(t, i) ← sized (signature pk) 0;
  guard_err (negb (bytes_eqb t (publicKeyType pk))) WS_INVALID_ALGO_ID;;
  '(sig, i) ← sized (signature pk) i;
  s ← get;
  key ← lift_res (wc_ed25519_verify_msg_init sig key);
  key ← lift_res (wc_ed25519_verify_msg_update (c32toa (blen (sessionId (kex s)))) key);
  key ← lift_res (wc_ed25519_verify_msg_update (sessionId (kex s)) key);
  key ← lift_res (wc_ed25519_verify_msg_update [MSGID_USERAUTH_REQUEST] key);
  let sz := if dataToSignSz pk =? 0 then fields_size authData pk (blen (publicKey pk)) else dataToSignSz pk in
  d ← signed_bytes pk sz;
  key ← lift_res (wc_ed25519_verify_msg_update d key);
  match wc_ed25519_verify_msg_final sig key with
  | None => fail WS_CRYPTO_FAILED
  | Some status => guard_err (negb status) WS_ED25519_E
  end.

Definition KeyIdToMlDsaLevel (id : AlgoId) : option mldsa_level :=
  match id with
  | ID_MLDSA44 | ID_X509V3_MLDSA44 => Some WC_ML_DSA_44
  | ID_MLDSA65 | ID_X509V3_MLDSA65 => Some WC_ML_DSA_65
  | ID_MLDSA87 | ID_X509V3_MLDSA87 => Some WC_ML_DSA_87
  | _ => None
  end.

Definition DoUserAuthRequestMlDsaImportCertPubKey (pk : PublicKey) (key : MlDsaKey) : M MlDsaKey :=
  mem ← malloc;
  guard_err (negb mem) WS_MEMORY_E;;
  pub ← cert_key (publicKey pk);
  lift_res (wc_MlDsaKey_PublicKeyDecode pub key).

(** What a failure to load the key is reported as. *)
Definition mldsa_error (e : Z) : Z :=
  if (e =? WS_MEMORY_E) || (e =? WS_BAD_ARGUMENT) || (e =? WS_INVALID_ALGO_ID) then e else WS_CRYPTO_FAILED.

(** The session id and the message up to its public key. *)
Definition check_data (pk : PublicKey) (authData : WS_UserAuthData) (pubKeyBlobSz : Z) : M bytes :=
  s ← get;
  mem ← malloc;
  guard_err (negb mem) WS_MEMORY_E;;
  d ← signed_bytes pk (fields_size authData pk pubKeyBlobSz);
  mret (c32toa (blen (sessionId (kex s))) ++ sessionId (kex s) ++ [MSGID_USERAUTH_REQUEST] ++ d).

Definition DoUserAuthRequestMlDsa (pk : PublicKey) (authData : WS_UserAuthData) (level : mldsa_level)
    (isCert : bool) (pubKeyBlobSz : Z) : M unit :=
  r ← attempt (
    mem ← malloc;
    guard_err (negb mem) WS_MEMORY_E;;
    key ← or_recode WS_CRYPTO_FAILED (wc_MlDsaKey_Init level);
    if isCert then DoUserAuthRequestMlDsaImportCertPubKey pk key
    else
      '(t, i) ← sized (publicKey pk) 0;
      guard_err (negb (bytes_eqb t (publicKeyType pk))) WS_INVALID_ALGO_ID;;
      '((_, pubRaw), i) ← parse GetStringRef (publicKey pk) (blen (publicKey pk)) i;
      lift_res (wc_MlDsaKey_ImportPubRaw (ref_bytes pubRaw) key));
  key ← match r with inl key => mret key | inr e => fail (mldsa_error e) end;
  '(t, i) ← sized (signature pk) 0;
  guard_err (negb (bytes_eqb t (publicKeyType pk))) WS_INVALID_ALGO_ID;;
  '(sig, i) ← sized (signature pk) i;
  d ← check_data pk authData pubKeyBlobSz;
  match wc_MlDsaKey_VerifyCtx key sig [] d with
  | None => fail WS_CRYPTO_FAILED
  | Some status => guard_err (negb status) WS_MLDSA_E
  end.
End UserSig.

(** ** What the RSA check accepts *)

Lemma BigEndianCompare_value a b :
  length a = length b -> Forall is_byte a -> Forall is_byte b ->
  (BigEndianCompare a b < 0 <-> be_value a < be_value b).
Proof.
  revert b. induction a as [|x a IH]; intros [|y b] Hl Ha Hb; cbn [length] in Hl; [cbn; lia|done..|].
  apply Forall_cons_iff in Ha as [Hx Ha]. apply Forall_cons_iff in Hb as [Hy Hb]. unfold is_byte in Hx, Hy.
  rewrite !be_value_cons. injection Hl as Hl. unfold blen. rewrite Hl.
  pose proof (be_value_range a Ha) as Ra. pose proof (be_value_range b Hb) as Rb. unfold blen in *. rewrite Hl in Ra.
  cbn [BigEndianCompare]. destruct (Z.eqb_spec x y) as [->|Hne]; [rewrite IH by done; lia|].
  destruct (Z.ltb_spec y x); split; intros; nia.
Qed.

Lemma pkcs1_size keySz d : blen d + 3 <= keySz -> blen (pkcs1_block keySz d) = keySz.
Proof.
  intros Hd. unfold pkcs1_block, blen in *. cbn [length app]. rewrite !length_app, length_replicate. cbn [length]. lia.
Qed.

Lemma normalized_size keySz sig : 0 <= keySz -> blen (normalized keySz sig) = keySz.
Proof.
  intros Hk. unfold normalized. pose proof (blen_nonneg sig). destruct (Z.ltb_spec (blen sig) keySz).
  - rewrite blen_app, blen_zeros; lia.
  - rewrite (blen_slice sig); lia.
Qed.

(** What the check is for: the signature, as a number of the key's size below the
    modulus, opens to the padded digest. *)
Definition rsa_accepted `{PubKeys} (sig d : bytes) (key : RsaKey) : Prop :=
  let keySz := wc_RsaEncryptSize key in
  blen d + RSA_MIN_PAD_SZ <= keySz /\
  (mp_count_bits key <> 0 -> exists e n, wc_RsaFlattenPublicKey key keySz = inl (e, n) /\ blen n = keySz /\
     be_value (normalized keySz sig) < be_value n) /\
  wc_RsaFunction (normalized keySz sig) key = Some (pkcs1_block keySz d).

Lemma normalized_bytes keySz sig : Forall is_byte sig -> Forall is_byte (normalized keySz sig).
Proof.
  intros Hb. unfold normalized. destruct (_ <? _).
  - apply Forall_app. split; [|done]. unfold zeros. apply Forall_replicate. unfold is_byte. lia.
  - unfold slice. by apply Forall_take, Forall_drop.
Qed.

Section RsaVerify.
Context `{PubKeys} (key : RsaKey) (d sig : bytes).
Hypothesis key_bytes : forall e n, wc_RsaFlattenPublicKey key (wc_RsaEncryptSize key) = inl (e, n) -> Forall is_byte n.
Hypothesis sig_bytes : Forall is_byte sig.

(** The signature against the modulus. *)
Lemma modulus_check s Q :
  let keySz := wc_RsaEncryptSize key in
  0 < keySz ->
  ((mp_count_bits key <> 0 -> exists e n, wc_RsaFlattenPublicKey key keySz = inl (e, n) /\ blen n = keySz /\
     be_value (normalized keySz sig) < be_value n) -> Q (inl tt) s) ->
  (~ (mp_count_bits key <> 0 -> exists e n, wc_RsaFlattenPublicKey key keySz = inl (e, n) /\ blen n = keySz /\
     be_value (normalized keySz sig) < be_value n) -> Q (inr WS_RSA_E) s) ->
  wp (when (negb (mp_count_bits key =? 0)) (
      '(_, n) ← or_recode WS_RSA_E (wc_RsaFlattenPublicKey key keySz);
      guard_err (negb (blen n =? keySz)) WS_RSA_E;;
      guard_err (0 <=? BigEndianCompare (normalized keySz sig) n) WS_RSA_E)) Q s.
Proof.
  intros keySz Hk Hok Herr. apply wp_when; intros E.
  2: { apply Hok. apply negb_false_iff, Z.eqb_eq in E. by intros []. }
  apply negb_true_iff, Z.eqb_neq in E.
  apply wp_bind. destruct (wc_RsaFlattenPublicKey key keySz) as [[ex n]|] eqn:En; unfold or_recode.
  2: { apply wp_fail, Herr. intros Hn. by destruct (Hn E) as (?&?&?&_). }
  apply wp_ret. cbv beta iota. apply wp_bind, wp_guard; intros El; [|apply wp_guard; intros Ec].
  - apply Herr. intros Hn. destruct (Hn E) as (e'&n'&[= <- <-]&El'&_). by rewrite El', Z.eqb_refl in El.
  - apply Herr. intros Hn. destruct (Hn E) as (e'&n'&[= <- <-]&El'&Hv).
    apply BigEndianCompare_value in Hv; [apply Z.leb_le in Ec; lia| |by apply normalized_bytes|by eapply key_bytes].
    pose proof (normalized_size keySz sig ltac:(lia)). unfold blen in *. lia.
  - apply negb_false_iff, Z.eqb_eq in El. apply Z.leb_gt in Ec. apply Hok. intros _. exists ex, n. split; [done|]. split; [done|].
    apply BigEndianCompare_value; [|by apply normalized_bytes|by eapply key_bytes|lia].
    pose proof (normalized_size keySz sig ltac:(lia)). unfold blen in *. lia.
Qed.

Lemma RsaVerify_run s :
  blen d < 2 ^ 31 -> default true (head (mallocs s)) = true ->
  wp (wolfSSH_RsaVerify (Some sig) d key) (fun r s' =>
    match r with
    | inl _ => rsa_accepted sig d key /\ s' = s <| mallocs := tail (mallocs s) |>
    | inr e => ~ rsa_accepted sig d key /\ e = WS_RSA_E
    end) s.
Proof.
  intros Hd Hm. unfold wolfSSH_RsaVerify, rsa_accepted. cbv zeta. set (keySz := wc_RsaEncryptSize key).
  pose proof (blen_nonneg d). unfold RSA_MIN_PAD_SZ.
  apply wp_bind, wp_guard; intros E1; [apply Z.leb_le in E1; split; [lia|done]|apply Z.leb_gt in E1].
  rewrite wrap32_small by lia.
  apply wp_bind, wp_guard; intros E2; [apply Z.ltb_lt in E2; split; [lia|done]|apply Z.ltb_ge in E2].
  apply wp_bind. eapply wp_run; [apply malloc_run|]. cbv beta iota. rewrite Hm.
  apply wp_bind, wp_guard; [done|]; intros _.
  apply wp_bind, modulus_check; [done| |intros Hn; split; [tauto|done]]. intros Hn.
  apply wp_bind. destruct (wc_RsaFunction _ key) as [b|]; unfold or_code.
  2: { apply wp_fail. split; [|done]. by intros (_&_&?). }
  pose proof (pkcs1_size keySz d ltac:(lia)) as Hb.
  apply wp_ret, wp_bind, wp_guard; intros E3.
  { split; [|done]. intros (_&_&[= ->]). by rewrite Hb, Z.eqb_refl in E3. }
  apply negb_false_iff, Z.eqb_eq in E3.
  destruct (ConstantCompare_iff b (pkcs1_block keySz d) keySz) as (c&Ec&Hc); [lia..|].
  apply wp_bind. eapply wp_deref; [exact Ec|]. cbv beta iota.
  assert (c = 0 <-> b = pkcs1_block keySz d) as Hc'.
  { rewrite Hc. by rewrite (slice_all b), (slice_all (pkcs1_block keySz d)) by lia. }
  apply wp_guard; intros E4.
  - apply negb_true_iff, Z.eqb_neq in E4. split; [|done]. intros (_&_&[= ->]). by apply E4, Hc'.
  - apply negb_false_iff, Z.eqb_eq in E4. split; [|done]. split; [lia|]. split; [done|]. f_equal. by apply Hc'.
Qed.
End RsaVerify.

(** the RSA check. On a key the library keeps as bytes, [wolfSSH_RsaVerify]
    accepts a signature exactly when its number, in a block of the key's size, is
    below the modulus and the public key operation turns it into the whole block
    00 01 FF...FF 00 and the encoded digest, which leaves room for no other
    padding (RFC 8332 section 3); every other signature is [WS_RSA_E], and no
    comparison or copy leaves its array. *)
Theorem wolfSSH_RsaVerify_spec `{PubKeys} (key : RsaKey) (d sig : bytes) (s : WOLFSSH) :
  (forall e n, wc_RsaFlattenPublicKey key (wc_RsaEncryptSize key) = inl (e, n) -> Forall is_byte n) ->
  Forall is_byte sig -> blen d < 2 ^ 31 -> default true (head (mallocs s)) = true ->
  match wolfSSH_RsaVerify (Some sig) d key s with
  | (Ok _, s') => rsa_accepted sig d key /\ s' = s <| mallocs := tail (mallocs s) |>
  | (Err e, _) => ~ rsa_accepted sig d key /\ e = WS_RSA_E
  | (UB, _) => False
  end.
Proof. intros Hk Hs Hd Hm. apply (RsaVerify_run key d sig Hk Hs s Hd Hm). Qed.

(** Bytes after a whole signature are not looked at. *)
Lemma wolfSSH_RsaVerify_tail `{PubKeys} (key : RsaKey) (d sig more : bytes) :
  blen sig = wc_RsaEncryptSize key -> wolfSSH_RsaVerify (Some (sig ++ more)) d key = wolfSSH_RsaVerify (Some sig) d key.
Proof.
  intros Hl. unfold wolfSSH_RsaVerify. cbv zeta.
  replace (normalized (wc_RsaEncryptSize key) (sig ++ more)) with (normalized (wc_RsaEncryptSize key) sig); [done|].
  unfold normalized. rewrite <- Hl, blen_app, Z.ltb_irrefl. pose proof (blen_nonneg more).
  destruct (Z.ltb_spec (blen sig + blen more) (blen sig)); [lia|].
  rewrite slice_full, slice_app_l by lia. by rewrite slice_full.
Qed.

(** A number without the zeros in front. *)
Fixpoint without_zeros (b : bytes) : bytes :=
  match b with 0 :: b => without_zeros b | _ => b end.


(** Keys that are their size in bytes, with the identity for the public key
    operation; every other signature is the message it signs. *)
#[export] Instance toy_keys : PubKeys := {|
  RsaKey := Z;
  wc_InitRsaKey := 0;
  wc_RsaPublicKeyDecodeRaw n _ := Ok (blen n);
  wc_RsaPublicKeyDecode der := inl (blen der);
  mp_count_bits k := 8 * k;
  wc_RsaEncryptSize k := k;
  wc_RsaFlattenPublicKey k _ := inl ([3], replicate (Z.to_nat k) 0xFF);
  wc_RsaFunction sig _ := Some sig;
  wc_EncodeSignature digest _ := digest;
  ecc_key := bytes * ecc_curve_id;
  wc_ecc_init_ex := 0;
  wc_ecc_import_x963_ex q curve := Ok (q, curve);
  wc_ecc_import_x963 q := Ok (q, ECC_SECP256R1);
  wc_EccPublicKeyDecode der := Ok (der, ECC_SECP256R1);
  ecc_curve := snd;
  wc_ecc_rs_raw_to_sig r s room :=
    let sig := without_zeros r ++ without_zeros s in if blen sig <=? room then Ok sig else Err WS_BUFFER_E;
  ECC_MAX_SIG_SIZE := 256;
  wc_SignatureVerifyHash _ digest sig _ := if bytes_eqb (without_zeros digest) sig then Ok tt else Err WS_CRYPTO_FAILED;
  ed25519_key := bytes;
  wc_ed25519_init_ex := 0;
  wc_ed25519_import_public q := Ok q;
  wc_ed25519_verify_msg_init _ _ := Ok [];
  wc_ed25519_verify_msg_update d k := Ok (k ++ d);
  wc_ed25519_verify_msg_final sig k := Some (bytes_eqb sig k);
  wc_ed25519_verify_msg sig m _ := Ok (bytes_eqb sig (slice m 0 (blen sig)));
  wc_Hash t m := Ok (toy_digest t m);
  MlDsaKey := bytes;
  wc_MlDsaKey_Init _ := inl [];
  wc_MlDsaKey_ImportPubRaw b _ := Ok b;
  wc_MlDsaKey_PublicKeyDecode b _ := Ok b;
  wc_MlDsaKey_VerifyCtx _ sig ctx msg := Some (bytes_eqb (drop (length sig - length (ctx ++ msg)) sig) (ctx ++ msg));
  wc_ParseCert _ := 0;
  wc_GetPubKeyDerSize b := Ok (blen b);
  wc_GetPubKeyDerFromCert b := Ok b
|}.

Lemma bytes_checked b : forallb (fun x => (0 <=? x) && (x <? 2 ^ 8)) b = true -> Forall is_byte b.
Proof.
  intros E. apply Forall_forall. intros x Hx. rewrite forallb_forall in E.
  apply E, andb_true_iff in Hx as [?%Z.leb_le ?%Z.ltb_lt]. by split.
Qed.

Example wolfSSH_RsaVerify_spec_witness :
  let sig := pkcs1_block 32 [1; 2; 3] in
  (wolfSSH_RsaVerify (H := toy_keys) (Some sig) [1; 2; 3] 32 (new_session [])).1 = Ok tt /\
  match wolfSSH_RsaVerify (H := toy_keys) (Some sig) [1; 2; 3] 32 (new_session []) with
  | (Ok _, s') => rsa_accepted (H := toy_keys) sig [1; 2; 3] 32 /\
      s' = (new_session []) <| mallocs := tail (mallocs (new_session [])) |>
  | (Err e, _) => ~ rsa_accepted (H := toy_keys) sig [1; 2; 3] 32 /\ e = WS_RSA_E
  | (UB, _) => False
  end.
Proof.
  split; [by vm_compute|].
  apply (wolfSSH_RsaVerify_spec (H := toy_keys) 32 [1; 2; 3] (pkcs1_block 32 [1; 2; 3]) (new_session [])).
  - intros e n [= <- <-]. by apply bytes_checked.
  - by apply bytes_checked.
  - done.
  - done.
Defined.
