(* ===== verification/Ossh.v ===== *)
(** OpenSSH certificates (ossh.c): the parser [OsshCertParse], the checks of type
    and options, and the verification of the CA's signature.

    What is shown: a certificate that parses is the unique encoding of its fields
    with nothing after it, the CA signs all of it but the signature, and a
    restriction the certificate carries is either extracted or the certificate is
    refused. *)

From S2P Require Import Prelude Codes Wire Names Buffer Fwd Algos Kdf Session Samples MsgFilter Transport.
From S2P Require Import Send UserSig.

(** [WS_OsshCert]; a pointer into the blob is the bytes it points at. *)
Record WS_OsshCert := mkCert {
  signedBlob : bytes;       (* blob[0 .. signedLen) *)
  baseTypeId : AlgoId;
  nonce : bytes;
  userKeyParms : bytes;
  serial : Z;
  certType : Z;
  keyId : bytes;
  c_principals : bytes;
  c_validAfter : Z;
  c_validBefore : Z;
  critOpts : bytes;
  extensions : bytes;
  c_caKey : bytes;
  caKeyType : bytes;
  c_signature : bytes;
  c_forceCommand : option bytes;
  c_sourceAddress : option bytes
}.
#[export] Instance eta_cert : Eta WS_OsshCert := fun c =>
  mkCert (signedBlob c) (baseTypeId c) (nonce c) (userKeyParms c) (serial c) (certType c) (keyId c)
    (c_principals c) (c_validAfter c) (c_validBefore c) (critOpts c) (extensions c) (c_caKey c)
    (caKeyType c) (c_signature c) (c_forceCommand c) (c_sourceAddress c).

Definition OsshCertBaseId (certId : AlgoId) : AlgoId :=
  match certId with
  | ID_OSSH_CERT_RSA => ID_SSH_RSA
  | ID_OSSH_CERT_ECDSA_SHA2_NISTP256 => ID_ECDSA_SHA2_NISTP256
  | ID_OSSH_CERT_ECDSA_SHA2_NISTP384 => ID_ECDSA_SHA2_NISTP384
  | ID_OSSH_CERT_ECDSA_SHA2_NISTP521 => ID_ECDSA_SHA2_NISTP521
  | ID_OSSH_CERT_ED25519 => ID_ED25519
  | _ => ID_UNKNOWN
  end.

Definition OsshRsaCertSigId (peerSigId : list AlgoId) : AlgoId :=
  if existsb (id_eqb ID_RSA_SHA2_512) peerSigId then ID_RSA_SHA2_512 else ID_RSA_SHA2_256.

(** ** Parsing *)

(** A string, or a number, as the bytes it points at. *)
Definition field : parser bytes := fun buf len =>
  '(_, r) ← GetStringRef buf len; mret (ref_bytes r).
Definition mpint_field : parser bytes := fun buf len =>
  '(_, r) ← GetMpint buf len; mret (ref_bytes r).

Definition OsshSkipUserKey (baseId : AlgoId) : parser unit := fun blob len =>
  match baseId with
  | ID_SSH_RSA => mpint_field blob len;; mpint_field blob len;; mret tt
  | ID_ECDSA_SHA2_NISTP256 | ID_ECDSA_SHA2_NISTP384 | ID_ECDSA_SHA2_NISTP521 =>
    field blob len;; field blob len;; mret tt
  | ID_ED25519 => field blob len;; mret tt
  | _ => fail WS_INVALID_ALGO_ID
  end.

Definition parse_cert (typeId : AlgoId) (blob : bytes) (blobSz : Z) : ST Z WS_OsshCert :=
  guard_err (id_eqb (OsshCertBaseId typeId) ID_UNKNOWN) WS_INVALID_ALGO_ID;;
  name ← field blob blobSz;
  guard_err (negb (id_eqb (NameToId name) typeId)) WS_INVALID_ALGO_ID;;
  nonce ← field blob blobSz;
  ukStart ← get;
  OsshSkipUserKey (OsshCertBaseId typeId) blob blobSz;;
  idx ← get;
  let userKeyParms := slice blob ukStart (idx -w ukStart) in
  serial ← GetUint64 blob blobSz;
  certType ← GetUint32 blob blobSz;
  keyId ← field blob blobSz;
  principals ← field blob blobSz;
  validAfter ← GetUint64 blob blobSz;
  validBefore ← GetUint64 blob blobSz;
  critOpts ← field blob blobSz;
  extensions ← field blob blobSz;
  field blob blobSz;;
  caKey ← field blob blobSz;
  caKeyType ← lift_res (field caKey (blen caKey) 0).1;
  signedLen ← get;
  signature ← field blob blobSz;
  idx ← get;
  guard_err (negb (idx =? blobSz)) WS_PARSE_E;;
  mret (mkCert (slice blob 0 signedLen) (OsshCertBaseId typeId) nonce userKeyParms serial certType keyId
    principals validAfter validBefore critOpts extensions caKey caKeyType signature None None).

Definition OsshCertParse (typeId : AlgoId) (blob : bytes) : res WS_OsshCert :=
  if blen blob =? 0 then Err WS_BAD_ARGUMENT else (parse_cert typeId blob (blen blob) 0).1.

(** ** Checks *)

Definition is_ca_key (id : AlgoId) : bool :=
  match id with
  | ID_SSH_RSA | ID_ECDSA_SHA2_NISTP256 | ID_ECDSA_SHA2_NISTP384 | ID_ECDSA_SHA2_NISTP521 | ID_ED25519 => true
  | _ => false
  end.

Definition OsshCertCheckType (cert : WS_OsshCert) : Z :=
  if negb (certType cert =? WOLFSSH_OSSH_CERT_TYPE_USER) then WS_INVALID_ALGO_ID
  else if negb (is_ca_key (NameToId (caKeyType cert))) then WS_INVALID_ALGO_ID
  else WS_SUCCESS.

(** [WMEMCMP] over the common length, then the lengths. *)
Fixpoint OsshNameCmp (a b : bytes) : Z :=
  match a, b with
  | [], [] => 0
  | [], _ => -1
  | _, [] => 1
  | x :: a, y :: b => if x =? y then OsshNameCmp a b else if x <? y then -1 else 1
  end.

Definition OsshNameEq (a lit : bytes) : bool := bytes_eqb a lit.

(** The single string an option's data must be. *)
Definition option_data (data : bytes) : res bytes :=
  let '(r, di) := field data (blen data) 0 in
  match r with
  | Ok v => if blen v =? 0 then Err WS_PARSE_E else if negb (di =? blen data) then Err WS_PARSE_E else Ok v
  | Err e => Err e
  | UB => UB
  end.

(** One critical option. *)
Definition critical_option (name data : bytes) (cert : WS_OsshCert) : res WS_OsshCert :=
  if OsshNameEq name (str "force-command") then
    match option_data data with
    | Ok v => Ok (cert <| c_forceCommand := Some v |>)
    | Err e => Err e
    | UB => UB
    end
  else if OsshNameEq name (str "source-address") then
    match option_data data with
    | Ok v => Ok (cert <| c_sourceAddress := Some v |>)
    | Err e => Err e
    | UB => UB
    end
  else Err WS_UNIMPLEMENTED_E.

(** The options, in strictly ascending order of their names; [prev] is the name
    before, [None] where the pointer is NULL. Each turn moves the index, so as
    many turns as there are bytes are enough. *)
Fixpoint critical_options (fuel : nat) (opts : bytes) (prev : option bytes) (cert : WS_OsshCert)
    : ST Z WS_OsshCert :=
  idx ← get;
  if idx <? blen opts then
    match fuel with
    | O => ub
    | S n =>
      '(_, name) ← GetStringRef opts (blen opts);
      guard_err (match prev with Some p => 0 <=? OsshNameCmp p (ref_bytes name) | None => false end) WS_PARSE_E;;
      data ← field opts (blen opts);
      cert ← lift_res (critical_option (ref_bytes name) data cert);
      critical_options n opts name cert
    end
  else mret cert.

(** Extensions only have to parse. *)
Fixpoint all_extensions (fuel : nat) (exts : bytes) : ST Z unit :=
  idx ← get;
  if idx <? blen exts then
    match fuel with
    | O => ub
    | S n => field exts (blen exts);; field exts (blen exts);; all_extensions n exts
    end
  else mret tt.

Definition OsshCertCheckOptions (cert : WS_OsshCert) : res WS_OsshCert :=
  let cert := cert <| c_forceCommand := None |> <| c_sourceAddress := None |> in
  match (critical_options (length (critOpts cert)) (critOpts cert) None cert 0).1 with
  | Ok cert =>
    match (all_extensions (length (extensions cert)) (extensions cert) 0).1 with
    | Ok _ => Ok cert
    | Err e => Err e
    | UB => UB
    end
  | Err e => Err e
  | UB => UB
  end.

(** ** The CA's signature *)

Section OsshVerify.
Context `{PubKeys}.

(** Where the key itself starts in the CA's blob. *)
Definition after_type (cert : WS_OsshCert) : Z := blen (caKeyType cert) +w LENGTH_SZ.

Definition OsshVerifyEd25519 (cert : WS_OsshCert) : M unit :=
  mem ← malloc;
  guard_err (negb mem) WS_MEMORY_E;;
  let sigSz := blen (c_signature cert) in
  '((_, a), _) ← parse GetStringRef (c_caKey cert) (blen (c_caKey cert)) (after_type cert);
  '(_, i) ← parse GetSkip (c_signature cert) sigSz 0;
  '((_, sig), _) ← parse GetStringRef (c_signature cert) sigSz i;
  ret_code wc_ed25519_init_ex;;
  key ← lift_res (wc_ed25519_import_public (ref_bytes a));
  verified ← lift_res (wc_ed25519_verify_msg (ref_bytes sig) (signedBlob cert) key);
  guard_err (negb verified) WS_ED25519_E.

(** The hash an RSA signature names; SHA-1 is disabled. *)
Definition rsa_sig_hash (sigType : bytes) : option wc_HashType :=
  if bytes_eqb sigType (str "rsa-sha2-256") then Some WC_HASH_TYPE_SHA256
  else if bytes_eqb sigType (str "rsa-sha2-512") then Some WC_HASH_TYPE_SHA512
  else None.

Definition OsshVerifyRsa (cert : WS_OsshCert) : M unit :=
  mem ← malloc;
  guard_err (negb mem) WS_MEMORY_E;;
  let keySz := blen (c_caKey cert) in
  let sigSz := blen (c_signature cert) in
  '((_, e), i) ← parse GetMpint (c_caKey cert) keySz (after_type cert);
  '((_, n), _) ← parse GetMpint (c_caKey cert) keySz i;
  '((_, sigType), i) ← parse GetStringRef (c_signature cert) sigSz 0;
  '((_, sig), _) ← parse GetStringRef (c_signature cert) sigSz i;
  hashType ← or_code WS_INVALID_ALGO_ID (rsa_sig_hash (ref_bytes sigType));
  ret_code wc_InitRsaKey;;
  key ← lift_res (wc_RsaPublicKeyDecodeRaw (ref_bytes n) (ref_bytes e));
  digest ← lift_res (wc_Hash hashType (signedBlob cert));
  let encDigest := wc_EncodeSignature digest hashType in
  guard_err (blen encDigest =? 0) WS_CRYPTO_FAILED;;
  wolfSSH_RsaVerify sig encDigest key.

(** The hash and the curve of the CA's key. *)
Definition ca_curve (id : AlgoId) : option (wc_HashType * AlgoId) :=
  match id with
  | ID_ECDSA_SHA2_NISTP256 => Some (WC_HASH_TYPE_SHA256, ID_CURVE_NISTP256)
  | ID_ECDSA_SHA2_NISTP384 => Some (WC_HASH_TYPE_SHA384, ID_CURVE_NISTP384)
  | ID_ECDSA_SHA2_NISTP521 => Some (WC_HASH_TYPE_SHA512, ID_CURVE_NISTP521)
  | _ => None
  end.

Definition OsshVerifyEcc (cert : WS_OsshCert) : M unit :=
  mem ← malloc;
  guard_err (negb mem) WS_MEMORY_E;;
  let keySz := blen (c_caKey cert) in
  let sigSz := blen (c_signature cert) in
  '(hashType, curveId) ← or_code WS_INVALID_ALGO_ID (ca_curve (NameToId (caKeyType cert)));
  '((_, curveName), i) ← parse GetStringRef (c_caKey cert) keySz (after_type cert);
  guard_err (negb (id_eqb (NameToId (ref_bytes curveName)) curveId)) WS_INVALID_ALGO_ID;;
  '((_, q), _) ← parse GetStringRef (c_caKey cert) keySz i;
  '(_, i) ← parse GetSkip (c_signature cert) sigSz 0;
  '((sigBlobSz, sigBlob), _) ← parse GetStringRef (c_signature cert) sigSz i;
  '((_, r), i) ← parse GetMpint (ref_bytes sigBlob) sigBlobSz 0;
  '((_, s), _) ← parse GetMpint (ref_bytes sigBlob) sigBlobSz i;
  ret_code wc_ecc_init_ex;;
  key ← lift_res (wc_ecc_import_x963 (ref_bytes q));
  asnSig ← lift_res (wc_ecc_rs_raw_to_sig (ref_bytes r) (ref_bytes s) ECC_MAX_SIG_SIZE);
  digest ← lift_res (wc_Hash hashType (signedBlob cert));
  lift_res (wc_SignatureVerifyHash hashType digest asnSig key).

Definition OsshCertVerifySignature (cert : WS_OsshCert) : M unit :=
  guard_err ((blen (c_caKey cert) =? 0) || (blen (c_signature cert) =? 0)) WS_BAD_ARGUMENT;;
  match NameToId (caKeyType cert) with
  | ID_SSH_RSA => OsshVerifyRsa cert
  | ID_ECDSA_SHA2_NISTP256 | ID_ECDSA_SHA2_NISTP384 | ID_ECDSA_SHA2_NISTP521 => OsshVerifyEcc cert
  | ID_ED25519 => OsshVerifyEd25519 cert
  | _ => fail WS_INVALID_ALGO_ID
  end.
End OsshVerify.

(** ** Readers that consume exactly an encoding *)

(** From anywhere in a message, what [p] reads is encoded there by [e], and the
    index is moved past it; it never leaves the message. *)
Class Exact {A} (p : parser A) (e : A -> bytes) : Prop :=
  exact_read : forall before rest, is_word32 (blen (before ++ rest)) -> Forall is_byte (before ++ rest) ->
    match p (before ++ rest) (blen (before ++ rest)) (blen before) with
    | (Ok a, j) => exists rest', rest = e a ++ rest' /\ j = blen (before ++ e a)
    | (Err _, _) => True
    | (UB, _) => False
    end.

Lemma ato32_inv r v : Forall is_byte r -> ato32 r = Some v -> r = c32toa v ++ drop 4 r.
Proof.
  intros Hb E. destruct r as [|c0 [|c1 [|c2 [|c3 r]]]]; try done.
  assert (Forall is_byte [c0; c1; c2; c3]) as Hc.
  { rewrite !Forall_cons_iff in Hb |- *. repeat split; try constructor; apply Hb. }
  rewrite ato32_value in E by done. injection E as <-. by rewrite c32toa_of_bytes.
Qed.

Lemma message_at before rest :
  is_word32 (blen (before ++ rest)) -> Forall is_byte (before ++ rest) ->
  msg_ok (before ++ rest) (blen (before ++ rest)) /\ is_word32 (blen before) /\ Forall is_byte rest.
Proof.
  intros Hl Hb. pose proof (blen_nonneg before). pose proof (blen_nonneg rest). split; [by split|].
  rewrite blen_app in Hl. split; [clia|]. by apply Forall_app in Hb as [_ Hb].
Qed.

#[export] Instance exact_uint32 : Exact GetUint32 c32toa.
Proof.
  intros before rest Hl Hb. destruct (message_at _ _ Hl Hb) as (Hm&Hi&Hr).
  destruct (GetUint32_spec _ _ _ Hm Hi) as [(_&v&Hv&Ha&->)|[_ ->]]; [|done].
  rewrite drop_before in Ha. exists (drop 4 rest). split; [by apply ato32_inv|].
  by rewrite blen_app, c32toa_length.
Qed.

Lemma string_here before rest sz :
  is_word32 (blen (before ++ rest)) -> Forall is_byte (before ++ rest) ->
  blen before + UINT32_SZ + sz <= blen (before ++ rest) -> is_word32 sz ->
  ato32 (drop (Z.to_nat (blen before)) (before ++ rest)) = Some sz ->
  let d := slice (before ++ rest) (blen before + UINT32_SZ) sz in
  exists rest', rest = wstring d ++ rest' /\ blen d = sz.
Proof.
  intros Hl Hb Hle Hsz Ha d. destruct (message_at _ _ Hl Hb) as (_&_&Hr). rewrite drop_before in Ha.
  pose proof (ato32_inv _ _ Hr Ha) as E. pose proof (blen_nonneg before).
  assert (blen (drop 4 rest) = blen rest - 4) as El.
  { rewrite E at 2. rewrite blen_app, c32toa_length. clia. }
  assert (d = take (Z.to_nat sz) (drop 4 rest)) as Ed.
  { unfold d, slice. replace (Z.to_nat (blen before + UINT32_SZ)) with (Z.to_nat (blen before) + 4)%nat by clia.
    by rewrite <- drop_drop, drop_before. }
  rewrite blen_app in Hle.
  assert (blen d = sz) as Hd.
  { rewrite Ed. unfold blen in *. rewrite length_take. clia. }
  exists (drop (Z.to_nat sz) (drop 4 rest)). split; [|done].
  unfold wstring. rewrite Hd, Ed, <- app_assoc, take_drop. exact E.
Qed.

#[export] Instance exact_field : Exact field wstring.
Proof.
  intros before rest Hl Hb. destruct (message_at _ _ Hl Hb) as (Hm&Hi&_). unfold field.
  destruct (GetStringRef_spec _ _ _ Hm Hi) as [(sz&Hs&Hle&Ha&E)|(i&_&E)].
  2: { by rewrite (ST_bind_err _ _ _ _ _ E). }
  rewrite (ST_bind_ok _ _ _ _ _ E). cbn -[slice wstring].
  destruct (string_here before rest sz Hl Hb Hle Hs Ha) as (rest'&Er&Ed).
  assert (ref_bytes (if sz =? 0 then None else Some (slice (before ++ rest) (blen before + UINT32_SZ) sz))
    = slice (before ++ rest) (blen before + UINT32_SZ) sz) as Eq.
  { destruct (Z.eqb_spec sz 0) as [->|]; [|done]. by rewrite slice_zero. }
  exists rest'. rewrite Eq. split; [done|]. unfold wstring. rewrite !blen_app, c32toa_length, Ed. clia.
Qed.

#[export] Instance exact_mpint : Exact mpint_field wstring.
Proof.
  intros before rest Hl Hb. pose proof (exact_field before rest Hl Hb) as Hf. revert Hf.
  unfold field, mpint_field, GetMpint, mbind, ST_bind.
  destruct (message_at _ _ Hl Hb) as (Hm&Hi&_).
  destruct (GetStringRef_spec _ _ _ Hm Hi) as [(sz&Hs&Hle&_&->)|(i&_&->)]; [|done].
  destruct (Z.ltb_spec 0 sz); [|done]. rewrite (proj2 (Z.eqb_neq sz 0)) by lia.
  assert (blen (slice (before ++ rest) (blen before + UINT32_SZ) sz) = sz) as El by (apply blen_slice; clia).
  destruct (rd_some (slice (before ++ rest) (blen before + UINT32_SZ) sz) 0) as [b Hrd]; [lia|].
  cbn -[slice rd]. rewrite Hrd. cbn -[slice]. by destruct (truthy _).
Qed.

Lemma uint64_halves hi lo : is_word32 hi -> is_word32 lo ->
  encode_uint64 (Z.lor (Z.shiftl hi 32) lo) = c32toa hi ++ c32toa lo.
Proof.
  unfold is_word32. intros Hh Hl. unfold encode_uint64. f_equal; f_equal.
  - rewrite Z.shiftr_lor, Z.shiftr_shiftl_l, Z.shiftl_0_r by lia.
    rewrite (Z.shiftr_div_pow2 lo) by lia. rewrite Z.div_small by lia. apply Z.lor_0_r.
  - rewrite Z.land_lor_distr_l, !Z.land_ones by lia. rewrite Z.shiftl_mul_pow2, Z.mod_mul by lia.
    by rewrite Z.mod_small by lia.
Qed.

#[export] Instance exact_uint64 : Exact GetUint64 encode_uint64.
Proof.
  intros before rest Hl Hb. destruct (message_at _ _ Hl Hb) as (Hm&Hi&Hr).
  unfold GetUint64, mbind, ST_bind.
  destruct (GetUint32_spec _ _ _ Hm Hi) as [(Hle&hi&Hhi&Ha&->)|[_ ->]]; [|done].
  rewrite drop_before in Ha. pose proof (ato32_inv _ _ Hr Ha) as E.
  set (rest1 := drop 4 rest) in *. clearbody rest1. subst rest.
  rewrite app_assoc in *. destruct (message_at _ _ Hl Hb) as (Hm1&Hi1&Hr1).
  rewrite blen_app, c32toa_length in Hi1.
  destruct (GetUint32_spec _ _ _ Hm1 Hi1) as [(Hle1&lo&Hlo&Ha1&->)|[_ ->]]; [|done].
  replace (blen before + UINT32_SZ) with (blen (before ++ c32toa hi)) in * by (by rewrite blen_app, c32toa_length).
  rewrite drop_before in Ha1. exists (drop 4 rest1). rewrite uint64_halves by done.
  rewrite <- app_assoc. split; [f_equal; by apply ato32_inv|].
  rewrite !blen_app, !c32toa_length. lia.
Qed.

(** The message [buf] has been read up to [i], which leaves [rest]. *)
Record read_to (buf : bytes) (i : Z) (before rest : bytes) : Prop := {
  rt_buf : buf = before ++ rest;
  rt_idx : i = blen before;
  rt_len : is_word32 (blen buf);
  rt_bytes : Forall is_byte buf
}.

Lemma wp_exact {A} (p : parser A) (e : A -> bytes) `{!Exact p e} buf i before rest (Q : A + Z -> Z -> Prop) :
  read_to buf i before rest ->
  (forall a j rest', read_to buf j (before ++ e a) rest' -> Q (inl a) j) -> (forall c j, Q (inr c) j) ->
  wp (p buf (blen buf)) Q i.
Proof.
  intros [-> -> Hl Hb] HQ HE. unfold wp. pose proof (exact_read before rest Hl Hb) as H.
  destruct (p _ _ _) as [[a|c|] j]; [|done..]. destruct H as (rest'&Er&->). apply (HQ a _ rest').
  split; [by rewrite <- app_assoc, Er|done..].
Qed.

Lemma read_to_part buf i before rest : read_to buf i before rest -> 0 <= i <= blen buf /\ is_word32 i.
Proof.
  intros [-> -> Hl _]. pose proof (blen_nonneg before). pose proof (blen_nonneg rest). rewrite blen_app in *. clia.
Qed.

Lemma read_to_last buf j before d rest :
  read_to buf j (before ++ wstring d) rest -> is_word32 (blen d) /\ Forall is_byte d.
Proof.
  intros R. destruct (read_to_part _ _ _ _ R) as [_ Hj]. destruct R as [-> -> _ Hb].
  apply Forall_app in Hb as [Hb _]. apply Forall_app in Hb as [_ Hb]. unfold wstring in *.
  apply Forall_app in Hb as [_ Hb]. split; [|done].
  rewrite !blen_app, c32toa_length in Hj. pose proof (blen_nonneg d). pose proof (blen_nonneg before). clia.
Qed.

Lemma read_to_end buf i before rest : read_to buf i before rest -> i = blen buf -> rest = [].
Proof. intros [-> -> _ _] E. rewrite blen_app in E. apply blen_zero_iff. lia. Qed.

Lemma read_to_prefix buf i before rest : read_to buf i before rest -> slice buf 0 i = before.
Proof. intros [-> -> _ _]. by rewrite slice_app_l, slice_full by lia. Qed.

Lemma read_to_slice buf i j before part rest rest' :
  read_to buf i before rest -> read_to buf j (before ++ part) rest' -> slice buf i (j -w i) = part.
Proof.
  intros [_ -> _ _] R. destruct (read_to_part _ _ _ _ R) as [_ Hj]. destruct R as [-> -> _ _].
  pose proof (blen_nonneg before). pose proof (blen_nonneg part). rewrite blen_app in *.
  rewrite wrap32_small by clia. replace (blen before + blen part - blen before) with (blen part) by lia.
  rewrite <- app_assoc. apply slice_app_here.
Qed.

(** The user's key, whatever its fields. *)
Lemma wp_user_key id buf i before rest (Q : unit + Z -> Z -> Prop) :
  read_to buf i before rest ->
  (forall uk j rest', read_to buf j (before ++ uk) rest' -> Q (inl tt) j) -> (forall c j, Q (inr c) j) ->
  wp (OsshSkipUserKey id buf (blen buf)) Q i.
Proof.
  intros Hr HQ HE.
  assert (wp (field buf (blen buf);; field buf (blen buf);; mret tt) Q i) as H2.
  { apply wp_bind. eapply (wp_exact field wstring); [exact Hr|intros a j r Ha|by intros].
    apply wp_bind. eapply (wp_exact field wstring); [exact Ha|intros b j' r' Hb|by intros].
    apply wp_ret. rewrite <- app_assoc in Hb. by eapply HQ. }
  unfold OsshSkipUserKey. destruct id; try (by apply wp_fail); try exact H2.
  - apply wp_bind. eapply (wp_exact mpint_field wstring); [exact Hr|intros a j r Ha|by intros].
    apply wp_bind. eapply (wp_exact mpint_field wstring); [exact Ha|intros b j' r' Hb|by intros].
    apply wp_ret. rewrite <- app_assoc in Hb. by eapply HQ.
  - apply wp_bind. eapply (wp_exact field wstring); [exact Hr|intros a j r Ha|by intros]. apply wp_ret. by eapply HQ.
Qed.

(** ** The encoding of a certificate *)

(** What the CA signs. *)
Definition cert_body (name reserved : bytes) (c : WS_OsshCert) : bytes :=
  wstring name ++ wstring (nonce c) ++ userKeyParms c ++ encode_uint64 (serial c) ++ c32toa (certType c)
  ++ wstring (keyId c) ++ wstring (c_principals c) ++ encode_uint64 (c_validAfter c)
  ++ encode_uint64 (c_validBefore c) ++ wstring (critOpts c) ++ wstring (extensions c) ++ wstring reserved
  ++ wstring (c_caKey c).

Record cert_of (typeId : AlgoId) (blob : bytes) (c : WS_OsshCert) (name reserved : bytes) : Prop := {
  co_name : NameToId name = typeId;
  co_base : baseTypeId c = OsshCertBaseId typeId /\ baseTypeId c <> ID_UNKNOWN;
  co_body : signedBlob c = cert_body name reserved c;
  co_blob : blob = signedBlob c ++ wstring (c_signature c);
  co_caType : exists key, c_caKey c = wstring (caKeyType c) ++ key;
  co_options : c_forceCommand c = None /\ c_sourceAddress c = None
}.

Lemma wp_field_of d (Q : bytes + Z -> Z -> Prop) i :
  is_word32 (blen d) -> Forall is_byte d ->
  (forall a, (exists r, d = wstring a ++ r) -> Q (inl a) i) -> (forall c, Q (inr c) i) ->
  wp (lift_res (field d (blen d) 0).1) Q i.
Proof.
  intros Hl Hb HQ HE. pose proof (exact_read (p := field) [] d Hl Hb) as H. change (blen []) with 0 in H.
  rewrite !app_nil_l in H. unfold wp, lift_res. destruct (field d (blen d) 0) as [[a|c|] j]; cbn [fst]; [|by apply HE|done].
  apply HQ. destruct H as (r&->&_). by exists r.
Qed.

Ltac next p e H := apply wp_bind; eapply (wp_exact p e); [exact H|clear H; intros ? ? ? H|by intros]; cbv beta iota zeta.

Lemma parse_cert_run typeId blob :
  is_word32 (blen blob) -> Forall is_byte blob ->
  wp (parse_cert typeId blob (blen blob)) (fun r _ =>
    match r with inl c => exists name reserved, cert_of typeId blob c name reserved | inr _ => True end) 0.
Proof.
  intros Hl Hb. assert (read_to blob 0 [] blob) as R by (by split). unfold parse_cert.
  apply wp_bind, wp_guard; [done|]. intros Hbase.
  apply wp_bind. eapply (wp_exact field wstring); [exact R|clear R; intros name ? ? R|by intros].
  apply wp_bind, wp_guard; [done|]. intros Hname. apply negb_false_iff, id_eqb_spec in Hname.
  next field wstring R. apply wp_bind, wp_get.
  apply wp_bind. pose proof R as R0. eapply wp_user_key; [exact R|clear R; intros uk ? ? R|by intros].
  apply wp_bind, wp_get. cbv zeta.
  rewrite (read_to_slice _ _ _ _ _ _ _ R0 R). clear R0.
  next GetUint64 encode_uint64 R. next GetUint32 c32toa R. next field wstring R. next field wstring R. next GetUint64 encode_uint64 R. next GetUint64 encode_uint64 R.
  next field wstring R. next field wstring R.
  apply wp_bind. eapply (wp_exact field wstring); [exact R|clear R; intros reserved ? ? R|by intros]. cbv beta iota.
  apply wp_bind. eapply (wp_exact field wstring); [exact R|clear R; intros caKey ? ? R|by intros]. cbv beta iota.
  destruct (read_to_last _ _ _ _ _ R) as [Hcl Hcb].
  apply wp_bind, wp_field_of; [done|done| |done]. intros caType Hca.
  apply wp_bind, wp_get. pose proof R as RS.
  next field wstring R. apply wp_bind, wp_get. apply wp_bind, wp_guard; [done|]. intros Hend.
  apply negb_false_iff, Z.eqb_eq in Hend. apply wp_ret. exists name, reserved.
  pose proof (read_to_end _ _ _ _ R Hend) as Er.
  pose proof (read_to_prefix _ _ _ _ RS) as Hs. rewrite !app_nil_l in Hs.
  rewrite !app_nil_l in R. split; cbn -[wstring encode_uint64 c32toa slice].
  - done.
  - split; [done|]. intros E. by rewrite E in Hbase.
  - rewrite Hs. unfold cert_body. cbn -[wstring encode_uint64 c32toa]. by rewrite <- !app_assoc.
  - rewrite Hs. destruct R as [-> _ _ _]. by rewrite Er, app_nil_r.
  - done.
  - done.
Qed.

Lemma OsshCertParse_run typeId blob :
  is_word32 (blen blob) -> Forall is_byte blob ->
  match OsshCertParse typeId blob with
  | Ok c => exists name reserved, cert_of typeId blob c name reserved
  | Err _ => True
  | UB => False
  end.
Proof.
  intros Hl Hb. unfold OsshCertParse. destruct (_ =? 0); [done|].
  pose proof (parse_cert_run typeId blob Hl Hb) as H. unfold wp in H.
  by destruct (parse_cert typeId blob (blen blob) 0) as [[c|e|] j].
Qed.

(** ** Options *)

Definition option_names : list bytes := [str "force-command"; str "source-address"].

(** A restriction as it is encoded, or nothing. *)
Definition option_of (name : bytes) (v : option bytes) : bytes :=
  match v with Some v => wstring name ++ wstring (wstring v) | None => [] end.

(** What the options decoded so far make of the certificate. *)
Definition applied (opts : list (bytes * bytes)) (c : WS_OsshCert) : WS_OsshCert :=
  fold_left (fun c '(n, v) => if bytes_eqb n (str "force-command") then c <| c_forceCommand := Some v |>
                              else c <| c_sourceAddress := Some v |>) opts c.

Definition encode_options (opts : list (bytes * bytes)) : bytes :=
  concat (map (fun '(n, v) => wstring n ++ wstring (wstring v)) opts).

(** Names in strictly ascending order, after [prev]. *)
Fixpoint ascending (prev : option bytes) (opts : list (bytes * bytes)) : Prop :=
  match opts with
  | [] => True
  | (n, _) :: r => match prev with Some p => OsshNameCmp p n < 0 | None => True end /\ ascending (Some n) r
  end.

Definition known_option (o : bytes * bytes) : Prop := o.1 ∈ option_names /\ o.2 <> [].

Lemma option_data_run d :
  is_word32 (blen d) -> Forall is_byte d ->
  match option_data d with Ok v => d = wstring v /\ v <> [] | Err _ => True | UB => False end.
Proof.
  intros Hl Hb. unfold option_data. pose proof (exact_read (p := field) [] d Hl Hb) as H.
  change (blen []) with 0 in H. rewrite !app_nil_l in H.
  destruct (field d (blen d) 0) as [[v|e|] j]; [|done..]. destruct H as (r&E&->). rewrite app_nil_l.
  destruct (Z.eqb_spec (blen v) 0) as [|Hv]; [done|].
  destruct (Z.eqb_spec (blen (wstring v)) (blen d)) as [El|]; [cbn|done]. split.
  - rewrite E, blen_app in El. assert (r = []) as -> by (apply blen_zero_iff; lia). by rewrite app_nil_r in E.
  - intros ->. by apply Hv.
Qed.

Lemma critical_option_run name d c :
  is_word32 (blen d) -> Forall is_byte d ->
  match critical_option name d c with
  | Ok c' => exists v, d = wstring v /\ known_option (name, v) /\ c' = applied [(name, v)] c
  | Err _ => True
  | UB => False
  end.
Proof.
  intros Hl Hb. pose proof (option_data_run d Hl Hb) as Hd. unfold critical_option, OsshNameEq, known_option, option_names.
  cbn [applied fold_left]. destruct (bytes_eqb name (str "force-command")) eqn:E1.
  - apply bytes_eqb_spec in E1 as ->. destruct (option_data d) as [v|e|]; [|done..]. destruct Hd as [-> ?].
    exists v. split; [done|]. split; [|done]. split; [by left|done].
  - destruct (bytes_eqb name (str "source-address")) eqn:E2; [|done].
    apply bytes_eqb_spec in E2 as ->. destruct (option_data d) as [v|e|]; [|done..]. destruct Hd as [-> ?].
    exists v. split; [done|]. split; [|done]. split; [by right; left|done].
Qed.

#[export] Instance exact_ref : Exact GetStringRef (fun '(_, r) => wstring (ref_bytes r)).
Proof.
  intros before rest Hl Hb. pose proof (exact_field before rest Hl Hb) as H. revert H.
  unfold field, mbind, ST_bind. by destruct (GetStringRef _ _ _) as [[[n r]|e|] j].
Qed.

(** The options that are left to read. *)
Lemma critical_options_run fuel opts i before rest prev c :
  read_to opts i before rest -> (length rest <= fuel)%nat ->
  wp (critical_options fuel opts prev c) (fun r _ =>
    match r with
    | inl c' => exists l, rest = encode_options l /\ ascending prev l /\ Forall known_option l /\ c' = applied l c
    | inr _ => True
    end) i.
Proof.
  revert i before rest prev c. induction fuel as [|fuel IH]; intros i before rest prev c R Hf; cbn [critical_options].
  all: apply wp_bind, wp_get; destruct (Z.ltb_spec i (blen opts)) as [Hi|Hi].
  2, 4: apply wp_ret; exists []; pose proof (read_to_part _ _ _ _ R);
        rewrite (read_to_end _ _ _ _ R) by lia; by repeat split.
  { exfalso. destruct R as [-> -> _ _]. rewrite blen_app in Hi. unfold blen in Hi. lia. }
  apply wp_bind. eapply (wp_exact GetStringRef (fun '(_, r) => wstring (ref_bytes r))); [exact R| |by intros].
  intros [sz name] j rest1 R1. cbv beta iota in R1 |- *.
  apply wp_bind, wp_guard; [done|]. intros Hord.
  apply wp_bind. eapply (wp_exact field wstring); [exact R1| |by intros]. intros d j2 rest2 R2.
  destruct (read_to_last _ _ _ _ _ R2) as [Hdl Hdb]. pose proof (critical_option_run (ref_bytes name) d c Hdl Hdb) as Hc.
  apply wp_bind. unfold lift_res at 1. unfold wp at 1. destruct (critical_option _ d c) as [c1|e|]; [|done..].
  destruct Hc as (v&->&Hk&->).
  assert (rest = wstring (ref_bytes name) ++ wstring (wstring v) ++ rest2) as Er.
  { destruct R as [E _ _ _], R2 as [E2 _ _ _]. rewrite E, <- !app_assoc in E2. by apply app_inv_head in E2. }
  eapply wp_mono; [apply (IH _ _ _ _ _ R2)|].
  - subst rest. unfold wstring in Hf. rewrite !length_app in Hf. cbn in Hf. lia.
  - intros [c'|e] _; [|done]. intros (l&->&Ha&Hl&->). exists ((ref_bytes name, v) :: l).
    split; [rewrite Er; unfold encode_options; cbn; by rewrite <- app_assoc|].
    assert (name = Some (ref_bytes name)) as En.
    { destruct name as [n|]; [done|]. exfalso. destruct Hk as [Hk _]. cbn in Hk. unfold option_names in Hk.
      apply list_elem_of_In in Hk as [?|[?|[]]]; done. }
    split; [|split; [by constructor|done]]. split; [|by rewrite <- En].
    destruct prev as [p|]; [|done]. by apply Z.leb_gt in Hord.
Qed.

Lemma known_cases o : known_option o -> (o.1 = str "force-command" \/ o.1 = str "source-address") /\ o.2 <> [].
Proof.
  intros [Hn Hv]. split; [|done]. unfold option_names in Hn.
  apply list_elem_of_In in Hn as [?|[?|[]]]; auto.
Qed.

(** There are two options, and their order is fixed. *)
Lemma options_two l c :
  c_forceCommand c = None -> c_sourceAddress c = None -> ascending None l -> Forall known_option l ->
  exists f a, encode_options l = option_of (str "force-command") f ++ option_of (str "source-address") a /\
    f <> Some [] /\ a <> Some [] /\ applied l c = c <| c_forceCommand := f |> <| c_sourceAddress := a |>.
Proof.
  intros Ef Ea Hasc Hk. destruct c; cbn in Ef, Ea; subst.
  destruct l as [|[n1 v1] l]; [by exists None, None|].
  apply Forall_cons_iff in Hk as [[H1 V1]%known_cases Hk]. cbn in H1, V1. destruct Hasc as [_ Hasc].
  destruct l as [|[n2 v2] l].
  { destruct H1 as [->| ->]; [exists (Some v1), None|exists None, (Some v1)]; cbn;
      rewrite ?app_nil_r; repeat split; congruence. }
  apply Forall_cons_iff in Hk as [[H2 V2]%known_cases Hk]. cbn in H2, V2. destruct Hasc as [Hlt Hasc].
  destruct H1 as [->| ->], H2 as [->| ->]; try (exfalso; revert Hlt; by vm_compute).
  destruct l as [|[n3 v3] l].
  { exists (Some v1), (Some v2). unfold encode_options. cbn. rewrite app_nil_r. repeat split; congruence. }
  apply Forall_cons_iff in Hk as [[H3 _]%known_cases _]. cbn in H3. destruct Hasc as [Hlt2 _].
  destruct H3 as [->| ->]; exfalso; revert Hlt2; by vm_compute.
Qed.

Lemma all_extensions_run fuel exts i before rest :
  read_to exts i before rest -> (length rest <= fuel)%nat -> wp (all_extensions fuel exts) (fun _ _ => True) i.
Proof.
  revert i before rest. induction fuel as [|fuel IH]; intros i before rest R Hf; cbn [all_extensions].
  all: apply wp_bind, wp_get; destruct (Z.ltb_spec i (blen exts)) as [Hi|Hi]; [|by apply wp_ret].
  { exfalso. destruct R as [-> -> _ _]. rewrite blen_app in Hi. unfold blen in Hi. lia. }
  apply wp_bind. eapply (wp_exact field wstring); [exact R| |by intros]. intros n j rest1 R1.
  apply wp_bind. eapply (wp_exact field wstring); [exact R1| |by intros]. intros d j2 rest2 R2.
  eapply IH; [exact R2|]. destruct R as [E _ _ _], R2 as [E2 _ _ _].
  rewrite E, <- !app_assoc in E2. apply app_inv_head in E2. rewrite E2 in Hf. unfold wstring in Hf.
  rewrite !length_app in Hf. cbn in Hf. lia.
Qed.

Lemma read_start d : is_word32 (blen d) -> Forall is_byte d -> read_to d 0 [] d.
Proof. by split. Qed.

Lemma OsshCertCheckOptions_run c :
  is_word32 (blen (critOpts c)) -> Forall is_byte (critOpts c) ->
  is_word32 (blen (extensions c)) -> Forall is_byte (extensions c) ->
  match OsshCertCheckOptions c with
  | Ok c' => exists f a, critOpts c = option_of (str "force-command") f ++ option_of (str "source-address") a /\
      f <> Some [] /\ a <> Some [] /\ c' = c <| c_forceCommand := f |> <| c_sourceAddress := a |>
  | Err _ => True
  | UB => False
  end.
Proof.
  intros Hcl Hcb Hel Heb. unfold OsshCertCheckOptions. set (c0 := c <| c_forceCommand := None |> <| c_sourceAddress := None |>).
  change (critOpts c0) with (critOpts c).
  pose proof (critical_options_run (length (critOpts c)) _ _ _ _ None c0 (read_start _ Hcl Hcb) ltac:(lia)) as Ho.
  unfold wp in Ho. destruct (critical_options _ _ _ _ _) as [[c'|e|] j]; cbn [fst]; [|done..].
  destruct Ho as (l&El&Ha&Hk&->). destruct (options_two l c0 eq_refl eq_refl Ha Hk) as (f&a&E1&Hf&Hs&->).
  pose proof (all_extensions_run (length (extensions c)) _ _ _ _ (read_start _ Hel Heb) ltac:(lia)) as He. unfold wp in He.
  change (extensions (c0 <| c_forceCommand := f |> <| c_sourceAddress := a |>)) with (extensions c).
  destruct (all_extensions _ _ _) as [[u|e|] j2]; cbn [fst]; [|done..].
  exists f, a. rewrite El. repeat split; done.
Qed.

(** ** What a certificate says *)

(** C23: parsing loses nothing. A blob [OsshCertParse] accepts is the encoding of
    the fields it returns, whose base key type belongs to the certificate type,
    followed by the CA's signature and nothing else; what the signature is
    checked over is everything before it. The parser returns on every blob. *)
Theorem OsshCertParse_spec (typeId : AlgoId) (blob : bytes) :
  is_word32 (blen blob) -> Forall is_byte blob ->
  match OsshCertParse typeId blob with
  | Ok c => exists name reserved, cert_of typeId blob c name reserved
  | Err _ => True
  | UB => False
  end.
Proof. apply OsshCertParse_run. Qed.

(** C9: no restriction is lost. When [OsshCertCheckOptions] accepts a certificate,
    its critical options are a force-command, a source-address, both in that
    order, or none: each with a value that is not empty and that is what the
    application gets to see; a certificate with any other, repeated, misplaced or
    empty critical option is refused. The checks return on every certificate. *)
Theorem OsshCertCheckOptions_spec (c : WS_OsshCert) :
  is_word32 (blen (critOpts c)) -> Forall is_byte (critOpts c) ->
  is_word32 (blen (extensions c)) -> Forall is_byte (extensions c) ->
  match OsshCertCheckOptions c with
  | Ok c' => exists f a, critOpts c = option_of (str "force-command") f ++ option_of (str "source-address") a /\
      f <> Some [] /\ a <> Some [] /\ c' = c <| c_forceCommand := f |> <| c_sourceAddress := a |>
  | Err _ => True
  | UB => False
  end.
Proof. apply OsshCertCheckOptions_run. Qed.

(** A user certificate for an Ed25519 key. *)
Definition sample_cert : WS_OsshCert :=
  mkCert [] ID_ED25519 [7; 7] (wstring [9; 9; 9]) 5 1 (str "alice") (wstring (str "alice")) 0 (2 ^ 40)
    (option_of (str "force-command") (Some (str "ls"))) (wstring (str "permit-pty") ++ wstring [])
    (wstring (str "ssh-ed25519") ++ wstring [1; 2]) (str "ssh-ed25519") (wstring (str "ssh-ed25519") ++ wstring [3])
    None None.
Definition sample_body : bytes := cert_body (str "ssh-ed25519-cert-v01@openssh.com") [] sample_cert.
Definition sample_blob : bytes := sample_body ++ wstring (c_signature sample_cert).

Example OsshCertParse_spec_witness :
  OsshCertParse ID_OSSH_CERT_ED25519 sample_blob = Ok (sample_cert <| signedBlob := sample_body |>) /\
  match OsshCertParse ID_OSSH_CERT_ED25519 sample_blob with
  | Ok c => exists name reserved, cert_of ID_OSSH_CERT_ED25519 sample_blob c name reserved
  | Err _ => True
  | UB => False
  end.
Proof.
  split; [by vm_compute|]. apply (OsshCertParse_spec ID_OSSH_CERT_ED25519 sample_blob); [by vm_compute|].
  by apply bytes_checked.
Defined.

Example OsshCertCheckOptions_spec_witness :
  OsshCertCheckOptions sample_cert = Ok (sample_cert <| c_forceCommand := Some (str "ls") |>) /\
  match OsshCertCheckOptions sample_cert with
  | Ok c' => exists f a,
      critOpts sample_cert = option_of (str "force-command") f ++ option_of (str "source-address") a /\
      f <> Some [] /\ a <> Some [] /\ c' = sample_cert <| c_forceCommand := f |> <| c_sourceAddress := a |>
  | Err _ => True
  | UB => False
  end.
Proof.
  split; [by vm_compute|].
  apply (OsshCertCheckOptions_spec sample_cert); [by vm_compute|by apply bytes_checked|by vm_compute|by apply bytes_checked].
Defined.
