(* ===== verification/Composite.v ===== *)
(** Composite signatures, an ML-DSA key with a traditional one (internal.c,
    [WS_GetCompositeParams] to [DoUserAuthRequestMlDsaComposite]).

    What is shown: a composite signature is accepted exactly when both halves are
    signatures of the message representative, which no other composite algorithm
    can have as its own; a signature that was made is accepted. *)

From S2P Require Import Prelude Codes Wire Names Buffer Fwd Algos Kdf Session Samples MsgFilter Transport.
From S2P Require Import Send KexAgree UserSig Ossh.

(** ** Parameters *)

(** The key and signature sizes of FIPS 204 and RFC 8032. *)
Definition WC_MLDSA_44_SIG_SIZE : Z := 2420.
Definition WC_MLDSA_65_SIG_SIZE : Z := 3309.
Definition WC_MLDSA_87_SIG_SIZE : Z := 4627.
Definition WC_MLDSA_44_PUB_KEY_SIZE : Z := 1312.
Definition WC_MLDSA_65_PUB_KEY_SIZE : Z := 1952.
Definition WC_MLDSA_87_PUB_KEY_SIZE : Z := 2592.
Definition ED25519_PUB_KEY_SIZE : Z := 32.
Definition ED25519_SIG_SIZE : Z := 64.
Definition ED25519_KEY_SIZE : Z := 32.
Definition ED448_PUB_KEY_SIZE : Z := 57.
Definition ED448_SIG_SIZE : Z := 114.
Definition ED448_KEY_SIZE : Z := 57.

(** The hash of the traditional half; SHAKE256 is used nowhere else. *)
Inductive trad_hash := TradHash (h : wc_HashType) | WC_HASH_TYPE_SHAKE256.
Inductive trad_type := TRAD_TYPE_ECC | TRAD_TYPE_ED25519 | TRAD_TYPE_ED448.

Record CompositeParams := mkParams {
  mldsaLevel : mldsa_level;
  mldsaSigSz : Z;
  mldsaPubSz : Z;
  tradType : trad_type;
  tradHashId : trad_hash;
  tradHashSz : Z;
  label : bytes;
  tradPubSz : Z;
  tradSigSz : Z;
  tradPrivSz : Z;
  eccCurveId : ecc_curve_id
}.

Definition composite_params (keyId : AlgoId) : option CompositeParams :=
  let p44 := mkParams WC_ML_DSA_44 WC_MLDSA_44_SIG_SIZE WC_MLDSA_44_PUB_KEY_SIZE in
  let p65 := mkParams WC_ML_DSA_65 WC_MLDSA_65_SIG_SIZE WC_MLDSA_65_PUB_KEY_SIZE in
  let p87 := mkParams WC_ML_DSA_87 WC_MLDSA_87_SIG_SIZE WC_MLDSA_87_PUB_KEY_SIZE in
  let sha256 := TradHash WC_HASH_TYPE_SHA256 in
  let sha512 := TradHash WC_HASH_TYPE_SHA512 in
  let ecc coord := (1 + 2 * coord, 2 * (LENGTH_SZ + coord + 1), coord) in
  let '(pub256, sig256, priv256) := ecc ECC_P256_COORD_SZ in
  let '(pub384, sig384, priv384) := ecc ECC_P384_COORD_SZ in
  match keyId with
  | ID_MLDSA44_ES256 =>
    Some (p44 TRAD_TYPE_ECC sha256 32 (str "COMPSIG-MLDSA44-ECDSA-P256-SHA256") pub256 sig256 priv256 ECC_SECP256R1)
  | ID_MLDSA65_ES256 =>
    Some (p65 TRAD_TYPE_ECC sha512 64 (str "COMPSIG-MLDSA65-ECDSA-P256-SHA512") pub256 sig256 priv256 ECC_SECP256R1)
  | ID_MLDSA87_ES384 =>
    Some (p87 TRAD_TYPE_ECC sha512 64 (str "COMPSIG-MLDSA87-ECDSA-P384-SHA512") pub384 sig384 priv384 ECC_SECP384R1)
  | ID_MLDSA44_ED25519 =>
    Some (p44 TRAD_TYPE_ED25519 sha512 64 (str "COMPSIG-MLDSA44-Ed25519-SHA512")
      ED25519_PUB_KEY_SIZE ED25519_SIG_SIZE ED25519_KEY_SIZE ECC_CURVE_INVALID)
  | ID_MLDSA65_ED25519 =>
    Some (p65 TRAD_TYPE_ED25519 sha512 64 (str "COMPSIG-MLDSA65-Ed25519-SHA512")
      ED25519_PUB_KEY_SIZE ED25519_SIG_SIZE ED25519_KEY_SIZE ECC_CURVE_INVALID)
  | ID_MLDSA87_ED448 =>
    Some (p87 TRAD_TYPE_ED448 WC_HASH_TYPE_SHAKE256 64 (str "COMPSIG-MLDSA87-Ed448-SHAKE256")
      ED448_PUB_KEY_SIZE ED448_SIG_SIZE ED448_KEY_SIZE ECC_CURVE_INVALID)
  | _ => None
  end.

Definition WS_GetCompositeParams (keyId : AlgoId) : res CompositeParams :=
  match composite_params keyId with
  | None => Err WS_BAD_ARGUMENT
  | Some params => if COMPOSITE_MAX_LABEL_SZ <? blen (label params) then Err WS_BUFFER_E else Ok params
  end.

Definition IsCompositeMlDsaId (id : AlgoId) : bool :=
  match WS_GetCompositeParams id with Ok _ => true | _ => false end.

(** The message both halves sign. *)
Definition COMPOSITE_DOMAIN_PREFIX : bytes := str "CompositeAlgorithmSignatures2025".
Definition BuildCompositeMPrime (params : CompositeParams) (hash : bytes) : bytes :=
  COMPOSITE_DOMAIN_PREFIX ++ label params ++ [0] ++ slice hash 0 (tradHashSz params).

(** ** wolfCrypt's private keys *)

Definition call {S A} (r : wc A) : ST S A := match r with inl a => mret a | inr e => fail e end.
Definition wc_res {A} (r : wc A) : res A := match r with inl a => Ok a | inr e => Err e end.
Definition wc_map {A B} (f : A -> B) (r : wc A) : wc B := match r with inl a => inl (f a) | inr e => inr e end.

(** Ed448, and the calls with private keys. A signature is made in a room of the
    size given; generators are passed and come back. *)
Class SignKeys `{PubKeys} := {
  ed448_key : Type;
  wc_ed448_init_ex : Z;
  wc_ed448_import_public : bytes -> wc ed448_key;
  wc_ed448_verify_msg : bytes -> bytes -> ed448_key -> wc bool;        (* signature, message *)
  wc_Shake256 : bytes -> Z -> wc bytes;
  wc_ecc_sign_hash : bytes -> Z -> ecc_key -> bytes -> wc bytes * bytes;
  wc_ecc_sig_to_rs : bytes -> wc (bytes * bytes);
  wc_ed25519_sign_msg : bytes -> Z -> ed25519_key -> wc bytes;
  wc_ed448_sign_msg : bytes -> Z -> ed448_key -> wc bytes;
  wc_MlDsaKey_SignCtx : MlDsaKey -> bytes -> Z -> bytes -> bytes -> wc bytes * bytes;  (* context, room, message *)
  wc_RsaSSL_Sign : bytes -> Z -> RsaKey -> bytes -> wc bytes * bytes;
  (* private keys from their parts: the private part, the public part *)
  wc_RsaPrivateKeyDecodeRaw : bytes -> bytes -> bytes -> bytes -> bytes -> bytes -> wc RsaKey;   (* n, e, d, u, p, q *)
  wc_ecc_import_private_key : bytes -> bytes -> wc ecc_key;
  wc_ed25519_import_private_key : bytes -> bytes -> wc ed25519_key;
  wc_ed448_import_private_key : bytes -> bytes -> wc ed448_key;
  wc_MlDsaKey_ImportKey : MlDsaKey -> bytes -> bytes -> wc MlDsaKey;
  wc_MlDsaKey_MakeKeyFromSeed : MlDsaKey -> bytes -> wc MlDsaKey;
  (* public parts *)
  wc_ecc_export_x963 : ecc_key -> wc bytes;
  wc_ed25519_export_public : ed25519_key -> wc bytes;
  wc_ed448_export_public : ed448_key -> wc bytes;
  wc_MlDsaKey_ExportPubRaw : MlDsaKey -> wc bytes;
  (* private parts *)
  wc_ecc_export_private_only : ecc_key -> wc bytes;
  wc_ed25519_export_private_only : ed25519_key -> wc bytes;
  wc_ed448_export_private_only : ed448_key -> wc bytes
}.

(** [EncodeEcdsaRsToMpints]: the two numbers, each with its length and a zero in
    front of a set top bit. *)
Definition EncodeEcdsaRsToMpints (outSz : Z) (r s : bytes) (rPad sPad : bool) : res bytes :=
  if outSz <? 2 * LENGTH_SZ + blen r + b2z rPad + blen s + b2z sPad then Err WS_BUFFER_E
  else
    let one (d : bytes) (pad : bool) := c32toa (blen d +w b2z pad) ++ (if pad then [0] else []) ++ d in
    Ok (one r rPad ++ one s sPad).

Definition top_bit (d : bytes) : bool := truthy (Z.land (nth 0 d 0) 0x80).

Section Composite.
Context `{CTX} `{Crypto} `{Hashes} `{PubKeys} `{!SignKeys}.

(** A call that draws from the session's generator. *)
Definition with_rng {A} (f : bytes -> wc A * bytes) : M A := fun s =>
  let '(r, g) := f (rng (tx s)) in (call r : M A) (s <| tx; rng := g |>).

Definition WS_Hash_Helper (hashId : trad_hash) (msg : bytes) (hashSz : Z) : M bytes :=
  match hashId with
  | WC_HASH_TYPE_SHAKE256 => call (wc_Shake256 msg hashSz)
  | TradHash h => lift_res (wc_Hash h msg)
  end.

(** ** The traditional half *)

(** The union of the key types; an operation on another type of key than its own
    reads the wrong member. *)
Inductive trad_key := TradEcc (k : ecc_key) | TradEd25519 (k : ed25519_key) | TradEd448 (k : ed448_key).
Definition as_ecc (k : trad_key) : M ecc_key := match k with TradEcc k => mret k | _ => ub end.
Definition as_ed25519 (k : trad_key) : M ed25519_key := match k with TradEd25519 k => mret k | _ => ub end.
Definition as_ed448 (k : trad_key) : M ed448_key := match k with TradEd448 k => mret k | _ => ub end.

Definition WC_MAX_DIGEST_SIZE : Z := MAX_HMAC_SZ.

Definition CompositeEccSign (key : trad_key) (hashId : trad_hash) (hashSz : Z) (mPrime : bytes) (room : Z) : M bytes :=
  guard_err (WC_MAX_DIGEST_SIZE <? hashSz) WS_BUFFER_E;;
  k ← as_ecc key;
  r ← attempt (
    digest ← WS_Hash_Helper hashId mPrime hashSz;
    asnSig ← with_rng (wc_ecc_sign_hash (slice digest 0 hashSz) ECDSA_ASN_SIG_SZ k);
    '(r, s) ← call (wc_ecc_sig_to_rs asnSig);
    or_else (lift_res (EncodeEcdsaRsToMpints room r s (top_bit r) (top_bit s))) WS_BAD_ARGUMENT);
  match r with
  | inl sig => mret sig
  | inr e => fail (if (e =? WS_BAD_ARGUMENT) || (e =? WS_MEMORY_E) then e else WS_ECC_E)
  end.

Definition CompositeEccVerify (key : trad_key) (hashId : trad_hash) (hashSz : Z) (wireSig mPrime : bytes) : M unit :=
  guard_err (WC_MAX_DIGEST_SIZE <? hashSz) WS_BUFFER_E;;
  k ← as_ecc key;
  '((_, r), i) ← parse GetStringRef wireSig (blen wireSig) 0;
  '((_, s), i) ← parse GetStringRef wireSig (blen wireSig) i;
  guard_err (negb (i =? blen wireSig)) WS_KEY_FORMAT_E;;
  asnSig ← or_else (lift_res (wc_ecc_rs_raw_to_sig (ref_bytes r) (ref_bytes s) ECDSA_ASN_SIG_SZ)) WS_ECC_E;
  or_else (
    digest ← WS_Hash_Helper hashId mPrime hashSz;
    match hashId with
    | TradHash h => lift_res (wc_SignatureVerifyHash h (slice digest 0 hashSz) asnSig k)
    | WC_HASH_TYPE_SHAKE256 => ub   (* no ECDSA algorithm has it *)
    end) WS_ECC_E.

Definition CompositeEd25519Sign (key : trad_key) (mPrime : bytes) (room : Z) : M bytes :=
  guard_err (room <? ED25519_SIG_SIZE) WS_BAD_ARGUMENT;;
  k ← as_ed25519 key;
  sig ← or_else (call (wc_ed25519_sign_msg mPrime ED25519_SIG_SIZE k)) WS_ED25519_E;
  guard_err (negb (blen sig =? ED25519_SIG_SIZE)) WS_ED25519_E;;
  mret sig.

Definition CompositeEd25519Verify (key : trad_key) (wireSig mPrime : bytes) : M unit :=
  k ← as_ed25519 key;
  res ← or_else (lift_res (wc_ed25519_verify_msg wireSig mPrime k)) WS_ED25519_E;
  guard_err (negb res) WS_ED25519_E.

Definition CompositeEd448Sign (key : trad_key) (mPrime : bytes) (room : Z) : M bytes :=
  guard_err (room <? ED448_SIG_SIZE) WS_BAD_ARGUMENT;;
  k ← as_ed448 key;
  sig ← or_else (call (wc_ed448_sign_msg mPrime ED448_SIG_SIZE k)) WS_ED448_E;
  guard_err (negb (blen sig =? ED448_SIG_SIZE)) WS_ED448_E;;
  mret sig.

Definition CompositeEd448Verify (key : trad_key) (wireSig mPrime : bytes) : M unit :=
  k ← as_ed448 key;
  res ← or_else (call (wc_ed448_verify_msg wireSig mPrime k)) WS_ED448_E;
  guard_err (negb res) WS_ED448_E.

(** The operations of one type. *)
Record CompositeTradOps := mkOps {
  init : Z;
  importPub : bytes -> M trad_key;
  importPriv : bytes -> bytes -> wc trad_key;                          (* private, public *)
  exportPrivOnly : trad_key -> res bytes;
  exportPub : trad_key -> res bytes;
  sign : trad_key -> trad_hash -> Z -> bytes -> Z -> M bytes;          (* hash, message, room *)
  verify : trad_key -> trad_hash -> Z -> bytes -> bytes -> M unit      (* hash, signature, message *)
}.

Definition compositeEccOps : CompositeTradOps := {|
  init := wc_ecc_init_ex;
  importPub pub := k ← lift_res (wc_ecc_import_x963 pub); mret (TradEcc k);
  importPriv priv pub := wc_map TradEcc (wc_ecc_import_private_key priv pub);
  exportPrivOnly k := match k with TradEcc k => wc_res (wc_ecc_export_private_only k) | _ => UB end;
  exportPub k := match k with TradEcc k => wc_res (wc_ecc_export_x963 k) | _ => UB end;
  sign := CompositeEccSign;
  verify := CompositeEccVerify
|}.
Definition compositeEd25519Ops : CompositeTradOps := {|
  init := wc_ed25519_init_ex;
  importPub pub := k ← lift_res (wc_ed25519_import_public pub); mret (TradEd25519 k);
  importPriv priv pub := wc_map TradEd25519 (wc_ed25519_import_private_key priv pub);
  exportPrivOnly k := match k with TradEd25519 k => wc_res (wc_ed25519_export_private_only k) | _ => UB end;
  exportPub k := match k with TradEd25519 k => wc_res (wc_ed25519_export_public k) | _ => UB end;
  sign key _ _ := CompositeEd25519Sign key;
  verify key _ _ := CompositeEd25519Verify key
|}.
Definition compositeEd448Ops : CompositeTradOps := {|
  init := wc_ed448_init_ex;
  importPub pub := k ← call (wc_ed448_import_public pub); mret (TradEd448 k);
  importPriv priv pub := wc_map TradEd448 (wc_ed448_import_private_key priv pub);
  exportPrivOnly k := match k with TradEd448 k => wc_res (wc_ed448_export_private_only k) | _ => UB end;
  exportPub k := match k with TradEd448 k => wc_res (wc_ed448_export_public k) | _ => UB end;
  sign key _ _ := CompositeEd448Sign key;
  verify key _ _ := CompositeEd448Verify key
|}.

Definition WS_GetTradOps (t : trad_type) : CompositeTradOps :=
  match t with
  | TRAD_TYPE_ECC => compositeEccOps
  | TRAD_TYPE_ED25519 => compositeEd25519Ops
  | TRAD_TYPE_ED448 => compositeEd448Ops
  end.

(** ** Both halves *)

Definition composite_key : Type := MlDsaKey * trad_key.

Definition mPrime_of (params : CompositeParams) (msg : bytes) : M bytes :=
  hash ← or_else (WS_Hash_Helper (tradHashId params) msg (tradHashSz params)) WS_CRYPTO_FAILED;
  mret (BuildCompositeMPrime params hash).

(** The size of the whole signature: fixed for the Edwards curves. *)
Definition composite_size_ok (params : CompositeParams) (sigSz : Z) : bool :=
  (mldsaSigSz params <=? sigSz) &&
  match tradType params with
  | TRAD_TYPE_ECC => sigSz - mldsaSigSz params <=? tradSigSz params
  | _ => sigSz =? mldsaSigSz params + tradSigSz params
  end.

Definition VerifyMlDsaComposite (keyId : AlgoId) (key : composite_key) (sig msg : bytes) : M unit :=
  params ← lift_res (WS_GetCompositeParams keyId);
  guard_err (WC_MAX_DIGEST_SIZE <? tradHashSz params) WS_BUFFER_E;;
  guard_err (negb (composite_size_ok params (blen sig))) WS_KEY_FORMAT_E;;
  mPrime ← mPrime_of params msg;
  let tradSig := slice sig (mldsaSigSz params) (blen sig - mldsaSigSz params) in
  verify (WS_GetTradOps (tradType params)) (snd key) (tradHashId params) (tradHashSz params) tradSig mPrime;;
  match wc_MlDsaKey_VerifyCtx (fst key) (slice sig 0 (mldsaSigSz params)) (label params) mPrime with
  | Some true => mret tt
  | _ => fail WS_MLDSA_E
  end.

(** [sigSz] is the room of the signature. *)
Definition sign_composite (params : CompositeParams) (key : composite_key) (msg : bytes) (sigSz : Z) : M bytes :=
  guard_err (WC_MAX_DIGEST_SIZE <? tradHashSz params) WS_BUFFER_E;;
  guard_err (sigSz <? mldsaSigSz params + tradSigSz params) WS_BAD_ARGUMENT;;
  mPrime ← mPrime_of params msg;
  sig ← or_else (with_rng (wc_MlDsaKey_SignCtx (fst key) (label params) (mldsaSigSz params) mPrime)) WS_MLDSA_E;
  guard_err (negb (blen sig =? mldsaSigSz params)) WS_MLDSA_E;;
  tradSig ← sign (WS_GetTradOps (tradType params)) (snd key) (tradHashId params) (tradHashSz params) mPrime (tradSigSz params);
  mret (sig ++ tradSig).

Definition SignHMlDsaComposite (keyId : AlgoId) (key : composite_key) (sigSz : Z) : M bytes :=
  params ← lift_res (WS_GetCompositeParams keyId);
  s ← get;
  sign_composite params key (kx_h (kex s)) sigSz.

(** The two keys of a public key blob, after its name. *)
Definition import_pair (params : CompositeParams) (mldsa : MlDsaKey) (pub : bytes) : M composite_key :=
  guard_err (negb (blen pub =? mldsaPubSz params + tradPubSz params)) WS_KEY_FORMAT_E;;
  mldsa ← lift_res (wc_MlDsaKey_ImportPubRaw (slice pub 0 (mldsaPubSz params)) mldsa);
  trad ← importPub (WS_GetTradOps (tradType params)) (slice pub (mldsaPubSz params) (tradPubSz params));
  mret (mldsa, trad).

(** [InitCompositeKeyPair]: the traditional half holds nothing yet. *)
Definition InitCompositeKeyPair {S} (params : CompositeParams) : ST S MlDsaKey :=
  mldsa ← match wc_MlDsaKey_Init (mldsaLevel params) with inl k => mret k | inr _ => fail WS_CRYPTO_FAILED end;
  ret_code (init (WS_GetTradOps (tradType params)));;
  mret mldsa.

Definition ParseMlDsaCompositePubKey (pubKey : bytes) (keyId : AlgoId) : M composite_key :=
  params ← lift_res (WS_GetCompositeParams keyId);
  r ← attempt (
    mldsa ← InitCompositeKeyPair params;
    '((_, name), i) ← parse GetStringRef pubKey (blen pubKey) 0;
    guard_err (negb (bytes_eqb (ref_bytes name) (IdToName keyId))) WS_KEY_FORMAT_E;;
    '((_, pub), i) ← parse GetStringRef pubKey (blen pubKey) i;
    import_pair params mldsa (ref_bytes pub));
  match r with
  | inl key => mret key
  | inr e => fail (if (e =? WS_UNIMPLEMENTED_E) || (e =? WS_MEMORY_E) || (e =? WS_KEY_FORMAT_E) then e else WS_INVALID_ALGO_ID)
  end.

(** What a failure to load the key of a request is reported as. *)
Definition composite_error (e : Z) : Z :=
  if (e =? WS_UNIMPLEMENTED_E) || (e =? WS_MEMORY_E) || (e =? WS_KEY_FORMAT_E) || (e =? WS_INVALID_ALGO_ID)
  then e else WS_CRYPTO_FAILED.

Definition DoUserAuthRequestMlDsaComposite (pk : PublicKey) (authData : WS_UserAuthData) (keyId : AlgoId)
    (pubKeyBlobSz : Z) : M unit :=
  params ← lift_res (WS_GetCompositeParams keyId);
  mem ← malloc;
  guard_err (negb mem) WS_MEMORY_E;;
  r ← attempt (
    mldsa ← InitCompositeKeyPair params;
    '(t, i) ← sized (publicKey pk) 0;
    guard_err (negb (bytes_eqb t (publicKeyType pk))) WS_INVALID_ALGO_ID;;
    '((_, pub), i) ← parse GetStringRef (publicKey pk) (blen (publicKey pk)) i;
    import_pair params mldsa (ref_bytes pub));
  key ← match r with inl key => mret key | inr e => fail (composite_error e) end;
  '(t, i) ← sized (signature pk) 0;
  guard_err (negb (bytes_eqb t (publicKeyType pk))) WS_INVALID_ALGO_ID;;
  '(sig, i) ← sized (signature pk) i;
  d ← check_data pk authData pubKeyBlobSz;
  VerifyMlDsaComposite keyId key sig d.
End Composite.

(** ** What is accepted *)

Section Accepted.
Context `{CTX} `{Crypto} `{Hashes} `{PubKeys} `{!SignKeys}.

Definition hashes_to (h : trad_hash) (msg : bytes) (n : Z) (d : bytes) : Prop :=
  match h with TradHash h => wc_Hash h msg = Ok d | WC_HASH_TYPE_SHAKE256 => wc_Shake256 msg n = inl d end.

(** The traditional half is a signature of [m]. *)
Definition trad_signed (params : CompositeParams) (key : trad_key) (sig m : bytes) : Prop :=
  match tradType params, key with
  | TRAD_TYPE_ECC, TradEcc k => exists h r s asn digest,
      sig = wstring r ++ wstring s /\ wc_ecc_rs_raw_to_sig r s ECDSA_ASN_SIG_SZ = Ok asn /\
      tradHashId params = TradHash h /\ wc_Hash h m = Ok digest /\
      wc_SignatureVerifyHash h (slice digest 0 (tradHashSz params)) asn k = Ok tt
  | TRAD_TYPE_ED25519, TradEd25519 k => wc_ed25519_verify_msg sig m k = Ok true
  | TRAD_TYPE_ED448, TradEd448 k => wc_ed448_verify_msg sig m k = inl true
  | _, _ => False
  end.

(** Both halves sign the representative of [msg]. *)
Definition composite_signed (keyId : AlgoId) (key : composite_key) (sig msg : bytes) : Prop :=
  exists params hash, composite_params keyId = Some params /\ composite_size_ok params (blen sig) = true /\
    hashes_to (tradHashId params) msg (tradHashSz params) hash /\
    let m := BuildCompositeMPrime params hash in
    let n := mldsaSigSz params in
    trad_signed params (snd key) (slice sig n (blen sig - n)) m /\
    wc_MlDsaKey_VerifyCtx (fst key) (slice sig 0 n) (label params) m = Some true.

Lemma WS_Hash_Helper_run h msg n (s : WOLFSSH) :
  exists r, WS_Hash_Helper h msg n s = (r, s) /\ forall d, r = Ok d <-> hashes_to h msg n d.
Proof.
  destruct h as [h|]; cbn; unfold lift_res, call.
  - by eexists.
  - destruct (wc_Shake256 msg n); (eexists; split; [reflexivity|]); intros d; by split; intros [= ->].
Qed.

Lemma or_else_run {A} (m : M A) e (s : WOLFSSH) r :
  m s = (r, s) -> or_else m e s = (match r with Ok a => Ok a | Err _ => Err e | UB => UB end, s).
Proof. intros E. unfold or_else, attempt, mbind, ST_bind. rewrite E. by destruct r. Qed.

Lemma mPrime_of_run params msg (s : WOLFSSH) :
  exists r, mPrime_of params msg s = (r, s) /\
    forall m, r = Ok m <-> exists hash, hashes_to (tradHashId params) msg (tradHashSz params) hash /\ m = BuildCompositeMPrime params hash.
Proof.
  unfold mPrime_of. destruct (WS_Hash_Helper_run (tradHashId params) msg (tradHashSz params) s) as (r&E&Hr).
  unfold mbind, ST_bind. rewrite (or_else_run _ _ _ _ E). destruct r as [d|e|]; (eexists; split; [reflexivity|]); intros m.
  - split; [intros [= <-]; exists d; split; [by apply Hr|done]|]. intros (h & Hh & ->). apply Hr in Hh. by injection Hh as ->.
  - split; [done|]. by intros (h & ?%Hr & _).
  - split; [done|]. by intros (h & ?%Hr & _).
Qed.

(** Two numbers and nothing after them. *)
Lemma mpints_read w (s : WOLFSSH) r i rs j ss :
  is_word32 (blen w) -> Forall is_byte w ->
  parse GetStringRef w (blen w) 0 s = (Ok (r, i), s) -> parse GetStringRef w (blen w) i s = (Ok (ss, j), s) ->
  rs = snd r -> j = blen w -> w = wstring (ref_bytes rs) ++ wstring (ref_bytes (snd ss)).
Proof.
  intros Hl Hb E1 E2 -> ->. unfold parse in *.
  pose proof (exact_read (p := GetStringRef) [] w Hl Hb) as K. change (blen []) with 0 in K. rewrite !app_nil_l in K.
  destruct (GetStringRef w (blen w) 0) as [[a|e|] k]; [|done..]. injection E1 as <- <-. destruct a as [n a].
  destruct K as (w1 & Ew & ->). rewrite app_nil_l in E2. cbn [snd].
  rewrite Ew in Hl, Hb. pose proof (exact_read (p := GetStringRef) _ w1 Hl Hb) as K. rewrite <- Ew in K.
  destruct (GetStringRef w (blen w) _) as [[b|e|] k]; [|done..]. injection E2 as <- Ek. destruct b as [n' b].
  destruct K as (w2 & -> & ->). cbn [snd]. rewrite Ew, !blen_app in Ek.
  assert (w2 = []) as -> by (apply blen_zero_iff; lia). by rewrite app_nil_r in Ew.
Qed.

Lemma mpints_parse r ss (s : WOLFSSH) :
  let w := wstring r ++ wstring ss in
  is_word32 (blen w) ->
  parse GetStringRef w (blen w) 0 s = (Ok ((blen r, string_ref r), blen (wstring r)), s) /\
  parse GetStringRef w (blen w) (blen (wstring r)) s = (Ok ((blen ss, string_ref ss), blen w), s).
Proof.
  intros w Hl. pose proof (blen_nonneg (wstring ss)). unfold parse, w in *. rewrite blen_app in *. split.
  - pose proof (GetStringRef_encoded r [] (wstring ss) (blen (wstring r) + blen (wstring ss))) as K.
    change (encode_string r) with (wstring r) in K. change (blen []) with 0 in K. rewrite app_nil_l in K. by rewrite K by (done || lia).
  - pose proof (GetStringRef_encoded ss (wstring r) [] (blen (wstring r) + blen (wstring ss))) as K.
    change (encode_string ss) with (wstring ss) in K. rewrite app_nil_r in K. by rewrite K by (done || lia).
Qed.

Lemma parse_inv {A} (p : bytes -> Z -> ST Z A) buf len i (s : WOLFSSH) a s' : parse p buf len i s = (Ok a, s') -> s' = s.
Proof. unfold parse. destruct (p buf len i) as [[]]; congruence. Qed.

Lemma ecc_check_run h n m asn k (s : WOLFSSH) :
  or_else (digest ← WS_Hash_Helper (TradHash h) m n; lift_res (wc_SignatureVerifyHash h (slice digest 0 n) asn k)) WS_ECC_E s
  = (match wc_Hash h m with
     | Ok d => match wc_SignatureVerifyHash h (slice d 0 n) asn k with Ok u => Ok u | Err _ => Err WS_ECC_E | UB => UB end
     | Err _ => Err WS_ECC_E
     | UB => UB
     end, s).
Proof.
  unfold or_else, attempt, WS_Hash_Helper, mbind, ST_bind, lift_res. destruct (wc_Hash h m) as [d|e|]; try done.
  by destruct (wc_SignatureVerifyHash h _ asn k).
Qed.

Lemma CompositeEccVerify_inv k params sig m (s s' : WOLFSSH) :
  is_word32 (blen sig) -> Forall is_byte sig -> tradType params = TRAD_TYPE_ECC ->
  CompositeEccVerify k (tradHashId params) (tradHashSz params) sig m s = (Ok tt, s') -> trad_signed params k sig m.
Proof.
  intros Hl Hb Ht. unfold trad_signed. rewrite Ht. unfold CompositeEccVerify, guard_err. intros Er.
  apply ST_bind_inv in Er as ([] & s1 & E0 & Er). destruct (_ <? _); [done|]. injection E0 as <-.
  destruct k as [k|k|k]; [|done..].
  apply ST_bind_inv in Er as (k' & s2 & [= <- <-] & Er).
  apply ST_bind_inv in Er as ([[n1 r] i] & s3 & E1 & Er). pose proof (parse_inv _ _ _ _ _ _ _ E1) as ->.
  apply ST_bind_inv in Er as ([[n2 r2] j] & s4 & E2 & Er). pose proof (parse_inv _ _ _ _ _ _ _ E2) as ->.
  apply ST_bind_inv in Er as ([] & s5 & E3 & Er). destruct (Z.eqb_spec j (blen sig)) as [Ej|]; [|done]. injection E3 as <-.
  pose proof (mpints_read sig s (n1, r) i r j (n2, r2) Hl Hb E1 E2 eq_refl Ej) as Hs. cbn [snd] in Hs.
  apply ST_bind_inv in Er as (asn & s6 & E4 & Er). erewrite or_else_run in E4 by reflexivity.
  destruct (wc_ecc_rs_raw_to_sig (ref_bytes r) (ref_bytes r2) ECDSA_ASN_SIG_SZ) as [asn'|e|] eqn:Easn; [|done..].
  injection E4 as -> <-. destruct (tradHashId params) as [h|] eqn:Eh.
  - rewrite ecc_check_run in Er. destruct (wc_Hash h m) as [d|e|] eqn:Ed; [|done..].
    exists h, (ref_bytes r), (ref_bytes r2), asn, d. repeat (split; [done|]).
    by destruct (wc_SignatureVerifyHash h _ asn k) as [[]|e|].
  - exfalso. revert Er. unfold or_else, attempt, mbind, ST_bind, WS_Hash_Helper, call. by destruct (wc_Shake256 _ _).
Qed.

Lemma CompositeEccVerify_run k params sig m (s : WOLFSSH) :
  is_word32 (blen sig) -> tradType params = TRAD_TYPE_ECC -> tradHashSz params <= WC_MAX_DIGEST_SIZE ->
  trad_signed params k sig m ->
  CompositeEccVerify k (tradHashId params) (tradHashSz params) sig m s = (Ok tt, s).
Proof.
  intros Hl Ht Hn. unfold trad_signed. rewrite Ht. destruct k as [k|k|k]; [|done..].
  intros (h & r & r2 & asn & d & -> & Easn & Eh & Ed & Ev). unfold CompositeEccVerify, guard_err.
  destruct (Z.ltb_spec WC_MAX_DIGEST_SIZE (tradHashSz params)); [lia|].
  destruct (mpints_parse r r2 s Hl) as [E1 E2].
  erewrite ST_bind_ok by reflexivity. erewrite ST_bind_ok by reflexivity.
  rewrite (ST_bind_ok _ _ _ _ _ E1). cbv beta iota. rewrite (ST_bind_ok _ _ _ _ _ E2). cbv beta iota.
  rewrite Z.eqb_refl. cbn [negb]. erewrite ST_bind_ok by reflexivity. rewrite !ref_bytes_string_ref.
  erewrite ST_bind_ok by (erewrite or_else_run by reflexivity; by rewrite Easn). rewrite Eh, ecc_check_run.
  by rewrite Ed, Ev.
Qed.

(** The traditional half is accepted exactly when it signs the message. *)
Lemma trad_verify_iff k params sig m (s : WOLFSSH) :
  is_word32 (blen sig) -> tradHashSz params <= WC_MAX_DIGEST_SIZE ->
  let run := verify (WS_GetTradOps (tradType params)) k (tradHashId params) (tradHashSz params) sig m s in
  (Forall is_byte sig -> forall s', run = (Ok tt, s') -> trad_signed params k sig m) /\ (trad_signed params k sig m -> run = (Ok tt, s)).
Proof.
  intros Hl Hn. cbv zeta. destruct (tradType params) eqn:Et; cbn [WS_GetTradOps compositeEccOps compositeEd25519Ops compositeEd448Ops verify].
  - split; [intros Hb s'; by apply CompositeEccVerify_inv|by apply CompositeEccVerify_run].
  - unfold trad_signed. rewrite Et. destruct k as [k|k|k]; unfold CompositeEd25519Verify, as_ed25519; [by split| |by split].
    erewrite ST_bind_ok by reflexivity. unfold mbind at 1 2, ST_bind at 1 2. rewrite (or_else_run _ _ s (wc_ed25519_verify_msg sig m k)) by reflexivity.
    destruct (wc_ed25519_verify_msg sig m k) as [[]|e|]; by split.
  - unfold trad_signed. rewrite Et. destruct k as [k|k|k]; unfold CompositeEd448Verify, as_ed448; [by split..|].
    erewrite ST_bind_ok by reflexivity. unfold mbind at 1 2, ST_bind at 1 2.
    rewrite (or_else_run _ _ s (match wc_ed448_verify_msg sig m k with inl b => Ok b | inr e => Err e end))
      by (unfold call; by destruct (wc_ed448_verify_msg sig m k)).
    destruct (wc_ed448_verify_msg sig m k) as [[]|e]; by split.
Qed.

Lemma composite_params_sizes id p : composite_params id = Some p ->
  0 < tradHashSz p <= WC_MAX_DIGEST_SIZE /\ 0 < mldsaSigSz p /\ blen (label p) <= COMPOSITE_MAX_LABEL_SZ.
Proof. destruct id; try discriminate; intros [= <-]; vm_compute; repeat split; try done; discriminate. Qed.

Lemma WS_GetCompositeParams_run id p : WS_GetCompositeParams id = Ok p <-> composite_params id = Some p.
Proof.
  unfold WS_GetCompositeParams. destruct (composite_params id) as [q|] eqn:E; [|by split].
  destruct (composite_params_sizes id q E) as (_&_&?). destruct (Z.ltb_spec COMPOSITE_MAX_LABEL_SZ (blen (label q))); [lia|].
  split; by intros [= ->].
Qed.

Lemma VerifyMlDsaComposite_run id key sig msg (s : WOLFSSH) :
  is_word32 (blen sig) ->
  let run := VerifyMlDsaComposite id key sig msg s in
  (Forall is_byte sig -> forall s', run = (Ok tt, s') -> composite_signed id key sig msg) /\ (composite_signed id key sig msg -> run = (Ok tt, s)).
Proof.
  intros Hl. cbv zeta. unfold VerifyMlDsaComposite, lift_res.
  destruct (composite_params id) as [p|] eqn:Ep.
  2: { unfold composite_signed, WS_GetCompositeParams. rewrite Ep. split; [done|]. by intros (? & ? & ? & _). }
  assert (Eg : WS_GetCompositeParams id = Ok p) by (by apply WS_GetCompositeParams_run). rewrite Eg.
  erewrite ST_bind_ok by reflexivity. destruct (composite_params_sizes id p Ep) as ((_&Hh)&Hm&_). unfold guard_err.
  destruct (Z.ltb_spec WC_MAX_DIGEST_SIZE (tradHashSz p)); [lia|]. erewrite ST_bind_ok by reflexivity.
  destruct (composite_size_ok p (blen sig)) eqn:Es.
  2: { split; [done|]. intros (p' & ? & E' & Es' & _). rewrite Ep in E'. injection E' as <-. by rewrite Es in Es'. }
  erewrite ST_bind_ok by reflexivity. destruct (mPrime_of_run p msg s) as (r & Er & Hr).
  assert (Hsz : is_word32 (blen (slice sig (mldsaSigSz p) (blen sig - mldsaSigSz p)))).
  { unfold is_word32, slice, blen in *. rewrite length_take, length_drop. lia. }
  split.
  - intros Hb s' E.
    assert (Forall is_byte (slice sig (mldsaSigSz p) (blen sig - mldsaSigSz p))) by (unfold slice; by apply Forall_take, Forall_drop).
    apply ST_bind_inv in E as (m & s1 & E1 & E). rewrite E1 in Er. injection Er as <- ->.
    destruct (proj1 (Hr m) eq_refl) as (h & Hh' & ->).
    apply ST_bind_inv in E as ([] & s2 & E2 & E).
    exists p, h. do 3 (split; [done|]). cbv zeta. split; [by eapply (trad_verify_iff _ _ _ _ s)|].
    by destruct (wc_MlDsaKey_VerifyCtx _ _ _ _) as [[]|].
  - intros (p' & h & E' & _ & Hh' & Ht & Hv). rewrite Ep in E'. injection E' as <-.
    assert (r = Ok (BuildCompositeMPrime p h)) as -> by (apply Hr; by exists h).
    rewrite (ST_bind_ok _ _ _ _ _ Er). erewrite ST_bind_ok by (by apply (trad_verify_iff _ _ _ _ s)).
    by rewrite Hv.
Qed.

(** C21: A composite signature is accepted exactly when its length fits the algorithm and
    both its halves sign the message's representative: the ML-DSA half, of its fixed
    size, under the algorithm's label, and the traditional half, for ECDSA two numbers
    with nothing after them. *)
Theorem VerifyMlDsaComposite_iff id key sig msg s :
  is_word32 (blen sig) -> Forall is_byte sig ->
  VerifyMlDsaComposite id key sig msg s = (Ok tt, s) <-> composite_signed id key sig msg.
Proof.
  intros Hl Hb. destruct (VerifyMlDsaComposite_run id key sig msg s Hl) as [K1 K2]. split; [by apply K1|by apply K2].
Qed.

(** No two algorithms have a representative in common, so a signature for one is none
    for another. *)
Lemma BuildCompositeMPrime_separate id id' p p' h h' :
  composite_params id = Some p -> composite_params id' = Some p' ->
  BuildCompositeMPrime p h = BuildCompositeMPrime p' h' -> id = id'.
Proof.
  intros E E' K. apply app_inv_head in K. revert K.
  destruct id; try discriminate E; injection E as <-; destruct id'; try discriminate E'; injection E' as <-; try done.
Qed.
End Accepted.

(** ** What is signed *)

(** A number with or without a zero in front. *)
Definition padded (x y : bytes) : Prop := y = x \/ y = 0 :: x.

(** wolfCrypt's keys come in pairs, and a signature made with one half of a pair
    verifies with the other. *)
Class SignLaws `{SignKeys} := {
  ml_pair : MlDsaKey -> MlDsaKey -> Prop;
  trad_pair : trad_key -> trad_key -> Prop;
  sign_mldsa sk pk ctx n m g sig g' :
    ml_pair sk pk -> wc_MlDsaKey_SignCtx sk ctx n m g = (inl sig, g') -> wc_MlDsaKey_VerifyCtx pk sig ctx m = Some true;
  sign_ecc sk key : trad_pair (TradEcc sk) key -> exists pk, key = TradEcc pk /\
    forall d n g asn g' r s r' s', wc_ecc_sign_hash d n sk g = (inl asn, g') -> wc_ecc_sig_to_rs asn = inl (r, s) ->
      padded r r' -> padded s s' ->
      exists asn', wc_ecc_rs_raw_to_sig r' s' ECDSA_ASN_SIG_SZ = Ok asn' /\ forall h, wc_SignatureVerifyHash h d asn' pk = Ok tt;
  sign_ed25519 sk key : trad_pair (TradEd25519 sk) key -> exists pk, key = TradEd25519 pk /\
    forall m n sig, wc_ed25519_sign_msg m n sk = inl sig -> wc_ed25519_verify_msg sig m pk = Ok true;
  sign_ed448 sk key : trad_pair (TradEd448 sk) key -> exists pk, key = TradEd448 pk /\
    forall m n sig, wc_ed448_sign_msg m n sk = inl sig -> wc_ed448_verify_msg sig m pk = inl true
}.

Section Signed.
Context `{CTX} `{Crypto} `{Hashes} `{PubKeys} `{!SignKeys} `{!SignLaws}.

Lemma EncodeEcdsaRsToMpints_run room r s rPad sPad w :
  is_word32 room -> EncodeEcdsaRsToMpints room r s rPad sPad = Ok w ->
  exists r' s', padded r r' /\ padded s s' /\ w = wstring r' ++ wstring s' /\ blen w <= room.
Proof.
  intros Hr. unfold EncodeEcdsaRsToMpints, padded. pose proof (blen_nonneg r). pose proof (blen_nonneg s).
  destruct (Z.ltb_spec room (2 * LENGTH_SZ + blen r + b2z rPad + blen s + b2z sPad)) as [|Hle]; [done|]. cbv zeta beta.
  intros Ew%(f_equal (fun r => match r with Ok x => x | _ => w end)). cbv beta iota in Ew. subst w.
  assert (E : forall (d : bytes) (pad : bool), 0 <= blen d + 1 -> blen d + b2z pad < 2 ^ 32 ->
    c32toa (blen d +w b2z pad) ++ (if pad then [0] else []) ++ d = wstring (if pad then 0 :: d else d)).
  { intros d pad _ Hd. pose proof (blen_nonneg d). unfold wstring. destruct pad; cbn [b2z] in *; rewrite wrap32_small by lia.
    - rewrite blen_cons. by rewrite Z.add_comm.
    - by rewrite Z.add_0_r. }
  assert (0 <= b2z rPad <= 1 /\ 0 <= b2z sPad <= 1) as [? ?] by (by destruct rPad, sPad).
  unfold is_word32, LENGTH_SZ in *. rewrite (E r), (E s) by clia. exists (if rPad then 0 :: r else r), (if sPad then 0 :: s else s).
  split; [destruct rPad; tauto|]. split; [destruct sPad; tauto|]. split; [done|].
  unfold wstring. rewrite !blen_app, !c32toa_length. destruct rPad, sPad; cbn [b2z] in *; rewrite ?blen_cons; clia.
Qed.

Lemma WS_Hash_Helper_inv h msg n d (s s' : WOLFSSH) : WS_Hash_Helper h msg n s = (Ok d, s') -> s' = s /\ hashes_to h msg n d.
Proof. destruct (WS_Hash_Helper_run h msg n s) as (r & E & Hr). rewrite E. intros [= -> <-]. split; [done|by apply Hr]. Qed.

Lemma attempt_inv {A} (m : M A) (s : WOLFSSH) r s' :
  attempt m s = (Ok r, s') -> match r with inl a => m s = (Ok a, s') | inr e => m s = (Err e, s') end.
Proof. unfold attempt. destruct (m s) as [[a|e|] s1]; by intros [= <- <-]. Qed.

Lemma or_else_inv {A} (m : M A) e (s : WOLFSSH) a s' : or_else m e s = (Ok a, s') -> m s = (Ok a, s').
Proof. unfold or_else. intros E. apply ST_bind_inv in E as ([b|x] & s1 & E1%attempt_inv & E); [|done]. by injection E as -> ->. Qed.

Lemma CompositeEccSign_run sk pk params m room sig (s s' : WOLFSSH) :
  is_word32 room -> tradType params = TRAD_TYPE_ECC -> (exists h, tradHashId params = TradHash h) -> trad_pair (TradEcc sk) pk ->
  CompositeEccSign (TradEcc sk) (tradHashId params) (tradHashSz params) m room s = (Ok sig, s') ->
  trad_signed params pk sig m /\ blen sig <= room.
Proof.
  intros Hroom Ht (h & Eh) Hp. destruct (sign_ecc _ _ Hp) as (k & -> & Hk). unfold trad_signed. rewrite Ht, Eh.
  unfold CompositeEccSign, guard_err. intros E. apply ST_bind_inv in E as ([] & s1 & E0 & E).
  destruct (_ <? _); [done|]. injection E0 as <-. apply ST_bind_inv in E as (k' & s1 & [= <- <-] & E).
  apply ST_bind_inv in E as ([w|e] & s2 & E1%attempt_inv & E); [|done]. injection E as -> ->.
  apply ST_bind_inv in E1 as (d & s3 & [-> Hd]%WS_Hash_Helper_inv & E1).
  apply ST_bind_inv in E1 as (asn & s4 & E2 & E1). unfold with_rng in E2.
  destruct (wc_ecc_sign_hash _ _ _ _) as [[asn'|e] g] eqn:Es; [|done]. injection E2 as -> <-.
  apply ST_bind_inv in E1 as ([r q] & s5 & E3 & E1). unfold call in E3.
  destruct (wc_ecc_sig_to_rs asn) as [rs|e] eqn:Ers; [|done]. injection E3 as -> <-.
  apply or_else_inv in E1. unfold lift_res in E1. injection E1 as E1 <-.
  destruct (EncodeEcdsaRsToMpints_run _ _ _ _ _ _ Hroom E1) as (r' & q' & Hr & Hq & -> & Hle). split; [|done].
  destruct (Hk _ _ _ _ _ _ _ r' q' Es Ers Hr Hq) as (asn' & Ea & Ev).
  by exists h, r', q', asn', d.
Qed.

Lemma ecc_params_hash id p : composite_params id = Some p -> tradType p = TRAD_TYPE_ECC -> exists h, tradHashId p = TradHash h.
Proof. destruct id; try discriminate; intros [= <-]; try discriminate; by eexists. Qed.

Lemma composite_params_room id p : composite_params id = Some p ->
  is_word32 (tradSigSz p) /\ mldsaSigSz p + tradSigSz p < 2 ^ 32 /\
  match tradType p with TRAD_TYPE_ECC => True | TRAD_TYPE_ED25519 => tradSigSz p = ED25519_SIG_SIZE | TRAD_TYPE_ED448 => tradSigSz p = ED448_SIG_SIZE end.
Proof. destruct id; try discriminate; intros [= <-]; vm_compute; repeat split; try done; discriminate. Qed.

Lemma trad_sign_run id params sk pk m sig (s s' : WOLFSSH) :
  composite_params id = Some params -> trad_pair sk pk ->
  sign (WS_GetTradOps (tradType params)) sk (tradHashId params) (tradHashSz params) m (tradSigSz params) s = (Ok sig, s') ->
  trad_signed params pk sig m /\ match tradType params with TRAD_TYPE_ECC => blen sig <= tradSigSz params | _ => blen sig = tradSigSz params end.
Proof.
  intros Ep Hp. destruct (composite_params_room _ _ Ep) as (Hroom & _ & Hsz). destruct (tradType params) eqn:Et;
    cbn [WS_GetTradOps compositeEccOps compositeEd25519Ops compositeEd448Ops sign].
  - destruct sk as [sk|sk|sk].
    + apply CompositeEccSign_run; [done|done|by eapply ecc_params_hash|done].
    + unfold CompositeEccSign, guard_err. by destruct (_ <? _).
    + unfold CompositeEccSign, guard_err. by destruct (_ <? _).
  - intros E. apply ST_bind_inv in E as ([] & s1 & E0 & E). destruct sk as [sk|sk|sk]; [done| |done].
    apply ST_bind_inv in E as (k & s2 & [= <- <-] & E). apply ST_bind_inv in E as (w & s3 & E1%or_else_inv & E).
    unfold call in E1. destruct (wc_ed25519_sign_msg _ _ _) as [w'|e] eqn:Es; [|done]. injection E1 as -> <-.
    apply ST_bind_inv in E as ([] & s4 & E2 & E). unfold guard_err in E2. destruct (Z.eqb_spec (blen w) ED25519_SIG_SIZE); [|done].
    injection E as <- _. destruct (sign_ed25519 _ _ Hp) as (k & -> & Hk). unfold trad_signed. rewrite Et. split; [by eapply Hk|congruence].
  - intros E. apply ST_bind_inv in E as ([] & s1 & E0 & E). destruct sk as [sk|sk|sk]; [done..|].
    apply ST_bind_inv in E as (k & s2 & [= <- <-] & E). apply ST_bind_inv in E as (w & s3 & E1%or_else_inv & E).
    unfold call in E1. destruct (wc_ed448_sign_msg _ _ _) as [w'|e] eqn:Es; [|done]. injection E1 as -> <-.
    apply ST_bind_inv in E as ([] & s4 & E2 & E). unfold guard_err in E2. destruct (Z.eqb_spec (blen w) ED448_SIG_SIZE); [|done].
    injection E as <- _. destruct (sign_ed448 _ _ Hp) as (k & -> & Hk). unfold trad_signed. rewrite Et. split; [by eapply Hk|congruence].
Qed.

Lemma sign_composite_run id params sk pk msg room sig (s s' : WOLFSSH) :
  composite_params id = Some params -> ml_pair (fst sk) (fst pk) -> trad_pair (snd sk) (snd pk) ->
  sign_composite params sk msg room s = (Ok sig, s') -> composite_signed id pk sig msg /\ is_word32 (blen sig).
Proof.
  intros Ep Hml Htr. destruct (composite_params_room _ _ Ep) as (_ & Hroom & Hsz).
  destruct (composite_params_sizes _ _ Ep) as (_ & Hml0 & _).
  unfold sign_composite, guard_err. intros E. apply ST_bind_inv in E as ([] & s1 & _ & E). apply ST_bind_inv in E as ([] & s2 & _ & E).
  apply ST_bind_inv in E as (m & s3 & E1 & E). destruct (mPrime_of_run params msg s2) as (r & Er & Hr).
  rewrite E1 in Er. injection Er as <- ->. destruct (proj1 (Hr m) eq_refl) as (h & Hh & Em).
  apply ST_bind_inv in E as (w & s4 & E2%or_else_inv & E). unfold with_rng in E2.
  destruct (wc_MlDsaKey_SignCtx _ _ _ _ _) as [[w'|e] g] eqn:Es; [|done]. injection E2 as -> <-.
  apply ST_bind_inv in E as ([] & s5 & E3 & E). destruct (Z.eqb_spec (blen w) (mldsaSigSz params)) as [Ew|]; [|done].
  apply ST_bind_inv in E as (t & s6 & E4 & E). injection E as <- _.
  destruct (trad_sign_run _ _ _ _ _ _ _ _ Ep Htr E4) as [Ht Hts]. pose proof (blen_nonneg t).
  assert (blen t <= tradSigSz params) by (destruct (tradType params); lia).
  split; [|unfold is_word32; rewrite blen_app; lia]. exists params, h. split; [done|]. split; [|split; [done|]].
  - unfold composite_size_ok. rewrite blen_app, Ew. destruct (Z.leb_spec (mldsaSigSz params) (mldsaSigSz params + blen t)); [|lia].
    cbn [andb]. destruct (tradType params); [apply Z.leb_le|apply Z.eqb_eq..]; lia.
  - cbv zeta. rewrite <- Em, <- Ew.
    replace (slice (w ++ t) (blen w) (blen (w ++ t) - blen w)) with t.
    2: { rewrite blen_app. replace (blen w + blen t - blen w) with (blen t) by lia. symmetry.
         rewrite <- (app_nil_r t) at 1. apply slice_app_here. }
    split; [done|]. replace (slice (w ++ t) 0 (blen w)) with w by (symmetry; apply (slice_app_here [])).
    by eapply sign_mldsa.
Qed.

(** C20: The composite signature an endpoint makes of the exchange hash with its own key
    is accepted, by whoever holds the other halves of the two keys, as a signature of
    that hash - in the given room, whatever numbers ECDSA drew. *)
Theorem composite_sign_verify id sk pk room sig s s' t :
  ml_pair (fst sk) (fst pk) -> trad_pair (snd sk) (snd pk) ->
  SignHMlDsaComposite id sk room s = (Ok sig, s') ->
  VerifyMlDsaComposite id pk sig (kx_h (kex s)) t = (Ok tt, t).
Proof.
  intros Hml Htr E. unfold SignHMlDsaComposite in E. apply ST_bind_inv in E as (p & s1 & E1 & E). unfold lift_res in E1.
  injection E1 as Ep%WS_GetCompositeParams_run <-. apply ST_bind_inv in E as (s2 & s3 & [= <- <-] & E).
  destruct (sign_composite_run _ _ _ _ _ _ _ _ _ Ep Hml Htr E) as [Hs Hw].
  by apply (VerifyMlDsaComposite_run id pk sig (kx_h (kex s)) t Hw).
Qed.
End Signed.

(** Signatures that are the message they sign, or the start of it, in keys that are
    nothing. *)
#[export] Instance toy_signers : SignKeys := {|
  ed448_key := unit;
  wc_ed448_init_ex := 0;
  wc_ed448_import_public _ := inl tt;
  wc_ed448_verify_msg sig m _ := inl (bytes_eqb sig (slice m 0 (blen sig)));
  wc_Shake256 m n := inl (slice (m ++ zeros n) 0 n);
  wc_ecc_sign_hash digest room _ g := (if blen digest <=? ECDSA_ASN_SIG_SZ then inl digest else inr WS_BUFFER_E, g);
  wc_ecc_sig_to_rs sig := inl ([], sig);
  wc_ed25519_sign_msg m n _ := inl (slice m 0 n);
  wc_ed448_sign_msg m n _ := inl (slice m 0 n);
  wc_MlDsaKey_SignCtx _ ctx n m g :=
    (if blen (ctx ++ m) <=? n then inl (zeros (n - blen (ctx ++ m)) ++ ctx ++ m) else inr WS_BUFFER_E, g);
  wc_RsaSSL_Sign d _ _ g := (inl d, g);
  wc_RsaPrivateKeyDecodeRaw n _ _ _ _ _ := inl (blen n);
  wc_ecc_import_private_key _ pub := inl (pub, ECC_SECP256R1);
  wc_ed25519_import_private_key _ pub := inl pub;
  wc_ed448_import_private_key _ _ := inl tt;
  wc_MlDsaKey_ImportKey _ _ pub := inl pub;
  wc_MlDsaKey_MakeKeyFromSeed _ seed := inl seed;
  wc_ecc_export_x963 k := inl (fst k);
  wc_ed25519_export_public k := inl k;
  wc_ed448_export_public _ := inl [];
  wc_MlDsaKey_ExportPubRaw k := inl k;
  wc_ecc_export_private_only k := inl (fst k);
  wc_ed25519_export_private_only k := inl k;
  wc_ed448_export_private_only _ := inl []
|}.

Lemma without_zeros_padded x y : padded x y -> without_zeros y = without_zeros x.
Proof. by intros [-> | ->]. Qed.

Lemma without_zeros_len x : blen (without_zeros x) <= blen x.
Proof. induction x as [|[] x IH]; cbn [without_zeros]; rewrite ?blen_cons; lia. Qed.

Lemma slice_own_prefix m n : slice m 0 (blen (slice m 0 n)) = slice m 0 n.
Proof.
  unfold slice, blen. change (Z.to_nat 0) with 0%nat. rewrite !drop_0, length_take, Nat2Z.id. destruct (Nat.le_ge_cases (Z.to_nat n) (length m)).
  - by rewrite Nat.min_l by lia.
  - rewrite Nat.min_r by lia. by rewrite !take_ge by lia.
Qed.

#[export] Instance toy_sign_laws : SignLaws.
Proof.
  refine {| ml_pair _ _ := True; trad_pair a b := a = b |}.
  - intros sk pk ctx n m g sig g' _. cbn. destruct (Z.leb_spec (blen (ctx ++ m)) n); [|done]. intros [= <- _].
    f_equal. apply bytes_eqb_spec. rewrite (length_app (zeros _)), Nat.add_sub.
    by rewrite drop_app_length.
  - intros sk key <-. exists sk. split; [done|]. cbn. intros d n g asn g' r s r' s'.
    destruct (Z.leb_spec (blen d) ECDSA_ASN_SIG_SZ); [|done]. intros [= <- _] [= <- <-] Hr Hs.
    rewrite (without_zeros_padded _ _ Hr), (without_zeros_padded _ _ Hs). cbn [without_zeros Datatypes.app].
    pose proof (without_zeros_len d). destruct (Z.leb_spec (blen (without_zeros d)) ECDSA_ASN_SIG_SZ); [|lia].
    eexists. split; [done|]. intros _. by rewrite bytes_eqb_refl.
  - intros sk key <-. exists sk. split; [done|]. cbn. intros m n sig [= <-]. by rewrite slice_own_prefix, bytes_eqb_refl.
  - intros sk key <-. exists sk. split; [done|]. cbn. intros m n sig [= <-]. by rewrite slice_own_prefix, bytes_eqb_refl.
Defined.

Definition with_hash (h : bytes) : WOLFSSH := (new_session []) <| kex; kx_h := h |>.
Definition sample_pair : @composite_key toy_keys toy_signers :=
  pair (A := @MlDsaKey toy_keys) [] (@TradEcc toy_keys toy_signers (pair [4] ECC_SECP256R1)).
Definition sample_composite : bytes :=
  match (SignHMlDsaComposite ID_MLDSA44_ES256 sample_pair 5000 (with_hash [7; 8; 9])).1 with
  | Ok sig => sig | _ => []
  end.

Example composite_sign_verify_witness :
  blen sample_composite = 2420 + 4 + 0 + 4 + 32 /\
  (VerifyMlDsaComposite ID_MLDSA44_ES256 sample_pair sample_composite [7; 8; 9] (new_session [])).1 = Ok tt.
Proof.
  split; [vm_compute; reflexivity|].
  destruct (SignHMlDsaComposite ID_MLDSA44_ES256 sample_pair 5000 (with_hash [7; 8; 9])) as [r s'] eqn:E.
  assert (r = Ok sample_composite) as -> by (change r with (r, s').1; rewrite <- E; vm_compute; reflexivity).
  pose proof (composite_sign_verify ID_MLDSA44_ES256 sample_pair sample_pair
    5000 sample_composite (with_hash [7; 8; 9]) s' (new_session [])) as K.
  change (kx_h (kex (with_hash [7; 8; 9]))) with [7; 8; 9] in K. by rewrite (K I eq_refl E).
Defined.

Example VerifyMlDsaComposite_iff_witness :
  composite_signed ID_MLDSA44_ES256 sample_pair sample_composite [7; 8; 9] /\
  ~ composite_signed ID_MLDSA44_ES256 sample_pair sample_composite [7; 8].
Proof.
  split.
  - apply (VerifyMlDsaComposite_iff ID_MLDSA44_ES256 sample_pair sample_composite [7; 8; 9] (new_session []));
      [split; by vm_compute|by apply bytes_checked; vm_compute|vm_compute; reflexivity].
  - rewrite <- (VerifyMlDsaComposite_iff ID_MLDSA44_ES256 sample_pair sample_composite [7; 8] (new_session []));
      [vm_compute; discriminate|split; by vm_compute|by apply bytes_checked; vm_compute].
Defined.
