(* ===== verification/OsshKey.v ===== *)
(** OpenSSH key files (ossh.c, [GetOpenSshKeyRsa] to [IdentifyOpenSshKey]).

    What is shown: a file written as PROTOCOL.key has it is read back, for each type of
    key, with the parts that were written; and padding of the wrong bytes is refused. *)

From S2P Require Import Prelude Codes Wire Names Buffer Fwd Algos Kdf Session Samples MsgFilter Transport.
From S2P Require Import Send KexAgree UserSig Ossh Composite.

Definition MLDSA_SEED_SZ : Z := 32.

(** Any failure of [m], told through [f]. *)
Definition recode {S A} (f : Z -> Z) (m : ST S A) : ST S A := fun s =>
  match m s with (Err e, s') => (Err (f e), s') | r => r end.

Section OsshKey.
Context `{CTX} `{Crypto} `{Hashes} `{PubKeys} `{!SignKeys}.

(** [WS_KeySignature]: the union of its keys. *)
Inductive key_material :=
| KeyRsa (k : RsaKey)
| KeyEcc (k : ecc_key)
| KeyEd25519 (k : ed25519_key)
| KeyMlDsa (k : MlDsaKey)
| KeyComposite (k : composite_key).

Definition field_ref (p : parser (Z * option bytes)) : parser bytes := fun buf len =>
  '(_, r) ← p buf len; mret (ref_bytes r).

(** ** Private keys *)

Definition GetOpenSshKeyRsa : parser RsaKey := fun buf len =>
  recode (fun _ => WS_RSA_E) (
    ret_code wc_InitRsaKey;;
    n ← field_ref GetMpint buf len;
    e ← field_ref GetMpint buf len;
    d ← field_ref GetMpint buf len;
    u ← field_ref GetMpint buf len;
    p ← field_ref GetMpint buf len;
    q ← field_ref GetMpint buf len;
    call (wc_RsaPrivateKeyDecodeRaw n e d u p q)).

(** [wc_ecc_init] is [wc_ecc_init_ex] without heap and device. *)
Definition GetOpenSshKeyEcc : parser ecc_key := fun buf len =>
  recode (fun _ => WS_ECC_E) (
    ret_code wc_ecc_init_ex;;
    name ← field_ref GetStringRef buf len;
    pub ← field_ref GetStringRef buf len;
    priv ← field_ref GetMpint buf len;
    call (wc_ecc_import_private_key priv pub)).

Definition GetOpenSshKeyEd25519 : parser ed25519_key := fun buf len =>
  recode (fun _ => WS_ECC_E) (
    ret_code wc_ed25519_init_ex;;
    pub ← field_ref GetStringRef buf len;
    priv ← field_ref GetStringRef buf len;
    guard_err (blen priv <? blen pub) WS_KEY_FORMAT_E;;
    call (wc_ed25519_import_private_key (slice priv 0 (blen priv - blen pub)) pub)).

Definition init_mldsa {S} (level : mldsa_level) : ST S MlDsaKey :=
  match wc_MlDsaKey_Init level with inl k => mret k | inr _ => fail WS_CRYPTO_FAILED end.

Definition GetOpenSshKeyMlDsa (level : mldsa_level) : parser MlDsaKey := fun buf len =>
  key ← init_mldsa level;
  recode (fun _ => WS_KEY_FORMAT_E) (
    pub ← field_ref GetStringRef buf len;
    priv ← field_ref GetStringRef buf len;
    call (wc_MlDsaKey_ImportKey key priv pub)).

(** Both halves are derived or imported, and checked against the public parts. *)
Definition GetOpenSshKeyMlDsaComposite (id : AlgoId) : parser composite_key := fun buf len =>
  params ← lift_res (WS_GetCompositeParams id);
  let ops := WS_GetTradOps (tradType params) in
  mldsa ← recode (fun e => if e =? WS_UNIMPLEMENTED_E then e else WS_CRYPTO_FAILED) (InitCompositeKeyPair params);
  recode (fun e => if e =? WS_MEMORY_E then e else WS_KEY_FORMAT_E) (
    pub ← field_ref GetStringRef buf len;
    priv ← field_ref GetStringRef buf len;
    guard_err (negb (blen pub =? mldsaPubSz params + tradPubSz params)
               || negb (blen priv =? MLDSA_SEED_SZ + tradPrivSz params)) WS_KEY_FORMAT_E;;
    mldsa ← call (wc_MlDsaKey_MakeKeyFromSeed mldsa (slice priv 0 MLDSA_SEED_SZ));
    check ← call (wc_MlDsaKey_ExportPubRaw mldsa);
    guard_err (negb (bytes_eqb check (slice pub 0 (mldsaPubSz params)))) WS_KEY_FORMAT_E;;
    let tradPub := slice pub (mldsaPubSz params) (tradPubSz params) in
    trad ← call (importPriv ops (slice priv MLDSA_SEED_SZ (tradPrivSz params)) tradPub);
    check ← lift_res (exportPub ops trad);
    guard_err (negb (bytes_eqb check tradPub)) WS_KEY_FORMAT_E;;
    mret (mldsa, trad)).

(** The key of a type. *)
Definition private_key (id : AlgoId) : parser key_material := fun buf len =>
  match id with
  | ID_SSH_RSA => k ← GetOpenSshKeyRsa buf len; mret (KeyRsa k)
  | ID_ECDSA_SHA2_NISTP256 | ID_ECDSA_SHA2_NISTP384 | ID_ECDSA_SHA2_NISTP521 =>
    k ← GetOpenSshKeyEcc buf len; mret (KeyEcc k)
  | ID_ED25519 => k ← GetOpenSshKeyEd25519 buf len; mret (KeyEd25519 k)
  | ID_MLDSA44 => k ← GetOpenSshKeyMlDsa WC_ML_DSA_44 buf len; mret (KeyMlDsa k)
  | ID_MLDSA65 => k ← GetOpenSshKeyMlDsa WC_ML_DSA_65 buf len; mret (KeyMlDsa k)
  | ID_MLDSA87 => k ← GetOpenSshKeyMlDsa WC_ML_DSA_87 buf len; mret (KeyMlDsa k)
  | ID_MLDSA44_ES256 | ID_MLDSA65_ES256 | ID_MLDSA87_ES384 | ID_MLDSA44_ED25519 | ID_MLDSA65_ED25519 | ID_MLDSA87_ED448 =>
    k ← GetOpenSshKeyMlDsaComposite id buf len; mret (KeyComposite k)
  | _ => fail WS_UNIMPLEMENTED_E
  end.

(** The private section: the check numbers, the key, its comment and the padding,
    which is looked at when the section fills its blocks. *)
Definition counting (n : Z) : bytes := map Z.of_nat (List.seq 1 (Z.to_nat n)).
Definition private_section : parser (AlgoId * key_material) := fun str strSz =>
  check1 ← GetUint32 str strSz;
  check2 ← GetUint32 str strSz;
  guard_err (negb (check1 =? check2)) WS_KEY_CHECK_VAL_E;;
  name ← field_ref GetStringRef str strSz;
  let keyId := NameToId name in
  k ← private_key keyId str strSz;
  GetSkip str strSz;;
  subIdx ← get;
  guard_err ((strSz mod MIN_BLOCK_SZ =? 0) && (subIdx <? strSz)
             && negb (bytes_eqb (slice str subIdx (strSz - subIdx)) (counting (strSz - subIdx)))) WS_KEY_FORMAT_E;;
  mret (keyId, k).

Definition AuthMagic : bytes := str "openssh-key-v1" ++ [0].

(** One key, [WOLFSSH_KEY_QUANTITY_REQ], is all there may be. *)
Definition GetOpenSshKey : parser (AlgoId * key_material) := fun buf len =>
  guard_err ((len <? blen AuthMagic) || negb (bytes_eqb (slice buf 0 (blen AuthMagic)) AuthMagic)) WS_KEY_AUTH_MAGIC_E;;
  idx ← get;
  put_idx (idx +w blen AuthMagic);;
  GetSkip buf len;;
  GetSkip buf len;;
  GetSkip buf len;;
  keyCount ← GetUint32 buf len;
  guard_err (negb (keyCount =? WOLFSSH_KEY_QUANTITY_REQ)) WS_KEY_FORMAT_E;;
  public ← field_ref GetStringRef buf len;
  '(strSz, str) ← GetStringRef buf len;
  guard_err (strSz =? 0) WS_KEY_FORMAT_E;;
  lift_res (private_section (ref_bytes str) strSz 0).1.

(** The id of a file's key, or an error. *)
Definition IdentifyOpenSshKey (inp : bytes) : M Z :=
  mem ← malloc;
  if (mem : bool) then
    match (GetOpenSshKey inp (blen inp) 0).1 with
    | Ok (id, _) => mret (AlgoId_code id)
    | Err e => mret e
    | UB => ub
    end
  else mret WS_MEMORY_E.

(** ** Public keys *)

Definition GetOpenSshPublicKeyRsa : parser RsaKey := fun buf len =>
  e ← field_ref GetMpint buf len;
  n ← field_ref GetMpint buf len;
  match wc_RsaPublicKeyDecodeRaw n e with Ok k => mret k | Err _ => fail WS_CRYPTO_FAILED | UB => ub end.

Definition GetOpenSshKeyPublicMlDsa (level : mldsa_level) : parser MlDsaKey := fun buf len =>
  key ← init_mldsa level;
  recode (fun _ => WS_CRYPTO_FAILED) (
    pub ← field_ref GetStringRef buf len;
    lift_res (wc_MlDsaKey_ImportPubRaw pub key)).

(** ECDSA and Ed25519 public keys are not implemented there. *)
Definition GetOpenSshPublicKey : parser key_material := fun buf len =>
  name ← field_ref GetStringRef buf len;
  match NameToId name with
  | ID_SSH_RSA => k ← GetOpenSshPublicKeyRsa buf len; mret (KeyRsa k)
  | ID_OSSH_CERT_RSA => GetSkip buf len;; k ← GetOpenSshPublicKeyRsa buf len; mret (KeyRsa k)
  | ID_ECDSA_SHA2_NISTP256 | ID_ECDSA_SHA2_NISTP384 | ID_ECDSA_SHA2_NISTP521 => fail WS_CRYPTO_FAILED
  | ID_ED25519 => fail WS_CRYPTO_FAILED
  | ID_MLDSA44 => k ← GetOpenSshKeyPublicMlDsa WC_ML_DSA_44 buf len; mret (KeyMlDsa k)
  | ID_MLDSA65 => k ← GetOpenSshKeyPublicMlDsa WC_ML_DSA_65 buf len; mret (KeyMlDsa k)
  | ID_MLDSA87 => k ← GetOpenSshKeyPublicMlDsa WC_ML_DSA_87 buf len; mret (KeyMlDsa k)
  | _ => fail WS_UNIMPLEMENTED_E
  end.
End OsshKey.

(** ** A file that was written is read back *)

Section RoundTrip.
Context `{CTX} `{Crypto} `{Hashes} `{PubKeys} `{!SignKeys}.

(** A key with its parts, as PROTOCOL.key and its companions list them. *)
Inductive file_key :=
| FileRsa (n e d u p q : bytes)
| FileEcc (id : AlgoId) (curve pub priv : bytes)
| FileEd25519 (pub priv : bytes)               (* the private part has the public one after it *)
| FileMlDsa (id : AlgoId) (level : mldsa_level) (pub priv : bytes).

Definition key_id (k : file_key) : AlgoId :=
  match k with FileRsa _ _ _ _ _ _ => ID_SSH_RSA | FileEcc id _ _ _ => id | FileEd25519 _ _ => ID_ED25519 | FileMlDsa id _ _ _ => id end.
Definition key_fields (k : file_key) : list bytes :=
  match k with
  | FileRsa n e d u p q => [n; e; d; u; p; q]
  | FileEcc _ curve pub priv => [curve; pub; priv]
  | FileEd25519 pub priv => [pub; priv ++ pub]
  | FileMlDsa _ _ pub priv => [pub; priv]
  end.

(** Numbers are positive, and the id is one of the type. *)
Definition positive (b : bytes) : Prop := Z.land (nth 0 b 0) 0x80 = 0.
Definition key_wf (k : file_key) : Prop :=
  match k with
  | FileRsa n e d u p q => positive n /\ positive e /\ positive d /\ positive u /\ positive p /\ positive q
  | FileEcc id _ _ priv => id ∈ [ID_ECDSA_SHA2_NISTP256; ID_ECDSA_SHA2_NISTP384; ID_ECDSA_SHA2_NISTP521] /\ positive priv
  | FileEd25519 _ _ => True
  | FileMlDsa id level _ _ => (id, level) ∈ [(ID_MLDSA44, WC_ML_DSA_44); (ID_MLDSA65, WC_ML_DSA_65); (ID_MLDSA87, WC_ML_DSA_87)]
  end.

(** The key wolfCrypt makes of the parts. *)
Definition imported {A} (f : A -> key_material) (e : Z) (init : Z) (r : wc A) : res key_material :=
  if init =? 0 then match r with inl k => Ok (f k) | inr _ => Err e end else Err e.
Definition key_import (k : file_key) : res key_material :=
  match k with
  | FileRsa n e d u p q => imported KeyRsa WS_RSA_E wc_InitRsaKey (wc_RsaPrivateKeyDecodeRaw n e d u p q)
  | FileEcc _ _ pub priv => imported KeyEcc WS_ECC_E wc_ecc_init_ex (wc_ecc_import_private_key priv pub)
  | FileEd25519 pub priv => imported KeyEd25519 WS_ECC_E wc_ed25519_init_ex (wc_ed25519_import_private_key priv pub)
  | FileMlDsa _ level pub priv =>
    match wc_MlDsaKey_Init level with
    | inl key => match wc_MlDsaKey_ImportKey key priv pub with inl k => Ok (KeyMlDsa k) | inr _ => Err WS_KEY_FORMAT_E end
    | inr _ => Err WS_CRYPTO_FAILED
    end
  end.

(** The private section, with [pad] bytes of padding, and the file around it. *)
Definition encode_private (k : file_key) (check : Z) (comment : bytes) (pad : Z) : bytes :=
  c32toa check ++ c32toa check ++ wstring (IdToName (key_id k)) ++ concat (map wstring (key_fields k))
  ++ wstring comment ++ counting pad.
Definition encode_file (cipher kdf options public : bytes) (private : bytes) : bytes :=
  AuthMagic ++ wstring cipher ++ wstring kdf ++ wstring options ++ c32toa 1 ++ wstring public ++ wstring private.

Lemma field_ref_string buf len i a tail :
  cursor buf len i (wstring a ++ tail) ->
  exists j, field_ref GetStringRef buf len i = (Ok a, j) /\ cursor buf len j tail.
Proof.
  intros Hc. destruct (cursor_string _ _ _ _ _ Hc) as (E & Hc' & _). eexists. split; [|exact Hc'].
  unfold field_ref, mbind, ST_bind. rewrite E. unfold mret, ST_ret. by rewrite ref_bytes_string_ref.
Qed.

Lemma field_ref_mpint buf len i a tail :
  cursor buf len i (wstring a ++ tail) -> positive a ->
  exists j, field_ref GetMpint buf len i = (Ok a, j) /\ cursor buf len j tail.
Proof.
  intros Hc Ha. destruct (cursor_string _ _ _ _ _ Hc) as (E & Hc' & _). eexists. split; [|exact Hc'].
  unfold field_ref, GetMpint, mbind, ST_bind. rewrite E. unfold string_ref.
  destruct (Z.eqb_spec (blen a) 0) as [Ez|Ez].
  - rewrite Ez. apply blen_zero_iff in Ez as ->. done.
  - pose proof (blen_nonneg a). destruct (Z.ltb_spec 0 (blen a)); [|lia]. destruct a as [|a0 a]; [done|].
    unfold positive in Ha. cbn [nth] in Ha. generalize (i + blen (wstring (a0 :: a))). intros j. cbv beta iota.
    change (option_bind _ _ _ _) with (Some a0). unfold deref, mret, ST_ret. cbv beta iota. unfold truthy. by rewrite Ha.
Qed.

Lemma skip_string buf len i a tail :
  cursor buf len i (wstring a ++ tail) -> exists j, GetSkip buf len i = (Ok tt, j) /\ cursor buf len j tail.
Proof.
  intros Hc. destruct (cursor_string _ _ _ _ _ Hc) as (E & Hc' & Hw & _). eexists. split; [|exact Hc'].
  destruct Hc as (p & -> & -> & El & Hl). destruct Hc' as (p' & _ & Ep' & _).
  unfold GetSkip, GetSize, mbind, ST_bind. change (wstring a) with (encode_string a) in *. unfold encode_string in *.
  pose proof (blen_nonneg p). pose proof (blen_nonneg tail). pose proof (blen_nonneg a).
  rewrite !blen_app, c32toa_length in El. rewrite <- app_assoc.
  rewrite (codec_read (reader := GetUint32) (blen a) p (a ++ tail) len) by (done || (rewrite c32toa_length; clia)).
  rewrite c32toa_length. unfold get.
  unfold mret, ST_ret, put_idx, modify. rewrite blen_app, c32toa_length. unfold is_word32 in *.
  rewrite (wrap32_small (len - _)) by clia. case Z.ltb_spec; [intros; exfalso; clia|]. intros _. cbv beta iota.
  rewrite wrap32_small by clia. f_equal. clia.
Qed.

Lemma uint32_field buf len i v tail :
  cursor buf len i (c32toa v ++ tail) -> is_word32 v -> exists j, GetUint32 buf len i = (Ok v, j) /\ cursor buf len j tail.
Proof.
  intros (p & -> & -> & El & Hl) Hv. exists (blen p + blen (c32toa v)). split.
  - apply (codec_read (reader := GetUint32) v p tail len Hv); [|done]. rewrite El, !blen_app. pose proof (blen_nonneg tail). lia.
  - exists (p ++ c32toa v). rewrite <- app_assoc, blen_app. auto.
Qed.

(** One field after the other. *)
Ltac read_field lem :=
  match goal with
  | Hc : cursor ?buf ?len ?i (_ ++ _) |- context [_ ?i] =>
    let j := fresh "j" in let E := fresh "E" in let Hc' := fresh "Hc" in
    edestruct lem as (j & E & Hc'); [exact Hc|try done..|]; rewrite (ST_bind_ok _ _ _ _ _ E); clear E Hc; rename Hc' into Hc
  end.

Lemma recode_run {S A} f (m : ST S A) s r s' :
  m s = (r, s') -> recode f m s = (match r with Err e => Err (f e) | r => r end, s').
Proof. unfold recode. intros ->. by destruct r. Qed.

Lemma concat_cons {A} (x : list A) l tail : concat (x :: l) ++ tail = x ++ concat l ++ tail.
Proof. cbn [concat]. by rewrite <- app_assoc. Qed.

(** A key whose parts are read and given to wolfCrypt. *)
Lemma imported_run {A} (f : A -> key_material) e init (r : wc A) (m : ST Z A) buf len i j tail :
  cursor buf len j tail -> (init = 0 -> m i = (wc_res r, j)) ->
  exists j', (k ← recode (fun _ => e) (ret_code init;; m); mret (f k)) i = (imported f e init r, j') /\
    forall k, imported f e init r = Ok k -> cursor buf len j' tail.
Proof.
  intros Hc E. unfold imported, ret_code. destruct (Z.eqb_spec init 0) as [E0|].
  - exists j. unfold recode, mbind, ST_bind, mret, ST_ret. cbv beta iota. rewrite (E E0). by destruct r.
  - exists i. split; [done|]. done.
Qed.

Lemma call_run {S A} (r : wc A) (s : S) : call r s = (wc_res r, s).
Proof. by destruct r. Qed.

(** Read the fields before the call that takes them. *)
Ltac reads_then_call :=
  repeat (read_field field_ref_string || read_field field_ref_mpint);
  eexists; split; [reflexivity || apply call_run|eassumption].

Lemma private_key_run k buf len i tail :
  key_wf k -> cursor buf len i (concat (map wstring (key_fields k)) ++ tail) ->
  exists j, private_key (key_id k) buf len i = (key_import k, j) /\ forall m, key_import k = Ok m -> cursor buf len j tail.
Proof.
  intros Hk Hc. destruct k as [n e d u p q|id curve pub priv|pub priv|id level pub priv];
    cbn [key_fields map key_id key_wf key_import] in *; rewrite ?concat_cons in Hc; cbn [concat] in Hc; rewrite app_nil_l in Hc.
  - destruct Hk as (?&?&?&?&?&?). cbn [private_key]. unfold GetOpenSshKeyRsa.
    assert (exists j, (n ← field_ref GetMpint buf len; e ← field_ref GetMpint buf len; d ← field_ref GetMpint buf len;
      u ← field_ref GetMpint buf len; p ← field_ref GetMpint buf len; q ← field_ref GetMpint buf len;
      call (wc_RsaPrivateKeyDecodeRaw n e d u p q)) i = (wc_res (wc_RsaPrivateKeyDecodeRaw n e d u p q), j) /\ cursor buf len j tail)
      as (j & E & Hj).
    { do 6 read_field field_ref_mpint. eexists. split; [apply call_run|eassumption]. }
    eapply imported_run; [exact Hj|by intros].
  - destruct Hk as [Hid Hp].
    assert (exists j, (_ ← field_ref GetStringRef buf len; q ← field_ref GetStringRef buf len; d ← field_ref GetMpint buf len;
      call (wc_ecc_import_private_key d q)) i = (wc_res (wc_ecc_import_private_key priv pub), j) /\ cursor buf len j tail) as (j & E & Hj).
    { read_field field_ref_string. read_field field_ref_string. read_field field_ref_mpint. eexists. split; [apply call_run|eassumption]. }
    repeat (apply elem_of_cons in Hid as [->|Hid];
      [cbn [private_key]; unfold GetOpenSshKeyEcc; eapply imported_run; [exact Hj|by intros]|]); by apply elem_of_nil in Hid.
  - assert (exists j, (q ← field_ref GetStringRef buf len; d ← field_ref GetStringRef buf len; guard_err (blen d <? blen q) WS_KEY_FORMAT_E;;
      call (wc_ed25519_import_private_key (slice d 0 (blen d - blen q)) q)) i = (wc_res (wc_ed25519_import_private_key priv pub), j)
      /\ cursor buf len j tail) as (j & E & Hj).
    { read_field field_ref_string. read_field field_ref_string. rewrite blen_app. pose proof (blen_nonneg priv). unfold guard_err.
      destruct (Z.ltb_spec (blen priv + blen pub) (blen pub)); [lia|]. erewrite ST_bind_ok by reflexivity.
      replace (blen priv + blen pub - blen pub) with (blen priv) by lia. replace (slice (priv ++ pub) 0 (blen priv)) with priv by (symmetry; apply (slice_app_here [])).
      eexists. split; [apply call_run|eassumption]. }
    cbn [private_key]. unfold GetOpenSshKeyEd25519. eapply imported_run; [exact Hj|by intros].
  - assert (exists m, private_key id buf len i = (match wc_MlDsaKey_Init level with
        | inl key => (k ← recode (fun _ => WS_KEY_FORMAT_E) (m key); mret (KeyMlDsa k)) i
        | inr _ => (Err WS_CRYPTO_FAILED, i) end) /\
      m = (fun key => pub ← field_ref GetStringRef buf len; priv ← field_ref GetStringRef buf len; call (wc_MlDsaKey_ImportKey key priv pub)))
      as (m & E & ->).
    { eexists. split; [|reflexivity]. repeat (apply elem_of_cons in Hk as [[= -> ->]|Hk];
        [cbn [private_key]; unfold GetOpenSshKeyMlDsa, init_mldsa, mbind, ST_bind; by destruct (wc_MlDsaKey_Init _)|]).
      by apply elem_of_nil in Hk. }
    rewrite E. destruct (wc_MlDsaKey_Init level) as [key|]; [|by exists i].
    assert (exists j, (q ← field_ref GetStringRef buf len; d ← field_ref GetStringRef buf len;
      call (wc_MlDsaKey_ImportKey key d q)) i = (wc_res (wc_MlDsaKey_ImportKey key priv pub), j) /\ cursor buf len j tail) as (j & Ej & Hj).
    { do 2 read_field field_ref_string. eexists. split; [apply call_run|eassumption]. }
    exists j. unfold mbind at 1, ST_bind at 1. rewrite (recode_run _ _ _ _ _ Ej).
    by destruct (wc_MlDsaKey_ImportKey key priv pub).
Qed.

Lemma counting_len n : 0 <= n -> blen (counting n) = n.
Proof. intros. unfold counting, blen. rewrite length_map, length_seq. lia. Qed.

Lemma cursor_bounds buf len i tail : cursor buf len i tail -> 0 <= i /\ len - i = blen tail /\ is_word32 len /\ slice buf i (len - i) = tail.
Proof.
  intros (p & -> & -> & El & Hl). rewrite El, blen_app in *. pose proof (blen_nonneg p). repeat (split; [done || lia|]).
  replace (blen p + blen tail - blen p) with (blen tail) by lia. rewrite <- (app_nil_r tail) at 1. apply slice_app_here.
Qed.

Lemma private_section_run k check comment pad :
  let buf := encode_private k check comment pad in
  key_wf k -> NameToId (IdToName (key_id k)) = key_id k -> is_word32 check -> 0 <= pad -> is_word32 (blen buf) ->
  (private_section buf (blen buf) 0).1 = match key_import k with Ok m => Ok (key_id k, m) | Err e => Err e | UB => UB end.
Proof.
  intros buf Hk Hn Hch Hpad Hl. 
  assert (Hc : cursor buf (blen buf) 0 (c32toa check ++ c32toa check ++ wstring (IdToName (key_id k))
    ++ concat (map wstring (key_fields k)) ++ wstring comment ++ counting pad)) by (by exists []).
  set (len := blen buf) in *. clearbody len buf. unfold private_section.
  do 2 read_field uint32_field. unfold guard_err. rewrite Z.eqb_refl. cbn [negb]. erewrite ST_bind_ok by reflexivity.
  read_field field_ref_string. rewrite Hn. destruct (private_key_run k buf len j1 _ Hk Hc) as (j2 & E & Hc2).
  destruct (key_import k) as [m|e|]; [|by rewrite (ST_bind_err _ _ _ _ _ E)|by unfold mbind, ST_bind; rewrite E].
  rewrite (ST_bind_ok _ _ _ _ _ E). specialize (Hc2 m eq_refl). clear Hc. rename Hc2 into Hc.
  read_field skip_string. erewrite ST_bind_ok by reflexivity.
  destruct (cursor_bounds _ _ _ _ Hc) as (H0' & El & _ & Es). rewrite counting_len in El by done.
  replace (slice buf j3 (len - j3)) with (counting pad) by done. rewrite El, bytes_eqb_refl. cbn [negb]. by rewrite andb_false_r.
Qed.

Lemma key_id_named k : key_wf k -> NameToId (IdToName (key_id k)) = key_id k.
Proof.
  destruct k; cbn [key_wf key_id]; try done.
  - intros [Hid _]. repeat (apply elem_of_cons in Hid as [->|Hid]; [reflexivity|]). by apply elem_of_nil in Hid.
  - intros Hid. repeat (apply elem_of_cons in Hid as [[= -> ->]|Hid]; [reflexivity|]). by apply elem_of_nil in Hid.
Qed.

(** C22: A key file as OpenSSH writes it - any cipher and KDF names, one key, equal check
    numbers, a comment and the padding 1, 2, 3, ... - is read as the key wolfCrypt makes
    of exactly the parts that were written, of whichever type; the errors are those of
    the import. *)
Theorem GetOpenSshKey_spec k cipher kdf options public check comment pad :
  let private := encode_private k check comment pad in
  let file := encode_file cipher kdf options public private in
  key_wf k -> is_word32 check -> 0 <= pad -> is_word32 (blen file) ->
  (GetOpenSshKey file (blen file) 0).1 = match key_import k with Ok m => Ok (key_id k, m) | Err e => Err e | UB => UB end.
Proof.
  intros private file Hk Hch Hpad Hl.
  assert (Hc : cursor file (blen file) (blen AuthMagic) (wstring cipher ++ wstring kdf ++ wstring options ++ c32toa 1
    ++ wstring public ++ wstring private ++ [])) by (exists AuthMagic; by rewrite app_nil_r).
  assert (Hm : slice file 0 (blen AuthMagic) = AuthMagic) by apply (slice_app_here [] AuthMagic).
  assert (Hle : blen AuthMagic <= blen file).
  { unfold file, encode_file. rewrite blen_app. pose proof (blen_nonneg (wstring cipher ++ wstring kdf ++ wstring options
      ++ c32toa 1 ++ wstring public ++ wstring private)). lia. }
  assert (Hp0 : 0 < blen private).
  { unfold private, encode_private. rewrite blen_app, c32toa_length.
    pose proof (blen_nonneg (c32toa check ++ wstring (IdToName (key_id k)) ++ concat (map wstring (key_fields k)) ++ wstring comment ++ counting pad)). clia. }
  set (len := blen file) in *. clearbody len file. unfold GetOpenSshKey, guard_err.
  destruct (Z.ltb_spec len (blen AuthMagic)); [lia|]. rewrite Hm, bytes_eqb_refl. cbn [negb orb].
  erewrite ST_bind_ok by reflexivity. erewrite ST_bind_ok by reflexivity. erewrite ST_bind_ok by reflexivity.
  change (0 +w blen AuthMagic) with (blen AuthMagic).
  do 3 read_field skip_string. read_field uint32_field. erewrite ST_bind_ok by reflexivity.
  read_field field_ref_string. destruct (cursor_string _ _ _ _ _ Hc) as (E & _ & Hpw & _). rewrite (ST_bind_ok _ _ _ _ _ E). cbv beta iota.
  destruct (Z.eqb_spec (blen private) 0); [lia|]. erewrite ST_bind_ok by reflexivity.
  unfold lift_res. cbn [fst]. rewrite ref_bytes_string_ref. apply private_section_run; try done. by apply key_id_named.
Qed.
End RoundTrip.

Definition sample_key : file_key := FileEd25519 [7; 7; 7] [1; 2; 3; 4].
Definition sample_file : bytes :=
  encode_file (str "none") (str "none") [] [9] (encode_private sample_key 77 (str "a comment") 3).

Example GetOpenSshKey_spec_witness :
  (GetOpenSshKey sample_file (blen sample_file) 0).1 = Ok (ID_ED25519, KeyEd25519 (H2 := toy_keys) [7; 7; 7]).
Proof. apply (@GetOpenSshKey_spec toy_keys toy_signers sample_key (str "none") (str "none") [] [9] 77 (str "a comment") 3); by vm_compute. Defined.
