(* ===== verification/CertMan.v ===== *)
(** The certificate manager (certman.c) and the chains a peer sends (internal.c,
    [ParseCertChain], [ParseCertChainVerify]).

    What is shown: a chain is accepted only when its leaf is signed along a path of
    CA certificates from one of the roots the manager was given, however many chains
    it has seen before; and what the walk through a certificate's extensions finds. *)

From S2P Require Import Prelude Codes Wire Names Buffer Fwd Algos Kdf Session Samples MsgFilter Transport.
From S2P Require Import Send Frames UserSig Ossh Composite.

(** ** wolfSSL's certificates *)

(** The fields of [DecodedCert] that are used. *)
Record DecodedCert := mkDecoded {
  isCA : bool;
  extKeyUsageSet : bool;
  extKeyUsage : Z;
  extExtKeyUsageSet : bool;
  extExtKeyUsage : Z;
  extExtKeyUsageSsh : Z;
  d_extensions : option bytes;      (* the bytes from cert->extensions on *)
  subjectHash : bytes;
  issuerHash : bytes;
  extAuthKeyIdSet : bool;
  extAuthKeyId : bytes;
  extSubjKeyId : bytes;
  countryOfCitizenship : bytes;
  extCertPolicies : bytes * bytes;
  afterDateFormat : Z;
  afterYear : option Z;             (* tm_year of the date, when it parses *)
  ca_subjectNameHash : option bytes;
  pathLength : Z;
  altNames : list Z;                (* their oidSum *)
  hasUUID : bool;                   (* wc_GetUUIDFromCert finds one *)
  signatureOID : Z
}.

(** A manager is its bytes. Loading a certificate changes it; the code of a call is
    [WOLFSSL_SUCCESS] or an error. *)
Class CertManager := {
  WOLFSSL_SUCCESS : Z;
  ASN_NO_SIGNER_E : Z;
  ASN_AFTER_DATE_E : Z;
  ASN_SIG_CONFIRM_E : Z;
  ASN_PARSE_E : Z;
  OCSP_CERT_REVOKED : Z;
  OCSP_NEED_URL : Z;
  MAX_CHAIN_DEPTH : Z;
  KEYUSE_KEY_CERT_SIGN : Z;
  KEYUSE_DIGITAL_SIG : Z;
  EXTKEYUSE_ANY : Z;
  EXTKEYUSE_CLIENT_AUTH : Z;
  EXTKEYUSE_SERVER_AUTH : Z;
  EXTKEYUSE_SSH_MSCL : Z;
  FASCN_OID : Z;
  ASN_UTC_TIME : Z;
  ASN_GENERALIZED_TIME : Z;
  FPKI_SIGNATURES : list Z;    (* CTC_SHA256wRSA to CTC_SHA512wECDSA *)
  wolfSSL_CertManagerVerifyBuffer : bytes -> bytes -> Z;
  wolfSSL_CertManagerLoadCABuffer : bytes -> bytes -> Z * bytes;
  wolfSSL_CertManagerLoadChainCA : bytes -> bytes -> Z * bytes;    (* LoadCABufferType as WOLFSSL_CHAIN_CA *)
  wolfSSL_CertManagerCheckOCSP : bytes -> bytes -> Z;
  (* wc_ParseCert without verification, with the manager the signer is looked up in *)
  wc_DecodeCert : option bytes -> bytes -> option DecodedCert
}.

(** ** Reading DER *)

Definition ASN_BOOLEAN : Z := 1.
Definition ASN_OCTET_STRING : Z := 4.
Definition ASN_OBJECT_ID : Z := 6.
Definition ASN_SEQUENCE : Z := 0x10.
Definition ASN_CONSTRUCTED : Z := 0x20.
Definition ASN_CONTEXT_SPECIFIC : Z := 0x80.
Definition ASN_SEQ : Z := Z.lor ASN_SEQUENCE ASN_CONSTRUCTED.

(** A tag and a length, within the first [sz] bytes: they, and the index of the
    content. *)
Definition DerGetHeader (inp : bytes) (sz i : Z) : option (Z * Z * Z) :=
  if (sz <=? i) || (sz - i <? 2) then None
  else
    let tag := nth (Z.to_nat i) inp 0 in
    let b := nth (Z.to_nat (i + 1)) inp 0 in
    let i := i + 2 in
    let header (l i : Z) := if sz - i <? l then None else Some (tag, l, i) in
    if b <? 0x80 then header b i
    else
      let n := Z.land b 0x7F in
      if (n =? 0) || (4 <? n) || (sz - i <? n) then None
      else header (fold_left (fun l x => wrap32 (Z.lor (Z.shiftl l 8) x)) (slice inp i n) 0) (i + n).

Definition kpSecureShellClientOid : bytes := [0x2B; 0x06; 0x01; 0x05; 0x05; 0x07; 0x03; 0x15].
Definition kpSecureShellServerOid : bytes := [0x2B; 0x06; 0x01; 0x05; 0x05; 0x07; 0x03; 0x16].
Definition extKeyUsageExtOid : bytes := [0x55; 0x1D; 0x25].

(** The answers of the walk. *)
Inductive oid_search := HasOid | NoOid | BadDer.

(** The purposes of an ExtendedKeyUsage, up to [extEnd]. *)
Fixpoint purposes (fuel : nat) (inp : bytes) (extEnd idx : Z) (oid : bytes) : oid_search :=
  if idx <? extEnd then
    match fuel with
    | O => BadDer
    | S n =>
      match DerGetHeader inp extEnd idx with
      | Some (tag, len, idx) =>
        if negb (tag =? ASN_OBJECT_ID) then BadDer
        else if bytes_eqb (slice inp idx len) oid then HasOid
        else purposes n inp extEnd (idx + len) oid
      | None => BadDer
      end
    end
  else NoOid.

(** The value of the extension, from the end of its OID. *)
Definition usage_value (fuel : nat) (inp : bytes) (extEnd idx : Z) (oid : bytes) : oid_search :=
  let octets tag len idx :=
    if negb (tag =? ASN_OCTET_STRING) then BadDer
    else
      match DerGetHeader inp (idx + len) idx with
      | Some (tag, len, idx) => if tag =? ASN_SEQ then purposes fuel inp (idx + len) idx oid else BadDer
      | None => BadDer
      end in
  match DerGetHeader inp extEnd idx with
  | None => BadDer
  | Some (tag, len, idx) =>
    if tag =? ASN_BOOLEAN then
      match DerGetHeader inp extEnd (idx + len) with
      | Some (tag, len, idx) => octets tag len idx
      | None => BadDer
      end
    else octets tag len idx
  end.

Fixpoint extensions_loop (fuel : nat) (inp : bytes) (stop idx : Z) (oid : bytes) : oid_search :=
  if idx <? stop then
    match fuel with
    | O => BadDer
    | S n =>
      match DerGetHeader inp stop idx with
      | Some (tag, len, idx) =>
        if negb (tag =? ASN_SEQ) then BadDer
        else
          let extEnd := idx + len in
          match DerGetHeader inp extEnd idx with
          | Some (tag, len, idx) =>
            if negb (tag =? ASN_OBJECT_ID) then BadDer
            else if bytes_eqb (slice inp idx len) extKeyUsageExtOid then usage_value n inp extEnd (idx + len) oid
            else extensions_loop n inp stop extEnd oid
          | None => BadDer
          end
      | None => BadDer
      end
    end
  else NoOid.

(** Every header takes two bytes, so the length is fuel enough. *)
Definition CertManExtKeyUsageHasOid (cert : DecodedCert) (oid : bytes) : oid_search :=
  match d_extensions cert with
  | None => NoOid
  | Some inp =>
    let sz := blen inp in
    let walk tag len idx := if tag =? ASN_SEQ then extensions_loop (length inp) inp (idx + len) idx oid else BadDer in
    if sz =? 0 then NoOid
    else
      match DerGetHeader inp sz 0 with
      | None => BadDer
      | Some (tag, len, idx) =>
        if tag =? Z.lor (Z.lor ASN_CONTEXT_SPECIFIC ASN_CONSTRUCTED) 3 then
          match DerGetHeader inp sz idx with
          | Some (tag, len, idx) => walk tag len idx
          | None => BadDer
          end
        else walk tag len idx
      end
  end.

Section CertMan.
Context `{CTX} `{CertManager}.

(** ** What a leaf is for *)

Definition has_purpose (cert : DecodedCert) (bit : Z) (oid : bytes) : bool :=
  truthy (Z.land (extExtKeyUsage cert) bit) ||
  match CertManExtKeyUsageHasOid cert oid with HasOid => true | _ => false end.
Definition CertManHasUserAuthEku (cert : DecodedCert) : bool := has_purpose cert EXTKEYUSE_CLIENT_AUTH kpSecureShellClientOid.
Definition CertManHasHostAuthEku (cert : DecodedCert) : bool := has_purpose cert EXTKEYUSE_SERVER_AUTH kpSecureShellServerOid.

(** [cmSide]: the endpoint the manager verifies for, or neither. *)
Definition CertManCheckLeafUsage (cert : DecodedCert) (cmSide : Z) : Z :=
  let check (ok : bool) := if ok then WS_SUCCESS else WS_CERT_KEY_USAGE_E in
  if extKeyUsageSet cert && (Z.land (extKeyUsage cert) KEYUSE_DIGITAL_SIG =? 0) then WS_CERT_KEY_USAGE_E
  else if negb (extExtKeyUsageSet cert) then WS_SUCCESS
  else if truthy (Z.land (extExtKeyUsage cert) EXTKEYUSE_ANY) then WS_SUCCESS
  else if cmSide =? WOLFSSH_ENDPOINT_SERVER then check (CertManHasUserAuthEku cert)
  else if cmSide =? WOLFSSH_ENDPOINT_CLIENT then check (CertManHasHostAuthEku cert)
  else check (CertManHasUserAuthEku cert || CertManHasHostAuthEku cert).

(** The profiles of the Federal PKI: policies, key purposes, SSH purposes, and
    whether a FASC-N is needed. *)
Inductive fpki_profile := PROFILE_FPKI_WORKSHEET_6 | PROFILE_FPKI_WORKSHEET_10 | PROFILE_FPKI_WORKSHEET_16.

Definition profile_policies (p : fpki_profile) : bytes * option bytes :=
  match p with
  | PROFILE_FPKI_WORKSHEET_6 => (str "2.16.840.1.101.3.2.1.3.13", None)
  | PROFILE_FPKI_WORKSHEET_10 => (str "2.16.840.1.101.3.2.1.3.40", Some (str "2.16.840.1.101.3.2.1.3.41"))
  | PROFILE_FPKI_WORKSHEET_16 => (str "2.16.840.1.101.3.2.1.3.45", None)
  end.
Definition profile_ssh_usage (p : fpki_profile) : Z :=
  match p with PROFILE_FPKI_WORKSHEET_10 => 0 | _ => EXTKEYUSE_SSH_MSCL end.

Definition CheckProfile (cert : DecodedCert) (p : fpki_profile) : bool :=
  let '(policy0, policy1) := profile_policies p in
  let has policy := bytes_eqb policy (extCertPolicies cert).1 || bytes_eqb policy (extCertPolicies cert).2 in
  extKeyUsageSet cert && (extKeyUsage cert =? KEYUSE_DIGITAL_SIG)
  && bytes_eqb (countryOfCitizenship cert) (str "US")
  && negb (bytes_eqb (extAuthKeyId cert) (extSubjKeyId cert))
  && (match policy1 with Some q => has q | None => false end || has policy0)
  && match afterYear cert with
     | None => false
     | Some y =>
       if y <=? 149 then afterDateFormat cert =? ASN_UTC_TIME else afterDateFormat cert =? ASN_GENERALIZED_TIME
     end
  && match ca_subjectNameHash cert with None => false | Some h => bytes_eqb h (issuerHash cert) end
  && (pathLength cert =? 0)
  && match p with PROFILE_FPKI_WORKSHEET_6 => existsb (Z.eqb FASCN_OID) (altNames cert) | _ => true end
  && hasUUID cert
  && ((EXTKEYUSE_CLIENT_AUTH =? 0) || (Z.land (extExtKeyUsage cert) EXTKEYUSE_CLIENT_AUTH =? EXTKEYUSE_CLIENT_AUTH))
  && ((profile_ssh_usage p =? 0) || (Z.land (extExtKeyUsageSsh cert) (profile_ssh_usage p) =? profile_ssh_usage p))
  && existsb (Z.eqb (signatureOID cert)) FPKI_SIGNATURES.

(** The leaf: an end-entity certificate for this role that matches a profile. *)
Definition check_leaf (cm der : bytes) (cmSide : Z) : Z :=
  match wc_DecodeCert (Some cm) der with
  | None => WS_CERT_OTHER_E
  | Some decoded =>
    if isCA decoded then WS_CERT_PROFILE_E
    else
      let ret := CertManCheckLeafUsage decoded cmSide in
      if (ret =? WS_SUCCESS)
         && negb (CheckProfile decoded PROFILE_FPKI_WORKSHEET_6 || CheckProfile decoded PROFILE_FPKI_WORKSHEET_10
                  || CheckProfile decoded PROFILE_FPKI_WORKSHEET_16)
      then WS_CERT_PROFILE_E else ret
  end.

(** ** Verifying *)

Definition get_cm : M bytes := s ← get; mret (certMan s).

Definition load_ca (load : bytes -> bytes -> Z * bytes) (der : bytes) : M Z :=
  cm ← get_cm;
  let '(ret, cm) := load cm der in
  modify (fun s => s <| certMan := cm |>);;
  mret ret.

Definition wolfSSH_CERTMAN_LoadRootCA_buffer (rootCa : bytes) : M Z :=
  if blen rootCa =? 0 then mret WS_BAD_ARGUMENT
  else
    ret ← load_ca wolfSSL_CertManagerLoadCABuffer rootCa;
    mret (if ret =? WOLFSSL_SUCCESS then WS_SUCCESS else ret).

Definition CertManIntermediateIsCA (der : bytes) : bool :=
  match wc_DecodeCert None der with
  | None => false
  | Some d => isCA d && negb (extKeyUsageSet d && (Z.land (extKeyUsage d) KEYUSE_KEY_CERT_SIGN =? 0))
  end.

(** The result, and wolfSSL's own. *)
Definition CertManVerifyOne (der : bytes) : M (Z * Z) :=
  cm ← get_cm;
  let raw := wolfSSL_CertManagerVerifyBuffer cm der in
  mret (if raw =? WOLFSSL_SUCCESS then WS_SUCCESS
        else if raw =? ASN_NO_SIGNER_E then WS_CERT_NO_SIGNER_E
        else if raw =? ASN_AFTER_DATE_E then WS_CERT_EXPIRED_E
        else if raw =? ASN_SIG_CONFIRM_E then WS_CERT_SIG_CONFIRM_E
        else WS_CERT_OTHER_E, raw).

Definition CertManIsIssuer (issuer child : bytes) : bool :=
  match wc_DecodeCert None issuer, wc_DecodeCert None child with
  | Some d0, Some d1 =>
    bytes_eqb (subjectHash d0) (issuerHash d1)
    && (negb (extAuthKeyIdSet d1) || bytes_eqb (extSubjKeyId d0) (extAuthKeyId d1))
  | _, _ => false
  end.

Definition CertManPromote (der child : bytes) : M Z :=
  if negb (CertManIsIssuer der child) then mret WS_CERT_NO_SIGNER_E
  else
    ret ← wolfSSH_CERTMAN_LoadRootCA_buffer der;
    if negb (ret =? WS_SUCCESS) then mret WS_CERT_OTHER_E
    else
      '(ret, raw) ← CertManVerifyOne child;
      if (raw =? WOLFSSL_SUCCESS) || (raw =? ASN_SIG_CONFIRM_E) then
        typed ← load_ca wolfSSL_CertManagerLoadChainCA der;
        mret (if typed =? WOLFSSL_SUCCESS then ret else WS_CERT_OTHER_E)
      else mret ret.

(** [n] certificates of the array, each with its length. *)
Fixpoint split_certs (n : nat) (certs : bytes) : ST Z (list bytes) :=
  match n with
  | O => mret []
  | S n =>
    idx ← get;
    guard_err (blen certs <? idx + UINT32_SZ) ASN_PARSE_E;;
    sz ← GetSize certs (blen certs);
    idx ← get;
    guard_err (blen certs <? idx + sz) ASN_PARSE_E;;
    put_idx (idx + sz);;
    rest ← split_certs n certs;
    mret (slice certs idx sz :: rest)
  end.

Definition check_ocsp (der : bytes) : M Z :=
  cm ← get_cm;
  let ret := wolfSSL_CertManagerCheckOCSP cm der in
  mret (if ret =? WOLFSSL_SUCCESS then WS_SUCCESS
        else if ret =? OCSP_CERT_REVOKED then WS_CERT_REVOKED_E
        else if ret =? OCSP_NEED_URL then WS_SUCCESS
        else WS_CERT_OTHER_E).

(** One certificate, with the one above it and whether it is the leaf. *)
Definition verify_cert (der : bytes) (above : option bytes) (leaf : bool) : M unit :=
  '(ret, _) ← CertManVerifyOne der;
  ret ← (if ret =? WS_CERT_NO_SIGNER_E then
           match above with
           | Some up => CertManPromote up der
           | None => mret ret
           end
         else mret ret);
  ret_code ret;;
  ret ← check_ocsp der;
  ret_code ret;;
  guard_err (negb leaf && negb (CertManIntermediateIsCA der)) WS_CERT_NO_SIGNER_E.

(** The certificates from the top of the chain, the last of the list, to the leaf. *)
Fixpoint verify_certs (leaf : bool) (certs : list bytes) : M unit :=
  match certs with
  | [] => mret tt
  | der :: above =>
    verify_certs false above;;
    verify_cert der (head above) leaf
  end.

Definition wolfSSH_CERTMAN_VerifyCerts_buffer (certs : bytes) (certsCount : Z) (cmSide : Z) : M unit :=
  guard_err (certsCount =? 0) WS_BAD_ARGUMENT;;
  guard_err (MAX_CHAIN_DEPTH <? certsCount) WS_BAD_ARGUMENT;;
  mem1 ← malloc;
  mem2 ← malloc;
  guard_err (negb mem1 || negb mem2) WS_MEMORY_E;;
  l ← lift_res (split_certs (Z.to_nat certsCount) certs 0).1;
  verify_certs true l;;
  cm ← get_cm;
  leaf ← deref (head l);
  ret_code (check_leaf cm leaf cmSide).

(** ** The chain of a peer *)

(** The certificates of a chain, from [idx]: the size they take together and the
    first. *)
Fixpoint chain_loop (fuel : nat) (count : Z) (first : bool) (leaf : bytes) (inp : bytes) : ST Z bytes :=
  if count =? 0 then mret leaf
  else
    match fuel with
    | O => ub
    | S n =>
      sz ← GetSize inp (blen inp);
      idx ← get;
      let leaf := if first then slice inp idx sz else leaf in
      put_idx (idx +w sz);;
      chain_loop n (count - 1) false leaf inp
    end.

(** The chain, the number of its certificates and the leaf. *)
Definition parse_chain (inp : bytes) : ST Z (bytes * Z * bytes) :=
  sz ← GetSize inp (blen inp);
  idx ← get;
  put_idx (idx +w sz);;
  count ← GetUint32 inp (blen inp);
  guard_err (count =? 0) WS_FATAL_ERROR;;
  start ← get;
  leaf ← chain_loop (S (length inp)) count true [] inp;
  stop ← get;
  ocspCount ← GetUint32 inp (blen inp);
  guard_err (count <? ocspCount) WS_FATAL_ERROR;;
  mret (slice inp start (stop -w start), count, leaf).

Definition ParseCertChain (inp : bytes) : M (bytes * Z * bytes) := lift_res (parse_chain inp 0).1.

Definition ParseLeafCert (inp : bytes) : M bytes :=
  '(_, _, leaf) ← ParseCertChain inp;
  mret leaf.

(** The manager of a context verifies for its side. *)
Definition ParseCertChainVerify (inp : bytes) : M bytes :=
  '(certChain, certCount, leaf) ← ParseCertChain inp;
  wolfSSH_CERTMAN_VerifyCerts_buffer certChain certCount side;;
  mret leaf.
End CertMan.

(** Certificates of three bytes: the issuer, whether it is a CA, the subject. A manager
    is the CAs it was given, one after the other. *)
Fixpoint toy_certs (cm : bytes) : list bytes :=
  match cm with i :: c :: s :: cm => [i; c; s] :: toy_certs cm | _ => [] end.
Definition toy_load (cm der : bytes) : Z * bytes := if blen der =? 3 then (1, der ++ cm) else (0, cm).
Definition toy_cert (b : bytes) : DecodedCert :=
  mkDecoded (nth 1 b 0 =? 1) true (if nth 1 b 0 =? 1 then 0x04 else 0x80) true 4 0 None [nth 2 b 0] [nth 0 b 0] false [] [1]
    (str "US") (str "2.16.840.1.101.3.2.1.3.40", []) 23 (Some 100) (Some [nth 0 b 0]) 0 [] true 1.

#[export] Instance toy_manager : CertManager := {|
  WOLFSSL_SUCCESS := 1; ASN_NO_SIGNER_E := -188; ASN_AFTER_DATE_E := -151; ASN_SIG_CONFIRM_E := -155;
  ASN_PARSE_E := -140; OCSP_CERT_REVOKED := -360; OCSP_NEED_URL := -362; MAX_CHAIN_DEPTH := 9;
  KEYUSE_KEY_CERT_SIGN := 0x04; KEYUSE_DIGITAL_SIG := 0x80; EXTKEYUSE_ANY := 1; EXTKEYUSE_CLIENT_AUTH := 4;
  EXTKEYUSE_SERVER_AUTH := 8; EXTKEYUSE_SSH_MSCL := 1; FASCN_OID := 1; ASN_UTC_TIME := 23;
  ASN_GENERALIZED_TIME := 24; FPKI_SIGNATURES := [1];
  wolfSSL_CertManagerVerifyBuffer cm der :=
    if existsb (fun ca => nth 0 der 0 =? nth 2 ca 0) (toy_certs cm) then 1 else -188;
  wolfSSL_CertManagerLoadCABuffer := toy_load;
  wolfSSL_CertManagerLoadChainCA := toy_load;
  wolfSSL_CertManagerCheckOCSP _ _ := 1;
  wc_DecodeCert _ der := Some (toy_cert der)
|}.

(** ** Whose signature a leaf has *)

(** A manager holds the certificates it has been given, and accepts only what one of
    them has signed. *)
Class CertLaws `{CertManager} := {
  signers : bytes -> list bytes;
  signed_by : bytes -> bytes -> Prop;
  verify_signed cm der :
    wolfSSL_CertManagerVerifyBuffer cm der = WOLFSSL_SUCCESS -> exists ca, ca ∈ signers cm /\ signed_by der ca;
  load_adds cm der : signers (wolfSSL_CertManagerLoadCABuffer cm der).2 ⊆ der :: signers cm;
  load_chain_adds cm der : signers (wolfSSL_CertManagerLoadChainCA cm der).2 ⊆ der :: signers cm
}.

Section Sound.
Context `{CTX} `{CertLaws}.

(** A path of CA certificates up to one of the roots. *)
Inductive vouched (roots : list bytes) : bytes -> Prop :=
| vouched_root der ca : ca ∈ roots -> signed_by der ca -> vouched roots der
| vouched_ca der ca :
    vouched roots ca -> CertManIntermediateIsCA ca = true -> signed_by der ca -> vouched roots der.

(** Every signer in the manager is a root or a CA certificate with a path. *)
Definition cm_sound (roots : list bytes) (s : WOLFSSH) : Prop :=
  forall ca, ca ∈ signers (certMan s) -> ca ∈ roots \/ vouched roots ca /\ CertManIntermediateIsCA ca = true.

Lemma verified_vouched roots s der :
  cm_sound roots s -> wolfSSL_CertManagerVerifyBuffer (certMan s) der = WOLFSSL_SUCCESS -> vouched roots der.
Proof.
  intros Hs (ca & Hin & Hby)%verify_signed. destruct (Hs ca Hin) as [?|[??]]; [by eapply vouched_root|by eapply vouched_ca].
Qed.

Lemma load_sound roots s der cm :
  cm_sound roots s -> vouched roots der -> CertManIntermediateIsCA der = true -> signers cm ⊆ der :: signers (certMan s) ->
  cm_sound roots (s <| certMan := cm |>).
Proof.
  intros Hs Hv Hca Hin ca Hc. cbn in Hc. apply Hin, elem_of_cons in Hc as [->|Hc]; [by right|by apply Hs].
Qed.

Lemma VerifyOne_run der s :
  exists r raw, CertManVerifyOne der s = (Ok (r, raw), s) /\ raw = wolfSSL_CertManagerVerifyBuffer (certMan s) der
    /\ (r = WS_SUCCESS -> raw = WOLFSSL_SUCCESS).
Proof.
  unfold CertManVerifyOne, get_cm. cbn. eexists _, _. split; [reflexivity|]. split; [done|].
  destruct (Z.eqb_spec (wolfSSL_CertManagerVerifyBuffer (certMan s) der) WOLFSSL_SUCCESS); [done|].
  repeat destruct (_ =? _); discriminate.
Qed.

Lemma load_ca_run load der s :
  load_ca load der s = (Ok (load (certMan s) der).1, s <| certMan := (load (certMan s) der).2 |>).
Proof. unfold load_ca, get_cm, mbind, ST_bind, get, mret, ST_ret, modify. by destruct (load (certMan s) der). Qed.

(** A certificate above is taken in only to check the one below. *)
Lemma Promote_after roots der child s :
  cm_sound roots s -> vouched roots der -> CertManIntermediateIsCA der = true ->
  after (CertManPromote der child) (fun r s' => cm_sound roots s' /\ match r with Ok v => v = WS_SUCCESS -> vouched roots child | _ => False end) s.
Proof.
  intros Hs Hv Hca. unfold CertManPromote, wolfSSH_CERTMAN_LoadRootCA_buffer. apply after_if; intros _; [by split|].
  apply after_bind, after_if; intros _; [by split|].
  apply after_bind. eapply after_run; [apply load_ca_run|]. cbv beta iota. red. cbn [fst snd mret ST_ret].
  assert (Hs1 := load_sound _ _ _ _ Hs Hv Hca (load_adds (certMan s) der)).
  apply after_if; intros _; [by split|].
  apply after_bind. destruct (VerifyOne_run child (s <| certMan := (wolfSSL_CertManagerLoadCABuffer (certMan s) der).2 |>))
    as (r & raw & E & Eraw & Hr). eapply after_run; [exact E|]. cbv beta iota.
  assert (Hok : r = WS_SUCCESS -> vouched roots child).
  { intros Er. eapply verified_vouched; [exact Hs1|]. rewrite <- Eraw. by apply Hr. }
  apply after_if; intros _; [|by split].
  apply after_bind. eapply after_run; [apply load_ca_run|]. cbv beta iota. red. cbn [fst snd mret ST_ret].
  split; [by apply (load_sound roots _ _ _ Hs1 Hv Hca), load_chain_adds|]. by destruct (_ =? _).
Qed.

(** A certificate that passes is vouched for, and a CA unless it is the leaf. *)
Lemma verify_cert_after roots der above leaf s :
  cm_sound roots s ->
  (forall up, above = Some up -> vouched roots up /\ CertManIntermediateIsCA up = true) ->
  after (verify_cert der above leaf) (fun r s' => cm_sound roots s' /\ r <> UB /\ (r = Ok tt -> vouched roots der /\ (leaf = false -> CertManIntermediateIsCA der = true))) s.
Proof.
  intros Hs Hup. unfold verify_cert. destruct (VerifyOne_run der s) as (r & raw & E & Eraw & Hr).
  apply after_bind. eapply after_run; [exact E|]. cbv beta iota.
  assert (Hok : r = WS_SUCCESS -> vouched roots der).
  { intros Er. eapply verified_vouched; [exact Hs|]. rewrite <- Eraw. by apply Hr. }
  apply after_bind.
  apply (after_mono _ (fun r s' => cm_sound roots s' /\ match r with Ok v => v = WS_SUCCESS -> vouched roots der | _ => False end)).
  { apply after_if; intros _; [|by split].
    destruct above as [up|]; [|by split]. destruct (Hup up eq_refl) as [??]. by apply Promote_after. }
  clear r raw E Eraw Hr Hok. intros [r|e|] s1 [Hs1 Hok]; [|done..].
  apply after_bind, after_ret_code; intros Er; [|by split].
  apply after_bind. unfold check_ocsp, get_cm. eapply after_run; [reflexivity|]. cbv beta iota.
  apply after_bind, after_ret_code; intros _; [|by split].
  apply after_guard; intros Eg; [by split|]. split; [done|]. split; [done|]. intros _. split; [by apply Hok|].
  intros ->. cbn in Eg. by destruct (CertManIntermediateIsCA der).
Qed.

Lemma verify_certs_after roots l leaf s :
  cm_sound roots s ->
  after (verify_certs leaf l) (fun r s' => cm_sound roots s' /\ r <> UB /\ (r = Ok tt -> forall der, head l = Some der ->
      vouched roots der /\ (leaf = false -> CertManIntermediateIsCA der = true))) s.
Proof.
  revert leaf s. induction l as [|der l IH]; intros leaf s Hs; cbn [verify_certs]; [by repeat split|].
  apply after_bind. eapply after_mono; [by apply IH|]. intros [[]|e|] s1 (Hs1 & Hu & Hl); [|by repeat split|done].
  eapply after_mono; [apply verify_cert_after; [exact Hs1|]|].
  - intros up Eup. destruct (Hl eq_refl up Eup) as [? Hc]. split; [done|by apply Hc].
  - intros r s2 (Hs2 & Hu2 & H2). split; [done|]. split; [done|]. intros Er d [= <-]. by apply H2.
Qed.

(** What an accepted leaf is. *)
Record leaf_ok (roots : list bytes) (s : WOLFSSH) (cmSide : Z) (leaf : bytes) : Prop := {
  leaf_path : vouched roots leaf;
  leaf_check : check_leaf (certMan s) leaf cmSide = WS_SUCCESS
}.

Lemma VerifyCerts_after roots certs n cmSide s :
  cm_sound roots s ->
  after (wolfSSH_CERTMAN_VerifyCerts_buffer certs n cmSide) (fun r s' => cm_sound roots s' /\ (r = Ok tt -> exists leaf l, (split_certs (Z.to_nat n) certs 0).1 = Ok (leaf :: l) /\ leaf_ok roots s' cmSide leaf)) s.
Proof.
  intros Hs. unfold wolfSSH_CERTMAN_VerifyCerts_buffer.
  apply after_bind, after_guard; intros Hn; [by split|]. apply Z.eqb_neq in Hn.
  apply after_bind, after_guard; intros _; [by split|].
  apply after_bind. eapply after_run; [apply malloc_run|]. cbv beta iota.
  apply after_bind. eapply after_run; [apply malloc_run|]. cbv beta iota.
  apply after_bind, after_guard; intros _; [by split|].
  apply after_bind. eapply after_run; [reflexivity|]. destruct (split_certs _ _ _).1 as [l|e|]; [|by split..]. cbv beta iota.
  apply after_bind. eapply after_mono; [apply (verify_certs_after roots)|]; [done|].
  intros [[]|e|] s1 (Hs1 & _ & Hl); [|by split..].
  apply after_bind. unfold get_cm. eapply after_run; [reflexivity|]. cbv beta iota.
  apply after_bind. destruct l as [|leaf l]; cbn [head]; [by split|]. red. cbn [fst snd deref mret ST_ret].
  apply after_ret_code; intros Ec; (split; [done|]); [|done]. intros _.
  exists leaf, l. split; [done|]. split; [by apply (Hl eq_refl leaf)|done].
Qed.

(** ** The certificate handed on is the one that was verified *)

Lemma ato32_take n c : (4 <= n)%nat -> ato32 (take n c) = ato32 c.
Proof. intros Hn. do 4 (destruct n as [|n]; [lia|]). by destruct c as [|c0 [|c1 [|c2 [|c3 c]]]]. Qed.

Lemma slice_of_slice b i n j m : 0 <= i -> 0 <= j -> 0 <= m -> j + m <= n -> slice (slice b i n) j m = slice b (i + j) m.
Proof.
  intros Hi Hj Hm Hn. unfold slice. rewrite skipn_firstn_comm, take_take, drop_drop.
  rewrite Nat.min_l by lia. f_equal. f_equal. lia.
Qed.

Lemma GetSize_run buf idx v i :
  msg_ok buf (blen buf) -> is_word32 idx -> GetSize buf (blen buf) idx = (Ok v, i) ->
  i = idx + 4 /\ is_word32 v /\ idx + 4 + v <= blen buf /\ ato32 (drop (Z.to_nat idx) buf) = Some v.
Proof.
  intros Hm Hi. pose proof (msg_len _ _ Hm). unfold GetSize, mbind, ST_bind, get.
  destruct (GetUint32_spec buf (blen buf) idx Hm Hi) as [(Hle&u&Hu&Ha&->)|[_ ->]]; [|done].
  rewrite wrap32_small by clia. destruct (Z.ltb_spec (blen buf - (idx + UINT32_SZ)) u); [done|].
  intros [= <- <-]. unfold UINT32_SZ in *. repeat (split; [done || lia|]). done.
Qed.

Lemma chain_loop_run fuel count first leaf inp idx lf stop :
  msg_ok inp (blen inp) -> 0 <= idx <= blen inp -> chain_loop fuel count first leaf inp idx = (Ok lf, stop) ->
  idx <= stop <= blen inp /\
  if first && negb (count =? 0) then exists sz, ato32 (drop (Z.to_nat idx) inp) = Some sz /\ 0 <= sz /\
    idx + 4 + sz <= stop /\ lf = slice inp (idx + 4) sz
  else lf = leaf.
Proof.
  intros Hm. pose proof (msg_len _ _ Hm) as Hw. unfold is_word32 in Hw.
  revert count first leaf idx. induction fuel as [|fuel IH]; intros count first leaf idx Hi; cbn [chain_loop];
    destruct (Z.eqb_spec count 0) as [->|Hc].
  - intros [= -> ->]. split; [lia|]. by rewrite andb_false_r.
  - done.
  - intros [= -> ->]. split; [lia|]. by rewrite andb_false_r.
  - unfold mbind, ST_bind at 1. destruct (GetSize inp (blen inp) idx) as [[v|e|] i] eqn:Eg; [|done..].
    destruct (GetSize_run inp idx v i Hm ltac:(unfold is_word32; lia) Eg) as (-> & Hv & Hle & Ha).
    unfold is_word32 in Hv. intros E.
    assert (chain_loop fuel (count - 1) false (if first then slice inp (idx + 4) v else leaf) inp (idx + 4 + v) = (Ok lf, stop)) as E'.
    { rewrite <- E. unfold ST_bind, get, put_idx, modify. cbv beta iota zeta. by rewrite wrap32_small by lia. }
    apply IH in E' as [Hs Hl]; [|lia]. cbn [andb] in Hl. split; [lia|]. destruct first; cbn [andb negb]; [|done].
    exists v. repeat (split; [done || lia|]). done.
Qed.

Lemma parse_chain_leaf inp certs count leaf :
  msg_ok inp (blen inp) -> (parse_chain inp 0).1 = Ok (certs, count, leaf) ->
  forall l0 l, (split_certs (Z.to_nat count) certs 0).1 = Ok (l0 :: l) -> l0 = leaf.
Proof.
  intros Hm. pose proof (msg_len _ _ Hm) as Hw. unfold is_word32 in Hw. unfold parse_chain.
  unfold mbind at 1, ST_bind at 1. destruct (GetSize inp (blen inp) 0) as [[v|e|] i] eqn:Eg; [|done..].
  destruct (GetSize_run inp 0 v i Hm ltac:(unfold is_word32; lia) Eg) as (-> & Hv & Hle & _). unfold is_word32 in Hv.
  unfold mbind at 1, ST_bind at 1, get at 1. cbv beta iota. unfold mbind at 1, ST_bind at 1, put_idx at 1, modify at 1. cbv beta iota.
  rewrite wrap32_small by lia.
  unfold mbind at 1, ST_bind at 1.
  destruct (GetUint32_spec inp (blen inp) (0 + 4 + v) Hm ltac:(unfold is_word32; lia)) as [(Hle2&n&Hn&_&->)|[_ ->]]; [|done].
  unfold guard_err. destruct (Z.eqb_spec n 0) as [->|Hn0]; [done|].
  unfold mbind at 1, ST_bind at 1, mret, ST_ret. cbv beta iota.
  unfold mbind at 1, ST_bind at 1, get at 1. cbv beta iota. unfold mbind at 1, ST_bind at 1.
  unfold UINT32_SZ in *. set (start := 0 + 4 + v + 4) in *.
  destruct (chain_loop _ _ _ _ _ _) as [[lf|e|] stop] eqn:El; [|done..].
  destruct (chain_loop_run _ _ _ _ _ start _ _ Hm ltac:(lia) El) as [Hs Hl].
  destruct (Z.eqb_spec n 0); [done|]. cbn [andb negb] in Hl. destruct Hl as (sz & Ha & Hsz & Hz & ->).
  unfold mbind at 1, ST_bind at 1, get at 1. cbv beta iota. unfold mbind at 1, ST_bind at 1.
  destruct (GetUint32 inp (blen inp) stop) as [[o|e|] i2]; [|done..].
  unfold mbind at 1, ST_bind at 1. destruct (n <? o); [done|]. cbn [mret ST_ret fst].
  intros [= <- <- <-] l0 l. rewrite wrap32_small by lia. set (certs := slice inp start (stop - start)).
  assert (Hcl : blen certs = stop - start) by (unfold certs; apply blen_slice; lia).
  assert (Hcm : msg_ok certs (blen certs)).
  { split; [unfold is_word32; lia|lia|]. unfold certs, slice. apply Forall_take, Forall_drop, Hm. }
  unfold is_word32 in Hn. replace (Z.to_nat n) with (S (Z.to_nat (n - 1))) by lia. cbn [split_certs].
  unfold mbind at 1, ST_bind at 1, get at 1. cbv beta iota. unfold mbind at 1, ST_bind at 1, guard_err at 1.
  destruct (blen certs <? 0 + UINT32_SZ); [done|]. cbn [mret ST_ret].
  unfold mbind at 1, ST_bind at 1. destruct (GetSize certs (blen certs) 0) as [[v2|e|] i3] eqn:Eg2; [|done..].
  destruct (GetSize_run certs 0 v2 i3 Hcm ltac:(unfold is_word32; lia) Eg2) as (-> & Hv2 & Hle3 & Ha2). unfold is_word32 in Hv2.
  assert (v2 = sz) as ->.
  { assert (Some v2 = Some sz) as [= ->]; [|done]. rewrite <- Ha, <- Ha2. cbn [Z.to_nat drop]. unfold certs, slice.
    apply ato32_take. lia. }
  unfold mbind at 1, ST_bind at 1, get at 1. cbv beta iota. unfold mbind at 1, ST_bind at 1, guard_err at 1.
  destruct (blen certs <? 0 + 4 + sz); [done|]. cbn [mret ST_ret].
  unfold mbind at 1, ST_bind at 1, put_idx at 1, modify at 1. cbv beta iota. unfold mbind at 1, ST_bind at 1.
  destruct (split_certs _ _ _) as [[r|e|] i4]; [|done..]. cbn. intros [= <- _].
  unfold certs. by rewrite slice_of_slice by lia.
Qed.

Lemma ParseCertChainVerify_after roots inp s :
  cm_sound roots s -> msg_ok inp (blen inp) ->
  after (ParseCertChainVerify inp) (fun r s' => cm_sound roots s' /\
    match r with Ok leaf => leaf_ok roots s' side leaf | _ => True end) s.
Proof.
  intros Hs Hm. unfold ParseCertChainVerify, ParseCertChain. apply after_bind. eapply after_run; [reflexivity|].
  destruct (parse_chain inp 0).1 as [[[certs count] leaf]|e|] eqn:Ep; [|by split..]. cbv beta iota.
  apply after_bind. eapply after_mono; [by apply (VerifyCerts_after roots)|].
  intros [[]|e|] s1 (Hs1 & Hl); [|by split..]. destruct (Hl eq_refl) as (l0 & l & El & Hok).
  rewrite (parse_chain_leaf _ _ _ _ Hm Ep _ _ El) in Hok. by split.
Qed.


End Sound.

(** ** What the walk through the extensions finds *)

(** X.690's definite lengths, in the fewest bytes. *)
Definition der_len (n : Z) : bytes :=
  if n <? 2 ^ 7 then [n]
  else if n <? 2 ^ 8 then [0x81; n]
  else if n <? 2 ^ 16 then [0x82; n / 2 ^ 8; n mod 2 ^ 8]
  else if n <? 2 ^ 24 then [0x83; n / 2 ^ 16; (n / 2 ^ 8) mod 2 ^ 8; n mod 2 ^ 8]
  else [0x84; n / 2 ^ 24; (n / 2 ^ 16) mod 2 ^ 8; (n / 2 ^ 8) mod 2 ^ 8; n mod 2 ^ 8].
Definition hdr (tag : Z) (body : bytes) : bytes := tag :: der_len (blen body).
Definition tlv (tag : Z) (body : bytes) : bytes := hdr tag body ++ body.

(** An extension of a certificate (RFC 5280). *)
Inductive extension :=
| ExtKeyUsage (critical : bool) (keyPurposes : list bytes)
| OtherExtension (oid : bytes) (critical : bool) (value : bytes).

Definition ext_fields (oid : bytes) (critical : bool) (value : bytes) : bytes :=
  tlv ASN_OBJECT_ID oid ++ (if critical then tlv ASN_BOOLEAN [0xFF] else []) ++ tlv ASN_OCTET_STRING value.
Definition encode_ext (e : extension) : bytes :=
  tlv ASN_SEQ (match e with
               | ExtKeyUsage c ps => ext_fields extKeyUsageExtOid c (tlv ASN_SEQ (concat (map (tlv ASN_OBJECT_ID) ps)))
               | OtherExtension oid c v => ext_fields oid c v
               end).
Definition encode_exts (wrapped : bool) (l : list extension) : bytes :=
  let exts := tlv ASN_SEQ (concat (map encode_ext l)) in
  if wrapped then tlv 0xA3 exts else exts.

(** The purposes of the first ExtendedKeyUsage. *)
Fixpoint key_purposes (l : list extension) : option (list bytes) :=
  match l with
  | [] => None
  | ExtKeyUsage _ ps :: _ => Some ps
  | OtherExtension _ _ _ :: l => key_purposes l
  end.

Definition other_oid (e : extension) : Prop :=
  match e with ExtKeyUsage _ _ => True | OtherExtension oid _ _ => oid <> extKeyUsageExtOid end.

Lemma nth_past p l k : 0 <= k -> nth (Z.to_nat (blen p + k)) (p ++ l) 0 = nth (Z.to_nat k) l 0.
Proof. intros Hk. unfold blen. rewrite app_nth2 by lia. f_equal. lia. Qed.

Lemma slice_past p l k n : 0 <= k -> slice (p ++ l) (blen p + k) n = slice l k n.
Proof.
  intros Hk. unfold slice, blen. rewrite drop_app_ge by lia. do 2 f_equal. lia.
Qed.

Lemma lor_byte l x : 0 <= l -> 0 <= x < 2 ^ 8 -> l * 2 ^ 8 + x < 2 ^ 32 -> wrap32 (Z.lor (Z.shiftl l 8) x) = l * 2 ^ 8 + x.
Proof. intros Hl Hx Hb. rewrite lor_shift8 by lia. apply wrap32_small. lia. Qed.

(** A short length, or the number of bytes of a long one. *)
Lemma der_len_cases n :
  0 <= n < 2 ^ 32 ->
  n < 0x80 /\ der_len n = [n] \/
  exists l, der_len n = 0x80 + blen l :: l /\ 1 <= blen l <= 4 /\
    fold_left (fun a x => wrap32 (Z.lor (Z.shiftl a 8) x)) l 0 = n.
Proof.
  intros Hn. unfold der_len.
  assert (Hm : forall v, 0 <= v mod 2 ^ 8 < 2 ^ 8) by (intros v; apply Z.mod_pos_bound; lia).
  assert (Hd : forall v, v = 2 ^ 8 * (v / 2 ^ 8) + v mod 2 ^ 8) by (intros v; apply Z.div_mod; lia).
  replace (2 ^ 24) with (2 ^ 8 * 2 ^ 8 * 2 ^ 8) by done. replace (2 ^ 16) with (2 ^ 8 * 2 ^ 8) by done.
  rewrite <- !Z.div_div by lia.
  pose proof (Hm n). pose proof (Hm (n / 2 ^ 8)). pose proof (Hm (n / 2 ^ 8 / 2 ^ 8)).
  pose proof (Hd n). pose proof (Hd (n / 2 ^ 8)). pose proof (Hd (n / 2 ^ 8 / 2 ^ 8)).
  destruct (Z.ltb_spec n (2 ^ 7)); [by left; split; [lia|]|right].
  repeat match goal with |- context [if Z.ltb n ?m then _ else _] => destruct (Z.ltb_spec n m) end.
  all: match goal with |- exists l, _ :: ?t = _ /\ _ => exists t end; split; [reflexivity|]; split; [rewrite !blen_cons, blen_nil; lia|]; cbn [fold_left];
    rewrite (lor_byte 0) by lia; do 3 (try match goal with |- context [Z.lor (Z.shiftl (?a * 2 ^ 8 + ?b) 8)] => rewrite (lor_byte (a * 2 ^ 8 + b)) by lia end); lia.
Qed.

Lemma blen_tlv tag body : blen body < 2 ^ 32 -> 2 + blen body <= blen (tlv tag body).
Proof.
  intros Hb. pose proof (blen_nonneg body). unfold tlv, hdr. rewrite blen_app, blen_cons.
  destruct (der_len_cases (blen body)) as [[_ ->]|(l & -> & ? & _)]; [lia|..]; rewrite blen_cons, ?blen_nil; lia.
Qed.

(** The header of an element in a larger one. *)
Lemma DerGetHeader_tlv p tag body r sz :
  blen body < 2 ^ 32 -> blen p + blen (tlv tag body) <= sz ->
  DerGetHeader (p ++ tlv tag body ++ r) sz (blen p) = Some (tag, blen body, blen p + blen (tlv tag body) - blen body).
Proof.
  intros Hb Hsz. pose proof (blen_tlv tag body Hb) as Ht. pose proof (blen_nonneg body). pose proof (blen_nonneg p).
  unfold DerGetHeader. destruct (Z.leb_spec sz (blen p)); [lia|]. destruct (Z.ltb_spec (sz - blen p) 2); [lia|]. cbn [orb].
  rewrite (nth_past p _ 1) by lia. change (Z.to_nat 1) with 1%nat.
  replace (nth (Z.to_nat (blen p)) (p ++ tlv tag body ++ r) 0) with tag.
  2: { rewrite <- (Z.add_0_r (blen p)), nth_past by lia. done. }
  rewrite slice_past by lia. unfold tlv, hdr in *. rewrite blen_app, blen_cons in *. cbn [Datatypes.app nth]. rewrite <- app_assoc.
  destruct (der_len_cases (blen body)) as [[Hs E]|(l & E & Hl & Hf)]; [lia|..]; rewrite E in *; rewrite blen_cons in *;
    cbn [Datatypes.app nth].
  { rewrite ?(@blen_nil Z) in *. destruct (Z.ltb_spec (blen body) 0x80); [|lia].
    destruct (Z.ltb_spec (sz - (blen p + 2)) (blen body)); [lia|]. do 2 f_equal. lia. }
  replace (Z.land (0x80 + blen l) 0x7F) with (blen l).
  2: { assert (blen l = 1 \/ blen l = 2 \/ blen l = 3 \/ blen l = 4) as [->|[->|[->| ->]]] by lia; done. }
  destruct (Z.ltb_spec (0x80 + blen l) 0x80); [lia|]. destruct (Z.eqb_spec (blen l) 0); [lia|].
  destruct (Z.ltb_spec 4 (blen l)); [lia|]. destruct (Z.ltb_spec (sz - (blen p + 2)) (blen l)); [lia|]. cbn [orb].
  replace (slice _ 2 (blen l)) with l.
  2: { symmetry. apply (slice_app_here [tag; 0x80 + blen l]). }
  rewrite Hf. destruct (Z.ltb_spec (sz - (blen p + 2 + blen l)) (blen body)); [lia|]. do 2 f_equal. lia.
Qed.

(** The header of an element in a larger one. *)
Lemma DerGetHeader_at b i sz p tag body r :
  b = p ++ tlv tag body ++ r -> i = blen p -> blen body < 2 ^ 32 -> i + blen (tlv tag body) <= sz ->
  DerGetHeader b sz i = Some (tag, blen body, blen (p ++ hdr tag body)).
Proof.
  intros -> -> Hb Hsz. rewrite DerGetHeader_tlv by done. do 2 f_equal. unfold tlv, hdr.
  rewrite !blen_app, !blen_cons. lia.
Qed.

Definition found (oid : bytes) (ps : list bytes) : oid_search :=
  if existsb (fun p => bytes_eqb p oid) ps then HasOid else NoOid.

Lemma tlv_hdr tag body : tlv tag body = hdr tag body ++ body.
Proof. done. Qed.

Lemma blen_hdr tag body : blen body < 2 ^ 32 -> blen (tlv tag body) = blen (hdr tag body) + blen body /\ 2 <= blen (hdr tag body).
Proof. intros Hb. pose proof (blen_tlv tag body Hb) as Ht. rewrite tlv_hdr, blen_app in Ht |- *. lia. Qed.

Lemma purposes_run fuel b e i p ps r oid :
  b = p ++ concat (map (tlv ASN_OBJECT_ID) ps) ++ r -> i = blen p ->
  e = i + blen (concat (map (tlv ASN_OBJECT_ID) ps)) -> e - i < 2 ^ 32 -> e - i <= Z.of_nat fuel ->
  purposes fuel b e i oid = found oid ps.
Proof.
  revert i p ps. induction fuel as [|fuel IH]; intros i p ps Hb Hi He Hw Hf; cbn [purposes].
  all: destruct ps as [|q ps]; cbn [map concat] in *; [rewrite blen_nil in He; destruct (Z.ltb_spec i e); [lia|done]|].
  all: rewrite blen_app in He; pose proof (blen_nonneg (concat (map (tlv ASN_OBJECT_ID) ps))); pose proof (blen_nonneg q).
  all: assert (Hq : blen q < 2 ^ 32) by (rewrite tlv_hdr, blen_app in He; pose proof (blen_nonneg (hdr ASN_OBJECT_ID q)); lia).
  all: destruct (blen_hdr ASN_OBJECT_ID q Hq) as [Ht Hh]; destruct (Z.ltb_spec i e); [|lia].
  1: lia.
  rewrite <- app_assoc in Hb. erewrite DerGetHeader_at by (eassumption || lia). cbn [negb Z.eqb].
  rewrite Z.eqb_refl. cbn [negb].
  replace (slice b (blen (p ++ hdr ASN_OBJECT_ID q)) (blen q)) with q.
  2: { rewrite Hb, tlv_hdr, <- app_assoc, app_assoc. symmetry. apply slice_app_here. }
  unfold found. cbn [existsb]. destruct (bytes_eqb q oid); [done|]. cbn [orb].
  apply (IH _ (p ++ tlv ASN_OBJECT_ID q)); [by rewrite <- app_assoc|rewrite !blen_app; lia|rewrite !blen_app; lia|rewrite !blen_app; lia|rewrite !blen_app; lia].
Qed.

(** The bytes of an element, from its header's end. *)
Lemma slice_at b i p tag body r :
  b = p ++ tlv tag body ++ r -> i = blen (p ++ hdr tag body) -> slice b i (blen body) = body.
Proof. intros -> ->. rewrite tlv_hdr, <- app_assoc, app_assoc. apply slice_app_here. Qed.

Lemma usage_value_run fuel b e p c ps r oid :
  let v := tlv ASN_SEQ (concat (map (tlv ASN_OBJECT_ID) ps)) in
  let rest := (if c : bool then tlv ASN_BOOLEAN [0xFF] else []) ++ tlv ASN_OCTET_STRING v in
  b = p ++ rest ++ r -> e = blen p + blen rest -> blen rest < 2 ^ 32 -> blen rest <= Z.of_nat fuel ->
  usage_value fuel b e (blen p) oid = found oid ps.
Proof.
  intros v rest Hb He Hw Hf.
  set (k := if c then tlv ASN_BOOLEAN [0xFF] else []) in *.
  assert (Hrest : blen rest = blen k + blen (tlv ASN_OCTET_STRING v)) by (unfold rest; apply blen_app).
  pose proof (blen_nonneg k). pose proof (blen_nonneg v). pose proof (blen_nonneg (hdr ASN_OCTET_STRING v)).
  set (qs := concat (map (tlv ASN_OBJECT_ID) ps)) in *. pose proof (blen_nonneg qs). pose proof (blen_nonneg (hdr ASN_SEQ qs)).
  assert (Hov : blen (tlv ASN_OCTET_STRING v) = blen (hdr ASN_OCTET_STRING v) + blen v) by (rewrite tlv_hdr; apply blen_app).
  assert (Hv : blen v = blen (hdr ASN_SEQ qs) + blen qs) by (unfold v; rewrite tlv_hdr; apply blen_app).
  assert (Hoct : DerGetHeader b e (blen (p ++ k)) = Some (ASN_OCTET_STRING, blen v, blen ((p ++ k) ++ hdr ASN_OCTET_STRING v))).
  { apply DerGetHeader_at with (r := r); [|done|lia|rewrite blen_app; lia].
    rewrite Hb. unfold rest. by rewrite <- !app_assoc. }
  set (p2 := (p ++ k) ++ hdr ASN_OCTET_STRING v) in *.
  assert (Hb2 : b = p2 ++ tlv ASN_SEQ qs ++ r).
  { unfold p2. rewrite Hb. unfold rest. rewrite (tlv_hdr ASN_OCTET_STRING). unfold v. by rewrite <- !app_assoc. }
  assert (Hseq : DerGetHeader b (blen p2 + blen v) (blen p2) = Some (ASN_SEQ, blen qs, blen (p2 ++ hdr ASN_SEQ qs))).
  { apply DerGetHeader_at with (r := r); [done|done|lia|fold v; lia]. }
  assert (Hps : purposes fuel b (blen (p2 ++ hdr ASN_SEQ qs) + blen qs) (blen (p2 ++ hdr ASN_SEQ qs)) oid = found oid ps).
  { apply (purposes_run _ _ _ _ (p2 ++ hdr ASN_SEQ qs) ps r); [|done|done|fold qs; lia|fold qs; lia].
    by rewrite Hb2, tlv_hdr, <- !app_assoc. }
  unfold usage_value. destruct c; subst k.
  - erewrite (DerGetHeader_at b (blen p) e p ASN_BOOLEAN [0xFF]);
      [|by rewrite Hb; unfold rest; rewrite <- app_assoc|done|done|lia].
    rewrite Z.eqb_refl.
    replace (blen (p ++ hdr ASN_BOOLEAN [0xFF]) + blen [0xFF]) with (blen (p ++ tlv ASN_BOOLEAN [0xFF])) by (rewrite tlv_hdr, !blen_app; lia).
    rewrite Hoct. rewrite Z.eqb_refl. cbn [negb]. rewrite Hseq, Z.eqb_refl. exact Hps.
  - rewrite app_nil_r in *. rewrite Hoct. cbn [Z.eqb ASN_OCTET_STRING ASN_BOOLEAN Pos.eqb negb]. rewrite Hseq, Z.eqb_refl. exact Hps.
Qed.

(** What is searched for in a list of extensions. *)
Definition search (oid : bytes) (l : list extension) : oid_search :=
  match key_purposes l with Some ps => found oid ps | None => NoOid end.

Definition ext_oid (e : extension) : bytes :=
  match e with ExtKeyUsage _ _ => extKeyUsageExtOid | OtherExtension oid _ _ => oid end.
Definition ext_rest (e : extension) : bytes :=
  match e with
  | ExtKeyUsage c ps =>
    (if c then tlv ASN_BOOLEAN [0xFF] else []) ++ tlv ASN_OCTET_STRING (tlv ASN_SEQ (concat (map (tlv ASN_OBJECT_ID) ps)))
  | OtherExtension _ c v => (if c then tlv ASN_BOOLEAN [0xFF] else []) ++ tlv ASN_OCTET_STRING v
  end.
Lemma encode_ext_eq e : encode_ext e = tlv ASN_SEQ (tlv ASN_OBJECT_ID (ext_oid e) ++ ext_rest e).
Proof. by destruct e. Qed.

Lemma extensions_loop_run fuel b stop i p l r oid :
  Forall other_oid l -> b = p ++ concat (map encode_ext l) ++ r -> i = blen p ->
  stop = i + blen (concat (map encode_ext l)) -> stop - i < 2 ^ 32 -> stop - i <= Z.of_nat fuel ->
  extensions_loop fuel b stop i oid = search oid l.
Proof.
  intros Hl. revert i p fuel. induction Hl as [|e l He Hl IH]; intros i p fuel Hb Hi Hs Hw Hf;
    cbn [map concat] in Hb, Hs; (destruct fuel as [|fuel]; cbn [extensions_loop]).
  1, 2: rewrite blen_nil in Hs; destruct (Z.ltb_spec i stop); [lia|done].
  all: set (es := concat (map encode_ext l)) in *; set (body := tlv ASN_OBJECT_ID (ext_oid e) ++ ext_rest e).
  all: assert (Ee : encode_ext e = tlv ASN_SEQ body) by apply encode_ext_eq; rewrite Ee in *; rewrite blen_app in Hs.
  all: assert (Ht : blen (tlv ASN_SEQ body) = blen (hdr ASN_SEQ body) + blen body) by (rewrite tlv_hdr; apply blen_app).
  all: pose proof (blen_nonneg es); pose proof (blen_nonneg body); pose proof (blen_nonneg (hdr ASN_SEQ body)).
  all: destruct (blen_hdr ASN_SEQ body) as [_ Hh]; [lia|]; destruct (Z.ltb_spec i stop); [|lia].
  1: lia.
  assert (Hb' : b = p ++ tlv ASN_SEQ body ++ es ++ r) by (by rewrite Hb, <- app_assoc).
  rewrite (DerGetHeader_at b i stop p ASN_SEQ body (es ++ r)) by (done || lia). rewrite Z.eqb_refl. cbn [negb].
  set (p2 := p ++ hdr ASN_SEQ body). assert (Hp2 : blen p2 = i + blen (hdr ASN_SEQ body)) by (unfold p2; rewrite blen_app; lia).
  assert (Hbody : blen body = blen (tlv ASN_OBJECT_ID (ext_oid e)) + blen (ext_rest e)) by apply blen_app.
  pose proof (blen_nonneg (ext_rest e)). pose proof (blen_nonneg (hdr ASN_OBJECT_ID (ext_oid e))).
  assert (Hid : blen (tlv ASN_OBJECT_ID (ext_oid e)) = blen (hdr ASN_OBJECT_ID (ext_oid e)) + blen (ext_oid e)) by (rewrite tlv_hdr; apply blen_app).
  assert (Hb2 : b = p2 ++ tlv ASN_OBJECT_ID (ext_oid e) ++ ext_rest e ++ es ++ r).
  { rewrite Hb'. unfold p2. rewrite (tlv_hdr ASN_SEQ). unfold body. by rewrite <- !app_assoc. }
  rewrite (DerGetHeader_at b (blen p2) (blen p2 + blen body) p2 ASN_OBJECT_ID (ext_oid e) (ext_rest e ++ es ++ r)) by (done || lia).
  rewrite Z.eqb_refl. cbn [negb]. erewrite slice_at by (eassumption || reflexivity).
  assert (Hb3 : b = (p2 ++ tlv ASN_OBJECT_ID (ext_oid e)) ++ ext_rest e ++ es ++ r) by (by rewrite <- app_assoc).
  replace (blen (p2 ++ hdr ASN_OBJECT_ID (ext_oid e)) + blen (ext_oid e)) with (blen (p2 ++ tlv ASN_OBJECT_ID (ext_oid e)))
    by (rewrite tlv_hdr, !blen_app; lia).
  unfold search. destruct e as [c ps|o c v]; cbn [ext_oid key_purposes].
  - rewrite bytes_eqb_refl. cbn [ext_oid ext_rest] in *.
    apply (usage_value_run _ _ _ _ c _ (es ++ r)); [done|rewrite (blen_app p2); lia|pose proof (blen_nonneg extKeyUsageExtOid); lia..].
  - destruct (bytes_eqb o extKeyUsageExtOid) eqn:Eo; [by apply bytes_eqb_spec in Eo|].
    apply (IH _ (p ++ tlv ASN_SEQ body)); [by rewrite Hb', <- app_assoc|rewrite blen_app; lia|fold es; lia..].
Qed.

(** In a certificate whose extensions are well formed - in the fewest bytes each,
    with or without the tag [3] around them - the walk that looks for a purpose of the
    key finds it exactly when the first ExtendedKeyUsage names it: a critical flag, or
    extensions before, between and after, do not change the answer, and the number of
    bytes is fuel enough. *)
Theorem CertManExtKeyUsageHasOid_spec cert wrapped l oid :
  d_extensions cert = Some (encode_exts wrapped l) -> Forall other_oid l ->
  blen (encode_exts wrapped l) < 2 ^ 32 ->
  CertManExtKeyUsageHasOid cert oid = search oid l.
Proof.
  intros Hc Hl Hw. unfold CertManExtKeyUsageHasOid. rewrite Hc. set (b := encode_exts wrapped l) in *.
  set (es := concat (map encode_ext l)).
  pose proof (blen_nonneg es). pose proof (blen_nonneg (hdr ASN_SEQ es)).
  assert (Ht : blen (tlv ASN_SEQ es) = blen (hdr ASN_SEQ es) + blen es) by (rewrite tlv_hdr; apply blen_app).
  assert (Hin : forall p, b = p ++ tlv ASN_SEQ es ++ [] ->
    DerGetHeader b (blen b) (blen p) = Some (ASN_SEQ, blen es, blen (p ++ hdr ASN_SEQ es)) /\
    extensions_loop (length b) b (blen (p ++ hdr ASN_SEQ es) + blen es) (blen (p ++ hdr ASN_SEQ es)) oid = search oid l).
  { intros p Hb. assert (Hlen : blen b = blen p + blen (tlv ASN_SEQ es)) by (rewrite Hb, !blen_app, blen_nil; lia).
    pose proof (blen_nonneg p).
    split; [apply (DerGetHeader_at _ _ _ p ASN_SEQ es []); done || lia|].
    apply (extensions_loop_run _ _ _ _ (p ++ hdr ASN_SEQ es) l []); [done| |done|done|fold es; lia|].
    - by rewrite Hb, tlv_hdr, <- !app_assoc.
    - fold (blen b). fold es. change (Z.of_nat (length b)) with (blen b). lia. }
  assert (Hbig : 2 <= blen b).
  { assert (blen (tlv ASN_SEQ es) <= blen b).
    { unfold b, encode_exts. fold es. destruct wrapped; [|done]. rewrite (tlv_hdr 0xA3), blen_app.
      pose proof (blen_nonneg (hdr 0xA3 (tlv ASN_SEQ es))). lia. }
    pose proof (blen_tlv ASN_SEQ es). lia. }
  destruct (Z.eqb_spec (blen b) 0); [lia|]. destruct wrapped.
  - assert (Hb : b = [] ++ tlv 0xA3 (tlv ASN_SEQ es) ++ []) by (by rewrite app_nil_r).
    assert (Hlen : blen b = blen (hdr 0xA3 (tlv ASN_SEQ es)) + blen (tlv ASN_SEQ es)) by (rewrite Hb, app_nil_r; cbn [Datatypes.app]; rewrite tlv_hdr; apply blen_app).
    pose proof (blen_nonneg (hdr 0xA3 (tlv ASN_SEQ es))).
    rewrite (DerGetHeader_at b 0 (blen b) [] 0xA3 (tlv ASN_SEQ es) []); [|done|done|lia|].
    2: { rewrite tlv_hdr, blen_app. lia. }
    change (0xA3 =? Z.lor (Z.lor ASN_CONTEXT_SPECIFIC ASN_CONSTRUCTED) 3) with true. cbn [Datatypes.app].
    destruct (Hin (hdr 0xA3 (tlv ASN_SEQ es))) as [-> K]; [by rewrite Hb, (tlv_hdr 0xA3), <- !app_assoc|].
    rewrite Z.eqb_refl. exact K.
  - destruct (Hin []) as [E K]; [by rewrite app_nil_r|]. change (blen (@nil Z)) with 0 in E. rewrite E.
    change (ASN_SEQ =? Z.lor (Z.lor ASN_CONTEXT_SPECIFIC ASN_CONSTRUCTED) 3) with false. cbv iota.
    rewrite Z.eqb_refl. exact K.
Qed.

Definition sample_exts : list extension :=
  [OtherExtension [0x55; 0x1D; 0x0F] true [3; 2; 7; 128]; ExtKeyUsage true [kpSecureShellServerOid; kpSecureShellClientOid]].
Definition sample_cert (d : bytes) : DecodedCert :=
  mkDecoded false true 0x80 true 0 0 (Some d) [] [] false [] [] [] ([], []) 0 None None 0 [] false 0.

Example CertManExtKeyUsageHasOid_spec_witness :
  CertManExtKeyUsageHasOid (sample_cert (encode_exts true sample_exts)) kpSecureShellClientOid = HasOid /\
  CertManExtKeyUsageHasOid (sample_cert (encode_exts false sample_exts)) [1] = NoOid.
Proof.
  split.
  - apply (CertManExtKeyUsageHasOid_spec _ true sample_exts); [reflexivity| |reflexivity].
    repeat constructor; discriminate.
  - apply (CertManExtKeyUsageHasOid_spec _ false sample_exts); [reflexivity| |reflexivity].
    repeat constructor; discriminate.
Defined.

(** ** The chain is verified *)

Section Verified.
Context `{CTX} `{CertLaws}.

(** What a leaf must be for an endpoint of this side to accept it. *)
Definition end_entity (cmSide : Z) (d : DecodedCert) : Prop :=
  isCA d = false /\
  (extKeyUsageSet d = true -> Z.land (extKeyUsage d) KEYUSE_DIGITAL_SIG <> 0) /\
  (extExtKeyUsageSet d = true -> Z.land (extExtKeyUsage d) EXTKEYUSE_ANY <> 0 \/
     (if cmSide =? WOLFSSH_ENDPOINT_SERVER then CertManHasUserAuthEku d
      else if cmSide =? WOLFSSH_ENDPOINT_CLIENT then CertManHasHostAuthEku d
      else CertManHasUserAuthEku d || CertManHasHostAuthEku d) = true) /\
  exists p, CheckProfile d p = true.

Lemma check_leaf_end_entity cm der cmSide :
  check_leaf cm der cmSide = WS_SUCCESS -> exists d, wc_DecodeCert (Some cm) der = Some d /\ end_entity cmSide d.
Proof.
  unfold check_leaf. destruct (wc_DecodeCert (Some cm) der) as [d|]; [|done]. intros E. exists d. split; [done|]. revert E.
  unfold end_entity, CertManCheckLeafUsage, truthy.
  set (ok := if cmSide =? WOLFSSH_ENDPOINT_SERVER then CertManHasUserAuthEku d else
    if cmSide =? WOLFSSH_ENDPOINT_CLIENT then CertManHasHostAuthEku d else CertManHasUserAuthEku d || CertManHasHostAuthEku d).
  set (ok' := if cmSide =? WOLFSSH_ENDPOINT_SERVER then _ else _ : Z).
  assert (ok' = if ok then WS_SUCCESS else WS_CERT_KEY_USAGE_E) as -> by (unfold ok, ok'; by repeat destruct (cmSide =? _)).
  set (prof := CheckProfile d PROFILE_FPKI_WORKSHEET_6 || _ || _).
  assert (Hp : prof = true <-> exists p, CheckProfile d p = true).
  { unfold prof. rewrite !orb_true_iff. split; [intros [[?|?]|?]; by eexists|intros [[] ?]; tauto]. }
  rewrite <- Hp. clear Hp. clearbody ok prof.
  destruct (isCA d), (extKeyUsageSet d), (extExtKeyUsageSet d); try done; cbn [andb negb];
    destruct (Z.eqb_spec (Z.land (extKeyUsage d) KEYUSE_DIGITAL_SIG) 0), (Z.eqb_spec (Z.land (extExtKeyUsage d) EXTKEYUSE_ANY) 0);
    destruct ok, prof; cbn; intros E; try discriminate E; (split; [done|]; split; [done|]; split; [|done]); try done; tauto.
Qed.

(** C10: A chain is accepted only if its first certificate, the one handed on, is signed
    along a path of CA certificates from a root the manager was given, and is an
    end-entity certificate for this side that matches a profile. Whatever the outcome,
    all that the manager took in from the peer is below a root, so this also holds of
    the chains that come after. *)
Theorem ParseCertChainVerify_sound roots inp s :
  cm_sound roots s -> msg_ok inp (blen inp) ->
  let '(r, s') := ParseCertChainVerify inp s in
  cm_sound roots s' /\
  forall leaf, r = Ok leaf ->
    vouched roots leaf /\ exists d, wc_DecodeCert (Some (certMan s')) leaf = Some d /\ end_entity side d.
Proof.
  intros Hs Hm. pose proof (ParseCertChainVerify_after roots inp s Hs Hm) as K. unfold after in K.
  destruct (ParseCertChainVerify inp s) as [r s']. destruct K as [K1 K2]. split; [done|]. intros leaf ->.
  destruct K2 as [Hv Hc]. split; [done|]. by apply check_leaf_end_entity.
Qed.
End Verified.


Lemma toy_load_certs cm der : toy_certs (toy_load cm der).2 ⊆ der :: toy_certs cm.
Proof.
  unfold toy_load. destruct (Z.eqb_spec (blen der) 3) as [Hl|]; [|intros x Hx; by right].
  destruct der as [|a [|b [|c [|]]]]; try discriminate Hl; try (revert Hl; rewrite !blen_cons; pose proof (blen_nonneg l); lia).
  done.
Qed.

#[export] Instance toy_cert_laws : @CertLaws toy_manager.
Proof.
  refine {| signers := toy_certs; signed_by der ca := nth 0 der 0 = nth 2 ca 0 |}; [|apply toy_load_certs..].
  intros cm der. cbn. destruct (existsb _ _) eqn:E; [|done]. intros _.
  apply existsb_exists in E as (ca&Hin&?%Z.eqb_eq). exists ca. split; [by apply list_elem_of_In|done].
Defined.

(** A chain of two below a root [9]: the leaf [4] issued by [7], [7] issued by [9]. *)
Definition sample_chain : bytes :=
  [0; 0; 0; 0] ++ [0; 0; 0; 2] ++ [0; 0; 0; 3; 7; 0; 4] ++ [0; 0; 0; 3; 9; 1; 7] ++ [0; 0; 0; 0].
Definition sample_roots : WOLFSSH := (new_session []) <| certMan := [9; 1; 9] |>.

Lemma sample_sound : cm_sound [[9; 1; 9]] sample_roots.
Proof. intros ca Hca. left. exact Hca. Qed.

Example ParseCertChainVerify_sound_witness :
  exists s', @ParseCertChainVerify server toy_manager sample_chain sample_roots = (Ok [7; 0; 4], s') /\
    vouched [[9; 1; 9]] [7; 0; 4].
Proof.
  pose proof (@ParseCertChainVerify_sound server toy_manager toy_cert_laws [[9; 1; 9]] sample_chain sample_roots sample_sound) as K.
  assert (Hm : msg_ok sample_chain (blen sample_chain)) by (split; [by vm_compute|by vm_compute|repeat constructor; by vm_compute]).
  specialize (K Hm). destruct (ParseCertChainVerify sample_chain sample_roots) as [r s'] eqn:E.
  assert (r = Ok [7; 0; 4]) as -> by (change r with (r, s').1; rewrite <- E; vm_compute; reflexivity).
  exists s'. split; [done|]. by apply K.
Defined.
