(* ===== verification/HostKey.v ===== *)
(** The server's host key in a key exchange (internal.c): the key blob as the client
    reads it, [GetPubKeyFormat] to [ParsePubKey], the signature of the exchange hash as
    the client checks it, in [DoKexDhReply], and as the server makes it,
    [SendKexGetSigningKey] and [SignHRsa] to [SignH].

    What is shown: the key block the server sends is the bytes it put in the exchange
    hash, and the client's signature check accepts exactly the signatures of the hash
    under the negotiated algorithm. *)

From S2P Require Import Prelude Codes Wire Names Buffer Fwd Algos Kdf Session Samples MsgFilter Transport.
From S2P Require Import Channels Send KexInit KexKeys KexAgree UserSig Ossh Composite OsshKey CertMan.

Definition WOLFSSH_MLDSA_MAX_PUB_KEY_SZ : Z := WC_MLDSA_87_PUB_KEY_SIZE.
Definition COMPOSITE_MAX_TRAD_PUB_SZ : Z := 1 + 2 * ECC_P384_COORD_SZ.
Definition KEX_SIG_SIZE : Z := WC_MLDSA_87_SIG_SIZE + ED448_SIG_SIZE.

(** wolfCrypt's calls on host keys: DER private keys, public parts that are missing from
    one, and the check of a signature over a message. *)
Class HostKeys `{SignKeys} := {
  wc_RsaPrivateKeyDecode : bytes -> wc RsaKey;
  wc_EccPrivateKeyDecode : bytes -> wc ecc_key;
  ecc_private_only : ecc_key -> bool;                        (* type == ECC_PRIVATEKEY_ONLY *)
  wc_ecc_make_pub : ecc_key -> wc ecc_key;
  wc_ecc_set_rng : Z;
  wc_Ed25519PrivateKeyDecode : bytes -> wc ed25519_key;
  pubKeySet : ed25519_key -> bool;
  wc_ed25519_make_public : ed25519_key -> wc bytes;
  wc_ed25519_import_public_ex : bytes -> ed25519_key -> wc ed25519_key;
  wc_MlDsaKey_PrivateKeyDecode : MlDsaKey -> bytes -> wc MlDsaKey;
  (* hash, message, signature: WC_SIGNATURE_TYPE_RSA_W_ENC and WC_SIGNATURE_TYPE_ECC *)
  wc_SignatureVerify_rsa : wc_HashType -> bytes -> bytes -> RsaKey -> Z;
  wc_SignatureVerify_ecc : wc_HashType -> bytes -> bytes -> ecc_key -> Z
}.

Section HostKey.
Context `{CTX} `{Crypto} `{Hashes} `{PubKeys} `{!SignKeys} `{!HostKeys} `{CertManager}.

(** ** The client: reading the blob *)

(** The index after the format's name. *)
Definition GetPubKeyFormat (expected pubKey : bytes) (i : Z) : M Z :=
  '((_, name), i) ← parse GetStringRef pubKey (blen pubKey) i;
  guard_err (negb (bytes_eqb (ref_bytes name) expected)) WS_INVALID_ALGO_ID;;
  mret i.

(** [InitPubKey] for a type whose initialization returns [init]. *)
Definition InitPubKey (init err : Z) : M unit := guard_err (negb (init =? 0)) err.

(** A number taken as it stands. *)
Definition raw_field (buf : bytes) (i : Z) : M (bytes * Z) :=
  '(sz, i) ← parse GetUint32 buf (blen buf) i;
  guard_err (blen buf -w i <? sz) WS_BUFFER_E;;
  mret (slice buf i sz, i +w sz).

Definition ParseRSAPubKey (pubKey : bytes) : M RsaKey :=
  InitPubKey wc_InitRsaKey WS_RSA_E;;
  i ← GetPubKeyFormat (str "ssh-rsa") pubKey 0;
  '(e, i) ← raw_field pubKey i;
  '(n, i) ← raw_field pubKey i;
  key ← or_else (lift_res (wc_RsaPublicKeyDecodeRaw n e)) WS_RSA_E;
  CheckRsaKeyBits key;;
  mret key.

(** The curve is the negotiated algorithm's, and the blob has to name both. *)
Definition ParseECCPubKey (pubKeyId : AlgoId) (pubKey : bytes) : M ecc_key :=
  InitPubKey wc_ecc_init_ex WS_ECC_E;;
  guard_err (negb (wc_ecc_set_rng =? 0)) WS_ECC_E;;
  '((_, name), i) ← parse GetStringRef pubKey (blen pubKey) 0;
  guard_err (negb (bytes_eqb (ref_bytes name) (IdToName pubKeyId))) WS_INVALID_ALGO_ID;;
  let primeId := wcPrimeForId pubKeyId in
  guard_err (bool_decide (primeId = ECC_CURVE_INVALID)) WS_INVALID_PRIME_CURVE;;
  '((_, curve), i) ← parse GetStringRef pubKey (blen pubKey) i;
  guard_err (negb (bytes_eqb (ref_bytes curve) (PrimeNameForId pubKeyId))) WS_INVALID_PRIME_CURVE;;
  '((_, q), i) ← parse GetStringRef pubKey (blen pubKey) i;
  or_else (lift_res (wc_ecc_import_x963_ex (ref_bytes q) primeId)) WS_ECC_E.

Definition ParseEd25519PubKey (pubKey : bytes) : M ed25519_key :=
  InitPubKey wc_ed25519_init_ex WS_ED25519_E;;
  i ← GetPubKeyFormat (str "ssh-ed25519") pubKey 0;
  '((_, encA), i) ← parse GetStringRef pubKey (blen pubKey) i;
  or_else (lift_res (wc_ed25519_import_public (ref_bytes encA))) WS_ED25519_E.

(** An ML-DSA key of the level of an algorithm. *)
Definition mldsa_key (keyId : AlgoId) : M MlDsaKey :=
  match KeyIdToMlDsaLevel keyId with
  | None => fail WS_INVALID_ALGO_ID
  | Some level => or_recode WS_INVALID_ALGO_ID (wc_MlDsaKey_Init level)
  end.

Definition ParseMlDsaPubKey (pubKey : bytes) (keyId : AlgoId) : M MlDsaKey :=
  key ← mldsa_key keyId;
  or_else (
    i ← GetPubKeyFormat (IdToName keyId) pubKey 0;
    '((_, pub), i) ← parse GetStringRef pubKey (blen pubKey) i;
    lift_res (wc_MlDsaKey_ImportPubRaw (ref_bytes pub) key)) WS_INVALID_ALGO_ID.

(** The key of a verified leaf, in DER. *)
Definition ParsePubKeyCert (inp : bytes) : M bytes :=
  leaf ← ParseCertChainVerify inp;
  cert_key leaf.

Definition ParseECCPubKeyCert (pubKeyId : AlgoId) (pubKey : bytes) : M ecc_key :=
  let expectedCurve := wcPrimeForId pubKeyId in
  guard_err (bool_decide (expectedCurve = ECC_CURVE_INVALID)) WS_INVALID_PRIME_CURVE;;
  der ← ParsePubKeyCert pubKey;
  InitPubKey wc_ecc_init_ex WS_ECC_E;;
  ret_code wc_ecc_set_rng;;
  key ← lift_res (wc_EccPublicKeyDecode der);
  guard_err (negb (bool_decide (ecc_curve key = expectedCurve))) WS_INVALID_PRIME_CURVE;;
  mret key.

Definition ParseRSAPubKeyCert (pubKey : bytes) : M RsaKey :=
  der ← ParsePubKeyCert pubKey;
  InitPubKey wc_InitRsaKey WS_RSA_E;;
  key ← call (wc_RsaPublicKeyDecode der);
  CheckRsaKeyBits key;;
  mret key.

Definition ParseMlDsaPubKeyCert (pubKey : bytes) (keyId : AlgoId) : M MlDsaKey :=
  guard_err (match KeyIdToMlDsaLevel keyId with None => true | Some _ => false end) WS_INVALID_ALGO_ID;;
  der ← ParsePubKeyCert pubKey;
  key ← mldsa_key keyId;
  or_else (lift_res (wc_MlDsaKey_PublicKeyDecode der key)) WS_INVALID_ALGO_ID.

(** The parsers by negotiated algorithm. *)
Definition ParsePubKey (pubKeyId : AlgoId) (pubKey : bytes) : M key_material :=
  match pubKeyId with
  | ID_SSH_RSA | ID_RSA_SHA2_256 | ID_RSA_SHA2_512 => k ← ParseRSAPubKey pubKey; mret (KeyRsa k)
  | ID_X509V3_SSH_RSA => k ← ParseRSAPubKeyCert pubKey; mret (KeyRsa k)
  | ID_ECDSA_SHA2_NISTP256 | ID_ECDSA_SHA2_NISTP384 | ID_ECDSA_SHA2_NISTP521 =>
    k ← ParseECCPubKey pubKeyId pubKey; mret (KeyEcc k)
  | ID_X509V3_ECDSA_SHA2_NISTP256 | ID_X509V3_ECDSA_SHA2_NISTP384 | ID_X509V3_ECDSA_SHA2_NISTP521 =>
    k ← ParseECCPubKeyCert pubKeyId pubKey; mret (KeyEcc k)
  | ID_ED25519 => k ← ParseEd25519PubKey pubKey; mret (KeyEd25519 k)
  | ID_MLDSA44 | ID_MLDSA65 | ID_MLDSA87 => k ← ParseMlDsaPubKey pubKey pubKeyId; mret (KeyMlDsa k)
  | ID_X509V3_MLDSA44 | ID_X509V3_MLDSA65 | ID_X509V3_MLDSA87 =>
    k ← ParseMlDsaPubKeyCert pubKey pubKeyId; mret (KeyMlDsa k)
  | ID_MLDSA44_ES256 | ID_MLDSA65_ES256 | ID_MLDSA87_ES384
  | ID_MLDSA44_ED25519 | ID_MLDSA65_ED25519 | ID_MLDSA87_ED448 =>
    k ← ParseMlDsaCompositePubKey pubKey pubKeyId; mret (KeyComposite k)
  | _ => fail WS_INVALID_ALGO_ID
  end.

(** A certificate signs as the key it holds. *)
Definition SigTypeForId (id : AlgoId) : AlgoId :=
  match id with
  | ID_X509V3_SSH_RSA => ID_SSH_RSA
  | ID_X509V3_ECDSA_SHA2_NISTP256 => ID_ECDSA_SHA2_NISTP256
  | ID_X509V3_ECDSA_SHA2_NISTP384 => ID_ECDSA_SHA2_NISTP384
  | ID_X509V3_ECDSA_SHA2_NISTP521 => ID_ECDSA_SHA2_NISTP521
  | ID_X509V3_MLDSA44 => ID_MLDSA44
  | ID_X509V3_MLDSA65 => ID_MLDSA65
  | ID_X509V3_MLDSA87 => ID_MLDSA87
  | id => id
  end.

(** ** The client: the signature of the exchange hash *)

Definition ASN_SIG_ROOM : Z := 256.   (* byte asnSig[256] *)

(** The blob, by type of key. *)
Definition verify_blob (pubKeyId : AlgoId) (key : key_material) (sig h : bytes) : M unit :=
  match key with
  | KeyRsa k =>
    guard_err (blen sig <? MIN_RSA_SIG_SZ) WS_RSA_E;;
    guard_err (negb (wc_SignatureVerify_rsa (HashForId pubKeyId) h sig k =? 0)) WS_RSA_E
  | KeyEcc k =>
    '((_, r), i) ← parse GetStringRef sig (blen sig) 0;
    '((_, s), i) ← parse GetStringRef sig (blen sig) i;
    asnSig ← lift_res (wc_ecc_rs_raw_to_sig (ref_bytes r) (ref_bytes s) ASN_SIG_ROOM);
    guard_err (negb (wc_SignatureVerify_ecc (HashForId pubKeyId) h asnSig k =? 0)) WS_ECC_E
  | KeyEd25519 k =>
    ok ← or_else (lift_res (wc_ed25519_verify_msg sig h k)) WS_ED25519_E;
    guard_err (negb ok) WS_ED25519_E
  | KeyMlDsa k =>
    match wc_MlDsaKey_VerifyCtx k sig [] h with
    | Some true => mret tt
    | _ => fail WS_MLDSA_E
    end
  | KeyComposite k => VerifyMlDsaComposite pubKeyId k sig h
  end.

(** The name of the negotiated algorithm, and the blob after it. *)
Definition verify_exchange (pubKeyId : AlgoId) (key : key_material) (sig h : bytes) : M unit :=
  '((_, sigName), i) ← parse GetStringRef sig (blen sig) 0;
  guard_err (negb (bytes_eqb (ref_bytes sigName) (IdToName (SigTypeForId pubKeyId)))) WS_PARSE_E;;
  '(blob, _) ← sized sig i;
  verify_blob pubKeyId key blob h.

(** ** The server: the key block *)

(** A string or number of the block, and its pad. *)
Definition mpint_size (f : bytes * Z) : Z := blen f.1 + f.2.
Definition mpint_parts (f : bytes * Z) : list bytes :=
  [c32toa (blen f.1 +w f.2)] ++ (if truthy f.2 then [[0]] else []) ++ [f.1].
Definition mpint_block (f : bytes * Z) : bytes :=
  c32toa (blen f.1 +w f.2) ++ (if truthy f.2 then [0] else []) ++ f.1.

(** [sigKeyBlock->sz] for a block of a name and the fields after it. *)
Definition block_size (name : bytes) (fields : list (bytes * Z)) : Z :=
  wrap32 (LENGTH_SZ * (1 + blen fields) + blen name + foldr (fun f n => mpint_size f + n) 0 fields).

(** The pieces the block enters the hash in. *)
Definition block_parts (name : bytes) (fields : list (bytes * Z)) : list bytes :=
  [c32toa (block_size name fields); c32toa (blen name); name] ++ concat (map mpint_parts fields).

(** The certificate of a key that has one, with its name and no OCSP responses. *)
Definition rfc6187_name (pubKeyId : AlgoId) : option bytes :=
  match pubKeyId with
  | ID_X509V3_SSH_RSA => Some (str "x509v3-ssh-rsa")
  | ID_X509V3_ECDSA_SHA2_NISTP256 => Some (str "x509v3-ecdsa-sha2-nistp256")
  | ID_X509V3_ECDSA_SHA2_NISTP384 => Some (str "x509v3-ecdsa-sha2-nistp384")
  | ID_X509V3_ECDSA_SHA2_NISTP521 => Some (str "x509v3-ecdsa-sha2-nistp521")
  | ID_X509V3_MLDSA44 => Some (str "x509v3-ssh-mldsa-44")
  | ID_X509V3_MLDSA65 => Some (str "x509v3-ssh-mldsa-65")
  | ID_X509V3_MLDSA87 => Some (str "x509v3-ssh-mldsa-87")
  | _ => None
  end.
Definition BuildRFC6187Info (pubKeyId : AlgoId) (cert : bytes) : res bytes :=
  match rfc6187_name pubKeyId with
  | None => Err WS_BAD_ARGUMENT
  | Some name =>
    Ok (c32toa (wrap32 (LENGTH_SZ * 2 + UINT32_SZ * 2 + blen name + blen cert)) ++ wstring name
        ++ c32toa 1 ++ wstring cert ++ c32toa 0)
  end.

(** ** The server: the signing key *)

Definition RSA_PART_ROOM : Z := 1025.   (* e[1025], n[1025] *)

(** Decoded from the context's key, and the fields its block has after the name; the
    block of a key with a certificate is the certificate. *)
Definition rsa_signing (pvt : WOLFSSH_PVT_KEY) : M RsaKey :=
  ret_code wc_InitRsaKey;;
  call (wc_RsaPrivateKeyDecode (pvt_key pvt)).
Definition rsa_fields (k : RsaKey) : M (list (bytes * Z)) :=
  '(e, n) ← call (wc_RsaFlattenPublicKey k RSA_PART_ROOM);
  mret [CreateMpint e; CreateMpint n].

Definition ecc_signing (pvt : WOLFSSH_PVT_KEY) : M ecc_key :=
  ret_code wc_ecc_init_ex;;
  call (wc_EccPrivateKeyDecode (pvt_key pvt)).
(** A key without its public point gets it from the private one. *)
Definition ecc_public (k : ecc_key) : M (ecc_key * bytes) :=
  match wc_ecc_export_x963 k with
  | inl q => mret (k, q)
  | inr e =>
    if ecc_private_only k then
      k ← call (wc_ecc_make_pub k);
      q ← call (wc_ecc_export_x963 k);
      mret (k, q)
    else fail e
  end.

Definition ed25519_signing (pvt : WOLFSSH_PVT_KEY) : M (ed25519_key * bytes) :=
  ret_code wc_ed25519_init_ex;;
  k ← call (wc_Ed25519PrivateKeyDecode (pvt_key pvt));
  match wc_ed25519_export_public k with
  | inl q => mret (k, q)
  | inr e =>
    if pubKeySet k then fail e
    else
      q ← call (wc_ed25519_make_public k);
      k ← call (wc_ed25519_import_public_ex q k);
      mret (k, q)
  end.

Definition mldsa_signing (pubKeyId : AlgoId) (pvt : WOLFSSH_PVT_KEY) : M MlDsaKey :=
  match KeyIdToMlDsaLevel pubKeyId with
  | None => fail WS_INVALID_ALGO_ID
  | Some level =>
    k ← call (wc_MlDsaKey_Init level);
    call (wc_MlDsaKey_PrivateKeyDecode k (pvt_key pvt))
  end.
Definition mldsa_public (pvt : WOLFSSH_PVT_KEY) : M bytes :=
  match mldsaPub pvt with
  | Some pub => guard_err (WOLFSSH_MLDSA_MAX_PUB_KEY_SZ <? blen pub) WS_INVALID_STATE_E;; mret pub
  | None => fail WS_INVALID_STATE_E
  end.

(** An OpenSSH file, whose traditional half is exported and imported anew. *)
Definition composite_signing (pubKeyId : AlgoId) (params : CompositeParams) (pvt : WOLFSSH_PVT_KEY) : M composite_key :=
  '(id, k) ← lift_res (GetOpenSshKey (pvt_key pvt) (blen (pvt_key pvt)) 0).1;
  guard_err (negb (id_eqb id pubKeyId)) WS_KEY_FORMAT_E;;
  '(mldsa, trad) ← match k with KeyComposite k => mret k | _ => ub end;
  let ops := WS_GetTradOps (tradType params) in
  trad ← or_else (
    priv ← lift_res (exportPrivOnly ops trad);
    pub ← lift_res (exportPub ops trad);
    ret_code (init ops);;
    call (importPriv ops priv pub)) WS_CRYPTO_FAILED;
  mret (mldsa, trad).
(** Both public parts, in the array [q]. *)
Definition composite_public (params : CompositeParams) (k : composite_key) : M bytes :=
  pub ← call (wc_MlDsaKey_ExportPubRaw (fst k));
  q ← deref (wr (zeros (WOLFSSH_MLDSA_MAX_PUB_KEY_SZ + COMPOSITE_MAX_TRAD_PUB_SZ)) 0 pub);
  tradPub ← lift_res (exportPub (WS_GetTradOps (tradType params)) (snd k));
  q ← deref (wr q (mldsaPubSz params) tradPub);
  mret (slice q 0 (mldsaPubSz params + tradPubSz params)).

(** By format: the key and the fields of its block, or none for a certificate. *)
Definition signing_key (pubKeyId fmtId : AlgoId) (pvt : WOLFSSH_PVT_KEY) : M (key_material * option (list (bytes * Z))) :=
  match fmtId with
  | ID_X509V3_SSH_RSA => k ← rsa_signing pvt; mret (KeyRsa k, None)
  | ID_SSH_RSA => k ← rsa_signing pvt; fields ← rsa_fields k; mret (KeyRsa k, Some fields)
  | ID_X509V3_ECDSA_SHA2_NISTP256 | ID_X509V3_ECDSA_SHA2_NISTP384 | ID_X509V3_ECDSA_SHA2_NISTP521 =>
    k ← ecc_signing pvt; mret (KeyEcc k, None)
  | ID_ECDSA_SHA2_NISTP256 | ID_ECDSA_SHA2_NISTP384 | ID_ECDSA_SHA2_NISTP521 =>
    k ← ecc_signing pvt;
    '(k, q) ← ecc_public k;
    mret (KeyEcc k, Some [(PrimeNameForId pubKeyId, 0); (q, 0)])
  | ID_ED25519 => '(k, q) ← ed25519_signing pvt; mret (KeyEd25519 k, Some [(q, 0)])
  | ID_X509V3_MLDSA44 | ID_X509V3_MLDSA65 | ID_X509V3_MLDSA87 =>
    k ← mldsa_signing pubKeyId pvt; mret (KeyMlDsa k, None)
  | ID_MLDSA44 | ID_MLDSA65 | ID_MLDSA87 =>
    k ← mldsa_signing pubKeyId pvt;
    q ← mldsa_public pvt;
    mret (KeyMlDsa k, Some [(q, 0)])
  | ID_MLDSA44_ES256 | ID_MLDSA65_ES256 | ID_MLDSA87_ES384
  | ID_MLDSA44_ED25519 | ID_MLDSA65_ED25519 | ID_MLDSA87_ED448 =>
    params ← lift_res (WS_GetCompositeParams pubKeyId);
    k ← composite_signing pubKeyId params pvt;
    q ← composite_public params k;
    mret (KeyComposite k, Some [(q, 0)])
  | _ => fail WS_INVALID_ALGO_ID
  end.

Definition hash_parts (hashId : wc_HashType) (parts : list bytes) : M unit :=
  for_each parts (fun d => on_hash (HashUpdate hashId d)).

(** What a group exchange adds: the sizes asked for, the prime and the generator. *)
Definition gex_parts (h : HandshakeInfo) (p g : bytes * Z) : list bytes :=
  [c32toa (dhGexMinSz h); c32toa (dhGexPreferredSz h); c32toa (dhGexMaxSz h)] ++ mpint_parts p ++ mpint_parts g.

(** The key, with its block, or its certificate, in the hash; then the group of a group
    exchange and the client's public value. *)
Definition SendKexGetSigningKey (pubKeyId fmtId : AlgoId) (hashId : wc_HashType) (pvt : WOLFSSH_PVT_KEY)
    : M (key_material * option (list (bytes * Z))) :=
  '(key, fields) ← signing_key pubKeyId fmtId pvt;
  match fields with
  | Some fields => hash_parts hashId (block_parts (IdToName fmtId) fields)
  | None =>
    mem ← malloc;
    guard_err (negb mem) WS_MEMORY_E;;
    info ← lift_res (BuildRFC6187Info pubKeyId (pvt_cert pvt));
    hash_parts hashId [info]
  end;;
  h ← ld_hs;
  (if id_eqb (hs_kexId h) ID_DH_GEX_SHA256 then
     '(p, g) ← lift_res (GetDHPrimeGroup h);
     hash_parts hashId (gex_parts h (CreateMpint p) (CreateMpint g))
   else mret tt);;
  hash_parts hashId [c32toa (blen (hs_e h)); hs_e h];;
  mret (key, fields).

(** ** The server: signing *)

(** The digest of the exchange hash that RSA and ECDSA sign. *)
Definition sign_digest (pubKeyId : AlgoId) (h : bytes) : M bytes :=
  or_else (lift_res (wc_Hash (HashForId pubKeyId) h)) WS_CRYPTO_FAILED.

Definition SignHRsa (pubKeyId : AlgoId) (k : RsaKey) (h : bytes) (room : Z) : M bytes :=
  digest ← sign_digest pubKeyId h;
  let encSig := wc_EncodeSignature digest (HashForId pubKeyId) in
  guard_err (blen encSig =? 0) WS_CRYPTO_FAILED;;
  sig ← or_else (with_rng (wc_RsaSSL_Sign encSig room k)) WS_RSA_E;
  guard_err (blen sig =? 0) WS_RSA_E;;
  wolfSSH_RsaVerify (Some sig) encSig k;;
  mret sig.

Definition SignHEcdsa (pubKeyId : AlgoId) (k : ecc_key) (h : bytes) (room : Z) : M bytes :=
  digest ← sign_digest pubKeyId h;
  sig ← or_else (with_rng (wc_ecc_sign_hash digest room k)) WS_ECC_E;
  '(r, s) ← or_else (call (wc_ecc_sig_to_rs sig)) WS_ECC_E;
  lift_res (EncodeEcdsaRsToMpints room r s (top_bit r) (top_bit s)).

Definition SignHEd25519 (k : ed25519_key) (h : bytes) (room : Z) : M bytes :=
  or_else (call (wc_ed25519_sign_msg h room k)) WS_ECC_E.

Definition SignHMlDsa (k : MlDsaKey) (h : bytes) (room : Z) : M bytes :=
  or_else (with_rng (wc_MlDsaKey_SignCtx k [] room h)) WS_MLDSA_E.

(** By negotiated algorithm; the key is the member of the union its format filled in. *)
Definition SignH (pubKeyId : AlgoId) (key : key_material) (room : Z) : M bytes :=
  s ← get;
  let h := kx_h (kex s) in
  match pubKeyId with
  | ID_SSH_RSA | ID_X509V3_SSH_RSA | ID_RSA_SHA2_256 | ID_RSA_SHA2_512 =>
    match key with KeyRsa k => SignHRsa pubKeyId k h room | _ => ub end
  | ID_ECDSA_SHA2_NISTP256 | ID_ECDSA_SHA2_NISTP384 | ID_ECDSA_SHA2_NISTP521
  | ID_X509V3_ECDSA_SHA2_NISTP256 | ID_X509V3_ECDSA_SHA2_NISTP384 | ID_X509V3_ECDSA_SHA2_NISTP521 =>
    match key with KeyEcc k => SignHEcdsa pubKeyId k h room | _ => ub end
  | ID_ED25519 => match key with KeyEd25519 k => SignHEd25519 k h room | _ => ub end
  | ID_MLDSA44 | ID_MLDSA65 | ID_MLDSA87 | ID_X509V3_MLDSA44 | ID_X509V3_MLDSA65 | ID_X509V3_MLDSA87 =>
    match key with KeyMlDsa k => SignHMlDsa k h room | _ => ub end
  | ID_MLDSA44_ES256 | ID_MLDSA65_ES256 | ID_MLDSA87_ES384
  | ID_MLDSA44_ED25519 | ID_MLDSA65_ED25519 | ID_MLDSA87_ED448 =>
    match key with KeyComposite k => SignHMlDsaComposite pubKeyId k room | _ => ub end
  | _ => fail WS_INVALID_ALGO_ID
  end.
End HostKey.
