(* ===== verification/UserAuth.v ===== *)
(** User authentication on the server (internal.c, [DoServiceRequest] to
    [DoUserAuthRequest] and [DoUserAuthInfoResponse]; the messages of [SendServiceAccept]
    to [SendUserAuthBanner]; ssh.c, [wolfSSH_SetUsernameRaw]).

    The verdict is the application's: [userAuthCb]. A failed attempt is charged
    before the peer learns of it. *)

From S2P Require Import Prelude Codes Wire Names Buffer Fwd Algos Kdf Session Samples MsgFilter Transport.
From S2P Require Import Channels Send KexInit UserSig Ossh Composite CertMan.

Section UserAuth.
Context `{CTX} `{Crypto} `{Hashes} `{PubKeys} `{!SignKeys} `{CertManager}.

(** ** Service requests *)

Definition service_name (buf : bytes) (len : Z) : M unit :=
  '(name, _) ← parse (GetString (WOLFSSH_MAX_NAMESZ + 1)) buf len 0;
  when (negb (bytes_eqb name (IdToName ID_SERVICE_USERAUTH))) (
    _ ← code (SendDisconnect WOLFSSH_DISCONNECT_SERVICE_NOT_AVAILABLE);
    fail WS_INVALID_STATE_E).

Definition DoServiceRequest (buf : bytes) (len : Z) : M unit :=
  service_name buf len;;
  modify (fun s => s <| clientState := CLIENT_USERAUTH_REQUEST_DONE |>).

Definition DoServiceAccept (buf : bytes) (len : Z) : M unit :=
  service_name buf len;;
  modify (fun s => s <| serverState := SERVER_USERAUTH_REQUEST_DONE |>).

Definition SendServiceRequest (serviceId : AlgoId) : M unit :=
  let name := IdToName serviceId in
  send_packet (MSG_ID_SZ + LENGTH_SZ + blen name) ([MSGID_SERVICE_REQUEST] ++ wstring name).

Definition cannedLangTag : bytes := str "en-us".

Definition SendUserAuthBanner : M unit :=
  (match banner with
   | Some b =>
     when (0 <? blen b) (
       send_payload (MSG_ID_SZ + LENGTH_SZ * 2 +w blen b +w blen cannedLangTag)
         ([MSGID_USERAUTH_BANNER] ++ wstring b ++ wstring cannedLangTag))
   | None => mret tt
   end);;
  wolfSSH_SendPacket.

Definition SendServiceAccept (serviceId : AlgoId) : M unit :=
  let name := IdToName serviceId in
  send_payload (MSG_ID_SZ + LENGTH_SZ + blen name) ([MSGID_SERVICE_ACCEPT] ++ wstring name);;
  SendUserAuthBanner.

(** ** Extension info *)

Definition serverSigAlgsName : bytes := str "server-sig-algs".

Definition SendExtInfoServer : M unit :=
  s ← get;
  let names := names_of (Some (algoListKeyAccepted (kex s))) in
  send_payload (MSG_ID_SZ + UINT32_SZ + LENGTH_SZ * 2 +w blen serverSigAlgsName +w blen names)
    ([MSGID_EXT_INFO] ++ c32toa 1 ++ wstring serverSigAlgsName ++ wstring names);;
  modify (fun s => s <| kex; sendExtInfo := false |> <| kex; extInfoSent := true |>);;
  wolfSSH_SendPacket.

Definition SendExtInfo : M unit :=
  when (side =? WOLFSSH_ENDPOINT_SERVER) SendExtInfoServer.

Definition ClearPeerSigId : M unit := modify (fun s => s <| kex; peerSigId := None |>).

Definition DoExtInfoServerSigAlgs (names : option bytes) (namesSz : Z) : M unit :=
  ids ← lift_res (GetNameListRaw WOLFSSH_MAX_NAMELIST_CNT names namesSz);
  modify (fun s => s <| kex; peerSigAlgsSeen := true |>);;
  if blen ids =? 0 then ClearPeerSigId
  else if id_eqb (MatchIdLists side ids cannedKeyAlgoClient) ID_UNKNOWN then ClearPeerSigId
  else
    mem ← malloc;
    guard_err (negb mem) WS_MEMORY_E;;
    modify (fun s => s <| kex; peerSigId := Some ids |>).

(** The extensions left, each at least eight bytes. *)
Fixpoint ext_info_loop (fuel : nat) (extCount : Z) (buf : bytes) (len idx : Z) : M unit :=
  if extCount =? 0 then mret tt
  else
    match fuel with
    | O => ub
    | S n =>
      '((nameSz, name), idx) ← parse GetStringRef buf len idx;
      '((valueSz, value), idx) ← parse GetStringRef buf len idx;
      when (id_eqb (NameToId (ref_bytes name)) ID_EXTINFO_SERVER_SIG_ALGS) (DoExtInfoServerSigAlgs value valueSz);;
      ext_info_loop n (extCount - 1) buf len idx
    end.

Definition DoExtInfo (buf : bytes) (len : Z) : M unit :=
  '(extCount, idx) ← parse GetUint32 buf len 0;
  ext_info_loop (S (length buf)) extCount buf len idx.

(** ** Answers *)

(** The methods the server would take next. *)
Definition GetAllowedAuth : M bytes :=
  typeAllowed ← match userAuthTypesCb with
                | Some cb => cb
                | None => mret (Z.lor (Z.lor WOLFSSH_USERAUTH_PASSWORD WOLFSSH_USERAUTH_KEYBOARD) WOLFSSH_USERAUTH_PUBLICKEY)
                end;
  let on ty (name : bytes) := if truthy (Z.land typeAllowed ty) then name else [] in
  let authStr := on WOLFSSH_USERAUTH_PUBLICKEY (str "publickey,") ++ on WOLFSSH_USERAUTH_PASSWORD (str "password,")
                 ++ on WOLFSSH_USERAUTH_KEYBOARD (str "keyboard-interactive,") in
  mret (slice authStr 0 (blen authStr - 1)).

Definition SendUserAuthFailure (partialSuccess : bool) : M unit :=
  authStr ← GetAllowedAuth;
  send_packet (MSG_ID_SZ + LENGTH_SZ + blen authStr + BOOLEAN_SZ)
    ([MSGID_USERAUTH_FAILURE] ++ wstring authStr ++ [b2z partialSuccess]).

Definition SendUserAuthSuccess : M unit := send_packet MSG_ID_SZ [MSGID_USERAUTH_SUCCESS].

Definition SendUserAuthPkOk (algoName publicKey : bytes) : M unit :=
  guard_err ((blen algoName =? 0) || (blen publicKey =? 0)) WS_BAD_ARGUMENT;;
  send_packet (MSG_ID_SZ + LENGTH_SZ * 2 +w blen algoName +w blen publicKey)
    ([MSGID_USERAUTH_PK_OK] ++ wstring algoName ++ wstring publicKey).

(** A failed attempt; the last one allowed ends the session. *)
Definition CountUserAuthFailure : M unit :=
  modify (fun s => s <| auth; authFailures ::= (fun n => n +w 1) |>);;
  s ← get;
  when (maxAuthAttempts (auth s) <=? authFailures (auth s)) (
    _ ← code (SendDisconnect WOLFSSH_DISCONNECT_NO_MORE_AUTH_METHODS_AVAILABLE);
    fail WS_USER_AUTH_E).

Definition SendUserAuthFailureCount (partialSuccess count : bool) : M unit :=
  ret ← code (SendUserAuthFailure partialSuccess);
  if count then
    cntRet ← code CountUserAuthFailure;
    ret_code (if cntRet =? WS_SUCCESS then ret else cntRet)
  else ret_code ret.

(** What the attempt has come to: authenticated, one factor of several, failed, or
    rejected for good. *)
Inductive verdict := Granted | Partial | Failed | Rejected.

(** The end of a request, once the verdict is in. *)
Definition settle_auth (v : verdict) : M unit :=
  match v with
  | Granted => modify (fun s => s <| clientState := CLIENT_USERAUTH_DONE |>)
  | Partial => SendUserAuthFailureCount true true
  | Failed => SendUserAuthFailureCount false true
  | Rejected => _ ← code (SendUserAuthFailureCount false true); fail WS_USER_AUTH_E
  end.

(** ** Keyboard interactive *)

(** The keyboard's fields of a request. *)
Definition keyboard_of (authData : WS_UserAuthData) : M Keyboard :=
  match sf authData with
  | SfZero => mret zero_keyboard
  | SfKeyboard k => mret k
  | _ => ub
  end.

(** The prompts are there, none empty, none too long. *)
Definition check_prompts (k : Keyboard) : M unit :=
  guard_err (WOLFSSH_MAX_PROMPTS <? promptCount k) WS_BAD_USAGE;;
  when (0 <? promptCount k) (
    match prompts k, promptEcho k with
    | Some ps, Some es =>
      (if (blen ps <? promptCount k) || (blen es <? promptCount k) then ub else mret tt);;
      guard_err (existsb (fun p => (blen p =? 0) || (WOLFSSH_MAX_PROMPT_SZ <? blen p)) (take (Z.to_nat (promptCount k)) ps))
        WS_BAD_USAGE
    | _, _ => fail WS_BAD_USAGE
    end).

Definition prompt_list (k : Keyboard) : bytes :=
  concat (map (fun '(p, e) => wstring p ++ [b2z (truthy e)])
            (zip (take (Z.to_nat (promptCount k)) (default [] (prompts k))) (default [] (promptEcho k)))).

Definition info_request (k : Keyboard) : bytes :=
  [MSGID_USERAUTH_INFO_REQUEST] ++ wstring (default [] (promptName k))
  ++ wstring (default [] (promptInstruction k)) ++ wstring (default [] (promptLanguage k))
  ++ c32toa (promptCount k) ++ prompt_list k.

Definition set_kbSetupPending (b : bool) : M unit := modify (fun s => s <| auth; kbSetupPending := b |>).

(** Sending the prompts the setup callback left. *)
Definition send_prompts (authData : WS_UserAuthData) : M unit :=
  ret ← code (
    k ← keyboard_of authData;
    check_prompts k;;
    modify (fun s => s <| auth; kbAuth ::= (fun x => x <| promptCount := promptCount k |>) |>);;
    send_packet (wrap32 (blen (info_request k))) (info_request k));
  (if (ret =? WS_WANT_WRITE) || (ret =? WS_SUCCESS) then set_kbSetupPending true else PurgePacket);;
  ret_code ret.

Definition SendUserAuthKeyboardRequest (authData : WS_UserAuthData) : M unit :=
  match userAuthCb with
  | None => PurgePacket;; fail WS_BAD_USAGE
  | Some cb =>
    '(ret, authData) ← cb WOLFSSH_USERAUTH_KEYBOARD_SETUP (authData <| au_type := WOLFSSH_USERAUTH_KEYBOARD |>);
    if ret =? WOLFSSH_USERAUTH_SUCCESS then send_prompts authData
    else
      set_kbSetupPending false;;
      if ret =? WOLFSSH_USERAUTH_WOULD_BLOCK then fail WS_AUTH_PENDING
      else if ret =? WOLFSSH_USERAUTH_REJECTED then
        _ ← code (SendUserAuthFailureCount false true);
        fail WS_USER_AUTH_E
      else SendUserAuthFailureCount false true
  end.

(** [n] strings of the message. *)
Fixpoint read_responses (n : nat) (buf : bytes) (len begin : Z) : M (list bytes) :=
  match n with
  | O => mret []
  | S n =>
    '((_, r), begin) ← parse GetStringRef buf len begin;
    rest ← read_responses n buf len begin;
    mret (ref_bytes r :: rest)
  end.

(** The responses, read and shown to the application: the verdict, or the request
    for another round. *)
Definition answer_responses (authData : WS_UserAuthData) (count : Z) (buf : bytes) (len begin : Z)
    : M (verdict + WS_UserAuthData) :=
  when (truthy count) (
    mem ← malloc;
    guard_err (negb mem) WS_MEMORY_E;;
    mem ← malloc;
    guard_err (negb mem) WS_MEMORY_E);;
  rs ← read_responses (Z.to_nat count) buf len begin;
  let kb := zero_keyboard <| responseCount := count |>
              <| responses := if truthy count then Some rs else None |> in
  match userAuthCb with
  | None => mret (inl Failed)
  | Some cb =>
    '(ret, authData) ← cb WOLFSSH_USERAUTH_KEYBOARD (authData <| sf := SfKeyboard kb |>);
    if ret =? WOLFSSH_USERAUTH_SUCCESS then mret (inl Granted)
    else if ret =? WOLFSSH_USERAUTH_SUCCESS_ANOTHER then mret (inr authData)
    else if ret =? WOLFSSH_USERAUTH_PARTIAL_SUCCESS then mret (inl Partial)
    else if ret =? WOLFSSH_USERAUTH_REJECTED then mret (inl Rejected)
    else if ret =? WOLFSSH_USERAUTH_WOULD_BLOCK then fail WS_AUTH_PENDING
    else mret (inl Failed)
  end.

Definition DoUserAuthInfoResponse (buf : bytes) (len : Z) : M unit :=
  guard_err (len =? 0) WS_BAD_ARGUMENT;;
  guard_err (negb (side =? WOLFSSH_ENDPOINT_SERVER)) WS_FATAL_ERROR;;
  s ← get;
  guard_err (negb (id_eqb (authId (auth s)) ID_USERAUTH_KEYBOARD)) WS_FATAL_ERROR;;
  set_kbSetupPending false;;
  let authData := mkAuthData WOLFSSH_USERAUTH_KEYBOARD (default [] (userName (auth s))) [] [] SfZero in
  '(responseCount, begin) ← parse GetUint32 buf len 0;
  v ← if negb (promptCount (kbAuth (auth s)) =? responseCount) then mret (inl Failed)
      else answer_responses authData responseCount buf len begin;
  match v with
  | inl v => settle_auth v
  | inr authData => SendUserAuthKeyboardRequest (authData <| sf := SfKeyboard zero_keyboard |>)
  end.
(** ** Passwords *)

(** A request to change the password is read and refused. *)
Definition password_verdict (authData : WS_UserAuthData) (buf : bytes) (len begin : Z) : M verdict :=
  '(hasNewPassword, begin) ← parse GetBoolean buf len begin;
  '((_, password), begin) ← parse GetStringRef buf len begin;
  if truthy hasNewPassword then
    _ ← parse GetStringRef buf len begin;
    mret Failed
  else
    match userAuthCb with
    | None => mret Failed
    | Some cb =>
      '(ret, _) ← cb WOLFSSH_USERAUTH_PASSWORD
        (authData <| au_type := WOLFSSH_USERAUTH_PASSWORD |> <| sf := SfPassword (ref_bytes password) false [] |>);
      if ret =? WOLFSSH_USERAUTH_SUCCESS then mret Granted
      else if ret =? WOLFSSH_USERAUTH_PARTIAL_SUCCESS then mret Partial
      else if ret =? WOLFSSH_USERAUTH_REJECTED then mret Rejected
      else if ret =? WOLFSSH_USERAUTH_WOULD_BLOCK then fail WS_AUTH_PENDING
      else mret Failed
    end.

Definition DoUserAuthRequestPassword (authData : WS_UserAuthData) (buf : bytes) (len begin : Z) : M unit :=
  guard_err (len =? 0) WS_BAD_ARGUMENT;;
  v ← password_verdict authData buf len begin;
  settle_auth v.

(** ** Public keys *)

Definition is_x509 (id : AlgoId) : bool :=
  match id with
  | ID_X509V3_SSH_RSA | ID_X509V3_ECDSA_SHA2_NISTP256 | ID_X509V3_ECDSA_SHA2_NISTP384
  | ID_X509V3_ECDSA_SHA2_NISTP521 | ID_X509V3_MLDSA44 | ID_X509V3_MLDSA65 | ID_X509V3_MLDSA87 => true
  | _ => false
  end.
Definition is_ossh (id : AlgoId) : bool :=
  match id with
  | ID_OSSH_CERT_RSA | ID_OSSH_CERT_ECDSA_SHA2_NISTP256 | ID_OSSH_CERT_ECDSA_SHA2_NISTP384
  | ID_OSSH_CERT_ECDSA_SHA2_NISTP521 | ID_OSSH_CERT_ED25519 => true
  | _ => false
  end.

(** The leaf takes the place of the key; [None] when there is none. *)
Definition x509_key (pk : PublicKey) : M (option PublicKey) :=
  r ← attempt (if hasSignature pk then ParseCertChainVerify (publicKey pk) else ParseLeafCert (publicKey pk));
  match r with
  | inl cert => if blen cert =? 0 then mret None else mret (Some (pk <| publicKey := cert |> <| isCert := true |>))
  | inr _ => mret None
  end.

(** The algorithms a certified key may sign with. *)
Definition cert_sig_ok (baseTypeId sigId : AlgoId) : bool :=
  match baseTypeId with
  | ID_SSH_RSA => id_eqb sigId ID_RSA_SHA2_256 || id_eqb sigId ID_RSA_SHA2_512
  | ID_ECDSA_SHA2_NISTP256 | ID_ECDSA_SHA2_NISTP384 | ID_ECDSA_SHA2_NISTP521 => id_eqb sigId baseTypeId
  | ID_ED25519 => id_eqb sigId ID_ED25519
  | _ => false
  end.

(** The certified key takes the place of the certificate, with what the
    certificate says of it, and the algorithm is the signature's own. *)
Definition ossh_key (pk : PublicKey) (pkTypeId : AlgoId) (sigAlgo : bytes) : M (PublicKey * AlgoId) :=
  cert ← lift_res (OsshCertParse pkTypeId (publicKey pk));
  ret_code (OsshCertCheckType cert);;
  OsshCertVerifySignature cert;;
  cert ← lift_res (OsshCertCheckOptions cert);
  let baseName := IdToName (baseTypeId cert) in
  mem ← malloc;
  guard_err (negb mem) WS_MEMORY_E;;
  let pk := pk <| publicKey := wstring baseName ++ userKeyParms cert |> <| publicKeyType := baseName |>
    <| isOsshCert := true |> <| caKey := c_caKey cert |> <| principals := c_principals cert |>
    <| validAfter := c_validAfter cert |> <| validBefore := c_validBefore cert |>
    <| forceCommand := c_forceCommand cert |> <| sourceAddress := c_sourceAddress cert |> in
  if hasSignature pk then
    let sigId := NameToId sigAlgo in
    guard_err (negb (cert_sig_ok (baseTypeId cert) sigId)) WS_INVALID_ALGO_ID;;
    mret (pk <| publicKeyType := sigAlgo |>, sigId)
  else mret (pk, baseTypeId cert).

(** The digest of what an RSA or ECDSA key signs. *)
Definition request_digest (hashId : wc_HashType) (pk : PublicKey) : M bytes :=
  let sz := wc_HashGetDigestSize hashId in
  guard_err (sz <? 0) sz;;
  s ← get;
  hash ← lift_res (wc_HashInit hashId);
  hash ← lift_res (wc_HashUpdate hashId hash (c32toa (blen (sessionId (kex s)))));
  hash ← lift_res (wc_HashUpdate hashId hash (sessionId (kex s)));
  hash ← lift_res (wc_HashUpdate hashId hash [MSGID_USERAUTH_REQUEST]);
  d ← signed_bytes pk (dataToSignSz pk);
  hash ← lift_res (wc_HashUpdate hashId hash d);
  digest ← or_else (lift_res (wc_HashFinal hashId hash)) WS_CRYPTO_FAILED;
  mret (slice digest 0 sz).

(** The signature, by the algorithm of the key. *)
Definition check_signature (pkTypeId : AlgoId) (authData : WS_UserAuthData) (pk : PublicKey) (pubKeyBlobSz : Z) : M unit :=
  match pkTypeId with
  | ID_ED25519 => DoUserAuthRequestEd25519 pk authData
  | ID_MLDSA44 | ID_MLDSA65 | ID_MLDSA87 =>
    match KeyIdToMlDsaLevel pkTypeId with
    | Some level => DoUserAuthRequestMlDsa pk authData level false pubKeyBlobSz
    | None => fail WS_INVALID_ALGO_ID
    end
  | ID_X509V3_MLDSA44 | ID_X509V3_MLDSA65 | ID_X509V3_MLDSA87 =>
    match KeyIdToMlDsaLevel pkTypeId with
    | Some level => DoUserAuthRequestMlDsa pk authData level true pubKeyBlobSz
    | None => fail WS_INVALID_ALGO_ID
    end
  | _ =>
    if IsCompositeMlDsaId pkTypeId then DoUserAuthRequestMlDsaComposite pk authData pkTypeId pubKeyBlobSz
    else
      let hashId := HashForId pkTypeId in
      digest ← request_digest hashId pk;
      match pkTypeId with
      | ID_SSH_RSA | ID_RSA_SHA2_256 | ID_RSA_SHA2_512 => DoUserAuthRequestRsa pk hashId digest
      | ID_X509V3_SSH_RSA => DoUserAuthRequestRsaCert pk hashId digest
      | ID_ECDSA_SHA2_NISTP256 | ID_ECDSA_SHA2_NISTP384 | ID_ECDSA_SHA2_NISTP521 => DoUserAuthRequestEcc pk hashId digest
      | ID_X509V3_ECDSA_SHA2_NISTP256 | ID_X509V3_ECDSA_SHA2_NISTP384 | ID_X509V3_ECDSA_SHA2_NISTP521 =>
        DoUserAuthRequestEccCert pk hashId digest
      | _ => fail WS_INVALID_ALGO_ID
      end
  end.

(** A request for a public key, as it is parsed: the key's algorithm and blob, the
    signature (empty when there is none) and the algorithm it names. *)
Definition parse_pk_request (authData : WS_UserAuthData) (dataToSign buf : bytes) (len begin : Z)
    : M (PublicKey * bytes) :=
  '(hasSig, begin) ← parse GetBoolean buf len begin;
  '((_, pubKeyAlgo), begin) ← parse GetStringRef buf len begin;
  '((pubKeyBlobSz, pubKeyBlob), begin) ← parse GetStringRef buf len begin;
  '((sigSz, sig), _) ← if truthy hasSig then parse GetStringRef buf len begin else mret ((0, None), begin);
  let sig := ref_bytes sig in
  _ ← parse GetStringRef (ref_bytes pubKeyBlob) pubKeyBlobSz 0;
  sigAlgo ← (if truthy hasSig then
               '((_, sigAlgo), i) ← parse GetStringRef sig sigSz 0;
               _ ← parse GetStringRef sig sigSz i;
               mret (ref_bytes sigAlgo)
             else mret []);
  mret (mkPublicKey dataToSign (if truthy hasSig then len -w sigSz -w LENGTH_SZ else 0)
          (ref_bytes pubKeyAlgo) (ref_bytes pubKeyBlob) (truthy hasSig) sig false false [] [] 0 0 None None [], sigAlgo).

(** The key to check with and its algorithm: a certificate is resolved; [None] for
    a key that cannot be used. *)
Definition resolve_key (pk : PublicKey) (sigAlgo : bytes) : M (option (PublicKey * AlgoId)) :=
  let pkTypeId := NameToId (publicKeyType pk) in
  if id_eqb pkTypeId ID_UNKNOWN then mret None
  else if id_eqb (MatchIdLists WOLFSSH_ENDPOINT_SERVER [pkTypeId] cannedKeyAlgoClient) ID_UNKNOWN then mret None
  else if is_x509 pkTypeId then
    r ← x509_key pk;
    mret (match r with Some pk => Some (pk, pkTypeId) | None => None end)
  else if is_ossh pkTypeId then
    r ← attempt (ossh_key pk pkTypeId sigAlgo);
    mret (match r with inl x => Some x | inr _ => None end)
  else mret (Some (pk, pkTypeId)).

(** What the application says of the key; the request as it leaves it. *)
Definition ask_about_key (authData : WS_UserAuthData) : M (verdict * WS_UserAuthData) :=
  match userAuthCb with
  | None => mret (Failed, authData)
  | Some cb =>
    '(ret, authData) ← cb WOLFSSH_USERAUTH_PUBLICKEY authData;
    if ret =? WOLFSSH_USERAUTH_WOULD_BLOCK then fail WS_AUTH_PENDING
    else if ret =? WOLFSSH_USERAUTH_REJECTED then mret (Rejected, authData)
    else if ret =? WOLFSSH_USERAUTH_PARTIAL_SUCCESS then mret (Partial, authData)
    else if ret =? WOLFSSH_USERAUTH_SUCCESS then mret (Granted, authData)
    else mret (Failed, authData)
  end.

Definition result_cb (result : Z) (authData : WS_UserAuthData) : M Z :=
  match userAuthResultCb with Some cb => cb result authData | None => mret WS_SUCCESS end.

(** The signature of a key the application takes, which has the last word. *)
Definition prove_key (v : verdict) (pkTypeId : AlgoId) (authData : WS_UserAuthData) (pubKeyBlobSz : Z) : M verdict :=
  ret ← match sf authData with
        | SfPublicKey pk => code (check_signature pkTypeId authData pk pubKeyBlobSz)
        | _ => ub
        end;
  if negb (ret =? WS_SUCCESS) then
    _ ← result_cb WOLFSSH_USERAUTH_FAILURE authData;
    mret Failed
  else
    r ← result_cb WOLFSSH_USERAUTH_SUCCESS authData;
    mret (if r =? WS_SUCCESS then v else Failed).

Definition DoUserAuthRequestPublicKey (authData : WS_UserAuthData) (dataToSign buf : bytes) (len begin : Z) : M unit :=
  guard_err (len =? 0) WS_BAD_ARGUMENT;;
  '(pk0, sigAlgo) ← parse_pk_request authData dataToSign buf len begin;
  key ← resolve_key pk0 sigAlgo;
  match key with
  | None => settle_auth Failed
  | Some (pk, pkTypeId) =>
    '(v, authData) ← ask_about_key (authData <| au_type := WOLFSSH_USERAUTH_PUBLICKEY |> <| sf := SfPublicKey pk |>);
    match v with
    | Granted | Partial =>
      if negb (hasSignature pk0) then SendUserAuthPkOk (publicKeyType pk0) (publicKey pk0)
      else
        v ← prove_key v pkTypeId authData (blen (publicKey pk0));
        settle_auth v
    | _ => settle_auth v
    end
  end.

(** ** Requests *)

Definition wolfSSH_SetUsernameRaw (username : bytes) : M unit :=
  guard_err (blen username =? 0) WS_BAD_ARGUMENT;;
  mem ← malloc;
  guard_err (negb mem) WS_MEMORY_E;;
  modify (fun s => s <| auth; userName := Some username |>).

(** An exchange of prompts the peer abandons is a failed attempt. *)
Definition charge_abandoned : M unit :=
  s ← get;
  when (kbSetupPending (auth s)) (set_kbSetupPending false;; CountUserAuthFailure).

(** The name of the first request is the name of the session. *)
Definition bind_username (username : bytes) : M unit :=
  s ← get;
  if negb (userAuthSeen (auth s)) then
    wolfSSH_SetUsernameRaw username;;
    modify (fun s => s <| auth; userAuthSeen := true |>)
  else if negb (bytes_eqb username (default [] (userName (auth s)))) then
    _ ← code (SendDisconnect WOLFSSH_DISCONNECT_PROTOCOL_ERROR);
    fail WS_INVALID_STATE_E
  else mret tt.

Definition set_authId (id : AlgoId) : M unit := modify (fun s => s <| auth; authId := id |>).

Definition dispatch_auth (authData : WS_UserAuthData) (buf : bytes) (len begin : Z) : M unit :=
  let authNameId := NameToId (authName authData) in
  if id_eqb authNameId ID_USERAUTH_PASSWORD then DoUserAuthRequestPassword authData buf len begin
  else if id_eqb authNameId ID_USERAUTH_KEYBOARD then SendUserAuthKeyboardRequest authData
  else if id_eqb authNameId ID_USERAUTH_PUBLICKEY then DoUserAuthRequestPublicKey authData buf buf len begin
  else
    s ← get;
    SendUserAuthFailureCount false (negb (id_eqb authNameId ID_NONE && (authRequests (auth s) =? 1))).

Definition DoUserAuthRequest (buf : bytes) (len : Z) : M unit :=
  guard_err (len =? 0) WS_BAD_ARGUMENT;;
  '((_, username), begin) ← parse GetStringRef buf len 0;
  '((_, service), begin) ← parse GetStringRef buf len begin;
  if negb (id_eqb (NameToId (ref_bytes service)) ID_SERVICE_CONNECTION) then
    set_authId ID_NONE;;
    charge_abandoned;;
    SendUserAuthFailureCount false true
  else
    '((_, name), begin) ← parse GetStringRef buf len begin;
    bind_username (ref_bytes username);;
    set_authId (NameToId (ref_bytes name));;
    modify (fun s => s <| auth; authRequests ::= (fun n => n +w 1) |>);;
    charge_abandoned;;
    dispatch_auth (mkAuthData 0 (ref_bytes username) (ref_bytes service) (ref_bytes name) SfZero) buf len begin.

(** ** The client's end of it *)

Definition DoUserAuthSuccess (len : Z) : M unit :=
  guard_err (negb (len =? 0)) WS_BAD_ARGUMENT;;
  modify (fun s => s <| serverState := SERVER_USERAUTH_ACCEPT_DONE |> <| auth; kbRequestSent := false |>).

Definition DoUserAuthBanner (buf : bytes) (len : Z) : M unit :=
  guard_err (len =? 0) WS_BAD_ARGUMENT;;
  '(_, i) ← parse (GetString 80) buf len 0;
  _ ← parse GetSkip buf len i;
  mret tt.
End UserAuth.
