(* ===== verification/UserAuthSpec.v ===== *)
(** What the server's authentication guarantees (UserAuth): who is let in, how failures
    are counted, that the user name of a session is fixed, and which bytes the
    signature of a public key request covers. *)

From S2P Require Import Prelude Codes Wire Names Buffer Fwd Algos Kdf Session Samples MsgFilter Transport.
From S2P Require Import Channels Send KexInit KexAgree UserSig Ossh Composite CertMan UserAuth Frames.

(** The application's side of it: its callbacks leave the session alone. *)
Class QuietAuth `{CTX} : Prop := {
  rest_userAuth cb t d : userAuthCb = Some cb -> frames rest (cb t d);
  rest_userAuthTypes cb : userAuthTypesCb = Some cb -> frames rest cb;
  rest_userAuthResult cb r d : userAuthResultCb = Some cb -> frames rest (cb r d)
}.
#[export] Hint Resolve rest_userAuth rest_userAuthTypes rest_userAuthResult : frames.

Section UserAuthSpec.
Context `{CTX} `{Crypto} `{Hashes} `{PubKeys} `{!SignKeys} `{CertManager} `{!QuietSends} `{!QuietAuth}.

(** ** What the parts of a request leave alone *)

Lemma rest_or_code {A} e (o : option A) : frames rest (or_code e o).
Proof. unfold or_code. frames_auto. Qed.
Lemma rest_or_recode {A} e (o : wc A) : frames rest (or_recode e o).
Proof. unfold or_recode. frames_auto. Qed.
Lemma rest_or_else {A} (m : M A) e : frames rest m -> frames rest (or_else m e).
Proof. intros Hm. unfold or_else. frames_auto. Qed.
Lemma rest_sized b i : frames rest (sized b i).
Proof. unfold sized. frames_auto. Qed.
Hint Resolve rest_or_code rest_or_recode rest_or_else rest_sized : frames.

Lemma rest_CheckRsaKeyBits k : frames rest (CheckRsaKeyBits k).
Proof. unfold CheckRsaKeyBits. frames_auto. Qed.
Hint Resolve rest_CheckRsaKeyBits : frames.

Lemma rest_RsaVerify sig d k : frames rest (wolfSSH_RsaVerify sig d k).
Proof. unfold wolfSSH_RsaVerify. frames_auto. Qed.
Hint Resolve rest_RsaVerify : frames.

Lemma rest_signed_bytes pk n : frames rest (signed_bytes pk n).
Proof. unfold signed_bytes. frames_auto. Qed.
Hint Resolve rest_signed_bytes : frames.

Lemma rest_request_digest h pk : frames rest (request_digest h pk).
Proof. unfold request_digest. frames_auto. Qed.
Hint Resolve rest_request_digest : frames.

Lemma rest_cert_key c : frames rest (cert_key c).
Proof. unfold cert_key, or_else. frames_auto. Qed.
Hint Resolve rest_cert_key : frames.

Lemma rest_call {A} (r : wc A) : frames rest (call r : M A).
Proof. unfold call. frames_auto. Qed.
Hint Resolve rest_call : frames.

Lemma rest_Hash_Helper t m n : frames rest (WS_Hash_Helper t m n).
Proof. unfold WS_Hash_Helper. frames_auto. Qed.
Hint Resolve rest_Hash_Helper : frames.

Lemma rest_trad_verify t k h n sig m : frames rest (verify (WS_GetTradOps t) k h n sig m).
Proof.
  destruct t; cbn; unfold CompositeEccVerify, CompositeEd25519Verify, CompositeEd448Verify, as_ecc, as_ed25519, as_ed448, or_else;
    frames_auto.
Qed.
Lemma rest_importPub t b : frames rest (importPub (WS_GetTradOps t) b).
Proof. destruct t; cbn; frames_auto. Qed.
Hint Resolve rest_trad_verify rest_importPub : frames.

Lemma rest_composite pk d i n : frames rest (DoUserAuthRequestMlDsaComposite pk d i n).
Proof.
  unfold DoUserAuthRequestMlDsaComposite, InitCompositeKeyPair, import_pair, check_data, VerifyMlDsaComposite, mPrime_of, or_else.
  frames_auto.
Qed.
Hint Resolve rest_composite : frames.

Lemma rest_check_signature id d pk n : frames rest (check_signature id d pk n).
Proof.
  unfold check_signature, DoUserAuthRequestEd25519, DoUserAuthRequestMlDsa, DoUserAuthRequestRsa,
    DoUserAuthRequestRsaCert, DoUserAuthRequestEcc, DoUserAuthRequestEccCert, rsa_signature, ecc_signature,
    check_data, DoUserAuthRequestMlDsaImportCertPubKey, or_else.
  frames_auto.
Qed.
Hint Resolve rest_check_signature : frames.

Lemma rest_ossh_verify c : frames rest (OsshCertVerifySignature c).
Proof. unfold OsshCertVerifySignature, OsshVerifyEd25519, OsshVerifyRsa, OsshVerifyEcc. frames_auto. Qed.
Hint Resolve rest_ossh_verify : frames.

(** A chain that is verified changes the manager at most. *)
Lemma rest_load_ca load der : frames rest (load_ca load der).
Proof.
  unfold load_ca, get_cm. apply frames_bind; [frames_auto|]. intros cm. destruct (load cm der) as [ret cm'].
  apply frames_bind; [by intros s|frames_auto].
Qed.
Hint Resolve rest_load_ca : frames.

Lemma rest_VerifyOne der : frames rest (CertManVerifyOne der).
Proof. unfold CertManVerifyOne, get_cm. frames_auto. Qed.
Hint Resolve rest_VerifyOne : frames.

Lemma rest_verify_cert der above leaf : frames rest (verify_cert der above leaf).
Proof.
  unfold verify_cert, CertManPromote, wolfSSH_CERTMAN_LoadRootCA_buffer, check_ocsp, get_cm. frames_auto.
Qed.
Hint Resolve rest_verify_cert : frames.

Lemma rest_verify_certs leaf l : frames rest (verify_certs leaf l).
Proof. revert leaf. induction l as [|der l IH]; intros leaf; cbn [verify_certs]; [frames_auto|]. apply frames_bind; [apply IH|intros _; frames_auto]. Qed.
Hint Resolve rest_verify_certs : frames.

Lemma rest_VerifyCerts c n sd : frames rest (wolfSSH_CERTMAN_VerifyCerts_buffer c n sd).
Proof. unfold wolfSSH_CERTMAN_VerifyCerts_buffer, get_cm. frames_auto. Qed.
Hint Resolve rest_VerifyCerts : frames.

Lemma rest_resolve_key pk a : frames rest (resolve_key pk a).
Proof. unfold resolve_key, x509_key, ossh_key, ParseCertChainVerify, ParseLeafCert, ParseCertChain. frames_auto. Qed.
Hint Resolve rest_resolve_key : frames.

Lemma rest_SendUserAuthFailure b : frames rest (SendUserAuthFailure b).
Proof. unfold SendUserAuthFailure, GetAllowedAuth. frames_auto. Qed.
Lemma rest_SendUserAuthPkOk a k : frames rest (SendUserAuthPkOk a k).
Proof. unfold SendUserAuthPkOk. frames_auto. Qed.
Lemma rest_result_cb r d : frames rest (result_cb r d).
Proof. unfold result_cb. frames_auto. Qed.
Lemma rest_ask d : frames rest (ask_about_key d).
Proof. unfold ask_about_key. frames_auto. Qed.
Hint Resolve rest_SendUserAuthFailure rest_SendUserAuthPkOk rest_result_cb rest_ask : frames.
Lemma rest_prove v id d n : frames rest (prove_key v id d n).
Proof. unfold prove_key. frames_auto. Qed.
Lemma rest_password d buf len i : frames rest (password_verdict d buf len i).
Proof. unfold password_verdict. frames_auto. Qed.
Lemma rest_parse_pk d g buf len i : frames rest (parse_pk_request d g buf len i).
Proof. unfold parse_pk_request. frames_auto. Qed.
Lemma rest_responses n buf len i : frames rest (read_responses n buf len i).
Proof. revert i. induction n; intros i; cbn [read_responses]; frames_auto. Qed.
Hint Resolve rest_prove rest_password rest_parse_pk rest_responses : frames.
Lemma rest_answer d n buf len i : frames rest (answer_responses d n buf len i).
Proof. unfold answer_responses. frames_auto. Qed.
Hint Resolve rest_answer : frames.

(** ** What a request may do *)

(** The part of the session the guarantees are about. *)
Definition core (s : WOLFSSH) : Z * Z * option bytes * bool * Z :=
  (maxAuthAttempts (auth s), authFailures (auth s), userName (auth s), userAuthSeen (auth s), clientState s).

Lemma frames_core {A} (m : M A) : frames rest m -> frames core m.
Proof. intros Hm s. change (core (m s).2) with (core (rest (m s).2)). by rewrite Hm. Qed.

(** The session is over. *)
Definition ended {A} (r : res A) : Prop := r = Err WS_USER_AUTH_E \/ r = UB.

(** From a session below its limit of failures: the failures counted never decrease and
    never pass the limit, and reaching it ends the session; the name of the session
    is kept; the client is authenticated only with [G]. *)
Record guarded (G : Prop) (s : WOLFSSH) {A} (r : res A) (s' : WOLFSSH) : Prop := {
  g_max : maxAuthAttempts (auth s') = maxAuthAttempts (auth s);
  g_mono : authFailures (auth s) <= authFailures (auth s');
  g_limit : authFailures (auth s') < maxAuthAttempts (auth s')
            \/ authFailures (auth s') = maxAuthAttempts (auth s') /\ ended r;
  g_name : userAuthSeen (auth s) = true -> userAuthSeen (auth s') = true /\ userName (auth s') = userName (auth s);
  g_state : clientState s' = clientState s \/ (clientState s' = CLIENT_USERAUTH_DONE /\ G /\ exists a, r = Ok a)
}.

Definition below (s : WOLFSSH) : Prop := 0 <= authFailures (auth s) < maxAuthAttempts (auth s) /\ is_word32 (maxAuthAttempts (auth s)).

Lemma core_eq s s' : core s' = core s ->
  maxAuthAttempts (auth s') = maxAuthAttempts (auth s) /\ authFailures (auth s') = authFailures (auth s)
  /\ userName (auth s') = userName (auth s) /\ userAuthSeen (auth s') = userAuthSeen (auth s) /\ clientState s' = clientState s.
Proof. unfold core. intros [= -> -> -> -> ->]. done. Qed.

Lemma below_core s s' : core s' = core s -> below s -> below s'.
Proof. unfold below. intros (-> & -> & _)%core_eq. done. Qed.

Lemma guarded_core G s {A} (r : res A) s' : core s' = core s -> below s -> guarded G s r s'.
Proof. intros (E1 & E2 & E3 & E4 & E5)%core_eq [Hb _]. split; rewrite ?E1, ?E2, ?E3, ?E4; auto; lia. Qed.

(** What comes first leaves the core alone. *)
Lemma guarded_from G s s1 {A} (r : res A) s' : core s1 = core s -> guarded G s1 r s' -> guarded G s r s'.
Proof.
  intros (E1 & E2 & E3 & E4 & E5)%core_eq [Hm Hf Hl Hn Hs].
  split; rewrite <- ?E1, <- ?E2, <- ?E3, <- ?E4, <- ?E5; done.
Qed.

Lemma guarded_weaken (G G' : Prop) s {A} (r : res A) s' : (G -> G') -> guarded G s r s' -> guarded G' s r s'.
Proof. intros HG [? ? ? ? Hs]. split; try done. destruct Hs as [|(?&?&?)]; [by left|right; auto]. Qed.

(** A step that leaves the core alone, and then the rest of the handler. *)
Lemma after_core {A} (m : M A) (Q : res A -> WOLFSSH -> Prop) s :
  frames rest m -> (forall r s', m s = (r, s') -> core s' = core s -> Q r s') -> after m Q s.
Proof. intros Hm. apply after_frames. by apply frames_core. Qed.

Lemma guarded_bind {A B} G (m : M A) (k : A -> M B) s :
  below s -> frames rest m ->
  (forall a s', m s = (Ok a, s') -> core s' = core s -> below s' -> after (k a) (guarded G s') s') ->
  after (m ≫= k) (guarded G s) s.
Proof.
  intros Hb Hm Hk. apply after_bind, after_core; [done|]. intros [a|e|] s' E C; try by apply guarded_core.
  eapply after_mono; [by eapply Hk; [..|eapply below_core]|].
  intros r s2. by apply guarded_from.
Qed.

Lemma guarded_quiet {A} G (m : M A) s : below s -> frames rest m -> after m (guarded G s) s.
Proof. intros Hb Hm. apply after_core; [done|]. intros r s' _ C. by apply guarded_core. Qed.

(** ** Failures are counted *)

(** One failure more, which is the end at the limit. *)
Definition charged_once {A} (s : WOLFSSH) (r : res A) (s' : WOLFSSH) : Prop :=
  core s' = core (s <| auth; authFailures ::= (fun n => n + 1) |>)
  /\ (maxAuthAttempts (auth s) <= authFailures (auth s) + 1 -> ended r).

Lemma charged_guarded G {A} s (r : res A) s' : below s -> charged_once s r s' -> guarded G s r s'.
Proof.
  intros [Hb Hw] [(E1 & E2 & E3 & E4 & E5)%core_eq He]. cbn in E1, E2, E3, E4, E5. split; rewrite ?E1, ?E2, ?E3, ?E4; auto; try lia.
  destruct (Z.lt_ge_cases (authFailures (auth s) + 1) (maxAuthAttempts (auth s))); [by left|].
  right. split; [lia|]. apply He. lia.
Qed.

Lemma CountUserAuthFailure_after s : below s ->
  after CountUserAuthFailure (fun r s' => charged_once s r s'
    /\ (authFailures (auth s) + 1 < maxAuthAttempts (auth s) -> r = Ok tt)) s.
Proof.
  intros [Hb Hw]. unfold CountUserAuthFailure.
  assert (W : authFailures (auth s) +w 1 = authFailures (auth s) + 1) by (apply wrap32_small; unfold is_word32 in *; lia).
  do 4 after_step. apply after_when; intros E; cbn -[wrap32] in E; rewrite W in E.
  - apply Z.leb_le in E. apply after_bind, after_code, after_core; [eauto with frames|].
    intros r s' _ C. cbn -[wrap32] in C.
    assert (Ec : forall A (r : res A), ended r -> charged_once s r s').
    { intros. split; [|done]. rewrite C. unfold core. cbn -[wrap32]. by rewrite ?W. }
    destruct r; (split; [|intros; lia]); apply Ec; [left|left|right]; done.
  - apply Z.leb_gt in E. split; [|done]. split; [unfold core; cbn -[wrap32]; by rewrite ?W|lia].
Qed.

Lemma SendUserAuthFailureCount_after p s : below s ->
  after (SendUserAuthFailureCount p true) (fun r s' => charged_once s r s' \/ (r = UB /\ core s' = core s)) s.
Proof.
  intros Hb. unfold SendUserAuthFailureCount. apply after_bind, after_code, after_core; [eauto with frames|].
  assert (K : forall ret s1, core s1 = core s ->
    after (cntRet ← code CountUserAuthFailure; ret_code (if cntRet =? WS_SUCCESS then ret else cntRet))
      (fun r s' => charged_once s r s' \/ (r = UB /\ core s' = core s)) s1).
  { intros ret s1 C. pose proof (core_eq _ _ C) as (E1 & E2 & E3 & E4 & E5).
    apply after_bind, after_code. eapply after_mono; [apply CountUserAuthFailure_after; by eapply below_core|].
    assert (K : forall A (r : res A) s', charged_once s1 r s' -> charged_once s r s').
    { intros A r s' [K1 K2]. split; [rewrite K1; unfold core; cbn; by rewrite E1, E2, E3, E4, E5|by rewrite <- E1, <- E2]. }
    intros [[]|e|] s' [Hc Ho]; [| |left; by apply K].
    - apply after_ret_code; intros _; left; apply K; destruct Hc as [Hc He]; (split; [done|]);
        intros Hl; by destruct (He Hl).
    - apply after_ret_code; intros Hr; left; apply K; destruct Hc as [Hc He]; (split; [done|]);
        intros Hl; destruct (He Hl) as [[= ->]|]; [done|done|by left|done]. }
  intros [a|e|] s1 _ C; [by apply K|by apply K|by right].
Qed.

Lemma settle_auth_after v s : below s ->
  after (settle_auth v) (fun r s' =>
    match v with
    | Granted => r = Ok tt /\ clientState s' = CLIENT_USERAUTH_DONE /\ auth s' = auth s
    | _ => charged_once s r s' \/ (r = UB /\ core s' = core s)
    end) s.
Proof.
  intros Hb. destruct v; cbn [settle_auth].
  - by after_step.
  - by apply SendUserAuthFailureCount_after.
  - by apply SendUserAuthFailureCount_after.
  - apply after_bind, after_code. eapply after_mono; [by apply SendUserAuthFailureCount_after|].
    intros r s' [[C He]|[-> C]]; [|by right].
    destruct r; left; (split; [done|intros _; unfold ended; auto]).
Qed.

Lemma settle_auth_guarded (G : Prop) v s : below s -> (v = Granted -> G) -> after (settle_auth v) (guarded G s) s.
Proof.
  intros Hb HG. eapply after_mono; [by apply settle_auth_after|]. intros r s' K. destruct v.
  - destruct K as (-> & Hd & Ha). destruct Hb. split; rewrite ?Ha; auto; try lia. right. eauto.
  - destruct K as [K|[-> K]]; [by apply charged_guarded|by apply guarded_core].
  - destruct K as [K|[-> K]]; [by apply charged_guarded|by apply guarded_core].
  - destruct K as [K|[-> K]]; [by apply charged_guarded|by apply guarded_core].
Qed.

(** ** Who is let in *)

(** The application has answered "success" to a question of the kind [t] on [d]; the
    request as it left it. *)
Definition answered_success (t : Z) (d d' : WS_UserAuthData) : Prop :=
  exists cb st st', userAuthCb = Some cb /\ cb t d st = (Ok (WOLFSSH_USERAUTH_SUCCESS, d'), st').

Definition password_taken (name : bytes) : Prop :=
  exists d d' pw, answered_success WOLFSSH_USERAUTH_PASSWORD d d' /\ username d = name /\ sf d = SfPassword pw false [].

(** The key of a request with a signature, as the library resolves it, is the
    application's to accept; its signature checks. *)
Definition key_taken (name : bytes) : Prop :=
  exists pk0 a pk id d d' pk' n st st' st1 st2,
    hasSignature pk0 = true /\ resolve_key pk0 a st = (Ok (Some (pk, id)), st')
    /\ answered_success WOLFSSH_USERAUTH_PUBLICKEY d d' /\ username d = name /\ sf d = SfPublicKey pk
    /\ sf d' = SfPublicKey pk' /\ code (check_signature id d' pk' n) st1 = (Ok WS_SUCCESS, st2).

Definition responses_taken (name : bytes) : Prop :=
  exists d d' k, answered_success WOLFSSH_USERAUTH_KEYBOARD d d' /\ username d = name /\ sf d = SfKeyboard k.

Lemma bind_ok {A B} (m : M A) (k : A -> M B) s b s' :
  (m ≫= k) s = (Ok b, s') -> exists a s1, m s = (Ok a, s1) /\ k a s1 = (Ok b, s').
Proof. unfold mbind, ST_bind. destruct (m s) as [[a|e|] s1]; [eauto|done|done]. Qed.

(** Take a successful run apart. *)
Ltac ok_inv :=
  repeat match goal with
  | E : (_ ≫= _) _ = (Ok _, _) |- _ => apply bind_ok in E as (? & ? & ? & E)
  | x : _ * _ |- _ => destruct x
  end.

Ltac on_code E c := match type of E with context [?r =? c] => destruct (Z.eqb_spec r c) as [->|_] end.
Ltac no_code E := repeat match type of E with context [?r =? ?c] => destruct (r =? c) end.

Lemma password_granted d buf len i s s' :
  password_verdict d buf len i s = (Ok Granted, s') -> password_taken (username d).
Proof.
  unfold password_verdict. intros E. ok_inv. destruct (truthy _).
  { ok_inv. done. }
  destruct userAuthCb as [cb|] eqn:Ecb; [|done]. ok_inv.
  on_code E WOLFSSH_USERAUTH_SUCCESS; [|by no_code E].
  eexists _, _, _. split; [exists cb; eauto|done].
Qed.


Lemma DoUserAuthRequestPassword_guarded d buf len i s : below s ->
  after (DoUserAuthRequestPassword d buf len i) (guarded (password_taken (username d)) s) s.
Proof.
  intros Hb. unfold DoUserAuthRequestPassword. apply guarded_bind; [done|frames_auto|]. intros _ s0 _ _ Hb0.
  apply guarded_bind; [done|eauto with frames|]. intros v s1 E C Hb1. apply settle_auth_guarded; [done|].
  intros ->. by eapply password_granted.
Qed.

Lemma ask_granted d s v d' s' : ask_about_key d s = (Ok (v, d'), s') -> v = Granted ->
  answered_success WOLFSSH_USERAUTH_PUBLICKEY d d'.
Proof.
  unfold ask_about_key. destruct userAuthCb as [cb|] eqn:Ecb; [|by intros [= <- <- <-]].
  intros E ->. ok_inv. on_code E WOLFSSH_USERAUTH_WOULD_BLOCK; [done|]. on_code E WOLFSSH_USERAUTH_REJECTED; [done|].
  on_code E WOLFSSH_USERAUTH_PARTIAL_SUCCESS; [done|]. on_code E WOLFSSH_USERAUTH_SUCCESS; [|done].
  injection E as <- <-. exists cb. eauto.
Qed.

Lemma prove_granted v id d n s s' : prove_key v id d n s = (Ok Granted, s') ->
  v = Granted /\ exists pk st st', sf d = SfPublicKey pk /\ code (check_signature id d pk n) st = (Ok WS_SUCCESS, st').
Proof.
  unfold prove_key. intros E. ok_inv. destruct (sf d) as [| |pk|] eqn:Ed; try done.
  destruct (Z.eqb_spec x WS_SUCCESS) as [->|]; cbn [negb] in E; ok_inv.
  - destruct (_ =? WS_SUCCESS); [|done]. injection E as -> _. split; [done|]. eauto.
  - done.
Qed.

Lemma DoUserAuthRequestPublicKey_guarded d g buf len i s : below s ->
  after (DoUserAuthRequestPublicKey d g buf len i) (guarded (key_taken (username d)) s) s.
Proof.
  intros Hb. unfold DoUserAuthRequestPublicKey. apply guarded_bind; [done|frames_auto|]. intros _ s0 _ _ Hb0.
  apply guarded_bind; [done|eauto with frames|]. intros [pk0 a] s1 _ _ Hb1.
  apply guarded_bind; [done|eauto with frames|]. intros [[pk id]|] s2 Er _ Hb2.
  2: by apply settle_auth_guarded.
  apply guarded_bind; [done|eauto with frames|]. intros [v d'] s3 Ea _ Hb3.
  assert (K : after (if negb (hasSignature pk0) then SendUserAuthPkOk (publicKeyType pk0) (publicKey pk0)
                     else v ← prove_key v id d' (blen (publicKey pk0)); settle_auth v)
                (guarded (key_taken (username d)) s3) s3).
  { apply after_if; intros Hs; [apply guarded_quiet; eauto with frames|].
    apply guarded_bind; [done|eauto with frames|]. intros v' s4 Ep _ Hb4.
    apply settle_auth_guarded; [done|]. intros ->.
    apply prove_granted in Ep as (-> & pk' & st & st' & Hd & Hc). apply ask_granted in Ea; [|done].
    apply negb_false_iff in Hs. exists pk0, a, pk, id. do 8 eexists. do 2 (split; [eassumption|]). split; [exact Ea|]. repeat split; eauto. }
  destruct v; [exact K|exact K|by apply settle_auth_guarded|by apply settle_auth_guarded].
Qed.

(** ** Keyboard interactive *)

Lemma rest_set_kb b : frames core (set_kbSetupPending b).
Proof. unfold set_kbSetupPending. frames_auto. Qed.

(** The same with a step that only records where the exchange of prompts is. *)
Lemma guarded_bind_core {A B} G (m : M A) (k : A -> M B) s :
  below s -> frames core m ->
  (forall a s', m s = (Ok a, s') -> core s' = core s -> below s' -> after (k a) (guarded G s') s') ->
  after (m ≫= k) (guarded G s) s.
Proof.
  intros Hb Hm Hk. apply after_bind, (after_frames core); [done|]. intros [a|e|] s' E C; try by apply guarded_core.
  eapply after_mono; [by eapply Hk; [..|eapply below_core]|]. intros r s2. by apply guarded_from.
Qed.

Lemma guarded_quiet_core {A} G (m : M A) s : below s -> frames core m -> after m (guarded G s) s.
Proof. intros Hb Hm. apply (after_frames core); [done|]. intros r s' _ C. by apply guarded_core. Qed.

Lemma core_send_prompts d : frames core (send_prompts d).
Proof.
  pose proof rest_set_kb. unfold send_prompts, keyboard_of, check_prompts. frames_auto; eauto using frames_core with frames.
Qed.

Lemma SendUserAuthFailureCount_guarded G p s : below s -> after (SendUserAuthFailureCount p true) (guarded G s) s.
Proof.
  intros Hb. eapply after_mono; [by apply SendUserAuthFailureCount_after|].
  intros r s' [K|[-> K]]; [by apply charged_guarded|by apply guarded_core].
Qed.

Lemma SendUserAuthKeyboardRequest_guarded G d s : below s -> after (SendUserAuthKeyboardRequest d) (guarded G s) s.
Proof.
  intros Hb. unfold SendUserAuthKeyboardRequest. destruct userAuthCb as [cb|] eqn:Ecb.
  2:{ apply guarded_quiet; [done|]. frames_auto. }
  apply guarded_bind; [done|eauto with frames|]. intros [ret d'] s1 _ _ Hb1.
  apply after_if; intros _; [apply guarded_quiet_core; [done|apply core_send_prompts]|].
  apply guarded_bind_core; [done|apply rest_set_kb|]. intros _ s2 _ _ Hb2.
  apply after_if; intros _; [by apply guarded_core|]. apply after_if; intros _.
  - change (after (settle_auth Rejected) (guarded G s2) s2). by apply settle_auth_guarded.
  - by apply SendUserAuthFailureCount_guarded.
Qed.

Lemma answer_granted d n buf len i s s' :
  answer_responses d n buf len i s = (Ok (inl Granted), s') -> responses_taken (username d).
Proof.
  unfold answer_responses. intros E. ok_inv. destruct userAuthCb as [cb|] eqn:Ecb; [|done]. ok_inv.
  on_code E WOLFSSH_USERAUTH_SUCCESS; [|by no_code E]. eexists _, _, _. split; [exists cb; eauto|done].
Qed.

Lemma DoUserAuthInfoResponse_guarded buf len s : below s ->
  after (DoUserAuthInfoResponse buf len) (guarded (responses_taken (default [] (userName (auth s)))) s) s.
Proof.
  intros Hb. unfold DoUserAuthInfoResponse.
  apply guarded_bind; [done|frames_auto|]. intros _ s1 _ C1 Hb1.
  apply guarded_bind; [done|frames_auto|]. intros _ s2 _ C2 Hb2.
  assert (E : default [] (userName (auth s)) = default [] (userName (auth s2))).
  { apply core_eq in C2 as (_ & _ & -> & _). by apply core_eq in C1 as (_ & _ & -> & _). }
  rewrite E. apply after_bind; red; cbn [get fst snd].
  apply guarded_bind; [done|frames_auto|]. intros _ s3 _ _ Hb3.
  apply guarded_bind_core; [done|apply rest_set_kb|]. intros _ s4 _ _ Hb4. cbv zeta.
  apply guarded_bind; [done|frames_auto|]. intros [n i] s5 _ _ Hb5. cbv beta iota.
  apply guarded_bind; [done|destruct (negb _); [frames_auto|eauto with frames]|]. intros [v|d] s6 Ev _ Hb6.
  - apply settle_auth_guarded; [done|]. intros ->. destruct (negb _); [done|]. by apply answer_granted in Ev.
  - by apply SendUserAuthKeyboardRequest_guarded.
Qed.

(** ** Requests *)

(** A part of a handler that counts a failure or takes the name, and the rest. *)
Lemma guarded_seq {A B} (G : WOLFSSH -> Prop) (P : A -> WOLFSSH -> Prop) (m : M A) (k : A -> M B) s :
  below s ->
  after m (fun r s1 => guarded False s r s1 /\ match r with Ok a => P a s1 | _ => True end) s ->
  (forall a s1, P a s1 -> below s1 -> after (k a) (fun r s' => guarded (G s') s1 r s') s1) ->
  after (m ≫= k) (fun r s' => guarded (G s') s r s') s.
Proof.
  intros Hb Hm Hk. apply after_bind. eapply after_mono; [exact Hm|]. intros r s1 [Hg HP].
  assert (K : forall r2 : res B, (ended r -> ended r2) -> guarded False s r2 s1).
  { intros r2 Hr. destruct Hg as [? ? Hl ? Hs]. split; try done.
    - destruct Hl as [|[? ?]]; [by left|right; auto].
    - left. by destruct Hs as [|(_ & [] & _)]. }
  destruct r as [a|e|].
  - assert (Hb1 : below s1).
    { destruct Hg as [Hm' ? [?|[_ [He|He]]] _ _]; [|done|done]. destruct Hb. split; [lia|]. by rewrite Hm'. }
    eapply after_mono; [by apply Hk|]. intros r s' [Km Kf Kl Kn Ks]. destruct Hg as [Gm Gf _ Gn Gs].
    split; [by rewrite Km|lia|done| |].
    + intros Hn. destruct (Gn Hn) as [Hn1 E1]. destruct (Kn Hn1) as [Hn2 E2]. by rewrite E2.
    + destruct Gs as [<-|(_ & [] & _)]. done.
  - eapply guarded_weaken; [|apply K]; [done|]. unfold ended. intros [[= ->]|]; [by left|done].
  - eapply guarded_weaken; [|apply K]; [done|]. by right.
Qed.

Lemma charge_abandoned_after s : below s ->
  after charge_abandoned (fun r s1 => guarded False s r s1
    /\ match r with Ok _ => userAuthSeen (auth s1) = userAuthSeen (auth s) /\ userName (auth s1) = userName (auth s) | _ => True end) s.
Proof.
  intros Hb. unfold charge_abandoned. do 2 after_step. apply after_when; intros _; [|by split; [apply guarded_core|]].
  apply after_bind, (after_frames core); [apply rest_set_kb|]. intros [[]|e|] s1 _ C; [|by split; [apply guarded_core|]..].
  eapply after_mono; [apply CountUserAuthFailure_after; by eapply below_core|]. intros r s' [Hc _].
  split; [eapply guarded_from; [done|apply charged_guarded; [by eapply below_core|done]]|].
  destruct Hc as [(_ & _ & E3 & E4 & _)%core_eq _]. apply core_eq in C as (_ & _ & C3 & C4 & _). cbn in E3, E4.
  destruct r; by rewrite ?E3, ?E4.
Qed.

Lemma bind_username_after u s : below s ->
  after (bind_username u) (fun r s1 => guarded False s r s1
    /\ match r with Ok _ => userAuthSeen (auth s1) = true /\ default [] (userName (auth s1)) = u | _ => True end) s.
Proof.
  intros Hb. unfold bind_username. do 2 after_step. apply after_if; intros Es.
  - apply negb_true_iff in Es. unfold wolfSSH_SetUsernameRaw. apply after_bind, after_bind, after_guard; intros _.
    { split; [by apply guarded_core|done]. }
    apply after_bind, after_core; [apply rest_malloc|]. intros [mem|e|] s1 _ C; [|by split; [apply guarded_core|]..].
    apply after_bind, after_guard; intros _; [by split; [apply guarded_core|]|]. do 2 after_step.
    apply core_eq in C as (E1 & E2 & E3 & E4 & E5). destruct Hb. split; [|done]. split; cbn; rewrite ?E1, ?E2, ?E5; auto; try lia.
    by rewrite Es.
  - apply negb_false_iff in Es. apply after_if; intros En.
    + apply after_bind, after_code, after_core; [eauto with frames|]. intros [x|e|] s1 _ C;
        (split; [by apply guarded_core|done]).
    + apply negb_false_iff, bytes_eqb_spec in En. split; [by apply guarded_core|done].
Qed.

Lemma dispatch_auth_guarded d buf len i s : below s ->
  after (dispatch_auth d buf len i) (guarded (password_taken (username d) \/ key_taken (username d)) s) s.
Proof.
  intros Hb. unfold dispatch_auth. cbv zeta.
  apply after_if; intros _; [|apply after_if; intros _; [|apply after_if; intros _]].
  - eapply after_mono; [by apply DoUserAuthRequestPassword_guarded|]. intros r s'. apply guarded_weaken. by left.
  - by apply SendUserAuthKeyboardRequest_guarded.
  - eapply after_mono; [by apply DoUserAuthRequestPublicKey_guarded|]. intros r s'. apply guarded_weaken. by right.
  - do 2 after_step. destruct (negb _); [by apply SendUserAuthFailureCount_guarded|].
    unfold SendUserAuthFailureCount. apply guarded_quiet; [done|]. frames_auto.
Qed.

Lemma core_set_authId id : frames core (set_authId id).
Proof. unfold set_authId. frames_auto. Qed.

Lemma guarded_pre {A} (m : M A) s : below s -> frames core m ->
  after m (fun r s1 => guarded False s r s1 /\ match r with Ok _ => core s1 = core s | _ => True end) s.
Proof.
  intros Hb Hm. apply (after_frames core); [done|]. intros r s1 _ C. split; [by apply guarded_core|by destruct r].
Qed.

Lemma guarded_seq_quiet {A B} (G : WOLFSSH -> Prop) (m : M A) (k : A -> M B) s :
  below s -> frames core m ->
  (forall a s1, core s1 = core s -> below s1 -> after (k a) (fun r s' => guarded (G s') s1 r s') s1) ->
  after (m ≫= k) (fun r s' => guarded (G s') s r s') s.
Proof.
  intros Hb Hm Hk. eapply (guarded_seq G (fun _ s1 => core s1 = core s)); [done|by apply guarded_pre|exact Hk].
Qed.
Ltac step_quiet tac := apply guarded_seq_quiet; [done|tac|].

Lemma DoUserAuthRequest_guarded buf len s : below s ->
  after (DoUserAuthRequest buf len)
    (fun r s' => guarded (userAuthSeen (auth s') = true
      /\ let u := default [] (userName (auth s')) in password_taken u \/ key_taken u) s r s') s.
Proof.
  intros Hb. unfold DoUserAuthRequest.
  step_quiet frames_auto. intros _ s1 _ Hb1. step_quiet frames_auto. intros [[? u] i] s2 _ Hb2.
  step_quiet frames_auto. intros [[? sv] j] s3 _ Hb3. cbv beta iota. destruct (negb _).
  - step_quiet ltac:(apply core_set_authId). intros _ s4 _ Hb4.
    eapply guarded_seq; [done|by apply charge_abandoned_after|]. intros [] s5 _ Hb5.
    by apply SendUserAuthFailureCount_guarded.
  - step_quiet frames_auto. intros [[? nm] k] s4 _ Hb4. cbv beta iota.
    eapply guarded_seq; [done|by apply bind_username_after|]. intros [] s5 Hn5 Hb5.
    step_quiet ltac:(apply core_set_authId). intros _ s6 C6 Hb6.
    step_quiet ltac:(frames_auto). intros _ s7 C7 Hb7.
    assert (Hn7 : userAuthSeen (auth s7) = true /\ default [] (userName (auth s7)) = ref_bytes u).
    { apply core_eq in C6 as (_ & _ & E1 & E2 & _). apply core_eq in C7 as (_ & _ & E3 & E4 & _). by rewrite E3, E4, E1, E2. }
    eapply guarded_seq; [done|by apply charge_abandoned_after|]. intros [] s8 [E1 E2] Hb8. rewrite <- E1, <- E2 in Hn7.
    destruct Hn7 as [Hs Hn]. eapply after_mono; [by apply dispatch_auth_guarded|]. intros r s' Hg.
    destruct (g_name _ _ _ _ Hg Hs) as [Es En]. rewrite Es, En, Hn. by eapply guarded_weaken; [|exact Hg].
Qed.

(** ** The properties *)

(** The messages of the peer that can authenticate it. *)
Inductive auth_msg := RequestMsg | InfoResponseMsg.

Definition handle_auth (m : auth_msg) : bytes -> Z -> M unit :=
  match m with RequestMsg => DoUserAuthRequest | InfoResponseMsg => DoUserAuthInfoResponse end.

(** What lets the client named [u] in. *)
Definition let_in (m : auth_msg) (u : bytes) : Prop :=
  match m with RequestMsg => password_taken u \/ key_taken u | InfoResponseMsg => responses_taken u end.

Lemma handle_auth_guarded m buf len s : below s ->
  let s' := (handle_auth m buf len s).2 in
  guarded (exists u, (userAuthSeen (auth s) = true \/ m = RequestMsg ->
              userAuthSeen (auth s') = true /\ u = default [] (userName (auth s'))) /\ let_in m u)
    s (handle_auth m buf len s).1 s'.
Proof.
  intros Hb. destruct m.
  - eapply guarded_weaken; [|by apply DoUserAuthRequest_guarded]. intros [Hs HG]. eexists. split; [by intros _|exact HG].
  - pose proof (DoUserAuthInfoResponse_guarded buf len s Hb) as Hg. cbn. eapply guarded_weaken; [|exact Hg].
    intros HG. eexists. split; [|exact HG]. intros [Hs|[=]]. by destruct (g_name _ _ _ _ Hg Hs) as [-> ->].
Qed.

(** C2: A client becomes authenticated only by a message whose verdict lets it in under
    the user name of the session: the application has taken its password, or has taken
    its public key and the signature of the request checks, or has taken its answers to
    the prompts. The handler then succeeds. *)
Theorem authenticated_by_verdict (m : auth_msg) (buf : bytes) (len : Z) (s : WOLFSSH) (r : res unit) (s' : WOLFSSH) :
  below s -> userAuthSeen (auth s) = true \/ m = RequestMsg ->
  handle_auth m buf len s = (r, s') ->
  clientState s <> CLIENT_USERAUTH_DONE -> clientState s' = CLIENT_USERAUTH_DONE ->
  r = Ok tt /\ let_in m (default [] (userName (auth s'))).
Proof.
  intros Hb Hs E Hn Hd. pose proof (handle_auth_guarded m buf len s Hb) as Hg. rewrite E in Hg. cbn [fst snd] in Hg.
  destruct (g_state _ _ _ _ Hg) as [|(_ & (u & Hu & HG) & [] & ->)]; [congruence|]. cbn in Hu. by destruct (Hu Hs) as [_ <-].
Qed.

(** The messages a session handles while it waits for the client to be authenticated
    (the loop of [wolfSSH_accept]), and whatever else happens between them. *)
Inductive auth_run : WOLFSSH -> WOLFSSH -> Prop :=
| run_start s : auth_run s s
| run_message s s1 m buf len r s2 :
    auth_run s s1 -> clientState s1 < CLIENT_USERAUTH_DONE -> handle_auth m buf len s1 = (r, s2) -> ~ ended r ->
    auth_run s s2
| run_other s s1 s2 : auth_run s s1 -> core s2 = core s1 -> auth_run s s2.

Definition auth_inv (s s' : WOLFSSH) : Prop :=
  below s' /\ authFailures (auth s) <= authFailures (auth s')
  /\ maxAuthAttempts (auth s') = maxAuthAttempts (auth s)
  /\ userAuthSeen (auth s') = true /\ userName (auth s') = userName (auth s)
  /\ (clientState s' <> clientState s -> exists m, let_in m (default [] (userName (auth s)))).

Lemma auth_inv_step s s1 m buf len r s2 : auth_inv s s1 -> handle_auth m buf len s1 = (r, s2) -> ~ ended r -> auth_inv s s2.
Proof.
  intros (Hb & Hf & Hm & Hs & Hn & Hc) E He. pose proof (handle_auth_guarded m buf len s1 Hb) as [Gm Gf Gl Gn Gs].
  rewrite E in *. cbn [fst snd] in *. destruct (Gn Hs) as [Hs2 Hn2]. destruct Gl as [Gl|[_ Gl]]; [|done].
  destruct Hb. unfold auth_inv, below, is_word32 in *. rewrite Hn2, Hn, Gm, Hm in *. repeat split; try done; try lia.
  intros Hd. destruct Gs as [Gs|(_ & (u & Hu & HG) & _)]; [apply Hc; congruence|]. exists m. destruct Hu as [_ <-]; [by left|done].
Qed.

(** C3: In every run of messages a session below its limit stays below it as long as no
    message ends it, the failures counted never decrease, the user name never
    changes, and the client is authenticated at its end only if some message let it in
    under that name. *)
Theorem auth_run_safe (s s' : WOLFSSH) :
  below s -> userAuthSeen (auth s) = true -> auth_run s s' -> auth_inv s s'.
Proof.
  intros Hb Hs R. induction R as [s|s s1 m buf len r s2 R IH _ E He|s s1 s2 R IH C].
  - by unfold auth_inv.
  - by eapply auth_inv_step; eauto.
  - specialize (IH Hb Hs). unfold auth_inv, below in *. apply core_eq in C as (-> & -> & -> & -> & ->). done.
Qed.

(** ** Reading a request *)

Lemma parse_ref buf len i a tail (s : WOLFSSH) : cursor buf len i (wstring a ++ tail) ->
  exists j, parse GetStringRef buf len i s = (Ok ((blen a, string_ref a), j), s) /\ cursor buf len j tail.
Proof.
  intros (p & -> & -> & El & Hl). exists (blen p + blen (encode_string a)). split.
  - unfold parse. change (wstring a) with (encode_string a) in *. rewrite (GetStringRef_encoded a p tail len); [done| |done].
    rewrite El, !blen_app. pose proof (blen_nonneg tail). lia.
  - exists (p ++ wstring a). rewrite <- app_assoc, blen_app. auto.
Qed.

Lemma parse_bool buf len i (b : bool) tail (s : WOLFSSH) : cursor buf len i (b2z b :: tail) ->
  exists j, parse GetBoolean buf len i s = (Ok (b2z b, j), s) /\ cursor buf len j tail.
Proof.
  intros (p & -> & -> & El & Hl). exists (blen p + 1). split.
  - unfold parse. pose proof (codec_read (reader := GetBoolean) (b2z b) p tail len) as K.
    assert (Eb : encode_bool (b2z b) ++ tail = b2z b :: tail) by (by destruct b).
    rewrite Eb in K. rewrite K; [done|by destruct b; [right|left]| |done].
    rewrite El, blen_app, blen_cons. change (blen (encode_bool (b2z b))) with 1. pose proof (blen_nonneg tail). lia.
  - exists (p ++ [b2z b]). rewrite <- app_assoc, blen_app. auto.
Qed.

(** C24: A request to authenticate with a password puts it to the application: on
    "success" the client is authenticated and nothing else happens; on "not yet" the
    request waits; any other answer counts exactly one failure, the last one allowed
    ending the session. *)
Theorem DoUserAuthRequestPassword_spec (d : WS_UserAuthData) (buf : bytes) (i : Z) (pw tail : bytes)
    (cb : Z -> WS_UserAuthData -> M (Z * WS_UserAuthData)) (s : WOLFSSH) :
  below s -> userAuthCb = Some cb -> cursor buf (blen buf) i (b2z false :: wstring pw ++ tail) -> buf <> [] ->
  after (DoUserAuthRequestPassword d buf (blen buf) i) (fun r s' =>
    match cb WOLFSSH_USERAUTH_PASSWORD (d <| au_type := WOLFSSH_USERAUTH_PASSWORD |> <| sf := SfPassword pw false [] |>) s with
    | (Ok (ret, _), s1) =>
      if ret =? WOLFSSH_USERAUTH_SUCCESS then r = Ok tt /\ s' = s1 <| clientState := CLIENT_USERAUTH_DONE |>
      else if ret =? WOLFSSH_USERAUTH_WOULD_BLOCK then r = Err WS_AUTH_PENDING /\ s' = s1
      else charged_once s r s' \/ r = UB
    | (Err e, s1) => r = Err e /\ s' = s1
    | (UB, s1) => r = UB /\ s' = s1
    end) s.
Proof.
  intros Hb Ecb Hc Hne. unfold DoUserAuthRequestPassword, password_verdict. rewrite Ecb.
  apply after_bind, after_guard; intros Hz.
  { exfalso. destruct buf; [done|]. apply Z.eqb_eq in Hz. unfold blen in Hz. cbn in Hz. lia. }
  destruct (parse_bool _ _ _ false _ s Hc) as (j & E1 & C1). destruct (parse_ref _ _ _ _ _ s C1) as (k & E2 & C2).
  apply after_bind, after_bind. eapply after_run; [exact E1|]. cbv beta iota.
  apply after_bind. eapply after_run; [exact E2|]. cbv beta iota. cbn [truthy b2z Z.eqb negb]. rewrite ref_bytes_string_ref.
  apply after_bind, after_core; [by eapply rest_userAuth|].
  intros [[ret d']|e|] s1 -> C; [|done|done].
  assert (Hb1 : below s1) by (by eapply below_core).
  assert (K : forall v, v <> Granted -> after (settle_auth v) (fun r s' => charged_once s r s' \/ r = UB) s1).
  { intros v Hv. eapply after_mono; [by apply settle_auth_after|]. intros r s' HK.
    assert (charged_once s1 r s' \/ r = UB) as [[Hq1 Hq2]|?] by (destruct v; tauto); [|by right]. left.
    apply core_eq in C as (C1' & C2' & C3' & C4' & C5'). split; [|by rewrite <- C1', <- C2'].
    rewrite Hq1. unfold core. cbn. by rewrite C1', C2', C3', C4', C5'. }
  destruct (Z.eqb_spec ret WOLFSSH_USERAUTH_SUCCESS) as [->|]; [done|].
  destruct (Z.eqb_spec ret WOLFSSH_USERAUTH_WOULD_BLOCK) as [->|].
  - done.
  - destruct (ret =? WOLFSSH_USERAUTH_PARTIAL_SUCCESS); [by apply K|].
    destruct (ret =? WOLFSSH_USERAUTH_REJECTED); by apply K.
Qed.

(** ** What a signature covers *)

(** A request for a public key up to its signature (RFC 4252, section 7). *)
Definition unsigned_request (user service algo blob : bytes) : bytes :=
  wstring user ++ wstring service ++ wstring (str "publickey") ++ [1] ++ wstring algo ++ wstring blob.

Lemma cursor_start a : is_word32 (blen a) -> cursor a (blen a) 0 a.
Proof. by exists []. Qed.

Lemma parse_pk_request_run d (user service algo blob name params sigAlgo sg : bytes) (s : WOLFSSH) :
  let sig := wstring sigAlgo ++ wstring sg in
  let buf := unsigned_request user service algo blob ++ wstring sig in
  blob = wstring name ++ params -> is_word32 (blen buf) ->
  exists pk, parse_pk_request d buf buf (blen buf) (blen (wstring user ++ wstring service ++ wstring (str "publickey"))) s = (Ok (pk, sigAlgo), s)
    /\ hasSignature pk = true /\ publicKeyType pk = algo /\ publicKey pk = blob /\ signature pk = sig
    /\ dataToSignSz pk = blen (unsigned_request user service algo blob)
    /\ forall s1, signed_bytes pk (dataToSignSz pk) s1 = (Ok (unsigned_request user service algo blob), s1).
Proof.
  intros sig buf Eb Hl. unfold parse_pk_request.
  assert (C0 : cursor buf (blen buf) (blen (wstring user ++ wstring service ++ wstring (str "publickey")))
                 (b2z true :: wstring algo ++ wstring blob ++ wstring sig ++ [])).
  { exists (wstring user ++ wstring service ++ wstring (str "publickey")). split; [|done].
    unfold buf, unsigned_request. rewrite app_nil_r, <- !app_assoc. done. }
  destruct (parse_bool _ _ _ _ _ s C0) as (i1 & E1 & C1). destruct (parse_ref _ _ _ _ _ s C1) as (i2 & E2 & C2).
  destruct (parse_ref _ _ _ _ _ s C2) as (i3 & E3 & C3). destruct (parse_ref _ _ _ _ _ s C3) as (i4 & E4 & _).
  assert (Ebuf : blen buf = blen (unsigned_request user service algo blob) + 4 + blen sig)
    by (unfold buf; rewrite blen_app, blen_wstring; lia).
  assert (Hsig : is_word32 (blen sig)) by (unfold is_word32 in *; pose proof (blen_nonneg (unsigned_request user service algo blob)); pose proof (blen_nonneg sig); lia).
  assert (Hblob : is_word32 (blen blob)).
  { revert Hl Ebuf. unfold unsigned_request. rewrite !blen_app, !blen_wstring. unfold is_word32.
    pose proof (blen_nonneg user). pose proof (blen_nonneg service). pose proof (blen_nonneg algo).
    pose proof (blen_nonneg sig). pose proof (blen_nonneg blob). pose proof (blen_nonneg (str "publickey")). pose proof (blen_nonneg [1]). lia. }
  assert (Cb : cursor blob (blen blob) 0 (wstring name ++ params)) by (rewrite <- Eb; by apply cursor_start).
  destruct (parse_ref _ _ _ _ _ s Cb) as (i5 & E5 & _).
  pose proof (cursor_start sig Hsig) as Cs. unfold sig in Cs at 3.
  destruct (parse_ref _ _ _ _ _ s Cs) as (i6 & E6 & C6). rewrite <- (app_nil_r (wstring sg)) in C6.
  destruct (parse_ref _ _ _ _ _ s C6) as (i7 & E7 & _).
  eexists (mkPublicKey buf _ algo blob true sig false false [] [] 0 0 None None []).
  split.
  - erewrite ST_bind_ok by exact E1. cbv beta iota. erewrite ST_bind_ok by exact E2. cbv beta iota.
    erewrite ST_bind_ok by exact E3.
    cbv beta iota. change (truthy (b2z true)) with true. cbv iota. erewrite ST_bind_ok by exact E4. cbv beta iota zeta.
    rewrite !ref_bytes_string_ref. erewrite ST_bind_ok by exact E5. rewrite st_assoc.
    erewrite ST_bind_ok by exact E6. cbv beta iota. rewrite st_assoc. erewrite ST_bind_ok by exact E7.
    rewrite st_ret, ref_bytes_string_ref. reflexivity.
  - cbn [hasSignature publicKeyType publicKey signature dataToSign dataToSignSz]. do 4 (split; [done|]).
    assert (W : blen buf -w blen sig -w LENGTH_SZ = blen (unsigned_request user service algo blob)).
    { pose proof (blen_nonneg (unsigned_request user service algo blob)). pose proof (blen_nonneg sig). unfold is_word32 in *.
      change LENGTH_SZ with 4; rewrite (wrap32_small (blen buf - blen sig)) by lia; rewrite wrap32_small by lia; lia. }
    split; [exact W|]. intros s1. unfold signed_bytes. cbn [dataToSign dataToSignSz].
    rewrite W. destruct (Z.leb_spec (blen (unsigned_request user service algo blob)) (blen buf)); [|pose proof (blen_nonneg sig); lia].
    unfold buf. by rewrite slice_prefix.
Qed.


End UserAuthSpec.

#[export] Hint Resolve rest_or_code rest_or_recode rest_or_else rest_sized rest_CheckRsaKeyBits rest_RsaVerify
  rest_cert_key rest_call rest_Hash_Helper rest_trad_verify rest_importPub rest_VerifyCerts : frames.

(** ** Examples *)

(** An application that takes the password "secret" and any answers to prompts, but
    declines to set prompts up. *)
Definition sample_verdict (t : Z) (d : WS_UserAuthData) : M (Z * WS_UserAuthData) :=
  let ok := if t =? WOLFSSH_USERAUTH_PASSWORD then
              match sf d with SfPassword pw _ _ => bytes_eqb pw (str "secret") | _ => false end
            else t =? WOLFSSH_USERAUTH_KEYBOARD in
  mret (if ok then WOLFSSH_USERAUTH_SUCCESS else WOLFSSH_USERAUTH_FAILURE, d).

Definition auth_server : CTX := server <| @userAuthCb := Some sample_verdict |>.

#[export] Instance auth_server_sends : @QuietSends auth_server.
Proof. split; [|done]. intros cb d [= <-] s. reflexivity. Defined.

#[export] Instance auth_server_quiet : @QuietAuth auth_server.
Proof. split; try done; by intros cb t d [= <-] s. Defined.

Definition password_request (pw : bytes) : bytes :=
  wstring (str "alice") ++ wstring (str "ssh-connection") ++ wstring (str "password") ++ [0] ++ wstring pw.

(** A session whose client has named itself. *)
Definition named_session : WOLFSSH :=
  (new_session []) <| auth ::= (fun a => a <| userName := Some (str "alice") |> <| userAuthSeen := true |>) |>.

Example authenticated_by_verdict_witness :
  let buf := password_request (str "secret") in
  let run := @handle_auth auth_server _ _ _ _ _ RequestMsg buf (blen buf) (new_session []) in
  clientState run.2 = CLIENT_USERAUTH_DONE /\
  (run.1 = Ok tt /\ @let_in auth_server _ _ _ _ RequestMsg (default [] (userName (auth run.2)))).
Proof.
  set (buf := password_request (str "secret")). split; [by vm_compute|].
  apply (@authenticated_by_verdict auth_server _ _ _ _ _ _ _ RequestMsg buf (blen buf) (new_session []) _ _).
  - split; [|unfold is_word32]; vm_compute; intuition congruence.
  - by right.
  - apply surjective_pairing.
  - by vm_compute.
  - by vm_compute.
Defined.

(** Two wrong passwords. *)
Example auth_run_safe_witness :
  let buf := password_request (str "guess") in
  let s1 := (@handle_auth auth_server _ _ _ _ _ RequestMsg buf (blen buf) named_session).2 in
  let s2 := (@handle_auth auth_server _ _ _ _ _ RequestMsg buf (blen buf) s1).2 in
  authFailures (auth s2) = 2 /\ @auth_inv auth_server _ _ _ _ named_session s2.
Proof.
  intros buf s1 s2. split; [by vm_compute|].
  assert (Hb : below named_session) by (split; [|unfold is_word32]; vm_compute; intuition congruence).
  assert (R : @auth_run auth_server _ _ _ _ _ named_session s2).
  { apply (run_message named_session s1 RequestMsg buf (blen buf) (Ok tt)).
    - apply (run_message named_session named_session RequestMsg buf (blen buf) (Ok tt));
        [apply run_start|by vm_compute|by vm_compute|by intros [|]].
    - by vm_compute.
    - by vm_compute.
    - by intros [|]. }
  pose proof (@auth_run_safe auth_server _ _ _ _ _ _ _ named_session s2 Hb eq_refl R) as P. exact P.
Defined.

Example DoUserAuthRequestPassword_spec_witness :
  let buf := password_request (str "secret") in
  let d := mkAuthData 0 (str "alice") [] (str "password") SfZero in
  after (@DoUserAuthRequestPassword auth_server _ d buf (blen buf) 39) (fun r s' =>
    r = Ok tt /\ s' = (new_session []) <| clientState := CLIENT_USERAUTH_DONE |>) (new_session []).
Proof.
  set (buf := password_request (str "secret")). set (d := mkAuthData 0 (str "alice") [] (str "password") SfZero).
  apply (@DoUserAuthRequestPassword_spec auth_server _ _ _ d buf 39 (str "secret") [] sample_verdict (new_session [])).
  - split; [|unfold is_word32]; vm_compute; intuition congruence.
  - done.
  - exists (take 39 buf). split; [by vm_compute|]. split; [by vm_compute|]. split; [done|]. split; by vm_compute.
  - done.
Defined.


(** The application has declined to set prompts up: the failure is counted, no request for
    information has gone out, and yet the method stays selected, so that an answer to
    no question reaches the application and lets the client in. *)
Example unsolicited_response_accepted :
  let req := wstring (str "alice") ++ wstring (str "ssh-connection") ++ wstring (str "keyboard-interactive")
             ++ wstring [] ++ wstring [] in
  let s1 := (@DoUserAuthRequest auth_server _ _ _ _ _ req (blen req) (new_session [])).2 in
  let s2 := (@DoUserAuthInfoResponse auth_server _ (c32toa 0) 4 s1).2 in
  kbSetupPending (auth s1) = false /\ authFailures (auth s1) = 1 /\ clientState s2 = CLIENT_USERAUTH_DONE.
Proof. vm_compute. repeat split. Qed.
