(* ===== verification/KexDh.v ===== *)
(** The key exchange messages (internal.c): the group of a group exchange,
    [ValidateKexDhGexGroup] and [DoKexDhGexGroup]; the client's [SendKexDhInit] and
    [DoKexDhReply] with [KeyAgree_client]; the server's [DoKexDhInit] and
    [SendKexDhReply] with [KeyAgreeDh_server] to [KeyAgreeEcdhMlKem_server].

    What is shown is in the file KexDhSpec. *)

From S2P Require Import Prelude Codes Wire Names Buffer Fwd Algos Kdf Session Samples MsgFilter Transport.
From S2P Require Import Channels Send KexInit KexKeys KexAgree UserSig Ossh Composite OsshKey CertMan HostKey UserAuth.

(** ** wolfCrypt's key agreements and numbers *)

Inductive mlkem_type := WC_ML_KEM_768 | WC_ML_KEM_1024.

(** [DhKey] and [curve25519_key] are the bytes of their objects, and an [ecc_key] has
    such bytes, as the handshake keeps one of the three in a union. Public values of a
    curve fit every array they are exported to; a call that draws random numbers gives
    the generator back. *)
Class KeyExchange `{HostKeys} := {
  wc_InitDhKey : Z;
  wc_DhSetKey : bytes -> bytes -> wc bytes;                                  (* p, g *)
  wc_DhGenerateKeyPair : bytes -> Z -> Z -> bytes -> wc (bytes * bytes) * bytes;   (* rooms; private, public *)
  wc_DhCheckPubKey : bytes -> bytes -> Z;
  wc_DhAgree : bytes -> Z -> bytes -> bytes -> wc bytes;                     (* room, private, public *)
  ecc_image : ecc_key -> bytes;
  ecc_at : bytes -> ecc_key;
  wc_ecc_check_key : ecc_key -> bytes -> wc unit * bytes;
  wc_ecc_make_key_ex : ecc_curve_id -> bytes -> wc ecc_key * bytes;
  wc_ecc_shared_secret : ecc_key -> ecc_key -> Z -> bytes -> wc bytes * bytes;     (* private, public, room *)
  wc_curve25519_init : Z;
  wc_curve25519_check_public : bytes -> Z;
  wc_curve25519_import_public_ex : bytes -> wc bytes;
  wc_curve25519_make_key : bytes -> wc bytes * bytes;
  wc_curve25519_export_public_ex : bytes -> wc bytes;
  wc_curve25519_shared_secret_ex : bytes -> bytes -> Z -> wc bytes;          (* private, public, room *)
  MlKemKey : Type;
  wc_MlKemKey_Init : mlkem_type -> wc MlKemKey;
  wc_MlKemKey_CipherTextSize : MlKemKey -> wc Z;
  wc_MlKemKey_SharedSecretSize : MlKemKey -> wc Z;
  wc_MlKemKey_PublicKeySize : MlKemKey -> wc Z;
  wc_MlKemKey_PrivateKeySize : MlKemKey -> wc Z;
  wc_MlKemKey_MakeKey : MlKemKey -> bytes -> wc MlKemKey * bytes;
  wc_MlKemKey_EncodePublicKey : MlKemKey -> Z -> wc bytes;
  wc_MlKemKey_EncodePrivateKey : MlKemKey -> Z -> wc bytes;
  wc_MlKemKey_DecodePublicKey : MlKemKey -> bytes -> wc MlKemKey;
  wc_MlKemKey_DecodePrivateKey : MlKemKey -> bytes -> wc MlKemKey;
  wc_MlKemKey_Encapsulate : MlKemKey -> bytes -> wc (bytes * bytes) * bytes; (* ciphertext, secret *)
  wc_MlKemKey_Decapsulate : MlKemKey -> bytes -> wc bytes;
  (* numbers *)
  mp_int : Type;
  mp_init_multi : Z;
  mp_read_unsigned_bin : bytes -> wc mp_int;
  mp_bits : mp_int -> Z;                                                     (* mp_count_bits *)
  mp_isodd : mp_int -> bool;
  mp_cmp_d : mp_int -> Z -> comparison;
  mp_cmp : mp_int -> mp_int -> comparison;
  mp_sub_d : mp_int -> Z -> wc mp_int;
  mp_rshb : mp_int -> Z -> mp_int;
  mp_prime_is_prime_ex : mp_int -> Z -> bytes -> wc bool * bytes
}.

Section KexDh.
Context `{CTX} `{Crypto} `{Hashes} `{PubKeys} `{!SignKeys} `{!HostKeys} `{!KeyExchange} `{CertManager}.

(** [m], then [cleanup], with the outcome of [m]. *)
Definition finally {A} (m : M A) (cleanup : M unit) : M A :=
  r ← attempt m;
  cleanup;;
  match r with inl a => mret a | inr e => fail e end.

Definition set_k (k : bytes) : M unit := modify (fun s => s <| kex; kx_k := k |>).
(** [WS_FORCEZERO(ssh->k)], and its size is 0. *)
Definition wipe_k : M unit := set_k [].
Definition free_priv : M unit := st_hs (fun h => h <| privKey := [] |>).
Definition zero_x : M unit := st_hs (fun h => h <| hs_x ::= (fun x => zeros (blen x)) |>).

(** ** The client's key agreements *)

(** A public value of Diffie-Hellman is a positive number in range. *)
Definition check_dh_public (key peer : bytes) : M unit :=
  or_else (ret_code (if (0 <? blen peer) && top_bit peer then WS_PARSE_E else wc_DhCheckPubKey key peer)) WS_CRYPTO_FAILED.

Definition KeyAgreeDh_client (f : bytes) : M unit :=
  h ← ld_hs;
  finally (
    check_dh_public (privKey h) f;;
    k ← or_else (call (wc_DhAgree (privKey h) MAX_KEX_KEY_SZ (hs_x h) f)) WS_CRYPTO_FAILED;
    set_k k)
    (zero_x;; free_priv).

Definition EccCheckPeerKey (peer : bytes) (primeId : ecc_curve_id) : M ecc_key :=
  key ← lift_res (wc_ecc_import_x963_ex peer primeId);
  ret_code wc_ecc_set_rng;;
  with_rng (wc_ecc_check_key key);;
  mret key.

Definition curve_of (kexId : AlgoId) : M ecc_curve_id :=
  let primeId := wcPrimeForId kexId in
  guard_err (bool_decide (primeId = ECC_CURVE_INVALID)) WS_INVALID_PRIME_CURVE;;
  mret primeId.

Definition KeyAgreeEcdh_client (f : bytes) : M unit :=
  h ← ld_hs;
  finally (
    ret_code wc_ecc_init_ex;;
    primeId ← curve_of (hs_kexId h);
    key ← EccCheckPeerKey f primeId;
    k ← or_else (with_rng (wc_ecc_shared_secret (ecc_at (privKey h)) key MAX_KEX_KEY_SZ)) WS_CRYPTO_FAILED;
    set_k k)
    free_priv.

(** The peer's point of Curve25519. *)
Definition curve25519_peer (peer : bytes) : M bytes :=
  ret_code (wc_curve25519_check_public peer);;
  call (wc_curve25519_import_public_ex peer).

Definition KeyAgreeCurve25519_client (f : bytes) : M unit :=
  h ← ld_hs;
  finally (
    ret_code wc_curve25519_init;;
    pub ← curve25519_peer f;
    k ← or_else (call (wc_curve25519_shared_secret_ex (privKey h) pub MAX_KEX_KEY_SZ)) WS_CRYPTO_FAILED;
    set_k k)
    free_priv.

Definition mlkem_of (kexId : AlgoId) : mlkem_type :=
  if id_eqb kexId ID_NISTP384_MLKEM1024_SHA384 then WC_ML_KEM_1024 else WC_ML_KEM_768.

(** The hash of the secrets is the secret of a hybrid. *)
Definition hash_secret (hashId : wc_HashType) (k : bytes) : M unit :=
  guard_err (wc_HashGetDigestSize hashId <=? 0) WS_INVALID_ALGO_ID;;
  mem ← malloc;
  guard_err (negb mem) WS_MEMORY_E;;
  d ← lift_res (wc_Hash hashId k);
  set_k d.

(** The classical half of a hybrid, from what follows the ciphertext. *)
Definition classical_client (kexId : AlgoId) (priv peer : bytes) (room : Z) : M bytes :=
  if id_eqb kexId ID_CURVE25519_MLKEM768_SHA256 then
    ret_code wc_curve25519_init;;
    pub ← curve25519_peer peer;
    call (wc_curve25519_shared_secret_ex priv pub room)
  else
    ret_code wc_ecc_init_ex;;
    primeId ← curve_of kexId;
    key ← EccCheckPeerKey peer primeId;
    with_rng (wc_ecc_shared_secret (ecc_at priv) key room).

Definition KeyAgreeEcdhMlKem_client (hashId : wc_HashType) (f : bytes) : M unit :=
  h ← ld_hs;
  r ← attempt (
    kem ← call (wc_MlKemKey_Init (mlkem_of (hs_kexId h)));
    length_ciphertext ← call (wc_MlKemKey_CipherTextSize kem);
    length_sharedsecret ← call (wc_MlKemKey_SharedSecretSize kem);
    length_privatekey ← call (wc_MlKemKey_PrivateKeySize kem);
    guard_err (blen (hs_x h) <? length_privatekey) WS_BUFFER_E;;
    guard_err (blen f <? length_ciphertext) WS_BUFFER_E;;
    guard_err (MAX_KEX_KEY_SZ <=? length_sharedsecret) WS_BUFFER_E;;
    classical ← classical_client (hs_kexId h) (privKey h)
      (slice f length_ciphertext (blen f - length_ciphertext)) (MAX_KEX_KEY_SZ - length_sharedsecret);
    kem ← call (wc_MlKemKey_DecodePrivateKey kem (slice (hs_x h) 0 length_privatekey));
    secret ← call (wc_MlKemKey_Decapsulate kem (slice f 0 length_ciphertext));
    mret (secret ++ classical));
  free_priv;;
  zero_x;;
  match r with
  | inl k => hash_secret hashId k
  | inr e => wipe_k;; fail e
  end.

Definition KeyAgree_client (hashId : wc_HashType) (f : bytes) : M unit :=
  set_k (zeros MAX_KEX_KEY_SZ);;
  h ← ld_hs;
  if useDh h then KeyAgreeDh_client f
  else if useMlKem h then KeyAgreeEcdhMlKem_client hashId f
  else if useEcdh h then KeyAgreeEcdh_client f
  else if useCurve25519 h then KeyAgreeCurve25519_client f
  else fail WS_INVALID_ALGO_ID.

(** ** The exchange hash *)

(** K in the hash: as an mpint, but for a hybrid. *)
Definition hash_k (hashId : wc_HashType) (isMlKem : bool) : M unit :=
  s ← get;
  let '(k, kPad) := if isMlKem then (kx_k (kex s), 0) else CreateMpint (kx_k (kex s)) in
  set_k k;;
  on_hash (HashMpintHeader hashId (blen k) kPad);;
  on_hash (HashUpdate hashId k).

(** H, and the session id of the first exchange. *)
Definition take_hash (hashId : wc_HashType) : M unit :=
  h ← ld_hs;
  d ← finally (lift_res (wc_HashFinal hashId (kexHash h)))
    (st_hs (fun h => h <| kexHash := [] |> <| kexHashId := WC_HASH_TYPE_NONE |>));
  modify (fun s => s <| kex; kx_h := d |>);;
  s ← get;
  when (blen (sessionId (kex s)) =? 0) (modify (fun s => s <| kex; sessionId := d |>)).

(** ** The client: the reply *)

Definition check_host_key (pubKey : bytes) : M unit :=
  match publicKeyCheckCb with
  | None => fail WS_PUBKEY_REJECTED_E
  | Some cb =>
    ret ← cb pubKey;
    guard_err (negb (ret =? 0)) WS_PUBKEY_REJECTED_E
  end.

(** The group of a group exchange, as the client has it. *)
Definition client_gex_parts (h : HandshakeInfo) : M (list bytes) :=
  match primeGroup h, generator h with
  | Some p, Some g =>
    p0 ← deref (rd p 0);
    g0 ← deref (rd g 0);
    let pad x := b2z (truthy (Z.land x 0x80)) in
    mret (gex_parts h (p, pad p0) (g, pad g0))
  | _, _ => fail WS_BAD_ARGUMENT
  end.

Definition do_kexdh_reply (buf : bytes) (len : Z) : M unit :=
  guard_err (len <? LENGTH_SZ * 2) WS_BUFFER_E;;
  '(pubKeySz, begin) ← parse GetUint32 buf len 0;
  guard_err (len - LENGTH_SZ - begin <? pubKeySz) WS_BUFFER_E;;
  let pubKey := slice buf begin pubKeySz in
  check_host_key pubKey;;
  h ← ld_hs;
  let hashId := kexHashId h in
  hash_parts hashId [slice buf (begin - LENGTH_SZ) (pubKeySz + LENGTH_SZ)];;
  let begin := begin + pubKeySz in
  when (id_eqb (hs_kexId h) ID_DH_GEX_SHA256) (parts ← client_gex_parts h; hash_parts hashId parts);;
  hash_parts hashId [c32toa (blen (hs_e h)); hs_e h];;
  let start := begin in
  '(fSz, begin) ← parse GetUint32 buf len begin;
  guard_err (len - begin <? fSz) WS_PARSE_E;;
  hash_parts hashId [slice buf start (fSz + LENGTH_SZ)];;
  let f := slice buf begin fSz in
  '(sigSz, begin) ← parse GetUint32 buf len (begin + fSz);
  guard_err (len - begin <? sigSz) WS_PARSE_E;;
  mem ← malloc;
  guard_err (negb mem) WS_MEMORY_E;;
  let sig := slice buf begin sigSz in
  key ← or_else (
    key ← ParsePubKey (pubKeyId h) pubKey;
    KeyAgree_client hashId f;;
    hash_k hashId (useMlKem h);;
    take_hash hashId;;
    mret key) WS_CRYPTO_FAILED;
  s ← get;
  verify_exchange (pubKeyId h) key sig (kx_h (kex s));;
  GenerateKeys hashId (negb (useMlKem h));;
  st_hs (fun h => h <| expectMsgId := MSGID_NEWKEYS |>);;
  SendNewKeys.

(** A failed exchange is told to the peer with its reason. *)
Definition disconnect (reason : Z) : M unit := _ ← code (SendDisconnect reason); mret tt.

Definition DoKexDhReply (buf : bytes) (len : Z) : M unit :=
  s ← get;
  match handshake s with
  | None => fail WS_BAD_ARGUMENT
  | Some _ =>
    guard_err (len =? 0) WS_BAD_ARGUMENT;;
    r ← attempt (do_kexdh_reply buf len);
    wipe_k;;
    match r with
    | inl _ => mret tt
    | inr ret =>
      (if ret =? WS_CRYPTO_FAILED then disconnect WOLFSSH_DISCONNECT_KEY_EXCHANGE_FAILED
       else when (ret =? WS_PUBKEY_REJECTED_E) (disconnect WOLFSSH_DISCONNECT_HOST_KEY_NOT_VERIFIABLE));;
      fail ret
    end
  end.

(** ** The client: its public value *)

(** Which key agreement an algorithm is, and the messages that carry it. *)
Definition kexdh_init_ids (kexId : AlgoId) : Z * Z :=
  match kexId with
  | ID_DH_GEX_SHA256 => (MSGID_KEXDH_GEX_INIT, MSGID_KEXDH_GEX_REPLY)
  | ID_ECDH_SHA2_NISTP256 | ID_ECDH_SHA2_NISTP384 | ID_ECDH_SHA2_NISTP521
  | ID_CURVE25519_SHA256 | ID_CURVE25519_SHA256_LIBSSH => (MSGID_KEXECDH_INIT, MSGID_KEXDH_REPLY)
  | ID_NISTP256_MLKEM768_SHA256 | ID_NISTP384_MLKEM1024_SHA384 | ID_CURVE25519_MLKEM768_SHA256 =>
    (MSGID_KEXKEM_INIT, MSGID_KEXDH_REPLY)
  | _ => (MSGID_KEXDH_INIT, MSGID_KEXDH_REPLY)
  end.
Definition kexdh_flags (kexId : AlgoId) : option (HandshakeInfo -> HandshakeInfo) :=
  match kexId with
  | ID_DH_GROUP1_SHA1 | ID_DH_GROUP14_SHA1 | ID_DH_GROUP14_SHA256 | ID_DH_GROUP16_SHA512 | ID_DH_GEX_SHA256 =>
    Some (fun h => h <| useDh := true |>)
  | ID_ECDH_SHA2_NISTP256 | ID_ECDH_SHA2_NISTP384 | ID_ECDH_SHA2_NISTP521 => Some (fun h => h <| useEcdh := true |>)
  | ID_CURVE25519_SHA256 | ID_CURVE25519_SHA256_LIBSSH => Some (fun h => h <| useCurve25519 := true |>)
  | ID_NISTP256_MLKEM768_SHA256 | ID_NISTP384_MLKEM1024_SHA384 =>
    Some (fun h => h <| useEcdh := true |> <| useMlKem := true |>)
  | ID_CURVE25519_MLKEM768_SHA256 => Some (fun h => h <| useCurve25519 := true |> <| useMlKem := true |>)
  | _ => None
  end.

(** The client takes the prime of a group exchange from the server; it has none of its
    own. *)
Definition client_group (h : HandshakeInfo) : bytes * bytes :=
  match hs_kexId h with
  | ID_DH_GROUP1_SHA1 => (dhPrimeGroup1, dhGenerator)
  | ID_DH_GROUP14_SHA1 | ID_DH_GROUP14_SHA256 => (dhPrimeGroup14, dhGenerator)
  | ID_DH_GROUP16_SHA512 => (dhPrimeGroup16, dhGenerator)
  | _ => (default [] (primeGroup h), default [] (generator h))
  end.

Definition set_priv (k : bytes) : M unit := st_hs (fun h => h <| privKey := k |>).

Definition dh_public : M bytes :=
  h ← ld_hs;
  let '(p, g) := client_group h in
  ret_code wc_InitDhKey;;
  key ← call (wc_DhSetKey p g);
  set_priv key;;
  '(x, e) ← with_rng (wc_DhGenerateKeyPair key (blen (hs_x h)) (MAX_KEX_KEY_SZ + 1));
  st_hs (fun h => h <| hs_x := x |>);;
  mret e.

Definition curve25519_public : M bytes :=
  ret_code wc_curve25519_init;;
  key ← with_rng wc_curve25519_make_key;
  set_priv key;;
  call (wc_curve25519_export_public_ex key).

(** A new key of a curve. *)
Definition make_ecc (primeId : ecc_curve_id) : M ecc_key :=
  ret_code wc_ecc_init_ex;;
  ret_code wc_ecc_set_rng;;
  with_rng (wc_ecc_make_key_ex primeId).

Definition ecdh_public : M bytes :=
  h ← ld_hs;
  primeId ← curve_of (hs_kexId h);
  key ← make_ecc primeId;
  set_priv (ecc_image key);;
  call (wc_ecc_export_x963 key).

(** The key of the KEM goes in front of the classical one; its private part is kept in
    [x]. *)
Definition mlkem_public (e : bytes) : M bytes :=
  h ← ld_hs;
  kem ← call (wc_MlKemKey_Init (mlkem_of (hs_kexId h)));
  kem ← with_rng (wc_MlKemKey_MakeKey kem);
  length_publickey ← call (wc_MlKemKey_PublicKeySize kem);
  length_privatekey ← call (wc_MlKemKey_PrivateKeySize kem);
  if (MAX_KEX_KEY_SZ + 1 <? length_publickey + blen e) || (MAX_KEX_KEY_SZ + 1 <? length_privatekey) then ub
  else
    pub ← call (wc_MlKemKey_EncodePublicKey kem length_publickey);
    x ← call (wc_MlKemKey_EncodePrivateKey kem length_privatekey);
    st_hs (fun h => h <| hs_x := x |>);;
    mret (pub ++ e).

Definition client_public : M bytes :=
  h ← ld_hs;
  e ← (if useDh h then dh_public else if useCurve25519 h then curve25519_public
       else if useEcdh h then ecdh_public else fail WS_INVALID_ALGO_ID);
  if useMlKem h then mlkem_public e else mret e.

Definition SendKexDhInit : M unit :=
  h ← ld_hs;
  let '(msgId, expect) := kexdh_init_ids (hs_kexId h) in
  match kexdh_flags (hs_kexId h) with
  | None => fail WS_INVALID_ALGO_ID
  | Some flags => st_hs flags
  end;;
  e ← client_public;
  h ← ld_hs;
  let '(e, ePad) := if negb (useMlKem h) && negb (useCurve25519 h) then CreateMpint e else (e, 0) in
  let padded := (if truthy ePad then [0] else []) ++ e in
  st_hs (fun h => h <| hs_e := padded |>);;
  send_payload (MSG_ID_SZ + LENGTH_SZ +w blen e +w ePad) ([msgId] ++ c32toa (blen e +w ePad) ++ padded);;
  st_hs (fun h => h <| expectMsgId := expect |>);;
  wolfSSH_SendPacket.

(** ** The client: the group of a group exchange *)

(** The bytes a number of [sz] bytes has without the pad in front. *)
Definition adjusted (d : bytes) : Z := blen d - b2z (nth 0 d 0 =? 0).

Definition prime_test (p : mp_int) : M unit :=
  isPrime ← or_else (with_rng (mp_prime_is_prime_ex p WOLFSSH_MR_ROUNDS)) WS_CRYPTO_FAILED;
  guard_err (negb isPrime) WS_CRYPTO_FAILED.

Definition ValidateKexDhGexGroup (primeGroup generator : option bytes) (minBits maxBits : Z) : M unit :=
  match primeGroup, generator with
  | Some primeGroup, Some generator =>
    guard_err ((blen primeGroup =? 0) || (blen generator =? 0)) WS_BAD_ARGUMENT;;
    let maxBytes := maxBits / 8 + b2z (negb (maxBits mod 8 =? 0)) in
    guard_err ((maxBytes <? adjusted primeGroup) || (adjusted primeGroup <? adjusted generator)) WS_DH_SIZE_E;;
    guard_err (negb (mp_init_multi =? 0)) WS_CRYPTO_FAILED;;
    p ← or_recode WS_CRYPTO_FAILED (mp_read_unsigned_bin primeGroup);
    g ← or_recode WS_CRYPTO_FAILED (mp_read_unsigned_bin generator);
    guard_err ((mp_bits p <? minBits) || (maxBits <? mp_bits p)) WS_DH_SIZE_E;;
    guard_err (negb (mp_isodd p)) WS_CRYPTO_FAILED;;
    guard_err (match mp_cmp_d g 1 with Gt => false | _ => true end) WS_CRYPTO_FAILED;;
    q ← or_recode WS_CRYPTO_FAILED (mp_sub_d p 1);
    guard_err (match mp_cmp g q with Lt => false | _ => true end) WS_CRYPTO_FAILED;;
    prime_test p;;
    q ← or_recode WS_CRYPTO_FAILED (mp_sub_d p 1);
    prime_test (mp_rshb q 1)
  | _, _ => fail WS_BAD_ARGUMENT
  end.

Definition do_gex_group (buf : bytes) (len : Z) : M unit :=
  guard_err (len =? 0) WS_BAD_ARGUMENT;;
  '((primeGroupSz, prime), begin) ← parse GetMpint buf len 0;
  guard_err (MAX_KEX_KEY_SZ + 1 <? primeGroupSz) WS_DH_SIZE_E;;
  '((_, gen), begin) ← parse GetMpint buf len begin;
  h ← ld_hs;
  let minBits := if dhGexMinSz h <? WOLFSSH_DH_GEX_MIN_BITS then WOLFSSH_DH_GEX_MIN_BITS else dhGexMinSz h in
  ValidateKexDhGexGroup prime gen minBits (dhGexMaxSz h);;
  mem ← malloc;
  (if negb mem then st_hs (fun h => h <| primeGroup := None |>);; fail WS_MEMORY_E else mret tt);;
  mem ← malloc;
  (if negb mem then st_hs (fun h => h <| primeGroup := None |> <| generator := None |>);; fail WS_MEMORY_E else mret tt);;
  st_hs (fun h => h <| primeGroup := Some (ref_bytes prime) |> <| generator := Some (ref_bytes gen) |>);;
  SendKexDhInit.

Definition DoKexDhGexGroup (buf : bytes) (len : Z) : M unit :=
  s ← get;
  match handshake s with
  | None => fail WS_BAD_ARGUMENT
  | Some _ =>
    r ← attempt (do_gex_group buf len);
    match r with
    | inl _ => mret tt
    | inr ret =>
      when ((ret =? WS_CRYPTO_FAILED) || (ret =? WS_DH_SIZE_E)) (disconnect WOLFSSH_DISCONNECT_KEY_EXCHANGE_FAILED);;
      fail ret
    end
  end.

(** ** The server's key agreements *)

(** The server's public value; K is left in the session. *)
Definition KeyAgreeDh_server : M bytes :=
  h ← ld_hs;
  '(p, g) ← lift_res (GetDHPrimeGroup h);
  modify (fun s => s <| kex; kx_primeGroupSz := blen p |>);;
  ret_code wc_InitDhKey;;
  key ← call (wc_DhSetKey p g);
  '(y, f) ← with_rng (wc_DhGenerateKeyPair key MAX_KEX_KEY_SZ KEX_F_SIZE);
  check_dh_public key (hs_e h);;
  k ← call (wc_DhAgree key MAX_KEX_KEY_SZ y (hs_e h));
  set_k k;;
  mret f.

Definition KeyAgreeEcdh_server : M bytes :=
  h ← ld_hs;
  primeId ← curve_of (hs_kexId h);
  ret_code wc_ecc_init_ex;;
  ret_code wc_ecc_init_ex;;
  ret_code wc_ecc_set_rng;;
  pubKey ← EccCheckPeerKey (hs_e h) primeId;
  priv ← with_rng (wc_ecc_make_key_ex primeId);
  f ← call (wc_ecc_export_x963 priv);
  k ← with_rng (wc_ecc_shared_secret priv pubKey MAX_KEX_KEY_SZ);
  set_k k;;
  mret f.

Definition KeyAgreeCurve25519_server : M bytes :=
  h ← ld_hs;
  ret_code wc_curve25519_init;;
  ret_code wc_curve25519_init;;
  pubKey ← curve25519_peer (hs_e h);
  priv ← with_rng wc_curve25519_make_key;
  f ← call (wc_curve25519_export_public_ex priv);
  k ← call (wc_curve25519_shared_secret_ex priv pubKey MAX_KEX_KEY_SZ);
  set_k k;;
  mret f.

(** The ciphertext and the secret of the KEM, and the sizes of its public key and
    secret. *)
Definition encapsulate (kexId : AlgoId) (e : bytes) : M (bytes * bytes * Z * Z) :=
  kem ← call (wc_MlKemKey_Init (mlkem_of kexId));
  _ ← call (wc_MlKemKey_CipherTextSize kem);
  length_sharedsecret ← call (wc_MlKemKey_SharedSecretSize kem);
  length_publickey ← call (wc_MlKemKey_PublicKeySize kem);
  guard_err (blen e <=? length_publickey) WS_BUFFER_E;;
  kem ← call (wc_MlKemKey_DecodePublicKey kem (slice e 0 length_publickey));
  '(ciphertext, secret) ← with_rng (wc_MlKemKey_Encapsulate kem);
  mret (ciphertext, secret, length_publickey, length_sharedsecret).

(** The classical half: the public value and the secret. *)
Definition classical_server (kexId : AlgoId) (peer : bytes) (room : Z) : M (bytes * bytes) :=
  if id_eqb kexId ID_CURVE25519_MLKEM768_SHA256 then
    ret_code wc_curve25519_init;;
    ret_code wc_curve25519_init;;
    pubKey ← curve25519_peer peer;
    priv ← with_rng wc_curve25519_make_key;
    f ← call (wc_curve25519_export_public_ex priv);
    k ← call (wc_curve25519_shared_secret_ex priv pubKey room);
    mret (f, k)
  else
    primeId ← curve_of kexId;
    ret_code wc_ecc_init_ex;;
    ret_code wc_ecc_init_ex;;
    ret_code wc_ecc_set_rng;;
    pubKey ← EccCheckPeerKey peer primeId;
    priv ← with_rng (wc_ecc_make_key_ex primeId);
    f ← call (wc_ecc_export_x963 priv);
    k ← with_rng (wc_ecc_shared_secret priv pubKey room);
    mret (f, k).

Definition KeyAgreeEcdhMlKem_server (hashId : wc_HashType) : M bytes :=
  h ← ld_hs;
  r ← attempt (encapsulate (hs_kexId h) (hs_e h));
  match r with
  | inr _ => set_k [];; fail WS_PUBKEY_REJECTED_E
  | inl (ciphertext, secret, length_publickey, length_sharedsecret) =>
    '(f, k) ← classical_server (hs_kexId h) (slice (hs_e h) length_publickey (blen (hs_e h) - length_publickey))
      (MAX_KEX_KEY_SZ - length_sharedsecret);
    hash_secret hashId (secret ++ k);;
    mret (ciphertext ++ f)
  end.

(** ** The server: the reply *)

Inductive agreement := AgreeDh | AgreeMlKem | AgreeEcdh | AgreeCurve25519.

(** The agreement of an algorithm, and the reply's message. *)
Definition reply_kind (kexId : AlgoId) : option (agreement * Z) :=
  match kexId with
  | ID_DH_GROUP1_SHA1 | ID_DH_GROUP14_SHA1 | ID_DH_GROUP14_SHA256 | ID_DH_GROUP16_SHA512 =>
    Some (AgreeDh, MSGID_KEXDH_REPLY)
  | ID_DH_GEX_SHA256 => Some (AgreeDh, MSGID_KEXDH_GEX_REPLY)
  | ID_ECDH_SHA2_NISTP256 | ID_ECDH_SHA2_NISTP384 | ID_ECDH_SHA2_NISTP521 => Some (AgreeEcdh, MSGID_KEXDH_REPLY)
  | ID_CURVE25519_SHA256 | ID_CURVE25519_SHA256_LIBSSH => Some (AgreeCurve25519, MSGID_KEXDH_REPLY)
  | ID_NISTP256_MLKEM768_SHA256 | ID_NISTP384_MLKEM1024_SHA384 | ID_CURVE25519_MLKEM768_SHA256 =>
    Some (AgreeMlKem, MSGID_KEXKEM_REPLY)
  | _ => None
  end.

Definition KeyAgree_server (kind : agreement) (hashId : wc_HashType) : M bytes :=
  match kind with
  | AgreeDh => KeyAgreeDh_server
  | AgreeMlKem => KeyAgreeEcdhMlKem_server hashId
  | AgreeEcdh => KeyAgreeEcdh_server
  | AgreeCurve25519 => KeyAgreeCurve25519_server
  end.
Definition is_mlkem (kind : agreement) : bool := match kind with AgreeMlKem => true | _ => false end.
(** Only plain Diffie-Hellman and plain ECDH encode f as an mpint. *)
Definition encode_f (kind : agreement) (f : bytes) : bytes * Z :=
  match kind with AgreeDh | AgreeEcdh => CreateMpint f | _ => (f, 0) end.

Definition key_format (pubKeyId : AlgoId) : AlgoId :=
  match pubKeyId with ID_RSA_SHA2_256 | ID_RSA_SHA2_512 => ID_SSH_RSA | id => id end.

(** K_S as the message carries it. *)
Definition key_block (pubKeyId fmtId : AlgoId) (pvt : WOLFSSH_PVT_KEY) (fields : option (list (bytes * Z))) : res bytes :=
  match fields with
  | Some fields => Ok (c32toa (block_size (IdToName fmtId) fields) ++ wstring (IdToName fmtId) ++ concat (map mpint_block fields))
  | None => BuildRFC6187Info pubKeyId (pvt_cert pvt)
  end.

(** The public value, K and H. *)
Definition agree_server (kind : agreement) (hashId : wc_HashType) : M (bytes * Z) :=
  set_k (zeros MAX_KEX_KEY_SZ);;
  or_else (
    f ← KeyAgree_server kind hashId;
    let f := encode_f kind f in
    hash_parts hashId (mpint_parts f);;
    hash_k hashId (is_mlkem kind);;
    let sz := wc_HashGetDigestSize hashId in
    ret_code (if 0 <? sz then 0 else sz);;
    take_hash hashId;;
    mret f) WS_CRYPTO_FAILED.

Definition reply_payload (msgId : Z) (keyBlock : bytes) (f : bytes * Z) (sigName sig : bytes) : bytes :=
  [msgId] ++ keyBlock ++ mpint_block f ++ c32toa (LENGTH_SZ * 2 +w blen sigName +w blen sig) ++ wstring sigName ++ wstring sig.

Definition send_kexdh_reply : M unit :=
  mem1 ← malloc;
  mem2 ← malloc;
  guard_err (negb (mem1 && mem2)) WS_MEMORY_E;;
  s ← get;
  match handshake s with
  | None => fail WS_BAD_ARGUMENT
  | Some h =>
    let fmtId := key_format (pubKeyId h) in
    '(kind, msgId) ← match reply_kind (hs_kexId h) with Some k => mret k | None => fail WS_INVALID_ALGO_ID end;
    pvt ← match List.find (fun k => id_eqb (publicKeyFmt k) fmtId) privateKey with
          | Some pvt => mret pvt
          | None => fail WS_INVALID_ALGO_ID
          end;
    let hashId := kexHashId h in
    '(key, fields) ← SendKexGetSigningKey (pubKeyId h) fmtId hashId pvt;
    f ← agree_server kind hashId;
    sig ← SignH (pubKeyId h) key KEX_SIG_SIZE;
    GenerateKeys hashId (negb (is_mlkem kind));;
    keyBlock ← lift_res (key_block (pubKeyId h) fmtId pvt fields);
    let payload := reply_payload msgId keyBlock f (IdToName (SigTypeForId (pubKeyId h))) sig in
    send_payload (blen payload) payload;;
    st_hs (fun h => h <| expectMsgId := MSGID_NEWKEYS |>);;
    SendNewKeys;;
    s ← get;
    when (sendExtInfo (kex s)) SendExtInfo
  end.

Definition SendKexDhReply : M unit :=
  r ← attempt send_kexdh_reply;
  match r with
  | inl _ => wipe_k
  | inr ret => when (negb (ret =? WS_WANT_WRITE) && negb (ret =? WS_SUCCESS)) PurgePacket;; wipe_k;; fail ret
  end.

Definition do_kexdh_init (buf : bytes) (len : Z) : M unit :=
  skipped ← SkipGuessedKexMsg;
  if (skipped : bool) then mret tt
  else
    '((eSz, e), _) ← parse GetStringRef buf len 0;
    guard_err ((MAX_KEX_KEY_SZ + 1 <? eSz) || (eSz =? 0)) WS_PUBKEY_REJECTED_E;;
    st_hs (fun h => h <| hs_e := ref_bytes e |>);;
    modify (fun s => s <| clientState := CLIENT_KEXDH_INIT_DONE |>);;
    SendKexDhReply.

Definition DoKexDhInit (buf : bytes) (len : Z) : M unit :=
  s ← get;
  match handshake s with
  | None => fail WS_BAD_ARGUMENT
  | Some _ =>
    guard_err (len =? 0) WS_BAD_ARGUMENT;;
    r ← attempt (do_kexdh_init buf len);
    match r with
    | inl _ => mret tt
    | inr ret =>
      when ((ret =? WS_CRYPTO_FAILED) || (ret =? WS_PUBKEY_REJECTED_E)) (disconnect WOLFSSH_DISCONNECT_KEY_EXCHANGE_FAILED);;
      fail ret
    end
  end.
End KexDh.
