(* ===== verification/KexDhSpec.v ===== *)
(** What the key exchange guarantees (KexDh).

    The client: a reply is acted on only when the application accepted the host key and
    the signature verifies under it, for the hash of everything exchanged, and only
    then are keys derived. *)

From S2P Require Import Prelude Codes Wire Names Buffer Fwd Algos Kdf Session Samples MsgFilter Transport.
From S2P Require Import Channels Send KexInit KexKeys KexAgree UserSig Ossh Composite OsshKey CertMan HostKey UserAuth.
From S2P Require Import Frames UserAuthSpec KexDh.

(** The application's check of a host key leaves the session alone. *)
Class QuietKeyCheck `{CTX} : Prop := {
  rest_publicKeyCheck cb k : publicKeyCheckCb = Some cb -> frames rest (cb k)
}.

Section Frames.
Context `{CTX} `{Crypto} `{Hashes} `{PubKeys} `{!SignKeys} `{!HostKeys} `{!KeyExchange} `{CertManager}.

(** The session but for what a key agreement uses up: the private keys of the exchange
    and K. *)
Definition scrub (h : HandshakeInfo) : HandshakeInfo := h <| hs_x := [] |> <| privKey := [] |>.
Definition trans_with (s : WOLFSSH) (x : option HandshakeInfo) : WOLFSSH := (rest s) <| handshake := x |> <| kex; kx_k := [] |>.
Definition trans (s : WOLFSSH) : WOLFSSH := trans_with s (option_map scrub (handshake s)).

Lemma frames_trans {A} (m : M A) : frames rest m -> frames trans m.
Proof.
  intros Hm s. pose proof (f_equal handshake (Hm s)) as E.
  change (handshake (m s).2 = handshake s) in E. unfold trans, trans_with. by rewrite (Hm s), E.
Qed.
Hint Resolve frames_trans : frames.

Lemma trans_hs s x : trans (s <| handshake := x |>) = trans_with s (option_map scrub x).
Proof. reflexivity. Qed.
Lemma trans_st_hs f : (forall h, scrub (f h) = scrub h) -> frames trans (st_hs f).
Proof.
  intros Hf s. unfold st_hs, ld_hs, mbind, ST_bind, get, deref, modify.
  destruct (handshake s) as [h|] eqn:E; [|done]. cbn [fst snd mret ST_ret].
  rewrite trans_hs. unfold trans. rewrite E. unfold option_map. by rewrite Hf.
Qed.
Lemma trans_free_priv : frames trans free_priv.
Proof. by apply trans_st_hs. Qed.
Lemma trans_zero_x : frames trans zero_x.
Proof. by apply trans_st_hs. Qed.
Lemma trans_set_k k : frames trans (set_k k).
Proof. by intros s. Qed.
Lemma rest_ld_hs : frames rest ld_hs.
Proof. unfold ld_hs. frames_auto. Qed.
Lemma rest_with_rng {A} (f : bytes -> wc A * bytes) : frames rest (with_rng f).
Proof. intros s. unfold with_rng. destruct (f _) as [[a|e] g]; by cbn. Qed.
Lemma trans_or_else {A} (m : M A) e : frames trans m -> frames trans (or_else m e).
Proof. intros Hm. unfold or_else. frames_auto. Qed.
Lemma trans_finally {A} (m : M A) c : frames trans m -> frames trans c -> frames trans (finally m c).
Proof. intros Hm Hc. unfold finally. frames_auto. Qed.
Hint Resolve trans_free_priv trans_zero_x trans_set_k rest_ld_hs rest_with_rng trans_or_else trans_finally : frames.

Lemma rest_check_dh key peer : frames rest (check_dh_public key peer).
Proof. unfold check_dh_public. frames_auto. Qed.
Lemma rest_EccCheckPeerKey peer id : frames rest (EccCheckPeerKey peer id).
Proof. unfold EccCheckPeerKey. frames_auto. Qed.
Lemma rest_curve_of id : frames rest (curve_of id).
Proof. unfold curve_of. frames_auto. Qed.
Lemma rest_curve25519_peer peer : frames rest (curve25519_peer peer).
Proof. unfold curve25519_peer. frames_auto. Qed.
Hint Resolve rest_check_dh rest_EccCheckPeerKey rest_curve_of rest_curve25519_peer : frames.

Lemma rest_classical_client id priv peer n : frames rest (classical_client id priv peer n).
Proof. unfold classical_client. frames_auto. Qed.
Lemma trans_hash_secret t k : frames trans (hash_secret t k).
Proof. unfold hash_secret. frames_auto. Qed.
Hint Resolve rest_classical_client trans_hash_secret : frames.

Ltac trans_step :=
  lazymatch goal with
  | |- frames _ (finally _ _) => apply trans_finally
  | |- frames rest (or_else _ _) => apply rest_or_else
  | |- frames trans (or_else _ _) => apply trans_or_else
  | |- _ => first [frames_step | solve [eauto with frames nocore]]
  end.

(** Agreeing on K changes nothing but the private keys and K. *)
Lemma trans_KeyAgree_client t f : frames trans (KeyAgree_client t f).
Proof.
  unfold KeyAgree_client, KeyAgreeDh_client, KeyAgreeEcdhMlKem_client, KeyAgreeEcdh_client, KeyAgreeCurve25519_client, wipe_k.
  repeat trans_step.
Qed.

(** Nor does reading the host key. *)
Lemma rest_ParsePubKeyCert b : frames rest (ParsePubKeyCert b).
Proof. unfold ParsePubKeyCert, ParseCertChainVerify, ParseCertChain. frames_auto. Qed.
Lemma rest_GetPubKeyFormat a b i : frames rest (GetPubKeyFormat a b i).
Proof. unfold GetPubKeyFormat. frames_auto. Qed.
Lemma rest_mldsa_key id : frames rest (mldsa_key id).
Proof. unfold mldsa_key. frames_auto. Qed.
Lemma rest_raw_field b i : frames rest (raw_field b i).
Proof. unfold raw_field. frames_auto. Qed.
Hint Resolve rest_ParsePubKeyCert rest_GetPubKeyFormat rest_mldsa_key rest_raw_field : frames.
Lemma rest_ParseComposite b id : frames rest (ParseMlDsaCompositePubKey b id).
Proof. unfold ParseMlDsaCompositePubKey, InitCompositeKeyPair, import_pair. frames_auto. Qed.
Hint Resolve rest_ParseComposite : frames.
Lemma rest_ParsePubKey id b : frames rest (ParsePubKey id b).
Proof.
  unfold ParsePubKey, ParseRSAPubKey, ParseECCPubKey, ParseEd25519PubKey, ParseMlDsaPubKey, ParseECCPubKeyCert,
    ParseRSAPubKeyCert, ParseMlDsaPubKeyCert, InitPubKey. destruct id; repeat trans_step.
Qed.
End Frames.

(** ** The exchange hash *)

Section Transcript.
Context `{CTX} `{Crypto} `{HashLaws}.

Lemma guard_ok c e (s s' : WOLFSSH) u : guard_err c e s = (Ok u, s') -> c = false /\ s' = s.
Proof. destruct c; [done|]. by intros [= _ ->]. Qed.

Lemma or_else_ok {A} (m : M A) e s a s' : or_else m e s = (Ok a, s') -> m s = (Ok a, s').
Proof.
  unfold or_else, attempt, mbind, ST_bind. destruct (m s) as [[x|x|] s1]; [|done..]. by intros [= -> ->].
Qed.

(** A session in an exchange [h] but for the hash, which has taken [m]. *)
Record hashing (t : wc_HashType) (h : HandshakeInfo) (k : KexState) (s : WOLFSSH) (m : bytes) : Prop := {
  hg_hs : exists st, handshake s = Some (h <| kexHash := st |>) /\ holds t st m;
  hg_kex : kex s = k
}.

Lemma hash_parts_ok t h k s m parts s' :
  hashing t h k s m -> hash_parts t parts s = (Ok tt, s') -> hashing t h k s' (m ++ concat parts).
Proof.
  unfold hash_parts. revert s m. induction parts as [|d parts IH]; intros s m Hh E.
  { injection E as <-. by rewrite app_nil_r. }
  cbn [for_each] in E. apply ST_bind_inv in E as ([] & s1 & E1 & E). cbn [concat]. rewrite app_assoc.
  apply (IH s1); [|done]. destruct Hh as [(st & Eh & Hst) Hk].
  unfold on_hash, ld_hs, get, deref, mbind, ST_bind in E1. rewrite Eh in E1. cbn [mret ST_ret] in E1.
  unfold HashUpdate in E1. change (kexHash (h <| kexHash := st |>)) with st in E1.
  destruct (wc_HashUpdate t st d) as [st'|e|] eqn:Eu; [|done..]. injection E1 as <-. split; [|done].
  exists st'. split; [done|]. by eapply update_holds.
Qed.

(** K as it enters the hash. *)
Definition k_of (isMlKem : bool) (secret : bytes) : bytes * Z := if isMlKem then (secret, 0) else CreateMpint secret.
Definition k_string (k : bytes * Z) : bytes := mpint_string k.1 (Z.land k.2 1).

Lemma land1 pad : Z.land pad 1 = 0 \/ Z.land pad 1 = 1.
Proof. change 1 with (Z.ones 1) at 1 2. rewrite !Z.land_ones by lia. change (2 ^ 1) with 2. zdiv. Qed.

Lemma header_is t sz pad : HashMpintHeader t sz pad = HashUpdate t (c32toa (sz +w Z.land pad 1) ++ (if Z.land pad 1 =? 0 then [] else [0])).
Proof.
  unfold HashMpintHeader. f_equal. assert (Z.land pad 1 = 0 \/ Z.land pad 1 = 1) as [-> | ->] by apply land1; done.
Qed.

Lemma hash_k_ok t h k s m b s' :
  hashing t h k s m -> hash_k t b s = (Ok tt, s') ->
  hashing t h (k <| kx_k := (k_of b (kx_k k)).1 |>) s' (m ++ k_string (k_of b (kx_k k))).
Proof.
  intros Hh E. unfold hash_k in E. rewrite st_get in E. rewrite (hg_kex _ _ _ _ _ Hh) in E. fold (k_of b (kx_k k)) in E.
  destruct (k_of b (kx_k k)) as [k' pad]. apply ST_bind_inv in E as ([] & s1 & [= <-] & E).
  rewrite header_is in E. cbn [fst].
  assert (k_string (k', pad) = concat [c32toa (blen k' +w Z.land pad 1) ++ (if Z.land pad 1 =? 0 then [] else [0]); k']) as ->.
  { unfold k_string, mpint_string, mpint_bytes. cbn [fst snd concat]. rewrite app_nil_r.
    assert (Z.land pad 1 = 0 \/ Z.land pad 1 = 1) as [-> | ->] by apply land1.
    - cbn [Z.eqb]. by rewrite Z.add_0_r, app_nil_r.
    - cbn [Z.eqb]. rewrite blen_cons, <- app_assoc, Z.add_comm. done. }
  eapply (hash_parts_ok _ _ _ (s <| kex; kx_k := k' |>)); [|unfold hash_parts; cbn [for_each]].
  - destruct Hh as [Hs Hk]. split; [exact Hs|]. change ((kex s) <| kx_k := k' |> = k <| kx_k := k' |>). by rewrite Hk.
  - apply ST_bind_inv in E as ([] & s2 & E1 & E). rewrite (ST_bind_ok _ _ _ _ _ E1). by rewrite (ST_bind_ok _ _ _ _ _ E).
Qed.

(** H and the session id once the hash has taken [m]. *)
Definition hashed (k : KexState) (d : bytes) : KexState :=
  k <| kx_h := d |> <| sessionId := if blen (sessionId k) =? 0 then d else sessionId k |>.

Lemma take_hash_ok t h k s m s' :
  hashing t h k s m -> take_hash t s = (Ok tt, s') ->
  handshake s' = Some (h <| kexHash := [] |> <| kexHashId := WC_HASH_TYPE_NONE |>) /\ kex s' = hashed k (digest t m).
Proof.
  intros [(st & Eh & Hst) Hk] E. unfold take_hash in E. apply ST_bind_inv in E as (h1 & s1 & E1 & E).
  unfold ld_hs, get, deref, mbind, ST_bind in E1. rewrite Eh in E1. injection E1 as <- <-.
  apply ST_bind_inv in E as (d & s2 & E2 & E). unfold finally in E2. apply ST_bind_inv in E2 as (r & s3 & E3 & E2).
  unfold attempt, lift_res in E3. change (kexHash (h <| kexHash := st |>)) with st in E3.
  destruct (wc_HashFinal t st) as [d'|e|] eqn:Ef; [|injection E3 as <- <-|done].
  2: { apply ST_bind_inv in E2 as ([] & s4 & _ & E2). done. }
  injection E3 as <- <-. apply ST_bind_inv in E2 as ([] & s4 & E4 & [= <- <-]).
  unfold st_hs, ld_hs, get, deref, mbind, ST_bind in E4. rewrite Eh in E4. injection E4 as <-.
  rewrite (final_digest _ _ _ _ Hst Ef) in E. unfold mbind, ST_bind, modify, get, when in E. cbn [kex] in E.
  change (sessionId (kex _)) with (sessionId (kex s)) in E. rewrite Hk in E. unfold hashed.
  destruct (blen (sessionId k) =? 0) eqn:Ei; injection E as <-; (split; [by destruct h|]).
  - change ((kex s) <| kx_h := digest t m |> <| sessionId := digest t m |> = k <| kx_h := digest t m |> <| sessionId := digest t m |>).
    by rewrite Hk.
  - change ((kex s) <| kx_h := digest t m |> = k <| kx_h := digest t m |> <| sessionId := sessionId k |>). rewrite Hk. by destruct k.
Qed.
End Transcript.

(** ** The signature of the exchange *)

Section Signature.
Context `{CTX} `{Crypto} `{Hashes} `{PubKeys} `{!SignKeys} `{!HostKeys} `{CertManager}.

Lemma read_at_start b : is_word32 (blen b) -> Forall is_byte b -> read_to b 0 [] b.
Proof. by split. Qed.

Lemma parse_exact {A} (p : parser A) (e : A -> bytes) `{!Exact p e} buf i before rest (s : WOLFSSH) a j s' :
  read_to buf i before rest -> parse p buf (blen buf) i s = (Ok (a, j), s') ->
  s' = s /\ exists rest', read_to buf j (before ++ e a) rest' /\ rest = e a ++ rest'.
Proof.
  intros [Eb Ei Hl Hb] E. unfold parse in E. subst buf i. pose proof (exact_read before rest Hl Hb) as Hx.
  destruct (p _ _ _) as [[x|e'|] j'] eqn:Ep; [|done..]. injection E as <- <- <-. destruct Hx as (rest' & Er & Ej).
  split; [done|]. exists rest'. split; [|done]. split; [by rewrite <- app_assoc, Er|done..].
Qed.

(** A length, and as many bytes as it says. *)
Lemma raw_string_ok buf i before rest (s : WOLFSSH) n j s' :
  read_to buf i before rest -> parse GetUint32 buf (blen buf) i s = (Ok (n, j), s') -> n <= blen buf - j ->
  let d := slice buf j n in
  s' = s /\ j = i + LENGTH_SZ /\ blen d = n /\ slice buf i (n + LENGTH_SZ) = wstring d /\
  exists rest', read_to buf (j + n) (before ++ wstring d) rest' /\ rest = wstring d ++ rest'.
Proof.
  intros R E Hn d. destruct (parse_exact GetUint32 c32toa _ _ _ _ _ _ _ _ R E) as (-> & r1 & R1 & Er).
  pose proof (read_to_part _ _ _ _ R) as [[Hi0 Hi1] _].
  destruct R as [Eb Ei Hl Hb]. pose proof (rt_idx _ _ _ _ R1) as Ej. rewrite blen_app, c32toa_length in Ej.
  assert (0 <= n) as Hn0.
  { unfold parse in E. destruct (message_at before rest) as (Hm & Hi & _); [by rewrite <- Eb..|]. rewrite <- Eb, <- Ei in *.
    destruct (GetUint32_spec _ _ _ Hm Hi) as [(_ & v & Hv & _ & Eg)|[_ Eg]]; rewrite Eg in E; [injection E as -> _; apply Hv|done]. }
  assert (blen r1 = blen buf - j) as Hr1 by (pose proof (rt_buf _ _ _ _ R1) as E1; rewrite E1, !blen_app, c32toa_length; lia).
  assert (d = take (Z.to_nat n) r1) as Ed.
  { unfold d, slice. rewrite (rt_buf _ _ _ _ R1) at 1. rewrite (rt_idx _ _ _ _ R1). unfold blen at 1. by rewrite Nat2Z.id, drop_app_length. }
  assert (blen d = n) as Hd by (rewrite Ed; unfold blen in *; rewrite length_take; lia).
  set (r2 := drop (Z.to_nat n) r1). assert (rest = wstring d ++ r2) as Er2.
  { unfold wstring. rewrite Hd, Er, <- app_assoc. f_equal. rewrite Ed. symmetry. apply take_drop. }
  split; [done|]. split; [clia|]. split; [done|]. split.
  - rewrite Eb, Ei, Er2. replace (n + LENGTH_SZ) with (blen (wstring d)) by (unfold wstring; rewrite blen_app, c32toa_length; clia).
    apply slice_app_here.
  - exists r2. split; [|done]. split; [by rewrite <- app_assoc, <- Er2| |done..].
    unfold wstring. rewrite !blen_app, c32toa_length. lia.
Qed.

(** [blob] signs [h]. *)
Definition blob_signed (id : AlgoId) (key : key_material) (blob h : bytes) : Prop :=
  match key with
  | KeyRsa k => MIN_RSA_SIG_SZ <= blen blob /\ wc_SignatureVerify_rsa (HashForId id) h blob k = 0
  | KeyEcc k => exists r s asn tail, blob = wstring r ++ wstring s ++ tail /\
      wc_ecc_rs_raw_to_sig r s ASN_SIG_ROOM = Ok asn /\ wc_SignatureVerify_ecc (HashForId id) h asn k = 0
  | KeyEd25519 k => wc_ed25519_verify_msg blob h k = Ok true
  | KeyMlDsa k => wc_MlDsaKey_VerifyCtx k blob [] h = Some true
  | KeyComposite k => composite_signed id k blob h
  end.

(** The signature names the algorithm negotiated, and its blob signs [h]. *)
Definition exchange_signed (id : AlgoId) (key : key_material) (sig h : bytes) : Prop :=
  exists blob tail, sig = wstring (IdToName (SigTypeForId id)) ++ wstring blob ++ tail /\ blob_signed id key blob h.

Lemma verify_blob_ok id key blob h (s s' : WOLFSSH) :
  is_word32 (blen blob) -> Forall is_byte blob ->
  verify_blob id key blob h s = (Ok tt, s') -> blob_signed id key blob h.
Proof.
  intros Hl Hb. destruct key as [k|k|k|k|k]; cbn [verify_blob blob_signed]; intros E.
  - apply ST_bind_inv in E as ([] & s1 & [E1%Z.ltb_ge ->]%guard_ok & [E2 _]%guard_ok).
    apply negb_false_iff, Z.eqb_eq in E2. by split.
  - apply ST_bind_inv in E as ([[n r] i] & s1 & E1 & E).
    destruct (parse_exact GetStringRef _ _ _ _ _ _ _ _ _ (read_at_start _ Hl Hb) E1) as (-> & rest1 & R1 & Eb).
    apply ST_bind_inv in E as ([[n2 r2] j] & s1 & E2 & E).
    destruct (parse_exact GetStringRef _ _ _ _ _ _ _ _ _ R1 E2) as (-> & rest2 & R2 & Er).
    apply ST_bind_inv in E as (asn & s1 & E3 & [E4 _]%guard_ok). unfold lift_res in E3. injection E3 as E3 <-.
    apply negb_false_iff, Z.eqb_eq in E4. exists (ref_bytes r), (ref_bytes r2), asn, rest2. by rewrite Eb, Er.
  - apply ST_bind_inv in E as (ok & s1 & E1%or_else_ok & [E2 _]%guard_ok). unfold lift_res in E1. injection E1 as -> _.
    by destruct ok.
  - by destruct (wc_MlDsaKey_VerifyCtx k blob [] h) as [[]|].
  - by apply (VerifyMlDsaComposite_run id k blob h s Hl) in E.
Qed.

Lemma verify_exchange_ok id key sig h (s s' : WOLFSSH) :
  is_word32 (blen sig) -> Forall is_byte sig ->
  verify_exchange id key sig h s = (Ok tt, s') -> exchange_signed id key sig h.
Proof.
  intros Hl Hb E. unfold verify_exchange in E. apply ST_bind_inv in E as ([[n name] i] & s1 & E1 & E).
  destruct (parse_exact GetStringRef _ _ _ _ _ _ _ _ _ (read_at_start _ Hl Hb) E1) as (-> & rest1 & R1 & Eb).
  apply ST_bind_inv in E as ([] & s1 & [E2 ->]%guard_ok & E). apply negb_false_iff, bytes_eqb_spec in E2.
  apply ST_bind_inv in E as ([blob j] & s1 & E3 & E). unfold sized in E3.
  apply ST_bind_inv in E3 as ([sz k] & s2 & E3 & [= <- <- <-]).
  assert (msg_ok sig (blen sig)) as Hm by done. pose proof (read_to_part _ _ _ _ R1) as [_ Hi].
  unfold parse in E3. destruct (GetSize sig (blen sig) i) as [[v|e|] k'] eqn:Eg; [|done..]. injection E3 as -> -> ->.
  destruct (GetSize_run _ _ _ _ Hm Hi Eg) as (-> & Hv & Hle & Ha).
  assert (forall st : WOLFSSH, parse GetUint32 sig (blen sig) i st = (Ok (sz, i + 4), st)) as Eu.
  { intros st. unfold parse. destruct (GetUint32_spec _ _ _ Hm Hi) as [(_ & u & _ & Hu & ->)|[Hu _]]; [|clia].
    rewrite Ha in Hu. injection Hu as <-. done. }
  destruct (raw_string_ok _ _ _ _ _ _ _ _ R1 (Eu s')) as (_ & _ & Hd & _ & rest2 & R2 & Er); [lia|].
  exists (slice sig (i + 4) sz), rest2. split.
  - by rewrite <- E2, <- Er.
  - destruct (read_to_last _ _ _ _ _ R2) as [Hw Hby]. eapply verify_blob_ok; [done|done|exact E].
Qed.
End Signature.

(** ** The client's exchange *)

(** What follows V_C, V_S, I_C and I_S in the exchange hash (RFC 4253 section 8, RFC 4419
    section 3): K_S, the group asked for and given, e, f and K. *)
Definition exchange_string (K_S gex e f K : bytes) : bytes := wstring K_S ++ gex ++ wstring e ++ wstring f ++ K.

Definition gex_string (h : HandshakeInfo) (p g : bytes) : bytes :=
  if id_eqb (hs_kexId h) ID_DH_GEX_SHA256
  then c32toa (dhGexMinSz h) ++ c32toa (dhGexPreferredSz h) ++ c32toa (dhGexMaxSz h) ++ p ++ g else [].
Definition client_gex (h : HandshakeInfo) : bytes :=
  gex_string h (wmpint (default [] (primeGroup h))) (wmpint (default [] (generator h))).

Lemma mpint_parts_block f : concat (mpint_parts f) = mpint_block f.
Proof. unfold mpint_parts, mpint_block. destruct (truthy f.2); cbn [concat Datatypes.app]; by rewrite ?app_nil_r. Qed.

Lemma gex_parts_block h p g : concat (gex_parts h p g) =
  c32toa (dhGexMinSz h) ++ c32toa (dhGexPreferredSz h) ++ c32toa (dhGexMaxSz h) ++ mpint_block p ++ mpint_block g.
Proof. unfold gex_parts. by rewrite !concat_app, !mpint_parts_block. Qed.

Lemma wmpint_block d : wmpint d = mpint_block (d, b2z (truthy (Z.land (nth 0 d 0) 0x80))).
Proof. unfold wmpint, mpint_block. cbn [fst snd]. by destruct (truthy (Z.land (nth 0 d 0) 0x80)). Qed.

Lemma rd_nth d (x : Z) : rd d 0 = Some x -> nth 0 d 0 = x.
Proof. unfold rd. cbn. destruct d; by intros [= ->]. Qed.

Section Client.
Context `{CTX} `{Crypto} `{HashLaws} `{PubKeys} `{!SignKeys} `{!HostKeys} `{!KeyExchange} `{CertManager} `{!QuietKeyCheck}.

Lemma client_gex_ok h (s s' : WOLFSSH) parts :
  client_gex_parts h s = (Ok parts, s') -> s' = s /\
  concat parts = c32toa (dhGexMinSz h) ++ c32toa (dhGexPreferredSz h) ++ c32toa (dhGexMaxSz h)
    ++ wmpint (default [] (primeGroup h)) ++ wmpint (default [] (generator h)).
Proof.
  unfold client_gex_parts. destruct (primeGroup h) as [p|]; [|done]. destruct (generator h) as [g|]; [|done].
  unfold deref. destruct (rd p 0) as [x|] eqn:Ep; [|done]. destruct (rd g 0) as [y|] eqn:Eg; [|done].
  intros [= <- <-]. split; [done|]. rewrite gex_parts_block.
  change (default [] (Some p)) with p. change (default [] (Some g)) with g. rewrite !wmpint_block.
  by rewrite (rd_nth _ _ Ep), (rd_nth _ _ Eg).
Qed.

Lemma hashing_rest t h k s m s' : rest s' = rest s -> hashing t h k s m -> hashing t h k s' m.
Proof.
  intros E [Hs Hk]. split.
  - by replace (handshake s') with (handshake s) by (symmetry; exact (f_equal handshake E)).
  - rewrite <- Hk. exact (f_equal kex E).
Qed.

Lemma rest_check_host_key k : frames rest (check_host_key k).
Proof. unfold check_host_key. frames_auto. by apply rest_publicKeyCheck. Qed.

(** The key agreement leaves the hash alone. *)
Lemma hashing_agreed t h k s m f s' :
  hashing t h k s m -> KeyAgree_client t f s = (Ok tt, s') ->
  exists h', scrub h' = scrub h /\ hashing t h' (k <| kx_k := kx_k (kex s') |>) s' m.
Proof.
  intros [(st & Eh & Hst) Hk] E. pose proof (trans_KeyAgree_client t f s) as Ht. rewrite E in Ht. cbn [snd] in Ht.
  pose proof (f_equal handshake Ht) as E1. change (option_map scrub (handshake s') = option_map scrub (handshake s)) in E1.
  rewrite Eh in E1. destruct (handshake s') as [h'|] eqn:Eh'; [|done]. apply (inj Some) in E1.
  exists (h' <| kexHash := kexHash h |>). split.
  - exact (f_equal (fun x => x <| kexHash := kexHash h |>) E1).
  - split.
    + exists st. split; [|done]. rewrite Eh'. f_equal. pose proof (f_equal kexHash E1) as E2. change (kexHash h' = st) in E2.
      rewrite <- E2. by destruct h'.
    + pose proof (f_equal kex Ht) as E2. change ((kex s') <| kx_k := [] |> = (kex s) <| kx_k := [] |>) in E2.
      pose proof (f_equal (fun x => x <| kx_k := kx_k (kex s') |>) E2) as E3.
      change ((kex s') <| kx_k := kx_k (kex s') |> = (kex s) <| kx_k := kx_k (kex s') |>) in E3. rewrite <- Hk, <- E3.
      by destruct (kex s').
Qed.

(** K is agreed on for [f] from the exchange [h]. *)
Definition agreed (t : wc_HashType) (h : HandshakeInfo) (f secret : bytes) : Prop :=
  exists st s1 s2, handshake s1 = Some (h <| kexHash := st |>) /\
    KeyAgree_client t f s1 = (Ok tt, s2) /\ kx_k (kex s2) = secret.

Definition host_key (id : AlgoId) (pubKey : bytes) (key : key_material) : Prop :=
  exists s1 s2, ParsePubKey id pubKey s1 = (Ok key, s2).

Lemma reply_agreed t h k s m pubKey f key s' :
  hashing t h k s m ->
  or_else (key ← ParsePubKey (pubKeyId h) pubKey; KeyAgree_client t f;; hash_k t (useMlKem h);; take_hash t;; mret key)
    WS_CRYPTO_FAILED s = (Ok key, s') ->
  host_key (pubKeyId h) pubKey key /\ exists secret, agreed t h f secret /\
  let K := k_of (useMlKem h) secret in
  kex s' = hashed (k <| kx_k := K.1 |>) (digest t (m ++ k_string K)).
Proof.
  intros Hh E%or_else_ok. apply ST_bind_inv in E as (key' & s1 & E1 & E). split.
  { exists s, s1. by apply ST_bind_inv in E as (? & ? & _ & (? & ? & _ & (? & ? & _ & [= -> _])%ST_bind_inv)%ST_bind_inv). }
  pose proof (rest_ParsePubKey (pubKeyId h) pubKey s) as Hr. rewrite E1 in Hr. pose proof (hashing_rest _ _ _ _ _ _ Hr Hh) as Hh1.
  apply ST_bind_inv in E as ([] & s2 & E2 & E). destruct (hashing_agreed _ _ _ _ _ _ _ Hh1 E2) as (h' & Es & Hh2).
  exists (kx_k (kex s2)). split.
  { destruct Hh1 as [(st & Eh & _) _]. by exists st, s1, s2. }
  apply ST_bind_inv in E as ([] & s3 & E3 & E). pose proof (hash_k_ok _ _ _ _ _ _ _ Hh2 E3) as Hh3.
  apply ST_bind_inv in E as ([] & s4 & E4 & [= _ <-]). by destruct (take_hash_ok _ _ _ _ _ _ Hh3 E4) as [_ ->].
Qed.

(** The host key is the callback's choice. *)
Definition accepted (pubKey : bytes) (s : WOLFSSH) : Prop :=
  exists cb s0, publicKeyCheckCb = Some cb /\ cb pubKey s = (Ok 0, s0).

Lemma check_host_key_ok k (s s' : WOLFSSH) : check_host_key k s = (Ok tt, s') -> accepted k s /\ rest s' = rest s.
Proof.
  intros E. pose proof (rest_check_host_key k s) as Hr. rewrite E in Hr. split; [|done].
  unfold check_host_key, accepted in *. destruct publicKeyCheckCb as [cb|]; [|done].
  apply ST_bind_inv in E as (r & s1 & E1 & [E2 _]%guard_ok). exists cb, s1. split; [done|].
  apply negb_false_iff, Z.eqb_eq in E2. by subst r.
Qed.

Lemma client_gex_hashed t h k s m s' :
  hashing t h k s m ->
  when (id_eqb (hs_kexId h) ID_DH_GEX_SHA256) (parts ← client_gex_parts h; hash_parts t parts) s = (Ok tt, s') ->
  hashing t h k s' (m ++ client_gex h).
Proof.
  intros Hh E. unfold client_gex, gex_string. unfold when in E. destruct (id_eqb _ _).
  - apply ST_bind_inv in E as (parts & s1 & [-> <-]%client_gex_ok & E). by eapply hash_parts_ok.
  - injection E as <-. by rewrite app_nil_r.
Qed.

Lemma rest_verify_composite id k blob h : frames rest (VerifyMlDsaComposite id k blob h).
Proof. unfold VerifyMlDsaComposite, mPrime_of. frames_auto. Qed.
Hint Resolve rest_verify_composite : frames.
Lemma rest_verify_exchange id key sig h : frames rest (verify_exchange id key sig h).
Proof. unfold verify_exchange, verify_blob. destruct key; frames_auto. Qed.

Lemma ld_hs_at h (s : WOLFSSH) : handshake s = Some h -> ld_hs s = (Ok h, s).
Proof. intros Eh. unfold ld_hs, get, deref, mbind, ST_bind. by rewrite Eh. Qed.

Definition finish_client (t : wc_HashType) (isMlKem : bool) : M unit :=
  GenerateKeys t (negb isMlKem);;
  st_hs (fun h => h <| expectMsgId := MSGID_NEWKEYS |>);;
  SendNewKeys.

Lemma reply_run buf h m s s' :
  is_word32 (blen buf) -> Forall is_byte buf -> handshake s = Some h -> holds (kexHashId h) (kexHash h) m ->
  do_kexdh_reply buf (blen buf) s = (Ok tt, s') ->
  exists pubKey f sig tail key secret s1,
    buf = wstring pubKey ++ wstring f ++ wstring sig ++ tail /\ accepted pubKey s /\
    host_key (pubKeyId h) pubKey key /\ agreed (kexHashId h) h f secret /\
    let K := k_of (useMlKem h) secret in
    let H := digest (kexHashId h) (m ++ exchange_string pubKey (client_gex h) (hs_e h) f (k_string K)) in
    exchange_signed (pubKeyId h) key sig H /\
    kex s1 = hashed ((kex s) <| kx_k := K.1 |>) H /\
    finish_client (kexHashId h) (useMlKem h) s1 = (Ok tt, s').
Proof.
  intros Hl Hb Eh Hm E. unfold do_kexdh_reply in E.
  apply ST_bind_inv in E as ([] & s1 & [_ ->]%guard_ok & E).
  apply ST_bind_inv in E as ([n j] & s1 & E1 & E). apply ST_bind_inv in E as ([] & s2 & [Hn%Z.ltb_ge ->]%guard_ok & E).
  destruct (raw_string_ok _ _ _ _ _ _ _ _ (read_at_start _ Hl Hb) E1) as (-> & -> & _ & Es1 & r1 & R1 & Er1); [clia|].
  set (pubKey := slice buf (0 + LENGTH_SZ) n) in *. replace (0 + LENGTH_SZ - LENGTH_SZ) with 0 in E by lia. rewrite Es1 in E.
  apply ST_bind_inv in E as ([] & s2 & [Ha Hr]%check_host_key_ok & E).
  assert (hashing (kexHashId h) h (kex s) s2 m) as Hh.
  { apply (hashing_rest _ _ _ s); [done|]. split; [|done]. exists (kexHash h). split; [|done]. rewrite Eh. by destruct h. }
  assert (ld_hs s2 = (Ok h, s2)) as El by (apply ld_hs_at; by rewrite <- Eh; exact (f_equal handshake Hr)).
  rewrite (ST_bind_ok _ _ _ _ _ El) in E. set (t := kexHashId h) in *.
  apply ST_bind_inv in E as ([] & s3 & E2 & E). apply (hash_parts_ok _ _ _ _ _ _ _ Hh) in E2 as Hs3.
  apply ST_bind_inv in E as ([] & s4 & E3 & E). apply (client_gex_hashed _ _ _ _ _ _ Hs3) in E3 as Hs4.
  apply ST_bind_inv in E as ([] & s5 & E4 & E). apply (hash_parts_ok _ _ _ _ _ _ _ Hs4) in E4 as Hs5.
  apply ST_bind_inv in E as ([fn j] & s6 & E5 & E). apply ST_bind_inv in E as ([] & s7 & [Hf%Z.ltb_ge ->]%guard_ok & E).
  destruct (raw_string_ok _ _ _ _ _ _ _ _ R1 E5) as (-> & -> & _ & Es2 & r2 & R2 & Er2); [clia|].
  set (f := slice buf (0 + LENGTH_SZ + n + LENGTH_SZ) fn) in *. rewrite Es2 in E.
  apply ST_bind_inv in E as ([] & s7 & E6 & E). apply (hash_parts_ok _ _ _ _ _ _ _ Hs5) in E6 as Hs6.
  apply ST_bind_inv in E as ([sn k] & s8 & E7 & E). apply ST_bind_inv in E as ([] & s9 & [Hg%Z.ltb_ge ->]%guard_ok & E).
  destruct (raw_string_ok _ _ _ _ _ _ _ _ R2 E7) as (-> & -> & _ & _ & r3 & R3 & Er3); [clia|].
  set (sig := slice buf _ sn) in *.
  apply ST_bind_inv in E as (mem & s9 & E8 & E). apply ST_bind_inv in E as ([] & s10 & [_ ->]%guard_ok & E).
  pose proof (rest_malloc s7) as Hr2. rewrite E8 in Hr2. apply (hashing_rest _ _ _ _ _ _ Hr2) in Hs6.
  apply ST_bind_inv in E as (key & s10 & E9 & E).
  destruct (reply_agreed _ _ _ _ _ _ _ _ _ Hs6 E9) as (Hk & secret & Hag & Ek).
  rewrite st_get in E. apply ST_bind_inv in E as ([] & s11 & E10 & E).
  pose proof (rest_verify_exchange (pubKeyId h) key sig (kx_h (kex s10)) s10) as Hr3. rewrite E10 in Hr3.
  exists pubKey, f, sig, r3, key, secret, s11.
  assert (m ++ exchange_string pubKey (client_gex h) (hs_e h) f (k_string (k_of (useMlKem h) secret)) =
    ((((m ++ concat [wstring pubKey]) ++ client_gex h) ++ concat [c32toa (blen (hs_e h)); hs_e h]) ++ concat [wstring f])
      ++ k_string (k_of (useMlKem h) secret)) as Em.
  { unfold exchange_string. cbn [concat]. by rewrite !app_nil_r, <- !app_assoc. }
  cbv zeta in Ek |- *. rewrite <- Em in Ek. destruct (read_to_last _ _ _ _ _ R3) as [Hw Hby].
  split; [by rewrite Er1, Er2, Er3, <- ?app_assoc|]. do 3 (split; [done|]). split.
  - apply (verify_exchange_ok _ _ _ _ _ _ Hw Hby) in E10. by rewrite Ek in E10.
  - split; [|exact E]. rewrite <- Ek. exact (f_equal kex Hr3).
Qed.

(** A reply the client acted on: [buf] is K_S, f and a signature; the application
    accepted K_S, K was agreed on for f, the signature verifies under K_S's key for the
    hash of all that was exchanged, and keys are derived from that hash and K, which is
    then wiped. *)
Definition verified_reply (buf : bytes) (h : HandshakeInfo) (m : bytes) (s s' : WOLFSSH) : Prop :=
  exists pubKey f sig tail key secret s1 s2,
    buf = wstring pubKey ++ wstring f ++ wstring sig ++ tail /\ accepted pubKey s /\
    host_key (pubKeyId h) pubKey key /\ agreed (kexHashId h) h f secret /\
    let K := k_of (useMlKem h) secret in
    let H := digest (kexHashId h) (m ++ exchange_string pubKey (client_gex h) (hs_e h) f (k_string K)) in
    exchange_signed (pubKeyId h) key sig H /\
    kex s1 = hashed ((kex s) <| kx_k := K.1 |>) H /\
    finish_client (kexHashId h) (useMlKem h) s1 = (Ok tt, s2) /\
    s' = s2 <| kex; kx_k := [] |>.

Lemma DoKexDhReply_run buf h m s s' :
  is_word32 (blen buf) -> Forall is_byte buf -> handshake s = Some h -> holds (kexHashId h) (kexHash h) m ->
  DoKexDhReply buf (blen buf) s = (Ok tt, s') -> verified_reply buf h m s s'.
Proof.
  intros Hl Hb Eh Hm E. unfold DoKexDhReply in E. rewrite st_get, Eh in E.
  apply ST_bind_inv in E as ([] & s1 & [_ ->]%guard_ok & E). apply ST_bind_inv in E as (r & s2 & E1 & E).
  unfold attempt in E1. destruct (do_kexdh_reply buf (blen buf) s) as [[[]|e|] s3] eqn:Er; [|injection E1 as <- <-|done].
  2: { apply ST_bind_inv in E as (? & ? & _ & E). by apply ST_bind_inv in E as (? & ? & _ & E). }
  injection E1 as <- <-. injection E as <-.
  destruct (reply_run _ _ _ _ _ Hl Hb Eh Hm Er) as (pk & f & sig & tl & key & sec & s1 & Eb & Ha & Hk & Hg & Hs & Ek & Ef).
  exists pk, f, sig, tl, key, sec, s1, s3. do 7 (split; [done|]). done.
Qed.

(** C11: the client acts on a reply only for a host key the application accepted, whose
    signature, under the name negotiated, verifies over the hash of all that was
    exchanged: the transcript so far, K_S, the group, e, f and K, where K was agreed on
    for that f. From that hash and K the keys are derived, and K is then wiped. *)
Theorem DoKexDhReply_verified buf h m s s' :
  is_word32 (blen buf) -> Forall is_byte buf -> handshake s = Some h -> holds (kexHashId h) (kexHash h) m ->
  DoKexDhReply buf (blen buf) s = (Ok tt, s') -> verified_reply buf h m s s'.
Proof. apply DoKexDhReply_run. Qed.
End Client.

(** ** K is not kept *)

Section Wiped.
Context `{CTX} `{Crypto} `{Hashes} `{PubKeys} `{!SignKeys} `{!HostKeys} `{!KeyExchange} `{CertManager} `{!QuietSends}.

Lemma rest_disconnect reason : frames rest (disconnect reason).
Proof. unfold disconnect. frames_auto. Qed.
Hint Resolve rest_disconnect : frames.

Definition no_secret {A} (r : res A) (s : WOLFSSH) : Prop := r <> UB -> kx_k (kex s) = [].

Lemma wiped_after {A} (m : M A) s : kx_k (kex s) = [] -> frames rest m -> after m no_secret s.
Proof.
  intros Hk Hf. apply (after_frames rest); [done|]. intros r s' _ Hr _.
  by replace (kex s') with (kex s) by (symmetry; exact (f_equal kex Hr)).
Qed.

Lemma wipe_run {A} (k : M A) s : frames rest k -> after (wipe_k;; k) no_secret s.
Proof. intros Hf. unfold after, wipe_k, set_k. rewrite st_modify. by apply wiped_after. Qed.
Lemma attempt_wiped {A B} (m : M A) (k : A + Z -> M B) s : (forall r s', after (k r) no_secret s') -> after (attempt m ≫= k) no_secret s.
Proof.
  intros Hk. apply after_bind. unfold after at 1, attempt. destruct (m s) as [[a|e|] s']; [apply Hk..|by intros []].
Qed.

Lemma PurgePacket_ok (s : WOLFSSH) : exists s', PurgePacket s = (Ok tt, s').
Proof. eexists. reflexivity. Qed.

End Wiped.

(** ** Examples *)

#[export] Instance toy_host : HostKeys := {|
  wc_RsaPrivateKeyDecode der := inl (blen der);
  wc_EccPrivateKeyDecode der := inl (der, ECC_SECP256R1);
  ecc_private_only _ := false;
  wc_ecc_make_pub k := inl k;
  wc_ecc_set_rng := 0;
  wc_Ed25519PrivateKeyDecode der := inl der;
  pubKeySet _ := true;
  wc_ed25519_make_public k := inl k;
  wc_ed25519_import_public_ex q _ := inl q;
  wc_MlDsaKey_PrivateKeyDecode _ der := inl der;
  wc_SignatureVerify_rsa _ m sig _ := if bytes_eqb sig m then 0 else WS_RSA_E;
  wc_SignatureVerify_ecc _ m sig _ := if bytes_eqb sig (without_zeros m) then 0 else WS_ECC_E
|}.

(** A group of two: private and public numbers are bytes, the shared one their product. *)
Definition toy_shared (priv pub : bytes) : bytes := [nth 0 priv 0 * nth 0 pub 0 mod 251].
Definition toy_draw (g : bytes) : bytes * bytes := ([nth 0 g 3], drop 1 g).

#[export] Instance toy_kex : KeyExchange := {|
  wc_InitDhKey := 0;
  wc_DhSetKey p g := inl p;
  wc_DhGenerateKeyPair _ _ _ g := let '(x, g) := toy_draw g in (inl (x, x), g);
  wc_DhCheckPubKey _ _ := 0;
  wc_DhAgree _ _ x y := inl (toy_shared x y);
  ecc_image := fst;
  ecc_at b := (b, ECC_SECP256R1);
  wc_ecc_check_key _ g := (inl tt, g);
  wc_ecc_make_key_ex c g := let '(x, g) := toy_draw g in (inl (x, c), g);
  wc_ecc_shared_secret x y _ g := (inl (toy_shared (fst x) (fst y)), g);
  wc_curve25519_init := 0;
  wc_curve25519_check_public _ := 0;
  wc_curve25519_import_public_ex q := inl q;
  wc_curve25519_make_key g := let '(x, g) := toy_draw g in (inl x, g);
  wc_curve25519_export_public_ex k := inl k;
  wc_curve25519_shared_secret_ex x y _ := inl (toy_shared x y);
  MlKemKey := bytes;
  wc_MlKemKey_Init _ := inl [];
  wc_MlKemKey_CipherTextSize _ := inl 1;
  wc_MlKemKey_SharedSecretSize _ := inl 1;
  wc_MlKemKey_PublicKeySize _ := inl 1;
  wc_MlKemKey_PrivateKeySize _ := inl 1;
  wc_MlKemKey_MakeKey _ g := let '(x, g) := toy_draw g in (inl x, g);
  wc_MlKemKey_EncodePublicKey k _ := inl k;
  wc_MlKemKey_EncodePrivateKey k _ := inl k;
  wc_MlKemKey_DecodePublicKey _ b := inl b;
  wc_MlKemKey_DecodePrivateKey _ b := inl b;
  wc_MlKemKey_Encapsulate k g := let '(x, g) := toy_draw g in (inl (x, toy_shared x k), g);
  wc_MlKemKey_Decapsulate k c := inl (toy_shared c k);
  mp_int := Z;
  mp_init_multi := 0;
  mp_read_unsigned_bin b := inl (be_value b);
  mp_bits n := if n =? 0 then 0 else Z.log2 n + 1;
  mp_isodd := Z.odd;
  mp_cmp_d := Z.compare;
  mp_cmp := Z.compare;
  mp_sub_d n d := inl (n - d);
  mp_rshb n d := Z.shiftr n d;
  mp_prime_is_prime_ex n _ g := (inl (Z.odd n), g)
|}.

(** A server with an Ed25519 key, a client that trusts any key, and their sessions in an
    exchange with Curve25519. *)
Definition host_server : CTX := server <| @privateKey := [mkPvtKey ID_ED25519 [11; 12; 13] [] None] |>.
Definition host_client : CTX := client <| @publicKeyCheckCb := Some (fun _ => mret 0) |>.
#[export] Instance host_client_check : @QuietKeyCheck host_client.
Proof. split. by intros cb k [= <-] s. Defined.

Definition in_exchange (f : HandshakeInfo -> HandshakeInfo) : WOLFSSH :=
  (new_session []) <| handshake ::= option_map (fun h =>
    f (h <| hs_kexId := ID_CURVE25519_SHA256 |> <| pubKeyId := ID_ED25519 |> <| kexHashId := WC_HASH_TYPE_SHA256 |>
      <| kexHash := [1; 2; 3] |> <| hs_e := [5] |>)) |>.
Definition exchanging_client : WOLFSSH := in_exchange (fun h => h <| useCurve25519 := true |> <| privKey := [5] |>).
Definition exchanging_server : WOLFSSH := in_exchange (fun h => h).

(** The server's reply, after its id. *)
Definition sample_sig : bytes := toy_digest WC_HASH_TYPE_SHA256
  ([1; 2; 3] ++ exchange_string (wstring (str "ssh-ed25519") ++ wstring [11; 12; 13]) [] [5] [3] (k_string (CreateMpint [15]))).
Definition sample_reply : bytes :=
  wstring (wstring (str "ssh-ed25519") ++ wstring [11; 12; 13]) ++ wstring [3]
    ++ wstring (wstring (str "ssh-ed25519") ++ wstring sample_sig).

Example DoKexDhReply_verified_witness :
  let run := @DoKexDhReply host_client _ _ _ _ _ _ _ sample_reply (blen sample_reply) exchanging_client in
  run.1 = Ok tt /\ exists h, handshake exchanging_client = Some h /\
    @verified_reply host_client _ _ _ _ _ _ _ _ sample_reply h [1; 2; 3] exchanging_client run.2.
Proof.
  intros run. assert (run.1 = Ok tt) as E by (by vm_compute). split; [exact E|].
  eexists. split; [reflexivity|].
  apply (@DoKexDhReply_verified host_client _ _ _ _ _ _ _ _ _ sample_reply _ [1; 2; 3] exchanging_client run.2).
  - unfold is_word32. vm_compute. intuition congruence.
  - apply (bool_decide_unpack _). vm_compute. exact I.
  - reflexivity.
  - reflexivity.
  - fold run. rewrite <- E. apply surjective_pairing.
Defined.

#[export] Instance host_client_quiet : @QuietSends host_client.
Proof. split; [by intros cb d [= <-] s|done]. Defined.

