(* ===== verification/KexServe.v ===== *)
(** The server's half of the key exchange (KexDh): what a reply signs, what it carries,
    and that the client's check of it (KexDhSpec) is about the same hash. *)

From S2P Require Import Prelude Codes Wire Names Buffer Fwd Algos Kdf Session Samples MsgFilter Transport.
From S2P Require Import Channels Send KexInit KexKeys KexAgree UserSig Ossh Composite OsshKey CertMan HostKey UserAuth.
From S2P Require Import Frames UserAuthSpec KexDh KexDhSpec.

(** ** What the server's agreement changes *)

(** As [frames_auto], through the calls with an error of their own. *)
Ltac rest_step :=
  lazymatch goal with
  | |- frames rest (or_else _ _) => apply rest_or_else
  | |- _ => first [frames_step | solve [eauto with frames nocore]]
  end.

Section Frames.
Context `{CTX} `{Crypto} `{Hashes} `{PubKeys} `{!SignKeys} `{!HostKeys} `{!KeyExchange} `{CertManager}.

(** The exchange, but for K and the size of the group. *)
Definition agreeing (s : WOLFSSH) : option HandshakeInfo * KexState :=
  (handshake s, (kex s) <| kx_k := [] |> <| kx_primeGroupSz := 0 |>).

Lemma agreeing_rest (s s' : WOLFSSH) : rest s' = rest s -> agreeing s' = agreeing s.
Proof.
  intros E. unfold agreeing. f_equal; [exact (f_equal handshake E)|].
  exact (f_equal (fun s => (kex s) <| kx_k := [] |> <| kx_primeGroupSz := 0 |>) E).
Qed.
Lemma frames_agreeing {A} (m : M A) : frames rest m -> frames agreeing m.
Proof. intros Hm s. apply agreeing_rest, Hm. Qed.
Lemma agreeing_set_k k : frames agreeing (set_k k).
Proof. by intros s. Qed.
Lemma agreeing_or_else {A} (m : M A) e : frames agreeing m -> frames agreeing (or_else m e).
Proof. intros Hm. unfold or_else. frames_auto. Qed.
Hint Resolve frames_agreeing agreeing_set_k rest_ld_hs rest_with_rng rest_check_dh rest_EccCheckPeerKey rest_curve_of
  rest_curve25519_peer agreeing_or_else : frames.

Lemma agreeing_hash_secret t k : frames agreeing (hash_secret t k).
Proof. unfold hash_secret. frames_auto. Qed.
Lemma rest_classical_server id e n : frames rest (classical_server id e n).
Proof. unfold classical_server. frames_auto. Qed.
Lemma rest_encapsulate id e : frames rest (encapsulate id e).
Proof. unfold encapsulate. frames_auto. Qed.
Hint Resolve agreeing_hash_secret rest_classical_server rest_encapsulate : frames.

Lemma agreeing_KeyAgree_server kind t : frames agreeing (KeyAgree_server kind t).
Proof.
  destruct kind; unfold KeyAgree_server, KeyAgreeDh_server, KeyAgreeEcdhMlKem_server, KeyAgreeEcdh_server, KeyAgreeCurve25519_server;
    frames_auto.
Qed.

(** The signing key and the signature are had without touching the exchange. *)
Lemma rest_rsa_signing pvt : frames rest (rsa_signing pvt).
Proof. unfold rsa_signing. frames_auto. Qed.
Lemma rest_rsa_fields k : frames rest (rsa_fields k).
Proof. unfold rsa_fields. frames_auto. Qed.
Lemma rest_ecc_signing pvt : frames rest (ecc_signing pvt).
Proof. unfold ecc_signing. frames_auto. Qed.
Lemma rest_ecc_public k : frames rest (ecc_public k).
Proof. unfold ecc_public. frames_auto. Qed.
Lemma rest_ed25519_signing pvt : frames rest (ed25519_signing pvt).
Proof. unfold ed25519_signing. frames_auto. Qed.
Lemma rest_mldsa_signing id pvt : frames rest (mldsa_signing id pvt).
Proof. unfold mldsa_signing. frames_auto. Qed.
Lemma rest_mldsa_public pvt : frames rest (mldsa_public pvt).
Proof. unfold mldsa_public. frames_auto. Qed.
Lemma rest_composite_signing id p pvt : frames rest (composite_signing id p pvt).
Proof. unfold composite_signing. frames_auto. apply rest_or_else. frames_auto. Qed.
Lemma rest_composite_public p k : frames rest (composite_public p k).
Proof. unfold composite_public. frames_auto. Qed.
Hint Resolve rest_rsa_signing rest_rsa_fields rest_ecc_signing rest_ecc_public rest_ed25519_signing rest_mldsa_signing
  rest_mldsa_public rest_composite_signing rest_composite_public : frames.
Lemma rest_signing_key id fmt pvt : frames rest (signing_key id fmt pvt).
Proof. unfold signing_key. destruct fmt; frames_auto. Qed.

Lemma rest_sign_digest id h : frames rest (sign_digest id h).
Proof. unfold sign_digest. apply rest_or_else. frames_auto. Qed.
Hint Resolve rest_sign_digest : frames.
Lemma rest_SignHRsa id k h room : frames rest (SignHRsa id k h room).
Proof. unfold SignHRsa. repeat rest_step. Qed.
Lemma rest_SignHEcdsa id k h room : frames rest (SignHEcdsa id k h room).
Proof. unfold SignHEcdsa. repeat rest_step. Qed.
Lemma rest_SignHEd25519 k h room : frames rest (SignHEd25519 k h room).
Proof. unfold SignHEd25519. apply rest_or_else. frames_auto. Qed.
Lemma rest_SignHMlDsa k h room : frames rest (SignHMlDsa k h room).
Proof. unfold SignHMlDsa. apply rest_or_else. frames_auto. Qed.
Lemma rest_trad_sign t k h n m room : frames rest (sign (WS_GetTradOps t) k h n m room).
Proof.
  destruct t; cbn [WS_GetTradOps compositeEccOps compositeEd25519Ops compositeEd448Ops sign];
    unfold CompositeEccSign, CompositeEd25519Sign, CompositeEd448Sign, as_ecc, as_ed25519, as_ed448;
    repeat rest_step.
Qed.
Hint Resolve rest_trad_sign : frames.
Lemma rest_SignHMlDsaComposite id k room : frames rest (SignHMlDsaComposite id k room).
Proof.
  unfold SignHMlDsaComposite, sign_composite, mPrime_of.
  repeat rest_step.
Qed.
Hint Resolve rest_SignHRsa rest_SignHEcdsa rest_SignHEd25519 rest_SignHMlDsa rest_SignHMlDsaComposite : frames.
Lemma rest_SignH id key room : frames rest (SignH id key room).
Proof. unfold SignH. destruct id; frames_auto. Qed.
End Frames.

(** ** What a reply signs and sends *)

Section Serve.
Context `{CTX} `{Crypto} `{HashLaws} `{PubKeys} `{!SignKeys} `{!HostKeys} `{!KeyExchange} `{CertManager}.

(** The group of a group exchange, as the server hashes it. *)
Definition server_gex (h : HandshakeInfo) : bytes :=
  match GetDHPrimeGroup h with
  | Ok (p, g) => gex_string h (mpint_block (CreateMpint p)) (mpint_block (CreateMpint g))
  | _ => []
  end.

Lemma fields_block fields : concat (concat (map mpint_parts fields)) = concat (map mpint_block fields).
Proof. induction fields as [|f fields IH]; [done|]. cbn [map concat]. by rewrite concat_app, mpint_parts_block, IH. Qed.
Lemma block_parts_block id fmt pvt fields :
  key_block id fmt pvt (Some fields) = Ok (concat (block_parts (IdToName fmt) fields)).
Proof.
  unfold key_block, block_parts, wstring. rewrite concat_app, fields_block. cbn [concat]. by rewrite app_nil_r, <- !app_assoc.
Qed.

Lemma hashing_ld t h k s m h' s' : hashing t h k s m -> ld_hs s = (Ok h', s') -> s' = s /\ exists st, h' = h <| kexHash := st |>.
Proof.
  intros [(st & Eh & _) _] E. rewrite (ld_hs_at _ _ Eh) in E. injection E as <- <-. split; [done|]. by exists st.
Qed.

Lemma SendKexGetSigningKey_ok t h k s m id fmt pvt key fields s' :
  hashing t h k s m -> SendKexGetSigningKey id fmt t pvt s = (Ok (key, fields), s') ->
  exists block s1, signing_key id fmt pvt s = (Ok (key, fields), s1) /\ key_block id fmt pvt fields = Ok block /\
    hashing t h k s' (m ++ block ++ server_gex h ++ wstring (hs_e h)).
Proof.
  intros Hh E. unfold SendKexGetSigningKey in E. apply ST_bind_inv in E as ([key' fs] & s1 & E1 & E).
  pose proof (rest_signing_key id fmt pvt s) as Hr. rewrite E1 in Hr. apply (hashing_rest _ _ _ _ _ _ Hr) in Hh as Hs1.
  apply ST_bind_inv in E as ([] & s2 & E2 & E).
  assert (exists block, key_block id fmt pvt fs = Ok block /\ hashing t h k s2 (m ++ block)) as (block & Eb & Hs2).
  { destruct fs as [fs|].
    - exists (concat (block_parts (IdToName fmt) fs)). split; [apply block_parts_block|]. by eapply hash_parts_ok.
    - apply ST_bind_inv in E2 as (mem & s3 & E3 & E2). apply ST_bind_inv in E2 as ([] & s4 & [_ ->]%guard_ok & E2).
      apply ST_bind_inv in E2 as (info & s4 & E4 & E2). unfold lift_res in E4. injection E4 as Ei <-.
      exists info. split; [done|]. rewrite <- (app_nil_r info).
      pose proof (rest_malloc s1) as Hr3. rewrite E3 in Hr3. apply (hashing_rest _ _ _ _ _ _ Hr3) in Hs1.
      exact (hash_parts_ok _ _ _ _ _ _ _ Hs1 E2). }
  apply ST_bind_inv in E as (h' & s3 & E3 & E). destruct (hashing_ld _ _ _ _ _ _ _ Hs2 E3) as (-> & st & ->).
  apply ST_bind_inv in E as ([] & s3 & E4 & E).
  assert (hashing t h k s3 ((m ++ block) ++ server_gex h)) as Hs3.
  { unfold server_gex. change (GetDHPrimeGroup h) with (GetDHPrimeGroup (h <| kexHash := st |>)).
    change (hs_kexId (h <| kexHash := st |>)) with (hs_kexId h) in E4.
    destruct (id_eqb (hs_kexId h) ID_DH_GEX_SHA256) eqn:Eg.
    - apply ST_bind_inv in E4 as ([p g] & s4 & E5 & E4). unfold lift_res in E5. injection E5 as Ep <-. rewrite Ep.
      unfold gex_string. rewrite Eg, <- gex_parts_block. exact (hash_parts_ok _ _ _ _ _ _ _ Hs2 E4).
    - injection E4 as <-. unfold gex_string. rewrite Eg. destruct (GetDHPrimeGroup _) as [[p g]|e|]; by rewrite app_nil_r. }
  apply ST_bind_inv in E as ([] & s4 & E5 & [= <- <- <-]). exists block, s1. split; [done|]. split; [done|].
  pose proof (hash_parts_ok _ _ _ _ _ _ _ Hs3 E5) as Hs4. cbn [concat] in Hs4. by rewrite app_nil_r, <- !app_assoc in Hs4.
Qed.

(** The server agreed on a secret, with [f] its public value. *)
Definition served (kind : agreement) (t : wc_HashType) (h : HandshakeInfo) (f secret : bytes) : Prop :=
  exists st s1 s2, handshake s1 = Some (h <| kexHash := st |>) /\
    KeyAgree_server kind t s1 = (Ok f, s2) /\ kx_k (kex s2) = secret.

Lemma hashing_served kind t h k s m f s' :
  hashing t h k s m -> KeyAgree_server kind t s = (Ok f, s') ->
  exists n, served kind t h f (kx_k (kex s')) /\
    hashing t h (k <| kx_k := kx_k (kex s') |> <| kx_primeGroupSz := n |>) s' m.
Proof.
  intros [(st & Eh & Hst) Hk] E. exists (kx_primeGroupSz (kex s')). split; [by exists st, s, s'|].
  pose proof (agreeing_KeyAgree_server kind t s) as Ha. rewrite E in Ha. cbn [snd] in Ha.
  pose proof (f_equal fst Ha : handshake s' = handshake s) as E1. pose proof (f_equal snd Ha) as E2. unfold agreeing in E2. cbn [snd] in E2. split.
  - exists st. by rewrite E1.
  - pose proof (f_equal (fun x => x <| kx_k := kx_k (kex s') |> <| kx_primeGroupSz := kx_primeGroupSz (kex s') |>) E2) as E3.
    rewrite <- Hk. transitivity ((kex s') <| kx_k := kx_k (kex s') |> <| kx_primeGroupSz := kx_primeGroupSz (kex s') |>).
    + by destruct (kex s').
    + exact E3.
Qed.

Lemma agree_server_ok kind t h k s m f s' :
  hashing t h k s m -> agree_server kind t s = (Ok f, s') ->
  exists f0 secret n, f = encode_f kind f0 /\ served kind t h f0 secret /\
  let K := k_of (is_mlkem kind) secret in
  kex s' = hashed (k <| kx_k := K.1 |> <| kx_primeGroupSz := n |>) (digest t (m ++ mpint_block f ++ k_string K)).
Proof.
  intros [Hs Hk] E. unfold agree_server, set_k in E. rewrite st_modify in E. apply or_else_ok in E.
  set (s0 := s <| kex; kx_k := zeros MAX_KEX_KEY_SZ |>) in E.
  assert (hashing t h (k <| kx_k := zeros MAX_KEX_KEY_SZ |>) s0 m) as Hs0.
  { split; [exact Hs|]. rewrite <- Hk. reflexivity. }
  apply ST_bind_inv in E as (f0 & s1 & E1 & E). destruct (hashing_served _ _ _ _ _ _ _ _ Hs0 E1) as (n & Hf & Hs1).
  apply ST_bind_inv in E as ([] & s2 & E2 & E). apply (hash_parts_ok _ _ _ _ _ _ _ Hs1) in E2 as Hs2.
  apply ST_bind_inv in E as ([] & s3 & E3 & E). apply (hash_k_ok _ _ _ _ _ _ _ Hs2) in E3 as Hs3.
  apply ST_bind_inv in E as ([] & s4 & E4 & E). unfold ret_code in E4.
  destruct (_ =? 0) in E4; [injection E4 as <-|done].
  apply ST_bind_inv in E as ([] & s5 & E5 & [= <- <-]). destruct (take_hash_ok _ _ _ _ _ _ Hs3 E5) as [_ Ek].
  exists f0, (kx_k (kex s1)), n. split; [done|]. split; [done|]. rewrite mpint_parts_block, <- app_assoc in Ek. exact Ek.
Qed.

(** The transcript of a reply, from the message's own key block and mpint. *)
Definition reply_string (block gex e f K : bytes) : bytes := block ++ gex ++ wstring e ++ f ++ K.

Definition finish_server (t : wc_HashType) (isMlKem : bool) (payload : bytes) : M unit :=
  GenerateKeys t (negb isMlKem);;
  send_payload (blen payload) payload;;
  st_hs (fun h => h <| expectMsgId := MSGID_NEWKEYS |>);;
  SendNewKeys;;
  s ← get;
  when (sendExtInfo (kex s)) SendExtInfo.

(** [sig] is the signature, with the key of the context, of a session's hash [d]. *)
Definition made_by (h : HandshakeInfo) (pvt : WOLFSSH_PVT_KEY) (fields : option (list (bytes * Z))) (d sig : bytes) : Prop :=
  exists key s1 s2 s3 s4, signing_key (pubKeyId h) (key_format (pubKeyId h)) pvt s1 = (Ok (key, fields), s2) /\
    kx_h (kex s3) = d /\ SignH (pubKeyId h) key KEX_SIG_SIZE s3 = (Ok sig, s4).

(** A reply the server made: the block of the context's key for the format, f, and the
    signature of H by that key, where H is the hash of the transcript so far, that same
    block, the group, e, that same f and K. The keys come from that H and K, and K is
    wiped. *)
Definition signed_reply (h : HandshakeInfo) (m : bytes) (s s' : WOLFSSH) : Prop :=
  exists kind msgId pvt fields block f secret n sig s1 s2,
    reply_kind (hs_kexId h) = Some (kind, msgId) /\
    List.find (fun k => id_eqb (publicKeyFmt k) (key_format (pubKeyId h))) privateKey = Some pvt /\
    key_block (pubKeyId h) (key_format (pubKeyId h)) pvt fields = Ok block /\ served kind (kexHashId h) h f secret /\
    let K := k_of (is_mlkem kind) secret in
    let F := encode_f kind f in
    let H := digest (kexHashId h) (m ++ reply_string block (server_gex h) (hs_e h) (mpint_block F) (k_string K)) in
    made_by h pvt fields H sig /\
    kex s1 = hashed ((kex s) <| kx_k := K.1 |> <| kx_primeGroupSz := n |>) H /\
    finish_server (kexHashId h) (is_mlkem kind)
      (reply_payload msgId block F (IdToName (SigTypeForId (pubKeyId h))) sig) s1 = (Ok tt, s2) /\
    s' = s2 <| kex; kx_k := [] |>.

Lemma SendKexDhReply_run h m s s' :
  handshake s = Some h -> holds (kexHashId h) (kexHash h) m -> SendKexDhReply s = (Ok tt, s') -> signed_reply h m s s'.
Proof.
  intros Eh Hm E. unfold signed_reply. unfold SendKexDhReply in E. apply ST_bind_inv in E as (r & s1 & E1 & E).
  unfold attempt in E1. destruct (send_kexdh_reply s) as [[[]|e|] s2] eqn:Er; [|injection E1 as <- <-|done].
  2: { apply ST_bind_inv in E as ([] & s3 & _ & E). by apply ST_bind_inv in E as ([] & s4 & _ & E). }
  injection E1 as <- <-. injection E as <-. unfold send_kexdh_reply in Er.
  apply ST_bind_inv in Er as (mem1 & s3 & E1 & E). apply ST_bind_inv in E as (mem2 & s4 & E2 & E).
  pose proof (rest_malloc s) as R1. rewrite E1 in R1. pose proof (rest_malloc s3) as R2. rewrite E2 in R2. cbn [snd] in R1, R2.
  rewrite R1 in R2. apply ST_bind_inv in E as ([] & s5 & [_ ->]%guard_ok & E).
  rewrite st_get in E. replace (handshake s4) with (Some h) in E by (rewrite <- Eh; symmetry; exact (f_equal handshake R2)).
  destruct (reply_kind (hs_kexId h)) as [[kind msgId]|]; [|done].
  apply ST_bind_inv in E as ([kind' msgId'] & s5 & [= -> -> ->] & E).
  destruct (List.find _ privateKey) as [pvt|] eqn:Ep; [|done]. apply ST_bind_inv in E as (pvt' & s6 & [= -> ->] & E).
  assert (hashing (kexHashId h) h (kex s) s6 m) as Hh.
  { apply (hashing_rest _ _ _ s); [done|]. split; [|done]. exists (kexHash h). split; [|done]. rewrite Eh. by destruct h. }
  apply ST_bind_inv in E as ([key fields] & s7 & E3 & E).
  destruct (SendKexGetSigningKey_ok _ _ _ _ _ _ _ _ _ _ _ Hh E3) as (block & s8 & Hk & Eb & Hs1).
  apply ST_bind_inv in E as (F & s9 & E4 & E).
  destruct (agree_server_ok _ _ _ _ _ _ _ _ Hs1 E4) as (f & secret & n & -> & Hf & Ek).
  apply ST_bind_inv in E as (sig & s10 & E5 & E).
  pose proof (rest_SignH (pubKeyId h) key KEX_SIG_SIZE s9) as R3. rewrite E5 in R3. cbn [snd] in R3.
  exists kind', msgId', pvt', fields, block, f, secret, n, sig, s10, s2.
  do 4 (split; [done|]). cbv zeta in *. rewrite <- !app_assoc in Ek. split; [|split; [|split; [|done]]].
  - exists key, s6, s8, s9, s10. split; [done|]. split; [|done]. rewrite Ek. reflexivity.
  - transitivity (kex s9); [exact (f_equal kex R3)|exact Ek].
  - rewrite Eb in E. exact E.
Qed.

(** C13: a reply that succeeds is the negotiated algorithm's message, with the context's
    key, and its signature is by that key over the hash of what it carries. *)
Theorem SendKexDhReply_signs h m s s' :
  handshake s = Some h -> holds (kexHashId h) (kexHash h) m -> SendKexDhReply s = (Ok tt, s') -> signed_reply h m s s'.
Proof. apply SendKexDhReply_run. Qed.
End Serve.

(** ** The client reads what the server sent *)

Definition pad_bit (f : bytes * Z) : Prop := f.2 = 0 \/ f.2 = 1.

Lemma leading_zeros_bytes b j : (j <= leading_zeros b)%nat -> Forall is_byte (take j b).
Proof.
  revert j. induction b as [|x b IH]; intros j Hj; [by rewrite take_nil|]. cbn [leading_zeros] in Hj.
  destruct (Z.eqb_spec x 0) as [->|_]; [|by assert (j = 0%nat) as -> by lia].
  destruct j as [|j]; [done|]. cbn [take]. constructor; [done|]. apply IH. lia.
Qed.

(** A pad is a bit whatever the number, if what is left of it are bytes. *)
Lemma CreateMpint_pad b : Forall is_byte (CreateMpint b).1 -> pad_bit (CreateMpint b).
Proof.
  intros Hb. assert (Forall is_byte b) as H; [|by destruct (CreateMpint_run b H) as (_ & _ & Hp & _)].
  unfold CreateMpint in Hb. destruct (Nat.eqb_spec (leading_zeros b) (length b)) as [E|E].
  - rewrite <- (take_ge b (leading_zeros b)) by lia. by apply leading_zeros_bytes.
  - cbn [fst] in Hb. rewrite <- (take_drop (leading_zeros b - Z.to_nat (Z.land (Z.shiftr (nth (leading_zeros b) b 0) 7) (b2z (0 <? Z.of_nat (leading_zeros b))))) b).
    apply Forall_app. split; [|done]. apply leading_zeros_bytes. lia.
Qed.

(** The block of a number is a string. *)
Definition padded (f : bytes * Z) : bytes := (if truthy f.2 then [0] else []) ++ f.1.
Lemma mpint_block_string f : pad_bit f -> is_word32 (blen (mpint_block f)) -> mpint_block f = wstring (padded f).
Proof.
  intros Hp Hw. unfold mpint_block, wstring, padded in *. rewrite blen_app, c32toa_length in Hw. f_equal. f_equal.
  destruct Hp as [E|E]; rewrite E in *; cbn in Hw |- *; unfold is_word32 in Hw; rewrite ?blen_cons in *;
    (rewrite wrap32_small; [lia|pose proof (blen_nonneg f.1); clia]).
Qed.

Lemma fields_string fields :
  Forall pad_bit fields -> is_word32 (blen (concat (map mpint_block fields))) ->
  foldr (fun f n => mpint_size f + n) 0 fields + LENGTH_SZ * blen fields = blen (concat (map mpint_block fields)).
Proof.
  induction 1 as [|f fields Hf _ IH]; [done|]. cbn [map concat foldr]. rewrite blen_app, blen_cons. intros Hw.
  pose proof (blen_nonneg (mpint_block f)). pose proof (blen_nonneg (concat (map mpint_block fields))).
  rewrite <- IH by (unfold is_word32 in *; lia). rewrite (mpint_block_string f Hf), blen_wstring by (unfold is_word32 in *; lia).
  unfold mpint_size, padded. rewrite blen_app. destruct Hf as [-> | ->]; cbn [truthy Z.eqb negb]; rewrite ?blen_cons; change (blen []) with 0; clia.
Qed.

Section Readings.
Context `{CTX} `{Crypto} `{Hashes} `{PubKeys} `{!SignKeys} `{!HostKeys} `{CertManager}.

(** Only the numbers of an RSA key can have a pad. *)
Definition field_ok (f : bytes * Z) : Prop := f.2 = 0 \/ exists b, f = CreateMpint b.

Lemma rsa_fields_ok k fields (s s' : WOLFSSH) : rsa_fields k s = (Ok fields, s') -> Forall field_ok fields.
Proof.
  unfold rsa_fields. intros ([e n] & s1 & _ & [= <- _])%ST_bind_inv.
  constructor; [|constructor; [|done]]; right; by eexists.
Qed.

Ltac last_step E :=
  repeat match type of E with
  | (_ ≫= _) _ = _ => apply ST_bind_inv in E as (? & ? & ? & E)
  | (let '(_, _) := ?x in _) _ = _ => destruct x
  end.

Lemma signing_fields id fmt pvt key fields (s s' : WOLFSSH) :
  signing_key id fmt pvt s = (Ok (key, Some fields), s') -> Forall field_ok fields.
Proof.
  unfold signing_key. intros E. destruct fmt; try done; last_step E; try done; injection E as _ <- _;
    try (by repeat constructor); by eapply rsa_fields_ok.
Qed.

Lemma fields_pad fields : Forall field_ok fields -> Forall is_byte (concat (map mpint_block fields)) -> Forall pad_bit fields.
Proof.
  induction 1 as [|f fields Hf _ IH]; [done|]. cbn [map concat]. intros [Hb Hr]%Forall_app. constructor; [|by apply IH].
  destruct Hf as [E|[b ->]]; [by left|]. apply CreateMpint_pad. unfold mpint_block in Hb. by apply Forall_app in Hb as [_ [_ Hb]%Forall_app].
Qed.

Lemma encode_f_pad kind f : Forall is_byte (mpint_block (encode_f kind f)) -> pad_bit (encode_f kind f).
Proof.
  intros [_ [_ Hb]%Forall_app]%Forall_app. destruct kind; cbn [encode_f] in *; first [by left|by apply CreateMpint_pad].
Qed.

Lemma Ok_inj {A} (x y : A) : Ok x = Ok y -> x = y.
Proof. by intros [= ->]. Qed.

(** The key block is a string. *)
Lemma key_block_string id fmt pvt fields block :
  key_block id fmt pvt fields = Ok block -> (forall fs, fields = Some fs -> Forall field_ok fs) ->
  Forall is_byte block -> is_word32 (blen block) -> exists K_S, block = wstring K_S.
Proof.
  intros E Hf Hb Hw. destruct fields as [fs|]; cbn [key_block] in E.
  - apply Ok_inj in E as <-. set (name := IdToName fmt) in *. pose proof (blen_nonneg name).
    apply Forall_app in Hb as [_ [_ Hb]%Forall_app]. apply fields_pad in Hb; [|by apply Hf].
    exists (wstring name ++ concat (map mpint_block fs)). unfold wstring at 2. f_equal. f_equal. unfold block_size.
    rewrite !blen_app, c32toa_length, blen_wstring in Hw. unfold is_word32 in Hw. pose proof (blen_nonneg (concat (map mpint_block fs))).
    assert (is_word32 (blen (concat (map mpint_block fs)))) as Hf' by (unfold is_word32; clia).
    pose proof (fields_string fs Hb Hf') as Ef. rewrite blen_app, blen_wstring. rewrite wrap32_small; clia.
  - unfold BuildRFC6187Info in E. destruct (rfc6187_name id) as [name|]; [|done]. apply Ok_inj in E as <-.
    exists (wstring name ++ c32toa 1 ++ wstring (pvt_cert pvt) ++ c32toa 0). unfold wstring at 3.
    unfold is_word32 in Hw. f_equal. f_equal.
    rewrite !blen_app, !c32toa_length, !blen_wstring in *. pose proof (blen_nonneg name). pose proof (blen_nonneg (pvt_cert pvt)).
    rewrite wrap32_small; clia.
Qed.
End Readings.

(** Strings that start the same bytes are the same. *)
Lemma wstring_inj a b x y :
  is_word32 (blen a) -> is_word32 (blen b) -> wstring a ++ x = wstring b ++ y -> a = b /\ x = y.
Proof.
  intros Ha Hb E. unfold wstring in E. rewrite <- !app_assoc in E.
  pose proof (ato32_c32toa_app (blen a) (a ++ x) Ha) as E1. rewrite E, ato32_c32toa_app in E1 by done. injection E1 as E1.
  rewrite E1 in E. apply app_inv_head in E. apply app_inj_1 in E; [done|]. unfold blen in E1. lia.
Qed.

(** A message, [a] and [b] its parts, is below 2^32 in each of its parts. *)
Lemma word32_app (a b : bytes) : is_word32 (blen (a ++ b)) -> is_word32 (blen a) /\ is_word32 (blen b).
Proof. rewrite blen_app. pose proof (blen_nonneg a). pose proof (blen_nonneg b). unfold is_word32. lia. Qed.
Lemma word32_wstring a : is_word32 (blen (wstring a)) -> is_word32 (blen a).
Proof. rewrite blen_wstring. pose proof (blen_nonneg a). unfold is_word32. lia. Qed.

Lemma wstring_prefix a b x y :
  is_word32 (blen (wstring a ++ x)) -> wstring a ++ x = wstring b ++ y -> a = b /\ x = y.
Proof.
  intros Hw E. apply wstring_inj; [..|done].
  - by apply word32_app in Hw as [Hw%word32_wstring _].
  - rewrite E in Hw. by apply word32_app in Hw as [Hw%word32_wstring _].
Qed.

(** The blob and its name are a string, too. *)
Lemma signature_string name sig :
  is_word32 (blen (wstring name ++ wstring sig)) ->
  c32toa (LENGTH_SZ * 2 +w blen name +w blen sig) ++ wstring name ++ wstring sig = wstring (wstring name ++ wstring sig).
Proof.
  unfold is_word32. rewrite blen_app, !blen_wstring. pose proof (blen_nonneg name). pose proof (blen_nonneg sig). intros Hw.
  unfold wstring at 3. rewrite blen_app, !blen_wstring. f_equal. f_equal. rewrite (wrap32_small (LENGTH_SZ * 2 + blen name)), wrap32_small by clia. clia.
Qed.

Section BothEnds.
Context (server client : CTX) `{Crypto} `{HashLaws} `{PubKeys} `{!SignKeys} `{!HostKeys} `{!KeyExchange} `{CertManager}.
Context `{!@QuietKeyCheck client}.

(** A message after its id, read back as the client reads it. *)
Definition reply_body (block : bytes) (F : bytes * Z) (name sig : bytes) : bytes :=
  block ++ mpint_block F ++ c32toa (LENGTH_SZ * 2 +w blen name +w blen sig) ++ wstring name ++ wstring sig.

Lemma reply_reading h kind pvt fields block f name sig s1 s2 key pubKey fc sigc tail :
  signing_key (pubKeyId h) (key_format (pubKeyId h)) pvt s1 = (Ok (key, fields), s2) ->
  key_block (pubKeyId h) (key_format (pubKeyId h)) pvt fields = Ok block ->
  is_word32 (blen (reply_body block (encode_f kind f) name sig)) ->
  Forall is_byte (reply_body block (encode_f kind f) name sig) ->
  reply_body block (encode_f kind f) name sig = wstring pubKey ++ wstring fc ++ wstring sigc ++ tail ->
  block = wstring pubKey /\ mpint_block (encode_f kind f) = wstring fc /\ fc = padded (encode_f kind f) /\
  sigc = wstring name ++ wstring sig.
Proof.
  unfold reply_body. intros Es Ek Hw Hb E. apply word32_app in Hw as Hwb. destruct Hwb as [Hwb Hw1].
  apply word32_app in Hw1 as [Hwf Hws]. apply word32_app in Hws as [_ Hws].
  apply Forall_app in Hb as [Hb [Hbf _]%Forall_app].
  destruct (key_block_string _ _ _ _ _ Ek) as [K_S EK]; [|done|done|].
  { intros fs ->. by eapply signing_fields. }
  rewrite signature_string in E, Hw by done. rewrite EK in E, Hw |- *. rewrite (mpint_block_string _ (encode_f_pad _ _ Hbf) Hwf) in E, Hw |- *.
  destruct (wstring_prefix _ _ _ _ Hw E) as [-> E1]. apply word32_app in Hw as [_ Hw].
  destruct (wstring_prefix _ _ _ _ Hw E1) as [-> E2]. apply word32_app in Hw as [_ Hw].
  rewrite <- (app_nil_r (wstring (wstring name ++ wstring sig))) in Hw, E2.
  by destruct (wstring_prefix _ _ _ _ Hw E2) as [-> _].
Qed.

(** The signature the client takes from the reply is the one put there. *)
Lemma exchange_signed_blob id key block F sig d :
  is_word32 (blen (reply_body block F (IdToName (SigTypeForId id)) sig)) ->
  exchange_signed id key (wstring (IdToName (SigTypeForId id)) ++ wstring sig) d -> blob_signed id key sig d.
Proof.
  unfold reply_body. intros Hw (blob & tl & E & Hs). do 3 (apply word32_app in Hw as [_ Hw]).
  destruct (wstring_prefix _ _ _ _ Hw E) as [_ E1]. apply word32_app in Hw as [_ Hw].
  rewrite <- (app_nil_r (wstring sig)) in Hw, E1. by destruct (wstring_prefix _ _ _ _ Hw E1) as [-> _].
Qed.

(** Two ends in the same exchange: the transcript so far, the algorithms and e. *)
Record same_exchange (hs hc : HandshakeInfo) (m : bytes) : Prop := {
  se_hash : kexHashId hc = kexHashId hs;
  se_key : pubKeyId hc = pubKeyId hs;
  se_e : hs_e hc = hs_e hs;
  se_gex : client_gex hc = server_gex hs;
  se_m : holds (kexHashId hc) (kexHash hc) m
}.

End BothEnds.

(** ** Examples *)

Example SendKexDhReply_signs_witness :
  let run := @SendKexDhReply host_server _ _ _ _ _ _ exchanging_server in
  run.1 = Ok tt /\ exists h, handshake exchanging_server = Some h /\
    @signed_reply host_server _ _ _ _ _ _ _ h [1; 2; 3] exchanging_server run.2.
Proof.
  intros run. assert (run.1 = Ok tt) as E by (by vm_compute). split; [exact E|].
  eexists. split; [reflexivity|].
  apply (@SendKexDhReply_signs host_server _ _ _ _ _ _ _ _ [1; 2; 3] exchanging_server run.2).
  - reflexivity.
  - reflexivity.
  - fold run. rewrite <- E. apply surjective_pairing.
Defined.

