(* ===== verification/KexGroup.v ===== *)
(** The group of a group exchange, as the client takes it from the server (KexDh,
    [DoKexDhGexGroup] and [ValidateKexDhGexGroup]): a prime of the size asked for, safe as
    far as the primality test tells, and a generator in range. *)

From S2P Require Import Prelude Codes Wire Names Buffer Fwd Algos Kdf Session Samples MsgFilter Transport.
From S2P Require Import Channels Send KexInit KexKeys KexAgree UserSig Ossh Composite OsshKey CertMan HostKey UserAuth.
From S2P Require Import Frames UserAuthSpec KexDh KexDhSpec.

(** wolfCrypt's numbers are numbers. *)
Class MpLaws `{KeyExchange} := {
  mp_val : mp_int -> Z;
  mp_read_val b p : mp_read_unsigned_bin b = inl p -> mp_val p = be_value b;
  mp_bits_val p : 0 < mp_val p -> 2 ^ (mp_bits p - 1) <= mp_val p < 2 ^ mp_bits p;
  mp_bits_zero p : mp_val p = 0 -> mp_bits p = 0;
  mp_isodd_val p : mp_isodd p = Z.odd (mp_val p);
  mp_cmp_d_val p d : mp_cmp_d p d = (mp_val p ?= d);
  mp_cmp_val p q : mp_cmp p q = (mp_val p ?= mp_val q);
  mp_sub_d_val p d q : mp_sub_d p d = inl q -> mp_val q = mp_val p - d;
  mp_rshb_val p n : mp_val (mp_rshb p n) = Z.shiftr (mp_val p) n
}.

Section KexGroup.
Context `{CTX} `{Crypto} `{Hashes} `{PubKeys} `{!SignKeys} `{!HostKeys} `{!KeyExchange} `{!MpLaws}.

(** The primality test took [n] for a prime. *)
Definition passes (n : Z) : Prop :=
  exists x g g', mp_val x = n /\ mp_prime_is_prime_ex x WOLFSSH_MR_ROUNDS g = (inl true, g').

(** A group the client accepts. *)
Record safe_group (p g : bytes) (minBits maxBits : Z) : Prop := {
  sg_size : 2 ^ (minBits - 1) <= be_value p < 2 ^ maxBits;
  sg_odd : Z.odd (be_value p) = true;
  sg_gen : 1 < be_value g < be_value p - 1;
  sg_prime : passes (be_value p);
  sg_safe : passes ((be_value p - 1) / 2)
}.

Lemma prime_test_ok x (s s' : WOLFSSH) : prime_test x s = (Ok tt, s') -> passes (mp_val x).
Proof.
  unfold prime_test. intros (ok & s1 & E%or_else_ok & [E2 _]%guard_ok)%ST_bind_inv. apply negb_false_iff in E2 as ->.
  unfold with_rng in E. destruct (mp_prime_is_prime_ex x WOLFSSH_MR_ROUNDS (rng (tx s))) as [r g] eqn:Ep.
  destruct r as [b|e]; [|done]. injection E as -> _. by exists x, (rng (tx s)), g.
Qed.

Lemma or_recode_ok {A} e (r : wc A) (s s' : WOLFSSH) a : or_recode e r s = (Ok a, s') -> r = inl a /\ s' = s.
Proof. unfold or_recode. destruct r; [by intros [= -> ->]|done]. Qed.

Lemma ValidateKexDhGexGroup_run p g minBits maxBits (s s' : WOLFSSH) :
  0 < minBits -> ValidateKexDhGexGroup (Some p) (Some g) minBits maxBits s = (Ok tt, s') ->
  safe_group p g minBits maxBits.
Proof.
  intros Hmin E. unfold ValidateKexDhGexGroup in E.
  apply ST_bind_inv in E as ([] & s1 & [_ ->]%guard_ok & E). apply ST_bind_inv in E as ([] & s1 & [_ ->]%guard_ok & E).
  apply ST_bind_inv in E as ([] & s1 & [_ ->]%guard_ok & E).
  apply ST_bind_inv in E as (P & s1 & [EP ->]%or_recode_ok & E). apply ST_bind_inv in E as (G & s1 & [EG ->]%or_recode_ok & E).
  apply ST_bind_inv in E as ([] & s1 & [Hsz ->]%guard_ok & E). apply ST_bind_inv in E as ([] & s1 & [Hodd ->]%guard_ok & E).
  apply ST_bind_inv in E as ([] & s1 & [Hg1 ->]%guard_ok & E). apply ST_bind_inv in E as (q & s1 & [Eq ->]%or_recode_ok & E).
  apply ST_bind_inv in E as ([] & s1 & [Hgq ->]%guard_ok & E). apply ST_bind_inv in E as ([] & s1 & Hp%prime_test_ok & E).
  apply ST_bind_inv in E as (q' & s2 & [Eq' ->]%or_recode_ok & Hq%prime_test_ok).
  rewrite Eq in Eq'. injection Eq' as <-. apply mp_read_val in EP, EG. apply mp_sub_d_val in Eq.
  rewrite mp_rshb_val, Eq, Z.shiftr_div_pow2, EP in Hq by done. rewrite EP in Hp.
  rewrite mp_cmp_d_val in Hg1. rewrite mp_cmp_val in Hgq. rewrite mp_isodd_val in Hodd. apply negb_false_iff in Hodd.
  destruct (Z.compare_spec (mp_val G) 1) as [|?|Hg]; [done..|]. destruct (Z.compare_spec (mp_val G) (mp_val q)) as [|Hlt|]; [done| |done].
  apply orb_false_iff in Hsz as [Hlo%Z.ltb_ge Hhi%Z.ltb_ge].
  assert (0 < mp_val P) as Hpos by lia. pose proof (mp_bits_val P Hpos) as Hb.
  assert (2 ^ (minBits - 1) <= 2 ^ (mp_bits P - 1)) by (apply Z.pow_le_mono_r; lia).
  assert (2 ^ mp_bits P <= 2 ^ maxBits) by (apply Z.pow_le_mono_r; lia).
  split; rewrite <- ?EP, <- ?EG; try done; [lia|lia|by rewrite EP|by rewrite EP].
Qed.

End KexGroup.

(** ** An example *)

#[export] Instance toy_mp : @MpLaws toy_keys toy_signers toy_host toy_kex.
Proof.
  refine {| mp_val := fun p : @mp_int _ _ _ toy_kex => (p : Z) |}; cbn; try done.
  - by intros b p [= <-].
  - intros p Hp. rewrite (proj2 (Z.eqb_neq p 0)) by lia. replace (Z.log2 p + 1 - 1) with (Z.log2 p) by lia.
    rewrite Z.add_1_r. by apply Z.log2_spec.
  - by intros p ->.
  - by intros p d q [= <-].
Defined.

(** A prime of 2048 bits, as far as the toy test tells, and the generator 2. *)
Definition sample_prime : bytes := 0x80 :: zeros 254 ++ [3].
Definition gex_client : WOLFSSH :=
  (new_session []) <| handshake ::= option_map (fun h => h <| hs_kexId := ID_DH_GEX_SHA256 |>) |>.
Definition gex_group_msg : bytes := wstring (0 :: sample_prime) ++ wstring [2].

