(* ===== verification/Input.v ===== *)
(** Receiving bytes (internal.c, [ReceiveData], [GetInputLine], [GetInputData]) and the
    exchange of version lines ([DoProtoId], [SendProtoId], [ValidateProtoId]).

    What is shown: asking for input ends, and keeps the stream: nothing the network has
    delivered is lost, repeated or reordered, whatever the sizes it arrives in; and the
    version lines that are accepted. *)

From S2P Require Import Prelude Codes Wire Names Buffer Fwd Algos Kdf Session Samples MsgFilter Transport Send.

Section Input.
Context `{CTX} `{Crypto}.

(** [recvd] bytes at the end of what the input buffer holds; the callback returns what
    it wrote there. *)
Fixpoint ReceiveData_loop (fuel : nat) (cb : Z -> M (Z * bytes)) (sz : Z) : M Z :=
  match fuel with
  | O => ub
  | S fuel =>
    '(recvd, data) ← cb sz;
    s ← get;
    on_in (buffer_write (b_length (inputBuffer (rx s))) data);;
    if recvd <? 0 then
      if recvd =? WS_CBIO_ERR_GENERAL then mret (-1)
      else if recvd =? WS_CBIO_ERR_WANT_READ then mret WS_WANT_READ
      else if recvd =? WS_CBIO_ERR_CONN_RST then modify (fun s => s <| connReset := true |>);; mret (-1)
      else if recvd =? WS_CBIO_ERR_ISR then ReceiveData_loop fuel cb sz
      else if recvd =? WS_CBIO_ERR_CONN_CLOSE then modify (fun s => s <| isClosed := true |>);; mret (-1)
      else if recvd =? WS_CBIO_ERR_TIMEOUT then mret (-1)
      else mret recvd
    else mret recvd
  end.

Definition ReceiveData (sz : Z) : M Z :=
  match ioRecvCb with
  | None => mret (-1)
  | Some cb => ReceiveData_loop io_fuel cb sz
  end.

Definition grow_input (sz : Z) : M Z :=
  mem ← malloc;
  code (on_in (GrowBuffer mem sz)).

Definition input_add (n : Z) : M unit :=
  modify (fun s => s <| rx; inputBuffer ::= (fun b => b <| b_length ::= (fun l => l +w n) |>) |>).

(** [WSTRNSTR(buffer, "\n", n)]: the search also ends at a NUL. *)
Fixpoint find_lf (b : bytes) (n : nat) {struct n} : option nat :=
  match n, b with
  | S n, c :: r => if c =? 0 then None else if c =? 10 then Some O else S <$> find_lf r n
  | _, _ => None
  end.

(** The index of the line's terminator. *)
Definition line_end (b : WOLFSSH_BUFFER) : option Z :=
  match find_lf (buffer b) (Z.to_nat (b_length b)) with
  | Some lf =>
    let lf := Z.of_nat lf in
    Some (if (0 <? lf) && (default 0 (rd (buffer b) (lf - 1)) =? 13) then lf - 1 else lf)
  | None => None
  end.

(** Each turn adds a byte to a line of at most 255. *)
Fixpoint GetInputLine_loop (fuel : nat) : M Z :=
  match fuel with
  | O => ub
  | S fuel =>
    s ← get;
    let b := inputBuffer (rx s) in
    match line_end b with
    | Some eol => mret eol
    | None =>
      guard_err (WOLFSSH_PROTOID_LIMIT <=? b_length b) WS_VERSION_E;;
      let inSz := WOLFSSH_PROTOID_LIMIT - b_length b in
      g ← grow_input inSz;
      guard_err (negb (g =? WS_SUCCESS)) WS_MEMORY_E;;
      r ← ReceiveData inSz;
      guard_err (r =? WS_WANT_READ) WS_WANT_READ;;
      guard_err (r <=? 0) WS_SOCKET_ERROR_E;;
      guard_err (inSz <? r) WS_RECV_OVERFLOW_E;;
      input_add r;;
      GetInputLine_loop fuel
    end
  end.

Definition GetInputLine : M Z :=
  g ← grow_input 0;
  guard_err (g <? 0) WS_MEMORY_E;;
  GetInputLine_loop (S (Z.to_nat WOLFSSH_PROTOID_LIMIT)).

Definition fatal {A} (e : Z) : M A :=
  modify (fun s => s <| error := e |>);; fail WS_FATAL_ERROR.

Fixpoint GetInputData_loop (fuel : nat) (size : Z) : M unit :=
  match fuel with
  | O => ub
  | S fuel =>
    r ← ReceiveData size;
    if r =? -1 then fatal WS_SOCKET_ERROR_E
    else if r =? WS_WANT_READ then fatal WS_WANT_READ
    else if 0 <=? r then
      input_add r;;
      let size := size -w r in
      if truthy size then GetInputData_loop fuel size else mret tt
    else fatal WS_SOCKET_ERROR_E
  end.

Definition GetInputData (size : Z) : M unit :=
  modify (fun s => if error s =? WS_WANT_READ then s <| error := 0 |> else s);;
  s ← get;
  let haveDataSz := b_length (inputBuffer (rx s)) -w b_idx (inputBuffer (rx s)) in
  if size <=? haveDataSz then mret tt
  else
    let size := size -w haveDataSz in
    g ← grow_input size;
    if g <? 0 then fatal WS_MEMORY_E
    else GetInputData_loop io_fuel size.

(** ** The version lines *)

Definition sshProtoIdPrefix : bytes := str "SSH-2.0-".
Definition OpenSSH : bytes := str "SSH-2.0-OpenSSH".

(** [WSTRNCMP(buffer, lit, strlen(lit)) == 0]. *)
Definition starts_with (b : WOLFSSH_BUFFER) (lit : bytes) : bool := bytes_eqb (slice (buffer b) 0 (blen lit)) lit.

Definition input_skip (n : Z) : M unit :=
  modify (fun s => s <| rx; inputBuffer ::= (fun b => b <| b_idx ::= (fun i => i +w n) |>) |>).

Definition eol_size (b : WOLFSSH_BUFFER) (eol : Z) : Z := if default 0 (rd (buffer b) eol) =? 13 then 2 else 1.

(** Up to the first line that starts with "SSH-": where it ends. *)
Fixpoint DoProtoId_loop (fuel : nat) (allowBanner : bool) : M Z :=
  match fuel with
  | O => ub
  | S fuel =>
    eol ← GetInputLine;
    s ← get;
    let b := inputBuffer (rx s) in
    if (4 <=? b_length b) && starts_with b (str "SSH-") then mret eol
    else
      guard_err (negb allowBanner) WS_VERSION_E;;
      h ← deref (handshake s);
      modify (fun s => s <| handshake := Some (h <| bannerLines ::= (fun n => n +w 1) |>) |>);;
      guard_err (WOLFSSH_MAX_BANNER_LINES <? bannerLines h +w 1) WS_VERSION_E;;
      input_skip (eol + eol_size b eol);;
      DoProtoId_loop fuel allowBanner
  end.

Definition DoProtoId : M unit :=
  let allowBanner := side =? WOLFSSH_ENDPOINT_CLIENT in
  eol ← DoProtoId_loop (S (S (Z.to_nat WOLFSSH_MAX_BANNER_LINES))) allowBanner;
  s ← get;
  let b := inputBuffer (rx s) in
  let eolSz := eol_size b eol in
  (if (SSH_PROTO_SZ <=? b_length b) && starts_with b sshProtoIdPrefix then
     modify (fun s => if side =? WOLFSSH_ENDPOINT_SERVER then s <| clientState := CLIENT_VERSION_DONE |>
                      else s <| serverState := SERVER_VERSION_DONE |>)
   else fail WS_VERSION_E);;
  when (starts_with b OpenSSH) (modify (fun s => s <| clientOpenSSH := true |>));;
  on_in (buffer_write eol [0]);;
  s ← get;
  let id := cstr (buffer (inputBuffer (rx s))) in
  mem ← malloc;
  ret ← (if negb mem then mret WS_MEMORY_E
         else modify (fun s => s <| kex; peerProtoId := Some (wstring id) |>);; mret WS_SUCCESS);
  input_skip (blen id + eolSz);;
  on_in (ShrinkBuffer false);;
  ret_code ret.

(** A proto id of our own. *)
Definition ValidateProtoId (protoIdStr : bytes) : res unit :=
  let len := blen protoIdStr in
  let at' i := default 0 (rd protoIdStr i) in
  let body := slice protoIdStr 0 (len - SSH_PROTO_EOL_SZ) in
  let fix no_dash (b : bytes) := match b with [] => true | c :: r => if c =? 32 then true else if c =? 45 then false else no_dash r end in
  if (len <? SSH_PROTO_MIN) || (WOLFSSH_PROTOID_LIMIT <? len) then Err WS_BAD_ARGUMENT
  else if negb (bytes_eqb (slice protoIdStr 0 SSH_PROTO_SZ) sshProtoIdPrefix) then Err WS_BAD_ARGUMENT
  else if at' SSH_PROTO_SZ =? 32 then Err WS_BAD_ARGUMENT
  else if negb (at' (len - 1) =? 10) || negb (at' (len - 2) =? 13) then Err WS_BAD_ARGUMENT
  else if negb (forallb (fun c => (0x20 <=? c) && (c <=? 0x7e)) body) then Err WS_BAD_ARGUMENT
  else if negb (no_dash (drop (Z.to_nat SSH_PROTO_SZ) body)) then Err WS_BAD_ARGUMENT
  else Ok tt.

Definition SendProtoId : M unit :=
  let sz := blen sshProtoIdStr in
  mem ← malloc;
  on_out (GrowBuffer mem sz);;
  s ← get;
  out_write (b_length (outputBuffer (tx s))) sshProtoIdStr;;
  modify (fun s => s <| tx; outputBuffer ::= (fun b => b <| b_length ::= (fun l => l +w sz) |>) |>);;
  wolfSSH_SendPacket.
End Input.

(** ** The stream of input *)

(** What a receive callback promises, with [incoming] the bytes the network holds for
    the session and [retries] a bound on the interruptions to come: it delivers a part
    of them, at least one byte, or reports a condition with a negative code. *)
Record RecvContract (cb : Z -> M (Z * bytes)) (incoming : bytes -> bytes) (retries : bytes -> nat) : Prop := {
  recv_step n s : 0 < n -> exists r d x, cb n s = (Ok (r, d), s <| app := x |>) /\
    incoming (app s) = d ++ incoming x /\ (retries x <= retries (app s))%nat /\ Forall is_byte d /\
    (0 < r <= n /\ blen d = r \/ r < 0 /\ d = [] /\ (r = WS_CBIO_ERR_ISR -> (retries x < retries (app s))%nat))
}.

Section Stream.
Context `{CTX} `{Crypto} (incoming : bytes -> bytes) (retries : bytes -> nat) (cb : Z -> M (Z * bytes)).
Context (Hcb : ioRecvCb = Some cb) (HC : RecvContract cb incoming retries).
Implicit Types (s : WOLFSSH) (b : WOLFSSH_BUFFER).

Definition inp s : WOLFSSH_BUFFER := inputBuffer (rx s).

(** The input of the session: what is buffered, and what is still to come. *)
Definition input_stream s : bytes := unread (inp s) ++ incoming (app s).

(** The session but for what receiving touches. *)
Definition rest_in s : WOLFSSH :=
  s <| rx; inputBuffer := mkBuffer 0 0 0 [] [] false |> <| mallocs := [] |> <| error := 0 |> <| connReset := false |>
    <| isClosed := false |> <| app := [] |>.

Definition grow_len (n : Z) b : WOLFSSH_BUFFER := b <| b_length ::= (fun l => l +w n) |>.

(** [d] lies past the end of what the buffer holds. *)
Record tail_written (d : bytes) b b' : Prop := {
  tw_ok : buffer_ok b';
  tw_same : b_idx b' = b_idx b /\ b_length b' = b_length b /\ bufferSz b' = bufferSz b /\ unread b' = unread b;
  tw_ok2 : buffer_ok (grow_len (blen d) b');
  tw_unread : unread (grow_len (blen d) b') = unread b ++ d
}.

Lemma write_tail d b : buffer_ok b -> blen d <= room b ->
  exists b', buffer_write (b_length b) d b = (Ok tt, b') /\ tail_written d b b'.
Proof.
  intros Hok Hroom. pose proof Hok as [O1 O2 O3 O4 O5]. pose proof (unread_length b Hok). unfold room in Hroom.
  destruct (buffer_write_ok (b_length b) d b) as (a&Hw&E); [lia|lia|]. exists (set_buffer a b). split; [exact E|].
  destruct (set_buffer_fields a b) as (F1&F2&F3&F4). pose proof (blen_wr _ _ _ _ Hw) as Ha. pose proof (blen_nonneg d).
  assert (Hst : blen (staticBuffer (set_buffer a b)) = STATIC_BUFFER_LEN).
  { unfold set_buffer. revert Ha O3. unfold buffer. destruct (dynamicFlag b) eqn:Ed; cbn; congruence. }
  assert (Hlen : b_length (set_buffer a b) +w blen d = b_length b + blen d) by (rewrite F1; apply wrap32_small; lia).
  assert (Hbuf : buffer (grow_len (blen d) (set_buffer a b)) = a) by (rewrite <- (buffer_set_buffer a b) at 2; done).
  assert (Hun : slice a (b_idx b) (b_length b - b_idx b) = unread b /\
                slice a (b_idx b) (b_length b - b_idx b + blen d) = unread b ++ d).
  { split; [|by apply slice_wr_suffix; [lia|lia|]]. pose proof (slice_wr_suffix (buffer b) d (b_idx b) (b_length b) a ltac:(lia) ltac:(lia) Hw) as K.
    assert (K2 : take (Z.to_nat (b_length b - b_idx b)) (slice a (b_idx b) (b_length b - b_idx b + blen d)) = unread b).
    { rewrite K, take_app_length'; [done|]. pose proof (unread_length b Hok) as L. unfold unread, blen in *. lia. }
    rewrite <- K2. unfold slice. rewrite take_take. f_equal. lia. }
  destruct Hun as [U1 U2]. split.
  - split; rewrite ?F1, ?F2, ?F3, ?buffer_set_buffer; try done; lia.
  - repeat split; try done. unfold unread. by rewrite buffer_set_buffer, F1, F2.
  - split; cbn -[wrap32]; rewrite ?Hbuf, ?Hlen, ?F2, ?F3; try done; lia.
  - unfold unread at 1. rewrite Hbuf. cbn -[wrap32]. rewrite Hlen, F2.
    replace (b_length b + blen d - b_idx b) with (b_length b - b_idx b + blen d) by lia. done.
Qed.

Lemma tail_room d b b' : buffer_ok b -> tail_written d b b' -> room (grow_len (blen d) b') = room b - blen d.
Proof.
  intros Hok [_ (A1 & A2 & A3 & A4) B3 B4]. pose proof (unread_length _ Hok). pose proof (unread_length _ B3) as L.
  rewrite B4, blen_app in L. unfold room. change (bufferSz (grow_len (blen d) b')) with (bufferSz b').
  change (b_idx (grow_len (blen d) b')) with (b_idx b') in L. rewrite A1 in L. lia.
Qed.

(** One call of [ReceiveData]: [d] has arrived, the code says how much of it. *)
Definition arrived (sz n : Z) (d : bytes) s s' : Prop :=
  tail_written d (inp s) (inp s') /\ incoming (app s) = d ++ incoming (app s') /\ rest_in s' = rest_in s
  /\ (retries (app s') <= retries (app s))%nat /\ Forall is_byte d /\ error s' = error s
  /\ (0 < n <= sz /\ blen d = n \/ n < 0 /\ d = []).

Lemma tail_empty b : buffer_ok b -> tail_written [] b b.
Proof.
  intros Hok. pose proof Hok as []. assert (E : grow_len (blen (@nil Z)) b = b).
  { assert (W : b_length b +w blen (@nil Z) = b_length b) by (change (blen (@nil Z)) with 0; rewrite Z.add_0_r; apply wrap32_small; lia).
    change (grow_len (blen (@nil Z)) b) with (b <| b_length := b_length b +w blen (@nil Z) |>). rewrite W. by destruct b. }
  split; rewrite ?E, ?app_nil_r; done.
Qed.

Lemma tail_trans b b1 d : tail_written [] b b1 -> forall b', tail_written d b1 b' -> tail_written d b b'.
Proof.
  intros [_ (A1 & A2 & A3 & A4) _ _] b' [B1 (C1 & C2 & C3 & C4) B3 B4].
  split; [done| |done|by rewrite B4, A4]. by rewrite C1, C2, C3, C4.
Qed.

Lemma ReceiveData_loop_run fuel sz s :
  (retries (app s) < fuel)%nat -> buffer_ok (inp s) -> 0 < sz <= room (inp s) ->
  wp (ReceiveData_loop fuel cb sz) (fun r s' => exists n d, r = inl n /\ arrived sz n d s s') s.
Proof.
  revert s. induction fuel as [|fuel IH]; intros s Hf Hok Hsz; [lia|]. cbn [ReceiveData_loop].
  destruct (recv_step _ _ _ HC sz s) as (r & d & x & E & Hin & Hr & Hby & Hcase); [lia|].
  apply wp_bind. eapply wp_run; [exact E|]. cbv beta iota. do 2 wp_step.
  assert (Hd : blen d <= room (inp s)) by (destruct Hcase as [[? ?]|(_ & -> & _)]; [lia|unfold blen; cbn; lia]).
  destruct (write_tail d (inp s) Hok Hd) as (b' & Ew & Ht).
  apply wp_bind. eapply wp_run; [unfold on_in; cbn; unfold inp in Ew; rewrite Ew; reflexivity|]. cbv beta iota.
  set (s1 := s <| app := x |> <| rx; inputBuffer := b' |>).
  assert (K : forall n s2, n = r \/ (n < 0 /\ r < 0) -> inp s2 = b' -> app s2 = x -> error s2 = error s -> rest_in s2 = rest_in s -> arrived sz n d s s2).
  { intros n s2 Hn E1 E2 E3 E4. unfold arrived. rewrite E1, E2, E3. repeat split; try done; try apply Ht.
    destruct Hcase as [[? ?]|(? & -> & _)]; [left; destruct Hn as [->|[? ?]]; [done|lia]|right]. split; [destruct Hn; lia|done]. }
  destruct (Z.ltb_spec r 0).
  2:{ apply wp_ret. exists r, d. split; [done|]. apply K; auto; reflexivity. }
  assert (Kn : forall (n : Z) (f : WOLFSSH -> WOLFSSH), n < 0 ->
    inp (f s1) = b' -> app (f s1) = x -> error (f s1) = error s -> rest_in (f s1) = rest_in s ->
    exists n' d', @inl Z Z n = inl n' /\ arrived sz n' d' s (f s1)).
  { intros n f Hn E1 E2 E3 E4. exists n, d. split; [done|]. apply K; auto. }
  destruct (Z.eqb_spec r WS_CBIO_ERR_GENERAL); [apply wp_ret; by apply (Kn _ (fun s => s))|].
  destruct (Z.eqb_spec r WS_CBIO_ERR_WANT_READ); [apply wp_ret; by apply (Kn _ (fun s => s))|].
  destruct (Z.eqb_spec r WS_CBIO_ERR_CONN_RST).
  { do 3 wp_step. by apply (Kn _ (fun s => s <| connReset := true |>)). }
  destruct (Z.eqb_spec r WS_CBIO_ERR_ISR) as [Hi|].
  { destruct Hcase as [[? ?]|(_ & -> & Hlt)]; [lia|]. specialize (Hlt Hi). pose proof (tw_same _ _ _ Ht) as (T1 & T2 & T3 & T4).
    eapply wp_mono; [apply (IH s1); [cbn; lia|apply Ht|unfold room in *; cbn; rewrite T2, T3; lia]|].
    intros r' s' (n' & d & -> & A1 & A2 & A3 & A4 & A5 & A6 & A7). exists n', d. split; [done|].
    split; [by eapply tail_trans|]. cbn in A2. rewrite Hin. cbn. split; [done|]. split; [by rewrite A3|].
    split; [cbn in A4; lia|]. split; [done|]. split; [by rewrite A6|done]. }
  destruct (Z.eqb_spec r WS_CBIO_ERR_CONN_CLOSE).
  { do 3 wp_step. by apply (Kn _ (fun s => s <| isClosed := true |>)). }
  destruct (Z.eqb_spec r WS_CBIO_ERR_TIMEOUT); [apply wp_ret; by apply (Kn _ (fun s => s))|].
  apply wp_ret. by apply (Kn _ (fun s => s)).
Qed.


Lemma ReceiveData_run sz s :
  (retries (app s) < io_fuel)%nat -> buffer_ok (inp s) -> 0 < sz <= room (inp s) ->
  wp (ReceiveData sz) (fun r s' => exists n d, r = inl n /\ arrived sz n d s s') s.
Proof. unfold ReceiveData. rewrite Hcb. apply ReceiveData_loop_run. Qed.

(** What asking for input leaves: the stream as it was, the rest of the session too. *)
Record fed (s s' : WOLFSSH) : Prop := {
  fed_stream : input_stream s' = input_stream s;
  fed_ok : buffer_ok (inp s');
  fed_rest : rest_in s' = rest_in s;
  fed_retries : (retries (app s') <= retries (app s))%nat
}.

Lemma fed_refl s : buffer_ok (inp s) -> fed s s.
Proof. by split. Qed.
Lemma fed_trans s1 s2 s3 : fed s1 s2 -> fed s2 s3 -> fed s1 s3.
Proof. intros [A1 A2 A3 A4] [B1 B2 B3 B4]. split; [congruence|done|congruence|lia]. Qed.

(** Taking what has arrived into the buffer. *)
Lemma arrived_fed sz n d s s' : arrived sz n d s s' -> 0 < n -> fed s (s' <| rx; inputBuffer ::= grow_len n |>) /\ blen d = n.
Proof.
  intros (T & Hin & Hr & Hre & _ & _ & [[Hn Hd]|[? _]]) Hpos; [|lia]. split; [|done]. subst n.
  assert (E : inp (s' <| rx; inputBuffer ::= grow_len (blen d) |>) = grow_len (blen d) (inp s')) by reflexivity.
  split; [unfold input_stream|..]; rewrite ?E.
  - rewrite (tw_unread _ _ _ T), Hin. by rewrite app_assoc.
  - apply T.
  - rewrite <- Hr. reflexivity.
  - exact Hre.
Qed.

Lemma arrived_nothing sz n d s s' : arrived sz n d s s' -> n < 0 -> fed s s'.
Proof.
  intros (T & Hin & Hr & Hre & _ & _ & [[? _]|[_ ->]]) Hneg; [lia|]. pose proof (tw_same _ _ _ T) as (_ & _ & _ & U).
  split; [|apply T|done|done]. unfold input_stream. by rewrite U, Hin.
Qed.

Lemma fed_error s s' e : fed s s' -> fed s (s' <| error := e |>).
Proof. intros [A1 A2 A3 A4]. split; [exact A1|exact A2|rewrite <- A3; reflexivity|exact A4]. Qed.

Definition no_input (s s' : WOLFSSH) (e : Z) : Prop :=
  e = WS_FATAL_ERROR /\ (error s' = WS_WANT_READ \/ error s' = WS_SOCKET_ERROR_E \/ error s' = WS_MEMORY_E).

Definition loop_fed (size : Z) (s : WOLFSSH) (r : unit + Z) (s' : WOLFSSH) : Prop :=
  fed s s' /\ match r with
              | inl _ => blen (unread (inp s')) = blen (unread (inp s)) + size /\ error s' = error s
              | inr e => no_input s s' e
              end.

Lemma GetInputData_loop_run fuel size s :
  size <= Z.of_nat fuel -> (retries (app s) < io_fuel)%nat -> buffer_ok (inp s) -> 0 < size <= room (inp s) -> size < 2 ^ 32 ->
  wp (GetInputData_loop fuel size) (loop_fed size s) s.
Proof.
  revert size s. induction fuel as [|fuel IH]; intros size s Hf Hr Hok Hsz H32; [lia|]. cbn [GetInputData_loop].
  apply wp_bind. eapply wp_mono; [by apply ReceiveData_run|]. intros r s1 (n & d & -> & A). cbv beta iota.
  assert (F : forall e, n < 0 -> (e = WS_SOCKET_ERROR_E \/ e = WS_WANT_READ) -> wp (fatal e) (loop_fed size s) s1).
  { intros e Hn He. unfold fatal. do 3 wp_step. split; [by apply fed_error, (arrived_nothing _ _ _ _ _ A)|].
    split; [done|]. cbn. tauto. }
  destruct (Z.eqb_spec n (-1)); [apply F; [lia|auto]|]. destruct (Z.eqb_spec n WS_WANT_READ) as [->|]; [apply F; [clia|auto]|].
  destruct (Z.leb_spec 0 n).
  2:{ apply F; [lia|auto]. }
  assert (Hn : 0 < n <= size) by (destruct A as (_ & _ & _ & _ & _ & _ & [[? _]|[? _]]); lia).
  destruct (arrived_fed _ _ _ _ _ A) as [Fd Hd]; [lia|]. pose proof (tw_unread _ _ _ (proj1 A)) as U. rewrite Hd in U.
  unfold input_add. do 2 wp_step. set (s2 := s1 <| rx; inputBuffer ::= grow_len n |>) in *.
  change (wp (let size' := size -w n in if truthy size' then GetInputData_loop fuel size' else mret tt) (loop_fed size s) s2).
  cbv zeta. rewrite wrap32_small by lia.
  assert (Hu2 : blen (unread (inp s2)) = blen (unread (inp s)) + n) by (unfold s2, inp in *; cbn; rewrite U, blen_app; lia).
  assert (He : error s2 = error s) by apply A.
  unfold truthy. destruct (Z.eqb_spec (size - n) 0) as [E|]; cbn [negb].
  - apply wp_ret. split; [done|]. split; [lia|done].
  - assert (Hroom : room (inp s2) = room (inp s) - n).
    { rewrite <- Hd. change (inp s2) with (grow_len n (inp s1)). rewrite <- Hd. apply tail_room; [done|apply A]. }
    eapply wp_mono; [apply IH; [lia|destruct Fd; cbn in *; lia|apply Fd|lia|lia]|].
    intros r s3 [F3 K]. split; [by eapply fed_trans|]. destruct r; [destruct K; split; [lia|congruence]|exact K].
Qed.

Lemma GetInputData_run size s :
  buffer_ok (inp s) -> 0 <= size < 2 ^ 32 -> blen (unread (inp s)) + size < 2 ^ 32 ->
  size <= Z.of_nat io_fuel -> (retries (app s) < io_fuel)%nat ->
  wp (GetInputData size) (fun r s' => fed s s' /\
    match r with
    | inl _ => size <= blen (unread (inp s')) /\ error s' = if error s =? WS_WANT_READ then 0 else error s
    | inr e => no_input s s' e
    end) s.
Proof.
  intros Hok Hsz Hfit Hf Hr. unfold GetInputData. do 4 wp_step.
  set (s0 := if error s =? WS_WANT_READ then s <| error := 0 |> else s).
  assert (F0 : fed s s0 /\ inp s0 = inp s /\ app s0 = app s /\ error s0 = if error s =? WS_WANT_READ then 0 else error s).
  { unfold s0. destruct (error s =? WS_WANT_READ); (split; [|done]); [by apply fed_error, fed_refl|by apply fed_refl]. }
  destruct F0 as (F0 & E1 & E2 & E3). fold (inp s0). rewrite E1. rewrite used_small by done. pose proof (unread_length _ Hok) as L. rewrite <- L.
  destruct (Z.leb_spec size (blen (unread (inp s)))) as [Hle|Hgt].
  { apply wp_ret. split; [done|]. split; [by rewrite E1|done]. }
  pose proof (blen_nonneg (unread (inp s))). rewrite wrap32_small by lia.
  set (need := size - blen (unread (inp s))) in *.
  unfold grow_input. do 2 apply wp_bind. eapply wp_run; [apply malloc_run|]. cbv beta iota.
  set (s1 := s0 <| mallocs := tail (mallocs s0) |>). set (mem := default true (head (mallocs s0))).
  assert (Ein : inp s1 = inp s) by (change (inp s1) with (inp s0); exact E1).
  pose proof (GrowBuffer_ok mem need (inp s1) ltac:(by rewrite Ein) ltac:(lia)) as HG.
  assert (Hfit1 : need + (b_length (inp s1) - b_idx (inp s1)) < 2 ^ 32) by (change (inp s1) with (inp s0); rewrite E1; lia).
  specialize (HG Hfit1). apply wp_code. change (inputBuffer (rx s1)) with (inp s1).
  assert (Fs1 : fed s s1) by (destruct F0 as [A1 A2 A3 A4]; split; [exact A1|exact A2|rewrite <- A3; reflexivity|exact A4]).
  destruct (GrowBuffer mem need (inp s1)) as [[[]|e|] b'] eqn:EG.
  - eapply wp_run; [unfold on_in; change (inputBuffer (rx s1)) with (inp s1); rewrite EG; reflexivity|]. cbv beta iota.
    destruct HG as (G1 & G2 & G3 & _). change (0 <? 0) with false. cbv iota. set (s2 := s1 <| rx; inputBuffer := b' |>).
    assert (F2 : fed s s2).
    { destruct Fs1 as [A1 A2 A3 A4]. split; [|exact G1|rewrite <- A3; reflexivity|exact A4].
      rewrite <- A1. unfold input_stream. change (inp s2) with b'. by rewrite G2. }
    eapply wp_mono; [apply GetInputData_loop_run; [lia|change (app s2) with (app s0); rewrite E2; lia|done|split; [lia|done]|lia]|].
    intros r s3 [F3 K]. split; [by eapply fed_trans|]. destruct r; [|exact K]. destruct K as [K1 K2].
    change (inp s2) with b' in K1. rewrite G2, Ein in K1. split; [lia|]. rewrite K2. exact E3.
  - destruct HG as (-> & -> & ->).
    eapply wp_run; [unfold on_in; change (inputBuffer (rx s1)) with (inp s1); rewrite EG; reflexivity|]. cbv beta iota.
    change (WS_MEMORY_E <? 0) with true. cbv iota. unfold fatal. do 3 wp_step. split; [|split; [done|cbn; tauto]].
    apply fed_error. destruct Fs1 as [A1 A2 A3 A4]. split; [exact A1|exact A2|rewrite <- A3; reflexivity|exact A4].
  - done.
Qed.


(** ** Lines *)

(** The bytes of a line: neither its end nor a NUL. *)
Definition in_line (c : Z) : Prop := c <> 0 /\ c <> 10.

Lemma find_lf_app line tail n : Forall in_line line -> (length line < n)%nat ->
  find_lf (line ++ 10 :: tail) n = Some (length line).
Proof.
  intros Hl. revert n. induction Hl as [|c line [Hc1 Hc2] _ IH]; intros [|n] Hn; cbn in *; try lia; [done|].
  rewrite (proj2 (Z.eqb_neq _ _) Hc1), (proj2 (Z.eqb_neq _ _) Hc2), IH by lia. done.
Qed.

Lemma find_lf_none line rest n : Forall in_line line -> (n <= length line)%nat -> find_lf (line ++ rest) n = None.
Proof.
  intros Hl. revert n. induction Hl as [|c line [Hc1 Hc2] _ IH]; intros [|n] Hn; cbn in *; try lia; [done|done|].
  rewrite (proj2 (Z.eqb_neq _ _) Hc1), (proj2 (Z.eqb_neq _ _) Hc2), IH by lia. done.
Qed.

(** The buffer starts with its unread bytes. *)
Lemma buffer_unread b : buffer_ok b -> b_idx b = 0 -> exists r, buffer b = unread b ++ r.
Proof.
  intros Hok Hi. pose proof Hok as []. exists (drop (Z.to_nat (b_length b)) (buffer b)). unfold unread. rewrite Hi, Z.sub_0_r.
  apply slice_split. lia.
Qed.

(** The terminator of the line [line ++ CR ++ LF] that the input starts with. *)
Lemma line_end_found b line tail : buffer_ok b -> b_idx b = 0 -> Forall in_line line ->
  unread b = line ++ 13 :: 10 :: tail -> line_end b = Some (blen line).
Proof.
  intros Hok Hi Hl Hu. destruct (buffer_unread b Hok Hi) as [r Hb]. pose proof (unread_length b Hok) as L.
  rewrite Hi, Z.sub_0_r in L. unfold line_end.
  assert (E : buffer b = (line ++ [13]) ++ 10 :: (tail ++ r)) by (rewrite Hb, Hu, <- !app_assoc; done).
  assert (Hlen : b_length b = blen line + 2 + blen tail) by (rewrite <- L, Hu, blen_app, !blen_cons; lia).
  pose proof (blen_nonneg tail). pose proof (blen_nonneg line).
  rewrite E, find_lf_app; [|apply Forall_app; split; [done|by repeat constructor]|rewrite length_app; cbn; unfold blen in *; lia].
  rewrite length_app. cbn [length]. replace (Z.of_nat (length line + 1)) with (blen line + 1) by (unfold blen; lia).
  destruct (Z.ltb_spec 0 (blen line + 1)); [|lia]. cbn [andb]. replace (blen line + 1 - 1) with (blen line + 0) by lia.
  rewrite <- app_assoc, rd_app_r by lia. change (rd _ 0) with (Some 13). cbn. f_equal. lia.
Qed.

Lemma line_end_none b line rest tail : buffer_ok b -> b_idx b = 0 -> Forall in_line line ->
  unread b ++ rest = line ++ 13 :: 10 :: tail -> blen (unread b) < blen line + 2 -> line_end b = None.
Proof.
  intros Hok Hi Hl Hu Hlen. destruct (buffer_unread b Hok Hi) as [r Hb]. pose proof (unread_length b Hok) as L.
  rewrite Hi, Z.sub_0_r in L. unfold line_end. rewrite Hb.
  assert (Hf : Forall in_line (unread b)).
  { assert (E : unread b = take (length (unread b)) (line ++ [13])).
    { rewrite <- (take_app_length (unread b) rest) at 1. rewrite Hu.
      replace (line ++ 13 :: 10 :: tail) with ((line ++ [13]) ++ 10 :: tail) by (by rewrite <- app_assoc).
      apply take_app_le. rewrite length_app. unfold blen in Hlen. cbn [length]. lia. }
    rewrite E. apply Forall_take, Forall_app. split; [done|]. repeat constructor; done. }
  rewrite find_lf_none; [done|done|]. unfold blen in L. lia.
Qed.

Definition line_errors (e : Z) : Prop := e = WS_WANT_READ \/ e = WS_SOCKET_ERROR_E \/ e = WS_MEMORY_E.

Lemma grow_input_run sz s : buffer_ok (inp s) -> 0 <= sz -> sz + (b_length (inp s) - b_idx (inp s)) < 2 ^ 32 ->
  wp (grow_input sz) (fun r s' => exists g, r = inl g /\ fed s s' /\
    (g = WS_SUCCESS /\ unread (inp s') = unread (inp s) /\ sz <= room (inp s') /\ b_idx (inp s') = 0 \/ g = WS_MEMORY_E)) s.
Proof.
  intros Hok Hsz Hfit. unfold grow_input. apply wp_bind. eapply wp_run; [apply malloc_run|]. cbv beta iota. apply wp_code.
  set (mem := default true (head (mallocs s))). set (s1 := s <| mallocs := tail (mallocs s) |>).
  assert (F1 : fed s s1) by (split; [done|exact Hok|reflexivity|done]).
  pose proof (GrowBuffer_ok mem sz (inp s1) Hok Hsz Hfit) as HG. change (inp s1) with (inp s) in *.
  destruct (GrowBuffer mem sz (inp s)) as [[[]|e|] b'] eqn:EG; [| |done].
  - eapply wp_run; [unfold on_in; change (inputBuffer (rx s1)) with (inp s); rewrite EG; reflexivity|]. cbv beta iota.
    destruct HG as (G1 & G2 & G3 & G4 & G5 & _). exists 0. split; [done|]. split; [|left; done].
    destruct F1 as [A1 A2 A3 A4]. split; [|exact G1|rewrite <- A3; reflexivity|exact A4].
    unfold input_stream. change (inp (s1 <| rx; inputBuffer := b' |>)) with b'. by rewrite G2.
  - destruct HG as (_ & -> & ->).
    eapply wp_run; [unfold on_in; change (inputBuffer (rx s1)) with (inp s); rewrite EG; reflexivity|]. cbv beta iota.
    exists WS_MEMORY_E. split; [done|]. split; [|by right]. destruct F1 as [A1 A2 A3 A4]. split; [exact A1|exact A2|rewrite <- A3; reflexivity|exact A4].
Qed.

Definition line_post (line tail : bytes) s (r : Z + Z) s' : Prop :=
  fed s s' /\ match r with
              | inl eol => eol = blen line /\ b_idx (inp s') = 0 /\ exists t, unread (inp s') = line ++ 13 :: 10 :: t
              | inr e => line_errors e
              end.

Lemma line_post_from line tail s s1 r s' : fed s s1 -> line_post line tail s1 r s' -> line_post line tail s r s'.
Proof. intros F [F1 K]. split; [by eapply fed_trans|done]. Qed.

Lemma GetInputLine_loop_run fuel line tail s :
  blen line + 2 - blen (unread (inp s)) < Z.of_nat fuel -> (0 < fuel)%nat -> (retries (app s) < io_fuel)%nat ->
  buffer_ok (inp s) -> b_idx (inp s) = 0 -> Forall in_line line -> blen line + 2 <= WOLFSSH_PROTOID_LIMIT ->
  input_stream s = line ++ 13 :: 10 :: tail ->
  wp (GetInputLine_loop fuel) (line_post line tail s) s.
Proof.
  revert s. induction fuel as [|fuel IH]; intros s Hf H1 Hr Hok Hi Hl Hcap Hs; [lia|]. cbn [GetInputLine_loop]. do 2 wp_step.
  change (inputBuffer (rx s)) with (inp s). cbv zeta.
  pose proof (unread_length _ Hok) as L. rewrite Hi, Z.sub_0_r in L. pose proof (blen_nonneg line).
  destruct (Z.lt_ge_cases (blen (unread (inp s))) (blen line + 2)) as [Hlt|Hge].
  2:{ assert (Hu : exists t, unread (inp s) = line ++ 13 :: 10 :: t).
      { unfold input_stream in Hs. exists (drop (length line + 2) (unread (inp s))).
        rewrite <- (take_drop (length line + 2) (unread (inp s))) at 1.
        assert (E : take (length line + 2) (unread (inp s)) = line ++ [13; 10]); [|by rewrite E, <- app_assoc].
        assert (E2 : take (length line + 2) (unread (inp s) ++ incoming (app s)) = take (length line + 2) (unread (inp s)))
          by (apply take_app_le; unfold blen in *; lia).
        rewrite <- E2, Hs. rewrite firstn_app_2. done. }
      destruct Hu as [t Hu]. rewrite (line_end_found _ _ t) by done. apply wp_ret. split; [by apply fed_refl|]. eauto. }
  rewrite (line_end_none _ line (incoming (app s)) tail) by done.
  apply wp_bind, wp_guard; intros Hcap'; [exfalso; apply Z.leb_le in Hcap'; clia|]. clear Hcap'.
  apply wp_bind. eapply wp_mono; [apply grow_input_run; [done|clia|clia]|].
  intros r1 s1 (g & -> & F1 & [(Hg & U1 & R1 & I1)|Hg]); subst g; cbv beta iota.
  2:{ apply wp_bind, wp_guard; intros; [|done]. split; [done|]. right. by right. }
  apply wp_bind, wp_guard; intros; [done|]. set (inSz := WOLFSSH_PROTOID_LIMIT - b_length (inp s)) in *.
  apply wp_bind. eapply wp_mono; [apply ReceiveData_run; [destruct F1; lia|apply F1|clia]|].
  intros r2 s2 (n & d & -> & A). cbv beta iota.
  assert (Herr : forall e s3, line_errors e -> fed s s3 -> line_post line tail s (inr e) s3) by (by intros).
  destruct (Z.eqb_spec n WS_WANT_READ) as [->|].
  { apply wp_bind, wp_guard; intros; [|done]. apply Herr; [by left|]. eapply fed_trans; [done|].
    eapply arrived_nothing; [exact A|clia]. }
  apply wp_bind, wp_guard; intros; [done|]. destruct (Z.leb_spec n 0).
  { apply wp_bind, wp_guard; intros; [|done]. apply Herr; [right; by left|]. eapply fed_trans; [done|].
    eapply arrived_nothing; [exact A|]. destruct A as (_ & _ & _ & _ & _ & _ & [[? _]|[? _]]); lia. }
  apply wp_bind, wp_guard; intros; [done|].
  assert (Hn : 0 < n <= inSz) by (destruct A as (_ & _ & _ & _ & _ & _ & [[? _]|[? _]]); lia).
  destruct (Z.ltb_spec inSz n); [lia|]. apply wp_bind, wp_guard; intros; [done|].
  unfold input_add. do 2 wp_step. destruct (arrived_fed _ _ _ _ _ A) as [F2 Hd]; [lia|]. set (s3 := s2 <| rx; inputBuffer ::= _ |>) in *.
  pose proof (tw_unread _ _ _ (proj1 A)) as U2. rewrite Hd in U2. change (grow_len n (inp s2)) with (inp s3) in U2.
  assert (F3 : fed s s3) by (by eapply fed_trans).
  eapply wp_mono; [apply IH|intros r s'; by apply line_post_from]; try done.
  - rewrite U2, U1, blen_app. lia.
  - lia.
  - destruct F3. lia.
  - apply F3.
  - change (inp s3) with (grow_len n (inp s2)). destruct (tw_same _ _ _ (proj1 A)) as (T & _). cbn. by rewrite T.
  - by rewrite (fed_stream _ _ F3).
Qed.

Lemma GetInputLine_run line tail s :
  (retries (app s) < io_fuel)%nat -> buffer_ok (inp s) -> Forall in_line line -> blen line + 2 <= WOLFSSH_PROTOID_LIMIT ->
  input_stream s = line ++ 13 :: 10 :: tail ->
  wp GetInputLine (line_post line tail s) s.
Proof.
  intros Hr Hok Hl Hcap Hs. unfold GetInputLine. pose proof Hok as []. pose proof (blen_nonneg line).
  apply wp_bind. eapply wp_mono; [apply grow_input_run; [done|clia|clia]|].
  intros r1 s1 (g & -> & F1 & [(Hg & U1 & R1 & I1)|Hg]); subst g; cbv beta iota.
  2:{ apply wp_bind, wp_guard; intros; [|done]. split; [done|]. right. by right. }
  apply wp_bind, wp_guard; intros; [done|].
  eapply wp_mono; [apply GetInputLine_loop_run|intros r s'; by apply line_post_from]; try done.
  - pose proof (blen_nonneg (unread (inp s1))). clia.
  - lia.
  - destruct F1; lia.
  - apply F1.
  - by rewrite (fed_stream _ _ F1).
Qed.

(** ** The peer's version *)

(** A version line as [ValidateProtoId] takes it. *)
Lemma valid_line id : ValidateProtoId (id ++ [13; 10]) = Ok tt ->
  9 <= blen id /\ blen id + 2 <= WOLFSSH_PROTOID_LIMIT /\ Forall in_line id /\ Forall is_byte id
  /\ exists v, id = sshProtoIdPrefix ++ v.
Proof.
  unfold ValidateProtoId. cbv zeta. rewrite !blen_app. change (blen [13; 10]) with 2.
  set (no_dash := fix no_dash (b : bytes) : bool := match b with [] => true | c :: r => if c =? 32 then true else if c =? 45 then false else no_dash r end).
  destruct (Z.ltb_spec (blen id + 2) SSH_PROTO_MIN); [done|]. destruct (Z.ltb_spec WOLFSSH_PROTOID_LIMIT (blen id + 2)); [done|]. cbn [orb].
  destruct (bytes_eqb (slice (id ++ [13; 10]) 0 SSH_PROTO_SZ) sshProtoIdPrefix) eqn:Ep; [|done]. cbn [negb].
  destruct (_ =? 32); [done|]. destruct (negb _ || negb _); [done|].
  destruct (forallb _ _) eqn:Ef; [|done]. intros _. cbn [negb] in *.
  assert (Eb : slice (id ++ [13; 10]) 0 (blen id + 2 - SSH_PROTO_EOL_SZ) = id).
  { replace (blen id + 2 - SSH_PROTO_EOL_SZ) with (blen id) by clia. apply slice_prefix. }
  rewrite Eb in Ef. apply forallb_True in Ef || idtac. rewrite List.forallb_forall in Ef.
  split; [clia|]. split; [lia|]. split; [|split].
  - apply List.Forall_forall. intros c Hc. specialize (Ef c Hc). apply andb_true_iff in Ef as [E1%Z.leb_le E2%Z.leb_le]. unfold in_line. lia.
  - apply List.Forall_forall. intros c Hc. specialize (Ef c Hc). apply andb_true_iff in Ef as [E1%Z.leb_le E2%Z.leb_le]. unfold is_byte. lia.
  - apply bytes_eqb_spec in Ep. exists (drop 8 id). rewrite <- Ep. rewrite <- (take_drop 8 id) at 1. f_equal.
    unfold slice. rewrite drop_0. change (Z.to_nat SSH_PROTO_SZ) with 8%nat. symmetry. apply take_app_le. unfold blen in *. clia.
Qed.

Lemma starts_with_run b line r lit v : buffer b = line ++ r -> line = lit ++ v -> starts_with b lit = true.
Proof.
  intros E ->. unfold starts_with. apply bytes_eqb_spec. rewrite E, <- app_assoc. apply slice_prefix.
Qed.

(** The version line of the peer and what follows it. *)
Definition proto_post (id tail : bytes) s (r : unit + Z) s' : Prop :=
  match r with
  | inl _ => peerProtoId (kex s') = Some (wstring id) /\ input_stream s' = tail
             /\ (if side =? WOLFSSH_ENDPOINT_SERVER then clientState s' = CLIENT_VERSION_DONE else serverState s' = SERVER_VERSION_DONE)
  | inr e => line_errors e /\ (e = WS_WANT_READ -> input_stream s' = input_stream s)
  end.

Lemma DoProtoId_loop_run fuel allow id tail s :
  (0 < fuel)%nat -> (retries (app s) < io_fuel)%nat -> buffer_ok (inp s) ->
  ValidateProtoId (id ++ [13; 10]) = Ok tt -> input_stream s = id ++ 13 :: 10 :: tail ->
  wp (DoProtoId_loop fuel allow) (line_post id tail s) s.
Proof.
  intros Hf Hr Hok Hv Hs. destruct fuel as [|fuel]; [lia|]. cbn [DoProtoId_loop].
  pose proof (valid_line id Hv) as (H9 & Hcap & Hl & _ & v & Hid).
  apply wp_bind. eapply wp_mono; [by apply (GetInputLine_run id tail)|]. intros [eol|e] s1 [F K]; [|done]. destruct K as (-> & Hi & t & Hu).
  do 2 wp_step. change (inputBuffer (rx s1)) with (inp s1). cbv zeta.
  destruct (buffer_unread (inp s1) (fed_ok _ _ F) Hi) as [r Hb]. pose proof (unread_length _ (fed_ok _ _ F)) as L.
  rewrite Hu, blen_app, !blen_cons, Hi in L. pose proof (blen_nonneg t).
  rewrite (proj2 (Z.leb_le 4 (b_length (inp s1)))) by lia. cbn [andb].
  rewrite (starts_with_run (inp s1) id (13 :: 10 :: t ++ r) (str "SSH-") (str "2.0-" ++ v)).
  - apply wp_ret. split; [done|]. eauto.
  - rewrite Hb, Hu, <- app_assoc. done.
  - by rewrite Hid.
Qed.

(** Cutting the line off: its end becomes a NUL, and the index moves past it. *)
Lemma cut_line b id t : buffer_ok b -> b_idx b = 0 -> unread b = id ++ 13 :: 10 :: t -> 9 <= blen id ->
  Forall in_line id -> exists b1, buffer_write (blen id) [0] b = (Ok tt, b1) /\ cstr (buffer b1) = id /\
    let b2 := b1 <| b_idx ::= (fun i => i +w (blen id + 2)) |> in
    exists b3, ShrinkBuffer false b2 = (Ok tt, b3) /\ buffer_ok b3 /\ unread b3 = t.
Proof.
  intros Hok Hi Hu H9 Hl. destruct (buffer_unread b Hok Hi) as [r Hb]. pose proof (unread_length _ Hok) as L.
  rewrite Hu, blen_app, !blen_cons, Hi in L. pose proof (blen_nonneg t). pose proof Hok as [O1 O2 O3 O4 O5].
  assert (Hw : wr (buffer b) (blen id) [0] = Some (id ++ [0] ++ 10 :: t ++ r)).
  { rewrite Hb, Hu, <- app_assoc. apply (wr_app id [13] (10 :: t ++ r) [0]). done. }
  destruct (buffer_write_ok (blen id) [0] b) as (a & Hw' & E); [apply blen_nonneg|change (blen [0]) with 1; lia|].
  rewrite Hw in Hw'. injection Hw' as <-. set (a := id ++ [0] ++ 10 :: t ++ r) in *. exists (set_buffer a b). split; [exact E|].
  rewrite buffer_set_buffer. split.
  { unfold a. clear -Hl. induction Hl as [|c id [Hc _] _ IH]; [done|]. cbn. rewrite (proj2 (Z.eqb_neq _ _) Hc). by f_equal. }
  destruct (set_buffer_fields a b) as (F1 & F2 & F3 & F4). pose proof (blen_wr _ _ _ _ Hw) as Ha. cbv zeta.
  set (b2 := (set_buffer a b) <| b_idx ::= (fun i => i +w (blen id + 2)) |>).
  assert (E1 : b_idx b2 = blen id + 2) by (change (b_idx b2) with (b_idx (set_buffer a b) +w (blen id + 2)); rewrite F2, Hi; apply wrap32_small; lia).
  assert (E2 : b_length b2 = b_length b) by exact F1. assert (E3 : bufferSz b2 = bufferSz b) by exact F3.
  assert (E4 : dynamicFlag b2 = dynamicFlag b) by exact F4. assert (E5 : buffer b2 = a) by exact (buffer_set_buffer a b).
  assert (Hok2 : buffer_ok b2).
  { split; rewrite ?E1, ?E2, ?E3, ?E5; try lia. change (staticBuffer b2) with (staticBuffer (set_buffer a b)).
    unfold set_buffer. revert O3 Ha. unfold buffer. destruct (dynamicFlag b) eqn:Ed; cbn; congruence. }
  assert (U2 : unread b2 = t).
  { unfold unread. rewrite E1, E2, E5. replace (b_length b - (blen id + 2)) with (blen t) by lia. unfold a.
    replace (id ++ [0] ++ 10 :: t ++ r) with ((id ++ [0; 10]) ++ t ++ r) by (by rewrite <- app_assoc).
    replace (blen id + 2) with (blen (id ++ [0; 10])) by (by rewrite blen_app). apply slice_app_here. }
  destruct (ShrinkBuffer_ok false b2 Hok2) as (b3 & Es & Hok3 & K).
  { destruct (dynamicFlag b) eqn:Ed; [left; by rewrite E4|right; left]. rewrite E1, E2.
    assert (bufferSz b = STATIC_BUFFER_LEN) by (rewrite <- O3, <- O5; unfold buffer; by rewrite Ed). clia. }
  exists b3. split; [exact Es|]. split; [done|]. destruct K as [-> _]. exact U2.
Qed.

Lemma DoProtoId_run id tail s :
  (retries (app s) < io_fuel)%nat -> buffer_ok (inp s) ->
  ValidateProtoId (id ++ [13; 10]) = Ok tt -> input_stream s = id ++ 13 :: 10 :: tail ->
  wp DoProtoId (proto_post id tail s) s.
Proof.
  intros Hr Hok Hv Hs. unfold DoProtoId. pose proof (valid_line id Hv) as (H9 & Hcap & Hl & _ & v & Hid). cbv zeta.
  apply wp_bind. eapply wp_mono; [apply (DoProtoId_loop_run _ _ id tail); [lia|done..]|].
  intros [eol|e] s1 [F K]; [|split; [done|intros _; apply F]]. destruct K as (-> & Hi & t & Hu).
  destruct (buffer_unread (inp s1) (fed_ok _ _ F) Hi) as [r Hb].
  destruct (cut_line (inp s1) id t (fed_ok _ _ F) Hi Hu H9 Hl) as (b1 & Ew & Ec & b3 & Es & Hok3 & U3).
  assert (Ht : t ++ incoming (app s1) = tail).
  { pose proof (fed_stream _ _ F) as E. rewrite Hs in E. unfold input_stream in E. rewrite Hu, <- app_assoc in E.
    apply app_inv_head in E. by injection E. }
  assert (Hst1 : forall lit, (exists v, id = lit ++ v) -> starts_with (inp s1) lit = true).
  { intros lit [w Hw]. eapply (starts_with_run _ id (13 :: 10 :: t ++ r)); [by rewrite Hb, Hu, <- app_assoc|exact Hw]. }
  pose proof (unread_length _ (fed_ok _ _ F)) as L. rewrite Hu, blen_app, !blen_cons, Hi in L. pose proof (blen_nonneg t).
  do 2 wp_step. change (inputBuffer (rx s1)) with (inp s1).
  assert (Heol : eol_size (inp s1) (blen id) = 2).
  { unfold eol_size. rewrite Hb, Hu, <- app_assoc. pose proof (rd_app_r id (13 :: 10 :: t ++ r) 0 ltac:(lia)) as R.
    rewrite Z.add_0_r in R. change ((13 :: 10 :: t) ++ r) with (13 :: 10 :: t ++ r). by rewrite R. }
  rewrite Heol. rewrite (proj2 (Z.leb_le SSH_PROTO_SZ (b_length (inp s1)))) by clia. rewrite (Hst1 sshProtoIdPrefix (ex_intro _ v Hid)). cbn [andb].
  do 2 wp_step. set (s2 := if side =? WOLFSSH_ENDPOINT_SERVER then _ else _).
  assert (E2 : inp s2 = inp s1 /\ app s2 = app s1 /\ clientOpenSSH s2 = clientOpenSSH s1 /\
    (if side =? WOLFSSH_ENDPOINT_SERVER then clientState s2 = CLIENT_VERSION_DONE else serverState s2 = SERVER_VERSION_DONE))
    by (unfold s2; destruct (side =? WOLFSSH_ENDPOINT_SERVER); done).
  destruct E2 as (Ei & Ea & Eo & Est).
  assert (Hopen : wp (when (starts_with (inp s1) OpenSSH) (modify (fun s => s <| clientOpenSSH := true |>)))
    (fun r s3 => r = inl tt /\ inp s3 = inp s1 /\ app s3 = app s1 /\
       (if side =? WOLFSSH_ENDPOINT_SERVER then clientState s3 = CLIENT_VERSION_DONE else serverState s3 = SERVER_VERSION_DONE)) s2).
  { apply wp_when; intros _; [apply wp_modify|]; (split; [done|]); by rewrite <- Ei, <- Ea. }
  apply wp_bind. eapply wp_mono; [exact Hopen|]. intros r3 s3 (-> & Ei3 & Ea3 & Est3). cbv beta iota.
  apply wp_bind. eapply wp_run; [unfold on_in; change (inputBuffer (rx s3)) with (inp s3); rewrite Ei3, Ew; reflexivity|]. cbv beta iota.
  do 2 wp_step. cbv zeta. change (buffer (inputBuffer (rx (s3 <| rx; inputBuffer := b1 |>)))) with (buffer b1). rewrite Ec.
  apply wp_bind. eapply wp_run; [apply malloc_run|]. cbv beta iota.
  set (s4 := s3 <| rx; inputBuffer := b1 |> <| mallocs := _ |>).
  assert (Hkex : wp (if negb (default true (head (mallocs (s3 <| rx; inputBuffer := b1 |>)))) then mret WS_MEMORY_E
                     else modify (fun s => s <| kex; peerProtoId := Some (wstring id) |>);; mret WS_SUCCESS)
    (fun r s5 => inp s5 = b1 /\ app s5 = app s1 /\
       (if side =? WOLFSSH_ENDPOINT_SERVER then clientState s5 = CLIENT_VERSION_DONE else serverState s5 = SERVER_VERSION_DONE)
       /\ (r = inl WS_MEMORY_E \/ r = inl WS_SUCCESS /\ peerProtoId (kex s5) = Some (wstring id))) s4).
  { destruct (negb _); [apply wp_ret|do 2 wp_step; apply wp_ret]; (split; [done|]; split; [exact Ea3|]; split; [exact Est3|]); auto. }
  apply wp_bind. eapply wp_mono; [exact Hkex|]. intros r5 s5 (Ei5 & Ea5 & Est5 & Hr5).
  destruct Hr5 as [->|[-> Hp]]; cbv beta iota; unfold input_skip; do 2 wp_step;
    (apply wp_bind; eapply wp_run; [unfold on_in; cbn [inputBuffer rx]; change (inputBuffer (rx (s5 <| rx; inputBuffer ::= _ |>))) with ((inp s5) <| b_idx ::= (fun i => i +w (blen id + 2)) |>); rewrite Ei5, Es; reflexivity|]; cbv beta iota).
  - apply wp_ret_code; [done|]. intros _. split; [right; by right|done].
  - apply wp_ret_code; [intros _|done]. split; [exact Hp|]. split; [|exact Est5].
    unfold input_stream. change (inp _) with b3. rewrite U3. change (app _) with (app s5). by rewrite Ea5.
Qed.


(** C25: Asking for [size] bytes of input ends, whatever sizes the network delivers them in: with
    at least as many unread, or with the session waiting or failed ([error] says which). Either way
    the stream of input is kept: what is buffered followed by what the network still holds is
    what it was, and nothing else of the session has changed. *)
Theorem GetInputData_spec (size : Z) (s : WOLFSSH) :
  buffer_ok (inp s) -> 0 <= size < 2 ^ 32 -> blen (unread (inp s)) + size < 2 ^ 32 ->
  size <= Z.of_nat io_fuel -> (retries (app s) < io_fuel)%nat ->
  exists r s', GetInputData size s = (r, s') /\ r <> UB /\
    input_stream s' = input_stream s /\ buffer_ok (inp s') /\ rest_in s' = rest_in s /\
    match r with
    | Ok _ => size <= blen (unread (inp s'))
    | Err e => e = WS_FATAL_ERROR /\ (error s' = WS_WANT_READ \/ error s' = WS_SOCKET_ERROR_E \/ error s' = WS_MEMORY_E)
    | UB => False
    end.
Proof.
  intros Hok Hs Hfit Hf Hr. pose proof (GetInputData_run size s Hok Hs Hfit Hf Hr) as W. unfold wp in W.
  destruct (GetInputData size s) as [[[]|e|] s']; [| |done].
  - destruct W as [[A1 A2 A3 A4] [K _]]. by exists (Ok tt), s'.
  - destruct W as [[A1 A2 A3 A4] K]. by exists (Err e), s'.
Qed.

(** C26: A version line that [ValidateProtoId] takes is taken by the other end, in whatever pieces
    it arrives: the peer's id is the line without its end, the session moves on, and the
    input goes on right behind the line. Otherwise the exchange waits with the stream
    kept, or the connection or the memory has failed. *)
Theorem DoProtoId_spec (id tail : bytes) (s : WOLFSSH) :
  (retries (app s) < io_fuel)%nat -> buffer_ok (inp s) ->
  ValidateProtoId (id ++ [13; 10]) = Ok tt -> input_stream s = id ++ 13 :: 10 :: tail ->
  match DoProtoId s with
  | (Ok _, s') => peerProtoId (kex s') = Some (wstring id) /\ input_stream s' = tail
      /\ (if side =? WOLFSSH_ENDPOINT_SERVER then clientState s' = CLIENT_VERSION_DONE else serverState s' = SERVER_VERSION_DONE)
  | (Err e, s') => line_errors e /\ (e = WS_WANT_READ -> input_stream s' = input_stream s)
  | (UB, _) => False
  end.
Proof.
  intros Hr Hok Hv Hs. pose proof (DoProtoId_run id tail s Hr Hok Hv Hs) as W. unfold wp in W.
  by destruct (DoProtoId s) as [[[]|e|] s'].
Qed.
End Stream.

(** ** Examples *)

(** A network that holds its bytes in the application's memory and delivers them at
    most three at a time. *)
Definition dribble (n : Z) : M (Z * bytes) := fun s =>
  let k := Z.min 3 (Z.min n (blen (app s))) in
  if k <=? 0 then (Ok (WS_CBIO_ERR_WANT_READ, []), s <| app := app s |>)
  else (Ok (k, slice (app s) 0 k), s <| app := drop (Z.to_nat k) (app s) |>).

Definition bytes_only (a : bytes) : bytes := map wrap8 a.

Definition dribbling : CTX := server <| @ioRecvCb := Some (fun n =>
  '(r, d) ← dribble n; mret (r, map wrap8 d)) |>.

Lemma dribble_contract : RecvContract (fun n => '(r, d) ← dribble n; mret (r, map wrap8 d)) bytes_only (fun _ => O).
Proof.
  split. intros n s Hn. unfold dribble, mbind, ST_bind. set (k := Z.min 3 (Z.min n (blen (app s)))).
  pose proof (blen_nonneg (app s)). assert (k <= n /\ k <= blen (app s)) by (unfold k; lia). clearbody k. destruct (Z.leb_spec k 0).
  - exists WS_CBIO_ERR_WANT_READ, [], (app s). split; [done|]. split; [done|]. split; [done|]. split; [constructor|]. right. split; [clia|]. split; [done|]. discriminate.
  - exists k, (map wrap8 (slice (app s) 0 k)), (drop (Z.to_nat k) (app s)). split; [done|]. split; [|split; [done|split]].
    + unfold bytes_only, slice. by rewrite drop_0, <- map_app, take_drop.
    + apply List.Forall_forall. intros c Hc. apply in_map_iff in Hc as (x & <- & _). apply wrap8_range.
    + left. split; [lia|]. unfold blen. rewrite length_map. change (blen (slice (app s) 0 k) = k). rewrite blen_slice; lia.
Qed.

Example GetInputData_spec_witness :
  let s := new_session [1; 2; 3; 4; 5; 6; 7; 8; 9] in
  let r := @GetInputData dribbling 8 s in
  unread (inp r.2) = [1; 2; 3; 4; 5; 6; 7; 8] /\
  exists r s', @GetInputData dribbling 8 s = (r, s') /\ r <> UB /\
    input_stream bytes_only s' = input_stream bytes_only s /\ buffer_ok (inp s') /\ rest_in s' = rest_in s /\
    match r with
    | Ok _ => 8 <= blen (unread (inp s'))
    | Err e => e = WS_FATAL_ERROR /\ (error s' = WS_WANT_READ \/ error s' = WS_SOCKET_ERROR_E \/ error s' = WS_MEMORY_E)
    | UB => False
    end.
Proof.
  intros s r. split; [by vm_compute|].
  pose proof (@GetInputData_spec dribbling bytes_only (fun _ => O) _ eq_refl dribble_contract 8 s) as P. apply P.
  - split; vm_compute; intuition congruence.
  - lia.
  - vm_compute. reflexivity.
  - vm_compute. discriminate.
  - vm_compute. lia.
Defined.

Definition version : bytes := str "SSH-2.0-OpenSSH_9.6 Debian".

Example DoProtoId_spec_witness :
  let s := new_session (version ++ [13; 10; 0; 0; 1]) in
  match @DoProtoId dribbling s with
  | (Ok _, s') => peerProtoId (kex s') = Some (wstring version) /\ input_stream bytes_only s' = [0; 0; 1]
      /\ clientState s' = CLIENT_VERSION_DONE
  | (Err e, s') => line_errors e /\ (e = WS_WANT_READ -> input_stream bytes_only s' = input_stream bytes_only s)
  | (UB, _) => False
  end.
Proof.
  intros s.
  assert (Hok : buffer_ok (inp s)) by (split; vm_compute; intuition congruence).
  assert (Hv : ValidateProtoId (version ++ [13; 10]) = Ok tt) by (vm_compute; reflexivity).
  assert (Hs : input_stream bytes_only s = version ++ 13 :: 10 :: [0; 0; 1]) by (vm_compute; reflexivity).
  assert (Hr : (0 < @io_fuel dribbling)%nat) by (vm_compute; lia).
  pose proof (@DoProtoId_spec dribbling bytes_only (fun _ => O) _ eq_refl dribble_contract version [0; 0; 1] s Hr Hok Hv Hs) as P.
  exact P.
Defined.
