(* ===== verification/Agent.v ===== *)
(** The agent protocol (agent.c): building and parsing its messages, the identities
    held for a peer, signing with one, and the client's and the relay's conversation
    with the local agent through the I/O callback.

    What is shown: no message, however malformed, makes [DoMessage] read outside it or
    lose count of the identities, and a signature the agent is asked for is the one it
    answers with. *)

From S2P Require Import Prelude Codes Wire Names Buffer Fwd Algos Kdf Session Samples MsgFilter Transport.
From S2P Require Import Channels Send ChannelIO KexInit KexKeys KexAgree UserSig Ossh Composite OsshKey CertMan HostKey KexDh.

(** What wolfCrypt does for the keys of identities. *)
Class AgentKeys `{KeyExchange} := {
  RSA_MAX_SIZE : Z;
  mp_init : Z;
  mp_mod : mp_int -> mp_int -> wc mp_int;
  (* the key of n, e, d, p, q and u as [mp_read_unsigned_bin] sets them *)
  rsa_of_parts : bytes -> bytes -> bytes -> bytes -> bytes -> bytes -> RsaKey;
  rsa_p : RsaKey -> mp_int;
  rsa_q : RsaKey -> mp_int;
  rsa_d : RsaKey -> mp_int;
  set_dP : mp_int -> RsaKey -> RsaKey;
  set_dQ : mp_int -> RsaKey -> RsaKey;
  wc_ecc_import_private_key_ex : bytes -> bytes -> ecc_curve_id -> wc ecc_key   (* d, Q *)
}.

Section Agent.
Context `{CTX} `{Crypto} `{Hashes} `{PubKeys} `{!SignKeys} `{!HostKeys} `{!KeyExchange} `{!AgentKeys} `{CertManager}.

(** ** The agent of a session *)

Definition ld_agent : M WOLFSSH_AGENT_CTX := s ← get; deref (agent s).
Definition st_agent (f : WOLFSSH_AGENT_CTX -> WOLFSSH_AGENT_CTX) : M unit :=
  a ← ld_agent; modify (fun s => s <| agent := Some (f a) |>).

(** [WFREE(agent->msg)]. *)
Definition free_msg : M unit :=
  a ← ld_agent;
  match ag_msg a with
  | MsgHeap _ => st_agent (fun a => a <| ag_msg := MsgFreed |>)
  | MsgNull => mret tt
  | _ => ub
  end.

(** ** Building messages *)

Definition PrepareMessage (payloadSz : Z) : M unit :=
  guard_err (payloadSz =? 0) WS_BAD_ARGUMENT;;
  free_msg;;
  let payloadSz := payloadSz +w LENGTH_SZ in
  mem ← malloc;
  guard_err (negb mem) WS_MEMORY_E;;
  st_agent (fun a => a <| ag_msg := MsgHeap (zeros payloadSz) |> <| ag_msgSz := payloadSz |> <| ag_msgIdx := LENGTH_SZ |>).

(** Bytes at an index of the message. *)
Definition write_msg (idx : Z) (d : bytes) : M unit :=
  a ← ld_agent;
  match ag_msg a with
  | MsgHeap b => b ← deref (wr b idx d); st_agent (fun a => a <| ag_msg := MsgHeap b |>)
  | _ => ub
  end.
Definition append_msg (d : bytes) : M unit :=
  a ← ld_agent;
  write_msg (ag_msgIdx a) d;;
  st_agent (fun a => a <| ag_msgIdx ::= (fun i => i +w blen d) |>).

Definition BundleMessage (payloadSz : Z) : M unit :=
  guard_err (payloadSz =? 0) WS_BAD_ARGUMENT;;
  a ← ld_agent;
  guard_err ((ag_msgSz a <? LENGTH_SZ +w payloadSz) || (ag_msgSz a <? ag_msgIdx a)) WS_BUFFER_E;;
  write_msg 0 (c32toa payloadSz);;
  st_agent (fun a => a <| ag_msgSz := LENGTH_SZ +w payloadSz |>).

(** A message of the size estimated for it. *)
Definition build_message (msgSz : Z) (payload : bytes) : M unit :=
  PrepareMessage msgSz;;
  append_msg payload;;
  BundleMessage msgSz.

(** The message is not kept. *)
Definition drop_msg : M unit :=
  free_msg;;
  st_agent (fun a => a <| ag_msg := MsgNull |> <| ag_msgSz := 0 |>).

Definition SendFailure : M unit := build_message MSG_ID_SZ [MSGID_AGENT_FAILURE].
Definition SendSuccess : M unit := build_message MSG_ID_SZ [MSGID_AGENT_SUCCESS];; drop_msg.

Definition identity_blob (id : WOLFSSH_AGENT_ID) : bytes := wstring (keyBlob id) ++ wstring (comment id).
Definition SendIdentitiesAnswer : M unit :=
  a ← ld_agent;
  let msgSz := foldl (fun n id => n +w LENGTH_SZ * 2 +w blen (keyBlob id) +w blen (comment id)) (MSG_ID_SZ + UINT32_SZ) (idList a) in
  let idCount := wrap32 (blen (idList a)) in
  build_message msgSz ([MSGID_AGENT_IDENTITIES_ANSWER] ++ c32toa idCount ++ concat (map identity_blob (idList a)));;
  drop_msg.

Definition sign_request (data keyBlob : bytes) (flags : Z) : bytes :=
  [MSGID_AGENT_SIGN_REQUEST] ++ wstring keyBlob ++ wstring data ++ c32toa flags.
Definition SendSignRequest (data keyBlob : bytes) (flags : Z) : M unit :=
  build_message (wrap32 (MSG_ID_SZ + LENGTH_SZ * 2 + UINT32_SZ + blen data + blen keyBlob)) (sign_request data keyBlob flags).

Definition SendSignResponse (sig : bytes) : M unit :=
  guard_err (blen sig =? 0) WS_BAD_ARGUMENT;;
  build_message (wrap32 (MSG_ID_SZ + LENGTH_SZ + blen sig)) ([MSGID_AGENT_SIGN_RESPONSE] ++ wstring sig);;
  drop_msg.

(** ** The identities *)

Definition PostFailure : M unit := st_agent (fun a => a <| requestFailure := true |>).
Definition PostSuccess : M unit := st_agent (fun a => a <| requestSuccess := true |>).

(** The passphrase is copied, wiped and freed. *)
Definition PostLock (passphrase : bytes) : M unit := mem ← malloc; guard_err (negb mem) WS_MEMORY_E.
Definition PostUnlock (passphrase : bytes) : M unit := mem ← malloc; guard_err (negb mem) WS_MEMORY_E.

(** [wc_InitSha256], [wc_Sha256Update], [wc_Sha256Final]. *)
Definition agent_sha (d : bytes) : M bytes :=
  or_else (
    sha ← lift_res (wc_HashInit WC_HASH_TYPE_SHA256);
    sha ← lift_res (wc_HashUpdate WC_HASH_TYPE_SHA256 sha d);
    lift_res (wc_HashFinal WC_HASH_TYPE_SHA256 sha)) WS_CRYPTO_FAILED.

Definition wolfSSH_AGENT_ID_new : M bool :=
  id ← malloc;
  if (id : bool) then malloc else mret false.

(** A key of [keySz] bytes, the first [blobSz] of them its public blob, whose fields
    follow each other with their lengths, the comment last. *)
Fixpoint key_fields_at (key : bytes) (keyIdx : Z) (sizes : list Z) : list bytes :=
  match sizes with
  | [] => []
  | sz :: sizes =>
    let keyIdx := keyIdx +w LENGTH_SZ in
    slice key keyIdx sz :: key_fields_at key (keyIdx +w sz) sizes
  end.
Definition add_identity (id : WOLFSSH_AGENT_ID) : M unit :=
  st_agent (fun a => a <| idList ::= cons id |> <| idListSz ::= (fun n => n +w 1) |>).

Definition PostAddRsaId (keyType : AlgoId) (key : bytes) (nSz eSz dSz iqmpSz pSz qSz commentSz : Z) : M unit :=
  id ← wolfSSH_AGENT_ID_new;
  guard_err (negb id) WS_MEMORY_E;;
  let keyBlob := slice key 0 (nSz +w eSz +w LENGTH_SZ * 2) in
  sha ← agent_sha keyBlob;
  match key_fields_at key 0 [nSz; eSz; dSz; iqmpSz; pSz; qSz; commentSz] with
  | [n; e; d; iqmp; p; q; comment] => add_identity (mkAgentId key keyBlob comment (AgentRsa n e d iqmp p q) sha keyType)
  | _ => ub
  end.

Definition PostAddEcdsaId (keyType : AlgoId) (key : bytes) (curveNameSz qSz dSz commentSz : Z) : M unit :=
  id ← wolfSSH_AGENT_ID_new;
  guard_err (negb id) WS_MEMORY_E;;
  let keyBlob := slice key 0 (curveNameSz +w qSz +w LENGTH_SZ * 2) in
  sha ← agent_sha keyBlob;
  match key_fields_at key 0 [curveNameSz; qSz; dSz; commentSz] with
  | [curveName; q; d; comment] => add_identity (mkAgentId key keyBlob comment (AgentEcdsa curveName q d) sha keyType)
  | _ => ub
  end.

(** The first identity with the digest is unlinked. *)
Fixpoint remove_id (id : bytes) (l : list WOLFSSH_AGENT_ID) : option (list WOLFSSH_AGENT_ID) :=
  match l with
  | [] => None
  | cur :: l => if bytes_eqb id (agent_id cur) then Some l else option_map (cons cur) (remove_id id l)
  end.
Definition PostRemoveId (keyBlob : bytes) : M unit :=
  guard_err (blen keyBlob =? 0) WS_BAD_ARGUMENT;;
  id ← agent_sha keyBlob;
  a ← ld_agent;
  match remove_id id (idList a) with
  | Some l => st_agent (fun a => a <| idList := l |> <| idListSz ::= (fun n => n -w 1) |>)
  | None => mret tt
  end.

Definition PostRemoveAllIds : M unit := st_agent (fun a => a <| idList := [] |> <| idListSz := 0 |>).
Definition PostRequestIds : M unit := SendIdentitiesAnswer.

(** By digest, or by the blob itself; none when the digest cannot be made. *)
Definition FindKeyId (keyBlob' : bytes) (l : list WOLFSSH_AGENT_ID) : M (option WOLFSSH_AGENT_ID) :=
  r ← attempt (agent_sha keyBlob');
  match r with
  | inl digest => mret (List.find (fun id => bytes_eqb digest (agent_id id) || bytes_eqb keyBlob' (keyBlob id)) l)
  | inr _ => mret None
  end.

(** ** Signing *)

Definition with_agent_rng {A} (f : bytes -> wc A * bytes) : M A :=
  a ← ld_agent;
  let '(r, g) := f (ag_rng a) in
  st_agent (fun a => a <| ag_rng := g |>);;
  call r.

(** dP and dQ, which the parts do not have. *)
Definition wolfSSH_CalcRsaDX (key : RsaKey) : M RsaKey :=
  ret_code mp_init;;
  m ← call (mp_sub_d (rsa_p key) 1);
  dP ← call (mp_mod (rsa_d key) m);
  let key := set_dP dP key in
  m ← call (mp_sub_d (rsa_q key) 1);
  dQ ← call (mp_mod (rsa_d key) m);
  mret (set_dQ dQ key).

Definition SignHashRsa (n e d iqmp p q : bytes) (hashType : wc_HashType) (digest : bytes) (sigSz : Z) : M bytes :=
  or_else (
    ret_code wc_InitRsaKey;;
    key ← wolfSSH_CalcRsaDX (rsa_of_parts n e d p q iqmp);
    let encSig := wc_EncodeSignature digest hashType in
    guard_err (blen encSig =? 0) WS_CRYPTO_FAILED;;
    sig ← with_agent_rng (wc_RsaSSL_Sign encSig sigSz key);
    guard_err (blen sig =? 0) WS_RSA_E;;
    wolfSSH_RsaVerify (Some sig) encSig key;;
    mret sig) WS_RSA_E.

(** The numbers r and s take the place of the signature in its buffer. *)
Definition SignHashEcc (q d : bytes) (curveId : ecc_curve_id) (digest : bytes) (sigSz : Z) : M bytes :=
  or_else (
    ret_code wc_ecc_init_ex;;
    key ← call (wc_ecc_import_private_key_ex d q curveId);
    sig ← with_agent_rng (wc_ecc_sign_hash digest sigSz key);
    '(r, s) ← call (wc_ecc_sig_to_rs sig);
    let rs := mpint_block (r, b2z (top_bit r)) ++ mpint_block (s, b2z (top_bit s)) in
    _ ← deref (wr (zeros sigSz) 0 rs);
    mret rs) WS_ECC_E.

(** What the type of a key makes of the flags: its hash and, for ECDSA, its curve. *)
Definition sign_plan (keyType : AlgoId) (flags : Z) : option (wc_HashType * option ecc_curve_id) :=
  match keyType with
  | ID_SSH_RSA =>
    if truthy (Z.land flags AGENT_SIGN_RSA_SHA2_256) then Some (WC_HASH_TYPE_SHA256, None)
    else if truthy (Z.land flags AGENT_SIGN_RSA_SHA2_512) then Some (WC_HASH_TYPE_SHA512, None)
    else None
  | ID_ECDSA_SHA2_NISTP256 => Some (WC_HASH_TYPE_SHA256, Some ECC_SECP256R1)
  | ID_ECDSA_SHA2_NISTP384 => Some (WC_HASH_TYPE_SHA384, Some ECC_SECP384R1)
  | ID_ECDSA_SHA2_NISTP521 => Some (WC_HASH_TYPE_SHA512, Some ECC_SECP521R1)
  | _ => None
  end.

Definition PostSignRequest (keyBlob data : bytes) (flags : Z) : M unit :=
  guard_err (blen keyBlob =? 0) WS_BAD_ARGUMENT;;
  a ← ld_agent;
  id ← FindKeyId keyBlob (idList a);
  match id with
  | None => fail WS_AGENT_NO_KEY_E
  | Some id =>
    match sign_plan (keyType id) flags with
    | None => fail WS_INVALID_ALGO_ID
    | Some (hashType, curveId) =>
      digest ← or_else (lift_res (wc_Hash hashType data)) WS_CRYPTO_FAILED;
      sigSz ← match curveId, agent_key id with
              | None, AgentRsa n _ _ _ _ _ => guard_err (RSA_MAX_SIZE / 8 + 1 <? blen n) WS_BUFFER_E;; mret (blen n)
              | Some _, AgentEcdsa _ _ _ => mret ECDSA_ASN_SIG_SZ
              | _, _ => ub
              end;
      guard_err (sigSz =? 0) WS_BUFFER_E;;
      mem ← malloc;
      guard_err (negb mem) WS_MEMORY_E;;
      sig ← match curveId, agent_key id with
            | None, AgentRsa n e d iqmp p q => SignHashRsa n e d iqmp p q hashType digest sigSz
            | Some curveId, AgentEcdsa _ q d => SignHashEcc q d curveId digest sigSz
            | _, _ => ub
            end;
      SendSignResponse sig
    end
  end.

(** ** Parsing messages *)

(** Each handler has the payload after its id and returns the index it read to. *)
Definition DoFailure (buf : bytes) : M Z := guard_err (negb (blen buf =? 0)) WS_PARSE_E;; PostFailure;; mret 0.
Definition DoSuccess (buf : bytes) : M Z := guard_err (negb (blen buf =? 0)) WS_PARSE_E;; PostSuccess;; mret 0.
Definition DoRequestIdentities (buf : bytes) : M Z := guard_err (negb (blen buf =? 0)) WS_PARSE_E;; PostRequestIds;; mret 0.
Definition DoIdentitiesAnswer (buf : bytes) : M Z := mret 0.

Definition DoSignRequest (buf : bytes) : M Z :=
  let len := blen buf in
  guard_err (len =? 0) WS_BAD_ARGUMENT;;
  '((_, keyBlob), begin) ← parse GetStringRef buf len 0;
  '((_, data), begin) ← parse GetStringRef buf len begin;
  '(flags, begin) ← parse GetUint32 buf len begin;
  PostSignRequest (ref_bytes keyBlob) (ref_bytes data) flags;;
  mret begin.

Definition DoSignResponse (buf : bytes) : M Z :=
  let len := blen buf in
  guard_err (len =? 0) WS_BAD_ARGUMENT;;
  '((sigSz, sig), idx) ← parse GetStringRef buf len 0;
  st_agent (fun a => a <| ag_msg := match sig with Some sig => MsgInRx sig | None => MsgNull end |> <| ag_msgSz := sigSz |>);;
  mret idx.

(** [ato32(buf + begin, &sz)] and a bound on the sum, in [word32]. *)
Definition checked_size (buf : bytes) (begin limit : Z) : M (Z * Z) :=
  let len := blen buf in
  guard_err (len <? begin +w LENGTH_SZ) WS_PARSE_E;;
  sz ← deref (ato32 (slice buf begin LENGTH_SZ));
  let begin := begin +w LENGTH_SZ in
  guard_err ((limit <? sz) || (len <? begin +w sz)) WS_PARSE_E;;
  mret (sz, begin).

(** No algorithm has a name that goes on past the message. *)
Definition name_at (buf : bytes) (begin sz : Z) : AlgoId :=
  if begin + sz <=? blen buf then NameToId (slice buf begin sz) else ID_UNKNOWN.

Definition sizes_sum (sizes : list Z) : Z := foldl (fun n sz => n +w sz) 0 sizes.

Definition DoAddIdentity (buf : bytes) : M Z :=
  let len := blen buf in
  guard_err (len =? 0) WS_BAD_ARGUMENT;;
  '(sz, begin) ← checked_size buf 0 UINT32_MAX;
  let keyType := name_at buf begin sz in
  let begin := begin +w sz in
  let key := begin in
  match keyType with
  | ID_SSH_RSA =>
    '((nSz, _), begin) ← parse GetMpint buf len begin;
    '((eSz, _), begin) ← parse GetMpint buf len begin;
    '((dSz, _), begin) ← parse GetMpint buf len begin;
    '((iqmpSz, _), begin) ← parse GetMpint buf len begin;
    '((pSz, _), begin) ← parse GetMpint buf len begin;
    '((qSz, _), begin) ← parse GetMpint buf len begin;
    '((commentSz, _), begin) ← parse GetStringRef buf len begin;
    let keySz := sizes_sum [nSz; eSz; dSz; iqmpSz; pSz; qSz; commentSz] +w LENGTH_SZ * 7 in
    PostAddRsaId keyType (slice buf key keySz) nSz eSz dSz iqmpSz pSz qSz commentSz;;
    mret begin
  | ID_ECDSA_SHA2_NISTP256 | ID_ECDSA_SHA2_NISTP384 | ID_ECDSA_SHA2_NISTP521 =>
    '((curveNameSz, _), begin) ← parse GetStringRef buf len begin;
    '((qSz, _), begin) ← parse GetMpint buf len begin;
    '((dSz, _), begin) ← parse GetMpint buf len begin;
    '((commentSz, _), begin) ← parse GetStringRef buf len begin;
    let keySz := sizes_sum [curveNameSz; qSz; dSz; commentSz] +w LENGTH_SZ * 4 in
    PostAddEcdsaId keyType (slice buf key keySz) curveNameSz qSz dSz commentSz;;
    mret begin
  | _ => fail WS_PARSE_E
  end.

Definition DoRemoveIdentity (buf : bytes) : M Z :=
  let len := blen buf in
  guard_err (len =? 0) WS_BAD_ARGUMENT;;
  guard_err (len <? LENGTH_SZ) WS_PARSE_E;;
  '((_, keyBlob), begin) ← parse GetStringRef buf len 0;
  PostRemoveId (ref_bytes keyBlob);;
  mret begin.

Definition DoRemoveAllIdentities (buf : bytes) : M Z :=
  guard_err (negb (blen buf =? 0)) WS_BAD_ARGUMENT;; PostRemoveAllIds;; mret 0.

Definition DoAgentLock (buf : bytes) : M Z :=
  guard_err (blen buf =? 0) WS_BAD_ARGUMENT;;
  '(sz, begin) ← checked_size buf 0 WOLFSSH_MAX_PASSPHRASE_SZ;
  PostLock (slice buf begin sz);;
  mret (begin +w sz).
Definition DoAgentUnlock (buf : bytes) : M Z :=
  guard_err (blen buf =? 0) WS_BAD_ARGUMENT;;
  '(sz, begin) ← checked_size buf 0 WOLFSSH_MAX_PASSPHRASE_SZ;
  PostUnlock (slice buf begin sz);;
  mret (begin +w sz).

Definition DoUnimplemented (buf : bytes) : M Z := SendFailure;; fail WS_UNIMPLEMENTED_E.

Definition message_handler (msg : Z) : bytes -> M Z :=
  if msg =? MSGID_AGENT_FAILURE then DoFailure
  else if msg =? MSGID_AGENT_SUCCESS then DoSuccess
  else if msg =? MSGID_AGENT_REQUEST_IDENTITIES then DoRequestIdentities
  else if msg =? MSGID_AGENT_IDENTITIES_ANSWER then DoIdentitiesAnswer
  else if msg =? MSGID_AGENT_SIGN_REQUEST then DoSignRequest
  else if msg =? MSGID_AGENT_SIGN_RESPONSE then DoSignResponse
  else if msg =? MSGID_AGENT_ADD_IDENTITY then DoAddIdentity
  else if msg =? MSGID_AGENT_REMOVE_IDENTITY then DoRemoveIdentity
  else if msg =? MSGID_AGENT_REMOVE_ALL_IDENTITIES then DoRemoveAllIdentities
  else if msg =? MSGID_AGENT_LOCK then DoAgentLock
  else if msg =? MSGID_AGENT_UNLOCK then DoAgentUnlock
  else DoUnimplemented.

(** The first message of the data, and the index after what its handler read. *)
Definition DoMessage (buf : bytes) : M Z :=
  st_agent (fun a => a <| lastMsgId := 0 |>);;
  guard_err (blen buf =? 0) WS_BAD_ARGUMENT;;
  '(payloadSz, begin) ← or_else (parse GetSize buf (blen buf) 0) WS_OVERFLOW_E;
  guard_err (payloadSz =? 0) WS_OVERFLOW_E;;
  msg ← deref (rd buf begin);
  let begin := begin +w 1 in
  st_agent (fun a => a <| lastMsgId := msg |>);;
  payloadIdx ← message_handler msg (slice buf begin (payloadSz - 1));
  mret (begin +w payloadIdx).

(** ** Lifetime *)

(** [mem] is the allocation, [wc_InitRng] the generator's state when it can be
    made. *)
Definition AgentInit (mem : bool) (wc_InitRng : option bytes) : option WOLFSSH_AGENT_CTX :=
  if mem then
    match wc_InitRng with
    | Some rng => Some (mkAgent MsgNull rng 0 0 0 [] 0 0 AGENT_STATE_INIT false false 0 None None 0 false)
    | None => None
    end
  else None.
Definition wolfSSH_AGENT_new (wc_InitRng : option bytes) : M (option WOLFSSH_AGENT_CTX) :=
  mem ← malloc; mret (AgentInit mem wc_InitRng).

(** The message is freed with the agent. *)
Definition wolfSSH_AGENT_free (a : WOLFSSH_AGENT_CTX) : res unit :=
  match ag_msg a with MsgNull | MsgHeap _ => Ok tt | _ => UB end.

Definition wolfSSH_AGENT_enable (isEnabled : bool) : M unit := modify (fun s => s <| agentEnabled := isEnabled |>).

(** [ctx->agentCb], where there is one. *)
Definition agent_setup : M unit :=
  match agentCb with
  | Some cb => r ← cb WOLFSSH_AGENT_LOCAL_SETUP; guard_err (negb (r =? WS_AGENT_SUCCESS)) WS_AGENT_CXN_FAIL
  | None => mret tt
  end.

(** Open a channel for the agent, once; then flush what is queued. The result, and
    whether it is recorded. *)
Definition open_agent (wc_InitRng : option bytes) : M Z :=
  newAgent ← wolfSSH_AGENT_new wc_InitRng;
  match newAgent with
  | None => mret WS_MEMORY_E
  | Some newAgent =>
    newChannel ← ChannelNew ID_CHANTYPE_AUTH_AGENT windowSz maxPacketSz;
    match newChannel with
    | None => lift_res (wolfSSH_AGENT_free newAgent);; mret WS_MEMORY_E
    | Some newChannel =>
      s ← get;
      let flushes := txFlushCount (tx s) in
      ret ← code (SendChannelOpenSession newChannel);
      delivered ← SendPacketDelivered flushes ret;
      (if (delivered : bool) then
         ChannelAppend newChannel;;
         c ← ld_channel newChannel;
         modify (fun s => s <| agent := Some (newAgent <| ag_channel := c_channel c |>) |>);;
         match agentCb with Some cb => _ ← cb WOLFSSH_AGENT_LOCAL_SETUP; mret tt | None => mret tt end
       else ChannelDelete newChannel;; lift_res (wolfSSH_AGENT_free newAgent));;
      modify (fun s => s <| error := ret |>);;
      mret ret
    end
  end.
Definition wolfSSH_AGENT_ChannelOpen (wc_InitRng : option bytes) : M unit :=
  guard_err (negb (side =? WOLFSSH_ENDPOINT_SERVER)) WS_BAD_ARGUMENT;;
  over ← SendAfterDisconnect;
  guard_err over WS_FATAL_ERROR;;
  s ← get;
  guard_err (negb (useAgent s)) WS_BAD_ARGUMENT;;
  match agent s with
  | None => ret ← open_agent wc_InitRng; ret_code ret
  | Some _ =>
    if wolfSSH_OutputPending s then
      ret ← code wolfSSH_SendPacket;
      modify (fun s => s <| error := ret |>);;
      ret_code ret
    else mret tt
  end.

(** Its calls with a null agent do nothing. *)
Definition wolfSSH_AGENT_worker : M unit :=
  s ← get;
  match agent s with
  | None => fail WS_AGENT_NULL_E
  | Some _ => st_agent (fun a => a <| ag_state := AGENT_STATE_DONE |>)
  end.

(** ** Talking to the local agent *)

Definition agent_io (op : AgentIo) : M (Z * bytes) := cb ← deref agentIoCb; cb op.

(** The result, and how much went out; each turn writes a byte or ends. *)
Fixpoint AgentWriteAll_loop (fuel : nat) (buf : bytes) (idx : Z) : M (Z * Z) :=
  match fuel with
  | O => ub
  | S fuel =>
    if idx <? blen buf then
      let rest := blen buf - idx in
      '(sz, _) ← agent_io (AgentWrite (slice buf idx rest));
      if (sz <=? 0) || (rest <? sz) then mret (WS_AGENT_CXN_FAIL, idx)
      else AgentWriteAll_loop fuel buf (idx + sz)
    else mret (WS_SUCCESS, idx)
  end.
Definition AgentWriteAll (buf : bytes) : M (Z * Z) := AgentWriteAll_loop (S (length buf)) buf 0.

Definition AgentWriteMessage (buf : bytes) : M unit :=
  '(ret, wroteSz) ← AgentWriteAll buf;
  if negb (ret =? WS_SUCCESS) && (wroteSz =? 0) && bool_decide (is_Some agentCb) then
    agent_setup;;
    '(ret, _) ← AgentWriteAll buf;
    ret_code ret
  else ret_code ret.

(** Exactly [bufSz] bytes, each part stored as it comes; the callback leaves as many
    as it says. *)
Fixpoint AgentReadFull_loop (fuel : nat) (store : Z -> bytes -> M unit) (bufSz : Z) (read : bytes) : M bytes :=
  match fuel with
  | O => ub
  | S fuel =>
    if blen read <? bufSz then
      let rest := bufSz - blen read in
      '(sz, d) ← agent_io (AgentRead rest);
      if (sz <=? 0) || (rest <? sz) then fail WS_AGENT_CXN_FAIL
      else if negb (blen d =? sz) then ub
      else store (blen read) d;; AgentReadFull_loop fuel store bufSz (read ++ d)
    else mret read
  end.
Definition AgentReadFull (store : Z -> bytes -> M unit) (bufSz : Z) : M bytes :=
  AgentReadFull_loop (S (Z.to_nat bufSz)) store bufSz [].

(** *** The agent's buffers *)

Inductive agent_buffer := RxBuf | RelayBuf.
Definition ag_buf (w : agent_buffer) (a : WOLFSSH_AGENT_CTX) : option WOLFSSH_BUFFER :=
  match w with RxBuf => rxBuf a | RelayBuf => relayBuf a end.
Definition set_ag_buf (w : agent_buffer) (b : option WOLFSSH_BUFFER) (a : WOLFSSH_AGENT_CTX) : WOLFSSH_AGENT_CTX :=
  match w with RxBuf => a <| rxBuf := b |> | RelayBuf => a <| relayBuf := b |> end.
Definition ld_buf (w : agent_buffer) : M WOLFSSH_BUFFER := a ← ld_agent; deref (ag_buf w a).
Definition on_buf {A} (w : agent_buffer) (m : ST WOLFSSH_BUFFER A) : M A :=
  b ← ld_buf w;
  let '(r, b) := m b in
  st_agent (set_ag_buf w (Some b));;
  lift_res r.

Definition AgentBufferPrep (w : agent_buffer) (needSz : Z) : M unit :=
  a ← ld_agent;
  match ag_buf w a with
  | Some _ => mret tt
  | None =>
    mem ← malloc;
    guard_err (negb mem) WS_MEMORY_E;;
    b ← lift_res (BufferInit true 0);
    st_agent (set_ag_buf w (Some b))
  end;;
  mem ← malloc;
  on_buf w (GrowBuffer mem needSz).

Definition AgentBufferReset (w : agent_buffer) : M unit :=
  st_agent (fun a => set_ag_buf w (option_map (fun b => (set_buffer (zeros (bufferSz b)) b) <| b_length := 0 |> <| b_idx := 0 |>) (ag_buf w a)) a).

(** One whole message, with its length, in [rxBuf]. *)
Definition AgentReadMessage : M bytes :=
  hdr ← AgentReadFull (fun _ _ => mret tt) LENGTH_SZ;
  '(payloadSz, _) ← parse GetUint32 hdr LENGTH_SZ 0;
  guard_err ((payloadSz =? 0) || (WOLFSSH_AGENT_MAX_MSG_SZ <? payloadSz)) WS_BUFFER_E;;
  let wholeSz := payloadSz +w LENGTH_SZ in
  AgentBufferReset RxBuf;;
  AgentBufferPrep RxBuf wholeSz;;
  on_buf RxBuf (buffer_write 0 hdr);;
  _ ← AgentReadFull (fun i d => on_buf RxBuf (buffer_write (LENGTH_SZ + i) d)) payloadSz;
  on_buf RxBuf (modify (fun b => b <| b_length := wholeSz |>));;
  on_buf RxBuf (buffer_read 0 wholeSz).

(** Set up on the first use. *)
Definition connect_agent : M unit :=
  a ← ld_agent;
  when ((ag_state a =? AGENT_STATE_INIT) && bool_decide (is_Some agentCb))
    (agent_setup;; st_agent (fun a => a <| ag_state := AGENT_STATE_CONNECTED |>)).

(** A message to the agent and its answer, of at most [rspSz] bytes. *)
Definition relay_message (msg : bytes) (rspSz : Z) : M bytes :=
  connect_agent;;
  AgentWriteMessage msg;;
  rsp ← AgentReadMessage;
  AgentBufferReset RxBuf;;
  guard_err (rspSz <? blen rsp) WS_BUFFER_E;;
  mret rsp.
Definition wolfSSH_AGENT_Relay (msg : bytes) (rspSz : Z) : M bytes :=
  r ← attempt (s ← get; match agent s with None => fail WS_AGENT_NULL_E | Some _ => relay_message msg rspSz end);
  match r with
  | inl rsp => mret rsp
  | inr ret =>
    modify (fun s => s <| agent ::= option_map (fun a => a <| ag_error := ret |>) |> <| error := ret |>);;
    fail WS_ERROR
  end.

(** *** Relaying a channel *)

(** What a send of the reply came to. *)
Definition reply_sent (txd flushes : Z) : M Z :=
  if 0 <? txd then on_buf RxBuf (modify (fun b => b <| b_idx ::= (fun i => i +w txd) |>));; mret WS_SUCCESS
  else if (txd =? WS_WANT_WRITE) || (txd =? WS_WINDOW_FULL) || (txd =? WS_REKEYING) then mret txd
  else
    delivered ← SendPacketDelivered flushes txd;
    mret (if (delivered : bool) then WS_AGENT_CXN_FAIL else if txd <? 0 then txd else WS_AGENT_CXN_FAIL).
Definition send_reply (channelId : Z) : M Z :=
  a ← ld_agent;
  match rxBuf a with
  | Some rsp =>
    if b_idx rsp <? b_length rsp then
      s ← get;
      let flushes := txFlushCount (tx s) in
      d ← on_buf RxBuf (buffer_read (b_idx rsp) (b_length rsp -w b_idx rsp));
      r ← attempt (wolfSSH_ChannelIdSend channelId d);
      reply_sent (match r with inl n => n | inr e => e end) flushes
    else mret WS_SUCCESS
  | None => mret WS_SUCCESS
  end.

Definition reply_owed (a : WOLFSSH_AGENT_CTX) : bool :=
  match rxBuf a with Some rsp => b_idx rsp <? b_length rsp | None => false end.

Definition AgentRelaySendReply (channelId : Z) : M unit :=
  ret ← send_reply channelId;
  s ← get;
  ret ← (if ((ret =? WS_SUCCESS) || (ret =? WS_WINDOW_FULL) || (ret =? WS_REKEYING)) && wolfSSH_OutputPending s then
           txd ← code wolfSSH_SendPacket;
           s ← get;
           mret (if negb (txd =? WS_SUCCESS) && negb (txd =? WS_WANT_WRITE) then txd
                 else if wolfSSH_OutputPending s then WS_WANT_WRITE else ret)
         else mret ret);
  a ← ld_agent;
  ret_code (if (ret =? WS_SUCCESS) && reply_owed a then WS_WANT_WRITE else ret);;
  AgentBufferReset RxBuf.

(** A whole request at the front of the buffer goes to the agent and its answer to
    the channel. Whether anything moved; each turn but the last consumes a message. *)
Fixpoint relay_requests (fuel : nat) (channelId : Z) (progress : bool) : M bool :=
  match fuel with
  | O => ub
  | S fuel =>
    inb ← ld_buf RelayBuf;
    if LENGTH_SZ <=? b_length inb -w b_idx inb then
      '(msgSz, _) ← parse GetUint32 (buffer inb) (b_length inb) (b_idx inb);
      if (msgSz =? 0) || (WOLFSSH_AGENT_MAX_MSG_SZ <? msgSz) then
        AgentBufferReset RelayBuf;; fail WS_BUFFER_E
      else
        let wholeSz := msgSz +w LENGTH_SZ in
        if b_length inb -w b_idx inb <? wholeSz then AgentBufferPrep RelayBuf wholeSz;; mret progress
        else
          d ← on_buf RelayBuf (buffer_read (b_idx inb) wholeSz);
          ret ← code (AgentWriteMessage d);
          on_buf RelayBuf (buffer_write (b_idx inb) (zeros wholeSz));;
          on_buf RelayBuf (modify (fun b => b <| b_idx ::= (fun i => i +w wholeSz) |>));;
          ret_code ret;;
          _ ← AgentReadMessage;
          AgentRelaySendReply channelId;;
          relay_requests fuel channelId true
    else mret progress
  end.

(** Read from the channel while anything moves, at most [turns] times. *)
Fixpoint relay_loop (turns : nat) (channelId : Z) : M unit :=
  match turns with
  | O => ub
  | S turns =>
    AgentBufferPrep RelayBuf WOLFSSH_AGENT_RELAY_CHUNK_SZ;;
    inb ← ld_buf RelayBuf;
    out ← wolfSSH_ChannelIdRead channelId (bufferSz inb -w b_length inb);
    on_buf RelayBuf (b ← get; buffer_write (b_length b) out;; modify (fun b => b <| b_length ::= (fun l => l +w blen out) |>));;
    inb ← ld_buf RelayBuf;
    progress ← relay_requests (S (Z.to_nat (b_length inb))) channelId (0 <? blen out);
    if (progress : bool) then relay_loop turns channelId else mret tt
  end.

(** What is held for another channel is dropped. *)
Definition claim_relay (channelId : Z) : M unit :=
  a ← ld_agent;
  when (negb (relayActive a) || negb (relayChannel a =? channelId))
    (AgentBufferReset RelayBuf;;
     AgentBufferReset RxBuf;;
     st_agent (fun a => a <| relayChannel := channelId |> <| relayActive := true |>)).

Definition wolfSSH_AGENT_RelayChannel (turns : nat) (channelId : Z) : M unit :=
  s ← get;
  match agent s with
  | None => fail WS_AGENT_NULL_E
  | Some _ =>
    r ← code (
      claim_relay channelId;;
      connect_agent;;
      AgentRelaySendReply channelId;;
      relay_loop turns channelId;;
      AgentRelaySendReply channelId);
    when (negb (r =? WS_SUCCESS) && negb (r =? WS_WANT_WRITE) && negb (r =? WS_WINDOW_FULL) && negb (r =? WS_REKEYING))
      (st_agent (fun a => a <| ag_error := r |>));;
    ret_code r
  end.

(** *** Asking for a signature *)

(** The request goes out and its message is freed, whatever came of it. *)
Definition send_sign_request (data keyBlob : bytes) (flags : Z) : M unit :=
  r ← code (
    SendSignRequest data keyBlob flags;;
    a ← ld_agent;
    match ag_msg a with
    | MsgHeap b => '(ret, _) ← AgentWriteAll (slice b 0 (ag_msgSz a)); ret_code ret
    | _ => ub
    end);
  a ← ld_agent;
  match ag_msg a with MsgNull => mret tt | _ => drop_msg end;;
  ret_code r.

(** A signature of at most [room] bytes. *)
Definition take_signature (room : Z) : M bytes :=
  a ← ld_agent;
  guard_err (negb (lastMsgId a =? MSGID_AGENT_SIGN_RESPONSE)) WS_AGENT_NO_KEY_E;;
  match ag_msg a with
  | MsgNull => st_agent (fun a => a <| requestFailure := false |>);; fail WS_AGENT_NO_KEY_E
  | MsgHeap sig | MsgInRx sig =>
    if requestFailure a || (ag_msgSz a =? 0) then st_agent (fun a => a <| requestFailure := false |>);; fail WS_AGENT_NO_KEY_E
    else
      guard_err (room <? ag_msgSz a) WS_BUFFER_E;;
      mret (slice sig 0 (ag_msgSz a))
  | MsgFreed => ub
  end.

Definition sign_exchange (data keyBlob : bytes) (flags room : Z) : M bytes :=
  send_sign_request data keyBlob flags;;
  rsp ← AgentReadMessage;
  _ ← DoMessage rsp;
  take_signature room.

(** The agent is set up before the exchange and cleaned up after it. *)
Definition wolfSSH_AGENT_SignRequest (data keyBlob : bytes) (flags room : Z) : M bytes :=
  s ← get;
  match agent s with
  | None => fail WS_AGENT_NULL_E
  | Some _ =>
    st_agent (fun a => a <| requestFailure := false |> <| requestSuccess := false |> <| ag_msg := MsgNull |>
      <| ag_msgSz := 0 |> <| lastMsgId := 0 |>);;
    setUp ← attempt agent_setup;
    r ← match setUp with
        | inr e => mret (inr e)
        | inl _ => attempt (sign_exchange data keyBlob flags room)
        end;
    st_agent (fun a => a <| ag_msg := MsgNull |> <| ag_msgSz := 0 |>);;
    AgentBufferReset RxBuf;;
    match setUp, agentCb with
    | inl _, Some cb => _ ← cb WOLFSSH_AGENT_LOCAL_CLEANUP; mret tt
    | _, _ => mret tt
    end;;
    match r with inl sig => mret sig | inr e => fail e end
  end.
End Agent.
