(* ===== verification/AgentSpec.v ===== *)
(** The agent: what its conversation comes to. Messages from anyone are parsed without
    leaving them, and a signature asked of the local agent is the one in its answer. *)

From S2P Require Import Prelude Codes Wire Names Buffer Fwd Algos Kdf Session Samples MsgFilter Transport.
From S2P Require Import Channels Send ConnSafe ChannelIO KexInit KexKeys KexAgree UserSig Ossh Composite OsshKey CertMan.
From S2P Require Import HostKey KexDh KexDhSpec Agent.

(** ** The agent a session has *)

Section Run.
Context `{CTX} `{Crypto}.

Definition with_agent (f : WOLFSSH_AGENT_CTX -> WOLFSSH_AGENT_CTX) (s : WOLFSSH) : WOLFSSH :=
  s <| agent ::= option_map f |>.

Lemma ld_agent_run a s : agent s = Some a -> ld_agent s = (Ok a, s).
Proof. intros E. unfold ld_agent. by rewrite st_get, E. Qed.
Lemma st_agent_run f a s : agent s = Some a -> st_agent f s = (Ok tt, s <| agent := Some (f a) |>).
Proof. intros E. unfold st_agent. by rewrite (ST_bind_ok _ _ _ _ _ (ld_agent_run a s E)). Qed.

Lemma wp_ld_agent a s Q : agent s = Some a -> Q (inl a) s -> wp ld_agent Q s.
Proof. intros E HQ. eapply wp_run; [by apply ld_agent_run|done]. Qed.
Lemma wp_st_agent f a s Q : agent s = Some a -> Q (inl tt) (s <| agent := Some (f a) |>) -> wp (st_agent f) Q s.
Proof. intros E HQ. eapply wp_run; [by apply st_agent_run|done]. Qed.

Lemma zeros_app m n : 0 <= m -> 0 <= n -> zeros (n + m) = zeros m ++ zeros n.
Proof. intros. unfold zeros. rewrite <- replicate_add. f_equal. lia. Qed.
Lemma write_msg_run x y z d a s :
  agent s = Some a -> ag_msg a = MsgHeap (x ++ y ++ z) -> blen d = blen y ->
  write_msg (blen x) d s = (Ok tt, s <| agent := Some (a <| ag_msg := MsgHeap (x ++ d ++ z) |>) |>).
Proof.
  intros Ea Em Hd. unfold write_msg. rewrite (ST_bind_ok _ _ _ _ _ (ld_agent_run a s Ea)), Em.
  rewrite wr_app by (by apply length_blen). rewrite st_deref. by apply st_agent_run.
Qed.

(** A message whose payload has the size it was given. *)
Definition framed_msg (payload : bytes) : bytes := c32toa (blen payload) ++ payload.
Definition built (payload : bytes) (a : WOLFSSH_AGENT_CTX) : WOLFSSH_AGENT_CTX :=
  a <| ag_msg := MsgHeap (framed_msg payload) |> <| ag_msgSz := LENGTH_SZ + blen payload |>
    <| ag_msgIdx := LENGTH_SZ + blen payload |>.

Lemma build_message_run payload a s :
  agent s = Some a -> ag_msg a = MsgNull -> 0 < blen payload -> blen payload + LENGTH_SZ < 2 ^ 32 ->
  build_message (blen payload) payload s =
    if default true (head (mallocs s)) then (Ok tt, s <| mallocs := tail (mallocs s) |> <| agent := Some (built payload a) |>)
    else (Err WS_MEMORY_E, s <| mallocs := tail (mallocs s) |>).
Proof.
  intros Ea Em Hp Hl. unfold build_message, PrepareMessage. rewrite st_assoc, st_guard.
  rewrite (proj2 (Z.eqb_neq _ _)) by lia.
  assert (free_msg s = (Ok tt, s)) as Ef by (unfold free_msg; by rewrite (ST_bind_ok _ _ _ _ _ (ld_agent_run a s Ea)), Em).
  rewrite st_assoc, (ST_bind_ok _ _ _ _ _ Ef). cbv zeta.
  rewrite st_assoc, (ST_bind_ok _ _ _ _ _ (malloc_run s)), st_assoc, st_guard.
  destruct (default true (head (mallocs s))); [cbn [negb]|done].
  cbv beta. rewrite wrap32_small by clia.
  erewrite ST_bind_ok by (apply st_agent_run; exact Ea). unfold append_msg. rewrite st_assoc.
  erewrite ST_bind_ok by (apply ld_agent_run; reflexivity). cbn [ag_msgIdx field_set]. rewrite st_assoc.
  erewrite ST_bind_ok by (apply (write_msg_run (zeros LENGTH_SZ) (zeros (blen payload)) []);
    [reflexivity|cbn; by rewrite app_nil_r, zeros_app by clia|by rewrite blen_zeros by lia]).
  erewrite ST_bind_ok by (apply st_agent_run; reflexivity). unfold BundleMessage. rewrite st_guard.
  rewrite (proj2 (Z.eqb_neq _ _)) by lia. erewrite ST_bind_ok by (apply ld_agent_run; reflexivity).
  cbn [ag_msgIdx ag_msgSz field_set]. rewrite st_guard. rewrite !wrap32_small by clia.
  destruct (Z.ltb_spec (blen payload + LENGTH_SZ) (LENGTH_SZ + blen payload)); [lia|].
  cbn [orb]. erewrite ST_bind_ok by (apply (write_msg_run [] (zeros LENGTH_SZ) (payload ++ []));
    [reflexivity|reflexivity|by rewrite c32toa_length]).
  erewrite st_agent_run by reflexivity. rewrite app_nil_r. apply (f_equal (pair (Ok tt))).
  transitivity (s <| mallocs := tail (mallocs s) |> <| agent := Some ((built payload a) <| ag_msgIdx := LENGTH_SZ +w blen payload |>) |>);
    [reflexivity|]. by rewrite wrap32_small by clia.
Qed.
End Run.

(** ** The agent's buffers *)

Section Buffers.
Context `{CTX}.

Lemma malloc_yes s : mallocs s = [] -> malloc s = (Ok true, s).
Proof. intros E. unfold malloc. by rewrite E. Qed.

Lemma on_buf_run {A} w (m : ST WOLFSSH_BUFFER A) a b v b' s :
  agent s = Some a -> ag_buf w a = Some b -> m b = (Ok v, b') ->
  on_buf w m s = (Ok v, s <| agent := Some (set_ag_buf w (Some b') a) |>).
Proof.
  intros Ea Eb Em. unfold on_buf, ld_buf. rewrite st_assoc, (ST_bind_ok _ _ _ _ _ (ld_agent_run a s Ea)), Eb, st_deref, Em.
  cbv beta iota. erewrite ST_bind_ok by (apply st_agent_run; exact Ea). apply st_lift_end.
Qed.

Definition buf_ok (o : option WOLFSSH_BUFFER) : Prop := match o with Some b => buffer_ok b | None => True end.
Definition wiped (b : WOLFSSH_BUFFER) : WOLFSSH_BUFFER := (set_buffer (zeros (bufferSz b)) b) <| b_length := 0 |> <| b_idx := 0 |>.

Lemma buffer_wiped b : buffer (wiped b) = zeros (bufferSz b).
Proof. exact (buffer_set_buffer (zeros (bufferSz b)) b). Qed.

Lemma wiped_ok b : buffer_ok b -> buffer_ok (wiped b).
Proof.
  intros []. pose proof (blen_nonneg (buffer b)). destruct (set_buffer_fields (zeros (bufferSz b)) b) as (F1&F2&F3&F4).
  split; rewrite ?buffer_wiped; unfold wiped; cbn -[zeros]; rewrite ?F3; try lia; [by rewrite blen_zeros by lia|].
  unfold set_buffer, buffer in *. destruct (dynamicFlag b); cbn -[zeros]; [done|]. rewrite blen_zeros by lia. lia.
Qed.

Lemma buffer_write_run x y z d b :
  buffer b = x ++ y ++ z -> blen d = blen y -> buffer_write (blen x) d b = (Ok tt, set_buffer (x ++ d ++ z) b).
Proof. intros Eb Hd. unfold buffer_write. rewrite st_get, Eb, wr_app by (by apply length_blen). by rewrite st_deref. Qed.

(** Room for a message in an emptied buffer. *)
Lemma rx_room a n s :
  agent s = Some a -> buf_ok (rxBuf a) -> mallocs s = [] -> 0 <= n < 2 ^ 32 -> exists b,
  (AgentBufferReset RxBuf;; AgentBufferPrep RxBuf n) s = (Ok tt, s <| agent := Some (a <| rxBuf := Some b |>) |>)
  /\ buffer_ok b /\ b_idx b = 0 /\ b_length b = 0 /\ n <= bufferSz b.
Proof.
  intros Ea Hb Hm Hn. unfold AgentBufferReset, AgentBufferPrep. erewrite ST_bind_ok by (apply st_agent_run; exact Ea).
  erewrite ST_bind_ok by (apply ld_agent_run; reflexivity). cbn [ag_buf set_ag_buf rxBuf field_set].
  assert (Hgrow : forall b0 t, agent t = Some (a <| rxBuf := Some b0 |>) -> mallocs t = [] -> buffer_ok b0 -> b_length b0 = 0 ->
    exists b, (mem ← malloc; on_buf RxBuf (GrowBuffer mem n)) t = (Ok tt, t <| agent := Some (a <| rxBuf := Some b |>) |>)
    /\ buffer_ok b /\ b_idx b = 0 /\ b_length b = 0 /\ n <= bufferSz b).
  { intros b0 t Et Ht Hb0 Hl0. rewrite (ST_bind_ok _ _ _ _ _ (malloc_yes t Ht)). pose proof (ok_idx _ Hb0).
    pose proof (GrowBuffer_ok true n b0 Hb0 ltac:(lia) ltac:(lia)) as Hg.
    destruct (GrowBuffer true n b0) as [[[]|e|] b] eqn:Eg; [|by destruct Hg|done].
    destruct Hg as (Hok & Hu & Hr & _ & Hi & _). unfold room in Hr. pose proof (ok_idx _ Hok).
    apply (f_equal blen) in Hu. rewrite !unread_length in Hu by done. exists b.
    erewrite on_buf_run; [|exact Et|reflexivity|exact Eg]. split; [done|]. split; [done|]. lia. }
  destruct (rxBuf a) as [b|] eqn:Er; cbn [option_map].
  - rewrite st_ret.
    destruct (Hgrow (wiped b) (s <| agent := Some (a <| rxBuf := Some (wiped b) |>) |>)) as (b1 & E & Hb1);
      [reflexivity|exact Hm|by apply wiped_ok|reflexivity|]. exists b1. split; [exact E|done].
  - rewrite st_assoc. erewrite ST_bind_ok by (apply malloc_yes; exact Hm). rewrite st_assoc, st_guard. cbn [negb].
    rewrite st_assoc.
    change (BufferInit true 0) with (Ok (mkBuffer 0 0 STATIC_BUFFER_LEN [] (zeros STATIC_BUFFER_LEN) false)). rewrite st_lift_ok. erewrite ST_bind_ok by (apply st_agent_run; reflexivity).
    destruct (Hgrow (mkBuffer 0 0 STATIC_BUFFER_LEN [] (zeros STATIC_BUFFER_LEN) false)
      (s <| agent := Some (a <| rxBuf := Some (mkBuffer 0 0 STATIC_BUFFER_LEN [] (zeros STATIC_BUFFER_LEN) false) |>) |>))
      as (b1 & E & Hb1); [reflexivity|exact Hm|split; vm_compute; intuition congruence|reflexivity|].
    exists b1. split; [exact E|done].
Qed.
End Buffers.

(** ** A local agent *)

(** The socket of an agent that has an answer to all it has been written: it takes and
    gives at least a byte at a time, in parts of any size. The rest of the session is
    not its business. *)
Class AgentSocket (answer : bytes -> bytes) `{CTX} := {
  written : bytes -> bytes;
  pending : bytes -> bytes;
  io : AgentIo -> M (Z * bytes);
  io_set : agentIoCb = Some io;
  io_write d s : 0 < blen d -> exists n x,
    io (AgentWrite d) s = (Ok (n, []), s <| app := x |>) /\ 0 < n <= blen d
    /\ written x = written (app s) ++ slice d 0 n /\ pending x = answer (written x);
  io_read n s : 0 < n -> pending (app s) <> [] -> exists d x,
    io (AgentRead n) s = (Ok (blen d, d), s <| app := x |>) /\ 0 < blen d <= n
    /\ pending (app s) = d ++ pending x;
  (* set up, nothing has been said *)
  io_setup cb s : agentCb = Some cb -> exists x,
    cb WOLFSSH_AGENT_LOCAL_SETUP s = (Ok WS_AGENT_SUCCESS, s <| app := x |>) /\ written x = [];
  io_cleanup cb s : agentCb = Some cb -> exists r x, cb WOLFSSH_AGENT_LOCAL_CLEANUP s = (Ok r, s <| app := x |>)
}.

Section Socket.
Context `{AgentSocket}.

Lemma agent_io_run op : agent_io op = io op.
Proof. unfold agent_io. by rewrite io_set. Qed.

Lemma write_loop_run fuel buf idx s :
  0 <= idx <= blen buf -> (Z.to_nat (blen buf - idx) < fuel)%nat -> exists x,
  AgentWriteAll_loop fuel buf idx s = (Ok (WS_SUCCESS, blen buf), s <| app := x |>) /\
  written x = written (app s) ++ drop (Z.to_nat idx) buf /\ (if decide (idx < blen buf) then pending x = answer (written x) else x = app s).
Proof.
  revert idx s. induction fuel as [|fuel IH]; intros idx s Hi Hf; [lia|]. cbn [AgentWriteAll_loop].
  destruct (Z.ltb_spec idx (blen buf)) as [Hlt|Hge].
  2: { exists (app s). rewrite drop_ge, app_nil_r by (unfold blen in *; lia).
       rewrite decide_False by lia.
       split; [|done]. replace idx with (blen buf) by lia. by destruct s. }
  rewrite agent_io_run. assert (blen (slice buf idx (blen buf - idx)) = blen buf - idx) as Hs by (apply blen_slice; lia).
  destruct (io_write (slice buf idx (blen buf - idx)) s ltac:(lia)) as (n & x & E & Hn & Hw & Hp). rewrite Hs in Hn.
  rewrite (ST_bind_ok _ _ _ _ _ E). cbv beta iota zeta.
  destruct (Z.leb_spec n 0); [lia|]. destruct (Z.ltb_spec (blen buf - idx) n); [lia|]. cbn [orb].
  destruct (IH (idx + n) (s <| app := x |>) ltac:(lia) ltac:(lia)) as (y & E2 & Hw2 & Hp2).
  exists y. rewrite (decide_True (P := idx < blen buf)) by done. split; [rewrite E2; reflexivity|]. split.
  - rewrite Hw2. cbn [Session.app field_set]. rewrite Hw, <- app_assoc. f_equal.
    unfold slice. rewrite drop_0, take_take, Nat.min_l by lia.
    replace (Z.to_nat (idx + n)) with (Z.to_nat idx + Z.to_nat n)%nat by lia. by rewrite <- drop_drop, take_drop.
  - revert Hp2. case_decide; [done|]. by intros ->.
Qed.

Lemma AgentWriteAll_run buf s : 0 < blen buf -> exists x,
  AgentWriteAll buf s = (Ok (WS_SUCCESS, blen buf), s <| app := x |>) /\ written x = written (app s) ++ buf
  /\ pending x = answer (written (app s) ++ buf).
Proof.
  intros Hb. destruct (write_loop_run (S (length buf)) buf 0 s) as (x & E & Hw & Hp); [lia|unfold blen; lia|].
  exists x. rewrite decide_True in Hp by done. rewrite drop_0 in Hw. rewrite <- Hw. done.
Qed.

(** Reading what is pending, each part stored: [I] of what has been read so far. *)
Lemma read_loop_run (I : bytes -> WOLFSSH -> Prop) store k :
  (forall r s x, I r s -> I r (s <| app := x |>)) ->
  (forall r d s, I r s -> blen r + blen d <= k -> exists s', store (blen r) d s = (Ok tt, s') /\ app s' = app s /\ I (r ++ d) s') ->
  forall fuel r d rest s,
  I r s -> blen r + blen d = k -> pending (app s) = d ++ rest -> (length d < fuel)%nat ->
  exists s', AgentReadFull_loop fuel store k r s = (Ok (r ++ d), s') /\ pending (app s') = rest /\ I (r ++ d) s'.
Proof.
  intros HI Hst fuel. induction fuel as [|fuel IH]; intros r d rest s Hr Hk Hp Hf; [lia|]. cbn [AgentReadFull_loop].
  destruct (Z.ltb_spec (blen r) k) as [Hlt|Hge].
  2: { assert (d = []) as -> by (destruct d; [done|rewrite blen_cons in Hk; pose proof (blen_nonneg d); lia]).
       rewrite app_nil_r. by exists s. }
  rewrite agent_io_run.
  destruct (io_read (k - blen r) s ltac:(lia)) as (e & x & E & He & Hx).
  { rewrite Hp. destruct d; [unfold blen in *; cbn in *; lia|done]. }
  rewrite (ST_bind_ok _ _ _ _ _ E). cbv beta iota zeta.
  destruct (Z.leb_spec (blen e) 0); [lia|]. destruct (Z.ltb_spec (k - blen r) (blen e)); [lia|]. cbn [orb].
  rewrite Z.eqb_refl. cbn [negb].
  destruct (Hst r e (s <| app := x |>)) as (s1 & E1 & Ha1 & HI1); [by apply HI|lia|].
  rewrite (ST_bind_ok _ _ _ _ _ E1).
  assert (exists d', d = e ++ d') as (d' & ->).
  { rewrite Hx in Hp. exists (drop (length e) d). rewrite <- (take_drop (length e) d) at 1. f_equal.
    apply (f_equal (take (length e))) in Hp. rewrite take_app_length, take_app_le in Hp by (unfold blen in *; lia).
    by symmetry. }
  rewrite <- app_assoc in Hp. rewrite Hp in Hx. apply app_inv_head in Hx.
  rewrite blen_app in Hk. rewrite length_app in Hf.
  destruct (IH (r ++ e) d' rest s1) as (s2 & E2 & Hp2 & HI2); [done|rewrite blen_app; lia|rewrite Ha1; symmetry; exact Hx| |].
  { unfold blen in *. lia. }
  exists s2. rewrite app_assoc. done.
Qed.

Lemma bind2 {S A B C} (m : ST S A) (k : A -> ST S B) (h : B -> ST S C) (s s' : S) b :
  (m ≫= k) s = (Ok b, s') -> (m ≫= fun a => k a ≫= h) s = h b s'.
Proof. intros E. rewrite <- (ST_bind_ok _ h _ _ _ E). symmetry. apply st_assoc. Qed.

Lemma agent_parse_word v before more len s :
  is_word32 v -> blen before + LENGTH_SZ <= len -> is_word32 len ->
  parse GetUint32 (before ++ c32toa v ++ more) len (blen before) s = (Ok (v, blen before + LENGTH_SZ), s).
Proof.
  intros Hv Hl Hw. unfold parse.
  rewrite (codec_read (encode := c32toa) (reader := GetUint32)) by (rewrite ?c32toa_length; first [done|clia]).
  by rewrite c32toa_length.
Qed.

(** A whole message that is pending is read into [rxBuf]. *)
Lemma AgentReadMessage_run a payload rest s :
  agent s = Some a -> buf_ok (rxBuf a) -> mallocs s = [] -> 0 < blen payload <= WOLFSSH_AGENT_MAX_MSG_SZ ->
  pending (app s) = framed_msg payload ++ rest -> exists x b,
  AgentReadMessage s = (Ok (framed_msg payload), s <| agent := Some (a <| rxBuf := Some b |>) |> <| app := x |>)
  /\ buffer_ok b /\ pending x = rest.
Proof.
  intros Ea Hb Hm Hp Hpe. unfold AgentReadMessage, framed_msg in *. rewrite <- app_assoc in Hpe.
  destruct (read_loop_run (fun _ t => exists x, t = s <| app := x |>) (fun _ _ => mret tt : M unit) LENGTH_SZ) with
    (fuel := S (Z.to_nat LENGTH_SZ)) (r := @nil Z) (d := c32toa (blen payload)) (rest := payload ++ rest) (s := s)
    as (s1 & E1 & Hp1 & (x1 & ->)).
  { intros _ t x [y ->]. by exists x. }
  { intros r d t [y ->] _. eexists. split; [reflexivity|]. split; [done|]. by exists y. }
  { exists (app s). by destruct s. }
  { cbn. by rewrite c32toa_length. }
  { done. }
  { vm_compute; lia. }
  unfold AgentReadFull at 1. rewrite (ST_bind_ok _ _ _ _ _ E1). cbn [Datatypes.app] in *.
  pose proof (agent_parse_word (blen payload) [] [] LENGTH_SZ (s <| app := x1 |>)) as Ep. rewrite app_nil_r in Ep.
  specialize (Ep ltac:(clia) ltac:(reflexivity) ltac:(clia)).
  rewrite (ST_bind_ok _ _ _ _ _ Ep). cbv beta iota zeta. rewrite st_guard.
  destruct (Z.eqb_spec (blen payload) 0); [lia|]. destruct (Z.ltb_spec WOLFSSH_AGENT_MAX_MSG_SZ (blen payload)); [lia|]. cbn [orb].
  rewrite wrap32_small by clia. set (s1 := s <| app := x1 |>).
  destruct (rx_room a (blen payload + LENGTH_SZ) s1) as (b & Eb & Hok & Hbi & Hbl & Hbs); [done|done|done|clia|].
  erewrite bind2 by exact Eb.
  pose proof (ok_size _ Hok) as Hsz. pose proof (ok_word _ Hok).
  set (hdr := c32toa (blen payload)) in *. assert (blen hdr = LENGTH_SZ) as Hh by apply c32toa_length.
  assert (exists old tl, buffer b = old ++ tl /\ blen old = LENGTH_SZ /\ blen payload <= blen tl) as (old & tl & Eo & Ho & Ht).
  { exists (take 4 (buffer b)), (drop 4 (buffer b)). rewrite take_drop. unfold blen in *. rewrite length_take, length_drop.
    split; [done|]. clia. }
  set (at_ r := Some (a <| rxBuf := Some (set_buffer (hdr ++ r ++ drop (length r) tl) b) |>)).
  erewrite ST_bind_ok by (apply (on_buf_run RxBuf _ (a <| rxBuf := Some b |>) b); [reflexivity|reflexivity|
    apply (buffer_write_run [] old tl); [exact Eo|congruence]]).
  destruct (read_loop_run (fun r t => exists x, t = s1 <| agent := at_ r |> <| app := x |>)
    (fun i d => on_buf RxBuf (buffer_write (LENGTH_SZ + i) d)) (blen payload)) with
    (fuel := S (Z.to_nat (blen payload))) (r := @nil Z) (d := payload) (rest := rest) (s := s1 <| agent := at_ [] |>)
    as (s2 & E2 & Hp2 & (x2 & ->)).
  { intros r t x [y ->]. by exists x. }
  { intros r d t [y ->] Hl. exists (s1 <| agent := at_ (r ++ d) |> <| app := y |>).
    split; [|split; [reflexivity|by exists y]].
    erewrite on_buf_run; [|reflexivity|reflexivity|rewrite <- Hh, <- blen_app;
      apply (buffer_write_run (hdr ++ r) (slice (drop (length r) tl) 0 (blen d)) (drop (length (r ++ d)) tl))].
    - rewrite set_buffer_twice. unfold at_. rewrite <- !app_assoc. reflexivity.
    - rewrite buffer_set_buffer. rewrite <- app_assoc. do 2 f_equal. unfold slice, blen.
      rewrite Nat2Z.id, drop_0, length_app, <- drop_drop. by rewrite take_drop.
    - rewrite blen_slice; [done|lia|pose proof (blen_nonneg d); lia|]. unfold blen in *. rewrite length_drop. lia. }
  { exists x1. subst at_ s1. cbn [length drop Datatypes.app]. rewrite drop_0. reflexivity. }
  { done. }
  { exact Hp1. }
  { unfold blen. lia. }
  unfold AgentReadFull. rewrite (ST_bind_ok _ _ _ _ _ E2). cbn [Datatypes.app].
  set (b2 := set_buffer (hdr ++ payload ++ drop (length payload) tl) b).
  erewrite ST_bind_ok by (apply (on_buf_run RxBuf _ (a <| rxBuf := Some b2 |>) b2); reflexivity).
  assert (blen (drop (length payload) tl) = blen tl - blen payload) as Hd by (unfold blen in *; rewrite length_drop; lia).
  assert (buffer_ok b2) as Hb2.
  { apply set_buffer_ok; [done|]. rewrite Eo, !blen_app. lia. }
  destruct (set_buffer_fields (hdr ++ payload ++ drop (length payload) tl) b) as (F1&F2&F3&F4).
  exists x2, (b2 <| b_length := blen payload + LENGTH_SZ |>). split; [|split; [|exact Hp2]].
  - set (b3 := b2 <| b_length := blen payload + LENGTH_SZ |>).
    rewrite (on_buf_run RxBuf (buffer_read 0 (blen payload + LENGTH_SZ)) (a <| rxBuf := Some b3 |>) b3 (hdr ++ payload) b3);
      [reflexivity|reflexivity|reflexivity|].
    rewrite buffer_read_ok.
    + f_equal. f_equal. change (buffer b3) with (buffer b2). unfold b2. rewrite buffer_set_buffer.
      unfold slice. rewrite drop_0, app_assoc. rewrite take_app_length'; [done|].
      rewrite length_app. unfold blen in *. lia.
    + clia.
    + clia.
    + change (buffer b3) with (buffer b2). rewrite (ok_size _ Hb2). unfold b2. rewrite F3. lia.
  - destruct Hb2 as [? ? ? ? ?]. split; try done. all: cbn. all: unfold b2 in *; clia.
Qed.
End Socket.

(** ** One message *)

Section Messages.
Context `{CTX} `{Crypto} `{Hashes} `{PubKeys} `{!SignKeys} `{!HostKeys} `{!KeyExchange} `{!AgentKeys} `{CertManager}.

(** A whole message goes to the handler of its id, with the payload after it. *)
Lemma DoMessage_framed m body a s :
  agent s = Some a -> blen body + 5 < 2 ^ 32 ->
  DoMessage (framed_msg (m :: body)) s =
    (payloadIdx ← message_handler m body; mret (5 +w payloadIdx)) (s <| agent := Some (a <| lastMsgId := m |>) |>).
Proof.
  intros Ea Hl. pose proof (blen_nonneg body) as H0'. unfold DoMessage, framed_msg.
  assert (blen (c32toa (blen (m :: body)) ++ m :: body) = 5 + blen body) as Hb.
  { rewrite blen_app, c32toa_length, blen_cons. clia. }
  rewrite Hb. erewrite ST_bind_ok by (apply st_agent_run; exact Ea). rewrite st_guard.
  destruct (Z.eqb_spec (5 + blen body) 0); [lia|].
  set (s1 := s <| agent := _ |>).
  assert (parse GetSize (c32toa (blen (m :: body)) ++ m :: body) (5 + blen body) 0 s1 = (Ok (1 + blen body, 4), s1)) as Ep.
  { unfold parse, GetSize. rewrite blen_cons.
    pose proof (codec_read (encode := c32toa) (reader := GetUint32) (1 + blen body) [] (m :: body) (5 + blen body)) as Ec.
    rewrite c32toa_length, blen_nil in Ec. cbn [Datatypes.app] in Ec.
    rewrite (ST_bind_ok _ _ _ _ _ (Ec ltac:(clia) ltac:(clia) ltac:(clia))), st_get, wrap32_small by clia.
    destruct (Z.ltb_spec (5 + blen body - (0 + UINT32_SZ)) (1 + blen body)); [clia|]. reflexivity. }
  rewrite (ST_bind_ok _ _ _ _ _ (or_else_run _ _ _ _ Ep)). cbv beta iota. rewrite st_guard.
  destruct (Z.eqb_spec (1 + blen body) 0); [lia|].
  assert (rd (c32toa (blen (m :: body)) ++ m :: body) 4 = Some m) as ->.
  { exact (rd_app_r (c32toa (blen (m :: body))) (m :: body) 0 ltac:(lia)). }
  rewrite st_deref. cbv zeta. rewrite wrap32_small by lia. replace (1 + blen body - 1) with (blen body) by lia.
  assert (slice (c32toa (blen (m :: body)) ++ m :: body) (4 + 1) (blen body) = body) as ->.
  { pose proof (slice_app_here (c32toa (blen (m :: body)) ++ [m]) body []) as Es. rewrite app_nil_r, <- app_assoc in Es. exact Es. }
  erewrite ST_bind_ok by (apply st_agent_run; reflexivity). reflexivity.
Qed.

Lemma DoSignResponse_run sig a s :
  agent s = Some a -> 0 < blen sig -> blen sig + 4 < 2 ^ 32 ->
  DoSignResponse (wstring sig) s =
    (Ok (LENGTH_SZ + blen sig), s <| agent := Some (a <| ag_msg := MsgInRx sig |> <| ag_msgSz := blen sig |>) |>).
Proof.
  intros Ea Hs Hl. unfold DoSignResponse. change (wstring sig) with (encode_string sig).
  assert (blen (encode_string sig) = LENGTH_SZ + blen sig) as Hb by apply blen_encode_string. rewrite Hb, st_guard.
  destruct (Z.eqb_spec (LENGTH_SZ + blen sig) 0); [clia|].
  pose proof (GetStringRef_encoded sig [] [] (LENGTH_SZ + blen sig)) as Er. rewrite Hb in Er. cbn [Datatypes.app] in Er.
  rewrite app_nil_r, blen_nil in Er. specialize (Er ltac:(lia) ltac:(clia)).
  assert (parse GetStringRef (encode_string sig) (LENGTH_SZ + blen sig) 0 s = (Ok (blen sig, Some sig, LENGTH_SZ + blen sig), s)) as Ep.
  { unfold parse. rewrite Er. unfold string_ref. by destruct (Z.eqb_spec (blen sig) 0); [lia|]. }
  rewrite (ST_bind_ok _ _ _ _ _ Ep). cbv beta iota. by erewrite ST_bind_ok by (apply st_agent_run; exact Ea).
Qed.
End Messages.

(** ** Asking for a signature *)

(** What an agent says to a request to sign, and what the library makes of it. *)
Inductive agent_reply := Signed (sig : bytes) | Refused.
Definition reply_message (r : agent_reply) : bytes :=
  match r with Signed sig => MSGID_AGENT_SIGN_RESPONSE :: wstring sig | Refused => [MSGID_AGENT_FAILURE] end.
Definition reply_result (r : agent_reply) (room : Z) : res bytes :=
  match r with
  | Signed sig => if room <? blen sig then Err WS_BUFFER_E else Ok sig
  | Refused => Err WS_AGENT_NO_KEY_E
  end.
Definition reply_ok (r : agent_reply) : Prop :=
  match r with Signed sig => 0 < blen sig | Refused => True end /\ blen (reply_message r) <= WOLFSSH_AGENT_MAX_MSG_SZ.

Section Signing.
Context `{CTX} `{Crypto} `{Hashes} `{PubKeys} `{!SignKeys} `{!HostKeys} `{!KeyExchange} `{!AgentKeys} `{CertManager}.
Context (answer : bytes -> bytes) `{!AgentSocket answer}.

Lemma mallocs_nil (s : WOLFSSH) : mallocs s = [] -> s <| mallocs := tail (mallocs s) |> = s.
Proof. intros E. rewrite E. destruct s; cbn in *. by subst. Qed.

Lemma sign_request_size data keyBlob flags :
  blen (sign_request data keyBlob flags) = MSG_ID_SZ + LENGTH_SZ * 2 + UINT32_SZ + blen data + blen keyBlob.
Proof. unfold sign_request, wstring. rewrite !blen_app, !c32toa_length, blen_cons, blen_nil. clia. Qed.

(** The request goes out whole and is not kept. *)
Lemma send_sign_request_run data keyBlob flags a s :
  agent s = Some a -> ag_msg a = MsgNull -> mallocs s = [] -> written (app s) = [] ->
  blen (sign_request data keyBlob flags) + LENGTH_SZ < 2 ^ 32 -> exists x a',
  send_sign_request data keyBlob flags s = (Ok tt, s <| agent := Some a' |> <| app := x |>)
  /\ ag_msg a' = MsgNull /\ rxBuf a' = rxBuf a /\ requestFailure a' = requestFailure a
  /\ pending x = answer (framed_msg (sign_request data keyBlob flags)).
Proof.
  intros Ea Em Hm Hw Hl. unfold send_sign_request. pose proof (sign_request_size data keyBlob flags) as Hsz.
  pose proof (blen_nonneg data). pose proof (blen_nonneg keyBlob).
  set (req := sign_request data keyBlob flags) in *.
  assert (SendSignRequest data keyBlob flags s = (Ok tt, s <| agent := Some (built req a) |>)) as E1.
  { unfold SendSignRequest. rewrite wrap32_small by clia. rewrite <- Hsz. fold req.
    rewrite (build_message_run req a s Ea Em) by clia. by rewrite (mallocs_nil s Hm), Hm. }
  assert (blen (framed_msg req) = LENGTH_SZ + blen req) as Hf by (unfold framed_msg; rewrite blen_app, c32toa_length; done).
  destruct (AgentWriteAll_run (framed_msg req) (s <| agent := Some (built req a) |>)) as (x & E2 & _ & Hp); [clia|].
  cbn [app field_set] in Hp. change (written (app s) ++ framed_msg req) with (written (app s) ++ framed_msg req) in Hp.
  rewrite Hw in Hp. cbn [Datatypes.app] in Hp.
  set (s1 := s <| agent := Some (built req a) |> <| app := x |>).
  erewrite ST_bind_ok.
  2: { eapply code_ok. rewrite (ST_bind_ok _ _ _ _ _ E1). erewrite ST_bind_ok by (apply ld_agent_run; reflexivity).
       cbn [ag_msg ag_msgSz built field_set]. rewrite <- Hf, slice_full, (ST_bind_ok _ _ _ _ _ E2). reflexivity. }
  erewrite ST_bind_ok by (apply (ld_agent_run (built req a)); reflexivity). cbn [ag_msg built field_set].
  exists x, ((built req a) <| ag_msg := MsgFreed |> <| ag_msg := MsgNull |> <| ag_msgSz := 0 |>).
  split; [|done]. reflexivity.
Qed.

Lemma take_reply r room a s :
  agent s = Some a -> reply_ok r -> requestFailure a = false -> exists a',
  (_ ← DoMessage (framed_msg (reply_message r)); take_signature room) s = (reply_result r room, s <| agent := Some a' |>)
  /\ rxBuf a' = rxBuf a.
Proof.
  intros Ea [Hs Hr] Hf. destruct r as [sig|]; cbn [reply_message reply_result] in *.
  - rewrite blen_cons in Hr. change (wstring sig) with (encode_string sig) in Hr. rewrite blen_encode_string in Hr.
    assert (blen (wstring sig) = UINT32_SZ + blen sig) as Hl by exact (blen_encode_string sig).
    set (a1 := a <| lastMsgId := MSGID_AGENT_SIGN_RESPONSE |>).
    pose proof (DoSignResponse_run sig a1 (s <| agent := Some a1 |>) eq_refl Hs ltac:(clia)) as Ed.
    set (a2 := a1 <| ag_msg := MsgInRx sig |> <| ag_msgSz := blen sig |>) in Ed. set (s1 := _ <| agent := Some a2 |>) in Ed.
    rewrite (ST_bind_ok (DoMessage _) _ s (5 +w (LENGTH_SZ + blen sig)) s1)
      by (rewrite (DoMessage_framed _ _ a s Ea) by clia; change (message_handler MSGID_AGENT_SIGN_RESPONSE) with DoSignResponse;
        fold a1; by rewrite (ST_bind_ok _ _ _ _ _ Ed)).
    unfold take_signature. rewrite (ST_bind_ok _ _ _ _ _ (ld_agent_run a2 s1 eq_refl)), st_guard.
    cbn [lastMsgId ag_msg requestFailure ag_msgSz a2 a1 field_set]. rewrite Z.eqb_refl. cbn [negb]. rewrite Hf.
    destruct (Z.eqb_spec (blen sig) 0); [lia|]. cbn [orb]. rewrite st_guard, slice_full.
    exists a2. split; [|done]. by destruct (room <? blen sig).
  - erewrite ST_bind_ok by (rewrite (DoMessage_framed _ _ a) by (rewrite ?blen_nil; done); reflexivity).
    eexists. split; [reflexivity|done].
Qed.

Lemma sign_exchange_run data keyBlob flags room r rest a s :
  agent s = Some a -> ag_msg a = MsgNull -> requestFailure a = false -> buf_ok (rxBuf a) -> mallocs s = [] ->
  written (app s) = [] -> blen (sign_request data keyBlob flags) + LENGTH_SZ < 2 ^ 32 ->
  answer (framed_msg (sign_request data keyBlob flags)) = framed_msg (reply_message r) ++ rest -> reply_ok r ->
  exists x a' b, sign_exchange data keyBlob flags room s = (reply_result r room, s <| agent := Some a' |> <| app := x |>)
    /\ rxBuf a' = Some b /\ buffer_ok b.
Proof.
  intros Ea Em Hf Hb Hm Hw Hl Han Hr. unfold sign_exchange.
  destruct (send_sign_request_run data keyBlob flags a s Ea Em Hm Hw Hl) as (x1 & a1 & E1 & Em1 & Hb1 & Hf1 & Hp1).
  rewrite (ST_bind_ok _ _ _ _ _ E1). rewrite Han in Hp1. set (s1 := s <| agent := _ |> <| app := _ |>).
  assert (0 < blen (reply_message r)) as Hpos.
  { destruct r as [sg|]; cbn [reply_message]; rewrite blen_cons; [pose proof (blen_nonneg (wstring sg))|]; unfold blen in *; lia. }
  destruct (AgentReadMessage_run a1 (reply_message r) rest s1) as (x2 & b & E2 & Hok & _);
    [done|by rewrite Hb1|done|split; [done|apply Hr]|done|].
  rewrite (ST_bind_ok _ _ _ _ _ E2). set (s2 := s1 <| agent := _ |> <| app := _ |>).
  destruct (take_reply r room (a1 <| rxBuf := Some b |>) s2) as (a' & E3 & Hb3); [done|done|by rewrite <- Hf, <- Hf1|].
  rewrite E3. exists x2, a', b. done.
Qed.

(** [agentCb] is set, or nothing has been said on the socket. *)
Definition ready (s : WOLFSSH) : Prop := agentCb = None -> written (app s) = [].

Lemma setup_run s : ready s -> exists x, agent_setup s = (Ok tt, s <| app := x |>) /\ written x = [].
Proof.
  unfold ready, agent_setup. destruct agentCb as [cb|] eqn:Ec; intros Hr.
  - destruct (io_setup cb s Ec) as (x & E & Hw). exists x. by rewrite (ST_bind_ok _ _ _ _ _ E).
  - exists (app s). split; [by destruct s|by apply Hr].
Qed.

Lemma SignRequest_run data keyBlob flags room r rest a s :
  agent s = Some a -> buf_ok (rxBuf a) -> mallocs s = [] -> ready s ->
  blen (sign_request data keyBlob flags) + LENGTH_SZ < 2 ^ 32 ->
  answer (framed_msg (sign_request data keyBlob flags)) = framed_msg (reply_message r) ++ rest -> reply_ok r ->
  exists x a' b, wolfSSH_AGENT_SignRequest data keyBlob flags room s =
      (reply_result r room, s <| agent := Some a' |> <| app := x |>)
    /\ ag_msg a' = MsgNull /\ rxBuf a' = Some (wiped b).
Proof.
  intros Ea Hb Hm Hrd Hl Han Hr. unfold wolfSSH_AGENT_SignRequest. rewrite st_get, Ea.
  set (a0 := a <| requestFailure := false |> <| requestSuccess := false |> <| ag_msg := MsgNull |> <| ag_msgSz := 0 |> <| lastMsgId := 0 |>).
  rewrite (ST_bind_ok _ _ _ _ _ (st_agent_run _ a s Ea)). fold a0. set (s0 := s <| agent := Some a0 |>).
  destruct (setup_run s0 Hrd) as (x1 & E1 & Hw1). set (s1 := s0 <| app := x1 |>) in *.
  rewrite (ST_bind_ok (attempt agent_setup) _ s0 (inl tt) s1) by (unfold attempt; by rewrite E1).
  destruct (sign_exchange_run data keyBlob flags room r rest a0 s1) as (x2 & a2 & b & E2 & Hb2 & Hok); try done.
  set (s2 := s1 <| agent := Some a2 |> <| app := x2 |>) in *.
  assert (attempt (sign_exchange data keyBlob flags room) s1
    = (Ok (match reply_result r room with Ok sg => inl sg | Err e => inr e | UB => inr 0 end), s2)) as E3.
  { unfold attempt. rewrite E2. destruct r; cbn; [by destruct (room <? _)|done]. }
  rewrite (ST_bind_ok _ _ _ _ _ E3). erewrite ST_bind_ok by (apply st_agent_run; reflexivity).
  unfold AgentBufferReset at 1. erewrite ST_bind_ok by (apply st_agent_run; reflexivity).
  set (s3 := s2 <| agent := _ |> <| agent := _ |>).
  set (a3 := set_ag_buf RxBuf (option_map wiped (rxBuf a2)) (a2 <| ag_msg := MsgNull |> <| ag_msgSz := 0 |>)).
  assert (exists x3, (match agentCb with Some cb => _ ← cb WOLFSSH_AGENT_LOCAL_CLEANUP; mret tt | None => mret tt end) s3
    = (Ok tt, s3 <| app := x3 |>)) as (x3 & E4).
  { destruct agentCb as [cb|] eqn:Ec.
    - destruct (io_cleanup cb s3 Ec) as (v & x3 & E). exists x3. by rewrite (ST_bind_ok _ _ _ _ _ E).
    - by exists (app s3). }
  rewrite (ST_bind_ok _ _ _ _ _ E4). exists x3, a3, b. split; [|split; [done|]].
  - destruct r; cbn [reply_result]; [by destruct (room <? _)|done].
  - unfold a3. rewrite Hb2. done.
Qed.

(** C39: A signature asked of the local agent, over a socket that takes and gives the
    bytes in any parts, is the one the agent answers the whole request with, if there
    is room for it; a refusal is [WS_AGENT_NO_KEY_E]. Either way the agent's state is
    left without a message and with the reply wiped. *)
Theorem AGENT_SignRequest_spec data keyBlob flags room r rest a s :
  agent s = Some a -> buf_ok (rxBuf a) -> mallocs s = [] -> ready s ->
  blen (sign_request data keyBlob flags) + LENGTH_SZ < 2 ^ 32 ->
  answer (framed_msg (sign_request data keyBlob flags)) = framed_msg (reply_message r) ++ rest -> reply_ok r ->
  exists x a' b, wolfSSH_AGENT_SignRequest data keyBlob flags room s =
      (reply_result r room, s <| agent := Some a' |> <| app := x |>)
    /\ ag_msg a' = MsgNull /\ rxBuf a' = Some (wiped b).
Proof. apply SignRequest_run. Qed.
End Signing.

(** ** Examples *)

#[export] Instance toy_agent_keys : AgentKeys := {|
  RSA_MAX_SIZE := 4096;
  mp_init := 0;
  mp_mod m n := inl (m mod n);
  rsa_of_parts n _ _ _ _ _ := be_value n;
  rsa_p k := k;
  rsa_q k := k;
  rsa_d k := k;
  set_dP _ k := k;
  set_dQ _ k := k;
  wc_ecc_import_private_key_ex d q c := inl (d, c)
|}.

(** A socket that takes three bytes at a time and gives five; the first byte of the
    application's memory counts what has been read of the answer to the rest. *)
Section ToySocket.
Context (answer : bytes -> bytes).
Definition toy_written (x : bytes) : bytes := tail x.
Definition toy_pending (x : bytes) : bytes := drop (Z.to_nat (nth 0 x 0)) (answer (tail x)).
Definition toy_io (op : AgentIo) : M (Z * bytes) := s ← get;
  match op with
  | AgentWrite d =>
    modify (fun s => s <| app := 0 :: tail (app s) ++ slice d 0 (min 3 (blen d)) |>);; mret (min 3 (blen d), [])
  | AgentRead n =>
    let d := slice (toy_pending (app s)) 0 (min n 5) in
    modify (fun s => s <| app := (Z.of_nat (Z.to_nat (nth 0 (app s) 0)) + blen d) :: tail (app s) |>);; mret (blen d, d)
  end.
Definition agent_client : CTX := client <| @agentIoCb := Some toy_io |>.

#[export] Instance toy_socket : @AgentSocket answer agent_client.
Proof.
  apply (@Build_AgentSocket answer agent_client toy_written toy_pending toy_io); try done.
  - intros d s Hd. exists (min 3 (blen d)), (0 :: tail (app s) ++ slice d 0 (min 3 (blen d))).
    split; [reflexivity|]. split; [unfold min; destruct (Z.ltb_spec (blen d) 3); lia|]. split; [done|].
    unfold toy_pending. cbn [nth Z.to_nat]. by rewrite drop_0.
  - intros n s Hn Hp. set (d := slice (toy_pending (app s)) 0 (min n 5)).
    exists d, ((Z.of_nat (Z.to_nat (nth 0 (app s) 0)) + blen d) :: tail (app s)).
    assert (0 < min n 5 <= n) as Hm by (unfold min; destruct (Z.ltb_spec 5 n); lia).
    assert (d = take (Z.to_nat (min n 5)) (toy_pending (app s))) as Ed by (unfold d, slice; by rewrite drop_0).
    split; [reflexivity|]. split.
    + rewrite Ed. unfold blen. rewrite length_take. destruct (toy_pending (app s)); [done|]. cbn. lia.
    + unfold toy_pending at 2. cbn [nth tail]. unfold blen. rewrite <- Nat2Z.inj_add, Nat2Z.id, <- drop_drop. fold (toy_pending (app s)).
      rewrite Ed at 1 2. rewrite length_take. set (p := toy_pending (app s)). clearbody p.
      destruct (Nat.le_ge_cases (Z.to_nat (min n 5)) (length p)) as [Hle|Hge].
      * rewrite Nat.min_l by done. by rewrite take_drop.
      * rewrite Nat.min_r, drop_all, app_nil_r, take_ge by done. done.
Defined.
End ToySocket.

(** An agent that signs anything with the same four bytes. *)
Definition sample_data : bytes := str "what is signed".
Definition sample_blob : bytes := str "a key".
Definition sample_answer (m : bytes) : bytes :=
  if bytes_eqb m (framed_msg (sign_request sample_data sample_blob AGENT_SIGN_RSA_SHA2_256))
  then framed_msg (reply_message (Signed [1; 2; 3; 4])) else [].
Definition sample_agent : WOLFSSH_AGENT_CTX :=
  mkAgent MsgNull [] 0 0 0 [] 0 0 AGENT_STATE_INIT false false 0 None None 0 false.
Definition agent_session : WOLFSSH := (new_session []) <| agent := Some sample_agent |>.

Example AGENT_SignRequest_spec_witness :
  (@wolfSSH_AGENT_SignRequest (agent_client sample_answer) _ _ _ _ _ _ sample_data sample_blob AGENT_SIGN_RSA_SHA2_256 64
    agent_session).1 = Ok [1; 2; 3; 4].
Proof.
  destruct (@AGENT_SignRequest_spec (agent_client sample_answer) _ _ _ _ _ _ sample_answer _
    sample_data sample_blob AGENT_SIGN_RSA_SHA2_256 64 (Signed [1; 2; 3; 4]) [] sample_agent agent_session)
    as (x & a' & b & E & _); [reflexivity|exact I|reflexivity|by intros _|vm_compute; reflexivity|vm_compute; reflexivity| |].
  - split; vm_compute; intuition congruence.
  - rewrite E. reflexivity.
Defined.
