(* ===== verification/UserAuthClient.v ===== *)
(** User authentication, the client (internal.c, [DoUserAuthFailure],
    [DoUserAuthInfoRequest] and [PrepareUserAuthRequestPassword] to
    [SendUserAuthRequest]): a method is chosen with the application, the request is
    sized, built and, for a key, signed here or by the agent.

    What is shown: a key's request carries a signature of the session identifier and of
    the whole request before it, by the key the application gave. *)

From S2P Require Import Prelude Codes Wire Names Buffer Fwd Algos Kdf Session Samples MsgFilter Transport.
From S2P Require Import Channels Send ChannelMsgs KexInit KexKeys KexAgree UserSig Ossh Composite OsshKey CertMan HostKey UserAuth KexDh Agent.

(** The sizes of signatures. *)
Class ClientKeys `{HostKeys} := {
  wc_ecc_sig_size : ecc_key -> Z;
  wc_ecc_size : ecc_key -> Z;
  wc_ed25519_sig_size : Z;
  wc_MlDsaKey_SigSize : MlDsaKey -> Z
}.

(** [WS_KeySignature], while a request is made: the key once there is one. *)
Record key_sig := mkKeySig {
  ks_keyId : AlgoId;
  ks_sigId : AlgoId;
  ks_sigName : bytes;
  ks_sigSz : Z
}.
#[export] Instance eta_key_sig : Eta key_sig := fun k => mkKeySig (ks_keyId k) (ks_sigId k) (ks_sigName k) (ks_sigSz k).

Section Client.
Context `{CTX} `{Crypto} `{Hashes} `{PubKeys} `{!SignKeys} `{!HostKeys} `{!KeyExchange} `{!AgentKeys} `{!ClientKeys} `{CertManager}.

(** ** Passwords *)

Definition PrepareUserAuthRequestPassword (payloadSz : Z) (password : bytes) : M Z :=
  let addSz := BOOLEAN_SZ + LENGTH_SZ in
  guard_err ((MAX_PACKET_SZ <? payloadSz) || (MAX_PACKET_SZ - payloadSz <? addSz)
             || (MAX_PACKET_SZ - payloadSz - addSz <? blen password)) WS_BUFFER_E;;
  mret (payloadSz + addSz + blen password).
Definition BuildUserAuthRequestPassword (password : bytes) : bytes := [0] ++ wstring password.

(** ** Loading the key *)

(** Room for the signature, its size and names. *)
Definition add_sig (pk : PublicKey) (payloadSz lengths sigSz nameSz e : Z) : M (Z * Z) :=
  if hasSignature pk then
    guard_err (sigSz <? 0) e;;
    mret (payloadSz +w LENGTH_SZ * lengths +w sigSz +w nameSz, sigSz)
  else mret (payloadSz, 0).

(** DER, or else an OpenSSH file, whose type takes the place of the one asked for. *)
Definition load_key {K} (r : wc K) (mk : K -> key_material) (keyId : AlgoId) (pk : PublicKey) : M (AlgoId * key_material) :=
  match r with
  | inl k => mret (keyId, mk k)
  | inr _ => lift_res (GetOpenSshKey (pk_privateKey pk) (blen (pk_privateKey pk)) 0).1
  end.
Definition as_rsa (k : key_material) : M RsaKey := match k with KeyRsa k => mret k | _ => ub end.
Definition as_ecc_key (k : key_material) : M ecc_key := match k with KeyEcc k => mret k | _ => ub end.
Definition as_ed (k : key_material) : M ed25519_key := match k with KeyEd25519 k => mret k | _ => ub end.
Definition as_mldsa (k : key_material) : M MlDsaKey := match k with KeyMlDsa k => mret k | _ => ub end.

(** Each loader returns the payload's size, the signature with its size, and the
    key. *)
Definition loaded : Type := Z * key_sig * option key_material.

Definition PrepareUserAuthRequestRsa (payloadSz : Z) (pk : PublicKey) (ks : key_sig) : M loaded :=
  ret_code wc_InitRsaKey;;
  s ← get;
  '(id, k) ← (if agentEnabled s then
                let blob := publicKey pk in
                '((_, name), _) ← parse GetStringRef blob (blen blob) 0;
                guard_err (negb (id_eqb (NameToId (ref_bytes name)) (ks_keyId ks))) WS_INVALID_ALGO_ID;;
                k ← lift_res (GetOpenSshPublicKey blob (blen blob) 0).1;
                mret (ks_keyId ks, k)
              else load_key (wc_RsaPrivateKeyDecode (pk_privateKey pk)) KeyRsa (ks_keyId ks) pk);
  key ← as_rsa k;
  let sigSz := wc_RsaEncryptSize key in
  '(payloadSz, sigSz) ← add_sig pk payloadSz 3 sigSz (blen (ks_sigName ks)) sigSz;
  mret (payloadSz, ks <| ks_keyId := id |> <| ks_sigSz := sigSz |>, Some k).

(** The certificate and OCSP counts, and the name again. *)
Definition cert_size (payloadSz : Z) (pk : PublicKey) : Z := payloadSz +w (LENGTH_SZ + blen (publicKeyType pk) + UINT32_SZ * 2).

Definition PrepareUserAuthRequestRsaCert (payloadSz : Z) (pk : PublicKey) (ks : key_sig) : M loaded :=
  ret_code wc_InitRsaKey;;
  s ← get;
  key ← (if agentEnabled s then call (wc_RsaPublicKeyDecode (publicKey pk))
         else
           guard_err (blen (pk_privateKey pk) =? 0) WS_BAD_ARGUMENT;;
           call (wc_RsaPrivateKeyDecode (pk_privateKey pk)));
  let sigSz := wc_RsaEncryptSize key in
  '(payloadSz, sigSz) ← add_sig pk (cert_size payloadSz pk) 3 sigSz (blen (publicKeyType pk)) sigSz;
  mret (payloadSz, ks <| ks_sigSz := sigSz |>, Some (KeyRsa key)).

(** The point in the agent's blob, after the names of the algorithm and the curve. *)
Definition agent_ecc (blob : bytes) : M ecc_key :=
  or_else (
    '(_, idx) ← parse GetSkip blob (blen blob) 0;
    '(_, idx) ← parse GetSkip blob (blen blob) idx;
    '((_, q), _) ← parse GetStringRef blob (blen blob) idx;
    lift_res (wc_ecc_import_x963 (ref_bytes q))) WS_ECC_E.

Definition PrepareUserAuthRequestEcc (payloadSz : Z) (pk : PublicKey) (ks : key_sig) : M loaded :=
  ret_code wc_ecc_init_ex;;
  s ← get;
  '(id, k) ← (if agentEnabled s then k ← agent_ecc (publicKey pk); mret (ks_keyId ks, KeyEcc k)
              else load_key (wc_EccPrivateKeyDecode (pk_privateKey pk)) KeyEcc (ks_keyId ks) pk);
  key ← as_ecc_key k;
  let sigSz := if agentEnabled s then (if 0 <? wc_ecc_size key then 2 * (wc_ecc_size key + 1) else WS_ECC_E)
               else wc_ecc_sig_size key in
  '(payloadSz, sigSz) ← add_sig pk payloadSz 5 sigSz (blen (publicKeyType pk)) sigSz;
  mret (payloadSz, ks <| ks_keyId := id |> <| ks_sigSz := sigSz |>, Some k).

Definition PrepareUserAuthRequestEccCert (payloadSz : Z) (pk : PublicKey) (ks : key_sig) : M loaded :=
  ret_code wc_ecc_init_ex;;
  guard_err (blen (pk_privateKey pk) =? 0) WS_BAD_ARGUMENT;;
  key ← call (wc_EccPrivateKeyDecode (pk_privateKey pk));
  let sigSz := wc_ecc_sig_size key in
  '(payloadSz, sigSz) ← add_sig pk (cert_size payloadSz pk) 5 sigSz (blen (publicKeyType pk)) sigSz;
  mret (payloadSz, ks <| ks_sigSz := sigSz |>, Some (KeyEcc key)).

(** The agent holds the key; a DER key without its public part gets it. *)
Definition ed25519_key_of (pk : PublicKey) (ks : key_sig) : M (AlgoId * key_material) :=
  match wc_Ed25519PrivateKeyDecode (pk_privateKey pk) with
  | inl k =>
    if pubKeySet k then mret (ks_keyId ks, KeyEd25519 k)
    else
      q ← call (wc_ed25519_make_public k);
      k ← call (wc_ed25519_import_public_ex q k);
      mret (ks_keyId ks, KeyEd25519 k)
  | inr e => load_key (inr e) KeyEd25519 (ks_keyId ks) pk
  end.
Definition PrepareUserAuthRequestEd25519 (payloadSz : Z) (pk : PublicKey) (ks : key_sig) : M loaded :=
  ret_code wc_ed25519_init_ex;;
  s ← get;
  '(id, k) ← (if agentEnabled s then mret (ks_keyId ks, None)
              else '(id, k) ← ed25519_key_of pk ks; mret (id, Some k));
  '(payloadSz, sigSz) ← add_sig pk payloadSz 3 wc_ed25519_sig_size (blen (publicKeyType pk)) wc_ed25519_sig_size;
  mret (payloadSz, ks <| ks_keyId := id |> <| ks_sigSz := sigSz |>, k).

(** A file has to hold a key of the type asked for. *)
Definition PrepareUserAuthRequestMlDsa (payloadSz : Z) (pk : PublicKey) (ks : key_sig) : M loaded :=
  match KeyIdToMlDsaLevel (ks_keyId ks) with
  | None => fail WS_INVALID_ALGO_ID
  | Some level =>
    '(id, k) ← load_key (match wc_MlDsaKey_Init level with
                         | inl k => wc_MlDsaKey_PrivateKeyDecode k (pk_privateKey pk)
                         | inr e => inr e
                         end) KeyMlDsa (ks_keyId ks) pk;
    guard_err (negb (id_eqb id (ks_keyId ks))) WS_KEY_FORMAT_E;;
    key ← as_mldsa k;
    '(payloadSz, sigSz) ← add_sig pk payloadSz 3 (wc_MlDsaKey_SigSize key) (blen (publicKeyType pk)) WS_CRYPTO_FAILED;
    mret (payloadSz, ks <| ks_sigSz := sigSz |>, Some k)
  end.

Definition PrepareUserAuthRequestMlDsaCert (payloadSz : Z) (pk : PublicKey) (ks : key_sig) : M loaded :=
  match KeyIdToMlDsaLevel (ks_keyId ks) with
  | None => fail WS_INVALID_ALGO_ID
  | Some level =>
    key ← or_recode WS_CRYPTO_FAILED (wc_MlDsaKey_Init level);
    key ← or_recode WS_CRYPTO_FAILED (wc_MlDsaKey_PrivateKeyDecode key (pk_privateKey pk));
    '(payloadSz, sigSz) ← add_sig pk (cert_size payloadSz pk) 3 (wc_MlDsaKey_SigSize key) (blen (publicKeyType pk)) WS_CRYPTO_FAILED;
    mret (payloadSz, ks <| ks_sigSz := sigSz |>, Some (KeyMlDsa key))
  end.

Definition PrepareUserAuthRequestMlDsaComposite (payloadSz : Z) (pk : PublicKey) (ks : key_sig) : M loaded :=
  params ← lift_res (WS_GetCompositeParams (ks_keyId ks));
  '(id, k) ← lift_res (GetOpenSshKey (pk_privateKey pk) (blen (pk_privateKey pk)) 0).1;
  guard_err (negb (id_eqb id (ks_keyId ks))) WS_KEY_FORMAT_E;;
  let sigSz := mldsaSigSz params + tradSigSz params in
  '(payloadSz, sigSz) ← add_sig pk payloadSz 3 sigSz (blen (publicKeyType pk)) sigSz;
  mret (payloadSz, ks <| ks_sigSz := sigSz |>, Some k).

(** *** The signature algorithm *)

(** The peer's algorithms, or the library's own when it named none. *)
Definition ClientOsshRsaCertSigId : M AlgoId :=
  s ← get;
  mret (OsshRsaCertSigId (if peerSigAlgsSeen (kex s) then default [] (peerSigId (kex s)) else cannedKeyAlgoClient)).

Definition choose_sig (pk : PublicKey) : M key_sig :=
  let keyId := NameToId (publicKeyType pk) in
  let algoId := if id_eqb keyId ID_SSH_RSA then [ID_RSA_SHA2_512; ID_RSA_SHA2_256] else [keyId] in
  s ← get;
  let matchId := MatchIdLists WOLFSSH_ENDPOINT_CLIENT algoId
                   (if peerSigAlgsSeen (kex s) then default [] (peerSigId (kex s)) else cannedKeyAlgoClient) in
  guard_err (id_eqb matchId ID_UNKNOWN) WS_MATCH_KEY_ALGO_E;;
  if id_eqb keyId ID_OSSH_CERT_RSA then
    sigId ← ClientOsshRsaCertSigId;
    mret (mkKeySig keyId matchId
      (if id_eqb sigId ID_RSA_SHA2_512 then str "rsa-sha2-512-cert-v01@openssh.com" else str "rsa-sha2-256-cert-v01@openssh.com") 0)
  else mret (mkKeySig keyId matchId (IdToName matchId) 0).

Definition prepare_key (keyId : AlgoId) : option (Z -> PublicKey -> key_sig -> M loaded) :=
  match keyId with
  | ID_SSH_RSA | ID_OSSH_CERT_RSA => Some PrepareUserAuthRequestRsa
  | ID_X509V3_SSH_RSA => Some PrepareUserAuthRequestRsaCert
  | ID_ECDSA_SHA2_NISTP256 | ID_ECDSA_SHA2_NISTP384 | ID_ECDSA_SHA2_NISTP521
  | ID_OSSH_CERT_ECDSA_SHA2_NISTP256 | ID_OSSH_CERT_ECDSA_SHA2_NISTP384 | ID_OSSH_CERT_ECDSA_SHA2_NISTP521 =>
    Some PrepareUserAuthRequestEcc
  | ID_X509V3_ECDSA_SHA2_NISTP256 | ID_X509V3_ECDSA_SHA2_NISTP384 | ID_X509V3_ECDSA_SHA2_NISTP521 =>
    Some PrepareUserAuthRequestEccCert
  | ID_ED25519 | ID_OSSH_CERT_ED25519 => Some PrepareUserAuthRequestEd25519
  | ID_MLDSA44 | ID_MLDSA65 | ID_MLDSA87 => Some PrepareUserAuthRequestMlDsa
  | ID_X509V3_MLDSA44 | ID_X509V3_MLDSA65 | ID_X509V3_MLDSA87 => Some PrepareUserAuthRequestMlDsaCert
  | ID_MLDSA44_ES256 | ID_MLDSA65_ES256 | ID_MLDSA87_ES384
  | ID_MLDSA44_ED25519 | ID_MLDSA65_ED25519 | ID_MLDSA87_ED448 => Some PrepareUserAuthRequestMlDsaComposite
  | _ => None
  end.

Definition PrepareUserAuthRequestPublicKey (payloadSz : Z) (pk : PublicKey) : M loaded :=
  ks ← choose_sig pk;
  let payloadSz := payloadSz +w (BOOLEAN_SZ + LENGTH_SZ * 2 + blen (ks_sigName ks) + blen (publicKey pk)) in
  match prepare_key (ks_keyId ks) with
  | Some prepare => prepare payloadSz pk ks
  | None => fail WS_INVALID_ALGO_ID
  end.

(** ** Building the signature *)

(** What a signature is made of: the session identifier and the request so far. *)
Definition checkData (msg : bytes) : M bytes :=
  mem ← malloc;
  guard_err (negb mem) WS_MEMORY_E;;
  s ← get;
  mret (wstring (sessionId (kex s)) ++ msg).

(** A signature from the agent, of at most [room] bytes, which has to be of the
    algorithm [id]. *)
Definition agent_signature (data : bytes) (pk : PublicKey) (flags room : Z) : M bytes :=
  wolfSSH_AGENT_SignRequest data (publicKey pk) flags room.
Definition agent_signature_as (id : AlgoId) (data : bytes) (pk : PublicKey) (flags room : Z) : M bytes :=
  sig ← agent_signature data pk flags room;
  '((_, name), _) ← parse GetStringRef sig (blen sig) 0;
  guard_err (negb (id_eqb (NameToId (ref_bytes name)) id)) WS_INVALID_ALGO_ID;;
  mret sig.

(** [wc_HashInit], [HashUpdate], [wc_HashFinal]. *)
Definition digest_of (hashId : wc_HashType) (data : bytes) : M bytes :=
  hash ← lift_res (wc_HashInit hashId);
  hash ← lift_res (wc_HashUpdate hashId hash data);
  lift_res (wc_HashFinal hashId hash).

(** A name and a signature, as one string. *)
Definition sig_block (name sig : bytes) : bytes :=
  c32toa (wrap32 (LENGTH_SZ * 2 + blen name + blen sig)) ++ wstring name ++ wstring sig.

(** The hash an algorithm signs, which has a size. *)
Definition rsa_hash (sigId : AlgoId) : M wc_HashType :=
  let hashId := HashForId sigId in
  guard_err (match hashId with WC_HASH_TYPE_NONE => true | _ => false end) WS_INVALID_ALGO_ID;;
  guard_err (wc_HashGetDigestSize hashId <=? 0) WS_INVALID_ALGO_ID;;
  mret hashId.

(** PKCS 1 over the digest, checked with the key before it is used. *)
Definition rsa_sign (hashId : wc_HashType) (digest : bytes) (key : RsaKey) (sigSz : Z) : M bytes :=
  let encDigest := wc_EncodeSignature digest hashId in
  guard_err (blen encDigest =? 0) WS_CRYPTO_FAILED;;
  sig ← or_else (with_rng (wc_RsaSSL_Sign encDigest sigSz key)) WS_RSA_E;
  guard_err ((blen sig =? 0) || negb (blen sig =? sigSz)) WS_RSA_E;;
  wolfSSH_RsaVerify (Some sig) encDigest key;;
  mret sig.

Definition BuildUserAuthRequestRsa (pk : PublicKey) (msg : bytes) (ks : key_sig) (k : option key_material) : M bytes :=
  effSigId ← (if id_eqb (ks_sigId ks) ID_OSSH_CERT_RSA then ClientOsshRsaCertSigId else mret (ks_sigId ks));
  hashId ← rsa_hash effSigId;
  data ← checkData msg;
  s ← get;
  if agentEnabled s then
    let flags := if id_eqb effSigId ID_RSA_SHA2_256 then AGENT_SIGN_RSA_SHA2_256
                 else if id_eqb effSigId ID_RSA_SHA2_512 then AGENT_SIGN_RSA_SHA2_512 else 0 in
    sig ← agent_signature_as effSigId data pk flags (wrap32 (LENGTH_SZ * 2 + ks_sigSz ks + blen (IdToName effSigId)));
    mret (wstring sig)
  else
    digest ← digest_of hashId data;
    name ← match effSigId with
           | ID_SSH_RSA | ID_RSA_SHA2_256 | ID_RSA_SHA2_512 => mret (IdToName effSigId)
           | _ => fail WS_INVALID_ALGO_ID
           end;
    k ← deref k;
    key ← as_rsa k;
    sig ← rsa_sign hashId digest key (ks_sigSz ks);
    mret (sig_block name sig).

Definition BuildUserAuthRequestRsaCert (pk : PublicKey) (msg : bytes) (ks : key_sig) (k : option key_material) : M bytes :=
  hashId ← rsa_hash (ks_sigId ks);
  data ← checkData msg;
  s ← get;
  if agentEnabled s then sig ← agent_signature data pk 0 (ks_sigSz ks); mret (wstring sig)
  else
    digest ← digest_of hashId data;
    k ← deref k;
    key ← as_rsa k;
    sig ← rsa_sign hashId digest key (ks_sigSz ks);
    mret (sig_block (str "ssh-rsa") sig).

(** What is left of the output buffer after the request so far. *)
Definition out_room (msg : bytes) : M Z :=
  s ← get;
  let b := outputBuffer (tx s) in
  let begin := b_length b +w blen msg in
  mret (if begin <? bufferSz b then bufferSz b - begin else 0).

(** The numbers of an ECDSA signature, as mpints in a string after the name. *)
Definition ecc_block (name msg r s : bytes) : M bytes :=
  let rPad := top_bit r in
  let sPad := top_bit s in
  let sz := blen r + b2z rPad + blen s + b2z sPad in
  outRemaining ← out_room msg;
  guard_err (outRemaining <? wrap32 (blen name + LENGTH_SZ * 5 + sz)) WS_BUFFER_E;;
  rs ← lift_res (EncodeEcdsaRsToMpints (outRemaining - (LENGTH_SZ * 3 + blen name)) r s rPad sPad);
  mret (c32toa (wrap32 (sz + blen name + LENGTH_SZ * 4)) ++ wstring name ++ c32toa (wrap32 (sz + LENGTH_SZ * 2)) ++ rs).

(** The curve's own name, for a certificate of a key on it too. *)
Definition ecc_base (id : AlgoId) : AlgoId :=
  match id with
  | ID_OSSH_CERT_ECDSA_SHA2_NISTP256 => ID_ECDSA_SHA2_NISTP256
  | ID_OSSH_CERT_ECDSA_SHA2_NISTP384 => ID_ECDSA_SHA2_NISTP384
  | ID_OSSH_CERT_ECDSA_SHA2_NISTP521 => ID_ECDSA_SHA2_NISTP521
  | id => id
  end.
Definition ecc_name (id : AlgoId) : option bytes :=
  match ecc_base id with
  | ID_ECDSA_SHA2_NISTP256 | ID_ECDSA_SHA2_NISTP384 | ID_ECDSA_SHA2_NISTP521 => Some (IdToName (ecc_base id))
  | _ => None
  end.

Definition BuildUserAuthRequestEcc (pk : PublicKey) (msg : bytes) (ks : key_sig) (k : option key_material) : M bytes :=
  data ← checkData msg;
  s ← get;
  if agentEnabled s then
    let agentSigSz := wrap32 (LENGTH_SZ * 4 + ks_sigSz ks + blen (publicKeyType pk)) in
    outRemaining ← out_room msg;
    guard_err ((outRemaining =? 0) || (outRemaining <? LENGTH_SZ +w agentSigSz)) WS_BUFFER_E;;
    sig ← agent_signature_as (ecc_base (ks_sigId ks)) data pk 0 agentSigSz;
    mret (wstring sig)
  else
    let hashId := HashForId (ks_sigId ks) in
    k ← deref k;
    key ← as_ecc_key k;
    hash ← lift_res (wc_HashInit hashId);
    sig ← or_else (
      hash ← lift_res (wc_HashUpdate hashId hash data);
      digest ← lift_res (wc_HashFinal hashId hash);
      with_rng (wc_ecc_sign_hash digest ECC_MAX_SIG_SIZE key)) WS_ECC_E;
    '(r, s) ← call (wc_ecc_sig_to_rs sig);
    match ecc_name (ks_sigId ks) with
    | Some name => ecc_block name msg r s
    | None => fail WS_INVALID_ALGO_ID
    end.

(** A certificate signs under its own name. *)
Definition ecc_cert_name (id : AlgoId) : option bytes :=
  match id with
  | ID_ECDSA_SHA2_NISTP256 | ID_ECDSA_SHA2_NISTP384 | ID_ECDSA_SHA2_NISTP521
  | ID_X509V3_ECDSA_SHA2_NISTP256 | ID_X509V3_ECDSA_SHA2_NISTP384 | ID_X509V3_ECDSA_SHA2_NISTP521 => Some (IdToName id)
  | _ => None
  end.
Definition BuildUserAuthRequestEccCert (pk : PublicKey) (msg : bytes) (ks : key_sig) (k : option key_material) : M bytes :=
  let hashId := HashForId (ks_sigId ks) in
  data ← checkData msg;
  digest ← or_else (digest_of hashId data) WS_ECC_E;
  k ← deref k;
  key ← as_ecc_key k;
  sig ← or_else (with_rng (wc_ecc_sign_hash digest ECC_MAX_SIG_SIZE key)) WS_ECC_E;
  '(r, s) ← call (wc_ecc_sig_to_rs sig);
  match ecc_cert_name (ks_sigId ks) with
  | Some name => ecc_block name msg r s
  | None => fail WS_INVALID_ALGO_ID
  end.

Definition BuildUserAuthRequestEd25519 (pk : PublicKey) (msg : bytes) (ks : key_sig) (k : option key_material) : M bytes :=
  data ← checkData msg;
  s ← get;
  if agentEnabled s then
    sig ← agent_signature data pk 0 (wrap32 (LENGTH_SZ * 2 + ED25519_SIG_SIZE + blen (publicKeyType pk)));
    mret (wstring sig)
  else
    k ← deref k;
    key ← as_ed k;
    sig ← or_else (call (wc_ed25519_sign_msg data ED25519_SIG_SIZE key)) WS_ED25519_E;
    mret (sig_block (str "ssh-ed25519") sig).

Definition BuildUserAuthRequestMlDsa (pk : PublicKey) (msg : bytes) (ks : key_sig) (k : option key_material) : M bytes :=
  mem ← malloc;
  guard_err (negb mem) WS_MEMORY_E;;
  data ← checkData msg;
  k ← deref k;
  key ← as_mldsa k;
  sig ← or_else (with_rng (wc_MlDsaKey_SignCtx key [] (ks_sigSz ks) data)) WS_MLDSA_E;
  mret (sig_block (IdToName (ks_keyId ks)) sig).

Definition BuildUserAuthRequestMlDsaComposite (pk : PublicKey) (msg : bytes) (ks : key_sig) (k : option key_material) : M bytes :=
  params ← lift_res (WS_GetCompositeParams (ks_keyId ks));
  guard_err (ks_sigSz ks <? mldsaSigSz params + tradSigSz params) WS_BAD_ARGUMENT;;
  mem ← malloc;
  guard_err (negb mem) WS_MEMORY_E;;
  data ← checkData msg;
  mem1 ← malloc;
  mem2 ← malloc;
  guard_err (negb (mem1 && mem2)) WS_MEMORY_E;;
  k ← deref k;
  '(mldsa, trad) ← match k with KeyComposite k => mret k | _ => ub end;
  mPrime ← mPrime_of params data;
  sig ← or_else (with_rng (wc_MlDsaKey_SignCtx mldsa (label params) (mldsaSigSz params) mPrime)) WS_MLDSA_E;
  guard_err (negb (blen sig =? mldsaSigSz params)) WS_MLDSA_E;;
  tradSig ← sign (WS_GetTradOps (tradType params)) trad (tradHashId params) (tradHashSz params) mPrime (tradSigSz params);
  mret (sig_block (publicKeyType pk) (sig ++ tradSig)).

(** The signature of the request whose first part is [msg], with the key's blob and
    name as its type has them. *)
Definition with_blob (name : bytes) (pk : PublicKey) (msg : bytes) (build : bytes -> M bytes) : M bytes :=
  let part := wstring name ++ wstring (publicKey pk) in
  sig ← build (msg ++ part);
  mret (part ++ sig).
Definition with_cert (ks : key_sig) (pk : PublicKey) (msg : bytes) (build : bytes -> M bytes) : M bytes :=
  info ← lift_res (BuildRFC6187Info (ks_keyId ks) (publicKey pk));
  let part := wstring (publicKeyType pk) ++ info in
  sig ← build (msg ++ part);
  mret (part ++ sig).

Definition build_signed (pk : PublicKey) (msg : bytes) (ks : key_sig) (k : option key_material) : M bytes :=
  match ks_sigId ks with
  | ID_SSH_RSA | ID_RSA_SHA2_256 | ID_RSA_SHA2_512 | ID_OSSH_CERT_RSA =>
    with_blob (ks_sigName ks) pk msg (fun m => BuildUserAuthRequestRsa pk m ks k)
  | ID_X509V3_SSH_RSA => with_cert ks pk msg (fun m => BuildUserAuthRequestRsaCert pk m ks k)
  | ID_ECDSA_SHA2_NISTP256 | ID_ECDSA_SHA2_NISTP384 | ID_ECDSA_SHA2_NISTP521
  | ID_OSSH_CERT_ECDSA_SHA2_NISTP256 | ID_OSSH_CERT_ECDSA_SHA2_NISTP384 | ID_OSSH_CERT_ECDSA_SHA2_NISTP521 =>
    with_blob (publicKeyType pk) pk msg (fun m => BuildUserAuthRequestEcc pk m ks k)
  | ID_X509V3_ECDSA_SHA2_NISTP256 | ID_X509V3_ECDSA_SHA2_NISTP384 | ID_X509V3_ECDSA_SHA2_NISTP521 =>
    with_cert ks pk msg (fun m => BuildUserAuthRequestEccCert pk m ks k)
  | ID_ED25519 | ID_OSSH_CERT_ED25519 => with_blob (publicKeyType pk) pk msg (fun m => BuildUserAuthRequestEd25519 pk m ks k)
  | ID_MLDSA44 | ID_MLDSA65 | ID_MLDSA87 => with_blob (publicKeyType pk) pk msg (fun m => BuildUserAuthRequestMlDsa pk m ks k)
  | ID_X509V3_MLDSA44 | ID_X509V3_MLDSA65 | ID_X509V3_MLDSA87 => with_cert ks pk msg (fun m => BuildUserAuthRequestMlDsa pk m ks k)
  | ID_MLDSA44_ES256 | ID_MLDSA65_ES256 | ID_MLDSA87_ES384
  | ID_MLDSA44_ED25519 | ID_MLDSA65_ED25519 | ID_MLDSA87_ED448 =>
    with_blob (publicKeyType pk) pk msg (fun m => BuildUserAuthRequestMlDsaComposite pk m ks k)
  | _ => fail WS_INVALID_ALGO_ID
  end.

Definition BuildUserAuthRequestPublicKey (pk : PublicKey) (msg : bytes) (ks : key_sig) (k : option key_material) : M bytes :=
  let flag := [b2z (hasSignature pk)] in
  if hasSignature pk then
    part ← build_signed pk (msg ++ flag) ks k;
    mret (flag ++ part)
  else fail WS_INVALID_ALGO_ID.

(** ** Sending a request *)

(** The method for the types asked for: keyboard interactive first, or what the
    application has a credential for. *)
Definition choose_method (authType : Z) : M (AlgoId * WS_UserAuthData) :=
  s ← get;
  if truthy (Z.land authType WOLFSSH_USERAUTH_KEYBOARD) then
    mret (ID_USERAUTH_KEYBOARD, mkAuthData 0 [] [] [] SfZero)
  else
    match userAuthCb with
    | None => fail WS_FATAL_ERROR
    | Some cb =>
      let authData := mkAuthData authType (default [] (userName (auth s))) [] [] SfZero in
      '(asked, got, authData) ←
        (if truthy (Z.land authType WOLFSSH_USERAUTH_PASSWORD) then
           '(ret, authData) ← cb WOLFSSH_USERAUTH_PASSWORD authData;
           mret (true, ret =? WOLFSSH_USERAUTH_SUCCESS, authData)
         else mret (false, false, authData));
      if got : bool then mret (ID_USERAUTH_PASSWORD, authData <| au_type := WOLFSSH_USERAUTH_PASSWORD |>)
      else if truthy (Z.land authType WOLFSSH_USERAUTH_PUBLICKEY) then
        '(ret, authData) ← cb WOLFSSH_USERAUTH_PUBLICKEY authData;
        guard_err (negb (ret =? WOLFSSH_USERAUTH_SUCCESS)) WS_FATAL_ERROR;;
        mret (ID_USERAUTH_PUBLICKEY, authData <| au_type := WOLFSSH_USERAUTH_PUBLICKEY |>)
      else if asked : bool then fail WS_FATAL_ERROR
      else mret (ID_NONE, authData)
    end.

(** What the callback left in the union. *)
Definition zero_publicKey : PublicKey := mkPublicKey [] 0 [] [] false [] false false [] [] 0 0 None None [].
Definition password_of (a : WS_UserAuthData) : M bytes :=
  match sf a with SfZero => mret [] | SfPassword p _ _ => mret p | _ => ub end.
Definition publicKey_of (a : WS_UserAuthData) : M PublicKey :=
  match sf a with SfZero => mret zero_publicKey | SfPublicKey p => mret p | _ => ub end.

(** The first part of a request. *)
Definition request_head (user : bytes) (authId : AlgoId) : bytes :=
  [MSGID_USERAUTH_REQUEST] ++ wstring user ++ wstring (IdToName ID_SERVICE_CONNECTION) ++ wstring (IdToName authId).

Definition no_keySig : key_sig := mkKeySig ID_NONE ID_NONE [] 0.

(** The payload's size and, for a key that is tried the first time, the key; a key
    is tried once. *)
Definition size_request (user : bytes) (authId : AlgoId) (authData : WS_UserAuthData)
    : M (Z * WS_UserAuthData * key_sig * option key_material) :=
  let payloadSz := wrap32 (MSG_ID_SZ + LENGTH_SZ * 3 + blen user + blen (IdToName ID_SERVICE_CONNECTION)
                           + blen (IdToName authId)) in
  s ← get;
  match authId with
  | ID_USERAUTH_PASSWORD =>
    password ← password_of authData;
    payloadSz ← PrepareUserAuthRequestPassword payloadSz password;
    mret (payloadSz, authData, no_keySig, None)
  | ID_USERAUTH_PUBLICKEY =>
    if userAuthPkDone (auth s) then mret (payloadSz, authData, no_keySig, None)
    else
      pk ← publicKey_of authData;
      let pk := pk <| hasSignature := true |> in
      modify (fun s => s <| auth; userAuthPkDone := true |>);;
      '(payloadSz, ks, k) ← PrepareUserAuthRequestPublicKey payloadSz pk;
      mret (payloadSz, authData <| sf := SfPublicKey pk |>, ks, k)
  | _ => mret (payloadSz, authData, no_keySig, None)
  end.

(** The method's part of the request; the keyboard's language and submethods are
    empty. *)
Definition request_tail (head : bytes) (authId : AlgoId) (authData : WS_UserAuthData) (ks : key_sig)
    (k : option key_material) : M bytes :=
  match authId with
  | ID_USERAUTH_PASSWORD => password ← password_of authData; mret (BuildUserAuthRequestPassword password)
  | ID_USERAUTH_KEYBOARD =>
    modify (fun s => s <| auth; kbAuthAttempts ::= (fun n => wrap8 (n + 1)) |>);;
    mret (c32toa 0 ++ c32toa 0)
  | ID_USERAUTH_PUBLICKEY => pk ← publicKey_of authData; BuildUserAuthRequestPublicKey pk head ks k
  | _ => mret []
  end.

(** A request queued: the method it is for. *)
Definition queue_request (authType : Z) : M AlgoId :=
  mem ← malloc;
  guard_err (negb mem) WS_MEMORY_E;;
  '(authId, authData) ← choose_method authType;
  s ← get;
  let user := default [] (userName (auth s)) in
  '(payloadSz, authData, ks, k) ← size_request user authId authData;
  PreparePacket payloadSz;;
  tail ← request_tail (request_head user authId) authId authData ks k;
  put (request_head user authId ++ tail);;
  BundlePacket;;
  mret authId.

Definition SendUserAuthRequest (authType : Z) : M unit :=
  r ← attempt (queue_request authType);
  match r with
  | inr e => PurgePacket;; fail e
  | inl authId =>
    s ← get;
    let flushes := txFlushCount (tx s) in
    ret ← code wolfSSH_SendPacket;
    delivered ← SendPacketDelivered flushes ret;
    (if delivered : bool then
       when (id_eqb authId ID_USERAUTH_KEYBOARD) (modify (fun s => s <| auth; kbRequestSent := true |>))
     else PurgePacket);;
    ret_code ret
  end.

(** ** A refusal *)

(** The types of the methods both sides have, keyboard interactive for its first
    three attempts. *)
Definition auth_bit (attempts : Z) (id : AlgoId) : Z :=
  match id with
  | ID_USERAUTH_PASSWORD => WOLFSSH_USERAUTH_PASSWORD
  | ID_USERAUTH_KEYBOARD => if attempts <? 3 then WOLFSSH_USERAUTH_KEYBOARD else 0
  | ID_USERAUTH_PUBLICKEY => WOLFSSH_USERAUTH_PUBLICKEY
  | _ => 0
  end.
Definition common_methods (attempts : Z) (supported authList : list AlgoId) : Z :=
  foldl (fun t id => if existsb (id_eqb id) supported then Z.lor t (auth_bit attempts id) else t) 0 authList.

Definition DoUserAuthFailure (buf : bytes) (len : Z) : M unit :=
  guard_err (len =? 0) WS_BAD_ARGUMENT;;
  '(authList, i) ← parse (GetNameList 4) buf len 0;
  _ ← parse GetBoolean buf len i;
  modify (fun s => s <| auth; kbRequestSent := false |>);;
  s ← get;
  let authType := common_methods (kbAuthAttempts (auth s)) (supportedAuth (auth s)) authList in
  guard_err (authType =? 0) WS_USER_AUTH_E;;
  SendUserAuthRequest authType.

(** ** Keyboard interactive *)

(** The answers, one string each, as many as the callback says. *)
Definition answers_of (k : Keyboard) : M (list bytes) :=
  if responseCount k =? 0 then mret []
  else
    rs ← deref (responses k);
    if blen rs <? responseCount k then ub else mret (take (Z.to_nat (responseCount k)) rs).

Definition PrepareUserAuthResponseKeyboard (payloadSz : Z) (rs : list bytes) : Z :=
  foldl (fun sz r => sz +w (LENGTH_SZ + blen r)) (payloadSz +w LENGTH_SZ) rs.
Definition BuildUserAuthResponseKeyboard (k : Keyboard) (rs : list bytes) : M bytes :=
  guard_err (negb (promptCount k =? responseCount k)) WS_USER_AUTH_E;;
  mret (c32toa (responseCount k) ++ concat (map wstring rs)).

(** The prompts are let go with the answers. *)
Definition clear_prompts : M unit :=
  modify (fun s => s <| auth; kbAuth ::= (fun k =>
    k <| promptName := None |> <| promptInstruction := None |> <| promptLanguage := None |>
      <| promptEcho := None |> <| prompts := None |> <| promptCount := 0 |>) |>).

(** The application's answers to the prompts, one to each. *)
Definition ask_answers : M Keyboard :=
  match userAuthCb with
  | None => fail WS_INVALID_STATE_E
  | Some cb =>
    s ← get;
    let kb := kbAuth (auth s) in
    let sf := SfKeyboard (kb <| promptName := option_map cstr (promptName kb) |>
                <| promptInstruction := option_map cstr (promptInstruction kb) |>
                <| promptLanguage := option_map cstr (promptLanguage kb) |>
                <| responseCount := 0 |> <| responses := None |>) in
    '(ret, authData) ← cb WOLFSSH_USERAUTH_KEYBOARD
                         (mkAuthData WOLFSSH_USERAUTH_KEYBOARD (default [] (userName (auth s))) [] [] sf);
    guard_err (negb (ret =? WOLFSSH_USERAUTH_SUCCESS)) WS_FATAL_ERROR;;
    s ← get;
    k ← keyboard_of authData;
    guard_err (negb (promptCount (kbAuth (auth s)) =? responseCount k)) WS_USER_AUTH_E;;
    mret k
  end.

Definition send_answers (k : Keyboard) : M unit :=
  rs ← answers_of k;
  PreparePacket (PrepareUserAuthResponseKeyboard MSG_ID_SZ rs);;
  answers ← BuildUserAuthResponseKeyboard k rs;
  put ([MSGID_USERAUTH_INFO_RESPONSE] ++ answers);;
  BundlePacket;;
  wolfSSH_SendPacket.

Definition SendUserAuthKeyboardResponse : M unit :=
  ret ← code (
    r ← attempt ask_answers;
    clear_prompts;;
    match r with
    | inl k => send_answers k
    | inr e => fail e
    end);
  when (negb (ret =? WS_WANT_WRITE) && negb (ret =? WS_SUCCESS)) PurgePacket;;
  ret_code ret.

(** [n] prompts, each with whether to echo its answer. *)
Fixpoint read_prompts (n : nat) (buf : bytes) (len begin : Z) : M (list bytes * bytes) :=
  match n with
  | O => mret ([], [])
  | S n =>
    '(p, begin) ← string_alloc buf len begin;
    '(e, begin) ← parse GetBoolean buf len begin;
    '(ps, es) ← read_prompts n buf len begin;
    mret (p :: ps, e :: es)
  end.

(** Prompts the client did not ask for are refused. *)
Definition DoUserAuthInfoRequest (buf : bytes) (len : Z) : M unit :=
  guard_err (len =? 0) WS_BAD_ARGUMENT;;
  s ← get;
  if negb (side =? WOLFSSH_ENDPOINT_CLIENT) || negb (kbRequestSent (auth s)) then
    _ ← code (SendDisconnect WOLFSSH_DISCONNECT_PROTOCOL_ERROR);
    fail WS_INVALID_STATE_E
  else
    '(name, i) ← string_alloc buf len 0;
    '(instruction, i) ← string_alloc buf len i;
    '(language, i) ← string_alloc buf len i;
    '(promptSz, i) ← parse GetUint32 buf len i;
    guard_err (WOLFSSH_MAX_PROMPTS <? promptSz) WS_USER_AUTH_E;;
    '(ps, es) ← (if truthy promptSz then
                   mem ← malloc;
                   guard_err (negb mem) WS_MEMORY_E;;
                   mem ← malloc;
                   guard_err (negb mem) WS_MEMORY_E;;
                   '(ps, es) ← read_prompts (Z.to_nat promptSz) buf len i;
                   mret (Some ps, Some es)
                 else mret (None, None));
    modify (fun s => s <| auth; kbAuth ::= (fun k =>
      k <| promptCount := promptSz |> <| prompts := ps |> <| promptInstruction := Some instruction |>
        <| promptName := Some name |> <| promptLanguage := Some language |> <| promptEcho := es |>) |>);;
    SendUserAuthKeyboardResponse;;
    modify (fun s => s <| auth; authId := ID_USERAUTH_KEYBOARD |>).
End Client.
