(* ===== verification/ClientSpec.v ===== *)
(** What the client's requests to be authenticated promise: the server takes the
    signature of an ML-DSA key it made; prompts nobody asked for are not shown to the
    application; the methods of a new attempt. *)

From S2P Require Import Prelude Codes Wire Names Buffer Fwd Algos Kdf Session Samples MsgFilter Transport.
From S2P Require Import Channels Send ChannelMsgs ConnSafe ConnSpec ChannelIO KexInit KexKeys KexAgree Frames UserSig.
From S2P Require Import Ossh Composite OsshKey CertMan HostKey UserAuth UserAuthSpec KexDh KexDhSpec Agent AgentSpec.
From S2P Require Import UserAuthClient.

Section Request.
Context `{CTX} `{Crypto} `{Hashes} `{PubKeys} `{!SignKeys} `{!HostKeys} `{!KeyExchange} `{!AgentKeys} `{!ClientKeys} `{CertManager}.
Context `{!SignLaws}.
Implicit Types (s : WOLFSSH).

(** The key types whose blob is a raw ML-DSA key. *)
Definition own_mldsa (id : AlgoId) : bool :=
  match id with ID_MLDSA44 | ID_MLDSA65 | ID_MLDSA87 => true | _ => false end.

Definition connection_service : bytes := str "ssh-connection".

Lemma checkData_inv msg s d s' : checkData msg s = (Ok d, s') ->
  d = wstring (sessionId (kex s)) ++ msg /\ kex s' = kex s.
Proof.
  unfold checkData. intros E. apply ST_bind_inv in E as (mem & s1 & Em & E). rewrite malloc_run in Em. injection Em as _ <-.
  rewrite st_guard in E. destruct mem; [|done]. cbn [negb] in E. cbv iota in E. rewrite st_get in E. by injection E as <- <-.
Qed.

(** What the client builds for a key of these types. *)
Lemma build_mldsa_inv pk head ks sk s tail s' :
  own_mldsa (ks_sigId ks) = true -> ks_keyId ks = ks_sigId ks ->
  BuildUserAuthRequestPublicKey pk head ks (Some (KeyMlDsa sk)) s = (Ok tail, s') ->
  let part := [1] ++ wstring (publicKeyType pk) ++ wstring (publicKey pk) in
  exists sg g g', tail = part ++ sig_block (IdToName (ks_sigId ks)) sg /\
    wc_MlDsaKey_SignCtx sk [] (ks_sigSz ks) (wstring (sessionId (kex s)) ++ head ++ part) g = (inl sg, g').
Proof.
  intros Ho Ek E. unfold BuildUserAuthRequestPublicKey in E. destruct (hasSignature pk); [|done]. cbv zeta in E. cbn [b2z] in E.
  apply ST_bind_inv in E as (rest & s1 & E1 & E). injection E as <- <-. unfold build_signed in E1.
  assert (with_blob (publicKeyType pk) pk (head ++ [1]) (fun m => BuildUserAuthRequestMlDsa pk m ks (Some (KeyMlDsa sk))) s = (Ok rest, s1)) as E2
    by (by destruct (ks_sigId ks)). clear E1. unfold with_blob in E2. cbv zeta in E2.
  apply ST_bind_inv in E2 as (sig & s2 & E & E2). injection E2 as <- <-.
  unfold BuildUserAuthRequestMlDsa in E. apply ST_bind_inv in E as (mem & s3 & Em & E). rewrite malloc_run in Em. injection Em as _ <-.
  rewrite st_guard in E. destruct mem; [|done]. cbn [negb] in E. cbv iota in E.
  apply ST_bind_inv in E as (d & s4 & [-> _]%checkData_inv & E).
  apply ST_bind_inv in E as (k & s5 & [= <- <-] & E). apply ST_bind_inv in E as (k & s6 & [= <- <-] & E).
  apply ST_bind_inv in E as (sg & s7 & E3%or_else_inv & E). injection E as <- _. unfold with_rng in E3.
  destruct (wc_MlDsaKey_SignCtx _ _ _ _ _) as [[sg'|e] g'] eqn:Es; [|done]. injection E3 as -> <-.
  eexists sg, _, g'. split; [by rewrite Ek, <- !app_assoc|]. cbn in Es. rewrite <- !app_assoc in Es. exact Es.
Qed.

Lemma sized_run buf i a tail s : cursor buf (blen buf) i (wstring a ++ tail) ->
  exists j, sized buf i s = (Ok (a, j), s) /\ cursor buf (blen buf) j tail.
Proof.
  intros Hc. destruct (cursor_string _ _ _ _ _ Hc) as (_ & Hc' & Hw & _). destruct Hc as (p & Eb & -> & El & Hl).
  exists (blen p + blen (wstring a)). split; [|exact Hc'].
  pose proof (blen_nonneg p). pose proof (blen_nonneg a). pose proof (blen_nonneg tail). rewrite blen_wstring in *.
  assert (blen buf = blen p + 4 + blen a + blen tail) as Eln by (rewrite Eb, !blen_app, blen_wstring; lia).
  assert (blen p + blen (c32toa (blen a)) <= blen buf) as Hle by (rewrite c32toa_length; clia).
  pose proof (codec_read (reader := GetUint32) (blen a) p (a ++ tail) (blen buf) Hw Hle Hl) as Er.
  unfold is_word32 in *. unfold sized, parse, GetSize.
  assert (buf = p ++ c32toa (blen a) ++ a ++ tail) as Eb' by (rewrite Eb; unfold wstring; by rewrite <- app_assoc).
  rewrite <- Eb', c32toa_length in Er. unfold mbind, ST_bind at 1 2 3. rewrite Er. unfold get. 
  destruct (Z.ltb_spec (blen buf -w (blen p + UINT32_SZ)) (blen a)) as [Hlt|_].
  { rewrite wrap32_small in Hlt by clia. clia. }
  cbn. unfold wrap32. rewrite Z.mod_small by clia.
  assert (slice buf (blen p + UINT32_SZ) (blen a) = a) as ->.
  { rewrite Eb'. replace (blen p + UINT32_SZ) with (blen (p ++ c32toa (blen a))) by (rewrite blen_app, c32toa_length; clia).
    rewrite (app_assoc p). by rewrite slice_app_here. }
  by replace (blen p + (4 + blen a)) with (blen p + UINT32_SZ + blen a) by clia.
Qed.

Lemma cursor_all a : is_word32 (blen a) -> cursor a (blen a) 0 a.
Proof. by exists []. Qed.

(** The server takes a signature the client's key made of the request as it reads it. *)
Lemma mldsa_accepts (p : PublicKey) (d : WS_UserAuthData) (level : mldsa_level) (q sg req : bytes) (k0 pub : MlDsaKey) (sz : Z) s :
  publicKey p = wstring (publicKeyType p) ++ wstring q -> signature p = wstring (publicKeyType p) ++ wstring sg ->
  is_word32 (blen (publicKey p)) -> is_word32 (blen (signature p)) ->
  wc_MlDsaKey_Init level = inl k0 -> wc_MlDsaKey_ImportPubRaw q k0 = Ok pub ->
  (forall s1, signed_bytes p (fields_size d p sz) s1 = (Ok req, s1)) ->
  wc_MlDsaKey_VerifyCtx pub sg [] (wstring (sessionId (kex s)) ++ [MSGID_USERAUTH_REQUEST] ++ req) = Some true ->
  mallocs s = [] ->
  DoUserAuthRequestMlDsa p d level false sz s = (Ok tt, s).
Proof.
  intros Ek Es Hk Hs Ei Eq Hd Hv Hm. unfold DoUserAuthRequestMlDsa.
  pose proof (cursor_all _ Hk) as Ck. rewrite Ek in Ck at 3. destruct (sized_run _ _ _ _ s Ck) as (i1 & E1 & C1).
  rewrite <- (app_nil_r (wstring q)) in C1. destruct (parse_ref _ _ _ _ _ s C1) as (i2 & E2 & _).
  pose proof (cursor_all _ Hs) as Cs. rewrite Es in Cs at 3. destruct (sized_run _ _ _ _ s Cs) as (i3 & E3 & C3).
  rewrite <- (app_nil_r (wstring sg)) in C3. destruct (sized_run _ _ _ _ s C3) as (i4 & E4 & _).
  erewrite (ST_bind_ok (attempt _) _ s (inl pub) s); [|unfold attempt].
  - rewrite st_ret. erewrite ST_bind_ok by exact E3. cbv beta iota. rewrite bytes_eqb_refl. cbn [negb]. rewrite st_guard. cbv iota.
    erewrite ST_bind_ok by exact E4. cbv beta iota. unfold check_data. rewrite !st_assoc, st_get, st_assoc.
    rewrite (ST_bind_ok _ _ _ _ _ (malloc_yes s Hm)). cbn [negb]. rewrite st_assoc, st_guard, st_assoc. cbv iota.
    rewrite (ST_bind_ok _ _ _ _ _ (Hd s)), st_ret. unfold wstring in Hv. rewrite <- app_assoc in Hv. rewrite Hv. reflexivity.
  - rewrite (ST_bind_ok _ _ _ _ _ (malloc_yes s Hm)). cbn [negb]. rewrite st_guard. cbv iota.
    rewrite Ei. unfold or_recode. rewrite st_ret. cbv iota. rewrite (ST_bind_ok _ _ _ _ _ E1). cbv beta iota.
    rewrite bytes_eqb_refl. cbn [negb]. rewrite st_guard. cbv iota. rewrite (ST_bind_ok _ _ _ _ _ E2). cbv beta iota.
    rewrite ref_bytes_string_ref, Eq. reflexivity.
Qed.

Lemma sig_block_string name sg : 8 + blen name + blen sg < 2 ^ 32 -> sig_block name sg = wstring (wstring name ++ wstring sg).
Proof.
  intros Hl. unfold sig_block. pose proof (blen_nonneg name). pose proof (blen_nonneg sg).
  rewrite wrap32_small by clia. unfold wstring at 3. rewrite blen_app, !blen_wstring. f_equal. f_equal. clia.
Qed.

(** The application lets in whoever proves a key. *)
Record takes_keys (cb : Z -> WS_UserAuthData -> M (Z * WS_UserAuthData)) : Prop := {
  taken a s : cb WOLFSSH_USERAUTH_PUBLICKEY a s = (Ok (WOLFSSH_USERAUTH_SUCCESS, a), s);
  kept rcb a s : userAuthResultCb = Some rcb -> rcb WOLFSSH_USERAUTH_SUCCESS a s = (Ok WS_SUCCESS, s)
}.

Lemma prove_key_granted cb id d p sz s : takes_keys cb -> sf d = SfPublicKey p ->
  check_signature id d p sz s = (Ok tt, s) -> prove_key Granted id d sz s = (Ok Granted, s).
Proof.
  intros Hcb Hsf E. unfold prove_key. rewrite Hsf.
  erewrite (ST_bind_ok (code _) _ s 0 s) by (unfold code; by rewrite E). change (0 =? WS_SUCCESS) with true. cbn [negb]. cbv iota.
  unfold result_cb. destruct userAuthResultCb as [rcb|] eqn:Er.
  - by erewrite ST_bind_ok by (apply (kept _ Hcb); exact Er).
  - reflexivity.
Qed.

Lemma own_mldsa_resolved id p sigAlgo s : own_mldsa id = true -> publicKeyType p = IdToName id ->
  resolve_key p sigAlgo s = (Ok (Some (p, id)), s).
Proof.
  intros Ho Et. unfold resolve_key. rewrite Et.
  destruct id; try discriminate Ho; by vm_compute.
Qed.

(** What the server reads of a signed request for an ML-DSA key lets the client in. *)
Lemma signed_request_run cb (d : WS_UserAuthData) (user q sg : bytes) (id : AlgoId) (level : mldsa_level) (k0 pub : MlDsaKey) s :
  let blob := wstring (IdToName id) ++ wstring q in
  let req := unsigned_request user connection_service (IdToName id) blob in
  let buf := req ++ wstring (wstring (IdToName id) ++ wstring sg) in
  userAuthCb = Some cb -> takes_keys cb ->
  own_mldsa id = true -> KeyIdToMlDsaLevel id = Some level ->
  wc_MlDsaKey_Init level = inl k0 -> wc_MlDsaKey_ImportPubRaw q k0 = Ok pub ->
  username d = user -> serviceName d = connection_service -> authName d = str "publickey" -> is_word32 (blen buf) ->
  wc_MlDsaKey_VerifyCtx pub sg [] (wstring (sessionId (kex s)) ++ [MSGID_USERAUTH_REQUEST] ++ req) = Some true -> mallocs s = [] ->
  DoUserAuthRequestPublicKey d buf buf (blen buf) (blen (wstring user ++ wstring connection_service ++ wstring (str "publickey"))) s
  = (Ok tt, s <| clientState := CLIENT_USERAUTH_DONE |>).
Proof.
  intros blob req buf Ecb Hcb Ho El Ei Eq Hu Hs Ha Hw Hv Hm.
  destruct (parse_pk_request_run d user connection_service (IdToName id) blob (IdToName id) (wstring q) (IdToName id) sg s eq_refl Hw)
    as (p & Ep & Hsig & Htype & Hkey & Hsg & Hsz & Hbytes). fold req in Hsz, Hbytes. fold buf in Ep.
  assert (blen buf = blen req + 4 + blen (signature p)) as Elen by (unfold buf; rewrite blen_app, blen_wstring, Hsg; lia).
  assert (blen req = blen user + blen connection_service + blen (str "publickey") + 1 + blen (IdToName id) + blen blob + 20) as Ereq
    by (unfold req, unsigned_request; rewrite !blen_app, !blen_wstring; change (blen [1]) with 1; lia).
  pose proof (blen_nonneg (signature p)). pose proof (blen_nonneg blob). pose proof (blen_nonneg req).
  pose proof (blen_nonneg user). pose proof (blen_nonneg connection_service). pose proof (blen_nonneg (str "publickey")).
  pose proof (blen_nonneg (IdToName id)). unfold is_word32 in *.
  unfold DoUserAuthRequestPublicKey. rewrite st_guard. destruct (Z.eqb_spec (blen buf) 0); [lia|].
  rewrite (ST_bind_ok _ _ _ _ _ Ep). cbv beta iota. rewrite (ST_bind_ok _ _ _ _ _ (own_mldsa_resolved id p _ s Ho Htype)). cbv beta iota.
  set (d' := d <| au_type := WOLFSSH_USERAUTH_PUBLICKEY |> <| sf := SfPublicKey p |>).
  assert (ask_about_key d' s = (Ok (Granted, d'), s)) as Eask.
  { unfold ask_about_key. rewrite Ecb. by rewrite (ST_bind_ok _ _ _ _ _ (taken _ Hcb _ _)). }
  rewrite (ST_bind_ok _ _ _ _ _ Eask). cbv beta iota. rewrite Hsig. cbn [negb]. cbv iota.
  assert (check_signature id d' p (blen (publicKey p)) s = (Ok tt, s)) as Ec.
  { assert (check_signature id d' p (blen (publicKey p)) = DoUserAuthRequestMlDsa p d' level false (blen (publicKey p))) as ->
      by (by destruct id; try discriminate Ho; injection El as <-).
    apply (mldsa_accepts p d' level q sg req k0 pub); rewrite ?Htype; try done; try (unfold is_word32; rewrite ?Hkey; lia).
    intros s2. rewrite <- Hbytes. f_equal. rewrite Hsz. unfold fields_size. 
    change (username d') with (username d). change (serviceName d') with (serviceName d). change (authName d') with (authName d).
    rewrite Hu, Hs, Ha, Htype, Hkey, wrap32_small; clia. }
  erewrite ST_bind_ok by (eapply prove_key_granted; [exact Hcb|reflexivity|exact Ec]). reflexivity.
Qed.

(** The session of a server that has seen the user and waits for a request. *)
Record awaits (user : bytes) s : Prop := {
  aw_seen : userAuthSeen (auth s) = true;
  aw_name : userName (auth s) = Some user;
  aw_prompts : kbSetupPending (auth s) = false;
  aw_memory : mallocs s = []
}.

(** The session after a request for a public key that lets the client in. *)
Definition let_in_by_key (s : WOLFSSH) : WOLFSSH :=
  s <| auth; authId := ID_USERAUTH_PUBLICKEY |> <| auth; authRequests ::= (fun n => n +w 1) |>
    <| clientState := CLIENT_USERAUTH_DONE |>.

Lemma DoUserAuthRequest_key user rest s :
  let buf := wstring user ++ wstring connection_service ++ wstring (str "publickey") ++ rest in
  let s1 := s <| auth; authId := ID_USERAUTH_PUBLICKEY |> <| auth; authRequests ::= (fun n => n +w 1) |> in
  awaits user s -> is_word32 (blen buf) ->
  DoUserAuthRequest buf (blen buf) s
  = DoUserAuthRequestPublicKey (mkAuthData 0 user connection_service (str "publickey") SfZero) buf buf (blen buf)
      (blen (wstring user ++ wstring connection_service ++ wstring (str "publickey"))) s1.
Proof.
  intros buf s1 [Hseen Hname Hp Hm] Hw. pose proof (cursor_all buf Hw) as C0. unfold buf in C0 at 3.
  assert (blen buf =? 0 = false) as Hz.
  { apply Z.eqb_neq. unfold buf. rewrite blen_app, blen_wstring. pose proof (blen_nonneg user).
    pose proof (blen_nonneg (wstring connection_service ++ wstring (str "publickey") ++ rest)). lia. }
  destruct (cursor_string _ _ _ _ _ C0) as (E1 & C1 & _). destruct (cursor_string _ _ _ _ _ C1) as (E2 & C2 & _).
  destruct (cursor_string _ _ _ _ _ C2) as (E3 & C3 & _).
  unfold DoUserAuthRequest. rewrite st_guard, Hz. cbv iota.
  erewrite ST_bind_ok by (unfold parse; rewrite E1; reflexivity). cbv beta iota.
  erewrite ST_bind_ok by (unfold parse; rewrite E2; reflexivity). cbv beta iota. rewrite !ref_bytes_string_ref.
  change (id_eqb (NameToId connection_service) ID_SERVICE_CONNECTION) with true. cbn [negb]. cbv iota.
  erewrite ST_bind_ok by (unfold parse; rewrite E3; reflexivity). cbv beta iota. rewrite !ref_bytes_string_ref.
  erewrite (ST_bind_ok (bind_username user)) by
    (unfold bind_username; rewrite st_get, Hseen, Hname; cbn [negb default]; by rewrite bytes_eqb_refl).
  change (NameToId (str "publickey")) with ID_USERAUTH_PUBLICKEY. unfold set_authId. rewrite !st_modify. fold s1.
  assert (charge_abandoned s1 = (Ok tt, s1)) as Ec by (unfold charge_abandoned; rewrite st_get; by cbn; rewrite Hp).
  rewrite (ST_bind_ok _ _ _ _ _ Ec). unfold dispatch_auth. cbn [authName].
  change (NameToId (str "publickey")) with ID_USERAUTH_PUBLICKEY. cbn [id_eqb AlgoId_code Z.eqb Pos.eqb]. cbv iota zeta.
  rewrite !blen_app. f_equal. lia.
Qed.

(** The client's request as the server reads it. *)
Lemma request_head_unsigned user algo blob :
  request_head user ID_USERAUTH_PUBLICKEY ++ [1] ++ wstring algo ++ wstring blob
  = [MSGID_USERAUTH_REQUEST] ++ unsigned_request user connection_service algo blob.
Proof.
  unfold request_head, unsigned_request.
  assert (IdToName ID_SERVICE_CONNECTION = connection_service) as -> by (vm_compute; reflexivity).
  assert (IdToName ID_USERAUTH_PUBLICKEY = str "publickey") as -> by (vm_compute; reflexivity).
  by rewrite <- !app_assoc.
Qed.

(** ** The methods of a new attempt *)

(** The methods asked for after a refusal are those both sides have, keyboard
    interactive up to its third attempt. *)
Definition offered (attempts : Z) (supported authList : list AlgoId) (id : AlgoId) : Prop :=
  id ∈ authList /\ id ∈ supported /\ (id = ID_USERAUTH_KEYBOARD -> attempts < 3).

Lemma auth_bit_spec attempts id k : 0 <= k ->
  Z.testbit (auth_bit attempts id) k = true <->
  (id = ID_USERAUTH_PASSWORD /\ k = 0) \/ (id = ID_USERAUTH_PUBLICKEY /\ k = 1)
  \/ (id = ID_USERAUTH_KEYBOARD /\ attempts < 3 /\ k = 2).
Proof.
  intros Hk. assert (forall n, 0 <= n -> Z.testbit (2 ^ n) k = true <-> k = n) as P.
  { intros n Hn. rewrite Z.pow2_bits_eqb by lia. rewrite Z.eqb_eq. lia. }
  pose proof (P 0 ltac:(lia)) as P0. pose proof (P 1 ltac:(lia)) as P1. pose proof (P 2 ltac:(lia)) as P2.
  change (2 ^ 0) with 1 in P0. change (2 ^ 1) with 2 in P1. change (2 ^ 2) with 4 in P2.
  destruct id; cbn [auth_bit]; try (rewrite Z.testbit_0_l; intuition discriminate).
  - rewrite P0. intuition discriminate.
  - rewrite P1. intuition discriminate.
  - destruct (Z.ltb_spec attempts 3).
    + rewrite P2. intuition discriminate.
    + rewrite Z.testbit_0_l. intuition (discriminate || lia).
Qed.

Lemma common_methods_spec attempts supported authList k : 0 <= k ->
  Z.testbit (common_methods attempts supported authList) k = true <->
  exists id, id ∈ authList /\ id ∈ supported /\ Z.testbit (auth_bit attempts id) k = true.
Proof.
  intros Hk. unfold common_methods.
  assert (forall l t, Z.testbit (foldl (fun t id => if existsb (id_eqb id) supported then Z.lor t (auth_bit attempts id) else t) t l) k = true
    <-> Z.testbit t k = true \/ exists id, id ∈ l /\ id ∈ supported /\ Z.testbit (auth_bit attempts id) k = true) as P.
  { induction l as [|id l IH]; intros t; cbn [foldl].
    - split; [by left|]. intros [|(id & Hin & _)]; [done|]. by apply elem_of_nil in Hin.
    - rewrite IH. assert (existsb (id_eqb id) supported = true <-> id ∈ supported) as Ex.
      { rewrite existsb_exists. split.
        - intros (x & Hx & Ei%id_eqb_spec). subst x. by apply list_elem_of_In.
        - intros Hin. exists id. split; [by apply list_elem_of_In|by apply id_eqb_spec]. }
      setoid_rewrite elem_of_cons. destruct (existsb (id_eqb id) supported) eqn:E.
      + rewrite Z.lor_spec, orb_true_iff. split.
        * intros [[|]|(x & ? & ? & ?)]; [by left| |]; right; [exists id|exists x]; intuition.
        * intros [|(x & [->|] & ? & ?)]; [by left; left|by left; right|]. right. by exists x.
      + split.
        * intros [|(x & ? & ? & ?)]; [by left|]. right. exists x. auto.
        * intros [|(x & [->|] & Hs & ?)]; [by left|by apply Ex in Hs|]. right. by exists x. }
  rewrite P, Z.testbit_0_l. intuition discriminate.
Qed.

(** after a refusal the client asks for a method exactly if both sides have it, and for
    keyboard interactive at most three times; with no method left it gives up, sending
    nothing. *)
Theorem DoUserAuthFailure_methods buf authList i j v s :
  parse (GetNameList 4) buf (blen buf) 0 s = (Ok (authList, i), s) -> parse GetBoolean buf (blen buf) i s = (Ok (v, j), s) ->
  exists authType,
    (forall k, 0 <= k -> Z.testbit authType k = true <->
      exists id, offered (kbAuthAttempts (auth s)) (supportedAuth (auth s)) authList id /\
        ((id = ID_USERAUTH_PASSWORD /\ k = 0) \/ (id = ID_USERAUTH_PUBLICKEY /\ k = 1) \/ (id = ID_USERAUTH_KEYBOARD /\ k = 2))) /\
    DoUserAuthFailure buf (blen buf) s =
      (if authType =? 0 then (Err WS_USER_AUTH_E, s <| auth; kbRequestSent := false |>)
       else SendUserAuthRequest authType (s <| auth; kbRequestSent := false |>)).
Proof.
  intros En Eb. set (authType := common_methods (kbAuthAttempts (auth s)) (supportedAuth (auth s)) authList).
  exists authType. split.
  - intros k Hk. unfold authType. rewrite common_methods_spec by done. setoid_rewrite auth_bit_spec; [|done]. unfold offered.
    split.
    + intros (id & ? & ? & [[-> ->]|[[-> ->]|(-> & ? & ->)]]); eexists; (split; [split; [eassumption|by split]|]); auto.
    + intros (id & (? & ? & Ha) & [[-> ->]|[[-> ->]|[-> ->]]]); eexists; (split; [eassumption|]; split; [eassumption|]); intuition.
  - assert (blen buf =? 0 = false) as Hz.
    { destruct (blen buf =? 0) eqn:E; [|done]. unfold parse, GetNameList in En. rewrite st_guard, E in En. done. }
    unfold DoUserAuthFailure. rewrite st_guard, Hz. cbv iota. rewrite (ST_bind_ok _ _ _ _ _ En). cbv beta iota.
    rewrite (ST_bind_ok _ _ _ _ _ Eb). cbv beta iota. rewrite st_modify, st_get. cbv zeta. rewrite st_guard.
    change (kbAuthAttempts (auth (s <| auth; kbRequestSent := false |>))) with (kbAuthAttempts (auth s)).
    change (supportedAuth (auth (s <| auth; kbRequestSent := false |>))) with (supportedAuth (auth s)). fold authType.
    by destruct (authType =? 0).
Qed.


(** ** Prompts nobody asked for *)

(** C8: A request for information the client did not ask for, or that reaches a server, is
    refused with [WS_INVALID_STATE_E], whatever becomes of the disconnect that answers it,
    and leaves the authentication, the keys and the channels as they were. *)
Theorem unasked_prompts_refused `{!QuietSends} buf len s :
  len <> 0 -> side <> WOLFSSH_ENDPOINT_CLIENT \/ kbRequestSent (auth s) = false ->
  after (DoUserAuthInfoRequest buf len) (fun r s' =>
    (r = Err WS_INVALID_STATE_E \/ r = UB) /\ rest s' = rest s) s.
Proof.
  intros Hl Hs. unfold DoUserAuthInfoRequest. after_step. after_step; [lia|]. after_step. red. cbn [fst snd get].
  assert (negb (side =? WOLFSSH_ENDPOINT_CLIENT) || negb (kbRequestSent (auth s)) = true) as ->.
  { destruct Hs as [Hs%Z.eqb_neq|Hs]; rewrite Hs; [done|apply orb_true_r]. }
  apply after_bind, after_code, (after_frames rest); [apply rest_SendDisconnect|].
  intros [[]|e|] s' E C; cbn [snd] in C; repeat after_step; cbn; auto.
Qed.
End Request.

Section BothEnds.
Context (client server : CTX) `{Crypto} `{Hashes} `{PubKeys} `{!SignKeys} `{!HostKeys} `{!KeyExchange} `{!AgentKeys} `{!ClientKeys} `{CertManager}.
Context `{!SignLaws}.
Implicit Types (s : WOLFSSH).

(** C7: What a client signs, a server takes. If a client makes a request to be authenticated
    by its ML-DSA key, and the server, in the same session and having seen the same user,
    gets the request as it was made, then the client is authenticated and nothing else in
    the server's session changes, provided that the application takes the key and that
    what the key signs its public part verifies. *)
Theorem client_request_accepted cb (user q : bytes) (id : AlgoId) (level : mldsa_level) (pk : PublicKey) (ks : key_sig)
    (sk k0 pub : MlDsaKey) (tail : bytes) s s' s1 :
  @userAuthCb server = Some cb -> @takes_keys server cb ->
  own_mldsa id = true -> KeyIdToMlDsaLevel id = Some level ->
  wc_MlDsaKey_Init level = inl k0 -> wc_MlDsaKey_ImportPubRaw q k0 = Ok pub -> ml_pair sk pub ->
  ks_keyId ks = id -> ks_sigId ks = id ->
  publicKeyType pk = IdToName id -> publicKey pk = wstring (IdToName id) ++ wstring q ->
  @BuildUserAuthRequestPublicKey client _ _ _ _ _ _ pk (request_head user ID_USERAUTH_PUBLICKEY) ks (Some (KeyMlDsa sk)) s = (Ok tail, s') ->
  let msg := request_head user ID_USERAUTH_PUBLICKEY ++ tail in
  is_word32 (blen msg) -> awaits user s1 -> sessionId (kex s1) = sessionId (kex s) ->
  exists buf, msg = [MSGID_USERAUTH_REQUEST] ++ buf /\ @DoUserAuthRequest server _ _ _ _ _ buf (blen buf) s1 = (Ok tt, let_in_by_key s1).
Proof.
  intros Ecb Hcb Ho El Ei Eq Hp Hk Hs Ht Hb E msg Hw Haw Hsid.
  destruct (@build_mldsa_inv client _ _ _ _ _ _ pk _ ks sk s tail s' ltac:(by rewrite Hs) ltac:(by rewrite Hk) E) as (sg & g & g' & Etail & Esign).
  rewrite Hs in Etail. rewrite Ht, Hb in Etail, Esign. set (blob := wstring (IdToName id) ++ wstring q) in *.
  set (req := unsigned_request user connection_service (IdToName id) blob).
  assert (blen (wstring (IdToName id) ++ wstring sg) + 4 <= blen msg) as Hsg.
  { unfold msg. rewrite Etail. unfold sig_block, request_head. rewrite !blen_app, !c32toa_length, !blen_wstring.
    pose proof (blen_nonneg [MSGID_USERAUTH_REQUEST]). pose proof (blen_nonneg user). pose proof (blen_nonneg [1]).
    pose proof (blen_nonneg blob). pose proof (blen_nonneg (IdToName id)). pose proof (blen_nonneg sg).
    pose proof (blen_nonneg (IdToName ID_SERVICE_CONNECTION)). pose proof (blen_nonneg (IdToName ID_USERAUTH_PUBLICKEY)). clia. }
  rewrite blen_app, !blen_wstring in Hsg. unfold is_word32 in Hw. rewrite sig_block_string in Etail by lia.
  set (buf := req ++ wstring (wstring (IdToName id) ++ wstring sg)).
  assert (msg = [MSGID_USERAUTH_REQUEST] ++ buf) as Emsg.
  { unfold msg, buf. rewrite Etail, app_assoc, request_head_unsigned. by rewrite <- app_assoc. }
  exists buf. split; [exact Emsg|].
  assert (is_word32 (blen buf)) as Hwb by (unfold is_word32; rewrite Emsg, blen_app in Hw; pose proof (blen_nonneg buf);
    change (blen [MSGID_USERAUTH_REQUEST]) with 1 in Hw; lia).
  assert (buf = wstring user ++ wstring connection_service ++ wstring (str "publickey") ++
    [1] ++ wstring (IdToName id) ++ wstring blob ++ wstring (wstring (IdToName id) ++ wstring sg)) as Ebuf
    by (unfold buf, req, unsigned_request; rewrite <- !app_assoc; reflexivity).
  rewrite Ebuf, (@DoUserAuthRequest_key server) by (try done; by rewrite <- Ebuf). rewrite <- Ebuf.
  apply (@signed_request_run server _ _ _ _ _ cb _ user q sg id level k0 pub); try done; [|by destruct Haw].
  apply (sign_mldsa _ _ _ _ _ _ _ _ Hp) in Esign. rewrite request_head_unsigned, <- Hsid in Esign. exact Esign.
Qed.

End BothEnds.

(** ** Examples *)

#[export] Instance toy_client_keys : ClientKeys := {|
  wc_ecc_sig_size _ := 256;
  wc_ecc_size _ := 32;
  wc_ed25519_sig_size := 64;
  wc_MlDsaKey_SigSize _ := 100
|}.

(** A server that takes any key. *)
Definition key_server : CTX := server <| @userAuthCb := Some (fun _ d => mret (WOLFSSH_USERAUTH_SUCCESS, d)) |>.

Definition sample_pk : PublicKey :=
  zero_publicKey <| publicKeyType := str "ssh-mldsa-44" |> <| publicKey := wstring (str "ssh-mldsa-44") ++ wstring [7; 7] |>
    <| hasSignature := true |> <| pk_privateKey := [9] |>.
Definition sample_keySig : key_sig := mkKeySig ID_MLDSA44 ID_MLDSA44 (str "ssh-mldsa-44") 200.

Definition alice_session : WOLFSSH := named_session <| kex; sessionId := [1; 2; 3] |>.

Example client_request_accepted_witness :
  exists tail s',
    @BuildUserAuthRequestPublicKey client _ _ _ _ _ _ sample_pk (request_head (str "alice") ID_USERAUTH_PUBLICKEY) sample_keySig
      (Some (@KeyMlDsa toy_keys toy_signers [9])) alice_session = (Ok tail, s') /\
    exists buf, request_head (str "alice") ID_USERAUTH_PUBLICKEY ++ tail = [MSGID_USERAUTH_REQUEST] ++ buf /\
      @DoUserAuthRequest key_server _ _ _ _ _ buf (blen buf) alice_session = (Ok tt, let_in_by_key alice_session).
Proof.
  set (run := @BuildUserAuthRequestPublicKey client _ _ _ _ _ _ sample_pk (request_head (str "alice") ID_USERAUTH_PUBLICKEY) sample_keySig
      (Some (@KeyMlDsa toy_keys toy_signers [9])) alice_session).
  set (tail := match run.1 with Ok t => t | _ => [] end).
  assert (run.1 = Ok tail) as E by (by vm_compute).
  exists tail, run.2. assert (run = (Ok tail, run.2)) as Erun by (rewrite <- E; apply surjective_pairing). split; [exact Erun|].
  refine (@client_request_accepted client key_server null_crypto toy_hashes toy_keys toy_signers toy_host toy_kex toy_agent_keys
    toy_manager toy_sign_laws _ (str "alice") [7; 7] ID_MLDSA44 WC_ML_DSA_44 sample_pk sample_keySig [9] [] [7; 7] tail alice_session
    run.2 alice_session eq_refl _ eq_refl eq_refl eq_refl eq_refl I eq_refl eq_refl _ _ Erun _ _ eq_refl).
  - split; [done|discriminate].
  - by vm_compute.
  - by vm_compute.
  - split; vm_compute; done.
  - by split.
Defined.

(** A third attempt at keyboard interactive has been made. *)
Definition asking_session : WOLFSSH :=
  (new_session []) <| auth ::= (fun a => a <| supportedAuth := [ID_USERAUTH_KEYBOARD; ID_USERAUTH_PUBLICKEY] |> <| kbAuthAttempts := 3 |>) |>.

Example DoUserAuthFailure_methods_witness :
  let buf := wstring (str "password,keyboard-interactive") ++ [0] in
  exists authType, Z.testbit authType 2 = false /\
    @DoUserAuthFailure client _ _ _ _ _ _ _ _ buf (blen buf) asking_session =
      (if authType =? 0 then (Err WS_USER_AUTH_E, asking_session <| auth; kbRequestSent := false |>)
       else @SendUserAuthRequest client _ _ _ _ _ _ _ _ authType (asking_session <| auth; kbRequestSent := false |>)).
Proof.
  intros buf. destruct (@DoUserAuthFailure_methods client _ _ _ _ _ _ _ _ buf [ID_USERAUTH_PASSWORD; ID_USERAUTH_KEYBOARD] 33 34 0
    asking_session) as (authType & Hb & E); [by vm_compute|by vm_compute|].
  exists authType. split; [|exact E]. destruct (Z.testbit authType 2) eqn:Et; [|done]. exfalso.
  apply Hb in Et as (id & (_ & _ & Ha) & Hk); [|lia]. destruct Hk as [[_ Hk]|[[_ Hk]|[-> _]]]; [lia..|]. specialize (Ha eq_refl). cbn in Ha. lia.
Defined.

Example unasked_prompts_refused_witness :
  after (@DoUserAuthInfoRequest host_client _ [1] 1) (fun r s' =>
    (r = Err WS_INVALID_STATE_E \/ r = UB) /\ rest s' = rest (new_session [])) (new_session []).
Proof. apply (@unasked_prompts_refused host_client _ _ [1] 1 (new_session [])); [done|by right]. Defined.
