(* ===== verification/Receive.v ===== *)
(** Receiving packets (internal.c, [DoReceive], [DoPacket] and the handlers of the
    transport's own messages): a packet is read, decrypted and checked, its message
    filtered and dispatched, and the stream moved on by the packet's own length.

    A handler gets the payload as it lies in the input buffer on entry. *)

From S2P Require Import Prelude Codes Wire Names Buffer Fwd Algos Kdf Session Samples MsgFilter Transport.
From S2P Require Import Channels Send ChannelMsgs KexInit KexKeys KexAgree UserSig Ossh Composite OsshKey CertMan.
From S2P Require Import HostKey UserAuth KexDh Agent UserAuthClient Input.

Section Receive.
Context `{CTX} `{Crypto} `{Hashes} `{PubKeys} `{!SignKeys} `{!HostKeys} `{!KeyExchange} `{!AgentKeys} `{!ClientKeys} `{CertManager}.

(** ** Messages of the transport *)

Definition DoIgnore (buf : bytes) (len : Z) : M unit := _ ← parse GetSkip buf len 0; mret tt.

Definition DoRequestSuccess (buf : bytes) (len : Z) : M unit :=
  on_fwd (FwdRemoteReply true (Some buf) len);;
  match reqSuccessCb with
  | Some cb => r ← cb (slice buf 0 len); ret_code r
  | None => mret tt
  end.
Definition DoRequestFailure (buf : bytes) (len : Z) : M unit :=
  on_fwd (FwdRemoteReply false None 0);;
  match reqFailureCb with
  | Some cb => r ← cb (slice buf 0 len); ret_code r
  | None => mret tt
  end.

(** A string of [strSz] bytes at [begin], copied. *)
Definition debug_string (len begin : Z) (strSz : Z) : M Z :=
  if 0 <? strSz then
    guard_err ((len <? begin) || (len - begin <? strSz)) WS_BUFFER_E;;
    mem ← malloc;
    guard_err (negb mem) WS_MEMORY_E;;
    mret (begin + strSz)
  else mret begin.
Definition DoDebug (buf : bytes) (len : Z) : M unit :=
  guard_err (len <? 2 * LENGTH_SZ + 1) WS_BAD_ARGUMENT;;
  _ ← deref (rd buf 0);
  strSz ← deref (ato32 (drop 1 buf));
  begin ← debug_string len (1 + LENGTH_SZ) strSz;
  guard_err (len - begin <? LENGTH_SZ) WS_BUFFER_E;;
  strSz ← deref (ato32 (drop (Z.to_nat begin) buf));
  _ ← debug_string len (begin + LENGTH_SZ) strSz;
  mret tt.

Definition DoUnimplemented (buf : bytes) (len : Z) : M unit := _ ← parse GetUint32 buf len 0; mret tt.

Definition DoDisconnect (buf : bytes) (len : Z) : M unit :=
  modify (fun s => s <| disconnected := true |>);;
  '(_, i) ← parse GetUint32 buf len 0;
  '(_, i) ← parse GetSkip buf len i;
  _ ← parse GetSkip buf len i;
  modify (fun s => s <| error := WS_DISCONNECT |>);;
  fail WS_DISCONNECT.

(** ** Dispatch *)

(** A client that rekeys answers the server's proposal at once. *)
Definition handle_kexinit (buf : bytes) (len : Z) : M unit :=
  ret ← code (DoKexInit buf len);
  s ← get;
  when (negb (IsKexMatchError ret) && truthy (isKeying s) && (connectState s =? CONNECT_SERVER_CHANNEL_REQUEST_DONE)) (
    h ← deref (handshake s);
    e ← code (if id_eqb (hs_kexId h) ID_DH_GEX_SHA256 then SendKexDhGexRequest else SendKexDhInit);
    modify (fun s => s <| error := e |>));;
  ret_code ret.

(** One id for two messages. *)
Definition handle_kexdh_reply (buf : bytes) (len : Z) : M unit :=
  s ← get;
  match handshake s with
  | None => fail WS_MEMORY_E
  | Some h => if id_eqb (hs_kexId h) ID_DH_GEX_SHA256 then DoKexDhGexGroup buf len else DoKexDhReply buf len
  end.

(** The handlers of the connection's messages start at an index of the payload. *)
Definition from_start (f : bytes -> Z -> M unit) (buf : bytes) (len : Z) : M unit := f (slice buf 0 len) 0.

Definition handlers : list (Z * (bytes -> Z -> M unit)) := [
  (MSGID_DISCONNECT, DoDisconnect);
  (MSGID_IGNORE, DoIgnore);
  (MSGID_UNIMPLEMENTED, DoUnimplemented);
  (MSGID_REQUEST_SUCCESS, DoRequestSuccess);
  (MSGID_REQUEST_FAILURE, DoRequestFailure);
  (MSGID_DEBUG, DoDebug);
  (MSGID_EXT_INFO, DoExtInfo);
  (MSGID_KEXINIT, handle_kexinit);
  (MSGID_NEWKEYS, DoNewKeys);
  (MSGID_KEXDH_INIT, DoKexDhInit);
  (MSGID_KEXDH_REPLY, handle_kexdh_reply);
  (MSGID_KEXDH_GEX_REQUEST, DoKexDhGexRequest);
  (MSGID_KEXDH_GEX_INIT, DoKexDhInit);
  (MSGID_KEXDH_GEX_REPLY, DoKexDhReply);
  (MSGID_SERVICE_REQUEST, DoServiceRequest);
  (MSGID_SERVICE_ACCEPT, DoServiceAccept);
  (MSGID_USERAUTH_REQUEST, DoUserAuthRequest);
  (MSGID_USERAUTH_INFO_RESPONSE, DoUserAuthInfoResponse);
  (MSGID_USERAUTH_INFO_REQUEST, DoUserAuthInfoRequest);
  (MSGID_USERAUTH_FAILURE, DoUserAuthFailure);
  (MSGID_USERAUTH_SUCCESS, fun _ len => DoUserAuthSuccess len);
  (MSGID_USERAUTH_BANNER, DoUserAuthBanner);
  (MSGID_GLOBAL_REQUEST, from_start DoGlobalRequest);
  (MSGID_CHANNEL_OPEN, from_start DoChannelOpen);
  (MSGID_CHANNEL_OPEN_CONF, from_start DoChannelOpenConf);
  (MSGID_CHANNEL_OPEN_FAIL, from_start DoChannelOpenFail);
  (MSGID_CHANNEL_WINDOW_ADJUST, from_start DoChannelWindowAdjust);
  (MSGID_CHANNEL_DATA, from_start DoChannelData);
  (MSGID_CHANNEL_EXTENDED_DATA, from_start DoChannelExtendedData);
  (MSGID_CHANNEL_EOF, from_start DoChannelEof);
  (MSGID_CHANNEL_CLOSE, from_start DoChannelClose);
  (MSGID_CHANNEL_REQUEST, from_start DoChannelRequest);
  (MSGID_CHANNEL_SUCCESS, from_start DoChannelSuccess);
  (MSGID_CHANNEL_FAILURE, from_start DoChannelFailure)
].

(** The handler of an id, or the answer to one there is none for. *)
Definition handler (msg : Z) : bytes -> Z -> M unit :=
  match find (fun '(id, _) => id =? msg) handlers with
  | Some (_, f) => f
  | None => fun _ _ => SendUnimplemented
  end.

(** The code of the handler, and whether it put new keys in place. *)
Definition dispatch (msg : Z) (payload : bytes) : M (Z * bool) :=
  s ← get;
  let hadHandshake := match handshake s with Some _ => true | None => false end in
  ret ← code (handler msg payload (blen payload));
  s ← get;
  let gone := match handshake s with Some _ => false | None => true end in
  mret (ret, (msg =? MSGID_NEWKEYS) && hadHandshake && gone).

(** ** A packet *)

(** No rekey may start on an input that cannot go on. *)
Definition no_rekey : M unit := modify (fun s => s <| highwaterFlag := true |> <| msgHighwaterFlag := true |>).

Definition in_read (i n : Z) : M bytes := on_in (buffer_read i n).
Definition in_byte (i : Z) : M Z := b ← in_read i 1; deref (rd b 0).
Definition set_error (e : Z) : M unit := modify (fun s => s <| error := e |>).

(** Stepping over the packet, the sequence number with it; new keys under strict key
    exchange start it at zero. *)
Definition finish_packet (pktStart pktSz len ret : Z) (newKeysDone : bool) : M (Z * bool) :=
  let idx := pktStart +w UINT32_SZ +w pktSz in
  let '(ret, idx) := if len <? idx then (WS_BUFFER_E, len) else (ret, idx) in
  modify (fun s => s <| rx; inputBuffer ::= (fun b => b <| b_idx := idx |>) |>);;
  (if newKeysDone then
     modify (fun s => s <| rx; peerSeq ::= (fun q => if useStrictKex s then 0 else q +w 1) |> <| initialKexDone := true |>)
   else modify (fun s => s <| rx; peerSeq ::= (fun q => q +w 1) |>));;
  modify (fun s => s <| rx; rxMsgCount ::= (fun c => c +w 1) |>);;
  hwRet ← HighwaterCheck WOLFSSH_HWSIDE_RECEIVE;
  mret (if ret =? WS_SUCCESS then hwRet else ret, true).

(** The filter's verdict on a message: refused with the session, refused, answered as
    unknown, skipped, or handled. *)
Definition filter_packet (msg : Z) (payload : M bytes) : M (Z * option bool) :=
  msgAllowed ← IsMessageAllowed msg WS_MSG_RECV;
  s ← get;
  if negb msgAllowed && useStrictKex s && negb (initialKexDone s) then
    when (negb (disconnected s)) (
      _ ← code (SendDisconnect WOLFSSH_DISCONNECT_KEY_EXCHANGE_FAILED);
      set_error WS_MSGID_NOT_ALLOWED_E);;
    mret (WS_MSGID_NOT_ALLOWED_E, None)
  else if negb msgAllowed && (MsgIdKnown msg || MSGIDLIMIT_POST_USERAUTH msg) then
    when (negb (disconnected s)) (_ ← code (SendDisconnect WOLFSSH_DISCONNECT_PROTOCOL_ERROR); mret tt);;
    mret (WS_MSGID_NOT_ALLOWED_E, None)
  else if disconnected s && negb (msg =? MSGID_DISCONNECT) then mret (WS_SUCCESS, Some false)
  else if negb msgAllowed then r ← code SendUnimplemented; mret (r, Some false)
  else
    p ← payload;
    '(r, newKeysDone) ← dispatch msg p;
    mret (r, Some newKeysDone).

(** The code and whether the packet has been consumed. *)
Definition DoPacket : M (Z * bool) :=
  s ← get;
  let pktStart := b_idx (inputBuffer (rx s)) in
  let pktSz := curSz (rx s) in
  let len := b_length (inputBuffer (rx s)) in
  let idx := pktStart +w UINT32_SZ in
  padSz ← in_byte idx;
  if padSz <? MIN_PAD_LENGTH then no_rekey;; mret (WS_BUFFER_E, false)
  else if pktSz <? PAD_LENGTH_SZ + padSz + MSG_ID_SZ then no_rekey;; mret (WS_OVERFLOW_E, false)
  else
    let payloadSz := pktSz - PAD_LENGTH_SZ - padSz - MSG_ID_SZ in
    msg ← in_byte (idx +w 1);
    let idx := idx +w 2 in
    if (bufferSz (inputBuffer (rx s)) <? payloadSz +w idx) || (payloadSz +w idx <? payloadSz) then mret (WS_OVERFLOW_E, false)
    else
      '(ret, done) ← filter_packet msg (in_read idx payloadSz);
      match done with
      | None => mret (ret, false)
      | Some newKeysDone =>
        if ret =? WS_AUTH_PENDING then mret (ret, false)
        else finish_packet pktStart pktSz len ret newKeysDone
      end.

(** ** A frame *)

(** The MAC over the rest of a rejected packet, of the largest size. *)
Definition DiscardPacket : M unit :=
  r ← attempt (GetInputData MAX_PACKET_SZ);
  s ← get;
  match r with
  | inr e =>
    when (negb (error s =? WS_WANT_READ)) (WipeInputPacket MAX_PACKET_SZ);;
    when (error s =? WS_SOCKET_ERROR_E) (set_error (discardError (rx s)));;
    fail e
  | inl _ =>
    data ← in_read (b_idx (inputBuffer (rx s)) +w discardSz (rx s)) (MAX_PACKET_SZ - discardSz (rx s));
    _ ← code (VerifyMac data (zeros MAX_HMAC_SZ));
    WipeInputPacket MAX_PACKET_SZ;;
    set_error (discardError (rx s));;
    fail WS_FATAL_ERROR
  end.

Definition is_cbc (id : AlgoId) : bool :=
  match id with ID_AES128_CBC | ID_AES192_CBC | ID_AES256_CBC => true | _ => false end.

Definition RejectPacket (doneSz e : Z) : M unit :=
  no_rekey;;
  s ← get;
  if is_cbc (peerEncryptId (rx s)) then
    let doneSz := if MAX_PACKET_SZ <? doneSz then MAX_PACKET_SZ else doneSz in
    modify (fun s => s <| rx; discardSz := doneSz |> <| rx; discardError := e |> <| rx; processReplyState := PROCESS_DISCARD |>);;
    DiscardPacket
  else WipeInputPacket doneSz;; set_error e;; fail WS_FATAL_ERROR.

(** A packet that could not be decrypted. *)
Definition spoiled (sz e : Z) : M unit := WipeInputPacket sz;; set_error e;; no_rekey;; fail WS_FATAL_ERROR.

Definition set_state (st : Z) : M unit := modify (fun s => s <| rx; processReplyState := st |>).

(** [Decrypt] in place: its code. *)
Definition decrypt_at (i n : Z) : M Z :=
  d ← in_read i n;
  code (p ← Decrypt d; on_in (buffer_write i p)).

(** The suite a packet is read with is the one in force when its reading is taken up. *)
Section Suite.
Context (peerBlockSz' peerMacSz' : Z) (aeadMode' : bool).

Definition receive_head : M unit :=
  GetInputData peerBlockSz';;
  set_state PROCESS_PACKET_LENGTH;;
  if aeadMode' then mret tt
  else
    s ← get;
    ret ← decrypt_at (b_idx (inputBuffer (rx s))) peerBlockSz';
    when (negb (ret =? WS_SUCCESS)) (spoiled peerBlockSz' ret).

Definition align_block : Z := if peerBlockSz' <? MIN_BLOCK_SZ then MIN_BLOCK_SZ else peerBlockSz'.

Definition receive_length : M unit :=
  s ← get;
  let b := inputBuffer (rx s) in
  if bufferSz b <? b_idx b +w UINT32_SZ then set_error WS_OVERFLOW_E;; fail WS_FATAL_ERROR
  else
    h ← in_read (b_idx b) UINT32_SZ;
    sz ← deref (ato32 h);
    modify (fun s => s <| rx; curSz := sz |>);;
    if MAX_PACKET_SZ - peerMacSz' - UINT32_SZ <? sz then RejectPacket peerBlockSz' WS_OVERFLOW_E
    else
      let alignSz := if aeadMode' then sz else UINT32_SZ + sz in
      if negb (alignSz mod align_block =? 0) then RejectPacket peerBlockSz' WS_BUFFER_E
      else set_state PROCESS_PACKET_FINISH.

Definition finish_mac (sz : Z) : M unit :=
  s ← get;
  let i := b_idx (inputBuffer (rx s)) in
  ret ← (if peerBlockSz' <? sz + UINT32_SZ then decrypt_at (i +w peerBlockSz') (UINT32_SZ + sz - peerBlockSz')
         else mret WS_SUCCESS);
  data ← in_read i (UINT32_SZ + sz);
  mac ← in_read (i +w (UINT32_SZ + sz)) peerMacSz';
  verifyResult ← code (VerifyMac data mac);
  if negb (ret =? WS_SUCCESS) then spoiled (UINT32_SZ + sz) ret
  else if negb (verifyResult =? WS_SUCCESS) then RejectPacket (UINT32_SZ + sz + peerMacSz') verifyResult
  else mret tt.

Definition finish_aead (sz : Z) : M unit :=
  s ← get;
  let i := b_idx (inputBuffer (rx s)) in
  data ← in_read (i +w UINT32_SZ) sz;
  tag ← in_read (i +w (UINT32_SZ + sz)) peerMacSz';
  auth ← in_read i UINT32_SZ;
  ret ← code (p ← DecryptAead data tag auth; on_in (buffer_write (i +w UINT32_SZ) p));
  when (negb (ret =? WS_SUCCESS)) (spoiled (UINT32_SZ + sz) ret).

Definition receive_finish : M unit :=
  s ← get;
  let sz := curSz (rx s) in
  GetInputData (UINT32_SZ + sz + peerMacSz');;
  (if aeadMode' then finish_aead sz else finish_mac sz);;
  set_state PROCESS_PACKET.

(** The codes of a packet that go to the caller. *)
Definition soft_code (ret : Z) : bool :=
  existsb (Z.eqb ret) [WS_CHAN_RXD; WS_EXTDATA; WS_CHANNEL_CLOSED; WS_WANT_WRITE; WS_REKEYING; WS_WANT_READ; WS_EOF].

Definition receive_packet : M unit :=
  '(ret, bufferConsumed) ← DoPacket;
  set_error ret;;
  when bufferConsumed (
    modify (fun s => s <| rx; inputBuffer ::= (fun b => b <| b_idx ::= (fun i => i +w peerMacSz') |>) |>);;
    s ← get;
    on_in (ShrinkBuffer (b_length (inputBuffer (rx s)) <=? b_idx (inputBuffer (rx s))));;
    set_state PROCESS_INIT);;
  ret_code (if (ret <? 0) && negb (soft_code ret) then WS_FATAL_ERROR else ret).

(** A packet, from the state its reading was left in. *)
Definition receive_from (st : Z) : M unit :=
  if st =? PROCESS_INIT then receive_head;; receive_length;; receive_finish;; receive_packet
  else if st =? PROCESS_PACKET_LENGTH then receive_length;; receive_finish;; receive_packet
  else if st =? PROCESS_PACKET_FINISH then receive_finish;; receive_packet
  else if st =? PROCESS_PACKET then receive_packet
  else if st =? PROCESS_DISCARD then DiscardPacket
  else set_error WS_INPUT_CASE_E;; fail WS_FATAL_ERROR.
End Suite.

Definition DoReceive : M unit :=
  s ← get;
  receive_from (peerBlockSz (rx s)) (peerMacSz (rx s)) (peerAeadMode (rx s)) (processReplyState (rx s)).
End Receive.
