(* ===== verification/ReceiveSpec.v ===== *)
(** What receiving promises: a packet the peer sealed is received whole and its payload
    handed on, in whatever pieces it arrives; nothing but a packet whose MAC or tag
    checks reaches a handler; and what becomes of a message that is not allowed. *)

From S2P Require Import Prelude Codes Wire Names Buffer Fwd Algos Kdf Session Samples MsgFilter Transport.
From S2P Require Import Channels Send ChannelMsgs KexInit KexKeys KexAgree UserSig Ossh Composite OsshKey CertMan.
From S2P Require Import HostKey UserAuth KexDh KexDhSpec Agent AgentSpec UserAuthClient ClientSpec Input Receive.

(** What a cipher's decryption promises: [ctx_pair] relates the context of the end that
    encrypts to that of the end that decrypts, at the same point of the stream, and
    blocks can be processed in parts. *)
Class CipherLaws `{Crypto} := {
  ctx_pair : bytes -> bytes -> Prop;
  cbc_inverse e d p c e' : ctx_pair e d -> wc_AesCbcEncrypt e p = (Some c, e') ->
    exists d', wc_AesCbcDecrypt d c = (Some p, d') /\ ctx_pair e' d';
  cbc_split e p q c e' : blen p = AES_BLOCK_SIZE -> wc_AesCbcEncrypt e (p ++ q) = (Some c, e') ->
    exists c1 c2 e1, wc_AesCbcEncrypt e p = (Some c1, e1) /\ wc_AesCbcEncrypt e1 q = (Some c2, e') /\ c = c1 ++ c2;
  ctr_inverse e d p c e' : ctx_pair e d -> wc_AesCtrEncrypt e p = (Some c, e') ->
    exists d', wc_AesCtrEncrypt d c = (Some p, d') /\ ctx_pair e' d';
  ctr_split e p q c e' : blen p = AES_BLOCK_SIZE -> wc_AesCtrEncrypt e (p ++ q) = (Some c, e') ->
    exists c1 c2 e1, wc_AesCtrEncrypt e p = (Some c1, e1) /\ wc_AesCtrEncrypt e1 q = (Some c2, e') /\ c = c1 ++ c2;
  gcm_inverse e d nonce a p n c tag e' : ctx_pair e d -> wc_AesGcmEncrypt e nonce a p n = (Ok (c, tag), e') ->
    exists d', wc_AesGcmDecrypt d nonce a c tag = (Ok p, d') /\ ctx_pair e' d'
}.

(** ** Reading and writing what is buffered *)

Section Buffered.
Implicit Types (s : WOLFSSH) (b : WOLFSSH_BUFFER).

Lemma unread_slice p x r b : buffer_ok b -> unread b = p ++ x ++ r ->
  slice (buffer b) (b_idx b + blen p) (blen x) = x /\ b_idx b + blen p + blen x <= b_length b.
Proof.
  intros Hok Hu. pose proof (unread_length b Hok) as Hl. rewrite Hu, !blen_app in Hl.
  pose proof (blen_nonneg p). pose proof (blen_nonneg x). pose proof (blen_nonneg r). destruct Hok.
  split; [|lia]. rewrite <- (slice_of_slice (buffer b) (b_idx b) (b_length b - b_idx b) (blen p) (blen x)) by lia.
  fold (unread b). rewrite Hu. apply slice_app_here.
Qed.

Lemma in_read_at p x r s : buffer_ok (inp s) -> unread (inp s) = p ++ x ++ r ->
  in_read (b_idx (inp s) + blen p) (blen x) s = (Ok x, s).
Proof.
  intros Hok Hu. destruct (unread_slice _ _ _ _ Hok Hu) as [Es Hle]. destruct Hok. unfold inp in *.
  unfold in_read, on_in. pose proof (blen_nonneg p). pose proof (blen_nonneg x).
  rewrite buffer_read_ok by lia. rewrite Es. f_equal. by destruct s as [? ? ? ? ? ? ? ? ? ? ? ? ? ? ? ? ? ? ? ? ? ? ? [] ? ? ? ? ? ? ? ?].
Qed.

Lemma in_write_at p x r d s : buffer_ok (inp s) -> unread (inp s) = p ++ x ++ r -> blen d = blen x ->
  exists b, on_in (buffer_write (b_idx (inp s) + blen p) d) s = (Ok tt, s <| rx; inputBuffer := b |>)
    /\ buffer_ok b /\ unread b = p ++ d ++ r /\ b_idx b = b_idx (inp s).
Proof.
  intros Hok Hu Hd. pose proof (unread_length _ Hok) as Hl. rewrite Hu, !blen_app in Hl.
  pose proof (blen_nonneg p). pose proof (blen_nonneg x). pose proof (blen_nonneg r). pose proof Hok as []. unfold inp in *.
  set (b := inputBuffer (rx s)) in *.
  destruct (buffer_write_ok (b_idx b + blen p) d b) as (a & Hw & E); [lia|lia|].
  exists (set_buffer a b). destruct (set_buffer_fields a b) as (F1 & F2 & F3 & F4).
  pose proof (blen_wr _ _ _ _ Hw) as Ha. split; [unfold on_in; fold b; by rewrite E|].
  split; [by apply set_buffer_ok|]. split; [|exact F2].
  unfold unread. rewrite buffer_set_buffer, F1, F2.
  assert (buffer b = take (Z.to_nat (b_idx b)) (buffer b) ++ (p ++ x ++ r) ++ drop (Z.to_nat (b_length b)) (buffer b)) as Eb.
  { rewrite <- Hu. unfold unread, slice. rewrite <- (take_drop (Z.to_nat (b_idx b)) (buffer b)) at 1. f_equal.
    rewrite <- (take_drop (Z.to_nat (b_length b - b_idx b)) (drop (Z.to_nat (b_idx b)) (buffer b))) at 1. f_equal.
    rewrite drop_drop. f_equal. lia. }
  set (h := take (Z.to_nat (b_idx b)) (buffer b)) in *. set (tl := drop (Z.to_nat (b_length b)) (buffer b)) in *.
  assert (blen h = b_idx b) as Hh by (unfold h, blen; rewrite length_take; unfold blen in *; lia).
  assert (a = (h ++ p) ++ d ++ (r ++ tl)) as ->.
  { rewrite Eb in Hw. replace (b_idx b + blen p) with (blen (h ++ p)) in Hw by (rewrite blen_app; lia).
    replace (h ++ (p ++ x ++ r) ++ tl) with ((h ++ p) ++ x ++ (r ++ tl)) in Hw by (by rewrite <- !app_assoc).
    rewrite wr_app in Hw by (by apply length_blen). by injection Hw as <-. }
  replace (b_length b - b_idx b) with (blen (p ++ d ++ r)) by (rewrite !blen_app; lia).
  replace ((h ++ p) ++ d ++ r ++ tl) with (h ++ (p ++ d ++ r) ++ tl) by (by rewrite <- !app_assoc).
  rewrite <- Hh. apply slice_app_here.
Qed.
End Buffered.

(** ** Deciphering *)

Section Decipher.
Context `{CTX} `{Crypto} `{!CryptoSizes} `{!CipherLaws}.
Implicit Types (s : WOLFSSH) (t : Transmit).

Definition decrypt_ret (id : AlgoId) (st input : bytes) : res bytes * bytes :=
  match id with
  | ID_NONE => (Ok input, st)
  | ID_AES128_CBC | ID_AES192_CBC | ID_AES256_CBC => aes_blocks wc_AesCbcDecrypt WS_DECRYPT_E st input
  | ID_AES128_CTR | ID_AES192_CTR | ID_AES256_CTR => aes_blocks wc_AesCtrEncrypt WS_DECRYPT_E st input
  | _ => (Err WS_INVALID_ALGO_ID, st)
  end.

Lemma Decrypt_run input p st s : blen input <> 0 ->
  decrypt_ret (peerEncryptId (rx s)) (decryptCipher (rx s)) input = (Ok p, st) ->
  Decrypt input s = (Ok p, s <| rx; decryptCipher := st |> <| rx; rxCount ::= (fun c => c +w blen input) |>).
Proof.
  intros Hz E. unfold Decrypt. rewrite st_guard. apply Z.eqb_neq in Hz. rewrite Hz, st_get. cbv zeta.
  unfold decrypt_ret in E. destruct (peerEncryptId (rx s)); first [by rewrite E|by injection E as <- <-|done].
Qed.

Lemma aes_blocks_ok f e st p c st' : aes_blocks f e st p = (Ok c, st') -> blen p mod AES_BLOCK_SIZE = 0 /\ f st p = (Some c, st').
Proof.
  unfold aes_blocks, truthy. destruct (Z.eqb_spec (blen p mod AES_BLOCK_SIZE) 0); [|done]. cbn [negb].
  destruct (f st p) as [[o|] st1]; [|done]. intros [= -> ->]. done.
Qed.

Lemma aes_blocks_run f e st p c st' : blen p mod AES_BLOCK_SIZE = 0 -> f st p = (Some c, st') -> aes_blocks f e st p = (Ok c, st').
Proof. intros Hz E. unfold aes_blocks. by rewrite Hz, E. Qed.

Lemma decrypt_encrypted t d p c e : ctx_pair (encryptCipher t) d -> encrypt_ret t p = (Ok c, e) ->
  exists d', decrypt_ret (encryptId t) d c = (Ok p, d').
Proof.
  intros Hp E. pose proof (encrypt_ret_size t p) as Hs. rewrite E in Hs. unfold encrypt_ret in E. unfold decrypt_ret.
  destruct (encryptId t); try discriminate; try (injection E as -> _; by eexists);
    apply aes_blocks_ok in E as [Hz E];
    [destruct (cbc_inverse _ _ _ _ _ Hp E) as (d' & Ed & _)|destruct (cbc_inverse _ _ _ _ _ Hp E) as (d' & Ed & _)
    |destruct (cbc_inverse _ _ _ _ _ Hp E) as (d' & Ed & _)|destruct (ctr_inverse _ _ _ _ _ Hp E) as (d' & Ed & _)
    |destruct (ctr_inverse _ _ _ _ _ Hp E) as (d' & Ed & _)|destruct (ctr_inverse _ _ _ _ _ Hp E) as (d' & Ed & _)];
    exists d'; apply aes_blocks_run; by rewrite ?Hs.
Qed.

(** The cipher text of a packet deciphers a block first, and then the rest. *)
Definition in_parts t d (p q c1 c2 : bytes) : Prop :=
  blen c1 = blen p /\ blen c2 = blen q /\ exists d1 d2,
    decrypt_ret (encryptId t) d c1 = (Ok p, d1) /\ decrypt_ret (encryptId t) d1 c2 = (Ok q, d2).

Lemma blocks_in_parts t d p q c e (f g : bytes -> bytes -> option bytes * bytes) err err' :
  (forall st i o st', f st i = (Some o, st') -> blen o = blen i) ->
  (forall e d p c e', ctx_pair e d -> f e p = (Some c, e') -> exists d', g d c = (Some p, d') /\ ctx_pair e' d') ->
  (forall e p q c e', blen p = AES_BLOCK_SIZE -> f e (p ++ q) = (Some c, e') ->
    exists c1 c2 e1, f e p = (Some c1, e1) /\ f e1 q = (Some c2, e') /\ c = c1 ++ c2) ->
  (forall st i, decrypt_ret (encryptId t) st i = aes_blocks g err' st i) ->
  ctx_pair (encryptCipher t) d -> blen p = AES_BLOCK_SIZE -> aes_blocks f err (encryptCipher t) (p ++ q) = (Ok c, e) ->
  exists c1 c2, c = c1 ++ c2 /\ in_parts t d p q c1 c2.
Proof.
  intros Hsz Hinv Hspl Hg Hp Hb E. apply aes_blocks_ok in E as [Hz E].
  destruct (Hspl _ _ _ _ _ Hb E) as (c1 & c2 & e1 & E1 & E2 & ->). exists c1, c2. split; [done|].
  destruct (Hinv _ _ _ _ _ Hp E1) as (d1 & D1 & Hp1). destruct (Hinv _ _ _ _ _ Hp1 E2) as (d2 & D2 & _).
  pose proof (Hsz _ _ _ _ E1) as S1. pose proof (Hsz _ _ _ _ E2) as S2. split; [done|]. split; [done|]. exists d1, d2.
  rewrite !Hg. rewrite blen_app, Hb in Hz. change AES_BLOCK_SIZE with 16 in *.
  split; apply aes_blocks_run; try done; change AES_BLOCK_SIZE with 16; [rewrite S1, Hb; done|].
  rewrite S2. rewrite <- Hz. rewrite <- (Z.mul_1_l 16) at 2. rewrite Z.add_comm, Z.mod_add by lia. done.
Qed.

Lemma decrypt_parts t d p q c e : ctx_pair (encryptCipher t) d -> blen p = BlockSzForId (encryptId t) ->
  encrypt_ret t (p ++ q) = (Ok c, e) -> exists c1 c2, c = c1 ++ c2 /\ in_parts t d p q c1 c2.
Proof.
  intros Hp Hb E. unfold encrypt_ret in E.
  destruct (encryptId t) eqn:Ei; try discriminate;
    try (injection E as <- <-; exists p, q; split; [done|]; split; [done|]; split; [done|]; exists d, d; by rewrite Ei).
  1-3: eapply (blocks_in_parts t d p q c e wc_AesCbcEncrypt wc_AesCbcDecrypt _ WS_DECRYPT_E cbc_size cbc_inverse cbc_split); try done;
    intros st i; by rewrite Ei.
  all: eapply (blocks_in_parts t d p q c e wc_AesCtrEncrypt wc_AesCtrEncrypt _ WS_DECRYPT_E ctr_size ctr_inverse ctr_split); try done;
    intros st i; by rewrite Ei.
Qed.
End Decipher.

(** ** A frame *)

(** [r] reads what [t] writes: the same suite, keys and number, and ciphers at the same
    point. *)
Record same_suite (t : Transmit) (r : Receive) : Prop := {
  ss_enc : peerEncryptId r = encryptId t;
  ss_mac : peerMacId r = macId t;
  ss_aead : peerAeadMode r = aeadMode t;
  ss_block : peerBlockSz r = blockSz t;
  ss_macSz : peerMacSz r = macSz t;
  ss_seq : peerSeq r = seq t;
  ss_key : slice (macKey (peerKeys r)) 0 (macKeySz (peerKeys r)) = slice (macKey (keys t)) 0 (macKeySz (keys t))
}.
Definition nonce_of (k : Keys) : bytes := slice (iv k) 0 (ivSz k).

Section Checks.
Context `{CTX} `{Crypto} `{!CryptoSizes} `{!CipherLaws}.
Implicit Types (s : WOLFSSH) (t : Transmit).

Lemma verify_created t plain mac s :
  same_suite t (rx s) -> suite_ok (encryptId t) (aeadMode t) (macId t) (blockSz t) (macSz t) (keys t) -> aeadMode t = false ->
  create_mac t plain = Ok mac -> VerifyMac plain mac s = (Ok tt, s).
Proof.
  intros [_ Hmid _ _ Hmsz Hseq Hkey] Hsu Ha Ec. destruct (so_mac_for _ _ _ _ _ _ Hsu Ha) as [Em Hk].
  pose proof (so_mac _ _ _ _ _ _ Hsu) as Hb. pose proof (create_mac_size t plain Em Hk) as Hs. rewrite Ec in Hs.
  destruct (VerifyMac_run plain mac s) as [Es Ev]; [rewrite Hmsz; lia|rewrite Hmsz; lia|].
  enough ((VerifyMac plain mac s).1 = Ok tt) as E1.
  { destruct (VerifyMac plain mac s) as [r s']. cbn in E1, Es. congruence. }
  apply Ev. rewrite Hmid, Hmsz, Hseq. unfold hmac_with. rewrite Hkey. unfold create_mac in Ec.
  assert (forall h digest, blen digest = DigestSz h -> slice digest 0 (macSz t) = mac -> macSz t <= DigestSz h ->
    slice (digest ++ zeros (MAX_HMAC_SZ - blen digest)) 0 (macSz t) = slice mac 0 (macSz t)) as K.
  { intros h digest Hd <- Hle. rewrite slice_app_l by lia. rewrite slice_slice; [done|lia]. }
  destruct (macId t) eqn:Ei; try discriminate; try (by left); right.
  - eexists WC_HASH_TYPE_SHA, _. split; [done|]. split; [exact Ec|]. apply hmac_size in Ec as Hd.
    apply (K WC_HASH_TYPE_SHA); [done| |rewrite Em; vm_compute; discriminate]. rewrite Em. replace (MacSzForId ID_HMAC_SHA1) with (blen mac) by (rewrite Hd; done). apply slice_full.
  - unfold hmac_with in Ec. destruct (wc_Hmac _ _ _) as [d|e|] eqn:Eh; [|done..]. injection Ec as <-.
    exists WC_HASH_TYPE_SHA, d. split; [done|]. split; [done|]. apply hmac_size in Eh as Hd.
    apply (K WC_HASH_TYPE_SHA); [done|by rewrite Em|rewrite Em; vm_compute; discriminate].
  - eexists WC_HASH_TYPE_SHA256, _. split; [done|]. split; [exact Ec|]. apply hmac_size in Ec as Hd.
    apply (K WC_HASH_TYPE_SHA256); [done| |rewrite Em; vm_compute; discriminate]. rewrite Em. replace (MacSzForId ID_HMAC_SHA2_256) with (blen mac) by (rewrite Hd; done). apply slice_full.
  - eexists WC_HASH_TYPE_SHA512, _. split; [done|]. split; [exact Ec|]. apply hmac_size in Ec as Hd.
    apply (K WC_HASH_TYPE_SHA512); [done| |rewrite Em; vm_compute; discriminate]. rewrite Em. replace (MacSzForId ID_HMAC_SHA2_512) with (blen mac) by (rewrite Hd; done). apply slice_full.
Qed.

Lemma DecryptAead_run t body len c tag e s :
  same_suite t (rx s) -> nonce_of (peerKeys (rx s)) = nonce_of (keys t) -> ctx_pair (encryptCipher t) (decryptCipher (rx s)) ->
  blen body <> 0 -> blen len <> 0 -> aead_ret t body len = (Ok (c, tag), e) ->
  exists d, DecryptAead c tag len s = (Ok body, s <| rx; decryptCipher := d |>
    <| rx; peerKeys ::= (fun k => k <| iv ::= AeadIncrementExpIv |>) |> <| rx; rxCount ::= (fun n => n +w blen c) |>).
Proof.
  intros [Henc _ _ _ Hmsz _ _] Hn Hp Hb Hl E. pose proof (aead_ret_size t body len) as Hs. rewrite E in Hs. destruct Hs as [Hc Ht].
  unfold DecryptAead. rewrite st_guard, (proj2 (Z.eqb_neq (blen c) 0)), (proj2 (Z.eqb_neq (blen len) 0)) by congruence.
  cbn [orb]. cbv iota. rewrite st_get. cbv zeta. unfold aead_ret in E. rewrite Henc, Hmsz, <- Ht, slice_full. fold (nonce_of (peerKeys (rx s))).
  rewrite Hn. unfold nonce_of. destruct (encryptId t); try discriminate;
    destruct (gcm_inverse _ _ _ _ _ _ _ _ _ Hp E) as (d & Ed & _); exists d; rewrite Ed; reflexivity.
Qed.
End Checks.

(** The packet as it is sealed. *)
Definition packet_sz (w pad : bytes) : Z := PAD_LENGTH_SZ + blen w + blen pad.
Definition plain_of (w pad : bytes) : bytes := c32toa (packet_sz w pad) ++ [blen pad] ++ w ++ pad.

(** The session but for what reading a packet moves. *)
Definition outside (s : WOLFSSH) : WOLFSSH :=
  s <| rx ::= (fun r => r <| inputBuffer := mkBuffer 0 0 0 [] [] false |> <| curSz := 0 |> <| rxCount := 0 |>
         <| peerKeys; iv := [] |> <| decryptCipher := [] |> <| processReplyState := 0 |>) |>
    <| mallocs := [] |> <| error := 0 |> <| connReset := false |> <| isClosed := false |> <| app := [] |>.

Lemma outside_suite t s s' : outside s' = outside s -> same_suite t (rx s) -> same_suite t (rx s').
Proof.
  intros E [E1 E2 E3 E4 E5 E6 E7]. apply (f_equal rx) in E. cbn in E.
  pose proof (f_equal peerEncryptId E) as F1. pose proof (f_equal peerMacId E) as F2. pose proof (f_equal peerAeadMode E) as F3.
  pose proof (f_equal peerBlockSz E) as F4. pose proof (f_equal peerMacSz E) as F5. pose proof (f_equal peerSeq E) as F6.
  pose proof (f_equal (fun r => (macKey (peerKeys r), macKeySz (peerKeys r))) E) as F7. cbn in *. injection F7 as F7 F8.
  split; congruence.
Qed.

Section Offsets.
Implicit Types (s : WOLFSSH).

Lemma in_read_off p x r n m s : buffer_ok (inp s) -> unread (inp s) = p ++ x ++ r -> n = blen p -> m = blen x ->
  in_read (b_idx (inputBuffer (rx s)) +w n) m s = (Ok x, s).
Proof.
  intros Hok Hu -> ->. rewrite wrap32_small; [by apply (in_read_at p x r)|].
  destruct (unread_slice _ _ _ _ Hok Hu). pose proof (blen_nonneg p). pose proof (blen_nonneg x). destruct Hok. unfold inp in *. lia.
Qed.

Lemma in_read_front x r m s : buffer_ok (inp s) -> unread (inp s) = x ++ r -> m = blen x ->
  in_read (b_idx (inputBuffer (rx s))) m s = (Ok x, s).
Proof.
  intros Hok Hu ->. rewrite <- (in_read_at [] x r s Hok Hu). change (blen []) with 0. by rewrite Z.add_0_r.
Qed.

Lemma in_write_off p x r d n s : buffer_ok (inp s) -> unread (inp s) = p ++ x ++ r -> n = blen p -> blen d = blen x ->
  exists b, on_in (buffer_write (b_idx (inputBuffer (rx s)) +w n) d) s = (Ok tt, s <| rx; inputBuffer := b |>)
    /\ buffer_ok b /\ unread b = p ++ d ++ r /\ b_idx b = b_idx (inp s).
Proof.
  intros Hok Hu -> Hd. rewrite wrap32_small; [by apply (in_write_at p x r)|].
  destruct (unread_slice _ _ _ _ Hok Hu). pose proof (blen_nonneg p). pose proof (blen_nonneg x). destruct Hok. unfold inp in *. lia.
Qed.

(** Enough has arrived. *)
Lemma stream_split (u i a m : bytes) : u ++ i = a ++ m -> blen a <= blen u -> exists tl, u = a ++ tl /\ m = tl ++ i.
Proof.
  intros E Hl. exists (drop (length a) u).
  assert (take (length a) u = a) as Ea.
  { apply (f_equal (take (length a))) in E. rewrite take_app_le in E by (unfold blen in *; lia). by rewrite take_app_length in E. }
  split; [by rewrite <- Ea at 1; rewrite take_drop|].
  apply (f_equal (drop (length a))) in E. rewrite drop_app_le, drop_app_length in E by (unfold blen in *; lia). done.
Qed.
End Offsets.

Section Frame.
Context `{CTX} `{Crypto} `{!CryptoSizes} `{!CipherLaws}.
Context (incoming : bytes -> bytes) (retries : bytes -> nat) (cb : Z -> M (Z * bytes)).
Context (Hcb : ioRecvCb = Some cb) (HC : RecvContract cb incoming retries) (Hfuel : MAX_PACKET_SZ <= Z.of_nat io_fuel).
Implicit Types (s : WOLFSSH) (t : Transmit).

Local Abbreviation stream := (input_stream incoming).

(** A session able to go on reading what [t] writes. *)
Record able t s : Prop := {
  ab_ok : buffer_ok (inp s);
  ab_suite : same_suite t (rx s);
  ab_retries : (retries (app s) < io_fuel)%nat;
  ab_stream : blen (stream s) + MAX_PACKET_SZ < 2 ^ 32
}.

Lemma fed_outside s s' : fed incoming retries s s' -> outside s' = outside s.
Proof. intros [_ _ E _]. apply (f_equal outside) in E. exact E. Qed.

Lemma fed_rx s s' : fed incoming retries s s' -> rx s' = (rx s) <| inputBuffer := inp s' |>.
Proof.
  intros [_ _ E _]. apply (f_equal rx) in E. cbn in E. apply (f_equal (fun r => r <| inputBuffer := inp s' |>)) in E. cbn in E.
  unfold inp in *. destruct (rx s'), (rx s). cbn in *. exact E.
Qed.

Lemma fed_able t s s' : able t s -> fed incoming retries s s' -> able t s'.
Proof.
  intros [A1 A2 A3 A4] F. destruct F as [F1 F2 F3 F4] eqn:EF. split; [done| |lia|by rewrite F1].
  eapply outside_suite; [|exact A2]. by eapply fed_outside.
Qed.

(** Asking for the next [size] bytes. *)
Lemma ask_run size t s (a m : bytes) : able t s -> stream s = a ++ m -> size = blen a -> size <= MAX_PACKET_SZ ->
  wp (GetInputData size) (fun r s' => fed incoming retries s s' /\
    match r with
    | inl _ => exists tl, unread (inp s') = a ++ tl /\ m = tl ++ incoming (app s')
    | inr e => no_input s s' e
    end) s.
Proof.
  intros [A1 A2 A3 A4] Es Ez Hle. pose proof (blen_nonneg a).
  assert (blen (unread (inp s)) <= blen (stream s)) as Hu
    by (unfold input_stream; rewrite blen_app; pose proof (blen_nonneg (incoming (app s))); lia).
  eapply wp_mono; [apply (GetInputData_run incoming retries cb Hcb HC size s); try done; clia|].
  intros r s' [F K]. split; [done|]. destruct r as [[]|e]; [|exact K]. destruct K as [K _].
  apply stream_split; [|lia]. destruct F as [F _ _ _]. unfold input_stream in F at 1. by rewrite F.
Qed.

(** A packet of payload [w], in the buffer in clear: all that is left is to handle it. *)
Definition received t (w more : bytes) s : Prop :=
  able t s /\ processReplyState (rx s) = PROCESS_PACKET /\ exists pad trailer tl,
    MIN_PAD_LENGTH <= blen pad < 256 /\ blen trailer = macSz t /\ curSz (rx s) = packet_sz w pad /\
    unread (inp s) = plain_of w pad ++ trailer ++ tl /\ more = tl ++ incoming (app s).

(** A packet whose first block and length have been read. *)
Definition halfway t (w more : bytes) s : Prop :=
  exists pad, MIN_PAD_LENGTH <= blen pad < 256 /\ curSz (rx s) = packet_sz w pad /\ LENGTH_SZ + packet_sz w pad + macSz t <= MAX_PACKET_SZ /\
  if aeadMode t then
    nonce_of (peerKeys (rx s)) = nonce_of (keys t) /\ ctx_pair (encryptCipher t) (decryptCipher (rx s)) /\
    exists c tag e, aead_ret t ([blen pad] ++ w ++ pad) (c32toa (packet_sz w pad)) = (Ok (c, tag), e) /\
      stream s = c32toa (packet_sz w pad) ++ c ++ tag ++ more
  else
    exists p q c mac d, plain_of w pad = p ++ q /\ blen p = blockSz t /\ create_mac t (plain_of w pad) = Ok mac /\
      blen mac = macSz t /\ blen c = blen q /\ decrypt_ret (encryptId t) (decryptCipher (rx s)) c = (Ok q, d) /\
      stream s = p ++ c ++ mac ++ more.

Lemma blen_plain w pad : blen (plain_of w pad) = LENGTH_SZ + packet_sz w pad.
Proof. unfold plain_of, packet_sz. rewrite !blen_app, c32toa_length. change (blen [blen pad]) with 1. clia. Qed.

Lemma write_able t s d b : able t s -> blen (unread b) = blen (unread (inp s)) -> buffer_ok b -> outside d = outside s ->
  inp d = b -> app d = app s -> able t d.
Proof.
  intros [A1 A2 A3 A4] Hl Hok Ho Hi Ha. split; [by rewrite Hi|by eapply outside_suite|by rewrite Ha|].
  revert A4. unfold input_stream. rewrite Hi, Ha, !blen_app, Hl. done.
Qed.

(** The rest of an AEAD packet. *)
Lemma finish_aead_run t w pad (c tag e tl : bytes) s :
  able t s -> nonce_of (peerKeys (rx s)) = nonce_of (keys t) -> ctx_pair (encryptCipher t) (decryptCipher (rx s)) ->
  aead_ret t ([blen pad] ++ w ++ pad) (c32toa (packet_sz w pad)) = (Ok (c, tag), e) ->
  unread (inp s) = (c32toa (packet_sz w pad) ++ c ++ tag) ++ tl ->
  exists s', finish_aead (macSz t) (packet_sz w pad) s = (Ok tt, s') /\ able t s' /\ outside s' = outside s /\
    curSz (rx s') = curSz (rx s) /\ app s' = app s /\ unread (inp s') = plain_of w pad ++ tag ++ tl.
Proof.
  intros Hab Hn Hp E Hu. pose proof Hab as [A1 A2 A3 A4]. set (len := c32toa (packet_sz w pad)) in *. set (body := [blen pad] ++ w ++ pad) in *.
  pose proof (aead_ret_size t body len) as Hs. rewrite E in Hs. destruct Hs as [Hc Ht].
  assert (blen body = packet_sz w pad) as Hbody by (unfold body, packet_sz; rewrite !blen_app; change (blen [blen pad]) with 1; clia).
  assert (blen len = LENGTH_SZ) as Hlen by (unfold len; rewrite c32toa_length; clia).
  assert (0 < blen body) as Hpos by (rewrite Hbody; unfold packet_sz; pose proof (blen_nonneg w); pose proof (blen_nonneg pad); clia).
  rewrite <- !app_assoc in Hu. unfold finish_aead. rewrite st_get. cbv zeta.
  erewrite ST_bind_ok by (apply (in_read_off len c (tag ++ tl)); [done|done|clia|lia]).
  erewrite ST_bind_ok by (apply (in_read_off (len ++ c) tag tl); [done|by rewrite <- app_assoc|rewrite blen_app; clia|lia]).
  erewrite ST_bind_ok by (apply (in_read_front len (c ++ tag ++ tl)); [done|done|clia]).
  destruct (DecryptAead_run t body len c tag e s A2 Hn Hp ltac:(lia) ltac:(clia) E) as (d & Ed).
  match type of Ed with _ = (_, ?x) => set (s1 := x) in * end.
  destruct (in_write_off len c (tag ++ tl) body UINT32_SZ s1) as (b & Ew & Hokb & Hub & Hib); [exact A1|exact Hu|clia|lia|].
  change (b_idx (inputBuffer (rx s1))) with (b_idx (inputBuffer (rx s))) in Ew.
  set (s2 := s1 <| rx; inputBuffer := b |>) in *.
  erewrite (ST_bind_ok (code _) _ s 0 s2) by (unfold code; rewrite (ST_bind_ok _ _ _ _ _ Ed), Ew; reflexivity).
  change (0 =? WS_SUCCESS) with true. cbn [negb when].
  exists s2. split; [reflexivity|]. split; [|split; [reflexivity|split; [reflexivity|split; [reflexivity|]]]].
  - apply (write_able t s s2 b); try done. rewrite Hub, Hu, !blen_app. lia.
  - change (inp s2) with b. rewrite Hub. unfold plain_of, body. fold len. by rewrite <- !app_assoc.
Qed.

(** The rest of a packet with a MAC. *)
Lemma decrypt_at_run t s p x r d n m st :
  able t s -> unread (inp s) = p ++ x ++ r -> n = blen p -> m = blen x -> blen x <> 0 -> blen d = blen x ->
  decrypt_ret (encryptId t) (decryptCipher (rx s)) x = (Ok d, st) ->
  exists s', decrypt_at (b_idx (inputBuffer (rx s)) +w n) m s = (Ok 0, s') /\ able t s' /\ outside s' = outside s /\
    decryptCipher (rx s') = st /\ peerKeys (rx s') = peerKeys (rx s) /\ curSz (rx s') = curSz (rx s) /\
    processReplyState (rx s') = processReplyState (rx s) /\
    app s' = app s /\ unread (inp s') = p ++ d ++ r /\ b_idx (inp s') = b_idx (inp s).
Proof.
  intros Hab Hu En Em Hx Hd E. pose proof Hab as [A1 A2 A3 A4]. unfold decrypt_at.
  erewrite ST_bind_ok by (apply (in_read_off p x r); done).
  rewrite <- (ss_enc _ _ A2) in E. pose proof (Decrypt_run x d st s Hx E) as Ed.
  match type of Ed with _ = (_, ?x) => set (s1 := x) in * end.
  destruct (in_write_off p x r d n s1) as (b & Ew & Hokb & Hub & Hib); [exact A1|exact Hu|done|done|].
  change (b_idx (inputBuffer (rx s1))) with (b_idx (inputBuffer (rx s))) in Ew.
  exists (s1 <| rx; inputBuffer := b |>). split; [unfold code; by rewrite (ST_bind_ok _ _ _ _ _ Ed), Ew|].
  split; [|repeat (split; [reflexivity|]); split; [exact Hub|exact Hib]].
  apply (write_able t s _ b); try done. rewrite Hub, Hu, !blen_app. lia.
Qed.

Lemma verified_run t w pad mac tl s : able t s -> suite_ok (encryptId t) (aeadMode t) (macId t) (blockSz t) (macSz t) (keys t) ->
  aeadMode t = false -> create_mac t (plain_of w pad) = Ok mac -> blen mac = macSz t ->
  unread (inp s) = plain_of w pad ++ mac ++ tl ->
  (data ← in_read (b_idx (inp s)) (UINT32_SZ + packet_sz w pad);
   m ← in_read (b_idx (inp s) +w (UINT32_SZ + packet_sz w pad)) (macSz t);
   verifyResult ← code (VerifyMac data m);
   if negb (0 =? WS_SUCCESS) then spoiled (UINT32_SZ + packet_sz w pad) 0
   else if negb (verifyResult =? WS_SUCCESS) then RejectPacket (UINT32_SZ + packet_sz w pad + macSz t) verifyResult
   else mret tt) s = (Ok tt, s).
Proof.
  intros Hab Hsu Ha Em Hm Hu. pose proof Hab as [A1 A2 A3 A4]. pose proof (blen_plain w pad) as Hp.
  erewrite ST_bind_ok by (apply (in_read_front (plain_of w pad) (mac ++ tl)); [done|done|clia]).
  erewrite ST_bind_ok by (apply (in_read_off (plain_of w pad) mac tl); [done|done|clia|lia]).
  erewrite (ST_bind_ok (code _) _ s 0 s) by (unfold code; rewrite (verify_created t _ _ s A2 Hsu Ha Em); reflexivity).
  reflexivity.
Qed.

Lemma finish_mac_run t w pad (p q c mac d tl : bytes) s :
  able t s -> suite_ok (encryptId t) (aeadMode t) (macId t) (blockSz t) (macSz t) (keys t) -> aeadMode t = false ->
  plain_of w pad = p ++ q -> blen p = blockSz t -> create_mac t (plain_of w pad) = Ok mac -> blen mac = macSz t -> blen c = blen q ->
  decrypt_ret (encryptId t) (decryptCipher (rx s)) c = (Ok q, d) -> unread (inp s) = (p ++ c ++ mac) ++ tl ->
  exists s', finish_mac (blockSz t) (macSz t) (packet_sz w pad) s = (Ok tt, s') /\ able t s' /\ outside s' = outside s /\
    curSz (rx s') = curSz (rx s) /\ app s' = app s /\ unread (inp s') = plain_of w pad ++ mac ++ tl.
Proof.
  intros Hab Hsu Ha Epl Hp Em Hm Hc Ed Hu. pose proof (blen_plain w pad) as Hl. rewrite Epl, blen_app in Hl. rewrite <- !app_assoc in Hu.
  unfold finish_mac. rewrite st_get. cbv zeta. destruct (Z.ltb_spec (blockSz t) (packet_sz w pad + UINT32_SZ)) as [Hlt|Hge].
  - destruct (decrypt_at_run t s p c (mac ++ tl) q (blockSz t) (UINT32_SZ + packet_sz w pad - blockSz t) d Hab Hu) as
      (s1 & E1 & Hab1 & Ho & _ & _ & Hcur & _ & Happ & Hu1 & Hi); [done|clia|clia|done|exact Ed|].
    rewrite (ST_bind_ok _ _ _ _ _ E1). exists s1.
    pose proof (verified_run t w pad mac tl s1 Hab1 Hsu Ha Em Hm ltac:(by rewrite Hu1, Epl, <- app_assoc)) as Ev.
    rewrite Hi in Ev. split; [exact Ev|]. split; [done|]. split; [done|]. split; [done|]. split; [done|]. by rewrite Hu1, Epl, <- app_assoc.
  - rewrite st_ret. pose proof (blen_nonneg q). assert (q = []) as -> by (apply blen_zero_iff; clia).
    assert (c = []) as -> by (by apply blen_zero_iff). cbn [Datatypes.app] in Hu. rewrite app_nil_r in Epl.
    exists s. pose proof (verified_run t w pad mac tl s Hab Hsu Ha Em Hm ltac:(by rewrite Hu, Epl)) as Ev.
    split; [exact Ev|]. split; [done|]. split; [done|]. split; [done|]. split; [done|]. by rewrite Hu, Epl.
Qed.

(** What waiting for more input keeps. *)
Definition waits t s (e : Z) s' : Prop :=
  able t s' /\ stream s' = stream s /\ rx s' = (rx s) <| inputBuffer := inp s' |> /\ outside s' = outside s /\
  no_input s s' e.

Lemma fed_waits t s e s' : able t s -> fed incoming retries s s' -> no_input s s' e -> waits t s e s'.
Proof.
  intros Hab F K. pose proof F as [F1 _ _ _]. split; [by eapply fed_able|]. split; [done|]. split; [by apply fed_rx|].
  split; [by apply fed_outside|done].
Qed.

Lemma waits_halfway t w more s e s' : halfway t w more s -> waits t s e s' -> halfway t w more s'.
Proof.
  intros (pad & Hpad & Hcur & Hfit & Hh) (_ & Es & Er & _). exists pad. rewrite Er, Es. cbn. done.
Qed.

Lemma receive_finish_run t w more s :
  able t s -> suite_ok (encryptId t) (aeadMode t) (macId t) (blockSz t) (macSz t) (keys t) -> halfway t w more s ->
  wp (receive_finish (blockSz t) (macSz t) (aeadMode t)) (fun r s' =>
    match r with
    | inl _ => received t w more s' /\ outside s' = outside s
    | inr e => waits t s e s'
    end) s.
Proof.
  intros Hab Hsu (pad & Hpad & Hcur & Hfit & Hh). unfold receive_finish. do 2 wp_step. rewrite Hcur. apply wp_bind.
  assert (exists a, stream s = a ++ more /\ UINT32_SZ + packet_sz w pad + macSz t = blen a /\
    forall s1 tl, able t s1 -> rx s1 = (rx s) <| inputBuffer := inp s1 |> -> unread (inp s1) = a ++ tl ->
      exists s' trailer, (if aeadMode t then finish_aead (macSz t) (packet_sz w pad) else finish_mac (blockSz t) (macSz t) (packet_sz w pad)) s1
        = (Ok tt, s') /\ able t s' /\ outside s' = outside s1 /\ curSz (rx s') = curSz (rx s1) /\ app s' = app s1 /\
          blen trailer = macSz t /\ unread (inp s') = plain_of w pad ++ trailer ++ tl) as (a & Es & Ea & Hfin).
  { destruct (aeadMode t) eqn:Ea.
    - destruct Hh as (Hn & Hp & c & tag & e & E & Es). exists (c32toa (packet_sz w pad) ++ c ++ tag). split; [by rewrite Es, <- !app_assoc|].
      pose proof (aead_ret_size t ([blen pad] ++ w ++ pad) (c32toa (packet_sz w pad))) as Hs. rewrite E in Hs. destruct Hs as [Hc Ht].
      rewrite !blen_app in Hc. change (blen [blen pad]) with 1 in Hc. split.
      { rewrite !blen_app, c32toa_length, Hc, Ht. unfold packet_sz. clia. }
      intros s1 tl Hab1 Er Hu. destruct (finish_aead_run t w pad c tag e tl s1) as (s' & E1 & K1 & K2 & K3 & K4 & K5);
        [done|by rewrite Er|by rewrite Er|done|done|].
      by exists s', tag.
    - destruct Hh as (p & q & c & mac & d & Epl & Hp & Em & Hm & Hc & Ed & Es). exists (p ++ c ++ mac). split; [by rewrite Es, <- !app_assoc|].
      pose proof (blen_plain w pad) as Hl. rewrite Epl, blen_app in Hl. split; [rewrite !blen_app; clia|].
      intros s1 tl Hab1 Er Hu. destruct (finish_mac_run t w pad p q c mac d tl s1) as (s' & E1 & K1 & K2 & K3 & K4 & K5);
        [done|by rewrite Ea|done|done|done|done|done|done|by rewrite Er|done|].
      by exists s', mac. }
  eapply wp_mono; [apply (ask_run _ t s a more); try done; clia|]. intros [[]|e] s1 [F K]; [|by apply fed_waits].
  destruct K as (tl & Hu & Hmore). pose proof (fed_rx _ _ F) as Er.
  destruct (Hfin s1 tl (fed_able _ _ _ Hab F) Er Hu) as (s2 & trailer & E & Hab2 & Ho2 & Hcur2 & Happ2 & Ht & Hu2).
  apply wp_bind. eapply wp_run; [exact E|]. cbv beta iota. unfold set_state. wp_step.
  split; [|transitivity (outside s2); [reflexivity|]; rewrite Ho2; by apply fed_outside].
  split; [apply (write_able t s2 _ (inp s2)); try done; apply Hab2|]. split; [reflexivity|]. exists pad, trailer, tl.
  split; [exact Hpad|]. split; [exact Ht|]. split; [transitivity (curSz (rx s2)); [reflexivity|]; rewrite Hcur2, Er; exact Hcur|].
  split; [exact Hu2|]. cbn. by rewrite Happ2.
Qed.

(** A payload that fits the largest packet with any padding and MAC. *)
Definition fits (w : bytes) : Prop :=
  LENGTH_SZ + PAD_LENGTH_SZ + blen w + (MIN_PAD_LENGTH + AES_BLOCK_SIZE) + MAX_HMAC_SZ <= MAX_PACKET_SZ.

Definition whole_blocks t (w pad : bytes) : Prop :=
  ((if aeadMode t then 0 else LENGTH_SZ) + packet_sz w pad) mod blockSz t = 0.

Lemma receive_length_run t w pad tl s :
  able t s -> suite_ok (encryptId t) (aeadMode t) (macId t) (blockSz t) (macSz t) (keys t) ->
  unread (inp s) = c32toa (packet_sz w pad) ++ tl -> LENGTH_SZ + packet_sz w pad + macSz t <= MAX_PACKET_SZ -> whole_blocks t w pad ->
  receive_length (blockSz t) (macSz t) (aeadMode t) s
  = (Ok tt, s <| rx; curSz := packet_sz w pad |> <| rx; processReplyState := PROCESS_PACKET_FINISH |>).
Proof.
  intros Hab Hsu Hu Hfit Hmod. pose proof Hab as [A1 A2 A3 A4]. pose proof (unread_length _ A1) as Hl. rewrite Hu, blen_app, c32toa_length in Hl.
  pose proof (blen_nonneg tl). pose proof (blen_nonneg w). pose proof (blen_nonneg pad). pose proof A1 as []. unfold inp in *.
  assert (0 <= packet_sz w pad) as Hpos by (unfold packet_sz; clia). pose proof (so_mac _ _ _ _ _ _ Hsu).
  unfold receive_length. rewrite st_get. cbv zeta. rewrite wrap32_small by clia.
  destruct (Z.ltb_spec (bufferSz (inputBuffer (rx s))) (b_idx (inputBuffer (rx s)) + UINT32_SZ)); [clia|].
  erewrite ST_bind_ok by (apply (in_read_front (c32toa (packet_sz w pad)) tl); [done|done|by rewrite c32toa_length]).
  erewrite ST_bind_ok by (unfold deref; rewrite <- (app_nil_r (c32toa _)), ato32_c32toa_app by (unfold is_word32; clia); reflexivity).
  rewrite st_modify. destruct (Z.ltb_spec (MAX_PACKET_SZ - macSz t - UINT32_SZ) (packet_sz w pad)); [clia|].
  assert (align_block (blockSz t) = blockSz t) as ->.
  { unfold align_block. destruct (Z.ltb_spec (blockSz t) MIN_BLOCK_SZ); [|done]. destruct (so_block _ _ _ _ _ _ Hsu) as [_ [|]]; unfold AES_BLOCK_SIZE in *; clia. }
  unfold whole_blocks in Hmod. change UINT32_SZ with LENGTH_SZ.
  replace (if aeadMode t then packet_sz w pad else LENGTH_SZ + packet_sz w pad) with ((if aeadMode t then 0 else LENGTH_SZ) + packet_sz w pad)
    by (by destruct (aeadMode t)).
  rewrite Hmod. reflexivity.
Qed.

(** A packet of payload [w] is next in the stream. *)
Definition next_packet t (w more : bytes) s : Prop :=
  nonce_of (peerKeys (rx s)) = nonce_of (keys t) /\ ctx_pair (encryptCipher t) (decryptCipher (rx s)) /\
  exists wire, packet_of t w wire /\ stream s = wire ++ more.

Lemma waits_next t w more s e s' : next_packet t w more s -> waits t s e s' -> next_packet t w more s'.
Proof. intros (Hn & Hp & wire & Hw & Es) (_ & Es' & Er & _). split; [by rewrite Er|]. split; [by rewrite Er|]. exists wire. by rewrite Es'. Qed.

Definition opening t : M unit := receive_head (blockSz t) (aeadMode t);; receive_length (blockSz t) (macSz t) (aeadMode t).

Definition opened t (w more : bytes) s s' : Prop :=
  able t s' /\ halfway t w more s' /\ outside s' = outside s /\ processReplyState (rx s') = PROCESS_PACKET_FINISH.

(** Its first block, of an AEAD packet. *)
Lemma opening_aead t w pad (c tag e more : bytes) s :
  able t s -> suite_ok (encryptId t) (aeadMode t) (macId t) (blockSz t) (macSz t) (keys t) -> aeadMode t = true ->
  nonce_of (peerKeys (rx s)) = nonce_of (keys t) -> ctx_pair (encryptCipher t) (decryptCipher (rx s)) ->
  MIN_PAD_LENGTH <= blen pad < 256 -> LENGTH_SZ + packet_sz w pad + macSz t <= MAX_PACKET_SZ -> whole_blocks t w pad ->
  aead_ret t ([blen pad] ++ w ++ pad) (c32toa (packet_sz w pad)) = (Ok (c, tag), e) ->
  stream s = c32toa (packet_sz w pad) ++ c ++ tag ++ more ->
  wp (opening t) (fun r s' => match r with inl _ => opened t w more s s' | inr e => waits t s e s' end) s.
Proof.
  intros Hab Hsu Ha Hn Hp Hpad Hfit Hmod E Es. set (len := c32toa (packet_sz w pad)) in *.
  pose proof (aead_ret_size t ([blen pad] ++ w ++ pad) len) as Hs. rewrite E in Hs. destruct Hs as [Hc Ht].
  rewrite !blen_app in Hc. change (blen [blen pad]) with 1 in Hc. assert (blen len = 4) as Hlen by (unfold len; by rewrite c32toa_length).
  assert (8 <= blockSz t) as Hblk by (destruct (so_block _ _ _ _ _ _ Hsu) as [_ [-> | ->]]; unfold AES_BLOCK_SIZE; clia).
  assert (blockSz t <= blen (len ++ c)) as Hle.
  { pose proof (blen_nonneg w). unfold whole_blocks in Hmod. rewrite Ha, Z.add_0_l in Hmod. apply Z.mod_divide in Hmod as [k Ek]; [|lia].
    rewrite blen_app, Hc. unfold packet_sz in Ek. 
    assert (0 < k) as Hk by (destruct (Z.lt_ge_cases 0 k) as [|Hk]; [done|]; pose proof (Z.mul_nonpos_nonneg k (blockSz t) Hk ltac:(lia)); clia).
    pose proof (Z.mul_le_mono_nonneg_r 1 k (blockSz t) ltac:(lia) ltac:(lia)). clia. }
  set (a := take (Z.to_nat (blockSz t)) (len ++ c)).
  assert (blen a = blockSz t) as Hla by (unfold a, blen in *; rewrite length_take; lia).
  assert (stream s = a ++ drop (Z.to_nat (blockSz t)) (len ++ c) ++ tag ++ more) as Es2
    by (rewrite Es; unfold a; rewrite (app_assoc (take _ _)), take_drop; by rewrite <- app_assoc).
  assert (blockSz t <= MAX_PACKET_SZ) as Hmax by (destruct (so_block _ _ _ _ _ _ Hsu) as [_ [-> | ->]]; unfold AES_BLOCK_SIZE; clia).
  unfold opening, receive_head. rewrite Ha. do 2 apply wp_bind.
  eapply wp_mono; [apply (ask_run _ t s a _ Hab Es2); [by rewrite Hla|done]|]. intros [[]|e1] s1 [F K]; [|by apply fed_waits].
  destruct K as (tl & Hu & Hm). unfold set_state. do 3 wp_step.
  set (s2 := s1 <| rx; processReplyState := PROCESS_PACKET_LENGTH |>). pose proof (fed_able _ _ _ Hab F) as Hab1. pose proof (fed_rx _ _ F) as Er.
  assert (able t s2) as Hab2 by (apply (write_able t s1 s2 (inp s1)); try done; apply Hab1).
  destruct (stream_split (unread (inp s2)) (incoming (app s2)) len (c ++ tag ++ more)) as (tl2 & Hu2 & _).
  { change (stream s1 = len ++ c ++ tag ++ more). destruct F as [F _ _ _]. by rewrite F. }
  { change (blen len <= blen (unread (inp s1))). rewrite Hu, blen_app. pose proof (blen_nonneg tl). lia. }
  pose proof (receive_length_run t w pad tl2 s2 Hab2 Hsu Hu2 Hfit Hmod) as Erl. rewrite Ha in Erl.
  eapply wp_run; [exact Erl|]. cbv beta iota. set (s3 := s2 <| rx; curSz := _ |> <| rx; processReplyState := _ |>).
  split; [apply (write_able t s2 s3 (inp s2)); try done; apply Hab2|].
  split; [|split; [transitivity (outside s1); [reflexivity|by apply fed_outside]|reflexivity]].
  exists pad. split; [done|]. split; [reflexivity|]. split; [done|]. rewrite Ha.
  change (peerKeys (rx s3)) with (peerKeys (rx s1)). change (decryptCipher (rx s3)) with (decryptCipher (rx s1)). rewrite Er.
  split; [done|]. split; [done|]. exists c, tag, e. split; [done|]. change (stream s3) with (stream s1). destruct F as [F _ _ _]. by rewrite F.
Qed.

(** Its first block, of a packet with a MAC. *)
Lemma opening_mac t w pad (c mac e more : bytes) s :
  able t s -> suite_ok (encryptId t) (aeadMode t) (macId t) (blockSz t) (macSz t) (keys t) -> aeadMode t = false ->
  ctx_pair (encryptCipher t) (decryptCipher (rx s)) ->
  MIN_PAD_LENGTH <= blen pad < 256 -> LENGTH_SZ + packet_sz w pad + macSz t <= MAX_PACKET_SZ -> whole_blocks t w pad ->
  create_mac t (plain_of w pad) = Ok mac -> encrypt_ret t (plain_of w pad) = (Ok c, e) -> stream s = c ++ mac ++ more ->
  wp (opening t) (fun r s' => match r with inl _ => opened t w more s s' | inr e => waits t s e s' end) s.
Proof.
  intros Hab Hsu Ha Hp Hpad Hfit Hmod Em Ec Es. pose proof (blen_plain w pad) as Hpl. pose proof (blen_nonneg w).
  destruct (so_block _ _ _ _ _ _ Hsu) as [Hbid Hblk]. assert (8 <= blockSz t <= 16) as Hb8 by (destruct Hblk as [-> | ->]; unfold AES_BLOCK_SIZE; clia).
  assert (blockSz t <= blen (plain_of w pad)) as Hle.
  { rewrite Hpl. unfold whole_blocks in Hmod. rewrite Ha in Hmod. apply Z.mod_divide in Hmod as [k Ek]; [|lia]. unfold packet_sz in *.
    assert (0 < k) as Hk by (destruct (Z.lt_ge_cases 0 k) as [|Hk]; [done|]; pose proof (Z.mul_nonpos_nonneg k (blockSz t) Hk ltac:(lia)); clia).
    pose proof (Z.mul_le_mono_nonneg_r 1 k (blockSz t) ltac:(lia) ltac:(lia)). clia. }
  set (p := take (Z.to_nat (blockSz t)) (plain_of w pad)). set (q := drop (Z.to_nat (blockSz t)) (plain_of w pad)).
  assert (plain_of w pad = p ++ q) as Epq by (unfold p, q; by rewrite take_drop).
  assert (blen p = blockSz t) as Hlp by (unfold p, blen in *; rewrite length_take; lia).
  rewrite Epq in Ec. destruct (decrypt_parts t (decryptCipher (rx s)) p q c e Hp) as (c1 & c2 & -> & Hc1 & Hc2 & d1 & d2 & D1 & D2); [by rewrite Hlp|done|].
  destruct (so_mac_for _ _ _ _ _ _ Hsu Ha) as [Emz Hk]. pose proof (create_mac_size t (plain_of w pad) Emz Hk) as Hms. rewrite Em in Hms.
  rewrite <- app_assoc in Es.
  unfold opening, receive_head. rewrite Ha. do 2 apply wp_bind.
  eapply wp_mono; [apply (ask_run _ t s c1 _ Hab Es); clia|]. intros [[]|e1] s1 [F K]; [|by apply fed_waits].
  destruct K as (tl & Hu & Hm). unfold set_state. do 4 wp_step.
  set (s2 := s1 <| rx; processReplyState := PROCESS_PACKET_LENGTH |>). pose proof (fed_able _ _ _ Hab F) as Hab1. pose proof (fed_rx _ _ F) as Er.
  assert (able t s2) as Hab2 by (apply (write_able t s1 s2 (inp s1)); try done; apply Hab1).
  destruct (decrypt_at_run t s2 [] c1 tl p 0 (blockSz t) d1 Hab2 Hu) as (s3 & E3 & Hab3 & Ho3 & Hd3 & Hk3 & Hcur3 & Hst3 & Happ3 & Hu3 & Hi3);
    [done|lia|lia|lia|change (decryptCipher (rx s2)) with (decryptCipher (rx s1)); by rewrite Er|].
  rewrite wrap32_small in E3 by (destruct (ab_ok _ _ Hab2); unfold inp in *; lia). rewrite Z.add_0_r in E3.
  apply wp_bind. eapply wp_run; [exact E3|]. cbv beta iota. wp_step; [done|]. cbn [Datatypes.app] in Hu3.
  assert (exists r2, unread (inp s3) = c32toa (packet_sz w pad) ++ r2) as (r2 & Hr2).
  { destruct (stream_split p q (c32toa (packet_sz w pad)) ([blen pad] ++ w ++ pad)) as (x & Ex & _);
      [by rewrite <- Epq|rewrite c32toa_length, Hlp; clia|]. exists (x ++ tl). by rewrite Hu3, Ex, <- app_assoc. }
  pose proof (receive_length_run t w pad r2 s3 Hab3 Hsu Hr2 Hfit Hmod) as Erl. rewrite Ha in Erl.
  eapply wp_run; [exact Erl|]. cbv beta iota. set (s4 := s3 <| rx; curSz := _ |> <| rx; processReplyState := _ |>).
  split; [apply (write_able t s3 s4 (inp s3)); try done; apply Hab3|].
  split; [|split; [transitivity (outside s3); [reflexivity|]; rewrite Ho3; by apply (fed_outside s s1)|reflexivity]].
  exists pad. split; [done|]. split; [reflexivity|]. split; [done|]. rewrite Ha.
  exists p, q, c2, mac, d2. split; [done|]. split; [done|]. split; [done|]. split; [done|]. split; [done|].
  split; [change (decryptCipher (rx s4)) with (decryptCipher (rx s3)); by rewrite Hd3|].
  change (stream s4) with (stream s3). unfold input_stream. rewrite Hu3, Happ3, Hm. change (app s2) with (app s1). by rewrite <- app_assoc.
Qed.

Lemma opening_run t w more s :
  able t s -> suite_ok (encryptId t) (aeadMode t) (macId t) (blockSz t) (macSz t) (keys t) -> fits w -> next_packet t w more s ->
  wp (opening t) (fun r s' => match r with inl _ => opened t w more s s' | inr e => waits t s e s' end) s.
Proof.
  intros Hab Hsu Hw (Hn & Hp & wire & (pad & Hpad & Hmod & _ & Hse & _) & Es).
  destruct (so_block _ _ _ _ _ _ Hsu) as [Hbid Hblk]. assert (8 <= blockSz t <= 16) as Hb8 by (destruct Hblk as [-> | ->]; unfold AES_BLOCK_SIZE; clia).
  pose proof (so_mac _ _ _ _ _ _ Hsu) as Hms.
  assert (LENGTH_SZ + packet_sz w pad + macSz t <= MAX_PACKET_SZ) as Hfit by (unfold fits, packet_sz in *; unfold AES_BLOCK_SIZE in *; clia).
  assert (whole_blocks t w pad) as Hwb by (unfold whole_blocks, packet_sz; by rewrite !Z.add_assoc).
  assert (MIN_PAD_LENGTH <= blen pad < 256) as Hpad2 by clia. unfold sealed in Hse. destruct (aeadMode t) eqn:Ha.
  - destruct Hse as (len & body & c & tag & e & Epl & Hlen & E & ->).
    assert (len = c32toa (packet_sz w pad) /\ body = [blen pad] ++ w ++ pad) as [-> ->].
    { apply app_inj_1 in Epl; [by destruct Epl as [<- <-]|]. apply length_blen. by rewrite c32toa_length. }
    rewrite <- !app_assoc in Es. eapply opening_aead; try done; by rewrite Ha.
  - destruct Hse as (mac & c & e & Em & Ec & ->). rewrite <- app_assoc in Es. eapply opening_mac; try done; by rewrite Ha.
Qed.

(** ** The packet handled *)

Section Handled.
Context `{Hashes} `{PubKeys} `{!SignKeys} `{!HostKeys} `{!KeyExchange} `{!AgentKeys} `{!ClientKeys} `{CertManager}.

(** The rest of [DoPacket], given the message and its payload. *)
Definition act_on (msg : Z) (payload : bytes) (pktStart pktSz len : Z) : M (Z * bool) :=
  '(ret, done) ← filter_packet msg (mret payload);
  match done with
  | None => mret (ret, false)
  | Some newKeysDone =>
    if ret =? WS_AUTH_PENDING then mret (ret, false) else finish_packet pktStart pktSz len ret newKeysDone
  end.

Lemma filter_payload msg (p : M bytes) x s :
  (forall s1, rx s1 = rx s -> p s1 = (Ok x, s1)) -> filter_packet msg p s = filter_packet msg (mret x) s.
Proof.
  intros Hp. unfold filter_packet. pose proof (IsMessageAllowed_frame msg WS_MSG_RECV s) as Hf.
  destruct (IsMessageAllowed msg WS_MSG_RECV s) as [[b|e|] s1] eqn:E; [|done..].
  rewrite !(ST_bind_ok _ _ _ _ _ E), !st_get.
  assert (rx s1 = rx s) as Er.
  { destruct b; [destruct Hf as [->|(h & _ & _ & _ & ->)]|destruct Hf as [->| ->]]; done. }
  destruct b; cbn [negb andb]; cbv iota; [|reflexivity].
  destruct (disconnected s1 && negb (msg =? MSGID_DISCONNECT)); [done|].
  by rewrite (ST_bind_ok _ _ _ _ _ (Hp s1 Er)), st_ret.
Qed.

Lemma DoPacket_received t msg payload more s : received t (msg :: payload) more s ->
  DoPacket s = act_on msg payload (b_idx (inp s)) (curSz (rx s)) (b_length (inp s)) s.
Proof.
  intros (Hab & _ & pad & trailer & tl & Hpad & Ht & Hcur & Hu & _). pose proof Hab as [A1 A2 A3 A4].
  pose proof (unread_length _ A1) as Hl. pose proof (blen_nonneg trailer). pose proof (blen_nonneg tl). pose proof (blen_nonneg payload).
  assert (plain_of (msg :: payload) pad = c32toa (packet_sz (msg :: payload) pad) ++ [blen pad] ++ [msg] ++ payload ++ pad) as Epl by done.
  set (h := c32toa (packet_sz (msg :: payload) pad)) in *. assert (blen h = 4) as Hh by (unfold h; by rewrite c32toa_length).
  assert (packet_sz (msg :: payload) pad = 2 + blen payload + blen pad) as Esz by (unfold packet_sz; rewrite blen_cons; clia).
  rewrite Epl in Hu. rewrite Hu, !blen_app in Hl. change (blen [blen pad]) with 1 in Hl. change (blen [msg]) with 1 in Hl.
  pose proof A1 as []. unfold inp in *. unfold DoPacket, act_on. rewrite st_get. cbv zeta. rewrite Hcur, Esz. unfold in_byte.
  rewrite !st_assoc. erewrite ST_bind_ok by (apply (in_read_off h [blen pad] (([msg] ++ payload ++ pad) ++ trailer ++ tl));
    [done|by unfold inp; rewrite Hu, <- !app_assoc|by rewrite Hh|done]).
  erewrite ST_bind_ok by reflexivity. destruct (Z.ltb_spec (blen pad) MIN_PAD_LENGTH); [lia|].
  destruct (Z.ltb_spec (2 + blen payload + blen pad) (PAD_LENGTH_SZ + blen pad + MSG_ID_SZ)); [clia|].
  assert (forall n, 0 <= n <= 6 -> b_idx (inputBuffer (rx s)) +w n = b_idx (inputBuffer (rx s)) + n) as W by (intros n Hn; apply wrap32_small; clia).
  replace (b_idx (inputBuffer (rx s)) +w UINT32_SZ +w 1) with (b_idx (inputBuffer (rx s)) +w 5)
    by (rewrite !W by clia; rewrite wrap32_small; clia).
  replace (b_idx (inputBuffer (rx s)) +w UINT32_SZ +w 2) with (b_idx (inputBuffer (rx s)) +w 6)
    by (rewrite !W by clia; rewrite wrap32_small; clia).
  erewrite ST_bind_ok by (erewrite ST_bind_ok by (apply (in_read_off (h ++ [blen pad]) [msg] ((payload ++ pad) ++ trailer ++ tl));
    [done|by unfold inp; rewrite Hu, <- !app_assoc|by rewrite blen_app, Hh|done]); reflexivity).
  replace (2 + blen payload + blen pad - PAD_LENGTH_SZ - blen pad - MSG_ID_SZ) with (blen payload) by clia.
  assert (blen payload +w (b_idx (inputBuffer (rx s)) +w 6) = blen payload + (b_idx (inputBuffer (rx s)) + 6)) as -> by (rewrite W by lia; apply wrap32_small; clia).
  destruct (Z.ltb_spec (bufferSz (inputBuffer (rx s))) (blen payload + (b_idx (inputBuffer (rx s)) + 6))); [clia|].
  destruct (Z.ltb_spec (blen payload + (b_idx (inputBuffer (rx s)) + 6)) (blen payload)); [clia|]. cbn [orb].
  assert (filter_packet msg (in_read (b_idx (inputBuffer (rx s)) +w 6) (blen payload)) s = filter_packet msg (mret payload) s) as Ef.
  { apply filter_payload. intros s1 E1. rewrite <- E1.
    apply (in_read_off (h ++ [blen pad] ++ [msg]) payload (pad ++ trailer ++ tl)); unfold inp; rewrite ?E1; [done| |by rewrite !blen_app, Hh|done].
    by rewrite Hu, <- !app_assoc. }
  unfold mbind, ST_bind. by rewrite Ef.
Qed.

(** The packet is on its way in: none of it read, or its first block. *)
Definition reading t (w more : bytes) s : Prop :=
  able t s /\ (processReplyState (rx s) = PROCESS_INIT /\ next_packet t w more s
               \/ processReplyState (rx s) = PROCESS_PACKET_FINISH /\ halfway t w more s).

(** The receiver has the suite [t] writes with. *)
Lemma DoReceive_suite t s : same_suite t (rx s) ->
  DoReceive s = receive_from (blockSz t) (macSz t) (aeadMode t) (processReplyState (rx s)) s.
Proof. intros [_ _ E3 E4 E5 _ _]. unfold DoReceive. by rewrite st_get, E3, E4, E5. Qed.

Lemma finish_then_packet t w more s :
  able t s -> suite_ok (encryptId t) (aeadMode t) (macId t) (blockSz t) (macSz t) (keys t) -> halfway t w more s ->
  processReplyState (rx s) = PROCESS_PACKET_FINISH ->
  (exists s1, received t w more s1 /\ outside s1 = outside s /\
     (receive_finish (blockSz t) (macSz t) (aeadMode t);; receive_packet (macSz t)) s = receive_packet (macSz t) s1) \/
  (exists e s1, (receive_finish (blockSz t) (macSz t) (aeadMode t);; receive_packet (macSz t)) s = (Err e, s1) /\
     reading t w more s1 /\ outside s1 = outside s /\ no_input s s1 e).
Proof.
  intros Hab Hsu Hh Hst. pose proof (receive_finish_run t w more s Hab Hsu Hh) as W. unfold wp in W.
  destruct (receive_finish _ _ _ s) as [[[]|e|] s1] eqn:E; [|right|done].
  - left. destruct W as [W1 W2]. exists s1. split; [done|]. split; [done|]. by rewrite (ST_bind_ok _ _ _ _ _ E).
  - exists e, s1. split; [by rewrite (ST_bind_err _ _ _ _ _ E)|]. pose proof W as (A & _ & Er & Eo & K).
    split; [|done]. split; [done|]. right. split; [by rewrite Er|by eapply waits_halfway].
Qed.

Lemma packet_received_run t msg payload more s :
  suite_ok (encryptId t) (aeadMode t) (macId t) (blockSz t) (macSz t) (keys t) -> fits (msg :: payload) ->
  reading t (msg :: payload) more s ->
  (exists s1, received t (msg :: payload) more s1 /\ outside s1 = outside s /\
     DoReceive s = receive_packet (macSz t) s1 /\
     DoPacket s1 = act_on msg payload (b_idx (inp s1)) (curSz (rx s1)) (b_length (inp s1)) s1) \/
  (exists s1, DoReceive s = (Err WS_FATAL_ERROR, s1) /\ reading t (msg :: payload) more s1 /\ outside s1 = outside s /\
     (error s1 = WS_WANT_READ \/ error s1 = WS_SOCKET_ERROR_E \/ error s1 = WS_MEMORY_E)).
Proof.
  intros Hsu Hfit [Hab Hcase]. rewrite (DoReceive_suite t s (ab_suite _ _ Hab)). destruct Hcase as [[Est Hn]|[Est Hh]]; rewrite Est; unfold receive_from.
  - change (PROCESS_INIT =? PROCESS_INIT) with true. cbv iota.
    pose proof (opening_run t _ more s Hab Hsu Hfit Hn) as W. unfold wp in W. unfold opening in W.
    destruct ((receive_head (blockSz t) (aeadMode t);; receive_length (blockSz t) (macSz t) (aeadMode t)) s) as [[[]|e|] s1] eqn:E; [| |done].
    + destruct W as (A & Hh & Eo & Est1).
      assert (forall k : M unit, (receive_head (blockSz t) (aeadMode t);; receive_length (blockSz t) (macSz t) (aeadMode t);; k) s = k s1) as Ek
        by (intros k; rewrite <- st_assoc; by rewrite (ST_bind_ok _ _ _ _ _ E)).
      rewrite Ek. destruct (finish_then_packet t _ more s1 A Hsu Hh Est1) as [(s2 & R & Eo2 & E2)|(e & s2 & E2 & R & Eo2 & K)].
      * left. exists s2. split; [done|]. split; [congruence|]. split; [done|]. by apply (DoPacket_received t msg payload more).
      * right. exists s2. destruct K as [-> K]. split; [done|]. split; [done|]. split; [congruence|done].
    + right. exists s1. pose proof W as (A & _ & Er & Eo & [-> K]). split; [|split; [|done]].
      * unfold mbind, ST_bind in E |- *. destruct (receive_head _ _ s) as [[[]|e|] s0]; [|by injection E as -> ->|done].
        destruct (receive_length _ _ _ s0) as [[[]|e|] s0']; [done| |done]. by injection E as -> ->.
      * split; [done|]. left. split; [by rewrite Er|by eapply waits_next].
  - change (PROCESS_PACKET_FINISH =? PROCESS_INIT) with false. change (PROCESS_PACKET_FINISH =? PROCESS_PACKET_LENGTH) with false.
    change (PROCESS_PACKET_FINISH =? PROCESS_PACKET_FINISH) with true. cbv iota.
    destruct (finish_then_packet t _ more s Hab Hsu Hh Est) as [(s2 & R & Eo2 & E2)|(e & s2 & E2 & R & Eo2 & K)].
    + left. exists s2. split; [done|]. split; [done|]. split; [done|]. by apply (DoPacket_received t msg payload more).
    + right. exists s2. destruct K as [-> K]. done.
Qed.

(** C6: what one end seals, the other receives. When a packet that [t] sealed is next in the
    input of a session with the same suite, keys and number, then however the network cuts
    it up, each call of [DoReceive] either waits for more of it, with nothing lost and
    ready to be called again, or hands exactly its message and payload to the message
    filter and the handlers, with the bytes behind the packet still to be read. *)
Theorem packet_received t msg payload more s :
  suite_ok (encryptId t) (aeadMode t) (macId t) (blockSz t) (macSz t) (keys t) -> fits (msg :: payload) ->
  reading t (msg :: payload) more s ->
  (exists s1, received t (msg :: payload) more s1 /\ outside s1 = outside s /\
     DoReceive s = receive_packet (macSz t) s1 /\
     DoPacket s1 = act_on msg payload (b_idx (inp s1)) (curSz (rx s1)) (b_length (inp s1)) s1) \/
  (exists s1, DoReceive s = (Err WS_FATAL_ERROR, s1) /\ reading t (msg :: payload) more s1 /\ outside s1 = outside s /\
     (error s1 = WS_WANT_READ \/ error s1 = WS_SOCKET_ERROR_E \/ error s1 = WS_MEMORY_E)).
Proof. apply packet_received_run. Qed.
End Handled.
End Frame.

(** ** Examples *)

#[export] Instance null_cipher_laws : CipherLaws.
Proof.
  refine {| ctx_pair _ _ := True |}; cbn.
  - intros e d p c e' _ [= <- <-]. by eexists.
  - intros e p q c e' _ [= <- <-]. by exists p, q, e.
  - intros e d p c e' _ [= <- <-]. by eexists.
  - intros e p q c e' _ [= <- <-]. by exists p, q, e.
  - intros e d nonce a p n c tag e' _. destruct (n <? 0); [done|]. intros [= <- <- <-]. by eexists.
Defined.

(** The network gives three bytes at a time; the first packet of a session, before any
    cipher, with a message to ignore. *)
Definition receiving : CTX := dribbling <| @io_fuel := Z.to_nat 40000 |>.
Definition ignored : bytes := [MSGID_IGNORE] ++ wstring [7].
Definition ignored_wire : bytes := plain_of ignored (zeros 5).
Definition receiving_session : WOLFSSH := new_session (ignored_wire ++ [9; 9]).

Lemma ignored_packet : packet_of (tx receiving_session) ignored ignored_wire.
Proof.
  exists (zeros 5). split; [split; vm_compute; congruence|]. split; [done|]. split; [done|]. split; [|done].
  exists [], ignored_wire, (encryptCipher (tx receiving_session)). split; [done|]. split; [done|]. by vm_compute.
Qed.

Example packet_received_witness :
  (@DoReceive receiving _ _ _ _ _ _ _ _ _ receiving_session).1 = Ok tt /\
  ((exists s1, received (H := receiving) bytes_only (fun _ => O) (tx receiving_session) ignored [9; 9] s1 /\
     outside s1 = outside receiving_session /\
     @DoReceive receiving _ _ _ _ _ _ _ _ _ receiving_session = @receive_packet receiving _ _ _ _ _ _ _ _ _ 0 s1 /\
     @DoPacket receiving _ _ _ _ _ _ _ _ _ s1 =
       @act_on receiving _ _ _ _ _ _ _ _ _ MSGID_IGNORE (wstring [7]) (b_idx (inp s1)) (curSz (rx s1)) (b_length (inp s1)) s1) \/
   (exists s1, @DoReceive receiving _ _ _ _ _ _ _ _ _ receiving_session = (Err WS_FATAL_ERROR, s1) /\
     reading (H := receiving) bytes_only (fun _ => O) (tx receiving_session) ignored [9; 9] s1 /\
     outside s1 = outside receiving_session /\
     (error s1 = WS_WANT_READ \/ error s1 = WS_SOCKET_ERROR_E \/ error s1 = WS_MEMORY_E))).
Proof.
  split; [by vm_compute|].
  apply (@packet_received receiving _ _ _ bytes_only (fun _ => O) _ eq_refl dribble_contract ltac:(vm_compute; discriminate) _ _ _ _ _ _ _ _
    (tx receiving_session) MSGID_IGNORE (wstring [7]) [9; 9] receiving_session).
  - split; vm_compute; intuition congruence.
  - vm_compute. discriminate.
  - split.
    + split; [split; vm_compute; intuition congruence|by split|change (0 < Z.to_nat 40000)%nat; lia|vm_compute; reflexivity].
    + left. split; [done|]. split; [done|]. split; [exact I|]. exists ignored_wire. split; [exact ignored_packet|by vm_compute].
Defined.
