(* ===== verification/Terminal.v ===== *)
(** The terminal of a session, client side (internal.c, [CreateMode],
    [SendChannelTerminalRequest] and [SendChannelTerminalResize]; ssh.c,
    [wolfSSH_ChangeTerminalSize]) and the request for agent forwarding.

    The terminal itself is the operating system's: what [tcgetattr], [ioctl] and
    [getenv] answer is a parameter, and the values of termios.h are Linux's. *)

From S2P Require Import Prelude Codes Wire Names Buffer Fwd Algos Kdf Session Samples MsgFilter Transport.
From S2P Require Import Channels Send ChannelMsgs ChannelIO.

(** ** What the system says *)

Record WOLFSSH_TERMIOS := mkTermios {
  c_iflag : Z;
  c_oflag : Z;
  c_cflag : Z;
  c_lflag : Z;
  c_cc : bytes
}.

(** The columns and rows, and the same in pixels. *)
Record winsize := mkWinsize { ws_col : Z; ws_row : Z; ws_xpixel : Z; ws_ypixel : Z }.

Class Tty := {
  tcgetattr : option WOLFSSH_TERMIOS;
  cfgetospeed : WOLFSSH_TERMIOS -> Z;
  TIOCGWINSZ : option winsize;
  getenv_TERM : option bytes
}.

(** The control characters with the index of each in [c_cc], and the flags with
    their masks, in the order they are sent. *)
Definition cc_modes : list (Z * Z) := [
  (WOLFSSH_VINTR, 0); (WOLFSSH_VQUIT, 1); (WOLFSSH_VERASE, 2); (WOLFSSH_VKILL, 3); (WOLFSSH_VEOF, 4);
  (WOLFSSH_VEOL, 11); (WOLFSSH_VEOL2, 16); (WOLFSSH_VSTART, 8); (WOLFSSH_VSTOP, 9); (WOLFSSH_VSUSP, 10);
  (WOLFSSH_VREPRINT, 12); (WOLFSSH_VWERASE, 14); (WOLFSSH_VLNEXT, 15); (WOLFSSH_VDISCARD, 13) ].
Definition iflag_modes : list (Z * Z) := [
  (WOLFSSH_IGNPAR, 0x4); (WOLFSSH_PARMRK, 0x8); (WOLFSSH_INPCK, 0x10); (WOLFSSH_ISTRIP, 0x20);
  (WOLFSSH_INLCR, 0x40); (WOLFSSH_IGNCR, 0x80); (WOLFSSH_ICRNL, 0x100); (WOLFSSH_IUCLC, 0x200);
  (WOLFSSH_IXON, 0x400); (WOLFSSH_IXANY, 0x800); (WOLFSSH_IXOFF, 0x1000); (WOLFSSH_IMAXBEL, 0x2000);
  (WOLFSSH_IUTF8, 0x4000) ].
Definition lflag_modes : list (Z * Z) := [
  (WOLFSSH_ISIG, 0x1); (WOLFSSH_ICANON, 0x2); (WOLFSSH_XCASE, 0x4); (WOLFSSH_ECHO, 0x8); (WOLFSSH_ECHOE, 0x10);
  (WOLFSSH_ECHOK, 0x20); (WOLFSSH_ECHONL, 0x40); (WOLFSSH_NOFLSH, 0x80); (WOLFSSH_TOSTOP, 0x100);
  (WOLFSSH_IEXTEN, 0x8000); (WOLFSSH_ECHOCTL, 0x200); (WOLFSSH_ECHOKE, 0x800); (WOLFSSH_PENDIN, 0x4000) ].
Definition oflag_modes : list (Z * Z) := [
  (WOLFSSH_OPOST, 0x1); (WOLFSSH_OLCUC, 0x2); (WOLFSSH_ONLCR, 0x4); (WOLFSSH_OCRNL, 0x8); (WOLFSSH_ONOCR, 0x10);
  (WOLFSSH_ONLRET, 0x20) ].
Definition cflag_modes : list (Z * Z) := [
  (WOLFSSH_CS7, 0x20); (WOLFSSH_CS8, 0x30); (WOLFSSH_PARENB, 0x100); (WOLFSSH_PARODD, 0x200) ].

(** ** The encoded modes *)

(** One byte is held back for the terminator. *)
Definition TTYWordSet (flag type : Z) (out : bytes) : bytes :=
  if TERMINAL_MODES_MAX_SZ <? blen out + TERMINAL_MODE_SZ + 1 then out else out ++ [type] ++ c32toa flag.
Definition TTYSet (isSet type : Z) (out : bytes) : bytes := TTYWordSet (if truthy isSet then 1 else 0) type out.
Definition TTYCharSet (flag type : Z) (out : bytes) : bytes := TTYWordSet (Z.land flag 0xff) type out.

Definition TTYFlags (flags : Z) (modes : list (Z * Z)) (out : bytes) : bytes :=
  foldl (fun out '(type, mask) => TTYSet (Z.land flags mask) type out) out modes.

Section Terminal.
Context `{CTX} `{Crypto} `{Tty}.

Definition CreateModeTermios : option bytes :=
  match tcgetattr with
  | None => None
  | Some t =>
    let baud := cfgetospeed t in
    let mode := TTYWordSet baud WOLFSSH_TTY_OP_OSPEED (TTYWordSet baud WOLFSSH_TTY_OP_ISPEED []) in
    let mode := foldl (fun out '(type, i) => TTYCharSet (nth (Z.to_nat i) (c_cc t) 0) type out) mode cc_modes in
    let mode := TTYFlags (c_iflag t) iflag_modes mode in
    let mode := TTYFlags (c_lflag t) lflag_modes mode in
    let mode := TTYFlags (c_oflag t) oflag_modes mode in
    Some (TTYFlags (c_cflag t) cflag_modes mode)
  end.

(** The bit rate alone without a terminal. *)
Definition CreateMode : option bytes :=
  let mode := match CreateModeTermios with
              | Some mode => mode
              | None => TTYWordSet 38400 WOLFSSH_TTY_OP_OSPEED (TTYWordSet 38400 WOLFSSH_TTY_OP_ISPEED [])
              end in
  if blen mode + 1 <=? TERMINAL_MODES_MAX_SZ then Some (mode ++ [WOLFSSH_TTY_OP_END]) else None.

Definition GetTerminalInfo : winsize * option bytes :=
  let size := match TIOCGWINSZ with
              | Some w => if negb (ws_col w =? 0) && negb (ws_row w =? 0) then w
                          else mkWinsize TERMINAL_WIDTH_DEFAULT TERMINAL_HEIGHT_DEFAULT 0 0
              | None => mkWinsize TERMINAL_WIDTH_DEFAULT TERMINAL_HEIGHT_DEFAULT 0 0
              end in
  (size, getenv_TERM).

(** ** The requests *)

(** A request on the default channel: [cType] and what follows it. *)
Definition terminal_request (cType : bytes) (wantReply : Z) (body : bytes) : M unit :=
  s ← get;
  channel ← ChannelFind (defaultPeerChannelId (chan s)) WS_CHANNEL_ID_PEER;
  match channel with
  | None => fail WS_INVALID_CHANID
  | Some channel =>
    c ← ld_channel channel;
    send_packet (MSG_ID_SZ +w UINT32_SZ +w LENGTH_SZ +w blen cType +w BOOLEAN_SZ +w blen body)
      ([MSGID_CHANNEL_REQUEST] ++ c32toa (peerChannel c) ++ wstring cType ++ [wantReply] ++ body)
  end.

Definition terminal_size (columns rows widthPixels heightPixels : Z) : bytes :=
  c32toa columns ++ c32toa rows ++ c32toa widthPixels ++ c32toa heightPixels.

Definition SendChannelTerminalResize (columns rows widthPixels heightPixels : Z) : M unit :=
  terminal_request (str "window-change") 0 (terminal_size columns rows widthPixels heightPixels).

Definition pty_req (term : bytes) (w : winsize) (mode : bytes) : bytes :=
  wstring term ++ terminal_size (ws_col w) (ws_row w) (ws_xpixel w) (ws_ypixel w) ++ wstring mode.

Definition SendChannelTerminalRequest : M unit :=
  let '(w, term) := GetTerminalInfo in
  let term := default (str "xterm") term in
  match CreateMode with
  | None => fail WS_FATAL_ERROR
  | Some mode => terminal_request (str "pty-req") 1 (pty_req term w mode)
  end.

Definition SendChannelAgentRequest : M unit := terminal_request (str "auth-agent-req@openssh.com") 0 [].

Definition wolfSSH_ChangeTerminalSize (columns rows widthPixels heightPixels : Z) : M unit :=
  not_disconnected;;
  SendChannelTerminalResize columns rows widthPixels heightPixels.

(** ** The modes are a list of RFC 4254's *)

Definition encode_modes (l : list (Z * Z)) : bytes := concat (map (fun '(op, v) => op :: c32toa v) l).

(** Opcodes with a 32-bit argument, and room for the terminator. *)
Definition modes_ok (out : bytes) : Prop :=
  exists l, out = encode_modes l /\ Forall (fun '(op, _) => WOLFSSH_TTY_OP_END < op <= WOLFSSH_TTY_OP_OSPEED) l
    /\ blen out + 1 <= TERMINAL_MODES_MAX_SZ.

Lemma modes_ok_nil : modes_ok [].
Proof. exists []. split; [done|]. split; [constructor|]. by vm_compute. Qed.

Lemma modes_ok_word flag type out : WOLFSSH_TTY_OP_END < type <= WOLFSSH_TTY_OP_OSPEED -> modes_ok out -> modes_ok (TTYWordSet flag type out).
Proof.
  intros Ht (l & -> & Hl & Hb). unfold TTYWordSet. destruct (Z.ltb_spec TERMINAL_MODES_MAX_SZ (blen (encode_modes l) + TERMINAL_MODE_SZ + 1)).
  { by exists l. }
  exists (l ++ [(type, flag)]). split; [|split].
  - unfold encode_modes. by rewrite map_app, concat_app.
  - apply Forall_app. split; [done|]. by constructor.
  - rewrite blen_app, blen_app, c32toa_length. change (blen [type]) with 1. clia.
Qed.

Lemma modes_ok_flags flags modes out :
  Forall (fun '(op, _) => WOLFSSH_TTY_OP_END < op <= WOLFSSH_TTY_OP_OSPEED) modes -> modes_ok out -> modes_ok (TTYFlags flags modes out).
Proof.
  intros Hm. revert out. induction Hm as [|[op mask] modes Ho Hm IH]; intros out Ht; [done|]. apply IH. by apply modes_ok_word.
Qed.

Lemma modes_ok_chars cc modes out :
  Forall (fun '(op, _) => WOLFSSH_TTY_OP_END < op <= WOLFSSH_TTY_OP_OSPEED) modes -> modes_ok out ->
  modes_ok (foldl (fun out '(type, i) => TTYCharSet (nth (Z.to_nat i) cc 0) type out) out modes).
Proof.
  intros Hm. revert out. induction Hm as [|[op i] modes Ho Hm IH]; intros out Ht; [done|]. apply IH. by apply modes_ok_word.
Qed.

Ltac mode_list := repeat apply Forall_cons_2; [done..|constructor].

(** Whatever the terminal, a list of modes is made, of opcodes with an argument up to the
    terminator, and it fits the array it is made in. *)
Theorem CreateMode_wellformed :
  exists l, CreateMode = Some (encode_modes l ++ [WOLFSSH_TTY_OP_END])
    /\ Forall (fun '(op, _) => WOLFSSH_TTY_OP_END < op <= WOLFSSH_TTY_OP_OSPEED) l
    /\ blen (encode_modes l ++ [WOLFSSH_TTY_OP_END]) <= TERMINAL_MODES_MAX_SZ.
Proof.
  assert (modes_ok (match CreateModeTermios with
                    | Some mode => mode
                    | None => TTYWordSet 38400 WOLFSSH_TTY_OP_OSPEED (TTYWordSet 38400 WOLFSSH_TTY_OP_ISPEED [])
                    end)) as (l & E & Hl & Hb).
  { assert (forall v, modes_ok (TTYWordSet v WOLFSSH_TTY_OP_OSPEED (TTYWordSet v WOLFSSH_TTY_OP_ISPEED []))) as Hr.
    { intros v. do 2 (apply modes_ok_word; [done|]). apply modes_ok_nil. }
    unfold CreateModeTermios. destruct tcgetattr as [t|]; [cbv zeta|apply Hr].
    apply modes_ok_flags; [mode_list|]. apply modes_ok_flags; [mode_list|]. apply modes_ok_flags; [mode_list|].
    apply modes_ok_flags; [mode_list|]. apply modes_ok_chars; [mode_list|apply Hr]. }
  exists l. unfold CreateMode. rewrite E. rewrite E in Hb. destruct (Z.leb_spec (blen (encode_modes l) + 1) TERMINAL_MODES_MAX_SZ); [|lia].
  split; [done|]. split; [done|]. rewrite blen_app. change (blen [WOLFSSH_TTY_OP_END]) with 1. lia.
Qed.
End Terminal.
