(* ===== verification/Handshake.v ===== *)
(** Driving a session (ssh.c): the handshakes of the two sides ([wolfSSH_accept],
    [wolfSSH_connect]), turning the crank ([wolfSSH_worker], [wolfSSH_stream_read]) and
    ending it ([wolfSSH_SendDisconnect], [wolfSSH_shutdown]).

    The handshakes are state machines that fall through their cases and are called
    again when the transport would have blocked. The loops that wait for the peer end
    when a receive fails; [io_fuel] bounds their turns. *)

From S2P Require Import Prelude Codes Wire Names Buffer Fwd Algos Kdf Session Samples MsgFilter Transport.
From S2P Require Import Channels Send ChannelMsgs ChannelIO KexInit KexKeys KexAgree UserSig Ossh Composite OsshKey.
From S2P Require Import CertMan HostKey UserAuth KexDh Agent UserAuthClient Input Receive Terminal.

(** A C switch whose cases fall through: each case says whether it breaks. *)
Fixpoint switch {S} (cases : list (Z * ST S bool)) (v : Z) (falling : bool) : ST S unit :=
  match cases with
  | [] => mret tt
  | (c, body) :: cases =>
    if falling || (c =? v) then
      brk ← body;
      if brk : bool then mret tt else switch cases v true
    else switch cases v false
  end.

Section Handshake.
Context `{CTX} `{Crypto} `{Hashes} `{PubKeys} `{!SignKeys} `{!HostKeys} `{!KeyExchange} `{!AgentKeys} `{!ClientKeys} `{CertManager}.
Context `{Tty}.

(** ** The pieces of the two handshakes *)

(** A peer's EOF is legal once its channel is open. *)
Definition DoReceiveHandshake : M unit :=
  ret ← code DoReceive;
  ret_code (if ret =? WS_EOF then WS_SUCCESS else ret).

(** [while (go) if (recv < 0) return WS_FATAL_ERROR]. *)
Fixpoint wait_loop (fuel : nat) (go : WOLFSSH -> bool) (recv : M unit) : M unit :=
  s ← get;
  if go s then
    match fuel with
    | O => ub
    | S fuel =>
      ret ← code recv;
      guard_err (ret <? 0) WS_FATAL_ERROR;;
      wait_loop fuel go recv
    end
  else mret tt.
Definition wait : (WOLFSSH -> bool) -> M unit -> M unit := wait_loop io_fuel.

(** [if ((ssh->error = ...) < WS_SUCCESS) return WS_FATAL_ERROR]. *)
Definition recorded (m : M unit) : M unit :=
  ret ← code m;
  set_error ret;;
  guard_err (ret <? WS_SUCCESS) WS_FATAL_ERROR.

Definition set_accept (st : Z) : M unit := modify (fun s => s <| acceptState := st |>).
Definition set_connect (st : Z) : M unit := modify (fun s => s <| connectState := st |>).

(** A packet that was left being processed is stepped over. *)
Definition drop_processed : M unit :=
  s ← get;
  when (processReplyState (rx s) =? PROCESS_PACKET) (
    modify (fun s => s <| rx; inputBuffer ::= (fun b => b <| b_idx ::= (fun i => i +w peerMacSz (rx s)) |>) |>);;
    on_in (ShrinkBuffer true);;
    set_state PROCESS_INIT).

(** Output that a short send has left goes out first, and the step it was part of is
    done then. *)
Definition flush_pending (advance : M unit) : M unit :=
  ret ← code wolfSSH_SendPacket;
  set_error ret;;
  if ret =? WS_SUCCESS then advance;; drop_processed
  else fail WS_FATAL_ERROR.

(** ** The server *)

(** The steps made of several sends do not end with the flush of one; nor is the step
    to stop at passed over. *)
Definition advance_accept (stopState : Z) : M unit :=
  s ← get;
  when (negb (existsb (Z.eqb (acceptState s))
         [ACCEPT_SERVER_VERSION_SENT; ACCEPT_SERVER_USERAUTH_ACCEPT_SENT; ACCEPT_SERVER_KEXINIT_SENT; ACCEPT_KEYED;
          ACCEPT_SERVER_CHANNEL_ACCEPT_SENT; stopState]))
    (set_accept (acceptState s + 1)).

(** The channel of a forwarded agent is opened with the session. *)
Definition open_forwarded_agent (wc_InitRng : option bytes) : M unit :=
  s ← get;
  when (useAgent s) (
    agentRet ← code (wolfSSH_AGENT_ChannelOpen wc_InitRng);
    when (agentRet <? WS_SUCCESS) (
      when (negb (agentRet =? WS_FATAL_ERROR)) (set_error agentRet);;
      fail WS_FATAL_ERROR)).

Definition accept_cases (stopState : Z) (wc_InitRng : option bytes) : list (Z * M bool) := [
  (ACCEPT_BEGIN,
    recorded SendProtoId;; set_accept ACCEPT_SERVER_VERSION_SENT;; mret false);
  (ACCEPT_SERVER_VERSION_SENT,
    wait (fun s => clientState s <? CLIENT_VERSION_DONE) (recorded DoProtoId);;
    set_accept ACCEPT_CLIENT_VERSION_DONE;; mret false);
  (ACCEPT_CLIENT_VERSION_DONE,
    recorded SendKexInit;; set_accept ACCEPT_SERVER_KEXINIT_SENT;; mret false);
  (ACCEPT_SERVER_KEXINIT_SENT,
    wait (fun s => truthy (isKeying s)) DoReceive;; set_accept ACCEPT_KEYED;; mret false);
  (ACCEPT_KEYED,
    wait (fun s => clientState s <? CLIENT_USERAUTH_REQUEST_DONE) DoReceive;;
    set_accept ACCEPT_CLIENT_USERAUTH_REQUEST_DONE;; mret false);
  (ACCEPT_CLIENT_USERAUTH_REQUEST_DONE,
    recorded (SendServiceAccept ID_SERVICE_USERAUTH);; set_accept ACCEPT_SERVER_USERAUTH_ACCEPT_SENT;; mret false);
  (ACCEPT_SERVER_USERAUTH_ACCEPT_SENT,
    wait (fun s => clientState s <? CLIENT_USERAUTH_DONE) DoReceive;;
    set_accept ACCEPT_CLIENT_USERAUTH_DONE;; mret false);
  (ACCEPT_CLIENT_USERAUTH_DONE,
    recorded SendUserAuthSuccess;; set_accept ACCEPT_SERVER_USERAUTH_SENT;;
    mret (stopState =? ACCEPT_SERVER_USERAUTH_SENT));
  (ACCEPT_SERVER_USERAUTH_SENT,
    wait (fun s => clientState s <? CLIENT_CHANNEL_OPEN_DONE) DoReceive;;
    set_accept ACCEPT_SERVER_CHANNEL_ACCEPT_SENT;; mret false);
  (ACCEPT_SERVER_CHANNEL_ACCEPT_SENT,
    wait (fun s => clientState s <? CLIENT_DONE) DoReceiveHandshake;;
    open_forwarded_agent wc_InitRng;;
    set_accept ACCEPT_CLIENT_SESSION_ESTABLISHED;; mret true)
].

Fixpoint accept_loop (fuel : nat) (stopState : Z) (wc_InitRng : option bytes) : M unit :=
  s ← get;
  if acceptState s =? stopState then mret tt
  else
    match fuel with
    | O => ub
    | S fuel => switch (accept_cases stopState wc_InitRng) (acceptState s) false;; accept_loop fuel stopState wc_InitRng
    end.

(** A session whose channels are the application's stops once the user is in. *)
Definition accept_stop (s : WOLFSSH) : Z :=
  if truthy (appChannels s) && (acceptState s <=? ACCEPT_SERVER_USERAUTH_SENT) then ACCEPT_SERVER_USERAUTH_SENT
  else ACCEPT_CLIENT_SESSION_ESTABLISHED.

Definition wolfSSH_accept (wc_InitRng : option bytes) : M unit :=
  not_disconnected;;
  s ← get;
  when ((error s =? WS_WANT_READ) || (error s =? WS_WANT_WRITE) || (error s =? WS_AUTH_PENDING)) (set_error 0);;
  s ← get;
  guard_err (negb (error s =? 0)) WS_INVALID_STATE_E;;
  let stopState := accept_stop s in
  when ((0 <? b_length (outputBuffer (tx s))) && (acceptState s <? ACCEPT_CLIENT_SESSION_ESTABLISHED))
    (flush_pending (advance_accept stopState));;
  accept_loop io_fuel stopState wc_InitRng.

(** ** The client *)

Definition advance_connect : M unit :=
  s ← get;
  when (negb (existsb (Z.eqb (connectState s))
         [CONNECT_CLIENT_VERSION_SENT; CONNECT_CLIENT_KEXINIT_SENT; CONNECT_CLIENT_KEXDH_INIT_SENT;
          CONNECT_CLIENT_USERAUTH_REQUEST_SENT; CONNECT_CLIENT_USERAUTH_SENT; CONNECT_CLIENT_CHANNEL_OPEN_SESSION_SENT;
          CONNECT_CLIENT_CHANNEL_REQUEST_SENT]))
    (set_connect (connectState s + 1)).

Definition start_kex : M unit :=
  s ← get;
  match handshake s with
  | None => fail WS_FATAL_ERROR
  | Some h => recorded (if id_eqb (hs_kexId h) ID_DH_GEX_SHA256 then SendKexDhGexRequest else SendKexDhInit)
  end.

(** Without an agent the session goes on without its keys. *)
Definition new_agent (wc_InitRng : option bytes) : M unit :=
  s ← get;
  when (agentEnabled s) (
    a ← wolfSSH_AGENT_new wc_InitRng;
    modify (fun s => s <| agent := a |> <| agentEnabled := match a with Some _ => true | None => false end |>)).

(** A channel whose open is still queued is kept for the answer. *)
Definition open_session : M unit :=
  newChannel ← ChannelNew ID_CHANTYPE_SESSION windowSz maxPacketSz;
  match newChannel with
  | None => set_error WS_MEMORY_E;; fail WS_FATAL_ERROR
  | Some newChannel =>
    ret ← code (SendChannelOpenSession newChannel);
    set_error ret;;
    if ret <? WS_SUCCESS then
      (if (ret =? WS_WANT_WRITE) || (ret =? WS_WANT_READ) then ChannelAppend newChannel else ChannelDelete newChannel);;
      fail WS_FATAL_ERROR
    else ChannelAppend newChannel
  end.

Definition connect_cases (wc_InitRng : option bytes) : list (Z * M bool) := [
  (CONNECT_BEGIN,
    recorded SendProtoId;; set_connect CONNECT_CLIENT_VERSION_SENT;; mret false);
  (CONNECT_CLIENT_VERSION_SENT,
    wait (fun s => serverState s <? SERVER_VERSION_DONE) (recorded DoProtoId);;
    set_connect CONNECT_SERVER_VERSION_DONE;; mret false);
  (CONNECT_SERVER_VERSION_DONE,
    recorded SendKexInit;; set_connect CONNECT_CLIENT_KEXINIT_SENT;; mret false);
  (CONNECT_CLIENT_KEXINIT_SENT,
    wait (fun s => serverState s <? SERVER_KEXINIT_DONE) DoReceive;;
    set_connect CONNECT_SERVER_KEXINIT_DONE;; mret false);
  (CONNECT_SERVER_KEXINIT_DONE,
    start_kex;; set_connect CONNECT_CLIENT_KEXDH_INIT_SENT;; mret false);
  (CONNECT_CLIENT_KEXDH_INIT_SENT,
    wait (fun s => truthy (isKeying s)) DoReceive;; set_connect CONNECT_KEYED;; mret false);
  (CONNECT_KEYED,
    recorded (SendServiceRequest ID_SERVICE_USERAUTH);; set_connect CONNECT_CLIENT_USERAUTH_REQUEST_SENT;; mret false);
  (CONNECT_CLIENT_USERAUTH_REQUEST_SENT,
    wait (fun s => serverState s <? SERVER_USERAUTH_REQUEST_DONE) DoReceive;;
    set_connect CONNECT_SERVER_USERAUTH_REQUEST_DONE;; mret false);
  (CONNECT_SERVER_USERAUTH_REQUEST_DONE,
    new_agent wc_InitRng;;
    recorded (SendUserAuthRequest (AlgoId_code ID_NONE));; set_connect CONNECT_CLIENT_USERAUTH_SENT;; mret false);
  (CONNECT_CLIENT_USERAUTH_SENT,
    wait (fun s => serverState s <? SERVER_USERAUTH_ACCEPT_DONE) DoReceive;;
    set_connect CONNECT_SERVER_USERAUTH_ACCEPT_DONE;; mret false);
  (CONNECT_SERVER_USERAUTH_ACCEPT_DONE,
    open_session;; set_connect CONNECT_CLIENT_CHANNEL_OPEN_SESSION_SENT;; mret false);
  (CONNECT_CLIENT_CHANNEL_OPEN_SESSION_SENT,
    wait (fun s => serverState s <? SERVER_CHANNEL_OPEN_DONE) DoReceiveHandshake;;
    set_connect CONNECT_SERVER_CHANNEL_OPEN_SESSION_DONE;; mret false);
  (CONNECT_SERVER_CHANNEL_OPEN_SESSION_DONE,
    s ← get;
    when (agentEnabled s) (recorded SendChannelAgentRequest);;
    set_connect CONNECT_CLIENT_CHANNEL_AGENT_REQUEST_SENT;; mret false);
  (CONNECT_CLIENT_CHANNEL_AGENT_REQUEST_SENT,
    s ← get;
    when (sendTerminalRequest (chan s)) (recorded SendChannelTerminalRequest);;
    set_connect CONNECT_CLIENT_CHANNEL_TERMINAL_REQUEST_SENT;; mret false);
  (CONNECT_CLIENT_CHANNEL_TERMINAL_REQUEST_SENT,
    s ← get;
    recorded (SendChannelRequest (default [] (channelName (chan s))));;
    set_connect CONNECT_CLIENT_CHANNEL_REQUEST_SENT;; mret false);
  (CONNECT_CLIENT_CHANNEL_REQUEST_SENT,
    wait (fun s => serverState s <? SERVER_DONE) DoReceiveHandshake;;
    set_connect CONNECT_SERVER_CHANNEL_REQUEST_DONE;; mret false)
].

Definition wolfSSH_connect (wc_InitRng : option bytes) : M unit :=
  not_disconnected;;
  s ← get;
  when ((0 <? b_length (outputBuffer (tx s))) && (connectState s <? CONNECT_SERVER_CHANNEL_REQUEST_DONE))
    (flush_pending advance_connect);;
  s ← get;
  switch (connect_cases wc_InitRng) (connectState s) false.

(** What [wolfSSH_connect] asks for on its channel; the name is a string in memory of
    its own, or none. *)
Definition wolfSSH_SetChannelType (type : Z) (name : option bytes) : M unit :=
  let store nm sendTerm ty := modify (fun s =>
    s <| chan; channelName := nm |> <| chan; sendTerminalRequest ::= orb sendTerm |> <| chan; connectChannelId := ty |>) in
  if type =? WOLFSSH_SESSION_SHELL then store None false type
  else if (type =? WOLFSSH_SESSION_EXEC) || (type =? WOLFSSH_SESSION_SUBSYSTEM) then
    guard_err ((type =? WOLFSSH_SESSION_EXEC) && (side =? WOLFSSH_ENDPOINT_SERVER)) WS_BAD_ARGUMENT;;
    s ← get;
    match name with
    | Some nm =>
      guard_err (WOLFSSH_MAX_CHN_NAMESZ <=? blen nm) WS_BAD_ARGUMENT;;
      if 0 <? blen nm then
        (if bool_decide (channelName (chan s) = Some nm) then mret tt
         else mem ← malloc; guard_err (negb mem) WS_MEMORY_E);;
        store (Some nm) false type
      else
        guard_err (match channelName (chan s) with None => true | _ => false end) WS_BAD_ARGUMENT;;
        store (channelName (chan s)) false type
    | None =>
      guard_err (match channelName (chan s) with None => true | _ => false end) WS_BAD_ARGUMENT;;
      store (channelName (chan s)) false type
    end
  else if type =? WOLFSSH_SESSION_TERMINAL then store None true WOLFSSH_SESSION_SHELL
  else fail WS_BAD_ARGUMENT.

(** ** Turning the crank *)

(** Once the peer has disconnected only our own disconnect may still go out. *)
Definition FlushQueuedOutput (s : WOLFSSH) : bool :=
  wolfSSH_OutputPending s && negb (disconnected s && negb (disconnectTxd s)).

(** What the flush after a receive makes of the two results. *)
Definition worker_flush (ret : Z) : M (Z * Z) :=
  s ← get;
  if wolfSSH_OutputPending s && negb (disconnected s) then
    let rxErr := error s in
    sendRet ← code wolfSSH_SendPacket;
    if sendRet =? WS_SUCCESS then mret (ret, sendRet)
    else if ret =? WS_SUCCESS then mret (sendRet, sendRet)
    else if negb (sendRet =? WS_WANT_WRITE) && negb (ret =? WS_CHANNEL_CLOSED) && negb (ret =? WS_FATAL_ERROR) then
      mret (sendRet, sendRet)
    else
      when (((ret =? WS_CHANNEL_CLOSED) && negb (sendRet =? WS_WANT_WRITE))
            || ((ret =? WS_FATAL_ERROR) && negb (rxErr =? WS_WANT_READ))) (set_error rxErr);;
      mret (ret, sendRet)
  else mret (ret, WS_SUCCESS).

(** The channel it is about is [lastRxId]. *)
Definition wolfSSH_worker : M unit :=
  not_disconnected;;
  ret ← code DoReceive;
  '(ret, sendRet) ← worker_flush ret;
  s ← get;
  if ((ret =? WS_SUCCESS) || (ret =? WS_CHAN_RXD)) && truthy (isKeying s) && (sendRet =? WS_SUCCESS) then
    set_error WS_REKEYING;; fail WS_REKEYING
  else ret_code ret.

Definition avail_of (channel : loc) : M Z :=
  c ← ld_channel channel;
  mret (b_length (c_inputBuffer c) -w b_idx (c_inputBuffer c)).

(** Receive until the buffer of [head], the head of the list at the start, has data; it
    is looked at through the pointer taken then. *)
Fixpoint stream_read_loop (fuel : nat) (head : loc) (headId ret : Z) : M Z :=
  avail ← avail_of head;
  if negb (avail =? 0) then mret ret
  else
    match fuel with
    | O => ub
    | S fuel =>
      ret ← code DoReceive;
      s ← get;
      match channelList (chan s) with
      | [] => mret WS_EOF
      | h :: _ =>
        c ← ld_channel h;
        havail ← avail_of h;
        let ret := if eofRxd c && (havail =? 0) then WS_EOF else ret in
        let last := lastRxId (chan s) in
        if (ret =? WS_EOF) && (c_channel c =? headId) && negb (last =? headId) then stream_read_loop fuel head headId ret
        else if (ret =? WS_EXTDATA) && negb (last =? c_channel c) then mret WS_ERROR
        else if (ret <? 0) && negb (ret =? WS_CHAN_RXD) then mret ret
        else if error s =? WS_CHAN_RXD then
          if negb (last =? c_channel c) then mret WS_ERROR
          else stream_read_loop fuel head headId WS_SUCCESS
        else stream_read_loop fuel head headId ret
      end
    end.

Definition wolfSSH_stream_read (bufSz : Z) : M bytes :=
  guard_err (bufSz =? 0) WS_BAD_ARGUMENT;;
  s ← get;
  match channelList (chan s) with
  | [] =>
    if disconnected s then set_error WS_DISCONNECT;; fail WS_FATAL_ERROR
    else fail WS_BAD_ARGUMENT
  | head :: _ =>
    c ← ld_channel head;
    avail ← avail_of head;
    if (avail =? 0) && eofRxd c then set_error WS_EOF;; fail WS_ERROR
    else if truthy (isKeying s) && negb (disconnected s) then set_error WS_REKEYING;; fail WS_FATAL_ERROR
    else
      set_error WS_SUCCESS;;
      if disconnected s && (avail =? 0) then set_error WS_DISCONNECT;; fail WS_FATAL_ERROR
      else
        ret ← stream_read_loop io_fuel head (c_channel c) WS_SUCCESS;
        s ← get;
        if (ret =? WS_SUCCESS) && (negb (truthy (isKeying s)) || disconnected s) then
          avail ← avail_of head;
          let n := min bufSz avail in
          guard_err (n =? 0) WS_BUFFER_E;;
          out ← on_input head (BufferTake n);
          s ← get;
          h ← deref (hd_error (channelList (chan s)));
          ret ← code (UpdateChannelWindow h);
          when (negb (ret =? WS_SUCCESS)) (set_error ret);;
          mret out
        else ret_code ret;; mret []
  end.

(** ** Messages of the application's own *)

(** Not before the first keys when the peer may be strict. *)
Definition wolfSSH_SendIgnore : M unit :=
  not_disconnected;;
  s ← get;
  let keyed := if side =? WOLFSSH_ENDPOINT_SERVER then ACCEPT_KEYED <=? acceptState s else CONNECT_KEYED <=? connectState s in
  guard_err (sendStrictKex (kex s) && negb keyed) WS_INVALID_STATE_E;;
  SendIgnore (zeros 128).

Definition wolfSSH_SendDisconnect (reason : Z) : M unit :=
  d ← SendAfterDisconnect;
  if d : bool then
    s ← get;
    if FlushQueuedOutput s then wolfSSH_SendPacket else fail WS_FATAL_ERROR
  else SendDisconnect reason.

Definition wolfSSH_TriggerKeyExchange : M unit :=
  not_disconnected;;
  ret ← code SendKexInit;
  when (negb (ret =? WS_SUCCESS)) (set_error ret);;
  ret_code ret.

(** ** The end of a session *)

(** The sends that tear a channel down, each while those before it went out or were
    queued. *)
Definition teardown (channel : loc) : M Z :=
  c ← ld_channel channel;
  if closeTxd c then mret WS_SUCCESS
  else
    let goes_on ret s := (ret =? WS_SUCCESS) || (negb (ret =? WS_BAD_ARGUMENT) && (error s =? WS_WANT_WRITE)) in
    ret ← code (SendChannelEof (peerChannel c));
    s ← get;
    ret ← (if goes_on ret s then c ← ld_channel channel; code (SendChannelExit (peerChannel c) (exitStatus (term s))) else mret ret);
    s ← get;
    if goes_on ret s then c ← ld_channel channel; code (SendChannelClose (peerChannel c)) else mret ret.

(** The answer to the close. *)
Definition await_close : M Z :=
  ret ← code wolfSSH_worker;
  let ret := if (ret =? WS_CHAN_RXD) || (ret =? WS_EOF) then WS_SUCCESS else ret in
  s ← get;
  mret (if (ret =? WS_SUCCESS) && wolfSSH_OutputPending s then WS_WANT_WRITE else ret).

Definition wolfSSH_shutdown : M unit :=
  s ← get;
  let flushes := FlushQueuedOutput s in
  flushRet ← (if flushes then code wolfSSH_SendPacket else mret WS_SUCCESS);
  s ← get;
  let ret := match channelList (chan s) with [] => WS_BAD_ARGUMENT | _ => WS_SUCCESS end in
  let channel := if disconnected s then None else hd_error (channelList (chan s)) in
  (if disconnected s && (flushRet =? WS_SUCCESS) then set_error WS_DISCONNECT
   else when (flushes && (flushRet =? WS_SUCCESS) && (error s =? WS_WANT_WRITE)) (set_error WS_SUCCESS));;
  ret ← match channel with Some c => teardown c | None => mret ret end;
  s ← get;
  ret ← (if match channel with Some _ => true | None => false end && (ret =? WS_SUCCESS) && negb (wolfSSH_OutputPending s)
         then await_close else mret ret);
  s ← get;
  let ret := match channelList (chan s) with [] => WS_CHANNEL_CLOSED | _ => ret end in
  ret_code (if negb (flushRet =? WS_SUCCESS)
               && (negb (flushRet =? WS_WANT_WRITE)
                   || (wolfSSH_OutputPending s && ((ret =? WS_SUCCESS) || (ret =? WS_CHANNEL_CLOSED))))
            then flushRet else ret).
End Handshake.
