(* ===== verification/AuthSafe.v ===== *)
(** Who gets past [wolfSSH_accept]: the state of the authentication on the server is
    moved by the messages of the authentication only, and the handshake succeeds only
    once one of them has let the client in. *)

From S2P Require Import Prelude Codes Wire Names Buffer Fwd Algos Kdf Session Samples MsgFilter Transport.
From S2P Require Import Channels Send ChannelMsgs ChannelIO KexInit KexKeys KexAgree Frames UserSig Ossh Composite OsshKey.
From S2P Require Import CertMan HostKey UserAuth UserAuthSpec KexDh KexDhSpec KexServe Agent UserAuthClient Input Receive.
From S2P Require Import AgentSpec ClientSpec ReceiveSpec Terminal Handshake.

(** ** The state of the authentication *)

Definition aview (s : WOLFSSH) : Z * Z * UserAuth := (acceptState s, clientState s, auth s).

(** The application's callbacks leave it alone. *)
Class Bystanders `{CTX} : Prop := {
  by_recv cb n : ioRecvCb = Some cb -> frames aview (cb n);
  by_keyed cb : keyingCompletionCb = Some cb -> frames aview cb;
  by_reqSuccess cb d : reqSuccessCb = Some cb -> frames aview (cb d);
  by_reqFailure cb d : reqFailureCb = Some cb -> frames aview (cb d);
  by_globalReq cb name sz w : globalReqCb = Some cb -> frames aview (cb name sz w);
  by_globalReqAny cb name p w : globalReqAnyCb = Some cb -> frames aview (cb name p w);
  by_open cb l : channelOpenCb = Some cb -> frames aview (cb l);
  by_openConf cb l : channelOpenConfCb = Some cb -> frames aview (cb l);
  by_openFail cb l : channelOpenFailCb = Some cb -> frames aview (cb l);
  by_shell cb l : channelReqShellCb = Some cb -> frames aview (cb l);
  by_exec cb l : channelReqExecCb = Some cb -> frames aview (cb l);
  by_subsys cb l : channelReqSubsysCb = Some cb -> frames aview (cb l);
  by_reqAny cb l t p w : channelReqAnyCb = Some cb -> frames aview (cb l t p w);
  by_eof cb l : channelEofCb = Some cb -> frames aview (cb l);
  by_close cb l : channelCloseCb = Some cb -> frames aview (cb l);
  by_agent cb a : agentCb = Some cb -> frames aview (cb a);
  by_fwd cb a h p : fwdCb = Some cb -> frames aview (cb a h p);
  by_resize cb a b c d : termResizeCb = Some cb -> frames aview (cb a b c d);
  (** It answers with a code. *)
  highwater_answers cb sd s e : highwaterCb = Some cb -> (cb sd s).1 <> Err e
}.
#[export] Hint Resolve by_recv by_keyed by_reqSuccess by_reqFailure by_globalReq by_globalReqAny by_open by_openConf
  by_openFail by_shell by_exec by_subsys by_reqAny by_eof by_close by_agent by_fwd by_resize : frames.

Lemma aview_of_rest {A} (m : M A) : frames rest m -> frames aview m.
Proof. intros Hm s. specialize (Hm s). unfold aview. by apply (f_equal aview) in Hm. Qed.

(** Unfolds the definition a statement is made by. *)
Ltac head_of t := lazymatch t with ?f _ => head_of f | _ => t end.
Ltac unfold_statement :=
  lazymatch goal with |- frames _ ?m => let h := head_of m in unfold h end.
Ltac av := repeat first [frames_step | match goal with |- frames _ (match ?x with _ => _ end) => destruct x eqn:? end
                        | solve [eauto with frames nocore] | solve [apply aview_of_rest; eauto with frames nocore]
                        | progress unfold_statement].

Section AuthSafe.
Context `{CTX} `{Crypto} `{Hashes} `{PubKeys} `{!SignKeys} `{!HostKeys} `{!KeyExchange} `{!AgentKeys} `{!ClientKeys} `{CertManager}.
Context `{!QuietSends} `{!QuietAuth} `{!Bystanders}.

Lemma av_on_fwd {A} (m : ST FwdState A) : frames aview (on_fwd m).
Proof. intros s. unfold on_fwd. by destruct (m (fwd s)). Qed.
Lemma av_on_in {A} (m : ST WOLFSSH_BUFFER A) : frames aview (on_in m).
Proof. intros s. unfold on_in. by destruct (m (inputBuffer (rx s))). Qed.
Lemma av_on_out {A} (m : ST WOLFSSH_BUFFER A) : frames aview (on_out m).
Proof. intros s. unfold on_out. by destruct (m (outputBuffer (tx s))). Qed.
Lemma av_malloc : frames aview malloc.
Proof. by apply frames_malloc. Qed.
Hint Resolve av_on_fwd av_on_in av_on_out av_malloc : frames.

(** ** The channels *)

Lemma av_find_first {A} (l : list A) (f : A -> M bool) : (forall x, frames aview (f x)) -> frames aview (find_first l f).
Proof. intros Hf. induction l; cbn [find_first]; av. Qed.
Lemma av_ChannelFind id peer : frames aview (ChannelFind id peer).
Proof. unfold ChannelFind. frames_step; [frames_step|]. apply av_find_first. intros. av. Qed.
Hint Resolve av_ChannelFind : frames.
Lemma av_ChannelNew_id n : frames aview (ChannelNew_id n).
Proof. induction n; cbn [ChannelNew_id]; av. Qed.
Hint Resolve av_ChannelNew_id : frames.
Lemma av_ChannelNew t w m : frames aview (ChannelNew t w m).
Proof. av. Qed.
Lemma av_ChannelDelete l : frames aview (ChannelDelete l).
Proof. av. Qed.
Lemma av_ChannelAppend l : frames aview (ChannelAppend l).
Proof. av. Qed.
Lemma av_st_channel l f : frames aview (st_channel l f).
Proof. av. Qed.
Lemma av_ld_channel l : frames aview (ld_channel l).
Proof. av. Qed.
Hint Resolve av_ChannelNew av_ChannelDelete av_ChannelAppend av_st_channel av_ld_channel : frames.
Lemma av_ChannelRemove id p : frames aview (ChannelRemove id p).
Proof. av. Qed.
Lemma av_ChannelPutData l d : frames aview (ChannelPutData l d).
Proof. av. Qed.
Lemma av_ChannelUpdateForward l a b c d e : frames aview (ChannelUpdateForward l a b c d e).
Proof. av. Qed.
Lemma av_ChannelUpdatePeer l a b c : frames aview (ChannelUpdatePeer l a b c).
Proof. av. Qed.
Hint Resolve av_ChannelRemove av_ChannelPutData av_ChannelUpdatePeer av_ChannelUpdateForward : frames.

(** ** The senders *)

Lemma av_send n w : frames aview (send_packet n w).
Proof. av. Qed.
Lemma av_flush : frames aview wolfSSH_SendPacket.
Proof. av. Qed.
Lemma av_allowed msg st : frames aview (IsMessageAllowed msg st).
Proof.
  intros s. pose proof (IsMessageAllowed_frame msg st s) as F.
  destruct (IsMessageAllowed msg st s) as [[[]|e|] s']; try done; cbn [snd].
  - by destruct F as [->|(h & _ & _ & _ & ->)].
  - by destruct F as [->| ->].
Qed.
Hint Resolve av_send av_flush av_allowed : frames.
Lemma av_SendChannelData id d : frames aview (SendChannelData id d).
Proof. av. Qed.
Lemma av_SendChannelWindowAdjust id n : frames aview (SendChannelWindowAdjust id n).
Proof. av. Qed.
Hint Resolve av_SendChannelWindowAdjust : frames.
Lemma av_ChannelCreditWindow l n : frames aview (ChannelCreditWindow l n).
Proof. av. Qed.
Hint Resolve av_ChannelCreditWindow : frames.
Lemma av_credit_all l r : frames aview (credit_all l r).
Proof. revert r. induction l; intros r; cbn [credit_all]; av. Qed.
Hint Resolve av_credit_all : frames.
Lemma av_SendPendingChannelWindowAdjust : frames aview SendPendingChannelWindowAdjust.
Proof. av. Qed.
Hint Resolve av_SendPendingChannelWindowAdjust : frames.
Lemma av_SendChannelOpenSession l : frames aview (SendChannelOpenSession l).
Proof. av. Qed.
Lemma av_SendChannelOpenConf l : frames aview (SendChannelOpenConf l).
Proof. av. Qed.
Lemma av_SendChannelEof id : frames aview (SendChannelEof id).
Proof. av. Qed.
Lemma av_SendChannelExit id st : frames aview (SendChannelExit id st).
Proof. av. Qed.
Lemma av_SendChannelClose id : frames aview (SendChannelClose id).
Proof. av. Qed.
Lemma av_SendChannelSuccess id b : frames aview (SendChannelSuccess id b).
Proof. av. Qed.
Hint Resolve av_SendChannelOpenSession av_SendChannelOpenConf av_SendChannelEof av_SendChannelExit av_SendChannelClose
  av_SendChannelSuccess : frames.

(** ** The messages of the connection *)

Lemma av_string_alloc b len i : frames aview (string_alloc b len i).
Proof. av. Qed.
Hint Resolve av_string_alloc : frames.
Lemma av_DoGlobalRequestFwd b i w c : frames aview (DoGlobalRequestFwd b i w c).
Proof. av. Qed.
Hint Resolve av_DoGlobalRequestFwd : frames.
Lemma av_DoGlobalRequest b i : frames aview (DoGlobalRequest b i).
Proof. av. Qed.
Lemma av_DoChannelOpenConf b i : side = WOLFSSH_ENDPOINT_SERVER -> frames aview (DoChannelOpenConf b i).
Proof. intros Hs. av. Qed.
Lemma av_DoChannelOpenFail b i : frames aview (DoChannelOpenFail b i).
Proof. av. Qed.
Lemma av_DoChannelEof b i : frames aview (DoChannelEof b i).
Proof. av. Qed.
Lemma av_DoChannelClose b i : frames aview (DoChannelClose b i).
Proof. av. Qed.
Lemma av_DoChannelSuccess b i : frames aview (DoChannelSuccess b i).
Proof. av. Qed.
Lemma av_DoChannelFailure b i : frames aview (DoChannelFailure b i).
Proof. av. Qed.
Lemma av_DoChannelWindowAdjust b i : frames aview (DoChannelWindowAdjust b i).
Proof. av. Qed.
Lemma av_DoChannelData b i : frames aview (DoChannelData b i).
Proof. av. Qed.
Lemma av_DoChannelExtendedData b i : frames aview (DoChannelExtendedData b i).
Proof. av. Qed.
Hint Resolve av_DoGlobalRequest av_DoChannelOpenConf av_DoChannelOpenFail av_DoChannelEof av_DoChannelClose av_DoChannelSuccess
  av_DoChannelFailure av_DoChannelWindowAdjust av_DoChannelData av_DoChannelExtendedData : frames.

(** ** The messages that move the state of the client *)

(** No further on, at most back. *)
Definition calm (s s' : WOLFSSH) : Prop :=
  acceptState s' = acceptState s /\ auth s' = auth s /\ (clientState s' = clientState s \/ clientState s' < CLIENT_USERAUTH_DONE).
Definition calmly {A} (m : M A) : Prop := forall s, calm s (m s).2.

Lemma calm_trans s1 s2 s3 : calm s1 s2 -> calm s2 s3 -> calm s1 s3.
Proof. unfold calm. intros (-> & -> & H12) (-> & -> & H23). split; [done|]. split; [done|]. destruct H12, H23; first [left; congruence|right; lia]. Qed.
Lemma calm_aview s s' : aview s' = aview s -> calm s s'.
Proof. intros [= Ea Ec Eu]. split; [exact Ea|]. split; [exact Eu|by left]. Qed.
Lemma calmly_aview {A} (m : M A) : frames aview m -> calmly m.
Proof. intros Hm s. apply calm_aview, Hm. Qed.
Lemma calmly_bind {A B} (m : M A) (k : A -> M B) : calmly m -> (forall a, calmly (k a)) -> calmly (m ≫= k).
Proof.
  intros Hm Hk s. unfold mbind, ST_bind. specialize (Hm s). destruct (m s) as [[a|e|] s'] eqn:E; try done.
  eapply calm_trans; [exact Hm|apply Hk].
Qed.
Lemma calmly_code {A} (m : M A) : calmly m -> calmly (code m).
Proof. intros Hm s. specialize (Hm s). unfold code. by destruct (m s) as [[a|e|] s']. Qed.
Lemma calmly_attempt {A} (m : M A) : calmly m -> calmly (attempt m).
Proof. intros Hm s. specialize (Hm s). unfold attempt. by destruct (m s) as [[a|e|] s']. Qed.
Lemma calmly_back v : v < CLIENT_USERAUTH_DONE -> calmly (modify (fun s => s <| clientState := v |>)).
Proof. intros Hv s. split; [done|]. split; [done|]. by right. Qed.

Ltac calm_step :=
  lazymatch goal with
  | |- calmly (_ ≫= _) => apply calmly_bind; [|intros ?]
  | |- calmly (code _) => apply calmly_code
  | |- calmly (attempt _) => apply calmly_attempt
  | |- calmly (modify (fun s => s <| clientState := _ |>)) => apply calmly_back; done
  | |- calmly (match ?x with _ => _ end) => destruct x
  | |- calmly ?m => first [solve [apply calmly_aview; av] | let h := head_of m in unfold h]
  end.

Lemma av_on_hash {A} (m : ST bytes A) : frames aview (on_hash m).
Proof. unfold on_hash. frames_step; [av|]. intros s. by destruct (m _). Qed.
Lemma av_with_rng {A} (f : bytes -> wc A * bytes) : frames aview (with_rng f).
Proof. intros s. unfold with_rng, call. destruct (f _) as [[a|e] g]; [done|]. cbn. by destruct (e =? 0). Qed.
Lemma av_for_each {A} (l : list A) f : (forall x, frames aview (f x)) -> frames aview (for_each l f).
Proof. intros Hf. induction l; cbn [for_each]; av. Qed.
Lemma av_or_else {A} (m : M A) e : frames aview m -> frames aview (or_else m e).
Proof. intros Hm. unfold or_else. av. Qed.
Lemma av_finally {A} (m : M A) c : frames aview m -> frames aview c -> frames aview (finally m c).
Proof. intros Hm Hc. unfold finally. av. Qed.
Hint Resolve av_on_hash av_with_rng av_for_each av_or_else av_finally : frames.
Hint Resolve rest_flush_loop : frames.
Lemma av_highwater sd : frames aview (HighwaterCheck sd).
Proof. apply aview_of_rest, rest_highwater_check. Qed.
Lemma av_SendPacketFlush : frames aview SendPacketFlush.
Proof. av. Qed.
Hint Resolve av_highwater av_SendPacketFlush : frames.
Lemma av_SendKexInit : frames aview SendKexInit.
Proof. av. Qed.
Hint Resolve av_SendKexInit : frames.
Lemma calm_DoServiceRequest b n : calmly (DoServiceRequest b n).
Proof. repeat calm_step. Qed.
Lemma calm_DoKexInit b n : calmly (DoKexInit b n).
Proof. repeat calm_step. Qed.
Hint Resolve rest_SignH rest_trad_sign : frames.
Lemma calm_DoKexDhInit b n : calmly (DoKexDhInit b n).
Proof. repeat calm_step. Qed.

(** *** The other messages of the transport *)

Lemma av_DoNewKeys b n : frames aview (DoNewKeys b n).
Proof. av. Qed.

Lemma av_SendKexDhInit : frames aview SendKexDhInit.
Proof. av. Qed.
Lemma av_SendKexDhGexRequest : frames aview SendKexDhGexRequest.
Proof. av. Qed.
Hint Resolve av_SendKexDhInit av_SendKexDhGexRequest : frames.
Lemma calm_handle_kexinit b n : calmly (handle_kexinit b n).
Proof.
  unfold handle_kexinit. apply calmly_bind; [apply calmly_code, calm_DoKexInit|]. intros ret. apply calmly_aview. av.
Qed.
Lemma av_DoKexDhGexRequest b n : frames aview (DoKexDhGexRequest b n).
Proof. av. Qed.
Lemma av_ext_info_loop k c b n i : frames aview (ext_info_loop k c b n i).
Proof. revert c i. induction k; intros c i; cbn [ext_info_loop]; av. Qed.
Hint Resolve av_ext_info_loop : frames.
Lemma av_DoExtInfo b n : frames aview (DoExtInfo b n).
Proof. av. Qed.
Lemma av_DoDebug b n : frames aview (DoDebug b n).
Proof. av. Qed.
Lemma av_DoDisconnect b n : frames aview (DoDisconnect b n).
Proof. av. Qed.
Lemma av_DoUnimplemented b n : frames aview (Receive.DoUnimplemented b n).
Proof. av. Qed.
Lemma av_DoIgnore b n : frames aview (DoIgnore b n).
Proof. av. Qed.
Lemma av_DoRequestSuccess b n : frames aview (DoRequestSuccess b n).
Proof. av. Qed.
Lemma av_DoRequestFailure b n : frames aview (DoRequestFailure b n).
Proof. av. Qed.
Lemma av_SendUnimplemented : frames aview SendUnimplemented.
Proof. av. Qed.
Hint Resolve av_DoKexDhGexRequest av_DoExtInfo av_DoDebug av_DoDisconnect av_DoUnimplemented av_DoIgnore av_DoRequestSuccess
  av_DoRequestFailure av_SendUnimplemented av_DoNewKeys : frames.

(** *** The messages that move the channels' states on *)

Definition cview (s : WOLFSSH) : Z * UserAuth := (acceptState s, auth s).

Lemma cview_of_aview {A} (m : M A) : frames aview m -> frames cview m.
Proof. intros Hm s. specialize (Hm s). unfold aview, cview in *. by injection Hm as -> _ ->. Qed.
Ltac cv := repeat first [frames_step | solve [apply cview_of_aview; av]
                        | match goal with |- frames _ (match ?x with _ => _ end) => destruct x eqn:? end
                        | progress unfold_statement].

Lemma cv_DoChannelOpen b i : frames cview (DoChannelOpen b i).
Proof. cv. Qed.
Lemma cv_DoChannelRequest b i : frames cview (DoChannelRequest b i).
Proof. cv. Qed.

(** ** The prompts are asked of a user who has a name *)

Definition kview (s : WOLFSSH) : AlgoId * bool := (authId (auth s), userAuthSeen (auth s)).
Definition kb_ok (s : WOLFSSH) : Prop := authId (auth s) = ID_USERAUTH_KEYBOARD -> userAuthSeen (auth s) = true.

Lemma kview_of_rest {A} (m : M A) : frames rest m -> frames kview m.
Proof. intros Hm s. specialize (Hm s). by apply (f_equal kview) in Hm. Qed.
Lemma kb_ok_kview s s' : kview s' = kview s -> kb_ok s -> kb_ok s'.
Proof. unfold kb_ok, kview. by intros [= -> ->]. Qed.
Ltac kv := repeat first [frames_step | match goal with |- frames _ (match ?x with _ => _ end) => destruct x eqn:? end
                        | solve [eauto with frames nocore] | solve [apply kview_of_rest; eauto with frames nocore]
                        | progress unfold_statement].

Lemma kv_settle v : frames kview (settle_auth v).
Proof. kv. Qed.
Hint Resolve kv_settle : frames.
Lemma kv_SendUserAuthKeyboardRequest d : frames kview (SendUserAuthKeyboardRequest d).
Proof. kv. Qed.
Hint Resolve kv_SendUserAuthKeyboardRequest : frames.
Hint Resolve rest_responses : frames.
Lemma kv_DoUserAuthInfoResponse b n : frames kview (DoUserAuthInfoResponse b n).
Proof. kv. Qed.
Lemma kv_dispatch_auth d b n i : frames kview (dispatch_auth d b n i).
Proof. kv. Qed.
Lemma kv_charge : frames kview charge_abandoned.
Proof. kv. Qed.

(** A step that keeps it, and the rest. *)
Lemma kb_bind {A B} (m : M A) (k : A -> M B) s :
  after m (fun _ => kb_ok) s -> (forall a s', m s = (Ok a, s') -> kb_ok s' -> after (k a) (fun _ => kb_ok) s') ->
  after (m ≫= k) (fun _ => kb_ok) s.
Proof.
  intros Hm Hk. apply after_bind. unfold after in *. destruct (m s) as [[a|e|] s'] eqn:E; cbn in *; auto.
Qed.
Lemma kb_frames {A} (m : M A) s : frames kview m -> kb_ok s -> after m (fun _ => kb_ok) s.
Proof. intros Hm Hk. by apply (kb_ok_kview _ _ (Hm s)). Qed.

Lemma bind_username_seen u s a s' : bind_username u s = (Ok a, s') -> userAuthSeen (auth s') = true.
Proof.
  unfold bind_username. rewrite st_get. destruct (userAuthSeen (auth s)) eqn:E; cbn [negb].
  - destruct (negb (bytes_eqb _ _)).
    + by intros (? & ? & _ & [=])%bind_ok.
    + by intros [= _ <-].
  - intros (? & s1 & _ & R)%bind_ok. by injection R as _ <-.
Qed.

Lemma kb_bind_username u s : kb_ok s -> after (bind_username u) (fun _ => kb_ok) s.
Proof.
  intros Hk. unfold bind_username. apply kb_bind; [done|]. intros ? ? [= <- <-] _. apply after_if; intros E.
  - apply kb_bind; [apply kb_frames; [kv|done]|]. intros _ s' _ _ _. done.
  - apply kb_frames; [kv|done].
Qed.

Lemma kb_DoUserAuthRequest b n s : kb_ok s -> after (DoUserAuthRequest b n) (fun _ => kb_ok) s.
Proof.
  intros Hk. unfold DoUserAuthRequest.
  apply kb_bind; [apply kb_frames; [kv|done]|]. intros _ s1 _ Hk1.
  apply kb_bind; [apply kb_frames; [kv|done]|]. intros [[? u] i] s2 _ Hk2.
  apply kb_bind; [apply kb_frames; [kv|done]|]. intros [[? sv] j] s3 _ Hk3. cbv beta iota.
  apply after_if; intros _.
  - apply kb_bind; [by intros [=]|]. intros _ s4 _ Hk4. apply kb_frames; [|done]. kv.
  - apply kb_bind; [apply kb_frames; [kv|done]|]. intros [[? nm] k] s4 _ Hk4. cbv beta iota.
    apply kb_bind; [by apply kb_bind_username|]. intros a5 s5 Es _. apply bind_username_seen in Es.
    apply kb_bind; [by intros _|]. intros _ s6 [= <-] Hk6.
    apply kb_frames; [|done]. kv.
Qed.

Lemma kb_handle_auth m b n s : kb_ok s -> kb_ok (handle_auth m b n s).2.
Proof.
  intros Hk. destruct m; [by apply kb_DoUserAuthRequest|]. by apply (kb_frames _ _ (kv_DoUserAuthInfoResponse b n)).
Qed.

(** ** A session in which nobody is let in without a verdict *)

Definition entered (s : WOLFSSH) : Prop :=
  CLIENT_USERAUTH_DONE <= clientState s \/ ACCEPT_SERVER_USERAUTH_ACCEPT_SENT < acceptState s.
Definition welcome (s : WOLFSSH) : Prop :=
  userAuthSeen (auth s) = true /\ exists m, let_in m (default [] (userName (auth s))).

Record safe (s : WOLFSSH) : Prop := {
  safe_below : below s;
  safe_kb : kb_ok s;
  safe_entered : entered s -> welcome s
}.

(** A session its own error has ended: [wolfSSH_accept] refuses to go on with it. *)
Definition over (s : WOLFSSH) : Prop := error s ∉ [0; WS_WANT_READ; WS_WANT_WRITE; WS_AUTH_PENDING].

Lemma safe_calm s s' : calm s s' -> safe s -> safe s'.
Proof.
  intros (Ea & Eu & Hc) [Hb Hk He]. split; unfold below, kb_ok, entered, welcome in *; rewrite ?Eu, ?Ea; [done|done|].
  intros [Hd|Hd]; apply He; [|by right]. destruct Hc as [<-|Hc]; [by left|lia].
Qed.
Lemma safe_aview s s' : aview s' = aview s -> safe s -> safe s'.
Proof. intros. by eapply safe_calm; [apply calm_aview|]. Qed.
Lemma safe_cview s s' : cview s' = cview s -> ACCEPT_SERVER_USERAUTH_SENT <= acceptState s -> safe s -> safe s'.
Proof.
  intros [= Ea Eu] Hs [Hb Hk He]. split; unfold below, kb_ok, entered, welcome in *; rewrite ?Eu, ?Ea; [done|done|].
  intros _. apply He. right. clia.
Qed.

(** The rest of the view an authentication message leaves alone. *)
Lemma acceptState_of_rest {A} (m : M A) : frames rest m -> frames acceptState m.
Proof. intros Hm s. specialize (Hm s). by apply (f_equal acceptState) in Hm. Qed.
Ltac acc := repeat first [frames_step | match goal with |- frames _ (match ?x with _ => _ end) => destruct x eqn:? end
                        | solve [eauto with frames nocore] | solve [apply acceptState_of_rest; eauto with frames nocore]
                        | progress unfold_statement].
Lemma acc_settle v : frames acceptState (settle_auth v).
Proof. acc. Qed.
Hint Resolve acc_settle : frames.
Lemma acc_SendUserAuthKeyboardRequest d : frames acceptState (SendUserAuthKeyboardRequest d).
Proof. acc. Qed.
Hint Resolve acc_SendUserAuthKeyboardRequest : frames.
Lemma acc_dispatch_auth d b n i : frames acceptState (dispatch_auth d b n i).
Proof. acc. Qed.
Hint Resolve acc_dispatch_auth : frames.
Lemma acc_handle_auth m b n : frames acceptState (handle_auth m b n).
Proof. destruct m; cbn [handle_auth]; acc. Qed.

Lemma info_response_authId b n s a s' : DoUserAuthInfoResponse b n s = (Ok a, s') -> authId (auth s) = ID_USERAUTH_KEYBOARD.
Proof.
  unfold DoUserAuthInfoResponse. rewrite st_guard. case_match; [done|]. rewrite st_guard. case_match; [done|].
  rewrite st_get, st_guard. destruct (id_eqb _ _) eqn:E; [|done]. intros _. by apply id_eqb_spec in E.
Qed.

Lemma safe_handle_auth m b n s : safe s ->
  after (handle_auth m b n) (fun r s' => safe s' \/ ended r) s.
Proof.
  intros [Hb Hk He]. pose proof (handle_auth_guarded m b n s Hb) as Hg. pose proof (kb_handle_auth m b n s Hk) as Hk'.
  pose proof (acc_handle_auth m b n s) as Ha.
  unfold after. cbv zeta in Hg. destruct (handle_auth m b n s) as [r s'] eqn:E. cbn [fst snd] in *.
  destruct Hg as [Gm Gf Gl Gn Gs]. destruct Gl as [Gl|[_ Gl]]; [left|by right]. split; [|done|].
  - destruct Hb as [Hb Hw]. unfold below. rewrite Gm in *. split; [lia|done].
  - unfold entered. rewrite Ha. intros Hd.
    destruct Gs as [Gs|(_ & (u & Hu & HG) & a & ->)].
    + rewrite Gs in Hd. destruct (He Hd) as [Hs Hm]. destruct (Gn Hs) as [Hs' Hn]. unfold welcome. by rewrite Hn.
    + assert (userAuthSeen (auth s) = true \/ m = RequestMsg) as Hs.
      { destruct m; [by right|left]. by eapply Hk, info_response_authId. }
      destruct (Hu Hs) as [Hs' ->]. split; [done|by exists m].
Qed.
Lemma safe_calmly {A} (m : M A) s : calmly m -> safe s -> after m (fun r s' => safe s' \/ ended r) s.
Proof. intros Hm Hs. left. by eapply safe_calm. Qed.

Create HintDb calm discriminated.
Hint Resolve calm_DoServiceRequest calm_DoKexDhInit calm_handle_kexinit : calm.

Lemma calm_from_start f b n : (forall p i, frames aview (f p i)) -> calmly (from_start f b n).
Proof. intros Hf. apply calmly_aview, Hf. Qed.

(** A message of the connection comes to a session that has been entered. *)
Lemma safe_connection f b n s : (forall p i, frames cview (f p i)) -> ACCEPT_SERVER_USERAUTH_SENT <= acceptState s -> safe s ->
  after (from_start f b n) (fun r s' => safe s' \/ ended r) s.
Proof. intros Hf Ha Hs. left. eapply safe_cview; [apply Hf|done|done]. Qed.

(** What the filter lets through to a server. *)
Definition admitted (msg : Z) (s : WOLFSSH) : Prop :=
  ~ In msg [MSGID_SERVICE_ACCEPT; MSGID_KEXDH_REPLY; MSGID_KEXDH_GEX_REPLY; MSGID_USERAUTH_FAILURE; MSGID_USERAUTH_SUCCESS;
            MSGID_USERAUTH_BANNER; MSGID_USERAUTH_INFO_REQUEST]
  /\ (MSGIDLIMIT_CONN_MIN <= msg -> ACCEPT_SERVER_USERAUTH_SENT <= acceptState s).

Lemma allowed_admitted msg s s' : side = WOLFSSH_ENDPOINT_SERVER ->
  IsMessageAllowed msg WS_MSG_RECV s = (Ok true, s') -> admitted msg s'.
Proof.
  intros Hside Ha. split.
  - intros Hm%list_elem_of_In. by pose proof (server_refuses _ _ _ _ Hside Hm Ha).
  - intros Hm. pose proof (av_allowed msg WS_MSG_RECV s) as F. rewrite Ha in F. injection F as -> _ _.
    destruct (connection_after_auth _ _ _ _ Hm Ha) as [[_ ?]|[Hc _]]; [done|]. rewrite Hside in Hc. discriminate Hc.
Qed.

Lemma safe_handler msg b n s : side = WOLFSSH_ENDPOINT_SERVER -> admitted msg s -> safe s ->
  after (handler msg b n) (fun r s' => safe s' \/ ended r) s.
Proof.
  intros Hside [Hm Hauth] Hs. unfold handler. destruct (find _ handlers) as [[id f]|] eqn:Ef.
  2:{ apply safe_calmly; [apply calmly_aview; eauto with frames nocore|done]. }
  apply find_some in Ef as [Hin Hid%Z.eqb_eq]. subst id. unfold handlers in Hin. cbn [In] in Hin.
  repeat (destruct Hin as [Hin|Hin]; [injection Hin as <- <-|]); [..|done].
  all: try solve [apply safe_calmly; [first [solve [eauto with calm nocore] | solve [apply calmly_aview; eauto with frames nocore]
                   | apply calm_from_start; eauto with frames nocore]|done]].
  all: try solve [exfalso; apply Hm; cbn [In]; repeat first [left; reflexivity|right]].
  all: try solve [apply (safe_handle_auth RequestMsg _ _ _ Hs) | apply (safe_handle_auth InfoResponseMsg _ _ _ Hs)].
  all: apply safe_connection; [first [exact cv_DoChannelOpen | exact cv_DoChannelRequest]|apply Hauth; clia|done].
Qed.

(** ** A packet *)

(** The code of a message that has ended the session, as the packet's end passes it on. *)
Definition ending (c : Z) : Prop := c = WS_USER_AUTH_E \/ c = WS_BUFFER_E.

Definition coded {A} (s' : WOLFSSH) (r : res (Z * A)) : Prop :=
  match r with Ok (ret, _) => safe s' \/ ending ret | Err _ => safe s' | UB => True end.

Lemma coded_quiet {A} (m : M (Z * A)) s : frames aview m -> safe s -> after m (fun r s' => coded s' r) s.
Proof.
  intros Hm Hs. apply (after_frames aview); [done|]. intros r s' _ E. apply (safe_aview _ _ E) in Hs.
  destruct r as [[ret a]|e|]; [by left|done..].
Qed.

(** A quiet step, and the rest. *)
Lemma quiet_bind {A B} (P : res B -> WOLFSSH -> Prop) (m : M A) (k : A -> M B) s :
  frames aview m -> safe s -> (forall e s', safe s' -> P (Err e) s') -> (forall s', P UB s') ->
  (forall a s', m s = (Ok a, s') -> safe s' -> after (k a) P s') -> after (m ≫= k) P s.
Proof.
  intros Hm Hs He Hu Hk. apply after_bind, (after_frames aview); [done|]. intros r s' E F. apply (safe_aview _ _ F) in Hs.
  destruct r; auto.
Qed.

Lemma coded_dispatch msg b s : side = WOLFSSH_ENDPOINT_SERVER -> admitted msg s -> safe s ->
  after (dispatch msg b) (fun r s' => coded s' r) s.
Proof.
  intros Hside Ha Hs. unfold dispatch. do 2 after_step. cbv zeta. apply after_bind, after_code.
  eapply after_mono; [by apply safe_handler|]. intros r s' Hr.
  destruct r as [[]|e|]; [| |done]; do 2 after_step; (destruct Hr as [Hr|[Hr|Hr]]; [by left|try discriminate Hr..]).
  injection Hr as ->. right. by left.
Qed.

Lemma coded_filter_packet msg payload s : side = WOLFSSH_ENDPOINT_SERVER -> frames aview payload -> safe s ->
  after (filter_packet msg payload) (fun r s' => coded s' r) s.
Proof.
  intros Hside Hp Hs. unfold filter_packet. apply quiet_bind; [apply av_allowed|done..|]. intros b s1 Eb Hs1.
  apply quiet_bind; [by apply frames_get|done..|]. intros ? ? [= <- <-] _. cbv zeta.
  apply after_if; intros _; [apply coded_quiet; [av|done]|].
  apply after_if; intros _; [apply coded_quiet; [av|done]|].
  apply after_if; intros _; [apply coded_quiet; [av|done]|].
  apply after_if; intros Hb; [apply coded_quiet; [av|done]|]. apply negb_false_iff in Hb as ->.
  apply (allowed_admitted _ _ _ Hside) in Eb.
  apply after_bind, (after_frames aview); [done|]. intros r s2 _ F. pose proof (safe_aview _ _ F Hs1) as Hs2.
  destruct r as [p|e|]; [|done..].
  assert (admitted msg s2) as Ha. { unfold admitted in *. injection F as -> _ _. done. }
  apply after_bind. eapply after_mono; [by apply coded_dispatch|]. intros r s3 Hr. by destruct r as [[ret b]|e|].
Qed.

Lemma HighwaterCheck_answers sd s e : (HighwaterCheck sd s).1 <> Err e.
Proof.
  unfold HighwaterCheck. rewrite st_get. cbv zeta. destruct (bytes_over s), (msgs_over s); run;
    (destruct highwaterCb as [cb|] eqn:Ecb; [|done]); case_match; first [by eapply highwater_answers|done].
Qed.

Lemma coded_finish_packet a b c ret nk s : safe s \/ ending ret ->
  after (finish_packet a b c ret nk) (fun r s' => coded s' r) s.
Proof.
  intros [Hs|He]; [apply coded_quiet; [unfold finish_packet; av|done]|].
  unfold finish_packet. destruct (if c <? _ then _ else _) as [ret' idx] eqn:E.
  assert (ending ret') as He'. { revert E. case_match; intros [= <- _]; [by right|done]. }
  after_step. red. cbn [snd fst modify].
  set (s1 := s <| rx; inputBuffer ::= _ |>). after_step.
  apply after_mono with (Q := fun r _ => r = Ok tt); [by destruct nk; do 3 (try after_step)|]. intros r s2 ->.
  after_step. red. cbn [snd fst modify]. after_step. unfold after.
  pose proof (HighwaterCheck_answers WOLFSSH_HWSIDE_RECEIVE (s2 <| rx; rxMsgCount ::= (fun c => c +w 1) |>)) as Hh.
  destruct (HighwaterCheck _ _) as [[h|e|] s3]; cbn [fst snd] in *; [|by destruct (Hh e)|done].
  unfold coded. cbn [fst snd mret ST_ret]. right. destruct (Z.eqb_spec ret' WS_SUCCESS) as [->|]; [|done].
  by destruct He'.
Qed.

Lemma av_in_byte i : frames aview (in_byte i).
Proof. unfold in_byte, in_read. av. Qed.
Lemma coded_DoPacket s : side = WOLFSSH_ENDPOINT_SERVER -> safe s -> after DoPacket (fun r s' => coded s' r) s.
Proof.
  intros Hside Hs. unfold DoPacket. apply quiet_bind; [apply frames_get|done..|]. intros s1 ? [= <- <-] _. cbv zeta.
  apply quiet_bind; [apply av_in_byte|done..|]. intros padSz s1 _ Hs1.
  apply after_if; intros _; [apply coded_quiet; [unfold no_rekey; av|done]|].
  apply after_if; intros _; [apply coded_quiet; [unfold no_rekey; av|done]|].
  apply quiet_bind; [apply av_in_byte|done..|]. intros msg s2 _ Hs2.
  apply after_if; intros _; [apply coded_quiet; [av|done]|].
  apply after_bind. eapply after_mono; [apply coded_filter_packet; [done|unfold in_read; av|done]|].
  intros [[ret done']|e|] s3 Hr; [|done..]. destruct done' as [nk|]; [|done].
  apply after_if; intros _; [done|]. by apply coded_finish_packet.
Qed.

Definition got (r : res unit) (s' : WOLFSSH) : Prop :=
  match r with Ok _ => safe s' | Err e => safe s' \/ (over s' /\ e = WS_FATAL_ERROR) | UB => True end.

Lemma got_quiet (m : M unit) s : frames aview m -> safe s -> after m got s.
Proof.
  intros Hm Hs. apply (after_frames aview); [done|]. intros r s' _ E. apply (safe_aview _ _ E) in Hs.
  destruct r as [a|e|]; cbn [got]; [done|by left|done].
Qed.

Lemma ShrinkBuffer_answers f b e : (ShrinkBuffer f b).1 <> Err e.
Proof.
  unfold ShrinkBuffer, buffer_read. rewrite st_get. cbv zeta. case_match; [done|]. unfold mbind, ST_bind.
  repeat (case_match; simplify_eq/=); try done; unfold deref, ub, mret, ST_ret, lift_res in *; repeat (case_match; simplify_eq/=); done.
Qed.
Lemma in_shrink_answers f s e : (on_in (ShrinkBuffer f) s).1 <> Err e.
Proof.
  unfold on_in. pose proof (ShrinkBuffer_answers f (inputBuffer (rx s))) as Hb.
  destruct (ShrinkBuffer f _) as [[a|e'|] b]; cbn in *; [done|by destruct (Hb e')|done].
Qed.

Lemma ending_over ret s : ending ret -> error s = ret -> over s.
Proof. intros [-> | ->] E; unfold over; rewrite E; intros Hin%list_elem_of_In; cbn in Hin; repeat destruct Hin as [Hin|Hin]; done. Qed.

Lemma got_receive_packet mac s : side = WOLFSSH_ENDPOINT_SERVER -> safe s -> after (receive_packet mac) got s.
Proof.
  intros Hside Hs. unfold receive_packet. apply after_bind. eapply after_mono; [by apply coded_DoPacket|].
  intros [[ret bc]|e|] s1 Hr; [|by left|done]. destruct Hr as [Hr|He]; [apply got_quiet; [unfold set_state, set_error; av|done]|].
  apply after_bind. red. cbn [set_error modify fst snd]. set (s2 := s1 <| error := ret |>).
  apply after_bind. apply after_mono with (Q := fun r s3 => (exists u, r = Ok u \/ r = UB) /\ error s3 = ret).
  - apply after_when; intros _; [|by split; [exists tt; left|]].
    do 2 after_step. red. cbn [fst snd modify]. apply after_bind, after_bind. unfold after.
    set (s3 := s2 <| rx; inputBuffer ::= _ |>).
    pose proof (in_shrink_answers (b_length (inputBuffer (rx s3)) <=? b_idx (inputBuffer (rx s3))) s3) as Hn.
    assert (error (on_in (ShrinkBuffer (b_length (inputBuffer (rx s3)) <=? b_idx (inputBuffer (rx s3)))) s3).2 = ret) as Ee.
    { unfold on_in. by destruct (ShrinkBuffer _ _). }
    cbn [get fst snd]. destruct (on_in _ s3) as [[u|e|] s4]; cbn [fst snd] in *; [|by destruct (Hn e)|];
      (split; [exists tt; auto|done]).
  - intros r s3 [[u [->| ->]] E]; [|done]. pose proof (ending_over _ _ He E) as Ho.
    assert ((if (ret <? 0) && negb (soft_code ret) then WS_FATAL_ERROR else ret) = WS_FATAL_ERROR) as -> by (by destruct He as [-> | ->]).
    apply after_ret_code; [done|]. intros _. by right.
Qed.

Lemma got_seq (m : M unit) (k : M unit) s :
  frames aview m -> safe s -> (forall s', safe s' -> after k got s') -> after (m;; k) got s.
Proof. intros Hm Hs Hk. apply quiet_bind; [done|done|by left|done|]. intros _ s' _. apply Hk. Qed.

Lemma av_ReceiveData_loop k cb n : ioRecvCb = Some cb -> frames aview (ReceiveData_loop k cb n).
Proof. intros Hcb. revert n. induction k; intros n; cbn [ReceiveData_loop]; [av|]. av. Qed.
Hint Resolve av_ReceiveData_loop : frames.
Lemma av_ReceiveData n : frames aview (ReceiveData n).
Proof. unfold ReceiveData. av. Qed.
Hint Resolve av_ReceiveData : frames.
Lemma av_GetInputData_loop k n : frames aview (GetInputData_loop k n).
Proof. revert n. induction k; intros n; cbn [GetInputData_loop]; av. Qed.
Hint Resolve av_GetInputData_loop : frames.
Lemma av_forget_want_read : frames aview (modify (fun s => if error s =? WS_WANT_READ then s <| error := 0 |> else s)).
Proof. intros s. cbn. by case_match. Qed.
Lemma av_GetInputData n : frames aview (GetInputData n).
Proof. unfold GetInputData. apply frames_bind; [apply av_forget_want_read|]. intros _. av. Qed.
Hint Resolve av_GetInputData : frames.
Lemma av_decrypt_at i n : frames aview (decrypt_at i n).
Proof. av. Qed.
Hint Resolve av_decrypt_at : frames.
Lemma av_DiscardPacket : frames aview DiscardPacket.
Proof. av. Qed.
Hint Resolve av_DiscardPacket : frames.
Lemma av_RejectPacket n e : frames aview (RejectPacket n e).
Proof. av. Qed.
Hint Resolve av_RejectPacket : frames.
Lemma av_receive_head a b : frames aview (receive_head a b).
Proof. av. Qed.
Lemma av_receive_length a b c : frames aview (receive_length a b c).
Proof. av. Qed.
Lemma av_receive_finish a b c : frames aview (receive_finish a b c).
Proof. av. Qed.
Hint Resolve av_receive_head av_receive_length av_receive_finish : frames.

Lemma got_DoReceive s : side = WOLFSSH_ENDPOINT_SERVER -> safe s -> after DoReceive got s.
Proof.
  intros Hside Hs. unfold DoReceive, receive_from. do 2 after_step.
  repeat (apply after_if; intros _).
  - do 3 (apply got_seq; [eauto with frames nocore|done|]; intros ? ?). by apply got_receive_packet.
  - do 2 (apply got_seq; [eauto with frames nocore|done|]; intros ? ?). by apply got_receive_packet.
  - apply got_seq; [eauto with frames nocore|done|]; intros ? ?. by apply got_receive_packet.
  - by apply got_receive_packet.
  - apply got_quiet; [apply av_DiscardPacket|done].
  - apply got_quiet; [unfold set_error; av|done].
Qed.

(** ** The handshake of the server *)

Definition sound (s : WOLFSSH) : Prop := safe s \/ over s.

Definition accepts (r : res unit) (s' : WOLFSSH) : Prop :=
  match r with Ok _ => safe s' | Err _ => sound s' | UB => True end.

Lemma got_wait_loop k go recv s : (forall s, safe s -> after recv got s) -> safe s ->
  after (wait_loop k go recv) (fun r s' => accepts r s' /\ (r = Ok tt -> go s' = false)) s.
Proof.
  intros Hr. revert s. induction k as [|k IH]; intros s Hs; cbn [wait_loop]; do 2 after_step;
    (apply after_if; intros Hg; [|by split]); [by split|].
  apply after_bind, after_code. eapply after_mono; [by apply Hr|]. intros r s1 Hr1.
  destruct r as [a|e|]; cbn [got] in Hr1; [| |by split].
  - apply after_bind, after_guard; intros Hc; [done|by apply IH].
  - apply after_bind, after_guard; intros Hc.
    + split; [|done]. destruct Hr1 as [?|[? _]]; [by left|by right].
    + destruct Hr1 as [?|[_ ->]]; [by apply IH|done].
Qed.

Lemma got_recorded m s : frames aview m -> safe s -> after (recorded m) got s.
Proof. intros Hm Hs. apply got_quiet; [|done]. unfold recorded, set_error. av. Qed.

Lemma av_GetInputLine_loop k : frames aview (GetInputLine_loop k).
Proof. induction k; cbn [GetInputLine_loop]; av. Qed.
Hint Resolve av_GetInputLine_loop : frames.
Lemma av_DoProtoId_loop k b : frames aview (DoProtoId_loop k b).
Proof. induction k; cbn [DoProtoId_loop]; [av|]. unfold GetInputLine. av. Qed.
Hint Resolve av_DoProtoId_loop : frames.
Lemma calm_set_version : calmly (modify (fun s => if side =? WOLFSSH_ENDPOINT_SERVER then s <| clientState := CLIENT_VERSION_DONE |>
                                                else s <| serverState := SERVER_VERSION_DONE |>)).
Proof. destruct (side =? _); intros s; cbn; (split; [done|]); (split; [done|]); [by right|by left]. Qed.
Lemma calm_DoProtoId : calmly DoProtoId.
Proof.
  unfold DoProtoId. apply calmly_bind; [apply calmly_aview; av|]. intros eol.
  apply calmly_bind; [apply calmly_aview; av|]. intros s. cbv zeta.
  apply calmly_bind; [case_match; [apply calm_set_version|apply calmly_aview; av]|]. intros _. apply calmly_aview. av.
Qed.
Lemma got_DoProtoId s : safe s -> after (recorded DoProtoId) got s.
Proof.
  intros Hs. assert (calmly (recorded DoProtoId)) as Hc.
  { unfold recorded, set_error. apply calmly_bind; [apply calmly_code, calm_DoProtoId|]. intros. apply calmly_aview. av. }
  unfold after. pose proof (safe_calm _ _ (Hc s) Hs) as Hs'. destruct (recorded _ _) as [[a|e|] s']; cbn in *; [done|by left|done].
Qed.
Lemma got_DoReceiveHandshake s : side = WOLFSSH_ENDPOINT_SERVER -> safe s -> after DoReceiveHandshake got s.
Proof.
  intros Hside Hs. unfold DoReceiveHandshake. apply after_bind, after_code. eapply after_mono; [by apply got_DoReceive|].
  intros r s1 Hr1. destruct r as [a|e|]; cbn [got] in Hr1; [by apply after_ret_code; [|by left]| |done].
  destruct (Z.eqb_spec e WS_EOF) as [->|He].
  - apply after_ret_code; intros Hz; [|done]. by destruct Hr1 as [?|[_ ?]].
  - apply after_ret_code; intros Hz; [|done]. subst. by destruct Hr1 as [?|[_ ?]].
Qed.

Lemma safe_set_accept st s : safe s -> st <= ACCEPT_SERVER_USERAUTH_ACCEPT_SENT \/ entered s -> safe (s <| acceptState := st |>).
Proof.
  intros [Hb Hk He] Hst. split; [done|done|]. unfold entered, welcome in *. cbn. intros Hd. apply He.
  destruct Hst as [Hst|Hst]; [|done]. left. lia.
Qed.

(** What a case of the switch leaves for the next. *)
Definition next_case (cases : list (Z * M bool)) (s : WOLFSSH) : Prop :=
  match cases with (c, _) :: _ => acceptState s = c | [] => True end.
Definition case_post (cases : list (Z * M bool)) (r : res bool) (s' : WOLFSSH) : Prop :=
  match r with Ok brk => safe s' /\ (brk = false -> next_case cases s') | Err _ => sound s' | UB => True end.
Fixpoint chain (cases : list (Z * M bool)) : Prop :=
  match cases with
  | [] => True
  | (c, body) :: cases => (forall s, safe s -> acceptState s = c -> after body (case_post cases) s) /\ chain cases
  end.

Lemma safe_switch cases v (falling : bool) s : chain cases -> safe s -> (if falling then next_case cases s else acceptState s = v) ->
  after (switch cases v falling) accepts s.
Proof.
  revert falling s. induction cases as [|[c body] cases IH]; intros falling s Hc Hs Hn; [done|]. cbn [switch].
  destruct Hc as [Hb Hc]. apply after_if; intros E; [|apply IH; [done..|]].
  2:{ apply orb_false_iff in E as [-> _]. done. }
  assert (acceptState s = c) as Ea.
  { destruct falling; [done|]. cbn [orb] in E. apply Z.eqb_eq in E. congruence. }
  apply after_bind. eapply after_mono; [by apply Hb|]. intros [[]|e|] s' Hp; cbn [case_post] in Hp; try done; destruct Hp as [Hs' Hp].
  - done.
  - apply IH; [done..|by apply Hp].
Qed.

(** A case: what it waits for or sends, and the step to the next. *)
Lemma case_step (m : M unit) st brk cases s :
  after m (fun r s' => accepts r s' /\ (r = Ok tt -> st <= ACCEPT_SERVER_USERAUTH_ACCEPT_SENT \/ entered s')) s ->
  (brk = false -> forall s', next_case cases (s' <| acceptState := st |>)) ->
  after (m;; set_accept st;; mret brk) (case_post cases) s.
Proof.
  intros Hm Hn. apply after_bind. eapply after_mono; [exact Hm|]. intros r s' [Ha He]. destruct r as [[]|e|]; [|done..].
  split; [by apply safe_set_accept; auto|]. intros Hb. by apply Hn.
Qed.

Lemma case_sent m st brk cases s : frames aview m -> safe s -> st <= ACCEPT_SERVER_USERAUTH_ACCEPT_SENT \/ entered s ->
  (brk = false -> forall s', next_case cases (s' <| acceptState := st |>)) ->
  after (recorded m;; set_accept st;; mret brk) (case_post cases) s.
Proof.
  intros Hm Hs Hst Hn. apply case_step; [|done]. apply (after_frames aview); [unfold recorded, set_error; av|].
  intros r s' _ F. pose proof (safe_aview _ _ F Hs) as Hs'. split; [by destruct r; [|left|]|]. intros _.
  destruct Hst as [Hst|Hst]; [by left|right]. unfold entered in *. by injection F as -> -> _.
Qed.

Lemma case_wait go recv st cases s : (forall s, safe s -> after recv got s) -> safe s ->
  (forall s', go s' = false -> st <= ACCEPT_SERVER_USERAUTH_ACCEPT_SENT \/ entered s') ->
  (forall s', next_case cases (s' <| acceptState := st |>)) ->
  after (wait go recv;; set_accept st;; mret false) (case_post cases) s.
Proof.
  intros Hr Hs Hst Hn. apply case_step; [|done]. eapply after_mono; [by apply got_wait_loop|].
  intros r s' [Ha Hg]. split; [done|]. intros Hok. by apply Hst, Hg.
Qed.

Lemma entered_when s' c : CLIENT_USERAUTH_DONE <= c -> (clientState s' <? c) = false -> entered s'.
Proof. intros Hc Hd%Z.ltb_ge. left. lia. Qed.

Lemma av_open_forwarded_agent rng : frames aview (open_forwarded_agent rng).
Proof. unfold open_forwarded_agent, set_error. av. Qed.

Lemma chain_accept_cases stopState rng : side = WOLFSSH_ENDPOINT_SERVER -> chain (accept_cases stopState rng).
Proof.
  intros Hside. unfold accept_cases. cbn [chain].
  assert (forall s, safe s -> after DoReceive got s) as Hrecv by (intros; by apply got_DoReceive).
  repeat split; intros s Hs Ea.
  - apply case_sent; [unfold SendProtoId; av|done|left; clia|done].
  - apply case_wait; [exact got_DoProtoId|done|left; clia|done].
  - apply case_sent; [apply av_SendKexInit|done|left; clia|done].
  - apply case_wait; [done|done|left; clia|done].
  - apply case_wait; [done|done|left; clia|done].
  - apply case_sent; [av|done|left; clia|done].
  - apply case_wait; [done|done|right; by eapply entered_when; [|eassumption]|done].
  - apply case_sent; [av|done|right; right; rewrite Ea; clia|done].
  - apply case_wait; [done|done|right; eapply entered_when; [|eassumption]; clia|done].
  - apply after_bind. eapply after_mono; [apply got_wait_loop; [intros; by apply got_DoReceiveHandshake|done]|].
    intros r s1 [Ha Hg]. destruct r as [[]|e|]; [|done..]. specialize (Hg eq_refl). apply case_step; [|done].
    apply (after_frames aview); [apply av_open_forwarded_agent|]. intros r s2 _ F.
    split; [by destruct r; [eapply safe_aview|left; eapply safe_aview|]|]. intros _. right.
    eapply entered_when with (c := CLIENT_DONE); [clia|]. injection F as _ -> _. exact Hg.
Qed.

Lemma got_advance_accept stop s : safe s -> after (advance_accept stop) got s.
Proof.
  intros Hs. unfold advance_accept. do 2 after_step. apply after_when; intros Hc; [|done].
  red. cbn [set_accept modify fst snd got]. apply safe_set_accept; [done|]. apply negb_true_iff in Hc.
  destruct (Z.le_gt_cases (acceptState s + 1) ACCEPT_SERVER_USERAUTH_ACCEPT_SENT) as [|Hgt]; [by left|right; right].
  assert (acceptState s <> ACCEPT_SERVER_USERAUTH_ACCEPT_SENT); [|clia].
  intros E. rewrite E in Hc. discriminate Hc.
Qed.

Lemma accepts_accept_loop k stop rng s : side = WOLFSSH_ENDPOINT_SERVER -> safe s ->
  after (accept_loop k stop rng) (fun r s' => accepts r s' /\ (r = Ok tt -> acceptState s' = stop)) s.
Proof.
  intros Hside. revert s. induction k as [|k IH]; intros s Hs; cbn [accept_loop]; do 2 after_step;
    (apply after_if; intros Hg; [split; [done|]; intros _; by apply Z.eqb_eq|]); [by split|].
  apply after_bind. eapply after_mono; [by apply safe_switch; [apply chain_accept_cases|..]|].
  intros r s1 Ha. destruct r as [[]|e|]; [by apply IH|by split..].
Qed.

Lemma accepts_flush_pending m s : (forall s, safe s -> after m got s) -> safe s -> after (flush_pending m) accepts s.
Proof.
  intros Hm Hs. unfold flush_pending, set_error. apply quiet_bind; [av|done|by left|done|]. intros ret s1 _ Hs1.
  apply quiet_bind; [av|done|by left|done|]. intros _ s2 _ Hs2.
  apply after_if; intros _; [|by left]. apply after_bind. eapply after_mono; [by apply Hm|].
  intros r s3 Hr. destruct r as [[]|e|]; [|destruct Hr as [?|[? _]]; [by left|by right]|done].
  apply (after_frames aview); [unfold drop_processed, set_state; av|]. intros r s4 _ F.
  pose proof (safe_aview _ _ F Hr). by destruct r; [|left|].
Qed.

(** What a call of [wolfSSH_accept] makes of a sound session. *)
Definition accept_post (r : res unit) (s' : WOLFSSH) : Prop :=
  accepts r s' /\ (r = Ok tt -> ACCEPT_SERVER_USERAUTH_SENT <= acceptState s').

Lemma error_over s e : error s = e -> existsb (Z.eqb e) [0; WS_WANT_READ; WS_WANT_WRITE; WS_AUTH_PENDING] = false -> over s.
Proof.
  intros <- He Hin%list_elem_of_In. assert (existsb (Z.eqb (error s)) [0; WS_WANT_READ; WS_WANT_WRITE; WS_AUTH_PENDING] = true); [|congruence].
  apply existsb_exists. exists (error s). split; [done|apply Z.eqb_refl].
Qed.
Lemma over_refused s : over s -> (error s =? 0) = false
  /\ ((error s =? WS_WANT_READ) || (error s =? WS_WANT_WRITE) || (error s =? WS_AUTH_PENDING)) = false.
Proof.
  unfold over. intros Ho. rewrite list_elem_of_In in Ho. cbn [In] in Ho.
  split; [|rewrite !orb_false_iff; repeat split]; apply Z.eqb_neq; intros E; apply Ho; rewrite E; tauto.
Qed.

Lemma not_disconnected_after s :
  after not_disconnected (fun r s' => match r with Ok _ => s' = s | Err _ => over s' | UB => False end) s.
Proof.
  unfold not_disconnected, SendAfterDisconnect, after, mbind, ST_bind. cbn [get]. destruct (disconnected s); [|done].
  cbn. by eapply error_over.
Qed.

Lemma wolfSSH_accept_sound rng s : side = WOLFSSH_ENDPOINT_SERVER -> sound s -> after (wolfSSH_accept rng) accept_post s.
Proof.
  intros Hside Hs. unfold wolfSSH_accept. apply after_bind. eapply after_mono; [apply not_disconnected_after|].
  intros [a|e|] s1 E; [subst s1|by split; [right|]|done]. do 2 after_step. destruct Hs as [Hs|Ho].
  2:{ destruct (over_refused _ Ho) as [E0 E1]. rewrite E1. cbn [when]. unfold after, mbind, ST_bind. cbn. rewrite E0. by split; [right|]. }
  apply quiet_bind; [unfold set_error; av|done|by split; [left|]|by split|]. intros _ s1 _ Hs1.
  apply quiet_bind; [apply frames_get|done|by split; [left|]|by split|]. intros s2 ? [= <- <-] _.
  apply quiet_bind; [av|done|by split; [left|]|by split|]. intros _ s2 _ Hs2. cbv zeta.
  apply after_bind. apply after_mono with (Q := accepts).
  { apply after_when; intros _; [|done]. apply accepts_flush_pending; [intros; by apply got_advance_accept|done]. }
  intros r s3 Ha. destruct r as [[]|e|]; [|by split..].
  eapply after_mono; [by apply accepts_accept_loop|]. intros r s4 [Hr Hst]. split; [done|]. intros Hok. rewrite (Hst Hok).
  unfold accept_stop. case_match; clia.
Qed.

(** ** The property *)

(** A session as [wolfSSH_new] makes it, and the calls of [wolfSSH_accept] that are
    made of it until one succeeds; in between the application may do what leaves the
    state of the authentication alone, or look at an error the calls left. *)
Definition fresh (s : WOLFSSH) : Prop :=
  below s /\ authId (auth s) <> ID_USERAUTH_KEYBOARD
  /\ clientState s < CLIENT_USERAUTH_DONE /\ acceptState s <= ACCEPT_SERVER_USERAUTH_ACCEPT_SENT.

Inductive accept_run : WOLFSSH -> WOLFSSH -> Prop :=
| accept_new s : accept_run s s
| accept_again s s1 rng e s2 : accept_run s s1 -> wolfSSH_accept rng s1 = (Err e, s2) -> accept_run s s2
| accept_other s s1 s2 : accept_run s s1 -> aview s2 = aview s1 -> error s2 = error s1 -> accept_run s s2.

Lemma accept_run_sound s s' : side = WOLFSSH_ENDPOINT_SERVER -> fresh s -> accept_run s s' -> sound s'.
Proof.
  intros Hside Hf R. induction R as [s|s s1 rng e s2 R IH E|s s1 s2 R IH Ea Ee].
  - destruct Hf as (Hb & Hk & Hc & Ha). left. split; [done|by intros ?|]. intros [?|?]; clia.
  - pose proof (wolfSSH_accept_sound rng s1 Hside (IH Hf)) as [Ha _]. by rewrite E in Ha.
  - destruct (IH Hf) as [Hs|Ho]; [left; by eapply safe_aview|right]. unfold over in *. by rewrite Ee.
Qed.

(** C1: Nobody passes the server's handshake without having been let in: when, after any
    number of calls that were cut short, [wolfSSH_accept] succeeds, the peer has given
    a user name and a verdict on a message of the authentication has let it in under
    that very name - whatever was received, in whatever order, in whatever pieces. *)
Theorem accept_lets_in (rng : option bytes) (s s1 s2 : WOLFSSH) :
  side = WOLFSSH_ENDPOINT_SERVER -> fresh s -> accept_run s s1 -> wolfSSH_accept rng s1 = (Ok tt, s2) ->
  userAuthSeen (auth s2) = true /\ exists m, let_in m (default [] (userName (auth s2))).
Proof.
  intros Hside Hf R E. pose proof (wolfSSH_accept_sound rng s1 Hside (accept_run_sound _ _ Hside Hf R)) as [Ha Hst].
  rewrite E in Ha, Hst. cbn [fst snd] in Ha, Hst. apply (safe_entered _ Ha). right. specialize (Hst eq_refl). clia.
Qed.
End AuthSafe.

(** ** Example *)

(** The same application, on a network that gives three bytes at a time. *)
Definition door : CTX := auth_server <| @io_fuel := Z.to_nat 400 |> <| @ioRecvCb := Some dribble |>.

#[export] Instance door_sends : @QuietSends door.
Proof. split; [|done]. intros cb d [= <-] s. reflexivity. Defined.
#[export] Instance door_quiet : @QuietAuth door.
Proof. split; try done; by intros cb t d [= <-] s. Defined.

#[export] Instance door_bystanders : @Bystanders door.
Proof. split; try discriminate. intros cb n [= <-] s. unfold dribble. by destruct (_ <=? 0). Defined.

(** The service has been accepted and the client's password is on its way. *)
Definition at_the_door : WOLFSSH :=
  (new_session (plain_of (MSGID_USERAUTH_REQUEST :: password_request (str "secret")) (zeros 8)))
    <| acceptState := ACCEPT_SERVER_USERAUTH_ACCEPT_SENT |> <| clientState := CLIENT_USERAUTH_REQUEST_DONE |>
    <| appChannels := 1 |> <| isKeying := 0 |>.

Example accept_lets_in_witness :
  let run := @wolfSSH_accept door _ _ _ _ _ _ _ _ _ None at_the_door in
  run.1 = Ok tt /\ userAuthSeen (auth run.2) = true /\ exists m, @let_in door _ _ _ _ m (default [] (userName (auth run.2))).
Proof.
  intros run. assert (run.1 = Ok tt) as E by (by vm_compute).
  split; [exact E|].
  refine (@accept_lets_in door _ _ _ _ _ _ _ _ _ _ _ _ None at_the_door at_the_door run.2 eq_refl _ (accept_new _) _).
  - split; [split; [|unfold is_word32]; vm_compute; intuition congruence|].
    split; [by vm_compute|]. split; [by vm_compute|vm_compute; discriminate].
  - change (run = (Ok tt, run.2)). destruct run as [r s']. cbn in E. by rewrite E.
Defined.
