(* ===== verification/SftpPath.v ===== *)
(** The paths of an SFTP session (ssh.c, [wolfSSH_RealPath]; wolfsftp.c,
    [GetAndCleanPath], [CanonicalizePath], [wolfSSH_SFTP_SetConfinePath],
    [wolfSSH_SFTP_SetDefaultPath]): what a request names, and that it stays inside the
    root the session is confined to.

    A C string is the list of its bytes, without the terminator. *)

From S2P Require Import Prelude Codes.

(** ** Strings *)

Definition WOLFSSH_SFTP_IS_DELIM (c : Z) : bool := (c =? 47) || (c =? 92).
Definition WOLFSSH_SFTP_IS_WINPATH (p : bytes) : bool := (1 <? blen p) && (nth 1 p 0 =? 58).

(** The tokens [strtok_r] takes from a string; [seg] is the one being read. *)
Fixpoint WSTRTOK (p seg : bytes) : list bytes :=
  match p with
  | [] => match seg with [] => [] | _ => [seg] end
  | c :: p =>
    if WOLFSSH_SFTP_IS_DELIM c then match seg with [] => [] | _ => [seg] end ++ WSTRTOK p []
    else WSTRTOK p (seg ++ [c])
  end.

Fixpoint strrchr (p : bytes) (c : Z) : option nat :=
  match p with
  | [] => None
  | x :: p => match strrchr p c with
              | Some i => Some (S i)
              | None => if x =? c then Some O else None
              end
  end.

(** [n] is the size of the array [s1] is in. *)
Definition wstrncat (s1 s2 : bytes) (n : Z) : option bytes :=
  if n <=? blen s1 then None
  else if blen s2 <=? n - blen s1 - 1 then Some (s1 ++ s2) else None.

(** ** The real path *)

(** What has been resolved so far, with its size as the code keeps it. *)
Definition RealPath_segment (outSz : Z) (seg : bytes) (cur : bytes * Z) : res (bytes * Z) :=
  let '(out, curSz) := cur in
  let segSz := blen seg in
  if bytes_eqb seg (str ".") then Ok (out, curSz)
  else if bytes_eqb seg (str "..") then
    match strrchr out 47 with
    | Some (S i) => Ok (take (S i) out, Z.of_nat (S i))
    | Some O => Ok (take 1 out, 1)
    | None => Ok (out, curSz)
    end
  else
    let sepSz := if negb (curSz =? 1) then 1 else 0 in
    if (outSz <=? segSz) || (outSz -w segSz <=? curSz +w sepSz) then Err WS_INVALID_PATH_E
    else
      match (if negb (curSz =? 1) then wstrncat out [47] outSz else Some out) with
      | None => Err WS_INVALID_PATH_E
      | Some out =>
        match wstrncat out seg outSz with
        | None => Err WS_INVALID_PATH_E
        | Some out => Ok (out, curSz +w sepSz +w segSz)
        end
      end.

Fixpoint RealPath_loop (outSz : Z) (segs : list bytes) (cur : bytes * Z) : res bytes :=
  match segs with
  | [] => Ok cur.1
  | seg :: segs => match RealPath_segment outSz seg cur with
                   | Ok cur => RealPath_loop outSz segs cur
                   | Err e => Err e
                   | UB => UB
                   end
  end.

Definition is_relative (p : bytes) : bool :=
  (blen p =? 0) || (negb (WOLFSSH_SFTP_IS_DELIM (nth 0 p 0)) && negb (WOLFSSH_SFTP_IS_WINPATH p)).

Definition wolfSSH_RealPath (defaultPath : option bytes) (p : bytes) (outSz : Z) : res bytes :=
  if outSz =? 0 then Err WS_BAD_ARGUMENT
  else
    match (if is_relative p then defaultPath else None) with
    | Some d => if outSz <=? blen d then Err WS_INVALID_PATH_E else RealPath_loop outSz (WSTRTOK p []) (d, blen d)
    | None => if outSz <=? 1 then UB else RealPath_loop outSz (WSTRTOK p []) ([47], 1)
    end.

(** ** The session's paths *)

(** The fields of a session, and the outcomes of the allocations to come. *)
Record Paths := mkPaths {
  sftpDefaultPath : option bytes;
  sftpConfinePath : option bytes;
  path_error : Z;
  path_mallocs : list bool
}.
#[export] Instance eta_Paths : Eta Paths := fun p =>
  mkPaths (sftpDefaultPath p) (sftpConfinePath p) (path_error p) (path_mallocs p).

(** What the system knows of a file. *)
Record WSTAT_T := mkStat {
  st_mode : Z;
  st_size : Z;
  st_uid : Z;
  st_gid : Z;
  st_atime : Z;
  st_mtime : Z
}.

(** What the system knows of files: the working directory, and the file a path names, if
    there is one, with the links on the way followed and with the last one not, and the
    file of a descriptor. *)
Class FileSystem := {
  WGETCWD : option bytes;
  WSTAT : bytes -> option WSTAT_T;
  WLSTAT : bytes -> option WSTAT_T;
  WFSTAT : Z -> option WSTAT_T
}.

(** The type of a file in its mode, as POSIX systems have it. *)
Definition S_ISLNK (mode : Z) : bool := Z.land mode 0xf000 =? 0xa000.

Section SftpPath.
Context `{FileSystem}.

(** A path that names nothing is not a link: it may be created. *)
Definition wIsSymlink (path : bytes) : bool :=
  match WLSTAT path with Some lst => S_ISLNK (st_mode lst) | None => false end.

Definition CanonicalizePath (path : bytes) (outSz : Z) : res bytes :=
  if WOLFSSH_MAX_FILENAME <=? blen path then Err WS_BUFFER_E
  else if negb (WOLFSSH_SFTP_IS_DELIM (nth 0 path 0)) && negb (WOLFSSH_SFTP_IS_WINPATH path) then
    match WGETCWD with
    | None => Err WS_INVALID_PATH_E
    | Some cwd =>
      match wolfSSH_RealPath None cwd outSz with
      | Ok out => if WOLFSSH_MAX_FILENAME <=? blen out then Err WS_BUFFER_E else wolfSSH_RealPath (Some out) path outSz
      | r => r
      end
    end
  else wolfSSH_RealPath None path outSz.

Definition path_malloc : ST Paths bool :=
  p ← get;
  match path_mallocs p with
  | [] => mret true
  | ok :: rest => modify (fun p => p <| path_mallocs := rest |>);; mret ok
  end.

(** The path is in place only once there is memory for its copy. *)
Definition StorePath (store : bytes -> Paths -> Paths) (canon : bytes) : ST Paths unit :=
  mem ← path_malloc;
  if mem : bool then modify (store canon)
  else modify (fun p => p <| path_error := WS_MEMORY_E |>);; fail WS_FATAL_ERROR.

Definition wolfSSH_SFTP_SetConfinePath (path : option bytes) : ST Paths unit :=
  match path with
  | None => mret tt
  | Some path =>
    canon ← lift_res (CanonicalizePath path WOLFSSH_MAX_FILENAME);
    StorePath (fun c p => p <| sftpConfinePath := Some c |>) canon
  end.
Definition wolfSSH_SFTP_SetDefaultPath (path : option bytes) : ST Paths unit :=
  match path with
  | None => mret tt
  | Some path =>
    canon ← lift_res (CanonicalizePath path WOLFSSH_MAX_FILENAME);
    StorePath (fun c p => p <| sftpDefaultPath := Some c |>) canon
  end.

(** ** The path of a request *)

(** The size of the root without its trailing separators. *)
Fixpoint root_size (p : bytes) (n : nat) : nat :=
  match n with
  | S (S _ as m) => if WOLFSSH_SFTP_IS_DELIM (nth m p 0) then root_size p m else n
  | _ => n
  end.

(** The components of [s] below [cpLen] are looked at one by one, the leaf last. *)
Definition has_symlink (s : bytes) (cpLen : nat) : bool :=
  existsb (fun i => ((i =? length s)%nat || WOLFSSH_SFTP_IS_DELIM (nth i s 0)) && wIsSymlink (take i s))
    (seq (S cpLen) (length s - cpLen)).

Definition confined (confinePath s : bytes) : res unit :=
  let cpLen := root_size confinePath (length confinePath) in
  if (1 <? cpLen)%nat then
    if negb (bytes_eqb (take cpLen s) (take cpLen confinePath))
       || (negb (nth cpLen s 0 =? 0) && negb (WOLFSSH_SFTP_IS_DELIM (nth cpLen s 0)))
    then Err WS_PERMISSIONS
    else if has_symlink s cpLen then Err WS_PERMISSIONS else Ok tt
  else if (nth 0 s 0 =? 0) || negb (WOLFSSH_SFTP_IS_DELIM (nth 0 s 0)) then Err WS_PERMISSIONS
  else Ok tt.

Definition GetAndCleanPath (data : bytes) (sSz : Z) (p : Paths) : res bytes :=
  if WOLFSSH_MAX_FILENAME <=? blen data then Err WS_BUFFER_E
  else
    match wolfSSH_RealPath (sftpDefaultPath p) (cstr data) sSz, sftpConfinePath p with
    | Ok s, Some confinePath =>
      match confined confinePath s with Ok _ => Ok s | Err e => Err e | UB => UB end
    | r, _ => r
    end.

(** ** Canonical paths *)

(** A name of a directory or file; no "." or "..". *)
Definition in_name (c : Z) : Prop := WOLFSSH_SFTP_IS_DELIM c = false /\ c <> 0.
Definition ordinary (seg : bytes) : Prop :=
  seg <> [] /\ seg <> str "." /\ seg <> str ".." /\ Forall in_name seg.
Definition render (l : list bytes) : bytes :=
  match l with [] => [47] | _ => concat (map (cons 47) l) end.
Definition canonical (p : bytes) : Prop := exists l, Forall ordinary l /\ p = render l.

(** The reference: the names from the root on. *)
Definition walk (l : list bytes) (seg : bytes) : list bytes :=
  if bytes_eqb seg (str ".") then l else if bytes_eqb seg (str "..") then removelast l else l ++ [seg].

Lemma WSTRTOK_names p seg : Forall in_name p -> WSTRTOK p seg = match seg ++ p with [] => [] | _ => [seg ++ p] end.
Proof.
  revert seg. induction p as [|c p IH]; intros seg Hp; cbn [WSTRTOK]; [by rewrite app_nil_r|].
  apply Forall_cons_1 in Hp as [[-> _] Hp]. rewrite IH by done. by rewrite <- app_assoc.
Qed.

(** A string ends a token where the next begins with a separator. *)
Lemma WSTRTOK_app p q seg : (q = [] \/ exists c r, q = c :: r /\ WOLFSSH_SFTP_IS_DELIM c = true) ->
  WSTRTOK (p ++ q) seg = WSTRTOK p seg ++ WSTRTOK q [].
Proof.
  intros Hq. revert seg. induction p as [|c p IH]; intros seg; cbn [app WSTRTOK].
  - destruct Hq as [->|(c & r & -> & Hc)]; [by rewrite app_nil_r|]. cbn [WSTRTOK]. by rewrite Hc.
  - case_match; rewrite IH; [by rewrite app_assoc|done].
Qed.

Lemma WSTRTOK_seg seg : ordinary seg -> WSTRTOK (47 :: seg) [] = [seg].
Proof. intros (Hn & _ & _ & Hf). cbn. rewrite WSTRTOK_names by done. by destruct seg. Qed.

Lemma WSTRTOK_concat l : Forall ordinary l -> WSTRTOK (concat (map (cons 47) l)) [] = l.
Proof.
  induction 1 as [|seg l Hs Hl IH]; [done|]. cbn [map concat]. rewrite WSTRTOK_app.
  - rewrite WSTRTOK_seg by done. by rewrite IH.
  - destruct l as [|x l]; [by left|right]. cbn. by eexists _, _.
Qed.
Lemma WSTRTOK_render l : Forall ordinary l -> WSTRTOK (render l) [] = l.
Proof. intros Hl. destruct l; [done|]. by apply WSTRTOK_concat. Qed.

Lemma one_token seg : Forall in_name seg ->
  Forall (fun t => t <> [] /\ Forall in_name t) match seg with [] => [] | _ => [seg] end.
Proof. intros Hs. destruct seg; [by apply Forall_nil|]. by apply Forall_singleton. Qed.

Lemma WSTRTOK_tokens p seg : Forall (fun c => c <> 0) p -> Forall in_name seg ->
  Forall (fun t => t <> [] /\ Forall in_name t) (WSTRTOK p seg).
Proof.
  revert seg. induction p as [|c p IH]; intros seg Hp Hs; cbn [WSTRTOK]; [by apply one_token|].
  apply Forall_cons_1 in Hp as [Hc Hp]. case_match.
  - apply Forall_app. split; [by apply one_token|]. by apply IH, Forall_nil.
  - apply IH; [done|]. apply Forall_app. split; [done|]. by apply Forall_singleton.
Qed.

Lemma strrchr_none p : Forall in_name p -> strrchr p 47 = None.
Proof.
  induction 1 as [|c p [Hc _] Hp IH]; cbn; [done|]. rewrite IH. destruct (Z.eqb_spec c 47); [by subst|done].
Qed.
Lemma strrchr_last p seg : Forall in_name seg -> strrchr (p ++ 47 :: seg) 47 = Some (length p).
Proof. intros Hs. induction p as [|c p IH]; cbn; [by rewrite strrchr_none|by rewrite IH]. Qed.

Lemma render_app l seg : render (l ++ [seg]) = concat (map (cons 47) l) ++ 47 :: seg.
Proof.
  assert (render (l ++ [seg]) = concat (map (cons 47) (l ++ [seg]))) as -> by (by destruct l).
  rewrite map_app, concat_app. cbn. by rewrite app_nil_r.
Qed.

Lemma walk_ordinary l t : Forall ordinary l -> t <> [] /\ Forall in_name t -> Forall ordinary (walk l t).
Proof.
  intros Hl [Hn Ht]. unfold walk. destruct (bytes_eqb t (str ".")) eqn:E1; [done|].
  destruct (bytes_eqb t (str "..")) eqn:E2.
  - induction l as [|x l _] using rev_ind; [done|]. rewrite removelast_last. by apply Forall_app in Hl as [? _].
  - apply Forall_app. split; [done|]. apply Forall_singleton. split; [done|].
    split; [intros ->; by rewrite bytes_eqb_refl in E1|]. by split; [intros ->; rewrite bytes_eqb_refl in E2|].
Qed.

Lemma render_length l : Forall ordinary l -> l <> [] -> 1 < blen (render l).
Proof.
  intros Hl Hn. induction l as [|x l _] using rev_ind; [done|]. rewrite render_app, blen_app, blen_cons.
  apply Forall_app in Hl as [_ [(Hx & _) _]%Forall_cons_1]. pose proof (blen_nonneg (concat (map (cons 47) l))).
  destruct x; [done|]. rewrite blen_cons. pose proof (blen_nonneg x). lia.
Qed.

(** ** The real path is the walk from the base *)

Lemma blen_nat (l : bytes) : Z.of_nat (length l) = blen l.
Proof. done. Qed.

Lemma render_removelast l : Forall ordinary l -> l <> [] ->
  exists i, strrchr (render l) 47 = Some i /\
    render (removelast l) = match i with O => take 1 (render l) | _ => take i (render l) end /\
    blen (render (removelast l)) = match i with O => 1 | _ => Z.of_nat i end /\
    blen (render (removelast l)) <= blen (render l).
Proof.
  intros Hl Hn. destruct (exists_last Hn) as (l' & x & ->). apply Forall_app in Hl as [Hl' [(_ & _ & _ & Hx) _]%Forall_cons_1].
  rewrite removelast_last, render_app, strrchr_last by done. eexists. split; [done|].
  destruct l' as [|y l'].
  { split; [done|]. split; [done|]. change (blen (render [])) with 1. cbn [map concat app]. rewrite blen_cons.
    pose proof (blen_nonneg x). lia. }
  set (q := concat (map (cons 47) (y :: l'))). assert (render (y :: l') = q) as -> by done.
  assert (exists n, length q = S n) as [n Eq] by (unfold q; cbn; by eexists). rewrite Eq. repeat split.
  - rewrite <- Eq. by rewrite take_app_length.
  - by rewrite <- blen_nat, Eq.
  - rewrite blen_app, blen_cons. pose proof (blen_nonneg x). lia.
Qed.

Lemma wstrncat_fits s1 s2 n : blen s1 + blen s2 < n -> wstrncat s1 s2 n = Some (s1 ++ s2).
Proof.
  intros Hl. unfold wstrncat. pose proof (blen_nonneg s1). pose proof (blen_nonneg s2).
  destruct (Z.leb_spec n (blen s1)); [lia|]. destruct (Z.leb_spec (blen s2) (n - blen s1 - 1)); [done|lia].
Qed.

Lemma render_one l : Forall ordinary l -> (blen (render l) =? 1) = match l with [] => true | _ => false end.
Proof.
  intros Hl. destruct l as [|x l]; [done|]. pose proof (render_length _ Hl ltac:(done)). apply Z.eqb_neq. lia.
Qed.

Lemma RealPath_segment_run outSz l t : is_word32 outSz -> Forall ordinary l -> t <> [] -> blen (render l) < outSz ->
  RealPath_segment outSz t (render l, blen (render l)) =
    if outSz <=? blen (render (walk l t)) then Err WS_INVALID_PATH_E else Ok (render (walk l t), blen (render (walk l t))).
Proof.
  intros Hw Hl Ht Hs. unfold RealPath_segment, walk. destruct (bytes_eqb t (str ".")).
  { destruct (Z.leb_spec outSz (blen (render l))); [lia|done]. }
  destruct (bytes_eqb t (str "..")).
  - destruct l as [|y l0].
    { change (blen (render (removelast []))) with 1. change (blen (render [])) with 1 in *. by destruct (Z.leb_spec outSz 1); [lia|]. }
    destruct (render_removelast (y :: l0) Hl ltac:(done)) as (i & -> & E1 & E2 & E3).
    destruct (Z.leb_spec outSz (blen (render (removelast (y :: l0))))); [lia|]. rewrite E2, E1. by destruct i.
  - rewrite render_app, blen_app, blen_cons, render_one by done. pose proof (blen_nonneg t). pose proof (blen_nonneg (render l)).
    unfold is_word32 in Hw. destruct l as [|y l]; cbn [negb].
    + change (blen (render [])) with 1 in *. change (blen (concat (map (cons 47) []))) with 0.
      destruct (Z.leb_spec outSz (0 + (1 + blen t))) as [Hle|Hgt].
      * destruct (Z.leb_spec outSz (blen t)); [done|]. cbn [orb]. rewrite !wrap32_small by lia.
        by destruct (Z.leb_spec (outSz - blen t) (1 + 0)); [|lia].
      * destruct (Z.leb_spec outSz (blen t)); [lia|]. cbn [orb]. rewrite !wrap32_small by lia.
        destruct (Z.leb_spec (outSz - blen t) (1 + 0)); [lia|].
        rewrite wstrncat_fits by (change (blen (render [])) with 1; lia). done.
    + assert (render (y :: l) = concat (map (cons 47) (y :: l))) as <- by done.
      destruct (Z.leb_spec outSz (blen (render (y :: l)) + (1 + blen t))) as [Hle|Hgt].
      * destruct (Z.leb_spec outSz (blen t)); [done|]. cbn [orb]. rewrite !wrap32_small by lia.
        by destruct (Z.leb_spec (outSz - blen t) (blen (render (y :: l)) + 1)); [|lia].
      * destruct (Z.leb_spec outSz (blen t)); [lia|]. cbn [orb]. rewrite !wrap32_small by lia.
        destruct (Z.leb_spec (outSz - blen t) (blen (render (y :: l)) + 1)); [lia|].
        rewrite wstrncat_fits by (change (blen [47]) with 1; lia).
        rewrite wstrncat_fits by (rewrite blen_app; change (blen [47]) with 1; lia). rewrite <- app_assoc. cbn [app].
        f_equal. f_equal. lia.
Qed.

(** Every path on the way has room. *)
Definition fits (outSz : Z) (base toks : list bytes) : bool :=
  forallb (fun k => blen (render (foldl walk base (take k toks))) <? outSz) (seq 0 (S (length toks))).

Lemma forallb_seq_S f m n : forallb f (seq (S m) n) = forallb (fun k => f (S k)) (seq m n).
Proof. revert m. induction n as [|n IH]; intros m; cbn [seq forallb]; [done|by rewrite IH]. Qed.

Lemma fits_cons outSz base t toks : fits outSz base (t :: toks) = (blen (render base) <? outSz) && fits outSz (walk base t) toks.
Proof.
  unfold fits. change (seq 0 (S (length (t :: toks)))) with (O :: seq 1 (S (length toks))). cbn [forallb]. f_equal.
  by rewrite forallb_seq_S.
Qed.

Lemma RealPath_loop_run outSz toks l : is_word32 outSz -> Forall ordinary l ->
  Forall (fun t => t <> [] /\ Forall in_name t) toks -> blen (render l) < outSz ->
  RealPath_loop outSz toks (render l, blen (render l)) =
    if fits outSz l toks then Ok (render (foldl walk l toks)) else Err WS_INVALID_PATH_E.
Proof.
  intros Hw Hl Ht. revert l Hl. induction Ht as [|t toks [Hn Ht] _ IH]; intros l Hl Hs.
  - cbn. destruct (Z.ltb_spec (blen (render l)) outSz); [done|lia].
  - cbn [RealPath_loop foldl]. rewrite RealPath_segment_run by done. rewrite fits_cons.
    destruct (Z.ltb_spec (blen (render l)) outSz); [|lia]. cbn [andb].
    destruct (Z.leb_spec outSz (blen (render (walk l t)))) as [Hle|Hlt].
    + assert (fits outSz (walk l t) toks = false) as ->; [|done].
      apply andb_false_iff. left. by apply Z.ltb_ge.
    + apply IH; [by apply walk_ordinary|done].
Qed.

(** ** What a path is resolved to *)

Definition base_of (defaultPath : option bytes) (p : bytes) : list bytes :=
  if is_relative p then WSTRTOK (default [] defaultPath) [] else [].

Lemma walks_ordinary toks l : Forall ordinary l -> Forall (fun t => t <> [] /\ Forall in_name t) toks ->
  Forall ordinary (foldl walk l toks).
Proof. intros Hl Ht. revert l Hl. induction Ht as [|t toks Hn _ IH]; intros l Hl; [done|]. by apply IH, walk_ordinary. Qed.

Lemma base_ordinary d p : (forall dir, d = Some dir -> canonical dir) -> Forall ordinary (base_of d p).
Proof.
  intros Hd. unfold base_of. destruct (is_relative p); [|by apply Forall_nil]. destruct d as [dir|]; [|by apply Forall_nil].
  destruct (Hd dir eq_refl) as (l & Hl & ->). cbn. by rewrite WSTRTOK_render.
Qed.

Lemma RealPath_run d p outSz : 1 < outSz -> is_word32 outSz -> Forall (fun c => c <> 0) p ->
  (forall dir, d = Some dir -> canonical dir) ->
  wolfSSH_RealPath d p outSz =
    (if fits outSz (base_of d p) (WSTRTOK p []) then Ok (render (foldl walk (base_of d p) (WSTRTOK p [])))
     else Err WS_INVALID_PATH_E)
  /\ Forall ordinary (foldl walk (base_of d p) (WSTRTOK p [])).
Proof.
  intros Ho Hw Hp Hd. pose proof (base_ordinary d p Hd) as Hb.
  assert (Forall (fun t => t <> [] /\ Forall in_name t) (WSTRTOK p [])) as Ht by (apply WSTRTOK_tokens; [done|by apply Forall_nil]).
  split; [|by apply walks_ordinary]. unfold wolfSSH_RealPath. destruct (Z.eqb_spec outSz 0); [lia|].
  assert (forall l, Forall ordinary l -> blen (render l) < outSz ->
    RealPath_loop outSz (WSTRTOK p []) (render l, blen (render l)) =
      if fits outSz l (WSTRTOK p []) then Ok (render (foldl walk l (WSTRTOK p []))) else Err WS_INVALID_PATH_E) as K
    by (intros; by apply RealPath_loop_run).
  unfold base_of in *. destruct (is_relative p).
  2:{ destruct (Z.leb_spec outSz 1); [lia|]. apply (K []); [by apply Forall_nil|done]. }
  destruct d as [dir|]; [|destruct (Z.leb_spec outSz 1); [lia|]; apply (K []); [by apply Forall_nil|done]].
  destruct (Hd dir eq_refl) as (l & Hl & ->). cbn [default from_option id]. rewrite WSTRTOK_render by done.
  destruct (Z.leb_spec outSz (blen (render l))) as [Hle|Hlt]; [|by apply K].
  assert (fits outSz l (WSTRTOK p []) = false) as ->; [|done].
  unfold fits. apply andb_false_iff. left. by apply Z.ltb_ge.
Qed.

(** C40: the real path of a name is the walk along its components, a relative one from the
    session's directory and any other from the root: "." stays, ".." goes up and never
    above the root, and the path that comes out has neither in it. It is refused only
    when a path on the way would not fit in the buffer. *)
Theorem wolfSSH_RealPath_spec (d : option bytes) (p : bytes) (outSz : Z) :
  1 < outSz -> is_word32 outSz -> Forall (fun c => c <> 0) p ->
  (forall dir, d = Some dir -> canonical dir) ->
  wolfSSH_RealPath d p outSz =
    (if fits outSz (base_of d p) (WSTRTOK p []) then Ok (render (foldl walk (base_of d p) (WSTRTOK p [])))
     else Err WS_INVALID_PATH_E)
  /\ Forall ordinary (foldl walk (base_of d p) (WSTRTOK p [])).
Proof. apply RealPath_run. Qed.

(** ** Inside the root *)

Definition paths_ok (p : Paths) : Prop :=
  forall q, sftpDefaultPath p = Some q \/ sftpConfinePath p = Some q -> canonical q.

Lemma render_cons l : l <> [] -> render l = concat (map (cons 47) l).
Proof. by destruct l. Qed.

Lemma render_nul l : Forall ordinary l -> Forall (fun c => c <> 0) (render l).
Proof.
  intros Hl. destruct (decide (l = [])) as [->|Hn]; [by apply Forall_singleton|]. rewrite render_cons by done. clear Hn.
  induction Hl as [|x l (_ & _ & _ & Hx) _ IH]; cbn [map concat]; [by apply Forall_nil|].
  apply Forall_app. split; [|exact IH]. apply Forall_cons_2; [done|]. revert Hx. apply Forall_impl. by intros ? [_ ?].
Qed.

Lemma root_size_render r : Forall ordinary r -> root_size (render r) (length (render r)) = length (render r).
Proof.
  intros Hr. destruct (decide (r = [])) as [->|Hn]; [done|]. destruct (exists_last Hn) as (l & x & ->).
  apply Forall_app in Hr as [_ [(Hx & _ & _ & Hf) _]%Forall_cons_1]. destruct (exists_last Hx) as (y & c & ->).
  apply Forall_app in Hf as [_ [[Hc _] _]%Forall_cons_1]. rewrite render_app.
  replace (concat (map (cons 47) l) ++ 47 :: y ++ [c]) with ((concat (map (cons 47) l) ++ 47 :: y) ++ [c]) by (by rewrite <- app_assoc).
  set (q := concat (map (cons 47) l) ++ 47 :: y). assert (exists n, length q = S n) as [n Eq].
  { unfold q. rewrite length_app. cbn [length]. rewrite Nat.add_succ_r. by eexists. }
  assert (length (q ++ [c]) = S (S n)) as -> by (rewrite length_app, Eq; cbn; lia). cbn [root_size].
  assert (nth (S n) (q ++ [c]) 0 = c) as ->; [|by rewrite Hc]. rewrite <- Eq. by rewrite nth_middle.
Qed.

(** A path with the root in front, up to a separator, lies below it. *)
Lemma below_root r ss : Forall ordinary r -> Forall ordinary ss -> r <> [] ->
  take (length (render r)) (render ss) = render r ->
  nth (length (render r)) (render ss) 0 = 0 \/ WOLFSSH_SFTP_IS_DELIM (nth (length (render r)) (render ss) 0) = true ->
  exists l, ss = r ++ l.
Proof.
  intros Hr Hss Hn Ht Hd. rewrite <- (take_drop (length (render r)) (render ss)), Ht in Hd.
  pose proof (take_drop (length (render r)) (render ss)) as E. rewrite Ht in E. set (q := drop _ _) in *.
  rewrite app_nth2, Nat.sub_diag in Hd by lia.
  exists (WSTRTOK q []). rewrite <- (WSTRTOK_render ss) by done. rewrite <- E.
  rewrite WSTRTOK_app; [by rewrite WSTRTOK_render|].
  destruct q as [|c q']; [by left|right]. exists c, q'. split; [done|]. cbn [nth] in Hd. destruct Hd as [->|Hd]; [|done].
  pose proof (render_nul ss Hss) as Hz. rewrite <- E in Hz. apply Forall_app in Hz as [_ [Hz _]%Forall_cons_1]. done.
Qed.

Lemma no_symlink_at s cpLen i : has_symlink s cpLen = false -> (cpLen < i <= length s)%nat ->
  i = length s \/ nth i s 0 = 47 -> wIsSymlink (take i s) = false.
Proof.
  unfold has_symlink. intros Hs Hi Hd. apply not_true_iff_false in Hs. apply not_true_iff_false. intros Hw. apply Hs, existsb_exists.
  exists i. split; [apply in_seq; lia|]. rewrite Hw. destruct Hd as [->| ->]; [by rewrite Nat.eqb_refl|by rewrite orb_true_r].
Qed.

Lemma prefix_at l1 l2 : Forall ordinary (l1 ++ l2) -> l1 <> [] ->
  let i := length (render l1) in
  take i (render (l1 ++ l2)) = render l1 /\ (i <= length (render (l1 ++ l2)))%nat
  /\ (i = length (render (l1 ++ l2)) \/ nth i (render (l1 ++ l2)) 0 = 47).
Proof.
  intros Hl Hn i. assert (render (l1 ++ l2) = render l1 ++ concat (map (cons 47) l2)) as ->.
  { rewrite !render_cons, map_app, concat_app; [done|done|]. by intros [-> _]%app_eq_nil. }
  unfold i. split; [by rewrite take_app_length|]. rewrite length_app. split; [lia|].
  destruct l2 as [|x l2]; [left; cbn; lia|right]. cbn [map concat app]. by rewrite nth_middle.
Qed.

Lemma GetAndCleanPath_run data sSz p root s :
  paths_ok p -> 1 < sSz -> is_word32 sSz -> sftpConfinePath p = Some root -> GetAndCleanPath data sSz p = Ok s ->
  exists r l, Forall ordinary (r ++ l) /\ root = render r /\ s = render (r ++ l)
    /\ (r <> [] -> forall k, (0 < k <= length l)%nat -> wIsSymlink (render (r ++ take k l)) = false).
Proof.
  intros Hp Ho Hw Hroot. unfold GetAndCleanPath. destruct (_ <=? _); [done|]. rewrite Hroot.
  destruct (RealPath_run (sftpDefaultPath p) (cstr data) sSz) as [-> Hss];
    [done|done|apply cstr_no_nul|intros dir E; apply Hp; by left|].
  set (ss := foldl _ _ _) in *. destruct (fits _ _ _); [|done]. destruct (Hp root (or_intror Hroot)) as (r & Hr & ->).
  unfold confined. rewrite root_size_render by done. destruct (decide (r = [])) as [->|Hn].
  { destruct (1 <? _)%nat eqn:E1; [done|]. case_match; [|done..]. intros [= <-]. exists [], ss. done. }
  destruct (1 <? length (render r))%nat eqn:E1.
  2:{ apply Nat.ltb_ge in E1. pose proof (render_length r Hr Hn) as Hl. rewrite <- blen_nat in Hl. lia. }
  rewrite firstn_all. destruct (_ || _) eqn:Ec; [done|]. apply orb_false_iff in Ec as [E2%negb_false_iff E3].
  apply bytes_eqb_spec in E2. destruct (has_symlink _ _) eqn:Es; [done|]. intros [= <-].
  destruct (below_root r ss) as [l Hl]; [done|done|done|done| |].
  { apply andb_false_iff in E3 as [E3|E3]; apply negb_false_iff in E3; [left; by apply Z.eqb_eq|by right]. }
  exists r, l. rewrite <- Hl. split; [done|]. split; [done|]. split; [done|]. intros _ k Hk.
  assert (ss = (r ++ take k l) ++ drop k l) as Hk' by (rewrite <- app_assoc, take_drop; done).
  destruct (prefix_at (r ++ take k l) (drop k l)) as (T1 & T2 & T3); [by rewrite <- Hk'| |].
  { by intros [? _]%app_eq_nil. }
  rewrite <- Hk' in *. rewrite <- T1. apply (no_symlink_at _ (length (render r))); [done| |done]. split; [|done].
  destruct (prefix_at r (take k l)) as (_ & T4 & _); [rewrite Hl in Hss; apply Forall_app in Hss as [? ?]; apply Forall_app; split;
    [done|by apply Forall_take]|done|].
  assert (length (render r) <> length (render (r ++ take k l))); [|lia]. intros El.
  assert (take k l <> []) as Ht by (destruct l, k; cbn in *; [lia|lia|lia|done]).
  rewrite !render_cons, map_app, concat_app, length_app in El; [|by intros [? _]%app_eq_nil|done].
  destruct (take k l); [done|]. cbn in El. lia.
Qed.

(** ** The paths a session is given *)

Definition c_string (p : bytes) : Prop := Forall (fun c => c <> 0) p.
Context (cwd_string : forall cwd, WGETCWD = Some cwd -> c_string cwd).

Lemma RealPath_canonical d p outSz s : 1 < outSz -> is_word32 outSz -> c_string p ->
  (forall dir, d = Some dir -> canonical dir) -> wolfSSH_RealPath d p outSz = Ok s -> canonical s.
Proof.
  intros Ho Hw Hp Hd E. destruct (RealPath_run d p outSz Ho Hw Hp Hd) as [E' Hl]. rewrite E' in E.
  destruct (fits _ _ _); [|done]. injection E as <-. by eexists.
Qed.

Lemma RealPath_no_ub d p outSz : 1 < outSz -> is_word32 outSz -> c_string p ->
  (forall dir, d = Some dir -> canonical dir) -> wolfSSH_RealPath d p outSz <> UB.
Proof. intros Ho Hw Hp Hd. destruct (RealPath_run d p outSz Ho Hw Hp Hd) as [-> _]. by destruct (fits _ _ _). Qed.

Lemma CanonicalizePath_ok path outSz : 1 < outSz -> is_word32 outSz -> c_string path ->
  match CanonicalizePath path outSz with Ok s => canonical s | Err _ => True | UB => False end.
Proof.
  intros Ho Hw Hp. unfold CanonicalizePath. destruct (_ <=? blen path); [done|].
  assert (forall d, (forall dir, d = Some dir -> canonical dir) ->
    match wolfSSH_RealPath d path outSz with Ok s => canonical s | Err _ => True | UB => False end) as K.
  { intros d Hd. pose proof (RealPath_canonical d path outSz) as Kc. pose proof (RealPath_no_ub d path outSz Ho Hw Hp Hd) as Ku.
    destruct (wolfSSH_RealPath d path outSz); [by apply Kc|done|done]. }
  destruct (negb _ && negb _); [|by apply K]. pose proof cwd_string as Hc. destruct WGETCWD as [cwd|]; [|done].
  pose proof (RealPath_canonical None cwd outSz) as Kc. pose proof (RealPath_no_ub None cwd outSz Ho Hw (Hc _ eq_refl) ltac:(done)) as Ku.
  destruct (wolfSSH_RealPath None cwd outSz) as [out|e|]; [|done|done]. destruct (_ <=? blen out); [done|]. apply K. intros dir [= <-].
  by apply Kc; try done; apply Hc.
Qed.

(** One of the two paths is the session's own, or a canonical copy of the one given. *)
Definition set_outcome (path : option bytes) (get_path : Paths -> option bytes) (p : Paths) (r : res unit) (p' : Paths) : Prop :=
  match r with
  | Ok _ => match path with
            | None => p' = p
            | Some _ => exists q, canonical q /\ get_path p' = Some q
            end
  | Err _ => get_path p' = get_path p
  | UB => False
  end.

Lemma SetConfinePath_run path p : (forall q, path = Some q -> c_string q) ->
  let '(r, p') := wolfSSH_SFTP_SetConfinePath path p in
  set_outcome path sftpConfinePath p r p' /\ sftpDefaultPath p' = sftpDefaultPath p.
Proof.
  intros Hp. unfold wolfSSH_SFTP_SetConfinePath. destruct path as [q|]; [|done].
  pose proof (CanonicalizePath_ok q WOLFSSH_MAX_FILENAME ltac:(clia) ltac:(unfold is_word32; clia) (Hp q eq_refl)) as K.
  unfold mbind, ST_bind, lift_res. destruct (CanonicalizePath _ _) as [c|e|]; [|done|done].
  unfold StorePath, path_malloc, mbind, ST_bind. cbn. destruct (path_mallocs p) as [|[] ms]; cbn; (split; [|done]); first [by eexists|done].
Qed.

Lemma SetDefaultPath_run path p : (forall q, path = Some q -> c_string q) ->
  let '(r, p') := wolfSSH_SFTP_SetDefaultPath path p in
  set_outcome path sftpDefaultPath p r p' /\ sftpConfinePath p' = sftpConfinePath p.
Proof.
  intros Hp. unfold wolfSSH_SFTP_SetDefaultPath. destruct path as [q|]; [|done].
  pose proof (CanonicalizePath_ok q WOLFSSH_MAX_FILENAME ltac:(clia) ltac:(unfold is_word32; clia) (Hp q eq_refl)) as K.
  unfold mbind, ST_bind, lift_res. destruct (CanonicalizePath _ _) as [c|e|]; [|done|done].
  unfold StorePath, path_malloc, mbind, ST_bind. cbn. destruct (path_mallocs p) as [|[] ms]; cbn; (split; [|done]); first [by eexists|done].
Qed.

(** A session's paths, as a run of calls has set them. *)
Inductive path_run : Paths -> Prop :=
| path_new e ms : path_run (mkPaths None None e ms)
| path_confine p path r p' : path_run p -> (forall q, path = Some q -> c_string q) ->
    wolfSSH_SFTP_SetConfinePath path p = (r, p') -> path_run p'
| path_start p path r p' : path_run p -> (forall q, path = Some q -> c_string q) ->
    wolfSSH_SFTP_SetDefaultPath path p = (r, p') -> path_run p'.

Lemma set_outcome_canonical path get_path p r p' : set_outcome path get_path p r p' ->
  (forall q, get_path p = Some q -> canonical q) -> forall q, get_path p' = Some q -> canonical q.
Proof.
  unfold set_outcome. intros Ho Hp q Hq. destruct r as [u|e|]; [|rewrite Ho in Hq; auto|done].
  destruct path; [|subst; auto]. destruct Ho as (q' & Hc & E). congruence.
Qed.

Lemma path_run_ok p : path_run p -> paths_ok p.
Proof.
  induction 1 as [e ms|p path r p' _ IH Hp E|p path r p' _ IH Hp E]; intros q.
  - by intros [[=]|[=]].
  - pose proof (SetConfinePath_run path p Hp) as K. rewrite E in K. destruct K as [K Eq]. intros [Hq|Hq].
    + apply IH. left. congruence.
    + eapply set_outcome_canonical; [exact K| |exact Hq]. intros q' Hq'. apply IH. by right.
  - pose proof (SetDefaultPath_run path p Hp) as K. rewrite E in K. destruct K as [K Eq]. intros [Hq|Hq].
    + eapply set_outcome_canonical; [exact K| |exact Hq]. intros q' Hq'. apply IH. by left.
    + apply IH. right. congruence.
Qed.

(** C4: no request leaves the root a session is confined to: however its two paths were
    set, the path that comes out of a request - any bytes at all - is the root with
    ordinary names below it, none of them "." or "..", and no component on the way down
    from the root is a symbolic link. *)
Theorem GetAndCleanPath_confined (p : Paths) (data root s : bytes) (sSz : Z) :
  path_run p -> 1 < sSz -> is_word32 sSz -> sftpConfinePath p = Some root -> GetAndCleanPath data sSz p = Ok s ->
  exists r l, Forall ordinary (r ++ l) /\ root = render r /\ s = render (r ++ l)
    /\ (r <> [] -> forall k, (0 < k <= length l)%nat -> wIsSymlink (render (r ++ take k l)) = false).
Proof. intros R. apply GetAndCleanPath_run. by apply path_run_ok. Qed.

(** setting the root keeps the directory and, when it fails, the old root; when it
    succeeds the root is a canonical path, whatever way the path given names it. *)
Theorem SetConfinePath_spec (path : option bytes) (p : Paths) :
  (forall q, path = Some q -> c_string q) ->
  let '(r, p') := wolfSSH_SFTP_SetConfinePath path p in
  set_outcome path sftpConfinePath p r p' /\ sftpDefaultPath p' = sftpDefaultPath p.
Proof. apply SetConfinePath_run. Qed.
End SftpPath.

(** ** Examples *)

(** A working directory "/srv" with directories and one link in it. *)
#[export] Instance sample_files : FileSystem := {|
  WGETCWD := Some (str "/srv");
  WSTAT _ := None;
  WLSTAT s := if bytes_eqb s (str "/srv/jail/link") then Some (mkStat 0xa1ff 4 0 0 0 0)
              else if bytes_eqb s (str "/srv/jail/docs") then Some (mkStat 0x41ed 4096 0 0 0 0) else None;
  WFSTAT _ := None
|}.

(** The example of the source's comment. *)
Example wolfSSH_RealPath_spec_witness :
  let p := str "/home/fred/frob/frizz/../../../barney/bar/baz/./././../.." in
  wolfSSH_RealPath None p 256 = Ok (str "/home/barney") /\
  (wolfSSH_RealPath None p 256 =
    (if fits 256 (base_of None p) (WSTRTOK p []) then Ok (render (foldl walk (base_of None p) (WSTRTOK p [])))
     else Err WS_INVALID_PATH_E)
   /\ Forall ordinary (foldl walk (base_of None p) (WSTRTOK p []))).
Proof.
  intros p. split; [by vm_compute|]. apply (wolfSSH_RealPath_spec None p 256).
  - lia.
  - unfold is_word32. lia.
  - by apply (bool_decide_unpack _); vm_compute.
  - done.
Defined.

Definition jail : Paths := (wolfSSH_SFTP_SetDefaultPath (Some (str "/home")) (wolfSSH_SFTP_SetConfinePath (Some (str "jail/")) (mkPaths None None 0 [])).2).2.

Example GetAndCleanPath_confined_witness :
  let request := str "../srv/x/../jail/./docs//a.txt" in
  GetAndCleanPath request 256 jail = Ok (str "/srv/jail/docs/a.txt") /\
  GetAndCleanPath (str "/srv/jail/../jailer") 256 jail = Err WS_PERMISSIONS /\
  GetAndCleanPath (str "/srv/jail/link/x") 256 jail = Err WS_PERMISSIONS /\
  exists r l, Forall ordinary (r ++ l) /\ str "/srv/jail" = render r /\ str "/srv/jail/docs/a.txt" = render (r ++ l)
    /\ (r <> [] -> forall k, (0 < k <= length l)%nat -> wIsSymlink (render (r ++ take k l)) = false).
Proof.
  intros request. do 3 (split; [by vm_compute|]).
  assert (cs : forall cwd, WGETCWD = Some cwd -> c_string cwd).
  { intros cwd [= <-]. by apply (bool_decide_unpack _); vm_compute. }
  apply (GetAndCleanPath_confined cs jail request (str "/srv/jail") (str "/srv/jail/docs/a.txt") 256).
  - eapply path_start; [eapply path_confine; [apply (path_new 0 [])| |apply surjective_pairing]| |apply surjective_pairing];
      intros q [= <-]; by apply (bool_decide_unpack _); vm_compute.
  - lia.
  - unfold is_word32. lia.
  - by vm_compute.
  - by vm_compute.
Defined.

Example SetConfinePath_spec_witness :
  let p := mkPaths (Some (str "/home")) (Some (str "/old")) 0 [] in
  let '(r, p') := wolfSSH_SFTP_SetConfinePath (Some (str "./a/../jail/")) p in
  sftpConfinePath p' = Some (str "/srv/jail") /\
  set_outcome (Some (str "./a/../jail/")) sftpConfinePath p r p' /\ sftpDefaultPath p' = sftpDefaultPath p.
Proof.
  intros p. assert (cs : forall cwd, WGETCWD = Some cwd -> c_string cwd).
  { intros cwd [= <-]. by apply (bool_decide_unpack _); vm_compute. }
  pose proof (SetConfinePath_spec cs (Some (str "./a/../jail/")) p) as K.
  split; [by vm_compute|]. apply K. intros q [= <-]. by apply (bool_decide_unpack _); vm_compute.
Defined.
